(* ===== verification/_CoqProject ===== *)
-Q . S2P
Prelude.v
Spinlock.v
Proctab.v
Mlfq.v
Proc.v
Scheduler.v
SchedMlfq.v
ProcSpec.v
ForkSpec.v
Tables.v
Legs.v
Machine.v
MachineInv.v
MachineSafe.v
MachineProps.v
Mem.v
CString.v
Ring.v
Grep.v
Printf.v
Kbd.v
Console.v
Kalloc.v
Pipe.v
Log.v
Sleeplock.v
Bio.v
Memide.v
Ide.v
BioSys.v
Fs.v
FsAlloc.v
FsFile.v
FsInode.v
FsDir.v
File.v
FileSpec.v
Vm.v
VmSpec.v
VmUser.v
Umalloc.v
Sysfile.v
SysfileSpec.v
Sh.v
ShSpec.v
Exec.v
ExecSpec.v
Mkfs.v
MkfsSpec.v
MkfsImage.v
MkfsBoot.v
Mp.v
Sysproc.v
Trap.v
TrapSteps.v
TrapSpec.v
