(* ===== verification/Prelude.v ===== *)
(** * A verification of xv6-modified

    xv6-modified is xv6, the small Unix-like kernel for x86 multiprocessors in C,
    extended with four scheduling policies (round robin, first come first served,
    by priority, and a multi-level feedback queue with aging), with the system
    calls [waitx], [set_priority] and [getpinfo], and with per-process times.  This
    development models the kernel from the spin lock up to the system calls on files,
    and some of the user-level code, as Rocq functions, and proves the theorems that make the
    parts correct.

    ** The parts of the program and how they interact

    A process enters the kernel by a trap (trap.c), which handles an interrupt or calls the
    system call (syscall.c).  A system call fetches its arguments from
    the stack of the process and checks them.  It runs under the locks of
    spinlock.c, gives up the CPU through proc.c, and reaches files and devices
    through sysfile.c and file.c, which dispatches to pipe.c, console.c and fs.c.  The file system
    (fs.c) reads blocks through the buffer cache (bio.c) and changes them through
    the log (log.c), which makes a group of changes atomic with respect to crashes;
    the cache reads and writes blocks through a disk driver (ide.c or memide.c).
    Memory comes in pages from kalloc.c, which vm.c maps into the address space of a
    process and umalloc.c cuts into pieces for the program.  The kernel's scheduler runs on every CPU
    and switches to processes under ptable.lock.

    ** How code becomes definitions

    - An operation is a function in the monad [M S A := S -> outcome S A] over the
      state [S] of its component: it returns a value and a state ([Ret]), panics
      with a message ([Panic]), does something that C leaves undefined, such as an
      access outside an array ([Undef]), or waits for ever ([Spin]).  A theorem
      that an operation equals [Ret] therefore says that it does not panic, does
      not fault and terminates.
    - C structs are records with the fields of the source, arrays are lists, and a
      pointer to an element of a table is its index.  [unsigned] and [int] are
      integers in [Z] wrapped by [u8], [u16], [u32], [s32] where the code can
      overflow.  [for] loops over a known range are [for_each] or structural
      recursion over the list of the values of the loop variable.
    - A function that can block is cut where it sleeps: one leg runs from taking the
      lock, or from waking up, to the next sleep or the return.  A leg runs under its
      lock and is atomic.  Interleavings are step relations over legs, and safety is
      an invariant of every reachable state.
    - Loops that are not structural have fuel.  The fuel is a bound that the code
      has: the number of bytes for the loops of [readi], [writei] and [filewrite],
      the length of the path for [namex], the number of buffers for the lists of the
      cache, the size of the output buffer for [printint], the number of pages of an
      address space for the loops of vm.c, the break for the free list of umalloc.c, and
      four times the length of the line for the parser of the shell.  The theorems show the
      results with this fuel, so that it is enough.

    ** The files

    - [Prelude] (this file): the monad, record updates, machine integers, array
      access, [wp] rules and the [keeps] frame rules with their hint database, and
      lemmas on lists.
    - [Spinlock] (spinlock.c; mycpu, pushcli, popcli): the lock word, the owner, the
      interrupt flag and its nesting, and the interleaving of [acquire] and
      [release] on several CPUs: mutual exclusion.
    - [Proctab], [Mlfq] (the queues of proc.c): the ring buffers against FIFO lists.
    - [Proc] (proc.c): the process table and its operations, over a class [Services]
      that stands for memory, files and the log as they are called from proc.c.
      [Scheduler], [SchedMlfq]: the four policies, leg by leg.  [ProcSpec],
      [ForkSpec]: what fork, exit, wait and waitx do on every path.
    - [Tables], [Legs], [Machine], [MachineInv], [MachineSafe], [MachineProps]: any
      number of CPUs and processes, every interleaving of the critical sections,
      under any policy; the invariant and the theorems for all reachable states.
      The runs are bounded by the width of the counters: the clock stays below
      2^31 - 2, the next pid below 2^31 - 1 and the nesting of [pushcli] below 2^20.
    - [Sysproc] (sysproc.c), [Trap] (trap.c, the dispatch of syscall.c): the system calls
      on processes and the handling of a trap from its entry to its return or to the
      switch to the scheduler.  User memory (class [UserMem]) and the handlers of the
      devices (class [Handlers]) are parameters.  A system call on files ends the trap with
      its number, and goes on with its result.  [TrapSteps]: what a trap
      does is a sequence of steps of the machine.  [TrapSpec]: the clock interrupt.
    - [Mem], [CString] (string.c, ulib.c): byte memory and the string routines.
    - [Ring], [Pipe] (pipe.c): ring buffers with free-running counters; the pipe as a
      stream.
    - [Grep] (grep.c), [Printf] (printf.c, cprintf), [Kbd] (kbd.c), [Console]
      (console.c, uart.c).
    - [Kalloc] (kalloc.c): the free list threaded through the free pages.
    - [Log] (log.c): transactions over a disk that can crash between two writes, also
      while it commits or recovers.  The cache it reads and writes through has a buffer
      for every block; the theorems bound the buffers that the log keeps in it.
    - [Sleeplock] (sleeplock.c); [Bio] (bio.c) over the class [Driver] of disk
      drivers with its laws [DriverLaws]; [Memide] (memide.c) and [Ide] (ide.c), the
      latter over a controller (class [Ata]), are its instances, the controller if it
      reports no errors; [BioSys]: threads
      at the cache, for every driver that keeps the laws.
    - [Fs] (fs.c): the definitions.  [FsAlloc]: the block map.  [FsFile]: files as
      sequences of bytes.  [FsInode]: the inode cache and the inodes on disk.
      [FsDir]: directories and paths.  The cache and the log appear here through
      what their theorems promise: reading a block gives its current contents,
      [log_write] changes them and notes the block.
    - [File], [FileSpec] (file.c, pipealloc): open files over [Fs] and [Pipe].
    - [Vm] (vm.c): two-level page tables in physical memory.  [VmSpec]: which pages an
      address space maps and owns, and what each operation does to that.  [VmUser]:
      growing, copying, writing and freeing address spaces.
    - [Umalloc] (umalloc.c): the free list of the user-level allocator.
    - [Sysfile], [SysfileSpec] (syscall.c, sysfile.c): the arguments of system calls and
      the system calls on files, over [File] and the memory of the process.
    - [Exec], [ExecSpec] (exec.c, elf.h): loading a program into a new address space
      and putting it in the place of the old one.
    - [Sh], [ShSpec] (sh.c): the tokens, the parser, the termination of the strings of
      a parsed command, and the execution of commands over tables of descriptors.
    - [Mkfs] (mkfs.c): the builder of the disk image.  [MkfsSpec]: how [iappend] lays out
      files.  [MkfsImage]: the invariant of [main].  [MkfsBoot]: the image is one that
      the file system of the kernel can start from.
    - [Mp] (mp.c): the tables of the processors.

    ** What the theorems show

    - Processes: every trap is a sequence of steps of the machine, in all of whose reachable
      states a RUNNING process is on one CPU and the lock is held where it must
      be; no wakeup of a parent is lost; pids are unique; the queues hold no process
      twice; fork, exit, wait do what they say, errors included; each policy picks
      the process it should, a clock interrupt takes the CPU away when the policy says so,
      and round robin is starvation free.
    - Storage: a crash at any point of a commit or of a recovery leaves all or
      nothing of a transaction; no two threads have the same block; no block, page,
      inode entry or file entry is given out twice and none is lost; reads return
      what was written; a name that was linked is found; large writes are split into
      operations that fit the log.  The image of mkfs satisfies the invariants that these
      theorems start from: the kernel finds in it the files that mkfs was given.
    - Memory: a copied address space has the same contents in pages of its own; a
      failure to grow or to copy gives back every page it took; allocations of
      [malloc] never overlap; exec replaces the image of a process or leaves it as it
      was.
    - The shell: the parser ends on every line, reads back every printed command, and
      the commands of a pipeline and of a redirection get the descriptors that the
      line asks for.
    - System calls: no argument is read outside the memory of the process; the
      references of the descriptors are counted; a pipe is made with both descriptors
      or not at all.
    - Input and output: the pipe is a stream, the console's input is a queue of
      lines, printed numbers read back, the keyboard and the screen stay in bounds.

    Where the code does not do what its documentation says the theorems show that:
    equal priorities are not scheduled round robin, a waiting time can be -1, the log
    that mkfs makes is one block too short for what [begin_op] admits, the disk driver marks a
    buffer valid after an error, grep forgets
    part of a long line, [uva2ka] follows a page table that is not there, and [malloc]
    of a size near 2^32 returns a block that is too small, the shell opens the file of
    [>>] as that of [>], and its [cd] drops the last character of a line without a
    newline, and the root directory of mkfs can have one block less than its size says.

    ** What is not modelled

    - In vm.c the segment descriptors and the task state: they configure the processor
      and nothing that is modelled reads them.  proc.c reaches memory and files
      through [Services]; its theorems assume of these that they return and leave the
      process table alone but for locks and wakeups, and say which of their answers
      lead to which result.
    - The set-up of the hardware (lapic.c, ioapic.c, picirq.c, main.c), the
      assembly files and the boot loader: they are sequences of accesses to device
      registers.  The context switch appears as the cut between two legs, and the trap
      frame that trapasm.S builds is an argument of [trap].
    - Memory ordering: memory is sequentially consistent, as the barriers in
      spinlock.c make it for data under a lock.
    - The test programs. *)

From Stdlib Require Export ZArith Lia.
From stdpp Require Export base tactics list numbers gmap strings.

#[global] Open Scope Z_scope.

(** ** Record updates

    [r <| f := v |>] is the C assignment [r.f = v] on a record value;
    [r <| f ::= g |>] applies [g] to the old value of the field.  A record type
    declares its eta expansion once ([Eta]); the setter of a field is derived
    from it. *)

Class Eta (R : Type) := eta : R -> R.
Class Setter {R T : Type} (proj : R -> T) := setf : (T -> T) -> R -> R.

Ltac derive_setter :=
  lazymatch goal with
  | |- @Setter ?R ?T ?proj =>
      let e := constr:(_ : Eta R) in
      let e' := eval hnf in e in
      let f := fresh "f" in
      let r := fresh "r" in
      intros f r;
      let body := eval cbv beta in (e' r) in
      let pat := eval pattern (proj r) in body in
      lazymatch pat with
      | ?g _ => let t := eval cbv beta in (g (f (proj r))) in exact t
      end
  end.

#[global] Hint Extern 1 (@Setter _ _ _) => derive_setter : typeclass_instances.

Notation "r <| p := v |>" := (@setf _ _ p _ (fun _ => v) r)
  (at level 1, left associativity, p at level 1, v at level 200,
   format "r  <| p  :=  v |>").
Notation "r <| p ::= g |>" := (@setf _ _ p _ g r)
  (at level 1, left associativity, p at level 1, g at level 200,
   format "r  <| p  ::=  g |>").

(** ** Machine integers

    [uint] and [int] of the source are 32 bits wide.  A [uint] is a [Z] in
    [[0, 2^32)]; an [int] is a [Z] in [[-2^31, 2^31)].  [u32] and [s32] write
    out the wrap-around of an arithmetic result (two's complement, as the x86
    code does it); [u16] and [u8] are the stores into [ushort] and [uchar]. *)

Definition u8 (x : Z) : Z := x mod 2 ^ 8.
Definition u16 (x : Z) : Z := x mod 2 ^ 16.
Definition u32 (x : Z) : Z := x mod 2 ^ 32.
Definition s32 (x : Z) : Z := (x + 2 ^ 31) mod 2 ^ 32 - 2 ^ 31.

Definition is_u32 (x : Z) : Prop := 0 <= x < 2 ^ 32.
Definition is_s32 (x : Z) : Prop := - 2 ^ 31 <= x < 2 ^ 31.

(** [lia] with the defining equations of [/] and [mod] unfolded. *)
Ltac zlia := zify; Z.to_euclidean_division_equations; lia.

Lemma u32_range x : is_u32 (u32 x).
Proof. unfold is_u32, u32. zlia. Qed.

Lemma u32_small x : 0 <= x < 2 ^ 32 -> u32 x = x.
Proof. intros. apply Z.mod_small. lia. Qed.

Lemma s32_range x : is_s32 (s32 x).
Proof. unfold is_s32, s32. zlia. Qed.

Lemma s32_small x : - 2 ^ 31 <= x < 2 ^ 31 -> s32 x = x.
Proof. intros. unfold s32. rewrite Z.mod_small; lia. Qed.

Lemma s32_add_l a b : s32 (s32 a + b) = s32 (a + b).
Proof. unfold s32. zlia. Qed.

Lemma s32_sub_l a b : s32 (s32 a - b) = s32 (a - b).
Proof. unfold s32. zlia. Qed.

(** [a & ~(2^n - 1)] rounds down to a multiple of [2^n]. *)
Lemma land_lnot_ones a n : 0 <= n -> Z.land a (Z.lnot (Z.ones n)) = a / 2 ^ n * 2 ^ n.
Proof.
  intros Hn. rewrite <- Z.ldiff_land, Z.ldiff_ones_r by done.
  by rewrite Z.shiftl_mul_pow2, Z.shiftr_div_pow2 by done.
Qed.

Lemma u32_u32 x : u32 (u32 x) = u32 x.
Proof. apply u32_small, u32_range. Qed.

(** ** Outcomes and the kernel monad

    A kernel function runs on the state [S] of its component.  It returns a
    value and the new state, stops the machine with [panic(msg)], performs an
    access that C leaves undefined (an array index out of range, a NULL
    dereference), or spins: it waits in a busy loop for another CPU to change
    the state, so from this state it makes no step of its own. *)

Inductive outcome (S A : Type) : Type :=
| Ret (a : A) (s : S)
| Panic (msg : string)
| Undef
| Spin.
Arguments Ret {S A} a s.
Arguments Panic {S A} msg.
Arguments Undef {S A}.
Arguments Spin {S A}.

Definition M (S A : Type) : Type := S -> outcome S A.

#[export] Instance M_ret S : MRet (M S) := fun A a s => Ret a s.
#[export] Instance M_bind S : MBind (M S) := fun A B k m s =>
  match m s with
  | Ret a s' => k a s'
  | Panic msg => Panic msg
  | Undef => Undef
  | Spin => Spin
  end.

Definition panic {S A} (msg : string) : M S A := fun _ => Panic msg.
Definition undef {S A} : M S A := fun _ => Undef.
Definition gets {S A} (f : S -> A) : M S A := fun s => Ret (f s) s.
Definition modify {S} (f : S -> S) : M S unit := fun s => Ret tt (f s).
Definition spin {S A} : M S A := fun _ => Spin.
Definition skip {S} : M S unit := fun s => Ret tt s.

(** Running an operation of a component inside a larger state. *)
Definition zoom {S T A} (get : S -> T) (put : T -> S -> S) (m : M T A) : M S A :=
  fun s =>
    match m (get s) with
    | Ret a t => Ret a (put t s)
    | Panic msg => Panic msg
    | Undef => Undef
    | Spin => Spin
    end.

(** A [NULL]-able value that is dereferenced, an array cell that is read. *)
Definition deref {S A} (o : option A) : M S A :=
  match o with Some a => mret a | None => undef end.

(** [for_each l body]: a [for] loop whose iterations are the elements of [l]. *)
Fixpoint for_each {S A} (l : list A) (body : A -> M S unit) : M S unit :=
  match l with
  | [] => mret tt
  | a :: l' => body a;; for_each l' body
  end.

(** The result a run delivers when it delivers one. *)
Definition result {S A} (o : outcome S A) : option A :=
  match o with Ret a _ => Some a | _ => None end.

(** Unfold the monad's combinators and reduce the matches they leave. *)
Ltac msimp :=
  cbv beta iota zeta delta
    [mbind M_bind mret M_ret gets modify panic undef spin skip deref zoom fmap option_fmap option_map].
Tactic Notation "msimp" "in" hyp(H) :=
  cbv beta iota zeta delta
    [mbind M_bind mret M_ret gets modify panic undef spin skip deref zoom fmap option_fmap option_map]
    in H.

Lemma bind_ret {S A B} (m : M S A) (k : A -> M S B) s a s' :
  m s = Ret a s' -> (m ≫= k) s = k a s'.
Proof. intros H. unfold mbind, M_bind. by rewrite H. Qed.

Lemma bind_inv {S A B} (m : M S A) (k : A -> M S B) s b s' :
  (m ≫= k) s = Ret b s' -> exists a s1, m s = Ret a s1 /\ k a s1 = Ret b s'.
Proof. unfold mbind, M_bind. destruct (m s) as [a s1| | |]; try done. eauto. Qed.

Lemma bind_ext {S A B} (m : M S A) (k1 k2 : A -> M S B) s :
  (forall a s', m s = Ret a s' -> k1 a s' = k2 a s') -> (m ≫= k1) s = (m ≫= k2) s.
Proof. intros H. unfold mbind, M_bind. destruct (m s); auto. Qed.

Lemma bind_assoc {S A B C} (m : M S A) (k : A -> M S B) (h : B -> M S C) s :
  ((m ≫= k) ≫= h) s = (m ≫= fun a => k a ≫= h) s.
Proof. unfold mbind, M_bind. by destruct (m s). Qed.

Lemma ret_bind {S A B} (a : A) (k : A -> M S B) s : (mret a ≫= k) s = k a s.
Proof. done. Qed.

(** Take a returning run apart into the runs of its parts. *)
Ltac minv_step H :=
  match type of H with
  | (?m ≫= ?k) ?s = Ret _ _ =>
      let a := fresh "a" in let s1 := fresh "s" in let H1 := fresh "Hrun" in
      apply bind_inv in H as (a & s1 & H1 & H)
  end.
Ltac minv H := repeat minv_step H.

Lemma for_each_app {S A} (l1 l2 : list A) (body : A -> M S unit) s :
  for_each (l1 ++ l2) body s = (for_each l1 body;; for_each l2 body) s.
Proof.
  revert s. induction l1 as [|a l1 IH]; intros s; [done|].
  cbn. unfold mbind, M_bind in *. destruct (body a s); [|done..]. by rewrite IH.
Qed.

(** Rule of a loop that keeps an invariant and neither panics nor goes wrong. *)
Lemma for_each_inv {S A} (I : list A -> S -> Prop) (body : A -> M S unit) l s :
  I l s ->
  (forall a l' s, a ∈ l -> I (a :: l') s -> exists s', body a s = Ret tt s' /\ I l' s') ->
  exists s', for_each l body s = Ret tt s' /\ I [] s'.
Proof.
  revert s. induction l as [|a l IH]; intros s H0 Hstep; [by exists s|].
  destruct (Hstep a l s) as (s1 & H1 & HI); [set_solver|done|].
  destruct (IH s1) as (s2 & H2 & HI2); [done|intros; eapply Hstep; set_solver|].
  exists s2. split; [|done]. cbn. by rewrite (bind_ret _ _ _ _ _ H1).
Qed.

(** ** Arrays indexed by C integers *)

Definition aget {A} (l : list A) (i : Z) : option A :=
  if 0 <=? i then l !! Z.to_nat i else None.

Definition aset {A} (l : list A) (i : Z) (v : A) : list A :=
  if 0 <=? i then <[Z.to_nat i := v]> l else l.

Arguments aget : simpl never.
Arguments aset : simpl never.

Lemma aget_nat {A} (l : list A) (i : nat) : aget l (Z.of_nat i) = l !! i.
Proof. unfold aget. destruct (Z.leb_spec 0 (Z.of_nat i)); [|lia]. by rewrite Nat2Z.id. Qed.

Lemma aset_nat {A} (l : list A) (i : nat) v : aset l (Z.of_nat i) v = <[i := v]> l.
Proof. unfold aset. destruct (Z.leb_spec 0 (Z.of_nat i)); [|lia]. by rewrite Nat2Z.id. Qed.

Lemma aset_length {A} (l : list A) i v : length (aset l i v) = length l.
Proof. unfold aset. destruct (0 <=? i); [apply length_insert|done]. Qed.

Lemma aget_aset_eq {A} (l : list A) i v :
  0 <= i < Z.of_nat (length l) -> aget (aset l i v) i = Some v.
Proof.
  intros. unfold aget, aset. destruct (Z.leb_spec 0 i); [|lia].
  apply list_lookup_insert_eq. lia.
Qed.

Lemma aget_aset_ne {A} (l : list A) i j v :
  i <> j -> aget (aset l i v) j = aget l j.
Proof.
  intros. unfold aget, aset.
  destruct (Z.leb_spec 0 j), (Z.leb_spec 0 i); try done.
  apply list_lookup_insert_ne. lia.
Qed.

Lemma aget_Some_range {A} (l : list A) i v :
  aget l i = Some v -> 0 <= i < Z.of_nat (length l).
Proof.
  unfold aget. destruct (Z.leb_spec 0 i); [|done].
  intros Hl%lookup_lt_Some. lia.
Qed.

Lemma aget_is_Some {A} (l : list A) i :
  0 <= i < Z.of_nat (length l) -> exists v, aget l i = Some v.
Proof.
  intros. unfold aget. destruct (Z.leb_spec 0 i); [|lia].
  destruct (lookup_lt_is_Some_2 l (Z.to_nat i)) as [v Hv]; [lia|eauto].
Qed.

Lemma list_alter_insert {A} (f : A -> A) (l : list A) i x :
  l !! i = Some x -> alter f i l = <[i := f x]> l.
Proof.
  intros Hx. apply list_eq. intros j. destruct (decide (j = i)) as [->|Hne].
  - rewrite list_lookup_alter_eq, Hx, list_lookup_insert_eq; [done|].
    by eapply lookup_lt_Some.
  - by rewrite list_lookup_alter_ne, list_lookup_insert_ne by done.
Qed.

(** ** First match: the loop [for(p = tab; p < end; p++) if(c(p)) goto found;] *)

Fixpoint findi {A} (f : A -> bool) (l : list A) : option nat :=
  match l with
  | [] => None
  | x :: l' => if f x then Some 0%nat else S <$> findi f l'
  end.

Lemma findi_Some {A} (f : A -> bool) l i :
  findi f l = Some i <->
  (exists x, l !! i = Some x /\ f x = true) /\
  (forall j y, (j < i)%nat -> l !! j = Some y -> f y = false).
Proof.
  revert i. induction l as [|x l IH]; intros i; cbn.
  { split; [done|]. by intros [(? & ? & ?) _]. }
  destruct (f x) eqn:Hx.
  - split.
    + intros [= <-]. split; [eauto|]. intros; lia.
    + intros [_ Hlt]. destruct i as [|i]; [done|].
      specialize (Hlt 0%nat x ltac:(lia) eq_refl). congruence.
  - rewrite fmap_Some. split.
    + intros (k & Hk & ->). apply IH in Hk as [Hex Hlt]. split; [done|].
      intros [|j] y Hj; cbn; [by intros [= <-]|]. apply Hlt. lia.
    + intros [(y & Hy & Hfy) Hlt]. destruct i as [|i]; cbn in Hy; [congruence|].
      exists i. split; [|done]. apply IH. split; [eauto|].
      intros j z Hj Hz. apply (Hlt (S j)); [lia|done].
Qed.

Lemma findi_None {A} (f : A -> bool) l :
  findi f l = None <-> (forall i x, l !! i = Some x -> f x = false).
Proof.
  induction l as [|x l IH]; cbn; [split; [intros _ i x; by rewrite lookup_nil|done]|].
  destruct (f x) eqn:Hx.
  - split; [done|]. intros H. specialize (H 0%nat x eq_refl). congruence.
  - rewrite fmap_None, IH. split.
    + intros H [|i] y; cbn; [by intros [= <-]|]. apply H.
    + intros H i y Hy. apply (H (S i)). done.
Qed.

Lemma findi_lt {A} (f : A -> bool) l i : findi f l = Some i -> (i < length l)%nat.
Proof. intros [(x & Hx & _) _]%findi_Some. by eapply lookup_lt_Some. Qed.

Lemma findi_ext {A} (f g : A -> bool) l : (forall x, f x = g x) -> findi f l = findi g l.
Proof. intros H. induction l as [|x l IH]; cbn; [done|]. by rewrite H, IH. Qed.

(** The number of times that an index is in a list. *)
Definition occ (k : nat) (l : list nat) : Z := Z.of_nat (length (filter (fun x => x = k) l)).

Lemma occ_cons k x l : occ k (x :: l) = occ k l + if decide (x = k) then 1 else 0.
Proof. unfold occ. rewrite filter_cons. repeat case_decide; cbn [length]; try done; lia. Qed.

Lemma occ_mid k x l1 l2 : occ k (l1 ++ x :: l2) = occ k (l1 ++ l2) + if decide (x = k) then 1 else 0.
Proof. unfold occ. rewrite !filter_app, filter_cons. repeat case_decide; rewrite !length_app; cbn [length]; try done; lia. Qed.

Lemma occ_range k l : 0 <= occ k l <= Z.of_nat (length l).
Proof. unfold occ. pose proof (length_filter (fun x : nat => x = k) l). lia. Qed.

Lemma occ_pos k l : k ∈ l <-> 0 < occ k l.
Proof.
  split.
  - intros (l1 & l2 & ->)%list_elem_of_split. rewrite occ_mid, decide_True by done. pose proof (occ_range k (l1 ++ l2)). lia.
  - intros H. unfold occ in H. destruct (filter (fun x => x = k) l) as [|y l'] eqn:E; [cbn in H; lia|].
    assert (Hy : y ∈ filter (fun x => x = k) l) by (rewrite E; apply list_elem_of_here). by apply list_elem_of_filter in Hy as [-> ?].
Qed.

Lemma list_alter_alter {A} (f g : A -> A) (i : nat) (l : list A) :
  alter f i (alter g i l) = alter (fun x => f (g x)) i l.
Proof.
  apply list_eq. intros j. destruct (decide (i = j)) as [<-|].
  - rewrite !list_lookup_alter_eq. by destruct (l !! i).
  - by rewrite !list_lookup_alter_ne.
Qed.

(** ** Weakest preconditions (total correctness)

    [wp m Q s]: run from [s], [m] returns, in a state and with a value that
    satisfy [Q]. *)
Definition wp {S A} (m : M S A) (Q : A -> S -> Prop) (s : S) : Prop :=
  match m s with Ret a s' => Q a s' | _ => False end.

Lemma wp_elim {S A} (m : M S A) Q s : wp m Q s -> exists a s', m s = Ret a s' /\ Q a s'.
Proof. unfold wp. destruct (m s) as [a s'| | |]; try done. eauto. Qed.

Lemma wp_intro {S A} (m : M S A) (Q : A -> S -> Prop) s a s' : m s = Ret a s' -> Q a s' -> wp m Q s.
Proof. intros H HQ. unfold wp. by rewrite H. Qed.

Lemma wp_ret {S A} (a : A) (Q : A -> S -> Prop) s : Q a s -> wp (mret a) Q s.
Proof. done. Qed.

Lemma wp_bind {S A B} (m : M S A) (k : A -> M S B) Q s :
  wp m (fun a s' => wp (k a) Q s') s -> wp (m ≫= k) Q s.
Proof. unfold wp, mbind, M_bind. by destruct (m s). Qed.

Lemma wp_mono {S A} (m : M S A) (P Q : A -> S -> Prop) s :
  wp m P s -> (forall a s', P a s' -> Q a s') -> wp m Q s.
Proof. unfold wp. destruct (m s); auto. Qed.

Lemma wp_gets {S A} (f : S -> A) (Q : A -> S -> Prop) s : Q (f s) s -> wp (gets f) Q s.
Proof. done. Qed.

Lemma wp_modify {S} (f : S -> S) (Q : unit -> S -> Prop) s : Q tt (f s) -> wp (modify f) Q s.
Proof. done. Qed.

Lemma wp_deref {S A} (o : option A) a (Q : A -> S -> Prop) s : o = Some a -> Q a s -> wp (deref o) Q s.
Proof. by intros ->. Qed.

Lemma wp_zoom {S T A} (get : S -> T) (put : T -> S -> S) (m : M T A) (Q : A -> S -> Prop) s :
  wp m (fun a t => Q a (put t s)) (get s) -> wp (zoom get put m) Q s.
Proof. unfold wp, zoom. by destruct (m (get s)). Qed.

(** A loop, by an invariant on the number of iterations done. *)
Lemma wp_for_each {S A} (l : list A) (body : A -> M S unit) (I : nat -> S -> Prop) s :
  I 0%nat s ->
  (forall i a s1, l !! i = Some a -> I i s1 -> wp (body a) (fun _ s2 => I (i + 1)%nat s2) s1) ->
  wp (for_each l body) (fun _ s' => I (length l) s') s.
Proof.
  revert I s. induction l as [|a l IH]; intros I s H0 Hstep; cbn; [done|].
  apply wp_bind. eapply wp_mono; [apply (Hstep 0%nat a); done|]. intros [] s1 H1.
  apply (IH (fun i => I (Datatypes.S i))); [exact H1|].
  intros i b s2 Hb HI. apply (Hstep (Datatypes.S i) b); done.
Qed.

(** ** Relations kept by every run of an operation

    [keeps R m]: whenever [m] returns, the states before and after are related
    by [R].  With [R s s' := I s -> I s'] this is preservation of an invariant;
    with equations between fields it is a frame rule. *)

Definition keeps {S A} (R : S -> S -> Prop) (m : M S A) : Prop :=
  forall s a s', m s = Ret a s' -> R s s'.

Create HintDb keeps.

Section Keeps.
Context {S : Type} (R : S -> S -> Prop) `{!Reflexive R} `{!Transitive R}.

Lemma keeps_ret {A} (a : A) : keeps R (mret a).
Proof. intros s ? ? [= <- <-]. reflexivity. Qed.
Lemma keeps_panic {A} msg : keeps R (@panic S A msg).
Proof. by intros s a s'. Qed.
Lemma keeps_undef {A} : keeps R (@undef S A).
Proof. by intros s a s'. Qed.
Lemma keeps_spin {A} : keeps R (@spin S A).
Proof. by intros s a s'. Qed.
Lemma keeps_gets {A} (f : S -> A) : keeps R (gets f).
Proof. intros s ? ? [= <- <-]. reflexivity. Qed.
Lemma keeps_deref {A} (o : option A) : keeps R (deref o).
Proof. destruct o; [apply keeps_ret|apply keeps_undef]. Qed.
Lemma keeps_skip : keeps R skip.
Proof. intros s ? ? [= <- <-]. reflexivity. Qed.
Lemma keeps_modify f : (forall s, R s (f s)) -> keeps R (modify f).
Proof. intros H s ? ? [= <- <-]. apply H. Qed.
Lemma keeps_bind {A B} (m : M S A) (k : A -> M S B) :
  keeps R m -> (forall a, keeps R (k a)) -> keeps R (m ≫= k).
Proof.
  intros Hm Hk s b s'. unfold mbind, M_bind.
  destruct (m s) as [a s1| | |] eqn:E; try done. intros H.
  transitivity s1; [by eapply Hm|by eapply Hk].
Qed.
Lemma keeps_for_each {A} (l : list A) body :
  (forall a, a ∈ l -> keeps R (body a)) -> keeps R (for_each l body).
Proof.
  induction l as [|a l IH]; intros H; cbn; [apply keeps_ret|].
  apply keeps_bind; [apply H; set_solver|]. intros _. apply IH. set_solver.
Qed.
End Keeps.

Lemma keeps_zoom {S T A} (R : S -> S -> Prop) (Q : T -> T -> Prop)
    (get : S -> T) (put : T -> S -> S) (m : M T A) :
  keeps Q m -> (forall s t, Q (get s) t -> R s (put t s)) -> keeps R (zoom get put m).
Proof.
  intros Hm HR s a s'. unfold zoom. destruct (m (get s)) eqn:E; try done.
  intros [= <- <-]. apply HR. by eapply Hm.
Qed.

(** Split an operation into its primitive steps and discharge those that cannot
    change the state. *)
Ltac keeps_step :=
  first
    [ apply keeps_ret | apply keeps_panic | apply keeps_undef | apply keeps_spin
    | apply keeps_gets | apply keeps_deref | apply keeps_skip
    | apply keeps_bind; [| |intros ?] | apply keeps_bind; [|intros ?]
    | apply keeps_for_each; [| |intros ? ?] | apply keeps_for_each; intros ? ?
    | match goal with
      | |- keeps _ (match ?x with _ => _ end) => destruct x eqn:?
      | |- keeps _ (let x := ?v in _) => cbv zeta
      end
    | solve [eauto with keeps] ].
Ltac keeps_auto := repeat keeps_step; try typeclasses eauto.
