(* ===== verification/Spinlock.v ===== *)
(** * Spinlock: per-CPU interrupt state and mutual-exclusion locks

    Models [struct cpu] (proc.h), [cpuid] and [mycpu] (proc.c) and spinlock.c:
    [pushcli]/[popcli] nesting, [holding], [acquire], [release] and
    [getcallerpcs].

    The hardware CPU that executes an operation is the index [c] into [cpus];
    its interrupt flag (FL_IF of eflags) is the field [iflag].  [acquire] of a
    lock that another CPU holds is the outcome [Spin]: the xchg loop.  The last
    section opens the two functions up again and interleaves their memory
    accesses on several CPUs, to show mutual exclusion. *)

From S2P Require Import Prelude.

(** ** CPUs *)

Record cpu := Cpu {
  apicid : Z;              (* Local APIC ID *)
  started : Z;             (* Has the CPU started? *)
  ncli : Z;                (* Depth of pushcli nesting *)
  intena : bool;           (* Were interrupts enabled before pushcli? *)
  cproc : option nat;      (* The process running on this cpu or null *)
  iflag : bool             (* FL_IF of the CPU's eflags register *)
}.

#[export] Instance eta_cpu : Eta cpu := fun r =>
  Cpu (apicid r) (started r) (ncli r) (intena r) (cproc r) (iflag r).

Definition upd_cpu (c : nat) (f : cpu -> cpu) (cpus : list cpu) : list cpu :=
  alter f c cpus.

(** [readeflags() & FL_IF], [cli] and [sti] on CPU [c]. *)
Definition readeflags (c : nat) : M (list cpu) bool :=
  fun cpus => deref (iflag <$> cpus !! c) cpus.
Definition cli (c : nat) : M (list cpu) unit :=
  modify (upd_cpu c (fun k => k <| iflag := false |>)).
Definition sti (c : nat) : M (list cpu) unit :=
  modify (upd_cpu c (fun k => k <| iflag := true |>)).

(** The local APIC of CPU [c] reports its own id. *)
Definition lapicid (c : nat) : M (list cpu) Z :=
  fun cpus => deref (apicid <$> cpus !! c) cpus.

(** The index of [&cpus[i]] found by [mycpu]; [cpuid] is the same number. *)
Definition mycpu (c : nat) : M (list cpu) nat :=
  ifl ← readeflags c;
  if (ifl : bool) then panic "mycpu called with interrupts enabled"
  else
    id ← lapicid c;
    cpus ← gets (fun cpus => cpus);
    match findi (fun k => apicid k =? id) cpus with
    | Some i => mret i
    | None => panic "unknown apicid"
    end.

Definition cpuid (c : nat) : M (list cpu) Z :=
  i ← mycpu c; mret (Z.of_nat i).

Definition pushcli (c : nat) : M (list cpu) unit :=
  eflags ← readeflags c;
  cli c;;
  i ← mycpu c;
  cpus ← gets (fun cpus => cpus);
  k ← deref (cpus !! i);
  (if ncli k =? 0
   then j ← mycpu c; modify (upd_cpu j (fun k => k <| intena := eflags |>))
   else skip);;
  j ← mycpu c;
  modify (upd_cpu j (fun k => k <| ncli ::= (fun n => s32 (n + 1)) |>)).

Definition popcli (c : nat) : M (list cpu) unit :=
  ifl ← readeflags c;
  if (ifl : bool) then panic "popcli - interruptible"
  else
    i ← mycpu c;
    modify (upd_cpu i (fun k => k <| ncli ::= (fun n => s32 (n - 1)) |>));;
    cpus ← gets (fun cpus => cpus);
    k ← deref (cpus !! i);
    if ncli k <? 0 then panic "popcli"
    else
      j ← mycpu c;
      cpus ← gets (fun cpus => cpus);
      k ← deref (cpus !! j);
      if (ncli k =? 0) && intena k then sti c else skip.

(** Disable interrupts so that we are not rescheduled while reading proc from
    the cpu structure. *)
Definition myproc (c : nat) : M (list cpu) (option nat) :=
  pushcli c;;
  i ← mycpu c;
  cpus ← gets (fun cpus => cpus);
  k ← deref (cpus !! i);
  popcli c;;
  mret (cproc k).

(** ** Spin locks *)

Record spinlock := Spinlock {
  locked : Z;              (* Is the lock held? *)
  lkcpu : option nat       (* The cpu holding the lock *)
}.

#[export] Instance eta_spinlock : Eta spinlock := fun r => Spinlock (locked r) (lkcpu r).

Definition initlock : spinlock := Spinlock 0 None.

(** State of the lock operations: all CPUs and the one lock operated on. *)
Definition lstate : Type := list cpu * spinlock.

Definition on_cpus {A} (m : M (list cpu) A) : M lstate A :=
  zoom fst (fun cpus st => (cpus, snd st)) m.

Definition holding (c : nat) : M lstate bool :=
  on_cpus (pushcli c);;
  lk ← gets snd;
  r ← (if locked lk =? 0 then mret false
       else i ← on_cpus (mycpu c); mret (bool_decide (lkcpu lk = Some i)));
  on_cpus (popcli c);;
  mret r.

(** xchg: atomically read the old value and store the new one. *)
Definition xchg_locked (newval : Z) : M lstate Z :=
  fun st => Ret (locked st.2) (st.1, st.2 <| locked := newval |>).

Definition acquire (c : nat) : M lstate unit :=
  on_cpus (pushcli c);;
  h ← holding c;
  if (h : bool) then panic "acquire"
  else
    old ← xchg_locked 1;
    if old =? 0 then
      i ← on_cpus (mycpu c);
      modify (fun st => (st.1, st.2 <| lkcpu := Some i |>))
    else spin.

Definition release (c : nat) : M lstate unit :=
  h ← holding c;
  if (h : bool) then
    modify (fun st => (st.1, st.2 <| lkcpu := None |>));;
    modify (fun st => (st.1, st.2 <| locked := 0 |>));;
    on_cpus (popcli c)
  else panic "release".

(** [getcallerpcs]: follow the chain of saved frame pointers from [v]; [mem] is
    the word at an address. *)
Definition KERNBASE : Z := 0x80000000.

Fixpoint pcs_from (mem : Z -> Z) (fuel : nat) (ebp : Z) : list Z :=
  match fuel with
  | O => []
  | S fuel' =>
      if (ebp =? 0) || (ebp <? KERNBASE) || (ebp =? 0xffffffff) then replicate fuel 0
      else mem (u32 (ebp + 4)) :: pcs_from mem fuel' (mem ebp)
  end.

Definition getcallerpcs (mem : Z -> Z) (v : Z) : list Z :=
  pcs_from mem 10 (u32 (v - 8)).

(** ** Interrupt nesting *)

(** Distinct APIC ids; interrupts are off while the nesting depth is positive. *)
Definition cpu_ok (k : cpu) : Prop :=
  0 <= ncli k < 2 ^ 31 - 1 /\ (0 < ncli k -> iflag k = false).
Definition ids_ok (cpus : list cpu) : Prop := NoDup (apicid <$> cpus).

(** What one [pushcli] (one [popcli]) does to the CPU that executes it. *)
Definition push_cpu (k : cpu) : cpu :=
  k <| ncli ::= (fun n => s32 (n + 1)) |>
    <| intena := if ncli k =? 0 then iflag k else intena k |>
    <| iflag := false |>.
Definition pop_cpu (k : cpu) : cpu :=
  k <| ncli ::= (fun n => s32 (n - 1)) |>
    <| iflag := (s32 (ncli k - 1) =? 0) && intena k |>.

Lemma upd_cpu_insert c f cpus k :
  cpus !! c = Some k -> upd_cpu c f cpus = <[c := f k]> cpus.
Proof. apply list_alter_insert. Qed.

Lemma ids_ok_insert cpus c k k' :
  ids_ok cpus -> cpus !! c = Some k -> apicid k' = apicid k -> ids_ok (<[c := k']> cpus).
Proof.
  unfold ids_ok. intros H Hk He. rewrite list_fmap_insert, He.
  by rewrite list_insert_id; [|rewrite list_lookup_fmap, Hk].
Qed.

Lemma mycpu_ok cpus c k :
  ids_ok cpus -> cpus !! c = Some k -> iflag k = false -> mycpu c cpus = Ret c cpus.
Proof.
  intros Hids Hk Hif. unfold mycpu, readeflags, lapicid. repeat (msimp; rewrite ?Hk, ?Hif).
  assert (findi (fun k0 => apicid k0 =? apicid k) cpus = Some c) as ->; [|done].
  apply findi_Some. split; [exists k; split; [done|apply Z.eqb_refl]|].
  intros j y Hj Hy. apply Z.eqb_neq. intros He.
  enough (j = c) by lia.
  eapply (NoDup_lookup _ _ _ (apicid k) Hids); rewrite list_lookup_fmap.
  - by rewrite Hy, <- He.
  - by rewrite Hk.
Qed.

Lemma pushcli_ok cpus c k :
  ids_ok cpus -> cpus !! c = Some k ->
  pushcli c cpus = Ret tt (<[c := push_cpu k]> cpus).
Proof.
  intros Hids Hk. pose proof (lookup_lt_Some _ _ _ Hk) as Hlt.
  set (k1 := k <| iflag := false |>).
  set (cpus1 := <[c := k1]> cpus).
  assert (Hk1 : cpus1 !! c = Some k1) by (by apply list_lookup_insert_eq).
  assert (Hids1 : ids_ok cpus1) by (by eapply ids_ok_insert).
  set (k2 := k1 <| intena := iflag k |>).
  assert (Hids2 : ids_ok (<[c := k2]> cpus)) by (by eapply ids_ok_insert).
  assert (Hk2 : (<[c := k2]> cpus) !! c = Some k2) by (by apply list_lookup_insert_eq).
  unfold pushcli, readeflags, cli. msimp. rewrite Hk. msimp.
  rewrite (upd_cpu_insert _ _ _ _ Hk). fold k1 cpus1.
  rewrite (mycpu_ok _ _ _ Hids1 Hk1 eq_refl). rewrite Hk1. cbn [ncli k1].
  unfold push_cpu. change (ncli k1) with (ncli k). destruct (ncli k =? 0).
  - rewrite (mycpu_ok _ _ _ Hids1 Hk1 eq_refl). rewrite (upd_cpu_insert _ _ _ _ Hk1).
    unfold cpus1. rewrite list_insert_insert_eq. fold k2.
    rewrite (mycpu_ok _ _ _ Hids2 Hk2 eq_refl), (upd_cpu_insert _ _ _ _ Hk2).
    by rewrite list_insert_insert_eq.
  - rewrite (mycpu_ok _ _ _ Hids1 Hk1 eq_refl), (upd_cpu_insert _ _ _ _ Hk1).
    unfold cpus1. by rewrite list_insert_insert_eq.
Qed.

Lemma popcli_ok cpus c k :
  ids_ok cpus -> cpus !! c = Some k -> iflag k = false -> 1 <= ncli k < 2 ^ 31 ->
  popcli c cpus = Ret tt (<[c := pop_cpu k]> cpus).
Proof.
  intros Hids Hk Hif Hn. pose proof (lookup_lt_Some _ _ _ Hk) as Hlt.
  set (k1 := k <| ncli ::= (fun n => s32 (n - 1)) |>).
  set (cpus1 := <[c := k1]> cpus).
  assert (Hk1 : cpus1 !! c = Some k1) by (by apply list_lookup_insert_eq).
  assert (Hids1 : ids_ok cpus1) by (by eapply ids_ok_insert).
  unfold popcli, readeflags, sti. msimp. rewrite Hk. msimp. rewrite Hif.
  rewrite (mycpu_ok _ _ _ Hids Hk Hif), (upd_cpu_insert _ _ _ _ Hk). fold k1 cpus1.
  rewrite Hk1. cbn [ncli k1 setf]. rewrite s32_small by lia.
  destruct (Z.ltb_spec (ncli k - 1) 0); [lia|].
  rewrite (mycpu_ok _ _ _ Hids1 Hk1 Hif), Hk1. cbn [ncli intena k1 setf].
  unfold pop_cpu. rewrite s32_small by lia.
  destruct ((ncli k - 1 =? 0) && intena k) eqn:Hb.
  - rewrite (upd_cpu_insert _ _ _ _ Hk1). unfold cpus1. by rewrite list_insert_insert_eq.
  - unfold cpus1, k1. by rewrite <- Hif.
Qed.

(** A balanced pushcli/popcli pair leaves the CPU as it was, up to the saved
    [intena] of the outermost level. *)
Definition rest_cpu (k : cpu) : cpu :=
  k <| intena := if ncli k =? 0 then iflag k else intena k |>.

Lemma pop_push_cpu k : cpu_ok k -> pop_cpu (push_cpu k) = rest_cpu k.
Proof.
  intros [Hn Hif]. destruct k as [a st n i p fl]. cbn in *.
  unfold pop_cpu, push_cpu, rest_cpu, setf. cbn.
  rewrite (s32_small (n + 1)), s32_small by lia.
  replace (n + 1 - 1) with n by lia.
  destruct (Z.eqb_spec n 0) as [->|]; cbn; [done|]. by rewrite Hif by lia.
Qed.

Lemma rest_push_cpu k : cpu_ok k -> rest_cpu (push_cpu k) = push_cpu k.
Proof.
  intros [Hn Hif]. unfold rest_cpu, push_cpu. cbn. rewrite s32_small by lia.
  destruct (Z.eqb_spec (ncli k + 1) 0); [lia|done].
Qed.

Lemma rest_nested_cpu k : ncli k <> 0 -> rest_cpu k = k.
Proof.
  intros Hn. destruct k as [a st n i p fl]. unfold rest_cpu. cbn in *.
  destruct (Z.eqb_spec n 0); [done|done].
Qed.

Lemma push_cpu_ok k : cpu_ok k ->
  ncli (push_cpu k) = ncli k + 1 /\ iflag (push_cpu k) = false.
Proof. intros [Hn _]. cbn. rewrite s32_small by lia. done. Qed.

Lemma ids_ok_push cpus c k :
  ids_ok cpus -> cpus !! c = Some k -> ids_ok (<[c := push_cpu k]> cpus).
Proof. intros. by eapply ids_ok_insert. Qed.

Lemma myproc_ok cpus c k :
  ids_ok cpus -> cpus !! c = Some k -> cpu_ok k ->
  myproc c cpus = Ret (cproc k) (<[c := rest_cpu k]> cpus).
Proof.
  intros Hids Hk Hok. pose proof (lookup_lt_Some _ _ _ Hk) as Hlt.
  destruct (push_cpu_ok k Hok) as [Hn Hf].
  assert (Hk1 : (<[c := push_cpu k]> cpus) !! c = Some (push_cpu k))
    by (by apply list_lookup_insert_eq).
  pose proof (ids_ok_push _ _ _ Hids Hk) as Hids1.
  unfold myproc. msimp. rewrite (pushcli_ok _ _ _ Hids Hk).
  rewrite (mycpu_ok _ _ _ Hids1 Hk1 Hf), Hk1.
  rewrite (popcli_ok _ _ _ Hids1 Hk1 Hf) by (destruct Hok; lia).
  by rewrite list_insert_insert_eq, pop_push_cpu.
Qed.

Definition held_by (c : nat) (lk : spinlock) : bool :=
  negb (locked lk =? 0) && bool_decide (lkcpu lk = Some c).

Lemma holding_ok cpus lk c k :
  ids_ok cpus -> cpus !! c = Some k -> cpu_ok k ->
  holding c (cpus, lk) = Ret (held_by c lk) (<[c := rest_cpu k]> cpus, lk).
Proof.
  intros Hids Hk Hok. pose proof (lookup_lt_Some _ _ _ Hk) as Hlt.
  destruct (push_cpu_ok k Hok) as [Hn Hf].
  assert (Hk1 : (<[c := push_cpu k]> cpus) !! c = Some (push_cpu k))
    by (by apply list_lookup_insert_eq).
  pose proof (ids_ok_push _ _ _ Hids Hk) as Hids1.
  assert (Hpop : popcli c (<[c := push_cpu k]> cpus) = Ret tt (<[c := rest_cpu k]> cpus)).
  { rewrite (popcli_ok _ _ _ Hids1 Hk1 Hf) by (destruct Hok; lia).
    by rewrite list_insert_insert_eq, pop_push_cpu. }
  unfold holding, on_cpus, held_by. msimp. cbn [fst snd].
  rewrite (pushcli_ok _ _ _ Hids Hk). cbn [fst snd].
  destruct (locked lk =? 0); cbn [negb andb fst snd].
  - by rewrite Hpop.
  - rewrite (mycpu_ok _ _ _ Hids1 Hk1 Hf). cbn [fst snd]. by rewrite Hpop.
Qed.

Lemma acquire_cases cpus lk c k :
  ids_ok cpus -> cpus !! c = Some k -> cpu_ok k -> ncli k < 2 ^ 31 - 2 ->
  acquire c (cpus, lk) =
    if held_by c lk then Panic "acquire"
    else if locked lk =? 0
         then Ret tt (<[c := push_cpu k]> cpus, Spinlock 1 (Some c))
         else Spin.
Proof.
  intros Hids Hk Hok Hb. pose proof (lookup_lt_Some _ _ _ Hk) as Hlt.
  destruct (push_cpu_ok k Hok) as [Hn Hf].
  assert (Hk1 : (<[c := push_cpu k]> cpus) !! c = Some (push_cpu k))
    by (by apply list_lookup_insert_eq).
  pose proof (ids_ok_push _ _ _ Hids Hk) as Hids1.
  assert (Hok1 : cpu_ok (push_cpu k)) by (split; [destruct Hok; lia|done]).
  unfold acquire, on_cpus. msimp. cbn [fst snd].
  rewrite (pushcli_ok _ _ _ Hids Hk), (holding_ok _ _ _ _ Hids1 Hk1 Hok1).
  rewrite list_insert_insert_eq, rest_push_cpu by done.
  destruct (held_by c lk); [done|].
  unfold xchg_locked. cbn [fst snd].
  destruct (locked lk =? 0); [|done]. cbn [fst snd].
  by rewrite (mycpu_ok _ _ _ Hids1 Hk1 Hf).
Qed.

Lemma release_cases cpus lk c k :
  ids_ok cpus -> cpus !! c = Some k -> cpu_ok k -> 1 <= ncli k ->
  release c (cpus, lk) =
    if held_by c lk then Ret tt (<[c := pop_cpu k]> cpus, Spinlock 0 None)
    else Panic "release".
Proof.
  intros Hids Hk Hok Hn. destruct Hok as [Hb Hif].
  unfold release. msimp. rewrite (holding_ok _ _ _ _ Hids Hk) by done.
  rewrite rest_nested_cpu, (list_insert_id _ _ _ Hk) by lia.
  destruct (held_by c lk); [|done].
  unfold on_cpus. msimp. cbn [fst snd].
  by rewrite (popcli_ok _ _ _ Hids Hk) by (lia || apply Hif; lia).
Qed.

(** Any sequence of pushcli and popcli calls that never pops more than it
    pushed; [depth d ops] is the nesting depth it ends at, starting from [d]. *)
Inductive cliop := PushCli | PopCli.

Definition run_cli (c : nat) (op : cliop) : M (list cpu) unit :=
  match op with PushCli => pushcli c | PopCli => popcli c end.

Fixpoint depth (d : Z) (ops : list cliop) : option Z :=
  match ops with
  | [] => Some d
  | PushCli :: ops' => depth (d + 1) ops'
  | PopCli :: ops' => if d =? 0 then None else depth (d - 1) ops'
  end.

(** CPU [k] at nesting depth [d], entered with interrupt flag [b]. *)
Definition at_depth (b : bool) (d : Z) (k : cpu) : Prop :=
  0 <= d /\ ncli k = d /\ iflag k = (if d =? 0 then b else false) /\
  (0 < d -> intena k = b).

Lemma run_cli_depth b c ops cpus k d d' :
  ids_ok cpus -> cpus !! c = Some k -> at_depth b d k ->
  d + Z.of_nat (length ops) < 2 ^ 31 - 1 -> depth d ops = Some d' ->
  exists k', for_each ops (run_cli c) cpus = Ret tt (<[c := k']> cpus) /\ at_depth b d' k'.
Proof.
  revert cpus k d. induction ops as [|op ops IH]; intros cpus k d Hids Hk Hd Hb Hdep.
  { exists k. simplify_eq/=. split; [|done]. msimp. by rewrite list_insert_id. }
  cbn [length] in Hb. destruct Hd as (H0 & Hn & Hif & Hia).
  pose proof (lookup_lt_Some _ _ _ Hk) as Hlt.
  destruct op; cbn [depth] in Hdep; cbn [for_each run_cli]; msimp.
  - rewrite (pushcli_ok _ _ _ Hids Hk).
    destruct (IH (<[c := push_cpu k]> cpus) (push_cpu k) (d + 1)) as (k' & Hr & Hk');
      [by eapply ids_ok_insert|by apply list_lookup_insert_eq| |lia|done|].
    + unfold at_depth. cbn. rewrite s32_small, Hn, Hif by lia.
      destruct (Z.eqb_spec (d + 1) 0); [lia|].
      split_and!; [lia|done|done|]. destruct (Z.eqb_spec d 0); [done|]. intros _. apply Hia. lia.
    + exists k'. rewrite Hr, list_insert_insert_eq. done.
  - destruct (Z.eqb_spec d 0) as [|Hd0]; [done|].
    rewrite (popcli_ok _ _ _ Hids Hk) by (done || lia).
    destruct (IH (<[c := pop_cpu k]> cpus) (pop_cpu k) (d - 1)) as (k' & Hr & Hk');
      [by eapply ids_ok_insert|by apply list_lookup_insert_eq| |lia|done|].
    + unfold at_depth. cbn. rewrite s32_small, Hn, Hia by lia.
      split_and!; [lia|done|by destruct (d - 1 =? 0)|done].
    + exists k'. rewrite Hr, list_insert_insert_eq. done.
Qed.

(** "It takes two popcli to undo two pushcli": after any sequence of calls
    that never pops more than it pushed, interrupts are off at positive depth
    and back to what they were at depth zero, the counter is the depth, no other
    CPU is touched, and none of popcli's two panics is reached. *)
Theorem pushcli_popcli_nesting cpus c k ops d :
  ids_ok cpus -> cpus !! c = Some k -> ncli k = 0 ->
  Z.of_nat (length ops) < 2 ^ 31 - 1 -> depth 0 ops = Some d ->
  exists k', for_each ops (run_cli c) cpus = Ret tt (<[c := k']> cpus) /\
             ncli k' = d /\ iflag k' = (if d =? 0 then iflag k else false).
Proof.
  intros Hids Hk Hn Hb Hd.
  destruct (run_cli_depth (iflag k) c ops cpus k 0 d) as (k' & Hr & _ & ? & ? & _); eauto.
  by repeat split.
Qed.

Lemma pushcli_popcli_nesting_witness :
  exists k', for_each [PushCli; PushCli; PopCli; PopCli] (run_cli 0)
               [Cpu 7 1 0 false None true] = Ret tt [k'] /\
             ncli k' = 0 /\ iflag k' = true.
Proof.
  apply (pushcli_popcli_nesting [Cpu 7 1 0 false None true] 0 (Cpu 7 1 0 false None true)
           [PushCli; PushCli; PopCli; PopCli] 0);
    [apply NoDup_singleton|reflexivity|reflexivity|vm_compute; reflexivity|reflexivity].
Defined.

(** A popcli too many panics, whichever way interrupts are. *)
Lemma popcli_underflow cpus c k :
  ids_ok cpus -> cpus !! c = Some k -> ncli k = 0 ->
  popcli c cpus = Panic (if iflag k then "popcli - interruptible" else "popcli").
Proof.
  intros Hids Hk Hn. unfold popcli, readeflags. msimp. rewrite Hk. msimp.
  destruct (iflag k) eqn:Hif; [done|].
  rewrite (mycpu_ok _ _ _ Hids Hk Hif), (upd_cpu_insert _ _ _ _ Hk).
  rewrite list_lookup_insert_eq by (by eapply lookup_lt_Some). cbn. by rewrite Hn.
Qed.

(** ** Interleaving the memory accesses of acquire and release

    Each CPU runs [acquire(lk); critical section; release(lk)] over and over.
    One step is one access to the lock word or to [lk->cpu]; the test that
    [holding] makes before the xchg loop (and before the two stores of
    [release]) is the guard of a step, and a CPU whose guard fails panics. *)

Inductive lpc :=
| Outside     (* not in acquire or release *)
| Spinning    (* in the xchg loop *)
| Owner       (* xchg returned 0; lk->cpu not yet written *)
| Critical    (* acquire has returned *)
| Clearing    (* release has written lk->cpu = 0, locked still 1 *)
| Panicked.

#[export] Instance lpc_eq_dec : EqDecision lpc.
Proof. solve_decision. Defined.

Record lsys := LSys { lpcs : list lpc; slk : spinlock }.

#[export] Instance eta_lsys : Eta lsys := fun r => LSys (lpcs r) (slk r).

Definition set_pc (c : nat) (p : lpc) (lk : spinlock) (s : lsys) : lsys :=
  LSys (<[c := p]> (lpcs s)) lk.

Inductive lstep (s : lsys) : lsys -> Prop :=
| st_enter c : lpcs s !! c = Some Outside ->
    lstep s (set_pc c (if held_by c (slk s) then Panicked else Spinning) (slk s) s)
| st_xchg c : lpcs s !! c = Some Spinning ->
    lstep s (set_pc c (if locked (slk s) =? 0 then Owner else Spinning)
                    ((slk s) <| locked := 1 |>) s)
| st_owner c : lpcs s !! c = Some Owner ->
    lstep s (set_pc c Critical ((slk s) <| lkcpu := Some c |>) s)
| st_clear c : lpcs s !! c = Some Critical ->
    lstep s (if held_by c (slk s)
             then set_pc c Clearing ((slk s) <| lkcpu := None |>) s
             else set_pc c Panicked (slk s) s)
| st_free c : lpcs s !! c = Some Clearing ->
    lstep s (set_pc c Outside ((slk s) <| locked := 0 |>) s).

Definition linit (n : nat) : lsys := LSys (replicate n Outside) initlock.

(** The CPUs between the xchg that returned 0 and the store of 0. *)
Definition inside (p : lpc) : bool :=
  match p with Owner | Critical | Clearing => true | _ => false end.

Record lock_inv (s : lsys) : Prop := {
  li_bit : locked (slk s) = 0 \/ locked (slk s) = 1;
  li_free : locked (slk s) = 0 ->
            forall c p, lpcs s !! c = Some p -> inside p = false;
  li_one : forall c d p q, lpcs s !! c = Some p -> lpcs s !! d = Some q ->
            inside p = true -> inside q = true -> c = d;
  li_owner : forall c, lpcs s !! c = Some Critical -> lkcpu (slk s) = Some c;
  li_critical : forall c, lkcpu (slk s) = Some c -> lpcs s !! c = Some Critical;
  li_nopanic : forall c, lpcs s !! c <> Some Panicked
}.

Lemma lock_inv_init n : lock_inv (linit n).
Proof.
  split; cbn; try (by auto).
  - by intros _ c p [-> _]%lookup_replicate.
  - by intros c d p q [-> _]%lookup_replicate.
  - by intros c [? _]%lookup_replicate.
  - by intros c [? _]%lookup_replicate.
Qed.

Lemma held_by_critical s c :
  lock_inv s -> lpcs s !! c = Some Critical -> held_by c (slk s) = true.
Proof.
  intros [Hbit Hfree _ Hown _ _] Hc. unfold held_by.
  rewrite bool_decide_eq_true_2 by auto.
  destruct Hbit as [Hb|Hb]; rewrite Hb; [|done].
  specialize (Hfree Hb _ _ Hc). done.
Qed.

Lemma held_by_not_critical s c :
  lock_inv s -> lpcs s !! c <> Some Critical -> held_by c (slk s) = false.
Proof.
  intros Hinv Hc. unfold held_by.
  rewrite bool_decide_eq_false_2; [apply andb_false_r|]. by intros H%(li_critical _ Hinv).
Qed.

(** Reduce a lookup in a state in which one CPU has moved. *)
Ltac pc_cases :=
  repeat match goal with
    | H : <[_ := _]> _ !! _ = Some _ |- _ =>
        apply list_lookup_insert_Some in H as [(? & ? & _)|[? H]]; simplify_eq/=
    end.

(** A CPU outside the critical section moves; [lk->cpu] stays. *)
Lemma lookup_other_critical s c p p' d :
  lpcs s !! c = Some p -> p <> Critical -> lpcs s !! d = Some Critical ->
  (<[c := p']> (lpcs s)) !! d = Some Critical.
Proof. intros Hc Hp Hd. rewrite list_lookup_insert_ne; congruence. Qed.

Lemma lock_inv_step s s' : lock_inv s -> lstep s s' -> lock_inv s'.
Proof.
  intros Hinv Hstep. pose proof Hinv as [Hbit Hfree Hone Hown Hcrit Hnp].
  destruct Hstep as [c Hc|c Hc|c Hc|c Hc|c Hc];
    pose proof (lookup_lt_Some _ _ _ Hc) as Hlt.
  - rewrite held_by_not_critical by (done || congruence).
    split; cbn; intros; try intros ?; pc_cases; eauto using lookup_other_critical.
    by eapply Hnp.
  - destruct Hbit as [Hb|Hb]; rewrite Hb; cbn;
      (split; cbn; intros; try intros ?; pc_cases; eauto using lookup_other_critical;
       [..|by eapply Hnp]).
    all: by match goal with H : _ !! _ = Some ?q, H' : inside ?q = true |- _ =>
           rewrite (Hfree Hb _ _ H) in H' end.
  - assert (Hno : forall d, lpcs s !! d <> Some Critical)
      by (intros d Hd; pose proof (Hone _ _ _ _ Hc Hd eq_refl eq_refl); congruence).
    split; cbn; intros; try intros ?; pc_cases; eauto.
    + exfalso. by specialize (Hfree H _ _ Hc).
    + simplify_eq. by apply list_lookup_insert_eq.
    + by eapply Hnp.
  - rewrite held_by_critical by done.
    split; cbn; intros; try intros ?; pc_cases; eauto.
    + exfalso. by specialize (Hfree H _ _ Hc).
    + exfalso. apply Hown in H. apply Hown in Hc. congruence.
    + done.
    + by eapply Hnp.
  - assert (Hin : forall d q, lpcs s !! d = Some q -> c <> d -> inside q = false).
    { intros d q Hd Hne. destruct (inside q) eqn:E; [|done].
      exfalso. apply Hne. by eapply Hone. }
    split; cbn; intros; try intros ?; pc_cases; eauto using lookup_other_critical.
    by eapply Hnp.
Qed.

Lemma lock_inv_reachable n s : rtc lstep (linit n) s -> lock_inv s.
Proof.
  intros H. remember (linit n) as s0 eqn:E.
  assert (H0 : lock_inv s0) by (subst; apply lock_inv_init). clear E.
  induction H as [|s0 s1 s2 H1 _ IH]; [done|]. apply IH. by eapply lock_inv_step.
Qed.

(** C4. Mutual exclusion of [acquire]/[release] on any number of CPUs, with
    their memory accesses interleaved: at most one CPU is between the xchg that
    took the lock and the store that frees it, [holding] is true exactly on the
    CPU inside the critical section, and neither [panic("acquire")] nor
    [panic("release")] is ever reached. *)
Theorem acquire_mutual_exclusion n s :
  rtc lstep (linit n) s ->
  (forall c d p q, lpcs s !! c = Some p -> lpcs s !! d = Some q ->
     inside p = true -> inside q = true -> c = d) /\
  (forall c, held_by c (slk s) = true <-> lpcs s !! c = Some Critical) /\
  (forall c, lpcs s !! c <> Some Panicked).
Proof.
  intros Hinv%lock_inv_reachable. repeat split; try apply Hinv.
  - intros Hh. destruct (decide (lpcs s !! c = Some Critical)) as [|Hn]; [done|].
    rewrite held_by_not_critical in Hh; done.
  - by apply held_by_critical.
Qed.

Definition two_cpu_trace : lsys := LSys [Critical; Spinning] (Spinlock 1 (Some 0%nat)).

Lemma acquire_mutual_exclusion_witness :
  rtc lstep (linit 2) two_cpu_trace /\
  (forall c, held_by c (slk two_cpu_trace) = true <-> lpcs two_cpu_trace !! c = Some Critical).
Proof.
  assert (H : rtc lstep (linit 2) two_cpu_trace).
  { eapply rtc_l; [apply (st_enter _ 0); reflexivity|].
    eapply rtc_l; [apply (st_enter _ 1); reflexivity|].
    eapply rtc_l; [apply (st_xchg _ 0); reflexivity|].
    eapply rtc_l; [apply (st_xchg _ 1); reflexivity|].
    eapply rtc_l; [apply (st_owner _ 0); reflexivity|].
    apply rtc_refl. }
  split; [exact H|]. apply (acquire_mutual_exclusion 2 two_cpu_trace H).
Defined.
