(* ===== verification/Proctab.v ===== *)
(** * Proctab: the process table and the state shared by proc.c and trap.c

    Data of proc.h, types.h (the five MLFQ ring buffers), x86.h ([struct
    trapframe]) and the globals of proc.c: [ptable], [initproc], [nextpid], and
    [ticks] of trap.c.  A [struct proc*] is an index into [ptable.proc]. *)

From S2P Require Import Prelude Spinlock.

(** ** Constants of param.h and types.h *)

Definition NPROC : Z := 64.
Definition KSTACKSIZE : Z := 4096.
Definition NOFILE : Z := 16.
Definition AGE : Z := 20.
Definition NQUEUE : nat := 5.

(** The scheduling policy chosen at compile time ([make SCHEDULER=...]). *)
Inductive policy := ROUND_ROBIN | FCFS | PBS | MLFQ.

#[export] Instance policy_eq_dec : EqDecision policy.
Proof. solve_decision. Defined.

(** ** Processes *)

Inductive procstate := UNUSED | EMBRYO | SLEEPING | RUNNABLE | RUNNING | ZOMBIE.

#[export] Instance procstate_eq_dec : EqDecision procstate.
Proof. solve_decision. Defined.

(** Sleep channels are kernel addresses: a process table entry (wait), the tick
    counter (sys_sleep), or any other object (a buffer, a lock, a pipe). *)
Inductive channel := ChProc (p : nat) | ChTicks | ChAddr (a : Z).

#[export] Instance channel_eq_dec : EqDecision channel.
Proof. solve_decision. Defined.

Record trapframe := Trapframe {
  tf_edi : Z; tf_esi : Z; tf_ebp : Z; tf_oesp : Z; tf_ebx : Z; tf_edx : Z; tf_ecx : Z;
  tf_eax : Z; tf_gs : Z; tf_fs : Z; tf_es : Z; tf_ds : Z; tf_trapno : Z; tf_err : Z;
  tf_eip : Z; tf_cs : Z; tf_eflags : Z; tf_esp : Z; tf_ss : Z
}.

#[export] Instance eta_trapframe : Eta trapframe := fun r =>
  Trapframe (tf_edi r) (tf_esi r) (tf_ebp r) (tf_oesp r) (tf_ebx r) (tf_edx r) (tf_ecx r)
    (tf_eax r) (tf_gs r) (tf_fs r) (tf_es r) (tf_ds r) (tf_trapno r) (tf_err r)
    (tf_eip r) (tf_cs r) (tf_eflags r) (tf_esp r) (tf_ss r).

Definition zero_tf : trapframe := Trapframe 0 0 0 0 0 0 0 0 0 0 0 0 0 0 0 0 0 0 0.

(** Where a process resumes when the scheduler switches to its context: at the
    entry of [forkret] the first time, inside [sched] afterwards, whose local
    [intena] is on the kernel stack. *)
Inductive resume := ResumeNone | ResumeForkret | ResumeSched (intena : bool).

(** [tf] and [context] point into the process's kernel stack: the pointer and
    the structure it points to are two fields here. *)
Record proc := Proc {
  psz : Z;                       (* sz: size of process memory (bytes) *)
  pgdir : Z;                     (* Page table *)
  kstack : Z;                    (* Bottom of kernel stack *)
  state : procstate;
  pid : Z;
  parent : option nat;
  tf : Z;                        (* address of the trap frame *)
  frame : trapframe;             (* *tf *)
  context : Z;                   (* address of the saved context *)
  ctx_eip : resume;              (* context->eip *)
  chan : option channel;         (* If non-zero, sleeping on chan *)
  killed : Z;
  ofile : list (option nat);     (* Open files: indices into ftable.file *)
  cwd : option nat;              (* Current directory: index into icache.inode *)
  name : list Z;                 (* Process name, 16 bytes *)
  start_time : Z; end_time : Z; run_time : Z; wait_time : Z;
  priority : Z;
  num_run : Z; cur_time : Z;
  pticks : list Z;               (* ticks[5] *)
  queueNo : Z
}.

#[export] Instance eta_proc : Eta proc := fun r =>
  Proc (psz r) (pgdir r) (kstack r) (state r) (pid r) (parent r) (tf r) (frame r)
    (context r) (ctx_eip r) (chan r) (killed r) (ofile r) (cwd r) (name r)
    (start_time r) (end_time r) (run_time r) (wait_time r) (priority r)
    (num_run r) (cur_time r) (pticks r) (queueNo r).

(** A process table entry as the zeroed kernel image holds it. *)
Definition zero_proc : proc :=
  Proc 0 0 0 UNUSED 0 None 0 zero_tf 0 ResumeNone None 0 (replicate 16 None) None (replicate 16 0)
       0 0 0 0 0 0 0 (replicate 5 0) 0.

(** ** The ring buffers of the MLFQ policy (types.h) *)

Record mlfq := Mlfq {
  qsz : list Z;                      (* sz[5] *)
  front : list Z;
  rear : list Z;
  ticksQ : list Z;
  queue : list (list (option nat))   (* queue[5][64] *)
}.

#[export] Instance eta_mlfq : Eta mlfq := fun r =>
  Mlfq (qsz r) (front r) (rear r) (ticksQ r) (queue r).

(** main.c clears the queues and sets the time slices before anything runs. *)
Definition main_queues (q0 : mlfq) : mlfq :=
  foldl (fun q i =>
    q <| front ::= fun l => aset l i (-1) |>
      <| rear ::= fun l => aset l i (-1) |>
      <| qsz ::= fun l => aset l i 0 |>
      <| ticksQ ::= fun l => aset l i (Z.shiftl 1 i) |>)
    q0 [0; 1; 2; 3; 4].

(** The zeroed BSS. *)
Definition bss_queues : mlfq :=
  Mlfq (replicate 5 0) (replicate 5 0) (replicate 5 0) (replicate 5 0)
       (replicate 5 (replicate 64 None)).

(** ** State of the process component *)

Record pstate := PState {
  cpus : list cpu;
  ptlock : spinlock;                 (* ptable.lock *)
  procs : list proc;                 (* ptable.proc *)
  nextpid : Z;
  initproc : option nat;
  ticks : Z;                         (* uint ticks *)
  mq : mlfq
}.

#[export] Instance eta_pstate : Eta pstate := fun r =>
  PState (cpus r) (ptlock r) (procs r) (nextpid r) (initproc r) (ticks r) (mq r).

(** [acquire(&ptable.lock)], [release(&ptable.lock)] and [myproc()] on CPU [c]. *)
Definition put_lock (st : lstate) (s : pstate) : pstate :=
  s <| cpus := st.1 |> <| ptlock := st.2 |>.
Definition acquire_pt (c : nat) : M pstate unit :=
  zoom (fun s => (cpus s, ptlock s)) put_lock (acquire c).
Definition release_pt (c : nat) : M pstate unit :=
  zoom (fun s => (cpus s, ptlock s)) put_lock (release c).
Definition my_proc (c : nat) : M pstate (option nat) :=
  zoom cpus (fun cs s => s <| cpus := cs |>) (myproc c).

(** [p->f = ...] through a process pointer. *)
Definition upd_proc (p : nat) (f : proc -> proc) : M pstate unit :=
  fun s =>
    match procs s !! p with
    | Some _ => Ret tt (s <| procs ::= alter f p |>)
    | None => Undef
    end.
Definition get_proc (p : nat) : M pstate proc :=
  fun s => match procs s !! p with Some k => Ret k s | None => Undef end.

Definition stateb (st : procstate) (p : proc) : bool := bool_decide (state p = st).

(** ** Running with ptable.lock held *)

(** CPU [c] can take ptable.lock: nobody holds it. *)
Definition can_lock (c : nat) (s : pstate) : Prop :=
  ids_ok (cpus s) /\ ptlock s = initlock /\
  exists k, cpus s !! c = Some k /\ cpu_ok k /\ ncli k < 2 ^ 31 - 2.

(** CPU [c] holds ptable.lock. *)
Definition has_lock (c : nat) (s : pstate) : Prop :=
  ids_ok (cpus s) /\ held_by c (ptlock s) = true /\
  exists k, cpus s !! c = Some k /\ cpu_ok k /\ 1 <= ncli k.

Definition lockd (c : nat) (s : pstate) : pstate :=
  s <| cpus ::= alter push_cpu c |> <| ptlock := Spinlock 1 (Some c) |>.
Definition unlockd (c : nat) (s : pstate) : pstate :=
  s <| cpus ::= alter pop_cpu c |> <| ptlock := initlock |>.

Lemma acquire_pt_ok c s : can_lock c s -> acquire_pt c s = Ret tt (lockd c s).
Proof.
  intros (Hids & Hl & k & Hk & Hok & Hb). unfold acquire_pt. msimp.
  rewrite (acquire_cases _ _ _ _ Hids Hk Hok Hb). unfold held_by. rewrite Hl. cbn.
  unfold lockd. by rewrite <- (list_alter_insert _ _ _ _ Hk).
Qed.

Lemma lockd_has_lock c s : can_lock c s -> has_lock c (lockd c s).
Proof.
  intros (Hids & Hl & k & Hk & Hok & Hb). unfold has_lock, lockd. cbn.
  rewrite (list_alter_insert _ _ _ _ Hk). split; [by eapply ids_ok_insert|].
  unfold held_by. cbn. rewrite bool_decide_eq_true_2 by done. split; [done|].
  exists (push_cpu k). rewrite list_lookup_insert_eq by (by eapply lookup_lt_Some).
  destruct (push_cpu_ok k Hok) as [Hn Hf]. destruct Hok as [? ?].
  unfold cpu_ok. rewrite Hn, Hf. split_and!; done || lia.
Qed.

Lemma release_pt_ok c s : has_lock c s -> release_pt c s = Ret tt (unlockd c s).
Proof.
  intros (Hids & Hl & k & Hk & Hok & Hb). unfold release_pt. msimp.
  rewrite (release_cases _ _ _ _ Hids Hk Hok Hb), Hl. unfold unlockd.
  by rewrite <- (list_alter_insert _ _ _ _ Hk).
Qed.

(** Reading [myproc()] leaves the CPUs alone while a lock is held. *)
Lemma my_proc_locked c s k :
  has_lock c s -> cpus s !! c = Some k -> my_proc c s = Ret (cproc k) s.
Proof.
  intros (Hids & _ & k' & Hk & Hok & Hb) Hk'. simplify_eq. unfold my_proc. msimp.
  rewrite (myproc_ok _ _ _ Hids Hk Hok), rest_nested_cpu, list_insert_id by (done || lia).
  by destruct s.
Qed.

Lemma get_proc_ok p s k : procs s !! p = Some k -> get_proc p s = Ret k s.
Proof. intros H. unfold get_proc. by rewrite H. Qed.

Lemma upd_proc_ok p f s k :
  procs s !! p = Some k -> upd_proc p f s = Ret tt (s <| procs ::= alter f p |>).
Proof. intros H. unfold upd_proc. by rewrite H. Qed.

Lemma get_proc_inv p s k s' : get_proc p s = Ret k s' -> s' = s /\ procs s !! p = Some k.
Proof. unfold get_proc. destruct (procs s !! p); [|done]. by intros [= <- <-]. Qed.

Lemma procs_alter_insert f p s k :
  procs s !! p = Some k -> s <| procs ::= alter f p |> = s <| procs := <[p := f k]> (procs s) |>.
Proof. intros H. unfold setf at 1. by rewrite (list_alter_insert _ _ _ _ H). Qed.

Lemma procs_alter_alter f g p s :
  s <| procs ::= alter f p |> <| procs ::= alter g p |> = s <| procs ::= alter (fun k => g (f k)) p |>.
Proof. destruct s. unfold setf. cbn. by rewrite list_alter_alter. Qed.

(** Symbolic execution under the lock: one tactic step per primitive. *)
Create HintDb locks.
#[export] Hint Resolve lockd_has_lock : locks.

Ltac mlock :=
  repeat first
    [ progress msimp
    | match goal with
      | |- context [acquire_pt ?c ?s] => rewrite (acquire_pt_ok c s) by assumption
      | |- context [release_pt ?c ?s] =>
          rewrite (release_pt_ok c s) by (first [assumption | exact (lockd_has_lock _ _ ltac:(eassumption))])
      | H : procs ?s !! ?p = Some _ |- context [upd_proc ?p ?f ?s] =>
          rewrite (upd_proc_ok p f s _ H)
      | H : procs ?s !! ?p = Some _ |- context [get_proc ?p ?s] =>
          rewrite (get_proc_ok p s _ H)
      end ].
