(* ===== verification/Mlfq.v ===== *)
(** * Mlfq: the five ring buffers of the multi-level feedback queue

    [isEmpty], [isFull], [push] and [pop] of proc.c on the arrays of types.h.
    The second half gives the abstract state, five FIFO lists of process table
    indices, and shows that the ring buffers implement it. *)

From S2P Require Import Prelude Spinlock Proctab.

(** ** The code *)

Definition isEmpty (qn : Z) : M pstate bool :=
  q ← gets mq;
  f ← deref (aget (front q) qn);
  mret (f =? -1).

Definition isFull (qn : Z) : M pstate bool :=
  q ← gets mq;
  f ← deref (aget (front q) qn);
  r ← deref (aget (rear q) qn);
  mret ((f =? r + 1) || ((f =? 0) && (r =? NPROC - 1))).

(** The scan at the top of [push]: is [cur] in queue [i]? *)
Definition scan_queue (q : mlfq) (cur : nat) (i : Z) : M pstate bool :=
  f ← deref (aget (front q) i);
  r ← deref (aget (rear q) i);
  row ← deref (aget (queue q) i);
  let hit (j : Z) := bool_decide (aget row j = Some (Some cur)) in
  mret (if f >? r
        then existsb (fun j => ((j >=? f) || (j <=? r)) && hit j) (seqZ 0 NPROC)
        else if f >=? 0 then existsb hit (seqZ f (r - f + 1)) else false).

(** [for(i = 0; i < 5; i++)] of the scan, returning at the first hit. *)
Fixpoint scan_queues (q : mlfq) (cur : nat) (idx : list Z) : M pstate bool :=
  match idx with
  | [] => mret false
  | i :: idx' =>
      b ← scan_queue q cur i;
      if (b : bool) then mret true else scan_queues q cur idx'
  end.

Definition push (qn : Z) (cur : nat) : M pstate unit :=
  q ← gets mq;
  dup ← scan_queues q cur [0; 1; 2; 3; 4];
  if (dup : bool) then mret tt
  else
    full ← isFull qn;
    if (full : bool) then mret tt   (* cprintf("\n Error: Queue is Full\n") *)
    else
      upd_proc cur (fun p => p <| cur_time := 0 |>);;
      f ← deref (aget (front q) qn);
      modify (fun s => s <| mq ::= fun q =>
        if f =? -1 then q <| front ::= fun l => aset l qn 0 |> else q |>);;
      r ← deref (aget (rear q) qn);
      let r' := Z.rem (r + 1) NPROC in
      row ← deref (aget (queue q) qn);
      n ← deref (aget (qsz q) qn);
      modify (fun s => s <| mq ::= fun q =>
        q <| rear ::= fun l => aset l qn r' |>
          <| queue ::= fun l => aset l qn (aset row r' (Some cur)) |>
          <| qsz ::= fun l => aset l qn (s32 (n + 1)) |> |>).

Definition pop (qn : Z) : M pstate (option nat) :=
  q ← gets mq;
  f ← deref (aget (front q) qn);
  r ← deref (aget (rear q) qn);
  row ← deref (aget (queue q) qn);
  n ← deref (aget (qsz q) qn);
  cur ← deref (aget row f);
  modify (fun s => s <| mq ::= fun q =>
    (if f =? r
     then q <| front ::= fun l => aset l qn (-1) |> <| rear ::= fun l => aset l qn (-1) |>
     else q <| front ::= fun l => aset l qn (Z.rem (f + 1) NPROC) |>)
      <| qsz ::= fun l => aset l qn (s32 (n - 1)) |> |>);;
  mret cur.

(** ** The abstract queue of one ring buffer

    [ring_abs f r n row l]: the ring with indices [front = f], [rear = r], count
    [sz = n] and cells [row] holds the processes [l], oldest first. *)
Definition ring_abs (f r n : Z) (row : list (option nat)) (l : list nat) : Prop :=
  length row = 64%nat /\ n = Z.of_nat (length l) /\
  match l with
  | [] => f = -1 /\ r = -1
  | _ =>
      0 <= f < 64 /\ Z.of_nat (length l) <= 64 /\
      r = (f + Z.of_nat (length l) - 1) mod 64 /\
      forall (k : nat) x, l !! k = Some x -> aget row ((f + Z.of_nat k) mod 64) = Some (Some x)
  end.

Lemma ring_abs_full f r n row l :
  ring_abs f r n row l ->
  ((f =? r + 1) || ((f =? 0) && (r =? NPROC - 1))) = bool_decide (length l = 64%nat).
Proof.
  intros (Hlen & -> & H). destruct l as [|x l]; [by destruct H as [-> ->]|].
  destruct H as (Hf & Hl & -> & _). unfold NPROC.
  assert (Hm : (1 <= length (x :: l))%nat) by (cbn; lia).
  case_bool_decide; zlia.
Qed.

Lemma ring_abs_empty f r n row l :
  ring_abs f r n row l -> (f =? -1) = bool_decide (l = []).
Proof.
  intros (Hlen & -> & H). destruct l as [|x l]; [by destruct H as [-> ->]|].
  rewrite bool_decide_eq_false_2 by done. lia.
Qed.

(** The indices that the scan of [push] visits are those of the elements. *)
Definition ring_hit (f r : Z) (row : list (option nat)) (cur : nat) : bool :=
  let hit (j : Z) := bool_decide (aget row j = Some (Some cur)) in
  if f >? r
  then existsb (fun j => ((j >=? f) || (j <=? r)) && hit j) (seqZ 0 NPROC)
  else if f >=? 0 then existsb hit (seqZ f (r - f + 1)) else false.

Lemma ring_abs_hit f r n row l cur :
  ring_abs f r n row l -> ring_hit f r row cur = bool_decide (cur ∈ l).
Proof.
  intros (Hlen & -> & H). unfold ring_hit, NPROC.
  destruct l as [|x l].
  { destruct H as [-> ->]. rewrite bool_decide_eq_false_2 by set_solver. done. }
  destruct H as (Hf & Hl & -> & Hcell). remember (x :: l) as l' eqn:El.
  assert (Hm : (1 <= length l')%nat) by (subst l'; cbn; lia). clear El x l.
  (* every index visited is that of an element, and conversely *)
  assert (Hidx : forall j, 0 <= j < 64 ->
    (exists k : nat, (k < length l')%nat /\ j = (f + Z.of_nat k) mod 64) <->
    (if f >? (f + Z.of_nat (length l') - 1) mod 64
     then j >= f \/ j <= (f + Z.of_nat (length l') - 1) mod 64
     else f <= j <= (f + Z.of_nat (length l') - 1) mod 64)).
  { intros j Hj. split.
    - intros (k & Hk & ->). destruct (Z.gtb_spec f ((f + Z.of_nat (length l') - 1) mod 64)); zlia.
    - intros Hr. exists (Z.to_nat ((j - f) mod 64)).
      destruct (Z.gtb_spec f ((f + Z.of_nat (length l') - 1) mod 64)); zlia. }
  assert (Hhit : forall j, aget row j = Some (Some cur) ->
    (exists k : nat, (k < length l')%nat /\ j = (f + Z.of_nat k) mod 64) -> cur ∈ l').
  { intros j Hj (k & Hk & ->). destruct (lookup_lt_is_Some_2 l' k Hk) as [y Hy].
    apply list_elem_of_lookup. exists k. rewrite (Hcell _ _ Hy) in Hj. congruence. }
  assert (Hin : cur ∈ l' -> exists j, 0 <= j < 64 /\ aget row j = Some (Some cur) /\
    exists k : nat, (k < length l')%nat /\ j = (f + Z.of_nat k) mod 64).
  { intros (k & Hk)%list_elem_of_lookup. exists ((f + Z.of_nat k) mod 64).
    pose proof (lookup_lt_Some _ _ _ Hk). split; [zlia|]. eauto. }
  apply Bool.eq_iff_eq_true. rewrite bool_decide_eq_true.
  destruct (f >? (f + Z.of_nat (length l') - 1) mod 64) eqn:Hg.
  - rewrite existsb_exists. split.
    + intros (j & Hj & Hc). apply list_elem_of_In, elem_of_seqZ in Hj.
      apply andb_prop in Hc as [Hc Hb%bool_decide_eq_true].
      apply (Hhit j Hb), Hidx; lia.
    + intros (j & Hj & Hb & Hk)%Hin. exists j. rewrite <- list_elem_of_In, elem_of_seqZ.
      split; [lia|]. apply Hidx in Hk; [|done]. rewrite bool_decide_eq_true_2 by done. lia.
  - destruct (Z.geb_spec f 0); [|lia]. rewrite existsb_exists. split.
    + intros (j & Hj & Hb%bool_decide_eq_true). apply list_elem_of_In, elem_of_seqZ in Hj.
      apply (Hhit j Hb), Hidx; zlia.
    + intros (j & Hj & Hb & Hk)%Hin. exists j. rewrite <- list_elem_of_In, elem_of_seqZ.
      apply Hidx in Hk; [|done]. split; [lia|by apply bool_decide_eq_true].
Qed.

Lemma ring_abs_snoc f r n row l cur :
  ring_abs f r n row l -> (length l < 64)%nat ->
  let r' := Z.rem (r + 1) NPROC in
  0 <= r' < 64 /\
  ring_abs (if f =? -1 then 0 else f) r' (s32 (n + 1)) (aset row r' (Some cur)) (l ++ [cur]).
Proof.
  intros (Hlen & -> & H) Hlt r'. unfold r', NPROC, ring_abs.
  rewrite aset_length, length_app, s32_small by lia. cbn [length].
  destruct l as [|x l].
  - destruct H as [-> ->]. change (Z.rem (-1 + 1) 64) with 0. cbn.
    split; [lia|]. split_and!; try done.
    intros [|[]] y; cbn; [|done..]. intros [= <-].
    change ((0 + Z.of_nat 0) mod 64) with 0. apply aget_aset_eq. by rewrite Hlen.
  - destruct H as (Hf & Hl & -> & Hcell). remember (x :: l) as l' eqn:El.
    assert (Hm : (1 <= length l')%nat) by (subst l'; cbn; lia).
    destruct (Z.eqb_spec f (-1)); [lia|].
    assert (Hrem : Z.rem ((f + Z.of_nat (length l') - 1) mod 64 + 1) 64
                   = (f + Z.of_nat (length l')) mod 64) by zlia.
    rewrite Hrem. split; [zlia|]. split; [done|]. split; [lia|].
    destruct (l' ++ [cur]) as [|y l2] eqn:E; [by destruct l'|]. rewrite <- E.
    split_and!; [lia..|f_equal; lia|].
    intros k z Hk. apply lookup_app_Some in Hk as [Hk|[Hk Hz]].
    + pose proof (lookup_lt_Some _ _ _ Hk). rewrite aget_aset_ne by zlia. by apply Hcell.
    + apply list_lookup_singleton_Some in Hz as [Hz <-].
      replace k with (length l') by lia. apply aget_aset_eq. rewrite Hlen. zlia.
Qed.

Lemma ring_abs_tail f r n row x l :
  ring_abs f r n row (x :: l) ->
  aget row f = Some (Some x) /\
  ring_abs (if f =? r then -1 else Z.rem (f + 1) NPROC) (if f =? r then -1 else r)
           (s32 (n - 1)) row l.
Proof.
  intros (Hlen & -> & Hf & Hl & -> & Hcell). cbn [length] in *. unfold NPROC, ring_abs.
  pose proof (Hcell 0%nat x eq_refl) as H0. rewrite Z.add_0_r, Z.mod_small in H0 by lia.
  split; [done|]. rewrite s32_small by lia.
  destruct l as [|y l].
  - cbn [length]. destruct (Z.eqb_spec f ((f + Z.of_nat 1 - 1) mod 64)); [|zlia].
    split_and!; done || lia.
  - cbn [length] in *.
    destruct (Z.eqb_spec f ((f + Z.of_nat (S (S (length l))) - 1) mod 64)); [zlia|].
    split_and!; try (done || zlia).
    intros k z Hk. rewrite <- (Hcell (S k) z Hk). f_equal. zlia.
Qed.

(** ** The five queues *)

Definition mlfq_abs (q : mlfq) (ls : list (list nat)) : Prop :=
  length ls = NQUEUE /\ length (front q) = NQUEUE /\ length (rear q) = NQUEUE /\
  length (qsz q) = NQUEUE /\ length (queue q) = NQUEUE /\
  forall i l, ls !! i = Some l ->
    exists f r n row, front q !! i = Some f /\ rear q !! i = Some r /\
      qsz q !! i = Some n /\ queue q !! i = Some row /\ ring_abs f r n row l.

(** Abstract operations on five FIFO lists. *)
Definition spec_enqueues (ls : list (list nat)) (i cur : nat) : bool :=
  bool_decide (cur ∉ concat ls) && bool_decide (length (default [] (ls !! i)) <> 64%nat).
Definition spec_push (ls : list (list nat)) (i cur : nat) : list (list nat) :=
  if spec_enqueues ls i cur then alter (fun l => l ++ [cur]) i ls else ls.

Lemma mlfq_abs_bss : mlfq_abs (main_queues bss_queues) (replicate 5 []).
Proof.
  split_and!; try done. intros i l [-> Hi]%lookup_replicate.
  destruct i as [|[|[|[|[|]]]]]; [..|lia]; by repeat eexists.
Qed.

Lemma scan_queue_abs q ls cur i l s :
  mlfq_abs q ls -> ls !! i = Some l ->
  scan_queue q cur (Z.of_nat i) s = Ret (bool_decide (cur ∈ l)) s.
Proof.
  intros (_ & _ & _ & _ & _ & Hq) Hl.
  destruct (Hq _ _ Hl) as (f & r & n & row & Hf & Hr & Hn & Hrow & Hring).
  unfold scan_queue. rewrite !aget_nat, Hf, Hr, Hrow. msimp. f_equal.
  exact (ring_abs_hit _ _ _ _ _ cur Hring).
Qed.

Lemma scan_queues_seq q ls cur k i s :
  mlfq_abs q ls -> (i + k)%nat = length ls ->
  scan_queues q cur (Z.of_nat <$> seq i k) s = Ret (bool_decide (cur ∈ concat (drop i ls))) s.
Proof.
  intros Hq. revert i. induction k as [|k IH]; intros i Hi.
  { rewrite drop_ge by lia. by rewrite bool_decide_eq_false_2 by set_solver. }
  destruct (lookup_lt_is_Some_2 ls i ltac:(lia)) as [l Hl].
  rewrite (drop_S _ _ _ Hl). cbn [seq fmap list_fmap scan_queues concat].
  rewrite (bind_ret _ _ _ _ _ (scan_queue_abs _ _ cur _ _ s Hq Hl)).
  destruct (decide (cur ∈ l)).
  - by rewrite !bool_decide_eq_true_2 by set_solver.
  - rewrite (bool_decide_eq_false_2 (cur ∈ l)), IH by (done || lia). f_equal.
    apply bool_decide_ext. set_solver.
Qed.

Lemma scan_queues_abs q ls cur s :
  mlfq_abs q ls ->
  scan_queues q cur [0; 1; 2; 3; 4] s = Ret (bool_decide (cur ∈ concat ls)) s.
Proof.
  intros Hq. change [0; 1; 2; 3; 4] with (Z.of_nat <$> seq 0 5).
  apply (scan_queues_seq q ls cur 5 0 s Hq). by destruct Hq as [-> _].
Qed.

(** Replacing ring [i] by another one that holds [l']. *)
Lemma mlfq_abs_update q q' ls i f r n row l' :
  mlfq_abs q ls -> (i < NQUEUE)%nat -> ring_abs f r n row l' ->
  front q' = <[i := f]> (front q) -> rear q' = <[i := r]> (rear q) ->
  qsz q' = <[i := n]> (qsz q) -> queue q' = <[i := row]> (queue q) ->
  mlfq_abs q' (<[i := l']> ls).
Proof.
  intros (H1 & H2 & H3 & H4 & H5 & Hq) Hi Hring Ef Er En Erow.
  unfold mlfq_abs. rewrite Ef, Er, En, Erow, !length_insert. split_and!; try done.
  intros j l Hj. destruct (decide (i = j)) as [<-|Hne].
  - rewrite list_lookup_insert_eq in Hj by lia. simplify_eq.
    exists f, r, n, row. by rewrite !list_lookup_insert_eq by lia.
  - rewrite list_lookup_insert_ne in Hj by done.
    rewrite !list_lookup_insert_ne by done. by apply Hq.
Qed.

(** What [push] does to the rest of the state. *)
Definition pushed (b : bool) (cur : nat) (q' : mlfq) (s : pstate) : pstate :=
  s <| mq := q' |>
    <| procs := if b then alter (fun p => p <| cur_time := 0 |>) cur (procs s) else procs s |>.

Lemma push_abs s ls i cur :
  mlfq_abs (mq s) ls -> (i < NQUEUE)%nat -> (cur < length (procs s))%nat ->
  exists q', push (Z.of_nat i) cur s = Ret tt (pushed (spec_enqueues ls i cur) cur q' s) /\
    mlfq_abs q' (spec_push ls i cur) /\ ticksQ q' = ticksQ (mq s).
Proof.
  intros Hq Hi Hcur. destruct (Hq) as (Hlen & _ & _ & _ & _ & Hrings).
  destruct (lookup_lt_is_Some_2 ls i ltac:(lia)) as [l Hl].
  destruct (lookup_lt_is_Some_2 (procs s) cur Hcur) as [p Hp].
  destruct (Hrings _ _ Hl) as (f & r & n & row & Hf & Hr & Hn & Hrow & Hring).
  unfold push, spec_push, spec_enqueues. rewrite Hl. cbn [default].
  msimp. rewrite (scan_queues_abs _ _ cur s Hq).
  destruct (decide (cur ∈ concat ls)) as [Hin|Hin].
  { rewrite bool_decide_eq_true_2, (bool_decide_eq_false_2 (cur ∉ _)) by tauto.
    exists (mq s). by destruct s. }
  rewrite bool_decide_eq_false_2, (bool_decide_eq_true_2 (cur ∉ _)) by done.
  unfold isFull. msimp. rewrite !aget_nat, Hf, Hr.
  rewrite (ring_abs_full _ _ _ _ _ Hring).
  destruct (decide (length l = 64%nat)) as [Hfull|Hfull].
  { rewrite bool_decide_eq_true_2, (bool_decide_eq_false_2 (_ <> _)) by tauto.
    exists (mq s). by destruct s. }
  rewrite bool_decide_eq_false_2, (bool_decide_eq_true_2 (_ <> _)) by done.
  assert (Hlt : (length l < 64)%nat).
  { destruct Hring as (_ & _ & Hr'). destruct l; [cbn; lia|]. destruct Hr' as (_ & ? & _). lia. }
  destruct (ring_abs_snoc _ _ _ _ _ cur Hring Hlt) as [Hr' Hsnoc].
  unfold upd_proc. rewrite Hp, Hrow, Hn. cbn [andb].
  eexists. split; [reflexivity|]. split.
  - rewrite (list_alter_insert (fun l => l ++ [cur]) ls i l Hl).
    eapply mlfq_abs_update; [exact Hq|done|exact Hsnoc|..]; cbn; rewrite ?aset_nat; try done.
    + destruct (f =? -1); cbn; [by rewrite aset_nat|by rewrite list_insert_id].
    + by destruct (f =? -1).
    + by destruct (f =? -1).
    + by destruct (f =? -1).
  - cbn. by destruct (f =? -1).
Qed.

Lemma pop_abs s ls i x l :
  mlfq_abs (mq s) ls -> ls !! i = Some (x :: l) ->
  exists q', pop (Z.of_nat i) s = Ret (Some x) (s <| mq := q' |>) /\
    mlfq_abs q' (<[i := l]> ls) /\ ticksQ q' = ticksQ (mq s).
Proof.
  intros Hq Hl. destruct (Hq) as (Hlen & _ & _ & _ & _ & Hrings).
  destruct (Hrings _ _ Hl) as (f & r & n & row & Hf & Hr & Hn & Hrow & Hring).
  destruct (ring_abs_tail _ _ _ _ _ _ Hring) as [Hx Htail].
  assert (Hi : (i < NQUEUE)%nat) by (rewrite <- Hlen; by eapply lookup_lt_Some).
  unfold pop. msimp. rewrite !aget_nat, Hf, Hr, Hrow, Hn, Hx.
  eexists. split; [reflexivity|]. split.
  - eapply mlfq_abs_update; [exact Hq|done|exact Htail|..];
      destruct (f =? r); cbn; rewrite ?aset_nat; try done; by rewrite list_insert_id.
  - cbn. by destruct (f =? r).
Qed.

(** Popping an empty queue reads [queue[queueNo][-1]]. *)
Lemma pop_empty s ls i :
  mlfq_abs (mq s) ls -> ls !! i = Some [] -> pop (Z.of_nat i) s = Undef.
Proof.
  intros (_ & _ & _ & _ & _ & Hrings) Hl.
  destruct (Hrings _ _ Hl) as (f & r & n & row & Hf & Hr & Hn & Hrow & (_ & _ & -> & ->)).
  unfold pop. msimp. by rewrite !aget_nat, Hf, Hr, Hrow, Hn.
Qed.

Lemma isEmpty_abs s ls i l :
  mlfq_abs (mq s) ls -> ls !! i = Some l ->
  isEmpty (Z.of_nat i) s = Ret (bool_decide (l = [])) s.
Proof.
  intros (_ & _ & _ & _ & _ & Hrings) Hl.
  destruct (Hrings _ _ Hl) as (f & r & n & row & Hf & Hr & Hn & Hrow & Hring).
  unfold isEmpty. msimp. rewrite aget_nat, Hf. by rewrite (ring_abs_empty _ _ _ _ _ Hring).
Qed.

Lemma isFull_abs s ls i l :
  mlfq_abs (mq s) ls -> ls !! i = Some l ->
  isFull (Z.of_nat i) s = Ret (bool_decide (length l = 64%nat)) s.
Proof.
  intros (_ & _ & _ & _ & _ & Hrings) Hl.
  destruct (Hrings _ _ Hl) as (f & r & n & row & Hf & Hr & Hn & Hrow & Hring).
  unfold isFull. msimp. rewrite !aget_nat, Hf, Hr. by rewrite (ring_abs_full _ _ _ _ _ Hring).
Qed.

Lemma qsz_abs q ls i l :
  mlfq_abs q ls -> ls !! i = Some l -> aget (qsz q) (Z.of_nat i) = Some (Z.of_nat (length l)).
Proof.
  intros (_ & _ & _ & _ & _ & Hrings) Hl.
  destruct (Hrings _ _ Hl) as (f & r & n & row & Hf & Hr & Hn & Hrow & (_ & -> & _)).
  by rewrite aget_nat.
Qed.

(** ** No process is queued twice, so no queue overflows *)

Definition queues_ok (ls : list (list nat)) : Prop :=
  length ls = NQUEUE /\ NoDup (concat ls) /\ Forall (fun p => (p < 64)%nat) (concat ls).

Lemma queues_ok_init : queues_ok (replicate 5 []).
Proof. split_and!; [done|apply NoDup_nil_2|by apply Forall_nil]. Qed.

Lemma NoDup_bounded_length (n : nat) (l : list nat) :
  NoDup l -> Forall (fun p => (p < n)%nat) l -> (length l <= n)%nat.
Proof.
  intros Hnd Hall. rewrite <- (length_seq n 0).
  apply submseteq_length, NoDup_submseteq; [done|].
  intros x Hx. rewrite Forall_forall in Hall. apply elem_of_seq. specialize (Hall x Hx). lia.
Qed.

Lemma concat_alter (ls : list (list nat)) i f l :
  ls !! i = Some l -> concat (alter f i ls) = concat (take i ls) ++ f l ++ concat (drop (S i) ls).
Proof.
  intros Hl. rewrite (list_alter_insert _ _ _ _ Hl).
  rewrite insert_take_drop by (by eapply lookup_lt_Some).
  by rewrite concat_app.
Qed.

Lemma concat_split (ls : list (list nat)) i l :
  ls !! i = Some l -> concat ls = concat (take i ls) ++ l ++ concat (drop (S i) ls).
Proof.
  intros Hl. rewrite <- (take_drop_middle _ _ _ Hl) at 1. by rewrite concat_app.
Qed.

(** A queue never reaches its capacity when a process outside is pushed. *)
Lemma queues_ok_not_full ls i cur :
  queues_ok ls -> (cur < 64)%nat -> cur ∉ concat ls -> spec_enqueues ls i cur = true.
Proof.
  intros (Hlen & Hnd & Hall) Hcur Hin. unfold spec_enqueues.
  rewrite bool_decide_eq_true_2 by done. apply bool_decide_eq_true_2.
  destruct (ls !! i) as [l|] eqn:Hl; [|done]. cbn.
  assert (Hb : (length (cur :: concat ls) <= 64)%nat).
  { apply NoDup_bounded_length; [by constructor|by constructor]. }
  cbn in Hb. rewrite (concat_split _ _ _ Hl), !length_app in Hb. lia.
Qed.

Lemma concat_snoc (ls : list (list nat)) i cur :
  (i < length ls)%nat -> concat (alter (fun l => l ++ [cur]) i ls) ≡ₚ cur :: concat ls.
Proof.
  intros [l Hl]%lookup_lt_is_Some_2.
  rewrite (concat_alter _ _ _ _ Hl), (concat_split _ _ _ Hl).
  rewrite <- (app_assoc l), (app_assoc (concat (take i ls))). cbn.
  rewrite <- Permutation_middle. by rewrite <- app_assoc.
Qed.

Lemma concat_tail (ls : list (list nat)) i x l :
  ls !! i = Some (x :: l) -> x :: concat (<[i := l]> ls) ≡ₚ concat ls.
Proof.
  intros Hl. rewrite (concat_split _ _ _ Hl).
  rewrite insert_take_drop, concat_app by (by eapply lookup_lt_Some). cbn.
  by rewrite Permutation_middle.
Qed.

Lemma queues_ok_push ls i cur :
  queues_ok ls -> (i < NQUEUE)%nat -> (cur < 64)%nat -> queues_ok (spec_push ls i cur).
Proof.
  intros (Hlen & Hnd & Hall) Hi Hcur. unfold spec_push, spec_enqueues.
  case_bool_decide as Hin; [|done]. case_bool_decide; [|done]. cbn.
  unfold queues_ok. rewrite length_alter, concat_snoc by lia.
  split_and!; [done|by apply NoDup_cons|by apply Forall_cons].
Qed.

Lemma queues_ok_tail ls i x l :
  queues_ok ls -> ls !! i = Some (x :: l) ->
  queues_ok (<[i := l]> ls) /\ x ∉ concat (<[i := l]> ls) /\ (x < 64)%nat.
Proof.
  intros (Hlen & Hnd & Hall) Hl. unfold queues_ok. rewrite length_insert.
  rewrite <- (concat_tail _ _ _ _ Hl), NoDup_cons in Hnd.
  rewrite <- (concat_tail _ _ _ _ Hl), Forall_cons in Hall. tauto.
Qed.

(** ** Refinement of whole runs *)

Inductive qop := OpPush (i p : nat) | OpPop (i : nat) | OpIsEmpty (i : nat) | OpIsFull (i : nat).

(** What a call returns: nothing, a process or a truth value. *)
Inductive qret := Done | Got (p : option nat) | Says (b : bool).

Definition qop_ok (o : qop) : Prop :=
  match o with
  | OpPush i p => (i < NQUEUE)%nat /\ (p < 64)%nat
  | OpPop i | OpIsEmpty i | OpIsFull i => (i < NQUEUE)%nat
  end.

(** The specification: five unbounded FIFO lists; a process that is already in
    one of them is not pushed again; popping an empty list has no result. *)
Definition fifo_op (ls : list (list nat)) (o : qop) : option (list (list nat) * qret) :=
  match o with
  | OpPush i p =>
      Some (if bool_decide (p ∈ concat ls) then ls else alter (fun l => l ++ [p]) i ls, Done)
  | OpPop i =>
      match ls !! i with
      | Some (x :: l) => Some (<[i := l]> ls, Got (Some x))
      | _ => None
      end
  | OpIsEmpty i => Some (ls, Says (bool_decide (ls !! i = Some [])))
  | OpIsFull i => Some (ls, Says (bool_decide (length (default [] (ls !! i)) = 64%nat)))
  end.

Fixpoint fifo_run (ls : list (list nat)) (os : list qop) : option (list (list nat) * list qret) :=
  match os with
  | [] => Some (ls, [])
  | o :: os' =>
      '(ls1, out) ← fifo_op ls o;
      '(ls2, outs) ← fifo_run ls1 os';
      Some (ls2, out :: outs)
  end.

Definition ring_op (o : qop) : M pstate qret :=
  match o with
  | OpPush i p => push (Z.of_nat i) p;; mret Done
  | OpPop i => x ← pop (Z.of_nat i); mret (Got x)
  | OpIsEmpty i => b ← isEmpty (Z.of_nat i); mret (Says b)
  | OpIsFull i => b ← isFull (Z.of_nat i); mret (Says b)
  end.

Fixpoint ring_run (os : list qop) : M pstate (list qret) :=
  match os with
  | [] => mret []
  | o :: os' => out ← ring_op o; outs ← ring_run os'; mret (out :: outs)
  end.

Lemma ring_op_refines s ls o :
  mlfq_abs (mq s) ls -> queues_ok ls -> length (procs s) = 64%nat -> qop_ok o ->
  match fifo_op ls o with
  | Some (ls', out) =>
      exists s', ring_op o s = Ret out s' /\ mlfq_abs (mq s') ls' /\ queues_ok ls' /\ length (procs s') = 64%nat
  | None => ring_op o s = Undef
  end.
Proof.
  intros Hq Hok Hlen Ho.
  assert (Hat : forall i, (i < NQUEUE)%nat -> exists l, ls !! i = Some l).
  { intros i Hi. apply lookup_lt_is_Some_2. destruct Hok as [-> _]. exact Hi. }
  destruct o as [i p|i|i|i]; cbn [fifo_op ring_op qop_ok] in *.
  - destruct Ho as [Hi Hp].
    destruct (push_abs s ls i p Hq Hi ltac:(lia)) as (q' & Hrun & Habs & _).
    rewrite (bind_ret _ _ _ _ _ Hrun). eexists. split; [done|].
    assert (E : spec_push ls i p = if bool_decide (p ∈ concat ls) then ls else alter (fun l => l ++ [p]) i ls).
    { unfold spec_push. case_bool_decide as Hin.
      - unfold spec_enqueues. by rewrite bool_decide_eq_false_2 by tauto.
      - by rewrite queues_ok_not_full. }
    rewrite <- E. split_and!; [done|by apply queues_ok_push|].
    cbn. destruct (spec_enqueues ls i p); [by rewrite length_alter|done].
  - destruct (Hat i Ho) as [[|x l] Hl]; rewrite Hl.
    + unfold mbind, M_bind. by rewrite (pop_empty s ls i Hq Hl).
    + destruct (pop_abs s ls i x l Hq Hl) as (q' & Hrun & Habs & _). rewrite (bind_ret _ _ _ _ _ Hrun).
      eexists. split; [reflexivity|]. split_and!; [done|by eapply queues_ok_tail|done].
  - destruct (Hat i Ho) as [l Hl]. rewrite (bind_ret _ _ _ _ _ (isEmpty_abs s ls i l Hq Hl)), Hl.
    exists s. split_and!; [|done|done|done]. unfold mret. do 2 f_equal. apply bool_decide_ext. naive_solver.
  - destruct (Hat i Ho) as [l Hl]. rewrite (bind_ret _ _ _ _ _ (isFull_abs s ls i l Hq Hl)), Hl. by exists s.
Qed.

(** C7. The ring buffers with [front], [rear] and [sz] implement five FIFO
    queues without duplicates: on every sequence of [push], [pop], [isEmpty] and
    [isFull] calls with queue numbers below five and processes of the table,
    from the boot state, each call returns what the lists return, no index
    leaves its array, and the "Queue is Full" branch is never taken (the
    specification's lists are unbounded); and a sequence that pops an empty
    queue, which the lists do not allow, reads outside the array. *)
Theorem mlfq_ring_refines_fifo s os :
  mq s = main_queues bss_queues -> length (procs s) = 64%nat -> Forall qop_ok os ->
  match fifo_run (replicate 5 []) os with
  | Some (ls, outs) => exists s', ring_run os s = Ret outs s' /\ mlfq_abs (mq s') ls
  | None => ring_run os s = Undef
  end.
Proof.
  intros Hmq Hlen Hos. pose proof mlfq_abs_bss as Hq. rewrite <- Hmq in Hq.
  pose proof queues_ok_init as Hok. revert Hq Hok. generalize (replicate 5 ([] : list nat)).
  clear Hmq. revert s Hlen.
  induction Hos as [|o os Ho _ IH]; intros s Hlen ls0 Hq Hok; [by exists s|]. cbn.
  pose proof (ring_op_refines s ls0 o Hq Hok Hlen Ho) as H1.
  destruct (fifo_op ls0 o) as [[ls1 out]|]; cbn; [|unfold mbind, M_bind; by rewrite H1].
  destruct H1 as (s1 & Hs1 & Hq1 & Hok1 & Hlen1). rewrite (bind_ret _ _ _ _ _ Hs1).
  specialize (IH s1 Hlen1 ls1 Hq1 Hok1). destruct (fifo_run ls1 os) as [[ls2 outs]|]; cbn.
  - destruct IH as (s2 & Hs2 & Hq2). exists s2. by rewrite (bind_ret _ _ _ _ _ Hs2).
  - unfold mbind, M_bind. by rewrite IH.
Qed.

Definition boot_pstate : pstate :=
  PState [Cpu 0 1 0 false None false] initlock (replicate 64 zero_proc) 1 None 0
         (main_queues bss_queues).

Lemma mlfq_ring_refines_fifo_witness :
  (exists s', ring_run [OpPush 2 7; OpPush 2 9; OpPush 0 7; OpPop 2; OpIsEmpty 2; OpPush 2 7; OpPop 2; OpIsFull 2]
                boot_pstate
              = Ret [Done; Done; Done; Got (Some 7%nat); Says false; Done; Got (Some 9%nat); Says false] s' /\
              mlfq_abs (mq s') [[]; []; [7%nat]; []; []]) /\
  ring_run [OpPush 2 7; OpPop 2; OpPop 2] boot_pstate = Undef.
Proof.
  split.
  - apply (mlfq_ring_refines_fifo boot_pstate
             [OpPush 2 7; OpPush 2 9; OpPush 0 7; OpPop 2; OpIsEmpty 2; OpPush 2 7; OpPop 2; OpIsFull 2]);
      [reflexivity|reflexivity|].
    repeat constructor; unfold NQUEUE; lia.
  - apply (mlfq_ring_refines_fifo boot_pstate [OpPush 2 7; OpPop 2; OpPop 2]); [reflexivity|reflexivity|].
    repeat constructor; unfold NQUEUE; lia.
Defined.
