(* ===== verification/Proc.v ===== *)
(** * Proc: the operations of proc.c on the process table

    Process creation ([allocproc], [userinit], [fork], [growproc]), termination
    ([exit], [wait], [waitx], [kill]), sleeping ([sleep], [wakeup]), giving up
    the CPU ([sched], [yield]) and the operations this repository adds:
    [modify_times], [set_priority], [getpinfo], [checkPremption].

    An operation that switches to the scheduler is cut at [swtch]: the part up
    to [sched()] is one definition, what runs after the process is chosen again
    is another ([..._resume]).  cprintf's debugging output is left out. *)

From S2P Require Import Prelude Spinlock Proctab Mlfq.

(** ** Services of the other components

    proc.c calls the page allocator, the virtual memory code and the file
    system.  [E] is their state; an operation can also wake processes up, so it
    runs on the whole kernel state. *)

Record kern (E : Type) := Kern { ps : pstate; env : E }.
Arguments Kern {E} ps env.
Arguments ps {E} k.
Arguments env {E} k.

#[export] Instance eta_kern E : Eta (kern E) := fun r => Kern (ps r) (env r).

Class Services (E : Type) := {
  kalloc : M (kern E) Z;                  (* page address, 0 when out of memory *)
  kfree : Z -> M (kern E) unit;
  setupkvm : M (kern E) Z;
  inituvm : Z -> M (kern E) unit;         (* load initcode at address 0 of pgdir *)
  copyuvm : Z -> Z -> M (kern E) Z;
  allocuvm : Z -> Z -> Z -> M (kern E) Z;
  deallocuvm : Z -> Z -> Z -> M (kern E) Z;
  freevm : Z -> M (kern E) unit;
  switchuvm : nat -> M (kern E) unit;
  switchkvm : M (kern E) unit;
  iinit : M (kern E) unit;                (* iinit(ROOTDEV) *)
  initlog : M (kern E) unit;              (* initlog(ROOTDEV) *)
  filedup : nat -> M (kern E) nat;
  fileclose : nat -> M (kern E) unit;
  idup : nat -> M (kern E) nat;
  iput : nat -> M (kern E) unit;
  namei_root : M (kern E) (option nat);   (* namei("/") *)
  begin_op : M (kern E) unit;
  end_op : M (kern E) unit
}.

Definition lift {E A} (m : M pstate A) : M (kern E) A :=
  zoom ps (fun p k => k <| ps := p |>) m.

(** ** sched, sleep, wakeup *)

(** Enter scheduler: the checks [sched] makes before [swtch]. *)
Definition sched (c : nat) : M pstate unit :=
  mp ← my_proc c;
  h ← zoom (fun s => (cpus s, ptlock s)) put_lock (holding c);
  if negb h then panic "sched ptable.lock"
  else
    i ← zoom cpus (fun cs s => s <| cpus := cs |>) (mycpu c);
    s ← gets (fun s => s);
    k ← deref (cpus s !! i);
    if negb (ncli k =? 1) then panic "sched locks"
    else
      p ← deref mp;
      k ← get_proc p;
      if stateb RUNNING k then panic "sched running"
      else
        ifl ← zoom cpus (fun cs s => s <| cpus := cs |>) (readeflags c);
        if (ifl : bool) then panic "sched interruptible"
        else
          i ← zoom cpus (fun cs s => s <| cpus := cs |>) (mycpu c);
          s ← gets (fun s => s);
          kc ← deref (cpus s !! i);
          upd_proc p (fun k => k <| ctx_eip := ResumeSched (intena kc) |>).

(** After [swtch] has come back, on CPU [c]: [mycpu()->intena = intena]. *)
Definition sched_resume (c p : nat) : M pstate unit :=
  k ← get_proc p;
  match ctx_eip k with
  | ResumeSched ena =>
      i ← zoom cpus (fun cs s => s <| cpus := cs |>) (mycpu c);
      modify (fun s => s <| cpus ::= upd_cpu i (fun k => k <| intena := ena |>) |>)
  | _ => undef
  end.

Definition wake (ch : option channel) (p : proc) : proc :=
  if stateb SLEEPING p && bool_decide (chan p = ch) then p <| state := RUNNABLE |> else p.

Definition wakeup1 (ch : option channel) : M pstate unit :=
  modify (fun s => s <| procs ::= map (wake ch) |>).

Definition wakeup (c : nat) (ch : option channel) : M pstate unit :=
  acquire_pt c;; wakeup1 ch;; release_pt c.

(** The lock handed to [sleep]: NULL, ptable.lock, or another lock, whose state
    is the second component. *)
Inductive sleep_lock := NullLock | PtableLock | OtherLock.

Definition on_ps {A} (m : M pstate A) : M (pstate * spinlock) A :=
  zoom fst (fun s st => (s, snd st)) m.
Definition on_lk {A} (m : M lstate A) : M (pstate * spinlock) A :=
  zoom (fun st => (cpus st.1, st.2)) (fun l st => (st.1 <| cpus := l.1 |>, l.2)) m.

(** Up to [sched()]. *)
Definition sleep (c : nat) (ch : option channel) (lk : sleep_lock) : M (pstate * spinlock) unit :=
  mp ← on_ps (my_proc c);
  match mp with
  | None => panic "sleep"
  | Some p =>
      match lk with
      | NullLock => panic "sleep without lk"
      | _ =>
          (match lk with
           | OtherLock => on_ps (acquire_pt c);; on_lk (release c)
           | _ => mret tt
           end);;
          on_ps (upd_proc p (fun k => k <| chan := ch |> <| state := SLEEPING |>));;
          on_ps (sched c)
      end
  end.

(** After the process has been woken up and switched to, on CPU [c]. *)
Definition sleep_resume (c : nat) (p : nat) (lk : sleep_lock) : M (pstate * spinlock) unit :=
  on_ps (sched_resume c p);;
  on_ps (upd_proc p (fun k => k <| chan := None |>));;
  match lk with
  | OtherLock => on_ps (release_pt c);; on_lk (acquire c)
  | _ => mret tt
  end.

(** Give up the CPU for one scheduling round, up to [sched()]. *)
Definition yield (pol : policy) (c : nat) : M pstate unit :=
  acquire_pt c;;
  mp ← my_proc c;
  p ← deref mp;
  upd_proc p (fun k => k <| state := RUNNABLE |>);;
  (match pol with
   | MLFQ =>
       upd_proc p (fun k => k <| cur_time := 0 |>
                              <| queueNo ::= fun q => s32 (q + 1) |>);;
       k ← get_proc p;
       push (queueNo k) p
   | _ => mret tt
   end);;
  sched c.

Definition yield_resume (c p : nat) : M pstate unit := sched_resume c p;; release_pt c.

(** ** Creation *)

(** The fields [allocproc] sets while it holds ptable.lock. *)
Definition init_proc (npid now : Z) (k : proc) : proc :=
  k <| state := EMBRYO |> <| pid := npid |>
    <| start_time := s32 now |> <| end_time := 0 |> <| run_time := 0 |> <| wait_time := 0 |>
    <| priority := 60 |>
    <| queueNo := 0 |> <| cur_time := 0 |> <| num_run := 0 |>
    <| pticks := replicate 5 0 |>.

(** [for(i = 0; i < 5; i++) if(!isFull(i)) { push(i, p); break; }] *)
Fixpoint push_first (idx : list Z) (p : nat) : M pstate unit :=
  match idx with
  | [] => mret tt
  | i :: idx' =>
      full ← isFull i;
      if (full : bool) then push_first idx' p else push i p
  end.

(** Size of [struct trapframe] and of [struct context]. *)
Definition TF_SIZE : Z := 76.
Definition CTX_SIZE : Z := 20.

Definition alloc_slot (pol : policy) (c : nat) : M pstate (option nat) :=
  acquire_pt c;;
  s ← gets (fun s => s);
  match findi (stateb UNUSED) (procs s) with
  | None => release_pt c;; mret None
  | Some p =>
      upd_proc p (init_proc (nextpid s) (ticks s));;
      modify (fun s => s <| nextpid ::= fun n => s32 (n + 1) |>);;
      (match pol with
       | MLFQ => push_first [0; 1; 2; 3; 4] p
       | _ => mret tt
       end);;
      release_pt c;;
      mret (Some p)
  end.

Section WithServices.
Context {E : Type} `{!Services E}.

Definition allocproc (pol : policy) (c : nat) : M (kern E) (option nat) :=
  mp ← lift (alloc_slot pol c);
  match mp with
  | None => mret None
  | Some p =>
      ks ← kalloc;
      lift (upd_proc p (fun k => k <| kstack := ks |>));;
      if ks =? 0 then
        lift (upd_proc p (fun k => k <| state := UNUSED |>));;
        mret None
      else
        let sp := u32 (ks + KSTACKSIZE - TF_SIZE) in
        let sp' := u32 (sp - 4 - CTX_SIZE) in
        lift (upd_proc p (fun k => k <| tf := sp |> <| context := sp' |>
                                     <| ctx_eip := ResumeForkret |>));;
        mret (Some p)
  end.

(** Segment selectors of user mode (mmu.h). *)
Definition SEG_UCODE : Z := 3.
Definition SEG_UDATA : Z := 4.
Definition DPL_USER : Z := 3.
Definition FL_IF : Z := 0x200.
Definition PGSIZE : Z := 4096.

Definition initcode_tf : trapframe :=
  let ds := Z.lor (Z.shiftl SEG_UDATA 3) DPL_USER in
  zero_tf <| tf_cs := Z.lor (Z.shiftl SEG_UCODE 3) DPL_USER |>
          <| tf_ds := ds |> <| tf_es := ds |> <| tf_ss := ds |>
          <| tf_eflags := FL_IF |> <| tf_esp := PGSIZE |> <| tf_eip := 0 |>.

(** safestrcpy(dst, src, n): at most n-1 bytes, always NUL-terminated; the rest
    of the destination is left alone. *)
Definition safestrcpy16 (dst src : list Z) : list Z :=
  let body := take 15 (take (default (length src) (findi (Z.eqb 0) src)) src) in
  take 16 (body ++ [0] ++ drop (S (length body)) dst).

Definition str_initcode : list Z := [105; 110; 105; 116; 99; 111; 100; 101; 0].

Definition userinit (pol : policy) (c : nat) : M (kern E) unit :=
  mp ← allocproc pol c;
  lift (modify (fun s => s <| initproc := mp |>));;
  p ← deref mp;
  pd ← setupkvm;
  lift (upd_proc p (fun k => k <| pgdir := pd |>));;
  if pd =? 0 then panic "userinit: out of memory?"
  else
    inituvm pd;;
    lift (upd_proc p (fun k => k <| psz := PGSIZE |> <| frame := initcode_tf |>
                                 <| name ::= fun n => safestrcpy16 n str_initcode |>));;
    ip ← namei_root;
    lift (upd_proc p (fun k => k <| cwd := ip |>));;
    lift (acquire_pt c);;
    lift (upd_proc p (fun k => k <| state := RUNNABLE |>));;
    lift (release_pt c).

(** Grow current process's memory by n bytes; 0 on success, -1 on failure. *)
Definition growproc (c : nat) (n : Z) : M (kern E) Z :=
  mp ← lift (my_proc c);
  p ← deref mp;
  k ← lift (get_proc p);
  let sz := psz k in
  (* the new size, or None for the early return -1 *)
  sz' ← (if n >? 0 then
           r ← allocuvm (pgdir k) sz (u32 (sz + n));
           mret (if r =? 0 then None else Some (u32 r))
         else if n <? 0 then
           r ← deallocuvm (pgdir k) sz (u32 (sz + n));
           mret (if r =? 0 then None else Some (u32 r))
         else mret (Some sz));
  match sz' with
  | None => mret (-1)
  | Some sz' =>
      lift (upd_proc p (fun k => k <| psz := sz' |>));;
      switchuvm p;;
      mret 0
  end.

(** [for(i = 0; i < NOFILE; i++) if(curproc->ofile[i]) np->ofile[i] = filedup(...)] *)
Definition dup_files (p np : nat) : M (kern E) unit :=
  for_each (seq 0 16) (fun i =>
    k ← lift (get_proc p);
    fo ← deref (ofile k !! i);
    match fo with
    | None => mret tt
    | Some f =>
        f' ← filedup f;
        lift (upd_proc np (fun k => k <| ofile ::= <[i := Some f']> |>))
    end).

Definition fork (pol : policy) (c : nat) : M (kern E) Z :=
  mp ← lift (my_proc c);
  p ← deref mp;
  mnp ← allocproc pol c;
  match mnp with
  | None => mret (-1)
  | Some np =>
      k ← lift (get_proc p);
      pd ← copyuvm (pgdir k) (psz k);
      lift (upd_proc np (fun k => k <| pgdir := pd |>));;
      if pd =? 0 then
        kn ← lift (get_proc np);
        kfree (kstack kn);;
        lift (upd_proc np (fun k => k <| kstack := 0 |> <| state := UNUSED |>));;
        mret (-1)
      else
        k ← lift (get_proc p);
        lift (upd_proc np (fun kn => kn <| psz := psz k |> <| parent := Some p |>
                                        <| frame := (frame k) <| tf_eax := 0 |> |>));;
        dup_files p np;;
        k ← lift (get_proc p);
        cw ← deref (cwd k);
        cw' ← idup cw;
        lift (upd_proc np (fun kn => kn <| cwd := Some cw' |>
                                        <| name ::= fun n => safestrcpy16 n (name k) |>));;
        kn ← lift (get_proc np);
        let npid := pid kn in
        lift (acquire_pt c);;
        lift (upd_proc np (fun kn => kn <| state := RUNNABLE |>));;
        lift (release_pt c);;
        mret npid
  end.

(** A fork child's very first scheduling switches here, still holding
    ptable.lock; [first] is the function's static variable. *)
Definition forkret (c : nat) (first : bool) : M (kern E) bool :=
  lift (release_pt c);;
  if first then iinit;; initlog;; mret false else mret first.

(** ** Termination *)

(** Close all open files and drop the current directory. *)
Definition exit_files (p : nat) : M (kern E) unit :=
  for_each (seq 0 16) (fun fd =>
    k ← lift (get_proc p);
    fo ← deref (ofile k !! fd);
    match fo with
    | None => mret tt
    | Some f =>
        fileclose f;;
        lift (upd_proc p (fun k => k <| ofile ::= <[fd := None]> |>))
    end);;
  begin_op;;
  k ← lift (get_proc p);
  cw ← deref (cwd k);
  iput cw;;
  end_op;;
  lift (upd_proc p (fun k => k <| cwd := None |>)).

End WithServices.

(** Pass abandoned children to init: one iteration of the loop over the table. *)
Definition reparent (p pq : nat) : M pstate unit :=
  k ← get_proc pq;
  if bool_decide (parent k = Some p) then
    s ← gets (fun s => s);
    upd_proc pq (fun k => k <| parent := initproc s |>);;
    if stateb ZOMBIE k then wakeup1 (ChProc <$> initproc s) else mret tt
  else mret tt.

(** The critical section of [exit], from acquire to [sched()]. *)
Definition exit_locked (c p : nat) : M pstate unit :=
  acquire_pt c;;
  k ← get_proc p;
  wakeup1 (ChProc <$> parent k);;
  s ← gets (fun s => s);
  for_each (seq 0 (length (procs s))) (reparent p);;
  upd_proc p (fun k => k <| end_time := s32 (ticks s) |> <| state := ZOMBIE |>);;
  sched c.

Section WithServices2.
Context {E : Type} `{!Services E}.

(** Exit the current process, up to [sched()]. *)
Definition exit (c : nat) : M (kern E) unit :=
  mp ← lift (my_proc c);
  s ← gets ps;
  if bool_decide (mp = initproc s) then panic "init exiting"
  else
    p ← deref mp;
    exit_files p;;
    lift (exit_locked c p).

(** What one scan of [wait] and [waitx] ends in: a pid to return (-1: no
    children, or killed), or a sleep on the process itself. *)
Inductive wait_result := WReturn (pid : Z) | WSleep.

Definition is_child (p : nat) (k : proc) : bool := bool_decide (parent k = Some p).

(** Free the slot of the zombie [z] (the "Found one" branch). *)
Definition reap (z : nat) : M (kern E) Z :=
  k ← lift (get_proc z);
  kfree (kstack k);;
  lift (upd_proc z (fun k => k <| kstack := 0 |>));;
  freevm (pgdir k);;
  lift (upd_proc z (fun k =>
    k <| pid := 0 |> <| parent := None |> <| name ::= <[0%nat := 0]> |>
      <| killed := 0 |> <| state := UNUSED |>));;
  mret (pid k).

(** No point waiting if we don't have any children; otherwise sleep. *)
Definition wait_none (c p : nat) : M (kern E) wait_result :=
  s ← gets ps;
  k ← lift (get_proc p);
  if negb (existsb (is_child p) (procs s)) || negb (killed k =? 0)
  then lift (release_pt c);; mret (WReturn (-1))
  else
    zoom (fun k => (ps k, initlock)) (fun st k => k <| ps := st.1 |>)
         (sleep c (Some (ChProc p)) PtableLock);;
    mret WSleep.

(** One pass of the [for(;;)] loop of [wait], with ptable.lock held. *)
Definition wait_scan (c p : nat) : M (kern E) wait_result :=
  s ← gets ps;
  match findi (fun k => is_child p k && stateb ZOMBIE k) (procs s) with
  | Some z =>
      r ← reap z;
      lift (release_pt c);;
      mret (WReturn r)
  | None => wait_none c p
  end.

Definition wait (c : nat) : M (kern E) wait_result :=
  mp ← lift (my_proc c);
  p ← deref mp;
  lift (acquire_pt c);;
  wait_scan c p.

(** [waitx] also stores *rtime and *wtime, after the slot has been freed. *)
Definition waitx_scan (c p : nat) : M (kern E) (wait_result * option (Z * Z)) :=
  s ← gets ps;
  match findi (fun k => is_child p k && stateb ZOMBIE k) (procs s) with
  | Some z =>
      r ← reap z;
      k ← lift (get_proc z);
      let rtime := run_time k in
      let wtime := s32 (s32 (end_time k - start_time k) - run_time k) in
      lift (release_pt c);;
      mret (WReturn r, Some (rtime, wtime))
  | None => r ← wait_none c p; mret (r, None)
  end.

Definition waitx (c : nat) : M (kern E) (wait_result * option (Z * Z)) :=
  mp ← lift (my_proc c);
  p ← deref mp;
  lift (acquire_pt c);;
  waitx_scan c p.

End WithServices2.

(** Kill the process with the given pid. *)
Definition kill (c : nat) (n : Z) : M pstate Z :=
  acquire_pt c;;
  s ← gets (fun s => s);
  match findi (fun k => pid k =? n) (procs s) with
  | Some p =>
      upd_proc p (fun k =>
        let k' := k <| killed := 1 |> in
        if stateb SLEEPING k' then k' <| state := RUNNABLE |> else k');;
      release_pt c;;
      mret 0
  | None => release_pt c;; mret (-1)
  end.

(** ** Accounting and the added system calls *)

(** One process in the loop of [modify_times] (called at every clock tick). *)
Definition tick_proc (pol : policy) (p : nat) : M pstate unit :=
  k ← get_proc p;
  if stateb RUNNING k then
    upd_proc p (fun k => k <| run_time ::= fun t => s32 (t + 1) |>);;
    match pol with
    | MLFQ =>
        t ← deref (aget (pticks k) (queueNo k));
        upd_proc p (fun k => k <| pticks ::= fun l => aset l (queueNo k) (s32 (t + 1)) |>
                               <| cur_time ::= fun t => s32 (t + 1) |>)
    | _ => mret tt
    end
  else
    upd_proc p (fun k => k <| wait_time ::= fun t => s32 (t + 1) |>);;
    match pol with
    | MLFQ =>
        k ← get_proc p;
        if negb (queueNo k =? 0) && (wait_time k >? AGE) then
          upd_proc p (fun k => k <| queueNo ::= fun q => s32 (q - 1) |>
                                 <| cur_time := 0 |> <| wait_time := 0 |>);;
          k ← get_proc p;
          push (queueNo k) p
        else mret tt
    | _ => mret tt
    end.

Definition modify_times (pol : policy) (c : nat) : M pstate unit :=
  acquire_pt c;;
  s ← gets (fun s => s);
  for_each (seq 0 (length (procs s))) (tick_proc pol);;
  release_pt c.

Definition set_priority (c : nat) (n prio : Z) : M pstate Z :=
  acquire_pt c;;
  s ← gets (fun s => s);
  old ← (match findi (fun k => pid k =? n) (procs s) with
         | Some p =>
             k ← get_proc p;
             upd_proc p (fun k => k <| priority := prio |>);;
             mret (priority k)
         | None => mret (-1)
         end);
  release_pt c;;
  mret old.

Record proc_stat := ProcStat {
  st_pid : Z; st_runtime : Z; st_num_run : Z; st_current_queue : Z; st_ticks : list Z
}.

(** Returns 1 and the filled [struct proc_stat], or 0. *)
Definition getpinfo (c : nat) (n : Z) : M pstate (Z * option proc_stat) :=
  acquire_pt c;;
  s ← gets (fun s => s);
  match findi (fun k => pid k =? n) (procs s) with
  | Some p =>
      k ← get_proc p;
      release_pt c;;
      mret (1, Some (ProcStat (pid k) (run_time k) (num_run k) (queueNo k) (take 5 (pticks k))))
  | None => release_pt c;; mret (0, None)
  end.

Definition checkPremption (c : nat) (prio f : Z) : M pstate bool :=
  acquire_pt c;;
  s ← gets (fun s => s);
  let found :=
    if f =? 0
    then existsb (fun k => negb (pid k =? 0) && (priority k <? prio)) (procs s)
    else existsb (fun k => negb (pid k =? 0) && (priority k <=? prio)) (procs s) in
  release_pt c;;
  mret found.

(** ** A concrete instance of the services

    The smallest kernel around proc.c: pages are handed out one after the other,
    files and inodes need no bookkeeping.  It serves to evaluate the operations
    on concrete states. *)
#[export] Instance bump_services : Services Z := {|
  kalloc := fun k => Ret (env k) (k <| env ::= Z.add 4096 |>);
  kfree := fun _ => mret tt;
  setupkvm := fun k => Ret (env k) (k <| env ::= Z.add 4096 |>);
  inituvm := fun _ => mret tt;
  copyuvm := fun _ _ k => Ret (env k) (k <| env ::= Z.add 4096 |>);
  allocuvm := fun _ _ newsz => mret newsz;
  deallocuvm := fun _ _ newsz => mret newsz;
  freevm := fun _ => mret tt;
  switchuvm := fun _ => mret tt;
  switchkvm := mret tt;
  iinit := mret tt;
  initlog := mret tt;
  filedup := mret;
  fileclose := fun _ => mret tt;
  idup := mret;
  iput := fun _ => mret tt;
  namei_root := mret (Some 0%nat);
  begin_op := mret tt;
  end_op := mret tt
|}.
