(* ===== verification/Scheduler.v ===== *)
(** * Scheduler: the per-CPU scheduler loop of proc.c, for the four policies

    [scheduler] never returns: it alternates between choosing a process, with
    ptable.lock held, and running it.  It is cut at [swtch]: [sched_top] runs
    from the head of the [for(;;)] loop, [sched_back] from the return of
    [swtch]; both end either at the next [swtch], with ptable.lock held, or at
    the head of the loop, with the lock released. *)

From S2P Require Import Prelude Spinlock Proctab Mlfq Proc.

(** ** Choosing *)

Definition is_runnable (k : proc) : bool := stateb RUNNABLE k.

(** ROUND_ROBIN: the next RUNNABLE entry at or after [i]. *)
Definition rr_next (i : nat) (ps : list proc) : option nat :=
  Nat.add i <$> findi is_runnable (drop i ps).

(** FCFS: one iteration of the loop over the table. *)
Definition fcfs_visit (ps : list proc) (best : option nat) (p : nat) : option nat :=
  match ps !! p with
  | Some k =>
      if negb (is_runnable k) then best
      else
        match best with
        | None => Some p
        | Some b =>
            match ps !! b with
            | Some kb => if start_time k <? start_time kb then Some p else best
            | None => best
            end
        end
  | None => best
  end.
Definition fcfs_pick (ps : list proc) : option nat :=
  foldl (fcfs_visit ps) None (seq 0 (length ps)).

(** PBS: one iteration of the inner loop, over [pp]. *)
Definition pbs_visit (ps : list proc) (best pp : nat) : nat :=
  match ps !! pp, ps !! best with
  | Some k, Some kb =>
      if negb (is_runnable k) then best
      else if priority k <? priority kb then pp else best
  | _, _ => best
  end.
(** The outer loop from index [i] on, up to the choice of a process. *)
Definition pbs_pick (i : nat) (ps : list proc) : option nat :=
  (fun p => foldl (pbs_visit ps) p (seq 0 (length ps))) <$> rr_next i ps.

(** MLFQ: [while(sz[i] > cursz)].  The loop makes at most [sz[i]] iterations;
    running out of [fuel] would be a loop that does not end. *)
Fixpoint mlfq_while (fuel : nat) (i cursz f : Z) (p : option nat)
    : M pstate (Z * option nat) :=
  match fuel with
  | O => spin
  | S fuel' =>
      q ← gets mq;
      n ← deref (aget (qsz q) i);
      if n >? cursz then
        p ← pop i;
        p' ← deref p;
        k ← get_proc p';
        if negb (is_runnable k) then
          push i p';; mlfq_while fuel' i (cursz + 1) f p
        else mret (1, p)
      else mret (f, p)
  end.

(** [for(int i = 0; i < 5; i++)] over the queues; [f] and [p] are the function's
    variables. *)
Fixpoint mlfq_for (idx : list Z) (f : Z) (p : option nat) : M pstate (Z * option nat) :=
  match idx with
  | [] => mret (f, p)
  | i :: idx' =>
      e ← (if f =? 0 then isEmpty i else mret true);
      if negb e then
        '(f', p') ← mlfq_while 65 i 0 f p;
        if f' =? 1 then mret (f', p') else mlfq_for idx' f' p'
      else mlfq_for idx' f p
  end.

(** The loop that puts every RUNNABLE process back into queue 0. *)
Definition refill_one (p : nat) : M pstate unit :=
  k ← get_proc p;
  if (pid k =? 0) || negb (is_runnable k) then mret tt else push 0 p.
Definition refill : M pstate unit :=
  s ← gets (fun s => s);
  for_each (seq 0 (length (procs s))) refill_one.

(** ** Running the chosen process *)

Definition set_cproc (c : nat) (mp : option nat) : M pstate unit :=
  modify (fun s => s <| cpus ::= upd_cpu c (fun k => k <| cproc := mp |>) |>).

Definition on_cpu_sti (c : nat) : M pstate unit :=
  zoom cpus (fun cs s => s <| cpus := cs |>) (sti c).

(** What MLFQ records of a process it is about to run. *)
Definition mlfq_account (p : nat) : M pstate unit :=
  upd_proc p (fun k => k <| wait_time := 0 |> <| num_run ::= fun n => s32 (n + 1) |>).

(** Where a leg of the scheduler ends: at [swtch] to the context of [p], or at
    the head of the loop with the values of the variables [f] and [p]. *)
Inductive sched_stop := SwitchTo (p : nat) | Again (f : Z) (p : option nat).

Section WithServices.
Context {E : Type} `{!Services E}.

(** [c->proc = p; switchuvm(p); p->state = RUNNING;], up to [swtch]. *)
Definition dispatch (c p : nat) : M (kern E) unit :=
  lift (set_cproc c (Some p));;
  switchuvm p;;
  lift (upd_proc p (fun k => k <| state := RUNNING |>)).

(** Dispatch the choice, or release the lock and go back to the top. *)
Definition dispatch_or_release (c : nat) (mp : option nat) : M (kern E) sched_stop :=
  match mp with
  | Some p => dispatch c p;; mret (SwitchTo p)
  | None => lift (release_pt c);; mret (Again 0 None)
  end.

(** The entry of [scheduler], before the loop. *)
Definition sched_init (c : nat) : M (kern E) unit := lift (set_cproc c None).

(** MLFQ, after the loop over the queues: [if(f && p->state == RUNNABLE) ...] and
    [if(f == 0) ...]. *)
Definition mlfq_finish (c : nat) (f : Z) (p : option nat) : M (kern E) sched_stop :=
  run ← (if f =? 0 then mret None
         else
           p' ← deref p;
           k ← lift (get_proc p');
           mret (if is_runnable k then Some p' else None));
  match run with
  | Some p' => lift (mlfq_account p');; dispatch c p';; mret (SwitchTo p')
  | None =>
      (if f =? 0 then lift refill else mret tt);;
      lift (release_pt c);;
      mret (Again f p)
  end.

(** From the head of the loop. *)
Definition sched_top (pol : policy) (c : nat) (f : Z) (p : option nat) : M (kern E) sched_stop :=
  lift (on_cpu_sti c);;
  lift (acquire_pt c);;
  s ← gets ps;
  match pol with
  | ROUND_ROBIN => dispatch_or_release c (rr_next 0 (procs s))
  | FCFS => dispatch_or_release c (fcfs_pick (procs s))
  | PBS => dispatch_or_release c (pbs_pick 0 (procs s))
  | MLFQ =>
      '(f, p) ← lift (mlfq_for [0; 1; 2; 3; 4] f p);
      mlfq_finish c f p
  end.

(** From the return of [swtch], after process [p] gave up the CPU.  The table
    loops of ROUND_ROBIN and PBS go on at the entry after [p]. *)
Definition sched_back (pol : policy) (c p : nat) : M (kern E) sched_stop :=
  switchkvm;;
  lift (set_cproc c None);;
  s ← gets ps;
  match pol with
  | ROUND_ROBIN => dispatch_or_release c (rr_next (S p) (procs s))
  | FCFS => dispatch_or_release c None
  | PBS => dispatch_or_release c (pbs_pick (S p) (procs s))
  | MLFQ => lift refill;; dispatch_or_release c None
  end.

End WithServices.

(** ** What the choices are *)

Definition runnable_at (ps : list proc) (p : nat) : bool :=
  match ps !! p with Some k => is_runnable k | None => false end.

Lemma rr_next_Some i ps p :
  rr_next i ps = Some p <->
  (i <= p)%nat /\ runnable_at ps p = true /\
  (forall q, (i <= q < p)%nat -> runnable_at ps q = false).
Proof.
  unfold rr_next. rewrite fmap_Some. split.
  - intros (j & [(k & Hk & Hr) Hlt]%findi_Some & ->). rewrite lookup_drop in Hk.
    unfold runnable_at. rewrite Hk. split_and!; [lia|done|].
    intros q Hq. destruct (ps !! q) as [kq|] eqn:Hkq; [|done].
    apply (Hlt (q - i)%nat); [lia|]. rewrite lookup_drop. rewrite <- Hkq. f_equal. lia.
  - intros (Hip & Hr & Hlt). exists (p - i)%nat. split; [|lia]. apply findi_Some.
    unfold runnable_at in Hr. destruct (ps !! p) as [k|] eqn:Hk; [|done]. split.
    + exists k. rewrite lookup_drop. replace (i + (p - i))%nat with p by lia. done.
    + intros j y Hj Hy. rewrite lookup_drop in Hy. specialize (Hlt (i + j)%nat ltac:(lia)).
      unfold runnable_at in Hlt. by rewrite Hy in Hlt.
Qed.

Lemma rr_next_None i ps :
  rr_next i ps = None <-> (forall q, (i <= q)%nat -> runnable_at ps q = false).
Proof.
  unfold rr_next. rewrite fmap_None, findi_None. unfold runnable_at. split.
  - intros H q Hq. destruct (ps !! q) as [k|] eqn:Hk; [|done].
    apply (H (q - i)%nat). rewrite lookup_drop, <- Hk. f_equal. lia.
  - intros H j y Hy. rewrite lookup_drop in Hy. specialize (H (i + j)%nat ltac:(lia)).
    by rewrite Hy in H.
Qed.

(** [p] is RUNNABLE with the smallest [key] of all RUNNABLE processes. *)
Definition picks_min (key : proc -> Z) (ps : list proc) (p : nat) : Prop :=
  exists k, ps !! p = Some k /\ is_runnable k = true /\
  forall q kq, ps !! q = Some kq -> is_runnable kq = true -> key k <= key kq.

(** The loop of FCFS after the entries [seq 0 n]: the first entry with the
    smallest start time. *)
Lemma fcfs_loop ps n :
  (n <= length ps)%nat ->
  match foldl (fcfs_visit ps) None (seq 0 n) with
  | None => forall q, (q < n)%nat -> runnable_at ps q = false
  | Some p => (p < n)%nat /\ exists k, ps !! p = Some k /\ is_runnable k = true /\
      forall q kq, (q < n)%nat -> ps !! q = Some kq -> is_runnable kq = true ->
        start_time k < start_time kq \/ (start_time k = start_time kq /\ (p <= q)%nat)
  end.
Proof.
  induction n as [|n IH]; intros Hn; [intros q Hq; lia|].
  rewrite seq_S, foldl_app. cbn [foldl Nat.add]. specialize (IH ltac:(lia)).
  destruct (lookup_lt_is_Some_2 ps n ltac:(lia)) as [kn Hkn].
  unfold fcfs_visit at 1. rewrite Hkn.
  destruct (foldl (fcfs_visit ps) None (seq 0 n)) as [p|] eqn:E.
  - destruct IH as (Hp & k & Hk & Hr & Hmin). rewrite Hk.
    destruct (is_runnable kn) eqn:Hrn; cbn [negb].
    + destruct (Z.ltb_spec (start_time kn) (start_time k)).
      * split; [lia|]. exists kn. split_and!; try done.
        intros q kq Hq Hkq Hrq. destruct (decide (q = n)) as [->|]; [simplify_eq; lia|].
        destruct (Hmin q kq ltac:(lia) Hkq Hrq); lia.
      * split; [lia|]. exists k. split_and!; try done. intros q kq Hq Hkq Hrq.
        destruct (decide (q = n)) as [->|]; [simplify_eq; lia|]. apply Hmin; [lia|done..].
    + split; [lia|]. exists k. split_and!; try done. intros q kq Hq Hkq Hrq.
      destruct (decide (q = n)) as [->|]; [congruence|]. apply Hmin; [lia|done..].
  - destruct (is_runnable kn) eqn:Hrn; cbn [negb].
    + split; [lia|]. exists kn. split_and!; try done. intros q kq Hq Hkq Hrq.
      destruct (decide (q = n)) as [->|]; [simplify_eq; lia|].
      specialize (IH q ltac:(lia)). unfold runnable_at in IH. rewrite Hkq in IH. congruence.
    + intros q Hq. destruct (decide (q = n)) as [->|]; [|apply IH; lia].
      unfold runnable_at. by rewrite Hkn.
Qed.

(** The inner loop of PBS, started at the RUNNABLE process [p0]. *)
Lemma pbs_loop ps p0 n :
  runnable_at ps p0 = true -> (n <= length ps)%nat ->
  exists k, ps !! foldl (pbs_visit ps) p0 (seq 0 n) = Some k /\ is_runnable k = true /\
    (forall q kq, (q < n)%nat \/ q = p0 -> ps !! q = Some kq -> is_runnable kq = true ->
       priority k <= priority kq).
Proof.
  intros H0. induction n as [|n IH]; intros Hn.
  { unfold runnable_at in H0. destruct (ps !! p0) as [k|] eqn:Hk; [|done]. cbn.
    exists k. split_and!; try done. intros q kq [?|Hq]; [lia|subst q]. intros. simplify_eq. lia. }
  rewrite seq_S, foldl_app. cbn [foldl Nat.add].
  destruct (IH ltac:(lia)) as (k & Hk & Hr & Hmin).
  destruct (lookup_lt_is_Some_2 ps n ltac:(lia)) as [kn Hkn].
  unfold pbs_visit at 1. rewrite Hkn, Hk.
  destruct (is_runnable kn) eqn:Hrn; cbn [negb].
  - destruct (Z.ltb_spec (priority kn) (priority k)).
    + exists kn. split_and!; try done. intros q kq Hq Hkq Hrq.
      destruct (decide (q = n)) as [->|]; [simplify_eq; lia|].
      assert (priority k <= priority kq); [|lia]. apply (Hmin q); try done. lia.
    + exists k. split_and!; try done. intros q kq Hq Hkq Hrq.
      destruct (decide (q = n)) as [->|]; [simplify_eq; lia|]. apply (Hmin q); try done. lia.
  - exists k. split_and!; try done. intros q kq Hq Hkq Hrq.
    destruct (decide (q = n)) as [->|]; [congruence|]. apply (Hmin q); try done. lia.
Qed.

Lemma pbs_pick_min i ps p : pbs_pick i ps = Some p -> picks_min priority ps p.
Proof.
  unfold pbs_pick. intros (p0 & (_ & H0 & _)%rr_next_Some & ->)%fmap_Some.
  destruct (pbs_loop ps p0 (length ps) H0 ltac:(lia)) as (k & Hk & Hr & Hmin).
  exists k. split_and!; try done. intros q kq Hq Hrq.
  apply (Hmin q); try done. left. by eapply lookup_lt_Some.
Qed.

(** ** The legs of the loop

    The facts about the virtual-memory services that the scheduler relies on:
    [switchuvm] and [switchkvm] load hardware registers and leave the process
    table alone. *)
Class SwitchOk (E : Type) `{!Services E} : Prop := {
  switchuvm_ps : forall p (k : kern E) a k', switchuvm p k = Ret a k' -> ps k' = ps k;
  switchkvm_ps : forall (k : kern E) a k', switchkvm k = Ret a k' -> ps k' = ps k
}.

(** CPU [c] runs the scheduler, outside any lock, and ptable.lock is free. *)
Definition idle_cpu (c : nat) (s : pstate) : Prop :=
  ids_ok (cpus s) /\ ptlock s = initlock /\
  exists k, cpus s !! c = Some k /\ ncli k = 0.

Definition sti_ps (c : nat) (s : pstate) : pstate :=
  s <| cpus ::= upd_cpu c (fun k => k <| iflag := true |>) |>.

Lemma idle_can_lock c s : idle_cpu c s -> can_lock c (sti_ps c s).
Proof.
  intros (Hids & Hl & k & Hk & Hn). unfold can_lock, sti_ps. cbn.
  rewrite (upd_cpu_insert _ _ _ _ Hk). split_and!; [by eapply ids_ok_insert|done|].
  eexists. rewrite list_lookup_insert_eq by (by eapply lookup_lt_Some).
  split; [done|]. unfold cpu_ok. cbn. lia.
Qed.

(** The state in which the policy chooses. *)
Definition choosing (c : nat) (s : pstate) : pstate := lockd c (sti_ps c s).

Lemma choosing_procs c s : procs (choosing c s) = procs s.
Proof. done. Qed.
Lemma choosing_mq c s : mq (choosing c s) = mq s.
Proof. done. Qed.
Lemma choosing_has_lock c s : idle_cpu c s -> has_lock c (choosing c s).
Proof. intros H. by apply lockd_has_lock, idle_can_lock. Qed.

(** The state at [swtch]. *)
Definition dispatched (c p : nat) (s : pstate) : pstate :=
  s <| cpus ::= upd_cpu c (fun k => k <| cproc := Some p |>) |>
    <| procs ::= alter (fun k => k <| state := RUNNING |>) p |>.

Section Legs.
Context {E : Type} `{!Services E} `{!SwitchOk E}.

Lemma lift_ret {A} (m : M pstate A) (k : kern E) a s' :
  m (ps k) = Ret a s' -> lift m k = Ret a (k <| ps := s' |>).
Proof. intros H. unfold lift, zoom. by rewrite H. Qed.

Lemma lift_at {A} (m : M pstate A) (k : kern E) s a s' :
  m s = Ret a s' -> lift m (k <| ps := s |>) = Ret a (k <| ps := s' |>).
Proof. intros H. unfold lift, zoom. cbn. by rewrite H. Qed.

Lemma dispatch_ps c p (k k' : kern E) :
  dispatch c p k = Ret tt k' -> ps k' = dispatched c p (ps k).
Proof.
  unfold dispatch, set_cproc, lift. msimp. destruct (switchuvm p _) eqn:Hs; try done.
  apply switchuvm_ps in Hs. unfold upd_proc. rewrite Hs. cbn.
  destruct (procs (ps k) !! p); [|done]. by intros [= <-].
Qed.

Lemma sched_top_choosing pol c f p (k : kern E) :
  idle_cpu c (ps k) ->
  sched_top pol c f p k =
  (match pol with
   | ROUND_ROBIN => dispatch_or_release c (rr_next 0 (procs (ps k)))
   | FCFS => dispatch_or_release c (fcfs_pick (procs (ps k)))
   | PBS => dispatch_or_release c (pbs_pick 0 (procs (ps k)))
   | MLFQ =>
      '(f, p) ← lift (mlfq_for [0; 1; 2; 3; 4] f p);
      mlfq_finish c f p
   end) (k <| ps := choosing c (ps k) |>).
Proof.
  intros Hidle. unfold sched_top, on_cpu_sti, sti.
  rewrite (bind_ret _ _ _ tt (k <| ps := sti_ps c (ps k) |>)); [|done].
  rewrite (bind_ret _ _ _ tt (k <| ps := choosing c (ps k) |>)).
  2: { by apply lift_at, acquire_pt_ok, idle_can_lock. }
  by destruct pol.
Qed.

Lemma dispatch_or_release_ps c mp (k k' : kern E) r :
  has_lock c (ps k) -> dispatch_or_release c mp k = Ret r k' ->
  match mp with
  | Some p => r = SwitchTo p /\ ps k' = dispatched c p (ps k)
  | None => r = Again 0 None /\ ps k' = unlockd c (ps k)
  end.
Proof.
  intros Hl. destruct mp as [p|]; cbn [dispatch_or_release].
  - msimp. destruct (dispatch c p k) eqn:Hd; try done. destruct a.
    intros [= <- <-]. split; [done|by apply dispatch_ps].
  - rewrite (bind_ret _ _ _ _ _ (lift_ret _ _ _ _ (release_pt_ok c (ps k) Hl))).
    by intros [= <- <-].
Qed.

End Legs.

#[export] Instance bump_switch_ok : SwitchOk Z.
Proof. split; cbn; [intros p k a k' [= <- <-]|intros k a k' [= <- <-]]; done. Qed.

(** What a leg that ended in [r] did to the processes: it started [p] on CPU
    [c], or nothing was chosen and the lock is free again. *)
Definition leg_effect (c : nat) (r : sched_stop) (s s' : pstate) : Prop :=
  match r with
  | SwitchTo p =>
      procs s' = alter (fun k => k <| state := RUNNING |>) p (procs s) /\
      (cproc <$> cpus s' !! c) = Some (Some p) /\ ptlock s' = Spinlock 1 (Some c)
  | Again _ _ => procs s' = procs s /\ ptlock s' = initlock
  end.

Lemma leg_effect_choosing c s mp :
  idle_cpu c s ->
  match mp with
  | Some p => leg_effect c (SwitchTo p) s (dispatched c p (choosing c s))
  | None => leg_effect c (Again 0 None) s (unlockd c (choosing c s))
  end.
Proof.
  intros (_ & _ & k & Hk & _). destruct mp as [p|]; cbn; [|done]. split_and!; try done.
  unfold upd_cpu. by rewrite !list_lookup_alter_eq, Hk.
Qed.

Section Policies.
Context {E : Type} `{!Services E} `{!SwitchOk E}.

(** First come, first served: the scheduler starts the RUNNABLE process with the
    smallest start time, the first in the table among equals; it goes round the
    loop only when no process is RUNNABLE. *)
Theorem fcfs_runs_earliest c f p (k k' : kern E) r :
  idle_cpu c (ps k) -> sched_top FCFS c f p k = Ret r k' ->
  leg_effect c r (ps k) (ps k') /\
  match r with
  | SwitchTo q =>
      picks_min start_time (procs (ps k)) q /\
      forall j kj kq, (j < q)%nat -> procs (ps k) !! j = Some kj -> is_runnable kj = true ->
        procs (ps k) !! q = Some kq -> start_time kq < start_time kj
  | Again _ _ => forall j, runnable_at (procs (ps k)) j = false
  end.
Proof.
  intros Hidle. rewrite sched_top_choosing by done. intros H.
  apply dispatch_or_release_ps in H; [|by apply choosing_has_lock].
  pose proof (fcfs_loop (procs (ps k)) (length (procs (ps k))) ltac:(lia)) as Hloop.
  pose proof (leg_effect_choosing c (ps k) (fcfs_pick (procs (ps k))) Hidle) as Heff.
  unfold fcfs_pick in *. destruct (foldl _ _ _) as [q|]; destruct H as [-> ->].
  - destruct Hloop as (Hq & kq & Hkq & Hrq & Hmin). split_and!; [done|..].
    + exists kq. split_and!; try done. intros j kj Hj Hrj.
      destruct (Hmin j kj ltac:(by eapply lookup_lt_Some) Hj Hrj); lia.
    + intros j kj kq' Hj Hkj Hrj ?. simplify_eq.
      destruct (Hmin j kj ltac:(lia) Hkj Hrj); lia.
  - split; [done|]. intros j. destruct (decide (j < length (procs (ps k)))%nat).
    + by apply Hloop.
    + unfold runnable_at. by rewrite lookup_ge_None_2 by lia.
Qed.

(** Priority based: from the head of the loop the scheduler starts a RUNNABLE
    process of the numerically smallest priority, and goes round the loop only
    when no process is RUNNABLE. *)
Theorem pbs_runs_highest_priority c f p (k k' : kern E) r :
  idle_cpu c (ps k) -> sched_top PBS c f p k = Ret r k' ->
  leg_effect c r (ps k) (ps k') /\
  match r with
  | SwitchTo q => picks_min priority (procs (ps k)) q
  | Again _ _ => forall j, runnable_at (procs (ps k)) j = false
  end.
Proof.
  intros Hidle. rewrite sched_top_choosing by done. intros H.
  apply dispatch_or_release_ps in H; [|by apply choosing_has_lock].
  pose proof (leg_effect_choosing c (ps k) (pbs_pick 0 (procs (ps k))) Hidle) as Heff.
  destruct (pbs_pick 0 (procs (ps k))) as [q|] eqn:Hpick; destruct H as [-> ->].
  - split; [done|]. by eapply pbs_pick_min.
  - split; [done|]. unfold pbs_pick in Hpick. rewrite fmap_None, rr_next_None in Hpick.
    intros j. apply Hpick. lia.
Qed.

End Policies.

(** *** Witnesses: three processes, of start times 5, 3, 3 and priorities 60, 70, 50. *)
Definition three_procs : kern Z :=
  Kern (boot_pstate <| procs ::= fun l =>
    [zero_proc <| state := RUNNABLE |> <| pid := 1 |> <| start_time := 5 |> <| priority := 60 |>;
     zero_proc <| state := RUNNABLE |> <| pid := 2 |> <| start_time := 3 |> <| priority := 70 |>;
     zero_proc <| state := RUNNABLE |> <| pid := 3 |> <| start_time := 3 |> <| priority := 50 |>]
    ++ drop 3 l |>) 4096.

Lemma three_procs_idle : idle_cpu 0 (ps three_procs).
Proof.
  split_and!; [|done|eexists; done]. unfold ids_ok. cbn. apply NoDup_singleton.
Qed.

Lemma fcfs_runs_earliest_witness :
  exists k', sched_top FCFS 0 0 None three_procs = Ret (SwitchTo 1) k' /\
    picks_min start_time (procs (ps three_procs)) 1.
Proof.
  assert (H : exists k', sched_top FCFS 0 0 None three_procs = Ret (SwitchTo 1) k')
    by (eexists; vm_compute; reflexivity).
  destruct H as [k' H]. exists k'. split; [exact H|].
  exact (proj1 (proj2 (fcfs_runs_earliest 0 0 None three_procs k' (SwitchTo 1)
                         three_procs_idle H))).
Defined.

Lemma pbs_runs_highest_priority_witness :
  exists k', sched_top PBS 0 0 None three_procs = Ret (SwitchTo 2) k' /\
    picks_min priority (procs (ps three_procs)) 2.
Proof.
  assert (H : exists k', sched_top PBS 0 0 None three_procs = Ret (SwitchTo 2) k')
    by (eexists; vm_compute; reflexivity).
  destruct H as [k' H]. exists k'. split; [exact H|].
  exact (proj2 (pbs_runs_highest_priority 0 0 None three_procs k' (SwitchTo 2)
                  three_procs_idle H)).
Defined.

(** ** Runs of one CPU's scheduler

    The legs of the loop on CPU [c], one after the other.  Between two legs
    anything may happen to the kernel state (the process runs, other CPUs run),
    so each leg starts in an arbitrary state in which the CPU has the control
    the scheduler has there.  A run records, per leg, the process table it
    started with and where it stopped. *)

Inductive sched_pc := AtTop (f : Z) (p : option nat) | AtBack (p : nat).

Definition next_pc (r : sched_stop) : sched_pc :=
  match r with SwitchTo p => AtBack p | Again f p => AtTop f p end.

Section Runs.
Context {E : Type} `{!Services E} `{!SwitchOk E}.

Definition leg_runs (pol : policy) (c : nat) (pc : sched_pc) (k : kern E) (r : sched_stop) : Prop :=
  exists k', match pc with
             | AtTop f p => idle_cpu c (ps k) /\ sched_top pol c f p k = Ret r k'
             | AtBack p => has_lock c (ps k) /\ sched_back pol c p k = Ret r k'
             end.

Inductive sched_run (pol : policy) (c : nat) : sched_pc -> list (list proc * sched_stop) -> Prop :=
| run_nil pc : sched_run pol c pc []
| run_leg pc k r tr :
    leg_runs pol c pc k r -> sched_run pol c (next_pc r) tr ->
    sched_run pol c pc ((procs (ps k), r) :: tr).

(** Where the table loop starts in a leg. *)
Definition start_index (pc : sched_pc) : nat :=
  match pc with AtTop _ _ => 0 | AtBack p => S p end.

Lemma sched_back_ps pol c p (k k' : kern E) r :
  sched_back pol c p k = Ret r k' ->
  exists k1, ps k1 = (ps k) <| cpus ::= upd_cpu c (fun k => k <| cproc := None |>) |> /\
    (match pol with
     | ROUND_ROBIN => dispatch_or_release c (rr_next (S p) (procs (ps k)))
     | FCFS => dispatch_or_release c None
     | PBS => dispatch_or_release c (pbs_pick (S p) (procs (ps k)))
     | MLFQ => lift refill;; dispatch_or_release c None
     end) k1 = Ret r k'.
Proof.
  unfold sched_back, set_cproc. unfold mbind at 1, M_bind at 1.
  destruct (switchkvm k) as [[] k0| | |] eqn:Hs; try done.
  apply switchkvm_ps in Hs.
  rewrite (bind_ret _ _ _ tt (k0 <| ps := (ps k) <| cpus ::= upd_cpu c (fun k => k <| cproc := None |>) |> |>)).
  2: { unfold lift. msimp. by rewrite Hs. }
  intros H. exists (k0 <| ps := (ps k) <| cpus ::= upd_cpu c (fun k => k <| cproc := None |>) |> |>).
  split; [done|]. by destruct pol.
Qed.

Lemma dispatch_or_release_stop c mp (k k' : kern E) r :
  dispatch_or_release c mp k = Ret r k' ->
  r = match mp with Some p => SwitchTo p | None => Again 0 None end.
Proof.
  destruct mp; cbn [dispatch_or_release]; unfold mbind at 1, M_bind at 1.
  - by destruct (dispatch c n k) as [[]| | |]; [intros [= <- _]|..].
  - by destruct (lift (release_pt c) k) as [[]| | |]; [intros [= <- _]|..].
Qed.

Lemma rr_leg c pc (k : kern E) r :
  leg_runs ROUND_ROBIN c pc k r ->
  r = match rr_next (start_index pc) (procs (ps k)) with
      | Some p => SwitchTo p
      | None => Again 0 None
      end.
Proof.
  intros [k' H]. destruct pc as [f p|p]; destruct H as [Hc H].
  - rewrite sched_top_choosing in H by done. by apply dispatch_or_release_stop in H.
  - apply sched_back_ps in H as (k1 & _ & H). by apply dispatch_or_release_stop in H.
Qed.

(** How many legs the scheduler can be away from process [p] when its table loop
    is at index [i]. *)
Definition rr_distance (p i : nat) : nat :=
  if decide (i <= p)%nat then p - i + 1 else 64 - i + p + 2.

Lemma rr_reaches c p pc tr :
  (p < 64)%nat -> (start_index pc <= 64)%nat -> sched_run ROUND_ROBIN c pc tr ->
  Forall (fun e => length e.1 = 64%nat /\ runnable_at e.1 p = true) tr ->
  (rr_distance p (start_index pc) <= length tr)%nat ->
  exists ps, (ps, SwitchTo p) ∈ tr.
Proof.
  intros Hp Hpc Hrun. revert Hpc. induction Hrun as [pc|pc k r tr Hleg Hrun IH]; intros Hpc Hall.
  { unfold rr_distance. case_decide; cbn; lia. }
  apply Forall_cons in Hall as [[Hlen Hr] Hall]. cbn [fst length] in *. intros Hd.
  pose proof (rr_leg _ _ _ _ Hleg) as Hstop.
  destruct (rr_next (start_index pc) (procs (ps k))) as [q|] eqn:Hnext.
  - apply rr_next_Some in Hnext as (Hiq & Hrq & Hlt).
    destruct (decide (q = p)) as [->|Hqp]; [exists (procs (ps k)); subst r; set_solver|].
    assert (Hq : (q < 64)%nat).
    { unfold runnable_at in Hrq. destruct (procs (ps k) !! q) eqn:Hk; [|done].
      apply lookup_lt_Some in Hk. lia. }
    destruct IH as [ps' Hin]; [subst r; cbn; lia|done| |exists ps'; set_solver].
    subst r. cbn. unfold rr_distance in *. repeat case_decide; try lia.
    specialize (Hlt p ltac:(lia)). congruence.
  - rewrite rr_next_None in Hnext. unfold rr_distance in *.
    destruct (decide (start_index pc <= p)%nat); [by rewrite Hnext in Hr|].
    destruct IH as [ps' Hin]; [subst r; cbn; lia|done| |exists ps'; set_solver].
    subst r. cbn. case_decide; lia.
Qed.

(** C27. Round robin starves nobody: whatever happens between the legs, a process
    that stays RUNNABLE is started by the scheduler of any CPU within 65 of its
    legs. *)
Theorem rr_bounded_waiting c p pc tr :
  (p < 64)%nat -> (start_index pc <= 64)%nat -> sched_run ROUND_ROBIN c pc tr ->
  Forall (fun e => length e.1 = 64%nat /\ runnable_at e.1 p = true) tr ->
  (65 <= length tr)%nat ->
  exists ps, (ps, SwitchTo p) ∈ tr.
Proof.
  intros Hp Hpc Hrun Hall Hlen. eapply rr_reaches; try done.
  unfold rr_distance. case_decide; lia.
Qed.

End Runs.

(** A run in which three processes are always RUNNABLE. *)
Definition three_locked : kern Z := three_procs <| ps ::= lockd 0 |>.

Lemma three_locked_has_lock : has_lock 0 (ps three_locked).
Proof.
  apply lockd_has_lock. destruct three_procs_idle as (Hids & Hl & k & Hk & Hn).
  split_and!; try done. exists k. unfold cpu_ok. split_and!; try done; lia.
Qed.

Lemma rr_cycle n :
  exists tr, sched_run (E := Z) ROUND_ROBIN 0 (AtTop 0 None) tr /\
    Forall (fun e => length e.1 = 64%nat /\ runnable_at e.1 2 = true) tr /\
    length tr = (4 * n)%nat.
Proof.
  induction n as [|n (tr & Hrun & Hall & Hlen)].
  { exists []. split_and!; [constructor|constructor|done]. }
  eexists. split_and!.
  - eapply (run_leg _ _ _ three_procs (SwitchTo 0)).
    { eexists. split; [exact three_procs_idle|vm_compute; reflexivity]. }
    eapply (run_leg _ _ _ three_locked (SwitchTo 1)).
    { eexists. split; [exact three_locked_has_lock|vm_compute; reflexivity]. }
    eapply (run_leg _ _ _ three_locked (SwitchTo 2)).
    { eexists. split; [exact three_locked_has_lock|vm_compute; reflexivity]. }
    eapply (run_leg _ _ _ three_locked (Again 0 None)).
    { eexists. split; [exact three_locked_has_lock|vm_compute; reflexivity]. }
    exact Hrun.
  - do 4 (constructor; [by vm_compute|]). done.
  - cbn. rewrite Hlen. lia.
Qed.

Lemma rr_bounded_waiting_witness :
  exists tr ps, sched_run (E := Z) ROUND_ROBIN 0 (AtTop 0 None) tr /\ (ps, SwitchTo 2) ∈ tr.
Proof.
  destruct (rr_cycle 17) as (tr & Hrun & Hall & Hlen). exists tr.
  destruct (rr_bounded_waiting (E := Z) 0 2 (AtTop 0 None) tr) as [ps Hin].
  - lia.
  - cbn. lia.
  - exact Hrun.
  - exact Hall.
  - lia.
  - exists ps. split; [exact Hrun|exact Hin].
Defined.

(** *** PBS and processes of equal priority *)

(** Entries 0 and 2 have priority 50, entry 1 has 60. *)
Definition pbs_procs : kern Z :=
  three_procs <| ps ::= fun s => s <| procs ::= alter (fun k => k <| priority := 50 |>) 0%nat |>
                                   <| procs ::= alter (fun k => k <| priority := 60 |>) 1%nat |> |>.
Definition pbs_locked : kern Z := pbs_procs <| ps ::= lockd 0 |>.

Lemma pbs_locked_has_lock : has_lock 0 (ps pbs_locked).
Proof.
  split_and!; [apply NoDup_singleton|done|]. eexists. split; [vm_compute; reflexivity|].
  by split; [split|].
Qed.

Lemma pbs_min_2 : picks_min priority (procs (ps pbs_procs)) 2.
Proof.
  assert (H : Forall (fun k => 50 <= priority k \/ is_runnable k = false) (procs (ps pbs_procs))).
  { vm_compute.
    repeat (constructor; [(left; discriminate) || (right; reflexivity)|]). constructor. }
  eexists. split_and!; [vm_compute; reflexivity|reflexivity|].
  intros q kq Hq Hr. rewrite Forall_lookup in H. destruct (H _ _ Hq); [done|congruence].
Qed.

Lemma pbs_back_cycle n :
  exists tr, sched_run (E := Z) PBS 0 (AtBack 0) tr /\ length tr = n /\
    Forall (fun e => e = (procs (ps pbs_procs), SwitchTo 0)) tr.
Proof.
  induction n as [|n (tr & Hrun & Hlen & Hall)]; [exists []; repeat constructor|].
  exists ((procs (ps pbs_procs), SwitchTo 0) :: tr). split_and!; [|cbn; lia|by constructor].
  change (procs (ps pbs_procs)) with (procs (ps pbs_locked)).
  constructor; [|done]. eexists. split; [exact pbs_locked_has_lock|vm_compute; reflexivity].
Qed.

(** Priority based: processes of equal priority are not run in turn.  While a
    less urgent process sits between them in the table, the loop comes back to
    the first of them for ever: for every [n] there is a run of [n] legs in
    which process 2 is RUNNABLE and of the best priority at every leg and only
    process 0 is started. *)
Theorem pbs_equal_priority_starves (n : nat) :
  exists tr, sched_run (E := Z) PBS 0 (AtBack 0) tr /\ length tr = n /\
    Forall (fun e => picks_min priority e.1 2 /\ e.2 = SwitchTo 0) tr.
Proof.
  destruct (pbs_back_cycle n) as (tr & Hrun & Hlen & Hall). exists tr. split_and!; [done..|].
  eapply Forall_impl; [exact Hall|]. intros e ->. split; [exact pbs_min_2|done].
Qed.
