(* ===== verification/SchedMlfq.v ===== *)
(** * SchedMlfq: what the MLFQ policy chooses

    The loops of the MLFQ scheduler ([mlfq_while], [mlfq_for], [refill]) on the
    abstract queues of [Mlfq]: which process they choose, how they rotate the
    queue they take it from, and that no RUNNABLE process is left out of the
    queues when the lock is released. *)

From S2P Require Import Prelude Spinlock Proctab Mlfq Proc Scheduler.

(** ** Process tables that differ in [cur_time] only

    [push] resets the time slice of the process it queues; nothing else of the
    table changes. *)
Definition no_cur (k : proc) : proc := k <| cur_time := 0 |>.
Definition same_but_cur (ps ps' : list proc) : Prop := no_cur <$> ps = no_cur <$> ps'.

#[export] Instance same_but_cur_equiv : Equivalence same_but_cur.
Proof. split; unfold same_but_cur; [done|by intros ? ?|by intros ? ? ? -> ->]. Qed.

Lemma no_cur_fields k k' : no_cur k = no_cur k' ->
  state k = state k' /\ pid k = pid k' /\ num_run k = num_run k' /\
  queueNo k = queueNo k' /\ run_time k = run_time k'.
Proof.
  intros H. split_and!; [exact (f_equal state H)|exact (f_equal pid H)|exact (f_equal num_run H)
                        |exact (f_equal queueNo H)|exact (f_equal run_time H)].
Qed.

Lemma same_but_cur_alter p ps :
  same_but_cur ps (alter (fun k => k <| cur_time := 0 |>) p ps).
Proof.
  unfold same_but_cur. apply list_eq. intros i. rewrite !list_lookup_fmap.
  destruct (decide (i = p)) as [->|Hne].
  - rewrite list_lookup_alter_eq. by destruct (ps !! p).
  - by rewrite list_lookup_alter_ne.
Qed.

Lemma same_but_cur_length ps ps' : same_but_cur ps ps' -> length ps = length ps'.
Proof. intros H%(f_equal length). by rewrite !length_fmap in H. Qed.

Lemma same_but_cur_lookup ps ps' p k :
  same_but_cur ps ps' -> ps !! p = Some k -> exists k', ps' !! p = Some k' /\ no_cur k = no_cur k'.
Proof.
  intros H Hk. apply (f_equal (fun l => l !! p)) in H. rewrite !list_lookup_fmap, Hk in H.
  destruct (ps' !! p) as [k'|]; [|done]. cbn in H. exists k'. split; congruence.
Qed.

#[export] Instance runnable_at_proper : Proper (same_but_cur ==> eq ==> eq) runnable_at.
Proof.
  intros ps ps' H p ? <-. unfold runnable_at. destruct (ps !! p) as [k|] eqn:Hk.
  - destruct (same_but_cur_lookup _ _ _ _ H Hk) as (k' & -> & Hn).
    unfold is_runnable, stateb. by injection Hn as _ _ _ -> _.
  - destruct (ps' !! p) as [k'|] eqn:Hk'; [|done].
    symmetry in H. destruct (same_but_cur_lookup _ _ _ _ H Hk') as (? & ? & _). congruence.
Qed.

(** A push of a process that is in no queue. *)
Lemma push_new s ls i p :
  mlfq_abs (mq s) ls -> queues_ok ls -> length (procs s) = 64%nat ->
  (i < NQUEUE)%nat -> (p < 64)%nat -> p ∉ concat ls ->
  exists s', push (Z.of_nat i) p s = Ret tt s' /\
    mlfq_abs (mq s') (alter (fun l => l ++ [p]) i ls) /\
    queues_ok (alter (fun l => l ++ [p]) i ls) /\
    same_but_cur (procs s) (procs s') /\ s' = s <| mq := mq s' |> <| procs := procs s' |>.
Proof.
  intros Hq Hok Hlen Hi Hp Hin.
  destruct (push_abs s ls i p Hq Hi ltac:(lia)) as (q' & Hrun & Habs & _).
  pose proof (queues_ok_push ls i p Hok Hi Hp) as Hok'. unfold spec_push in *.
  rewrite (queues_ok_not_full ls i p Hok Hp Hin) in *. eexists. split; [exact Hrun|].
  split_and!; try done. apply same_but_cur_alter.
Qed.

(** ** One queue *)

Lemma mlfq_while_pop fuel i cursz f p s n q s1 k :
  aget (qsz (mq s)) i = Some n -> cursz < n -> pop i s = Ret (Some q) s1 ->
  procs s1 !! q = Some k ->
  mlfq_while (S fuel) i cursz f p s =
  if is_runnable k then Ret (1, Some q) s1
  else (push i q;; mlfq_while fuel i (cursz + 1) f (Some q)) s1.
Proof.
  intros Hn Hlt Hpop Hk. cbn [mlfq_while]. msimp. rewrite Hn, Z.gtb_ltb.
  replace (cursz <? n) with true by lia. rewrite Hpop. unfold get_proc. rewrite Hk. by destruct (is_runnable k).
Qed.

(** The queue being scanned, split into the processes still to be looked at and
    those already moved to the back. *)
Lemma mlfq_while_loop i f p fuel todo back ls s :
  mlfq_abs (mq s) ls -> queues_ok ls -> length (procs s) = 64%nat ->
  ls !! i = Some (todo ++ back) -> (length todo < fuel)%nat ->
  exists s', same_but_cur (procs s) (procs s') /\
    s' = s <| mq := mq s' |> <| procs := procs s' |> /\
    match findi (runnable_at (procs s)) todo with
    | Some j => exists q,
        todo !! j = Some q /\
        mlfq_while fuel (Z.of_nat i) (Z.of_nat (length back)) f p s = Ret (1, Some q) s' /\
        mlfq_abs (mq s') (<[i := drop (S j) todo ++ back ++ take j todo]> ls)
    | None => exists p',
        mlfq_while fuel (Z.of_nat i) (Z.of_nat (length back)) f p s = Ret (f, p') s' /\
        mlfq_abs (mq s') (<[i := back ++ todo]> ls)
    end.
Proof.
  revert fuel p back ls s.
  induction todo as [|q todo IH]; intros [|fuel] p back ls s Hq Hok Hlen Hl Hf; try (cbn in Hf; lia).
  { exists s. split_and!; [done|by destruct s|]. cbn [findi]. exists p.
    cbn [mlfq_while]. msimp. rewrite (qsz_abs _ _ _ _ Hq Hl). cbn [app] in *.
    rewrite Z.gtb_ltb. replace (_ <? _) with false by lia.
    by rewrite app_nil_r, list_insert_id. }
  cbn [app] in Hl. destruct (pop_abs s ls i q _ Hq Hl) as (q1 & Hpop & Hq1 & _).
  destruct (queues_ok_tail _ _ _ _ Hok Hl) as (Hok1 & Hnin & Hq64).
  assert (Hi : (i < length ls)%nat) by (by eapply lookup_lt_Some).
  destruct (lookup_lt_is_Some_2 (procs s) q ltac:(lia)) as [kq Hkq].
  erewrite mlfq_while_pop; [|exact (qsz_abs _ _ _ _ Hq Hl)|cbn [length]; rewrite length_app; lia
                            |exact Hpop|exact Hkq].
  cbn [findi]. replace (runnable_at (procs s) q) with (is_runnable kq) by (unfold runnable_at; by rewrite Hkq).
  destruct (is_runnable kq).
  { exists (s <| mq := q1 |>). split_and!; [done|done|]. exists q. split_and!; try done.
    cbn [take drop]. by rewrite app_nil_r, drop_0. }
  destruct (push_new (s <| mq := q1 |>) (<[i := todo ++ back]> ls) i q)
    as (s2 & Hpush & Hq2 & Hok2 & Hsame & Hs2); try done; [by rewrite <- (proj1 Hok)|].
  rewrite (bind_ret _ _ _ _ _ Hpush).
  rewrite (list_alter_insert _ _ _ (todo ++ back)), list_insert_insert_eq, <- app_assoc in Hq2, Hok2
    by (by apply list_lookup_insert_eq).
  destruct (IH fuel (Some q) (back ++ [q]) _ s2 Hq2 Hok2) as (s' & Hsame' & Hs' & Hres);
    [by rewrite <- (same_but_cur_length _ _ Hsame)|by apply list_lookup_insert_eq|cbn in Hf; lia|].
  rewrite length_app, Nat2Z.inj_add in Hres. cbn [length] in Hres.
  exists s'. cbn in Hsame. split_and!; [by etransitivity|by rewrite Hs', Hs2|].
  rewrite (findi_ext _ (runnable_at (procs s))) in Hres by (intros x; by rewrite Hsame).
  destruct (findi _ todo) as [j|]; cbn [fmap option_fmap option_map].
  - destruct Hres as (q0 & Hj & Hrun & Hq'). rewrite list_insert_insert_eq, <- app_assoc in Hq'.
    exists q0. by split_and!.
  - destruct Hres as (p' & Hrun & Hq'). rewrite list_insert_insert_eq, <- app_assoc in Hq'.
    by exists p'.
Qed.

(** A queue holds at most 64 processes, so 65 iterations are enough. *)
Lemma queue_bounded ls i l : queues_ok ls -> ls !! i = Some l -> (length l <= 64)%nat.
Proof.
  intros (_ & Hnd & Hall) Hl. pose proof (NoDup_bounded_length 64 _ Hnd Hall) as H.
  rewrite (concat_split _ _ _ Hl), !length_app in H. lia.
Qed.

Lemma existsb_findi {A} (f : A -> bool) l :
  existsb f l = match findi f l with Some _ => true | None => false end.
Proof.
  induction l as [|x l IH]; [done|]. cbn. rewrite IH. by destruct (f x), (findi f l).
Qed.

Lemma existsb_ext {A} (f g : A -> bool) l : (forall x, f x = g x) -> existsb f l = existsb g l.
Proof. intros H. rewrite !existsb_findi. by rewrite (findi_ext f g). Qed.

(** ** The five queues *)

Lemma mlfq_for_loop n i p ls s :
  mlfq_abs (mq s) ls -> queues_ok ls -> length (procs s) = 64%nat -> (i + n)%nat = length ls ->
  exists s', same_but_cur (procs s) (procs s') /\
    s' = s <| mq := mq s' |> <| procs := procs s' |> /\
    match findi (existsb (runnable_at (procs s))) (drop i ls) with
    | Some d => exists l j q,
        ls !! (i + d)%nat = Some l /\ findi (runnable_at (procs s)) l = Some j /\
        l !! j = Some q /\
        mlfq_for (Z.of_nat <$> seq i n) 0 p s = Ret (1, Some q) s' /\
        mlfq_abs (mq s') (<[(i + d)%nat := drop (S j) l ++ take j l]> ls)
    | None => exists p',
        mlfq_for (Z.of_nat <$> seq i n) 0 p s = Ret (0, p') s' /\ mlfq_abs (mq s') ls
    end.
Proof.
  revert i p s. induction n as [|n IH]; intros i p s Hq Hok Hlen Hi.
  { rewrite drop_ge by lia. cbn. exists s. split_and!; [done|by destruct s|eauto]. }
  destruct (lookup_lt_is_Some_2 ls i ltac:(lia)) as [l Hl].
  rewrite (drop_S _ _ _ Hl). cbn [seq fmap list_fmap findi mlfq_for Z.eqb].
  rewrite (bind_ret _ _ _ _ _ (isEmpty_abs s ls i l Hq Hl)), existsb_findi.
  destruct (mlfq_while_loop i 0 p 65 l [] ls s) as (s1 & Hsame & Hs1 & Hw);
    [done..|by rewrite app_nil_r|pose proof (queue_bounded _ _ _ Hok Hl); lia|].
  case_bool_decide as Hnil; cbn [negb].
  { subst l. cbn [findi] in *.
    destruct (IH (S i) p s Hq Hok Hlen ltac:(lia)) as (s' & ? & ? & Hres). exists s'.
    split_and!; [done..|]. destruct (findi _ (drop (S i) ls)) as [d|]; cbn [fmap option_fmap option_map]; [|done].
    by replace (i + S d)%nat with (S i + d)%nat by lia. }
  destruct (findi (runnable_at (procs s)) l) as [j|] eqn:Hj.
  - destruct Hw as (q & Hlj & Hrun & Hq'). cbn [length] in Hrun.
    rewrite (bind_ret _ _ _ _ _ Hrun). exists s1. split_and!; [done..|].
    exists l, j, q. rewrite Nat.add_0_r. by split_and!.
  - destruct Hw as (p' & Hrun & Hq'). cbn [length app] in Hrun, Hq'.
    rewrite list_insert_id in Hq' by done. rewrite (bind_ret _ _ _ _ _ Hrun). cbn [Z.eqb].
    destruct (IH (S i) p' s1 Hq' Hok) as (s' & Hsame' & Hs' & Hres);
      [by rewrite <- (same_but_cur_length _ _ Hsame)|lia|].
    exists s'. split_and!; [by etransitivity|by rewrite Hs', Hs1|].
    rewrite (findi_ext _ (existsb (runnable_at (procs s)))) in Hres.
    2: { intros x. apply existsb_ext. intros y. by rewrite Hsame. }
    destruct (findi _ (drop (S i) ls)) as [d|]; cbn [fmap option_fmap option_map]; [|done].
    replace (i + S d)%nat with (S i + d)%nat by lia.
    destruct Hres as (l' & j & q & ? & Hfj & ? & ? & ?). exists l', j, q.
    rewrite (findi_ext _ (runnable_at (procs s))) in Hfj by (intros y; by rewrite Hsame).
    by split_and!.
Qed.

(** ** Refilling queue 0 *)

(** A process that the refill loop wants in a queue. *)
Definition wants_queue (ps : list proc) (p : nat) : bool :=
  match ps !! p with
  | Some k => negb ((pid k =? 0) || negb (is_runnable k))
  | None => false
  end.

#[export] Instance wants_queue_proper : Proper (same_but_cur ==> eq ==> eq) wants_queue.
Proof.
  intros ps ps' H p ? <-. unfold wants_queue. destruct (ps !! p) as [k|] eqn:Hk.
  - destruct (same_but_cur_lookup _ _ _ _ H Hk) as (k' & -> & Hn).
    unfold is_runnable, stateb. by injection Hn as _ _ _ -> ->.
  - destruct (ps' !! p) as [k'|] eqn:Hk'; [|done].
    symmetry in H. destruct (same_but_cur_lookup _ _ _ _ H Hk') as (? & ? & _). congruence.
Qed.

(** The RUNNABLE processes that are in no queue, in table order. *)
Definition missing (ps : list proc) (ls : list (list nat)) (n : nat) : list nat :=
  filter (fun p => wants_queue ps p = true /\ p ∉ concat ls) (seq 0 n).

Lemma missing_S ps ls n :
  missing ps ls (S n) =
  missing ps ls n ++ (if wants_queue ps n && bool_decide (n ∉ concat ls) then [n] else []).
Proof.
  unfold missing. rewrite seq_S, filter_app. cbn [Nat.add]. f_equal.
  destruct (wants_queue ps n) eqn:Hw; cbn [andb].
  - case_bool_decide; [by rewrite filter_cons_True|]. rewrite filter_cons_False; [done|tauto].
  - rewrite filter_cons_False; [done|]. intros [? _]. congruence.
Qed.

Lemma elem_of_missing ps ls n p :
  p ∈ missing ps ls n <-> wants_queue ps p = true /\ p ∉ concat ls /\ (p < n)%nat.
Proof. unfold missing. rewrite list_elem_of_filter, elem_of_seq. intuition lia. Qed.

Lemma elem_of_concat_alter (ls : list (list nat)) i m p :
  (i < length ls)%nat -> p ∈ concat (alter (fun l => l ++ m) i ls) <-> p ∈ concat ls \/ p ∈ m.
Proof.
  intros [l Hl]%lookup_lt_is_Some_2.
  rewrite (concat_alter _ _ _ _ Hl), (concat_split _ _ _ Hl). set_solver.
Qed.

Lemma alter_app_app (ls : list (list nat)) i a b :
  alter (fun l => l ++ b) i (alter (fun l => l ++ a) i ls) = alter (fun l => l ++ a ++ b) i ls.
Proof.
  apply list_eq. intros j. destruct (decide (i = j)) as [<-|].
  - rewrite !list_lookup_alter_eq. destruct (ls !! i); [|done]. cbn. by rewrite app_assoc.
  - by rewrite !list_lookup_alter_ne.
Qed.

Lemma refill_one_spec n ls s :
  mlfq_abs (mq s) ls -> queues_ok ls -> length (procs s) = 64%nat -> (n < 64)%nat ->
  let ls' := alter (fun l => l ++ (if wants_queue (procs s) n && bool_decide (n ∉ concat ls)
                                   then [n] else [])) 0%nat ls in
  exists s', refill_one n s = Ret tt s' /\
    same_but_cur (procs s) (procs s') /\ s' = s <| mq := mq s' |> <| procs := procs s' |> /\
    mlfq_abs (mq s') ls' /\ queues_ok ls'.
Proof.
  intros Hq Hok Hlen Hn. cbn zeta.
  destruct (lookup_lt_is_Some_2 (procs s) n ltac:(lia)) as [kn Hkn].
  unfold refill_one. rewrite (bind_ret _ _ _ _ _ (get_proc_ok _ _ _ Hkn)).
  unfold wants_queue. rewrite Hkn.
  assert (Hid : mlfq_abs (mq s) (alter (fun l => l ++ []) 0%nat ls) /\
                queues_ok (alter (fun l => l ++ []) 0%nat ls)).
  { by rewrite list_alter_id by (intros; by rewrite app_nil_r). }
  destruct ((pid kn =? 0) || negb (is_runnable kn)); cbn [negb andb].
  { exists s. split_and!; try tauto; [done|by destruct s]. }
  case_bool_decide as Hin.
  - destruct (push_new s ls 0 n) as (s' & Hp & ? & ? & ? & ?); [done..|unfold NQUEUE; lia|lia|done|].
    exists s'. by split_and!.
  - destruct (push_abs s ls 0 n) as (q' & Hp & Hq' & _); [done|unfold NQUEUE; lia|lia|].
    unfold spec_push, spec_enqueues in *. rewrite (bool_decide_eq_false_2 (n ∉ concat ls) (fun H => H Hin)) in Hp, Hq'.
    cbn [andb] in Hp, Hq'. rewrite list_alter_id by (intros; by rewrite app_nil_r).
    eexists. split; [exact Hp|]. unfold pushed. by split_and!.
Qed.

Lemma refill_loop n ls s :
  mlfq_abs (mq s) ls -> queues_ok ls -> length (procs s) = 64%nat -> (n <= 64)%nat ->
  let ls' := alter (fun l => l ++ missing (procs s) ls n) 0%nat ls in
  exists s', for_each (seq 0 n) refill_one s = Ret tt s' /\
    same_but_cur (procs s) (procs s') /\ s' = s <| mq := mq s' |> <| procs := procs s' |> /\
    mlfq_abs (mq s') ls' /\ queues_ok ls'.
Proof.
  intros Hq Hok Hlen. cbn zeta. induction n as [|n IH]; intros Hn.
  { exists s. cbn. rewrite list_alter_id by (intros; by rewrite app_nil_r).
    split_and!; try done. by destruct s. }
  destruct (IH ltac:(lia)) as (s1 & Hrun & Hsame & Hs1 & Hq1 & Hok1).
  rewrite seq_S, for_each_app, (bind_ret _ _ _ _ _ Hrun), missing_S. cbn [for_each Nat.add].
  pose proof (same_but_cur_length _ _ Hsame) as Hlen1.
  destruct (refill_one_spec n _ s1 Hq1 Hok1) as (s2 & Hone & Hsame2 & Hs2 & Hq2 & Hok2); [lia|lia|].
  rewrite (bind_ret _ _ _ _ _ Hone). exists s2.
  assert (E : bool_decide (n ∉ concat (alter (λ l, l ++ missing (procs s) ls n) 0%nat ls))
              = bool_decide (n ∉ concat ls)).
  { apply bool_decide_ext. rewrite elem_of_concat_alter by (destruct Hok as [-> _]; unfold NQUEUE; lia).
    rewrite elem_of_missing. intuition lia. }
  assert (Ew : wants_queue (procs s1) n = wants_queue (procs s) n) by (by rewrite Hsame).
  rewrite E, Ew in Hq2, Hok2. rewrite alter_app_app in Hq2, Hok2.
  split_and!; [done|by etransitivity|by rewrite Hs2, Hs1|done|done].
Qed.

(** ** The legs of the MLFQ scheduler *)

Lemma findi_split {A} (f : A -> bool) l j x :
  findi f l = Some j -> l !! j = Some x ->
  l = take j l ++ x :: drop (S j) l /\ f x = true /\ Forall (fun y => f y = false) (take j l).
Proof.
  intros [(y & Hy & Hf) Hlt]%findi_Some Hx. simplify_eq. split_and!; [|done|].
  - by rewrite take_drop_middle.
  - apply Forall_forall. intros z (m & Hm)%list_elem_of_lookup.
    apply lookup_take_Some in Hm as [Hm Hj]. by eapply Hlt.
Qed.

(** The process that starts to run, as the process table shows it at [swtch]. *)
Definition started_from (k k' : proc) : Prop :=
  state k' = RUNNING /\ wait_time k' = 0 /\ num_run k' = s32 (num_run k + 1) /\
  pid k' = pid k /\ queueNo k' = queueNo k /\ run_time k' = run_time k.

Section MlfqLegs.
Context {E : Type} `{!Services E} `{!SwitchOk E}.
Hypothesis switchuvm_returns : forall p (k : kern E), exists k', switchuvm p k = Ret tt k'.

Lemma dispatch_returns c p (k : kern E) :
  is_Some (procs (ps k) !! p) ->
  exists k', dispatch c p k = Ret tt k' /\ ps k' = dispatched c p (ps k).
Proof.
  intros [kp Hp].
  destruct (switchuvm_returns p (k <| ps ::= fun s =>
    s <| cpus ::= upd_cpu c (fun k => k <| cproc := Some p |>) |> |>)) as [k1 H1].
  assert (H : exists k', dispatch c p k = Ret tt k').
  { pose proof (switchuvm_ps _ _ _ _ H1) as Hps. eexists. unfold dispatch, set_cproc.
    erewrite (bind_ret (lift _) _ k) by reflexivity. rewrite (bind_ret _ _ _ _ _ H1).
    apply lift_ret, (upd_proc_ok _ _ _ kp). by rewrite Hps. }
  destruct H as [k' H]. exists k'. split; [done|by apply dispatch_ps].
Qed.

(** Once a process has been chosen. *)
Lemma mlfq_start c q (k : kern E) kq :
  procs (ps k) !! q = Some kq -> is_runnable kq = true ->
  exists k' kq',
    mlfq_finish c 1 (Some q) k = Ret (SwitchTo q) k' /\
    procs (ps k') !! q = Some kq' /\ started_from kq kq' /\ mq (ps k') = mq (ps k).
Proof.
  intros Hq Hr.
  set (s1 := (ps k) <| procs ::= alter (fun k => k <| wait_time := 0 |>
                                                 <| num_run ::= fun n => s32 (n + 1) |>) q |>).
  destruct (dispatch_returns c q (k <| ps := s1 |>)) as (k' & Hd & Hk').
  { cbn. by rewrite list_lookup_alter_eq, Hq. }
  exists k'. eexists. split_and!.
  - unfold mlfq_finish. cbn [Z.eqb]. rewrite (bind_ret _ _ k (Some q) k).
    2: { unfold lift. msimp. unfold get_proc. rewrite Hq. msimp. rewrite Hr. by destruct k. }
    rewrite (bind_ret _ _ k tt (k <| ps := s1 |>)).
    2: { unfold lift, mlfq_account. msimp. by rewrite (upd_proc_ok _ _ _ _ Hq). }
    by rewrite (bind_ret _ _ _ _ _ Hd).
  - rewrite Hk'. cbn. by rewrite !list_lookup_alter_eq, Hq.
  - by split_and!.
  - by rewrite Hk'.
Qed.

Lemma mlfq_refill_release c p ls (k : kern E) :
  has_lock c (ps k) -> mlfq_abs (mq (ps k)) ls -> queues_ok ls ->
  length (procs (ps k)) = 64%nat ->
  exists k', mlfq_finish c 0 p k = Ret (Again 0 p) k' /\
    same_but_cur (procs (ps k)) (procs (ps k')) /\
    ps k' = unlockd c ((ps k) <| mq := mq (ps k') |> <| procs := procs (ps k') |>) /\
    let ls' := alter (fun l => l ++ missing (procs (ps k)) ls 64) 0%nat ls in
    mlfq_abs (mq (ps k')) ls' /\ queues_ok ls'.
Proof.
  intros Hl Hq Hok Hlen.
  destruct (refill_loop 64 ls (ps k) Hq Hok Hlen ltac:(lia)) as (s1 & Hrun & Hsame & Hs1 & Hq1 & Hok1).
  exists (k <| ps := unlockd c s1 |>). split_and!; try done.
  2: { change (unlockd c s1 = unlockd c ((ps k) <| mq := mq s1 |> <| procs := procs s1 |>)).
       by rewrite <- Hs1. }
  unfold mlfq_finish. cbn [Z.eqb]. rewrite (bind_ret _ _ k None k) by done.
  rewrite (bind_ret _ _ k tt (k <| ps := s1 |>)).
  2: { apply lift_ret. unfold refill. msimp. by rewrite Hlen. }
  rewrite (bind_ret _ _ _ tt (k <| ps := unlockd c s1 |>)); [done|].
  apply lift_at, release_pt_ok. by rewrite Hs1.
Qed.

(** The leg when no queue has a RUNNABLE process. *)
Lemma mlfq_leg_none c p ls (k : kern E) :
  idle_cpu c (ps k) -> mlfq_abs (mq (ps k)) ls -> queues_ok ls ->
  length (procs (ps k)) = 64%nat ->
  findi (existsb (runnable_at (procs (ps k)))) ls = None ->
  exists p' k', sched_top MLFQ c 0 p k = Ret (Again 0 p') k' /\
    same_but_cur (procs (ps k)) (procs (ps k')) /\
    ps k' = unlockd c ((choosing c (ps k)) <| mq := mq (ps k') |> <| procs := procs (ps k') |>) /\
    let ls' := alter (fun l => l ++ missing (procs (ps k)) ls 64) 0%nat ls in
    mlfq_abs (mq (ps k')) ls' /\ queues_ok ls'.
Proof.
  intros Hidle Hq Hok Hlen Hnone. pose proof (choosing_has_lock c (ps k) Hidle) as Hl.
  destruct (mlfq_for_loop 5 0 p ls (choosing c (ps k)) Hq Hok Hlen) as (s1 & Hsame & Hs1 & Hfor);
    [by destruct Hok as [-> _]|].
  rewrite drop_0, choosing_procs in Hfor. rewrite choosing_procs in Hsame. rewrite Hnone in Hfor.
  destruct Hfor as (p' & Hrun & Hq1).
  destruct (mlfq_refill_release c p' ls (k <| ps := s1 |>)) as (k' & Hfin & Hsame' & Hps & Hq2);
    [by rewrite Hs1|done|done|by rewrite <- Hlen; symmetry; apply same_but_cur_length|].
  exists p', k'. split; [|split_and!].
  - rewrite sched_top_choosing by done.
    rewrite (bind_ret _ _ _ (0, p') (k <| ps := s1 |>)); [exact Hfin|]. by apply lift_at.
  - change (procs (ps (k <| ps := s1 |>))) with (procs s1) in *. by etransitivity.
  - rewrite Hps at 1. change (ps (k <| ps := s1 |>)) with s1. by rewrite Hs1.
  - change (procs (ps (k <| ps := s1 |>))) with (procs s1) in *.
    replace (missing (procs (ps k)) ls 64) with (missing (procs s1) ls 64); [done|].
    unfold missing. apply list_filter_iff. intros x. by rewrite Hsame.
Qed.

(** The leg when queue [i] is the first one with a RUNNABLE process. *)
Lemma mlfq_leg_some c p ls (k : kern E) i :
  idle_cpu c (ps k) -> mlfq_abs (mq (ps k)) ls -> queues_ok ls ->
  length (procs (ps k)) = 64%nat ->
  findi (existsb (runnable_at (procs (ps k)))) ls = Some i ->
  exists pre q post k' kq kq',
    sched_top MLFQ c 0 p k = Ret (SwitchTo q) k' /\
    ls !! i = Some (pre ++ q :: post) /\
    Forall (fun y => runnable_at (procs (ps k)) y = false) pre /\
    procs (ps k) !! q = Some kq /\ is_runnable kq = true /\
    procs (ps k') !! q = Some kq' /\ started_from kq kq' /\
    mlfq_abs (mq (ps k')) (<[i := post ++ pre]> ls).
Proof.
  intros Hidle Hq Hok Hlen Hfind.
  destruct (mlfq_for_loop 5 0 p ls (choosing c (ps k)) Hq Hok Hlen) as (s1 & Hsame & Hs1 & Hfor);
    [by destruct Hok as [-> _]|].
  rewrite drop_0, choosing_procs in Hfor. rewrite choosing_procs in Hsame. rewrite Hfind in Hfor.
  destruct Hfor as (l & j & q & Hi & Hj & Hlj & Hrun & Hq1).
  destruct (findi_split _ _ _ _ Hj Hlj) as (Hsplit & Hrq & Hpre).
  unfold runnable_at in Hrq. destruct (procs (ps k) !! q) as [kq|] eqn:Hkq; [|done].
  destruct (same_but_cur_lookup _ _ _ _ Hsame Hkq) as (k1 & Hk1 & Hno).
  destruct (mlfq_start c q (k <| ps := s1 |>) k1) as (k' & kq' & Hfin & Hkq' & Hst & Hmq); [done|..].
  { unfold is_runnable, stateb in *. apply no_cur_fields in Hno as [<- _]. done. }
  assert (Htop : sched_top MLFQ c 0 p k = Ret (SwitchTo q) k').
  { rewrite sched_top_choosing by done.
    rewrite (bind_ret _ _ _ (1, Some q) (k <| ps := s1 |>)); [exact Hfin|]. by apply lift_at. }
  assert (Hst' : started_from kq kq').
  { apply no_cur_fields in Hno as (_ & Hp & Hn & Hqn & Hrt). unfold started_from in *.
    by rewrite Hp, Hn, Hqn, Hrt. }
  exists (take j l), q, (drop (S j) l), k', kq, kq'. rewrite <- Hsplit, Hmq.
  exact (conj Htop (conj Hi (conj Hpre (conj Hkq (conj Hrq (conj Hkq' (conj Hst' Hq1))))))).
Qed.

(** C19. MLFQ runs the first RUNNABLE process of the lowest-numbered queue that has
    one.  From every state whose queues hold each process at most once, a leg
    from the head of the loop ends, without running out of queue entries: if
    queue [i] is the first one with a RUNNABLE process, the first such process
    [q] of it is taken out and started, and the processes before it, which are
    not RUNNABLE, move to the back in order; if no queue has one, every RUNNABLE
    process with a pid that is in no queue is appended to queue 0 in table order
    and the lock is released. *)
Theorem mlfq_leg c p ls (k : kern E) :
  idle_cpu c (ps k) -> mlfq_abs (mq (ps k)) ls -> queues_ok ls ->
  length (procs (ps k)) = 64%nat ->
  exists r k', sched_top MLFQ c 0 p k = Ret r k' /\
    match findi (existsb (runnable_at (procs (ps k)))) ls with
    | Some i => exists pre q post kq kq',
        ls !! i = Some (pre ++ q :: post) /\
        Forall (fun y => runnable_at (procs (ps k)) y = false) pre /\
        procs (ps k) !! q = Some kq /\ is_runnable kq = true /\ r = SwitchTo q /\
        procs (ps k') !! q = Some kq' /\ started_from kq kq' /\
        mlfq_abs (mq (ps k')) (<[i := post ++ pre]> ls)
    | None => exists p',
        r = Again 0 p' /\ same_but_cur (procs (ps k)) (procs (ps k')) /\
        ptlock (ps k') = initlock /\
        mlfq_abs (mq (ps k')) (alter (fun l => l ++ missing (procs (ps k)) ls 64) 0%nat ls)
    end.
Proof.
  intros Hidle Hq Hok Hlen.
  destruct (findi (existsb (runnable_at (procs (ps k)))) ls) as [i|] eqn:Hfind.
  - destruct (mlfq_leg_some c p ls k i Hidle Hq Hok Hlen Hfind)
      as (pre & q & post & k' & kq & kq' & Htop & Hi & Hpre & Hkq & Hrq & Hkq' & Hst & Hq').
    exists (SwitchTo q), k'. split; [done|]. exists pre, q, post, kq, kq'.
    exact (conj Hi (conj Hpre (conj Hkq (conj Hrq (conj eq_refl (conj Hkq' (conj Hst Hq'))))))).
  - destruct (mlfq_leg_none c p ls k Hidle Hq Hok Hlen Hfind) as (p' & k' & Htop & Hsame' & Hps & Hq' & _).
    exists (Again 0 p'), k'. split; [done|]. exists p'. split_and!; try done. by rewrite Hps.
Qed.

(** Releasing the lock takes the CPU back to where it was. *)
Lemma idle_again c s q pr :
  idle_cpu c s -> idle_cpu c (unlockd c ((choosing c s) <| mq := q |> <| procs := pr |>)).
Proof.
  intros (Hids & Hl & k & Hk & Hn). unfold idle_cpu, unlockd, choosing, lockd, sti_ps. cbn.
  pose proof (lookup_lt_Some _ _ _ Hk) as Hlt. unfold upd_cpu.
  rewrite (list_alter_insert _ _ _ _ Hk).
  rewrite (list_alter_insert push_cpu _ _ _ (list_lookup_insert_eq _ _ _ Hlt)).
  rewrite list_insert_insert_eq.
  rewrite (list_alter_insert pop_cpu _ _ _ (list_lookup_insert_eq _ _ _ Hlt)).
  rewrite list_insert_insert_eq. split_and!; [by eapply ids_ok_insert|done|].
  eexists. split; [by apply list_lookup_insert_eq|]. cbn. by rewrite Hn.
Qed.

(** MLFQ leaves no RUNNABLE process out: when a leg finds nothing to run in the
    queues although some process with a pid is RUNNABLE, the next leg starts
    one. *)
Theorem mlfq_work_conserving c p ls (k : kern E) f1 p1 k1 q :
  idle_cpu c (ps k) -> mlfq_abs (mq (ps k)) ls -> queues_ok ls ->
  length (procs (ps k)) = 64%nat -> wants_queue (procs (ps k)) q = true ->
  sched_top MLFQ c 0 p k = Ret (Again f1 p1) k1 ->
  exists q' k2, sched_top MLFQ c f1 p1 k1 = Ret (SwitchTo q') k2.
Proof.
  intros Hidle Hq Hok Hlen Hw Htop.
  destruct (findi (existsb (runnable_at (procs (ps k)))) ls) as [i|] eqn:Hnone.
  { destruct (mlfq_leg_some c p ls k i) as (? & ? & ? & ? & ? & ? & H & _); try done. congruence. }
  destruct (mlfq_leg_none c p ls k Hidle Hq Hok Hlen Hnone) as (p' & k' & Htop' & Hsame & Hps & Hq1 & Hok1).
  rewrite Htop' in Htop. simplify_eq.
  set (ls' := alter _ 0%nat ls) in *.
  assert (Hin : q ∈ concat ls').
  { unfold ls'. rewrite elem_of_concat_alter by (destruct Hok as [-> _]; unfold NQUEUE; lia).
    destruct (decide (q ∈ concat ls)); [by left|right]. apply elem_of_missing. split_and!; try done.
    unfold wants_queue in Hw. destruct (procs (ps k) !! q) eqn:Hk; [|done].
    apply lookup_lt_Some in Hk. lia. }
  assert (Hex : is_Some (findi (existsb (runnable_at (procs (ps k1)))) ls')).
  { apply not_eq_None_Some. rewrite findi_None. intros Hall.
    apply list_elem_of_In, in_concat in Hin as (l & [j Hj]%list_elem_of_In%list_elem_of_lookup & Hql).
    specialize (Hall j l Hj). rewrite existsb_findi in Hall.
    destruct (findi (runnable_at (procs (ps k1))) l) eqn:Hf; [done|].
    rewrite findi_None in Hf. apply list_elem_of_In, list_elem_of_lookup in Hql as [m Hm].
    specialize (Hf m q Hm). rewrite <- Hsame in Hf. unfold runnable_at in Hf.
    unfold wants_queue in Hw. destruct (procs (ps k) !! q); [|done].
    by rewrite Hf, orb_true_r in Hw. }
  destruct Hex as [i Hi].
  destruct (mlfq_leg_some c p1 ls' k1 i) as (? & q' & ? & k2 & ? & ? & H & _); try done.
  - rewrite Hps. by apply idle_again.
  - by rewrite <- Hlen; symmetry; apply same_but_cur_length.
  - by exists q', k2.
Qed.

End MlfqLegs.

(** *** Witnesses: process 0 sleeps in queue 1 before process 1; process 2 is in
    no queue. *)
Definition mlfq_procs : kern Z :=
  Kern (match (push 1 0;; push 1 1) ((ps three_procs) <| procs ::= alter (fun k => k <| state := SLEEPING |>) 0%nat |>)
        with Ret _ s => s | _ => boot_pstate end) 4096.

Lemma mlfq_procs_abs :
  mlfq_abs (mq (ps mlfq_procs)) [[]; [0; 1]; []; []; []]%nat /\ queues_ok [[]; [0; 1]; []; []; []]%nat.
Proof.
  split.
  - split_and!; try done. intros i l Hi.
    destruct i as [|[|[|[|[|i]]]]]; cbn in Hi; simplify_eq; try by repeat eexists.
    exists 0, 1, 2, (Some 0%nat :: Some 1%nat :: replicate 62 None). split_and!; try done.
    unfold ring_abs. split_and!; try done. intros [|[|k]] x Hx; cbn in Hx; by simplify_eq.
  - split_and!; [done| |by repeat constructor; lia]. cbn. apply (bool_decide_unpack _). by vm_compute.
Qed.

Lemma mlfq_procs_idle : idle_cpu 0 (ps mlfq_procs).
Proof. split_and!; [apply NoDup_singleton|done|]. by eexists. Qed.

Lemma bump_switchuvm_returns p (k : kern Z) : exists k', switchuvm p k = Ret tt k'.
Proof. by eexists. Qed.

Lemma mlfq_leg_witness :
  exists r k', sched_top MLFQ 0 0 None mlfq_procs = Ret r k' /\ r = SwitchTo 1 /\
    mlfq_abs (mq (ps k')) [[]; [0]; []; []; []]%nat.
Proof.
  destruct (mlfq_leg bump_switchuvm_returns 0 None _ mlfq_procs mlfq_procs_idle
              (proj1 mlfq_procs_abs) (proj2 mlfq_procs_abs) eq_refl) as (r & k' & Hrun & H).
  exists r, k'. split; [exact Hrun|].
  change (findi _ _) with (Some 1%nat) in H.
  destruct H as (pre & q & post & kq & kq' & Hl & Hpre & Hkq & Hrq & Hr & _ & _ & Habs).
  assert (Hq : pre = [0%nat] /\ q = 1%nat /\ post = []).
  { injection Hl as Hl. destruct pre as [|x [|y pre]]; cbn in Hl; [|by simplify_eq|by destruct pre; simplify_eq].
    injection Hl as <- _.
    vm_compute in Hkq. injection Hkq as <-. discriminate Hrq. }
  destruct Hq as (-> & -> & ->). split; [exact Hr|exact Habs].
Defined.

(** With empty queues the first leg only refills them. *)
Lemma mlfq_work_conserving_witness :
  exists f1 p1 k1 q' k2, sched_top MLFQ 0 0 None three_procs = Ret (Again f1 p1) k1 /\
    sched_top MLFQ 0 f1 p1 k1 = Ret (SwitchTo q') k2.
Proof.
  assert (H : exists k1, sched_top MLFQ 0 0 None three_procs = Ret (Again 0 None) k1)
    by (eexists; vm_compute; reflexivity).
  destruct H as [k1 H].
  destruct (mlfq_work_conserving bump_switchuvm_returns 0 None (replicate 5 []) three_procs
              0 None k1 1 three_procs_idle mlfq_abs_bss queues_ok_init eq_refl eq_refl H) as (q' & k2 & H2).
  exists 0, None, k1, q', k2. split; [exact H|exact H2].
Defined.
