(* ===== verification/ProcSpec.v ===== *)
(** * ProcSpec: what the operations of proc.c do to the process table

    Closed forms of the loops of [exit], [wait], [waitx], [fork] and [kill], and
    the contract between [exit], [wakeup1] and [wait] that makes a parent learn
    of the death of its children. *)

From S2P Require Import Prelude Spinlock Proctab Mlfq Proc.

(** ** wakeup1 *)

Lemma wake_other_fields ch k :
  pid (wake ch k) = pid k /\ parent (wake ch k) = parent k /\ chan (wake ch k) = chan k /\
  killed (wake ch k) = killed k /\ kstack (wake ch k) = kstack k /\ pgdir (wake ch k) = pgdir k.
Proof. unfold wake. by destruct (stateb SLEEPING k && _). Qed.

Lemma wake_state ch k :
  state (wake ch k) = if stateb SLEEPING k && bool_decide (chan k = ch) then RUNNABLE else state k.
Proof. unfold wake. by destruct (stateb SLEEPING k && _). Qed.

Lemma wake_idemp ch k : wake ch (wake ch k) = wake ch k.
Proof.
  unfold wake at 2. destruct (stateb SLEEPING k && _) eqn:E; [|by unfold wake; rewrite E].
  unfold wake. by rewrite E.
Qed.

Lemma wake_zombie ch k : stateb ZOMBIE (wake ch k) = stateb ZOMBIE k.
Proof.
  unfold stateb. rewrite wake_state. destruct (stateb SLEEPING k && _) eqn:E; [|done].
  apply andb_prop in E as [E%bool_decide_eq_true _]. by rewrite E.
Qed.

Lemma wake_parent ch p k : wake ch (k <| parent := p |>) = (wake ch k) <| parent := p |>.
Proof. unfold wake, stateb. cbn. by destruct (bool_decide _ && _). Qed.

(** ** exit *)

(** Does process [p] leave a ZOMBIE child behind among the first [n] entries? *)
Definition zombie_child (p : nat) (k : proc) : bool := is_child p k && stateb ZOMBIE k.

Definition adopt (p : nat) (ini : option nat) (k : proc) : proc :=
  if is_child p k then k <| parent := ini |> else k.

(** The entry [i] after the reparenting loop has done the first [n] ones; [woken]
    says whether it has met a ZOMBIE child. *)
Definition adopted_at (p : nat) (ini : option nat) (n : nat) (woken : bool) (i : nat) (k : proc) : proc :=
  let k' := if bool_decide (i < n)%nat then adopt p ini k else k in
  if woken then wake (ChProc <$> ini) k' else k'.
Definition adopted (p : nat) (ini : option nat) (n : nat) (l : list proc) : list proc :=
  imap (adopted_at p ini n (existsb (zombie_child p) (take n l))) l.

Lemma wake_adopt ch p ini k : wake ch (adopt p ini k) = adopt p ini (wake ch k).
Proof.
  unfold adopt, is_child. destruct (wake_other_fields ch k) as (_ & -> & _).
  by case_bool_decide; [rewrite wake_parent|].
Qed.

Lemma existsb_take_S {A} (f : A -> bool) l n x :
  l !! n = Some x -> existsb f (take (S n) l) = existsb f (take n l) || f x.
Proof. intros H. rewrite (take_S_r _ _ _ H), existsb_app. cbn. by rewrite orb_false_r. Qed.

(** One iteration: entry [n] is given to init, and init is woken for a ZOMBIE. *)
Lemma adopted_S p ini n l k :
  l !! n = Some k ->
  adopted p ini (S n) l =
  (if zombie_child p k then map (wake (ChProc <$> ini)) else id)
    (alter (adopt p ini) n (adopted p ini n l)).
Proof.
  intros Hk. unfold adopted. rewrite (existsb_take_S _ _ _ _ Hk).
  set (w := existsb (zombie_child p) (take n l)). apply list_eq. intros i.
  assert (Hi : imap (adopted_at p ini (S n) (w || zombie_child p k)) l !! i =
    (if zombie_child p k then wake (ChProc <$> ini) else id) <$>
      alter (adopt p ini) n (imap (adopted_at p ini n w) l) !! i).
  { rewrite list_lookup_imap. destruct (decide (n = i)) as [<-|Hne].
    - rewrite list_lookup_alter_eq, list_lookup_imap, Hk. cbn. f_equal. unfold adopted_at.
      rewrite bool_decide_eq_true_2, bool_decide_eq_false_2 by lia.
      destruct w, (zombie_child p k); cbn; rewrite <- ?wake_adopt, ?wake_idemp; done.
    - rewrite list_lookup_alter_ne, list_lookup_imap by done. destruct (l !! i); [|done]. cbn. f_equal.
      unfold adopted_at. replace (bool_decide (i < S n)%nat) with (bool_decide (i < n)%nat)
        by (apply bool_decide_ext; lia).
      destruct w, (zombie_child p k); cbn; rewrite ?wake_idemp; done. }
  rewrite Hi. destruct (zombie_child p k); [by rewrite <- list_lookup_fmap|by apply option_fmap_id].
Qed.

Lemma adopted_0 p ini l : adopted p ini 0 l = l.
Proof.
  apply list_eq. intros i. unfold adopted. rewrite list_lookup_imap. cbn.
  unfold adopted_at. by destruct (l !! i).
Qed.

Lemma alter_adopt p ini (n : nat) (l : list proc) k :
  l !! n = Some k ->
  alter (adopt p ini) n l = if is_child p k then alter (fun k => k <| parent := ini |>) n l else l.
Proof.
  intros Hk. rewrite (list_alter_insert _ _ _ _ Hk). unfold adopt.
  destruct (is_child p k); [by rewrite (list_alter_insert _ _ _ _ Hk)|by apply list_insert_id].
Qed.

Lemma adopted_unvisited p ini (n : nat) (l : list proc) k :
  l !! n = Some k ->
  exists k1, adopted p ini n l !! n = Some k1 /\ is_child p k1 = is_child p k /\
             stateb ZOMBIE k1 = stateb ZOMBIE k.
Proof.
  intros Hk. unfold adopted. rewrite list_lookup_imap, Hk. eexists. split; [done|].
  unfold adopted_at. rewrite bool_decide_eq_false_2 by lia.
  destruct (existsb _ _); [|done]. rewrite wake_zombie. unfold is_child.
  by destruct (wake_other_fields (ChProc <$> ini) k) as (_ & -> & _).
Qed.

Lemma reparent_loop p n s :
  (n <= length (procs s))%nat ->
  for_each (seq 0 n) (reparent p) s = Ret tt (s <| procs ::= adopted p (initproc s) n |>).
Proof.
  induction n as [|n IH]; intros Hn.
  { change (Ret tt s = Ret tt (s <| procs := adopted p (initproc s) 0 (procs s) |>)).
    rewrite adopted_0. by destruct s. }
  rewrite seq_S, for_each_app, (bind_ret _ _ _ _ _ (IH ltac:(lia))). cbn [for_each Nat.add].
  destruct (lookup_lt_is_Some_2 (procs s) n ltac:(lia)) as [k Hk].
  destruct (adopted_unvisited p (initproc s) n _ _ Hk) as (k1 & Hk1 & Hc & Hz).
  set (s1 := s <| procs ::= adopted p (initproc s) n |>).
  assert (Hone : reparent p n s1 = Ret tt (s <| procs ::= adopted p (initproc s) (S n) |>)).
  { unfold reparent. rewrite (bind_ret _ _ _ _ _ (get_proc_ok n s1 _ Hk1)).
    fold (is_child p k1). unfold setf. cbn. rewrite (adopted_S _ _ _ _ _ Hk), (alter_adopt _ _ _ _ _ Hk1).
    unfold zombie_child. rewrite Hc, Hz. unfold upd_proc, wakeup1. msimp.
    destruct (is_child p k); [|done]. cbn. rewrite Hk1. by destruct (stateb ZOMBIE k). }
  by rewrite (bind_ret _ _ _ _ _ Hone).
Qed.

(** The table after the critical section of [exit] by process [p]: its parent is
    woken, its children belong to init, init is woken if one of them is a
    ZOMBIE, and [p] is a ZOMBIE itself. *)
Definition exited (p : nat) (s : pstate) (k : proc) : list proc :=
  alter (fun k => k <| end_time := s32 (ticks s) |> <| state := ZOMBIE |>) p
    (adopted p (initproc s) (length (procs s)) (map (wake (ChProc <$> parent k)) (procs s))).

(** *** sched, when its checks pass *)

Lemma sched_ok c p s kc k :
  has_lock c s -> cpus s !! c = Some kc -> ncli kc = 1 -> cproc kc = Some p ->
  procs s !! p = Some k -> state k <> RUNNING ->
  sched c s = Ret tt (s <| procs ::= alter (fun k => k <| ctx_eip := ResumeSched (intena kc) |>) p |>).
Proof.
  intros Hl Hkc Hn Hp Hk Hst. unfold sched.
  rewrite (bind_ret _ _ _ _ _ (my_proc_locked c s kc Hl Hkc)).
  destruct Hl as (Hids & Hh & kc' & Hkc' & Hok & Hn'). rewrite Hkc in Hkc'. injection Hkc' as <-.
  rewrite (bind_ret _ _ s true s).
  2: { msimp. rewrite (holding_ok _ _ _ _ Hids Hkc Hok), Hh, rest_nested_cpu, list_insert_id by (done || lia).
       by destruct s. }
  cbn [negb]. destruct Hok as [Hb Hif].
  assert (Hmy : zoom cpus (fun cs s => s <| cpus := cs |>) (mycpu c) s = Ret c s).
  { msimp. rewrite (mycpu_ok _ _ _ Hids Hkc) by (apply Hif; lia). by destruct s. }
  assert (Hre : zoom cpus (fun cs s => s <| cpus := cs |>) (readeflags c) s = Ret false s).
  { msimp. unfold readeflags. rewrite Hkc. cbn. rewrite (Hif ltac:(lia)). by destruct s. }
  rewrite (bind_ret _ _ _ _ _ Hmy), (bind_ret (gets _) _ _ s s eq_refl), Hkc.
  rewrite (bind_ret (deref (Some _)) _ _ kc s eq_refl), Hn, Hp. cbn [Z.eqb Pos.eqb negb].
  rewrite (bind_ret (deref (Some _)) _ _ p s eq_refl), (bind_ret _ _ _ _ _ (get_proc_ok _ _ _ Hk)).
  unfold stateb. rewrite bool_decide_eq_false_2 by done.
  rewrite (bind_ret _ _ _ _ _ Hre), (bind_ret _ _ _ _ _ Hmy), (bind_ret (gets _) _ _ s s eq_refl), Hkc.
  rewrite (bind_ret (deref (Some _)) _ _ kc s eq_refl). by apply (upd_proc_ok _ _ _ k).
Qed.

(** What a call of [sched] that reached [swtch] shows. *)
Lemma sched_inv c p s kc k a s' :
  has_lock c s -> cpus s !! c = Some kc -> cproc kc = Some p -> procs s !! p = Some k ->
  sched c s = Ret a s' ->
  ncli kc = 1 /\ state k <> RUNNING /\
  s' = s <| procs ::= alter (fun k => k <| ctx_eip := ResumeSched (intena kc) |>) p |>.
Proof.
  intros Hl Hkc Hp Hk Hrun.
  assert (Hnst : ncli kc = 1 /\ state k <> RUNNING).
  { unfold sched in Hrun. rewrite (bind_ret _ _ _ _ _ (my_proc_locked c s kc Hl Hkc)) in Hrun.
    destruct (Hl) as (Hids & Hh & kc' & Hkc' & Hok & Hn'). rewrite Hkc in Hkc'. injection Hkc' as <-.
    rewrite (bind_ret _ _ s true s) in Hrun.
    2: { msimp. rewrite (holding_ok _ _ _ _ Hids Hkc Hok), Hh, rest_nested_cpu, list_insert_id by (done || lia).
         by destruct s. }
    cbn [negb] in Hrun. destruct Hok as [Hb Hif].
    rewrite (bind_ret _ _ s c s) in Hrun.
    2: { msimp. rewrite (mycpu_ok _ _ _ Hids Hkc) by (apply Hif; lia). by destruct s. }
    rewrite (bind_ret (gets _) _ _ s s eq_refl), Hkc, (bind_ret (deref (Some _)) _ _ kc s eq_refl), Hp in Hrun.
    destruct (Z.eqb_spec (ncli kc) 1) as [Hn|]; [|done]. cbn [negb] in Hrun. split; [done|].
    rewrite (bind_ret (deref (Some _)) _ _ p s eq_refl), (bind_ret _ _ _ _ _ (get_proc_ok _ _ _ Hk)) in Hrun.
    destruct (stateb RUNNING k) eqn:Hs; [done|]. by apply bool_decide_eq_false in Hs. }
  destruct Hnst as [Hn Hst]. split_and!; [done..|].
  rewrite (sched_ok c p s kc k Hl Hkc Hn Hp Hk Hst) in Hrun. by injection Hrun as <- <-.
Qed.

(** Process [p], entry [k], runs on CPU [c], which holds no lock. *)
Definition runs_on (c p : nat) (k : proc) (s : pstate) : Prop :=
  can_lock c s /\ procs s !! p = Some k /\
  exists kc, cpus s !! c = Some kc /\ ncli kc = 0 /\ cproc kc = Some p.

Lemma runs_on_lockd c p k s :
  runs_on c p k s ->
  has_lock c (lockd c s) /\
  exists kc, cpus (lockd c s) !! c = Some kc /\ ncli kc = 1 /\ cproc kc = Some p.
Proof.
  intros (Hl & Hk & kc & Hkc & Hn & Hp). split; [by apply lockd_has_lock|].
  exists (push_cpu kc). cbn. rewrite list_lookup_alter_eq, Hkc. split_and!; try done. cbn. by rewrite Hn.
Qed.

Lemma exited_self p s k :
  procs s !! p = Some k -> exists k', exited p s k !! p = Some k' /\
    state k' = ZOMBIE /\ end_time k' = s32 (ticks s) /\ pid k' = pid k /\ run_time k' = run_time k.
Proof.
  intros Hk. unfold exited. rewrite list_lookup_alter_eq. unfold adopted.
  rewrite list_lookup_imap, list_lookup_fmap, Hk. eexists. split; [done|]. cbn.
  unfold adopted_at, adopt, wake. repeat case_match; done.
Qed.

(** Process [q] sleeps on a channel that [exit] by [p] wakes. *)
Definition exit_wakes (p : nat) (s : pstate) (k kq : proc) : bool :=
  stateb SLEEPING kq &&
  (bool_decide (chan kq = ChProc <$> parent k) ||
   (existsb (zombie_child p) (procs s) && bool_decide (chan kq = ChProc <$> initproc s))).

Lemma zombie_child_wake p ch l : existsb (zombie_child p) (map (wake ch) l) = existsb (zombie_child p) l.
Proof.
  induction l as [|k l IH]; cbn; [done|]. rewrite IH. unfold zombie_child.
  rewrite wake_zombie. unfold is_child. by destruct (wake_other_fields ch k) as (_ & -> & _).
Qed.

(** The other entries, exactly. *)
Definition exit_other (p : nat) (ini : option nat) (woken : bool) (k : proc) : proc :=
  if woken then (adopt p ini k) <| state := RUNNABLE |> else adopt p ini k.

Lemma exited_other_eq p s k q kq :
  q <> p -> procs s !! q = Some kq ->
  exited p s k !! q =
  Some (exit_other p (initproc s) (exit_wakes p s k kq) kq).
Proof.
  intros Hne Hq. pose proof (lookup_lt_Some _ _ _ Hq) as Hlt. unfold exited.
  rewrite list_lookup_alter_ne by done. unfold adopted.
  rewrite list_lookup_imap, list_lookup_fmap, Hq. cbn [fmap option_fmap option_map]. f_equal.
  rewrite take_ge by (by rewrite length_map). rewrite zombie_child_wake.
  unfold adopted_at. rewrite bool_decide_eq_true_2 by done. rewrite <- wake_adopt.
  set (ch1 := ChProc <$> parent k). set (ch2 := ChProc <$> initproc s). unfold exit_other.
  assert (Ha : state (adopt p (initproc s) kq) = state kq /\ chan (adopt p (initproc s) kq) = chan kq).
  { unfold adopt. by destruct (is_child p kq). }
  destruct Ha as [Ha1 Ha2]. unfold exit_wakes. fold ch1 ch2.
  set (a := adopt p (initproc s) kq) in *. unfold stateb. rewrite <- Ha1, <- Ha2. unfold wake, stateb.
  destruct (existsb (zombie_child p) (procs s)); cbn [andb orb]; rewrite ?orb_false_r;
    destruct (bool_decide (state a = SLEEPING)) eqn:Es; cbn [andb orb]; rewrite ?Es; try done;
    destruct (bool_decide (chan a = ch1)); cbn [andb orb]; rewrite ?Es; done.
Qed.

Lemma exited_other p s k q kq :
  q <> p -> procs s !! q = Some kq -> exists kq', exited p s k !! q = Some kq' /\
    parent kq' = (if is_child p kq then initproc s else parent kq) /\
    state kq' = (if exit_wakes p s k kq then RUNNABLE else state kq) /\
    pid kq' = pid kq /\ chan kq' = chan kq /\ killed kq' = killed kq.
Proof.
  intros Hne Hq. rewrite (exited_other_eq p s k q kq Hne Hq). eexists. split; [done|].
  unfold exit_other, adopt. by destruct (exit_wakes p s k kq), (is_child p kq).
Qed.

Lemma exited_length p s k : length (exited p s k) = length (procs s).
Proof. unfold exited, adopted. by rewrite length_alter, length_imap, length_map. Qed.

Lemma exit_locked_sched c p k s :
  can_lock c s -> procs s !! p = Some k ->
  exit_locked c p s = sched c ((lockd c s) <| procs := exited p s k |>).
Proof.
  intros Hcl Hk. unfold exit_locked.
  rewrite (bind_ret _ _ _ _ _ (acquire_pt_ok _ _ Hcl)).
  rewrite (bind_ret _ _ _ _ _ (get_proc_ok p (lockd c s) k Hk)).
  set (s1 := (lockd c s) <| procs ::= map (wake (ChProc <$> parent k)) |>).
  rewrite (bind_ret (wakeup1 _) _ _ tt s1 eq_refl). rewrite (bind_ret (gets (fun s => s)) _ s1 s1 s1 eq_refl).
  assert (Hlen : length (procs s1) = length (procs s)) by apply length_map. rewrite Hlen.
  rewrite (bind_ret _ _ _ _ _ (reparent_loop p (length (procs s)) s1 ltac:(lia))).
  destruct (exited_self p s k Hk) as (k' & Hk' & Hst & _).
  pose proof Hk' as Hup. unfold exited in Hup. rewrite list_lookup_alter_eq in Hup.
  apply fmap_Some in Hup as (k0 & Hup & _).
  set (s2 := s1 <| procs ::= adopted p (initproc s1) (length (procs s)) |>).
  change (procs s2 !! p = Some k0) in Hup.
  by rewrite (bind_ret _ _ _ _ _ (upd_proc_ok p _ s2 k0 Hup)).
Qed.

(** The entry of the process that exits, exactly. *)
Lemma exited_entry p s k :
  procs s !! p = Some k ->
  exited p s k !! p = Some ((adopt p (initproc s) k) <| end_time := s32 (ticks s) |> <| state := ZOMBIE |>).
Proof.
  intros Hk. unfold exited. rewrite list_lookup_alter_eq. unfold adopted.
  rewrite list_lookup_imap, list_lookup_fmap, Hk. cbn [fmap option_fmap option_map]. f_equal.
  unfold adopted_at. rewrite bool_decide_eq_true_2 by (by eapply lookup_lt_Some). rewrite <- wake_adopt.
  assert (Hw : forall ch x, (wake ch x) <| end_time := s32 (ticks s) |> <| state := ZOMBIE |> =
                            x <| end_time := s32 (ticks s) |> <| state := ZOMBIE |>).
  { intros ch x. unfold wake. by destruct (stateb SLEEPING x && bool_decide (chan x = ch)). }
  destruct (existsb _ _); by rewrite !Hw.
Qed.

Lemma exit_locked_ok c p k s :
  runs_on c p k s ->
  exists kc, cpus (lockd c s) !! c = Some kc /\
    exit_locked c p s = Ret tt ((lockd c s) <| procs :=
      alter (fun k => k <| ctx_eip := ResumeSched (intena kc) |>) p (exited p s k) |>).
Proof.
  intros Hr. destruct (runs_on_lockd _ _ _ _ Hr) as (Hl & kc & Hkc & Hn & Hp).
  destruct Hr as (Hcl & Hk & _). exists kc. split; [done|]. rewrite (exit_locked_sched c p k s Hcl Hk).
  destruct (exited_self p s k Hk) as (k' & Hk' & Hst & _).
  rewrite (sched_ok c p _ kc k'); try done. by rewrite Hst.
Qed.

(** A process handed to init if [p] was its parent. *)
Definition orphaned (p : nat) (s : pstate) (k : proc) : proc :=
  k <| parent := if is_child p k then initproc s else parent k |>.

Lemma adopt_orphaned p s k : adopt p (initproc s) k = orphaned p s k.
Proof. unfold adopt, orphaned. destruct (is_child p k); by destruct k. Qed.

(** C22. [exit], from the acquisition of ptable.lock to the switch to the scheduler:
    the process becomes a ZOMBIE with its end time recorded; exactly its
    children are handed to init; exactly the processes that sleep on its parent,
    or on init when a ZOMBIE child is handed over, become RUNNABLE.  The entries
    are given in full, so no other field of any process changes; of the rest of
    the state only the lock and the CPU's record of it change, and the lock stays
    held. *)
Theorem exit_effect c p k s :
  runs_on c p k s ->
  exists s' kc, exit_locked c p s = Ret tt s' /\ has_lock c s' /\
    s' = (lockd c s) <| procs := procs s' |> /\ length (procs s') = length (procs s) /\
    cpus s' !! c = Some kc /\
    procs s' !! p = Some ((orphaned p s k) <| end_time := s32 (ticks s) |> <| state := ZOMBIE |>
                            <| ctx_eip := ResumeSched (intena kc) |>) /\
    forall q kq, q <> p -> procs s !! q = Some kq ->
      procs s' !! q = Some ((orphaned p s kq) <| state := if exit_wakes p s k kq then RUNNABLE else state kq |>).
Proof.
  intros Hr. destruct (exit_locked_ok _ _ _ _ Hr) as (kc & Hkc & Hrun). eexists _, kc. split; [exact Hrun|].
  destruct (runs_on_lockd _ _ _ _ Hr) as (Hl & _). destruct Hr as (_ & Hk & _).
  split_and!; [exact Hl|done|cbn; by rewrite length_alter, exited_length|exact Hkc|..].
  - cbn. by rewrite list_lookup_alter_eq, (exited_entry p s k Hk), <- adopt_orphaned.
  - intros q kq Hne Hq. cbn. rewrite list_lookup_alter_ne, (exited_other_eq p s k q kq Hne Hq) by done.
    f_equal. unfold exit_other. rewrite adopt_orphaned. destruct (exit_wakes p s k kq); by destruct kq.
Qed.

(** Init (entry 0) sleeps in wait, entry 1 runs and exits, entry 2 is its ZOMBIE
    child. *)
Definition exit_state : pstate :=
  boot_pstate <| cpus := [Cpu 0 1 0 false (Some 1%nat) true] |> <| initproc := Some 0%nat |>
    <| ticks := 42 |>
    <| procs ::= fun l =>
      [zero_proc <| state := SLEEPING |> <| pid := 1 |> <| chan := Some (ChProc 0) |>;
       zero_proc <| state := RUNNING |> <| pid := 2 |> <| parent := Some 5%nat |>;
       zero_proc <| state := ZOMBIE |> <| pid := 3 |> <| parent := Some 1%nat |>] ++ drop 3 l |>.

Lemma exit_state_runs :
  runs_on 0 1 (zero_proc <| state := RUNNING |> <| pid := 2 |> <| parent := Some 5%nat |>) exit_state.
Proof.
  split_and!; [|done|by eexists]. split_and!; [apply NoDup_singleton|done|].
  eexists. split; [done|]. unfold cpu_ok. cbn. lia.
Qed.

Lemma exit_effect_witness :
  exists s', exit_locked 0 1 exit_state = Ret tt s' /\
    (state <$> procs s' !! 0%nat) = Some RUNNABLE /\ (state <$> procs s' !! 1%nat) = Some ZOMBIE /\
    (parent <$> procs s' !! 2%nat) = Some (Some 0%nat).
Proof.
  destruct (exit_effect 0 1 _ exit_state exit_state_runs) as (s' & kc & Hrun & _ & _ & _ & _ & Hk & Hq).
  exists s'. split; [exact Hrun|]. rewrite Hk, (Hq 0%nat _ ltac:(lia) eq_refl), (Hq 2%nat _ ltac:(lia) eq_refl).
  by split_and!.
Defined.

(** ** wait and waitx *)

Section Wait.
Context {E : Type} `{!Services E}.

Lemma lift_eq {A} (m : M pstate A) (k : kern E) a s' :
  m (ps k) = Ret a s' -> lift m k = Ret a (k <| ps := s' |>).
Proof. intros H. unfold lift, zoom. by rewrite H. Qed.

Lemma lift_inv {A} (m : M pstate A) (k k' : kern E) a :
  lift m k = Ret a k' -> m (ps k) = Ret a (ps k') /\ k' = k <| ps := ps k' |>.
Proof. unfold lift, zoom. destruct (m (ps k)); try done. by intros [= <- <-]. Qed.

Lemma upd_proc_inv p f s a s' :
  upd_proc p f s = Ret a s' -> exists k, procs s !! p = Some k /\ s' = s <| procs ::= alter f p |>.
Proof. unfold upd_proc. destruct (procs s !! p); [|done]. intros [= <- <-]. eauto. Qed.

(** Whatever the services do, the reaped slot is there when [reap] returns. *)
Lemma reap_slot z (k k' : kern E) r : reap z k = Ret r k' -> exists kz, procs (ps k') !! z = Some kz.
Proof.
  unfold reap. intros H. minv H. injection H as <- <-.
  apply lift_inv in Hrun3 as [(kz & Hz & Hps)%upd_proc_inv _]. rewrite Hps. cbn.
  rewrite list_lookup_alter_eq, Hz. eauto.
Qed.

Lemma waitx_scan_is_wait c p (k : kern E) : wait_scan c p k = (r ← waitx_scan c p; mret (fst r)) k.
Proof.
  unfold wait_scan, waitx_scan. rewrite bind_assoc. apply bind_ext. intros s k4 [= <- <-].
  destruct (findi _ _) as [z|].
  - rewrite bind_assoc. apply bind_ext. intros r k5 Hreap.
    destruct (reap_slot _ _ _ _ Hreap) as [kz Hz]. rewrite bind_assoc.
    rewrite (bind_ret (lift (get_proc z)) _ _ kz k5).
    2: { rewrite (lift_eq _ _ _ _ (get_proc_ok _ _ _ Hz)). by destruct k5. }
    rewrite bind_assoc. by apply bind_ext.
  - rewrite bind_assoc. unfold mbind at 1, M_bind at 1. by destruct (wait_none c p k).
Qed.

(** [waitx] is [wait]: it returns the same and leaves the same state; it only
    reports two numbers more. *)
Theorem waitx_is_wait c (k : kern E) :
  wait c k = (r ← waitx c; mret (fst r)) k.
Proof.
  unfold wait, waitx. rewrite bind_assoc. apply bind_ext. intros mp k1 _.
  rewrite bind_assoc. apply bind_ext. intros p k2 _. rewrite bind_assoc. apply bind_ext. intros _ k3 _.
  apply waitx_scan_is_wait.
Qed.

(** Giving back a kernel stack and an address space does not touch the process
    table. *)
Class ReapOk : Prop := {
  kfree_ok : forall a (k k' : kern E), kfree a k = Ret tt k' -> ps k' = ps k;
  freevm_ok : forall a (k k' : kern E), freevm a k = Ret tt k' -> ps k' = ps k
}.

(** A slot after [wait] has freed it. *)
Definition freed (k : proc) : proc :=
  k <| kstack := 0 |> <| pid := 0 |> <| parent := None |> <| name ::= <[0%nat := 0]> |>
    <| killed := 0 |> <| state := UNUSED |>.

Lemma reap_inv `{!ReapOk} z (k : kern E) kz r k' :
  procs (ps k) !! z = Some kz -> reap z k = Ret r k' ->
  r = pid kz /\ ps k' = (ps k) <| procs ::= alter freed z |>.
Proof.
  intros Hz Hrun. unfold reap in Hrun.
  rewrite (bind_ret _ _ _ _ _ (lift_eq _ _ _ _ (get_proc_ok _ _ _ Hz))) in Hrun.
  minv Hrun. injection Hrun as <- <-. destruct a, a0, a1, a2.
  apply kfree_ok in Hrun0. cbn in Hrun0. apply freevm_ok in Hrun2.
  apply lift_inv in Hrun1 as [(k1 & Hz1 & Hp1)%upd_proc_inv _].
  apply lift_inv in Hrun3 as [(k2 & Hz2 & Hp2)%upd_proc_inv _].
  split; [done|]. rewrite Hp2, Hrun2, Hp1, Hrun0. by rewrite !procs_alter_alter.
Qed.

(** The service [m], called under ptable.lock by CPU [c] with the state [e] of the
    other components, returns [a] and leaves [e'] and the process table. *)
Definition answers {A} (c : nat) (m : M (kern E) A) (a : A) (e e' : E) : Prop :=
  forall s, has_lock c s -> m (Kern s e) = Ret a (Kern s e').

(** The kernel stack and then the address space of [kz] are given back. *)
Definition gives_back (c : nat) (kz : proc) (e e' : E) : Prop :=
  exists e1, answers c (kfree (kstack kz)) tt e e1 /\ answers c (freevm (pgdir kz)) tt e1 e'.

Lemma reap_ok c z (k : kern E) kz e' :
  has_lock c (ps k) -> procs (ps k) !! z = Some kz -> gives_back c kz (env k) e' ->
  reap z k = Ret (pid kz) (Kern ((ps k) <| procs ::= alter freed z |>) e').
Proof.
  intros Hl Hz (e1 & H1 & H2). destruct k as [s e]. cbn [ps env] in *. unfold reap.
  rewrite (bind_ret _ _ _ _ _ (lift_eq _ (Kern s e) _ _ (get_proc_ok _ _ _ Hz))).
  rewrite (bind_ret _ _ _ _ _ (H1 s Hl)).
  rewrite (bind_ret _ _ _ _ _ (lift_eq _ (Kern s e1) _ _ (upd_proc_ok _ _ _ _ Hz))).
  erewrite bind_ret; [|apply (H2 (s <| procs ::= alter (fun k => k <| kstack := 0 |>) z |>)); exact Hl].
  erewrite bind_ret.
  2: { apply lift_eq. apply (upd_proc_ok _ _ _ (kz <| kstack := 0 |>)). cbn. by rewrite list_lookup_alter_eq, Hz. }
  unfold mret, M_ret. f_equal. cbn. by rewrite !procs_alter_alter.
Qed.

Lemma sleep_pt_ok c p s kc k ch lk :
  has_lock c s -> cpus s !! c = Some kc -> ncli kc = 1 -> cproc kc = Some p ->
  procs s !! p = Some k ->
  sleep c ch PtableLock (s, lk) =
  Ret tt (s <| procs ::= alter (fun k => k <| chan := ch |> <| state := SLEEPING |>
                                           <| ctx_eip := ResumeSched (intena kc) |>) p |>, lk).
Proof.
  intros Hl Hkc Hn Hp Hk. unfold sleep, on_ps.
  rewrite (bind_ret _ _ _ (Some p) (s, lk)).
  2: { unfold zoom. cbn. by rewrite (my_proc_locked _ _ _ Hl Hkc), Hp. }
  rewrite ret_bind.
  set (s1 := s <| procs ::= alter (fun k => k <| chan := ch |> <| state := SLEEPING |>) p |>).
  rewrite (bind_ret _ _ _ tt (s1, lk)).
  2: { unfold zoom. cbn. by rewrite (upd_proc_ok _ _ _ _ Hk). }
  unfold zoom. cbn [fst snd].
  rewrite (sched_ok c p s1 kc (k <| chan := ch |> <| state := SLEEPING |>)); try done.
  - unfold s1. by rewrite procs_alter_alter.
  - cbn. by rewrite list_lookup_alter_eq, Hk.
Qed.

(** *** The outcome of one call of [wait] *)

Lemma my_proc_ok c s kc :
  can_lock c s -> cpus s !! c = Some kc ->
  my_proc c s = Ret (cproc kc) (s <| cpus ::= <[c := rest_cpu kc]> |>).
Proof.
  intros (Hids & _ & kc' & Hkc' & Hok & _) Hkc.
  rewrite Hkc in Hkc'. injection Hkc' as <-. unfold my_proc. msimp.
  by rewrite (myproc_ok _ _ _ Hids Hkc Hok).
Qed.

Lemma rest_runs_on c p k s kc :
  runs_on c p k s -> cpus s !! c = Some kc ->
  runs_on c p k (s <| cpus ::= <[c := rest_cpu kc]> |>).
Proof.
  intros ((Hids & Hl & kc1 & Hkc1 & Hok & Hb) & Hk & kc2 & Hkc2 & Hn & Hp) Hkc.
  rewrite Hkc in Hkc1, Hkc2. injection Hkc1 as <-. injection Hkc2 as <-.
  assert (Hlook : (<[c := rest_cpu kc]> (cpus s)) !! c = Some (rest_cpu kc)).
  { apply list_lookup_insert_eq. by eapply lookup_lt_Some. }
  assert (Hok' : cpu_ok (rest_cpu kc) /\ ncli (rest_cpu kc) = ncli kc /\ cproc (rest_cpu kc) = cproc kc).
  { destruct kc as [a b n d e g]. unfold rest_cpu, cpu_ok in *. cbn in *. destruct (n =? 0); cbn; tauto. }
  destruct Hok' as (Hok' & Hn' & Hp'). split_and!.
  - split_and!; [eapply ids_ok_insert; [done..|]|done|].
    + destruct kc as [a b n d e g]. unfold rest_cpu. cbn. by destruct (n =? 0).
    + exists (rest_cpu kc). rewrite Hn'. by split_and!.
  - done.
  - exists (rest_cpu kc). rewrite Hn', Hp'. by split_and!.
Qed.

(** The process table after a call of [wait] by [p] that found no ZOMBIE. *)
Definition wait_sleeps (p : nat) (k : proc) (l l' : list proc) : Prop :=
  exists ena, l' = <[p := k <| chan := Some (ChProc p) |> <| state := SLEEPING |>
                            <| ctx_eip := ResumeSched ena |>]> l.

Lemma unlockd_freed c s z kz :
  procs s !! z = Some kz ->
  unlockd c (s <| procs ::= alter freed z |>) = unlockd c (s <| procs := <[z := freed kz]> (procs s) |>).
Proof. intros Hz. rewrite <- (list_alter_insert freed _ _ _ Hz). by destruct s. Qed.

Lemma wait_scan_zombie_inv `{!ReapOk} c p (k : kern E) z kz r k' :
  has_lock c (ps k) -> findi (zombie_child p) (procs (ps k)) = Some z ->
  procs (ps k) !! z = Some kz -> wait_scan c p k = Ret r k' ->
  r = WReturn (pid kz) /\ ps k' = unlockd c ((ps k) <| procs := <[z := freed kz]> (procs (ps k)) |>).
Proof.
  intros Hl Hfind Hz Hrun. unfold wait_scan in Hrun.
  rewrite (bind_ret (gets ps) _ k (ps k) k eq_refl) in Hrun. unfold zombie_child in Hfind. rewrite Hfind in Hrun.
  minv Hrun. injection Hrun as <- <-. destruct (reap_inv z k kz _ _ Hz Hrun0) as [-> Hps].
  apply lift_inv in Hrun1 as [Hrel _]. rewrite release_pt_ok in Hrel by (by rewrite Hps). injection Hrel as _ Hrel.
  split; [done|]. rewrite <- Hrel, Hps. by apply unlockd_freed.
Qed.

Lemma wait_scan_zombie c p (k : kern E) z kz e' :
  has_lock c (ps k) -> findi (zombie_child p) (procs (ps k)) = Some z ->
  procs (ps k) !! z = Some kz -> gives_back c kz (env k) e' ->
  wait_scan c p k = Ret (WReturn (pid kz)) (Kern (unlockd c ((ps k) <| procs := <[z := freed kz]> (procs (ps k)) |>)) e').
Proof.
  intros Hl Hfind Hz Hg. unfold wait_scan.
  rewrite (bind_ret (gets ps) _ k (ps k) k eq_refl). unfold zombie_child in Hfind. rewrite Hfind.
  rewrite (bind_ret _ _ _ _ _ (reap_ok c z k kz e' Hl Hz Hg)).
  erewrite bind_ret; [|apply lift_eq, release_pt_ok; exact Hl].
  rewrite <- (unlockd_freed c (ps k) z kz Hz). reflexivity.
Qed.

Lemma wait_scan_none c p (k : kern E) kc kp :
  has_lock c (ps k) -> cpus (ps k) !! c = Some kc -> ncli kc = 1 -> cproc kc = Some p ->
  procs (ps k) !! p = Some kp -> findi (zombie_child p) (procs (ps k)) = None ->
  exists k' r, wait_scan c p k = Ret r k' /\
    env k' = env k /\
    if negb (existsb (is_child p) (procs (ps k))) || negb (killed kp =? 0)
    then r = WReturn (-1) /\ ps k' = unlockd c (ps k)
    else r = WSleep /\ wait_sleeps p kp (procs (ps k)) (procs (ps k')) /\
         ps k' = (ps k) <| procs := procs (ps k') |>.
Proof.
  intros Hl Hkc Hn Hp Hkp Hfind. unfold wait_scan.
  rewrite (bind_ret (gets ps) _ k (ps k) k eq_refl). unfold zombie_child in Hfind. rewrite Hfind.
  unfold wait_none. rewrite (bind_ret (gets ps) _ k (ps k) k eq_refl).
  rewrite (bind_ret (lift (get_proc p)) _ _ kp k).
  2: { rewrite (lift_eq _ _ _ _ (get_proc_ok _ _ _ Hkp)). by destruct k. }
  destruct (negb (existsb (is_child p) (procs (ps k))) || negb (killed kp =? 0)).
  - rewrite (bind_ret _ _ _ _ _ (lift_eq _ _ _ _ (release_pt_ok _ _ Hl))).
    eexists _, _. split; [reflexivity|]. done.
  - eexists _, _. split.
    + erewrite bind_ret; [reflexivity|]. unfold zoom. by rewrite (sleep_pt_ok _ _ _ _ _ _ _ Hl Hkc Hn Hp Hkp).
    + split_and!; [done|done| |done]. exists (intena kc). cbn. by rewrite (list_alter_insert _ _ _ _ Hkp).
Qed.

(** C23. One call of [wait] by process [p], up to its return or its sleep, ends in one
    of three ways: the first ZOMBIE child in the table is freed, that is its
    kernel stack is given to [kfree] and its address space to [freevm], its slot
    becomes UNUSED, and its pid is returned; without a ZOMBIE child, -1 is
    returned and nothing changes if [p] has no children or has been killed;
    otherwise [p] sleeps on its own process structure, the channel [exit] wakes,
    with ptable.lock held since before the scan.  That [wait] returns needs only
    that these two calls for that child return. *)
Theorem wait_effect c p kp (k : kern E) :
  runs_on c p kp (ps k) ->
  (forall z kz, findi (zombie_child p) (procs (ps k)) = Some z -> procs (ps k) !! z = Some kz ->
     exists e', gives_back c kz (env k) e') ->
  exists r k', wait c k = Ret r k' /\
    match findi (zombie_child p) (procs (ps k)) with
    | Some z => exists kz, procs (ps k) !! z = Some kz /\ r = WReturn (pid kz) /\
        procs (ps k') = <[z := freed kz]> (procs (ps k)) /\ ptlock (ps k') = initlock /\
        gives_back c kz (env k) (env k')
    | None =>
        env k' = env k /\
        if negb (existsb (is_child p) (procs (ps k))) || negb (killed kp =? 0)
        then r = WReturn (-1) /\ procs (ps k') = procs (ps k) /\ ptlock (ps k') = initlock
        else r = WSleep /\ wait_sleeps p kp (procs (ps k)) (procs (ps k')) /\ has_lock c (ps k')
    end.
Proof.
  intros Hr Hgive. destruct (Hr) as (Hcl & Hkp & kc & Hkc & Hn & Hp).
  pose proof (rest_runs_on _ _ _ _ _ Hr Hkc) as Hr1.
  set (s1 := (ps k) <| cpus ::= <[c := rest_cpu kc]> |>) in *.
  destruct (runs_on_lockd _ _ _ _ Hr1) as (Hl & kc1 & Hkc1 & Hn1 & Hp1).
  set (k1 := k <| ps := s1 |>). set (k2 := k <| ps := lockd c s1 |>).
  assert (Hw : wait c k = wait_scan c p k2).
  { unfold wait. rewrite (bind_ret _ _ _ _ _ (lift_eq _ _ _ _ (my_proc_ok _ _ _ Hcl Hkc))), Hp.
    rewrite (bind_ret (deref (Some p)) _ _ p _ eq_refl). 
    destruct Hr1 as [Hcl1 _].
    exact (bind_ret _ _ _ _ _ (lift_eq (acquire_pt c) k1 tt _ (acquire_pt_ok c s1 Hcl1))). }
  rewrite Hw. change (procs (ps k)) with (procs (ps k2)) in *. change (env k) with (env k2) in *.
  destruct (findi (zombie_child p) (procs (ps k2))) as [z|] eqn:Hfind.
  - destruct (proj1 (findi_Some _ _ _) Hfind) as [(kz & Hz & _) _].
    destruct (Hgive z kz eq_refl Hz) as [e' He]. rewrite (wait_scan_zombie c p k2 z kz e' Hl Hfind Hz He).
    eexists _, _. split; [reflexivity|]. by exists kz.
  - destruct (wait_scan_none c p k2 kc1 kp Hl Hkc1 Hn1 Hp1 Hkp Hfind) as (k' & r & Hrun & He & Hres).
    exists r, k'. split; [done|]. split; [done|]. destruct (_ || _).
    + destruct Hres as [-> Hps]. by rewrite Hps.
    + destruct Hres as (-> & Hs & Hps). split_and!; [done..|]. by rewrite Hps.
Qed.

End Wait.

#[export] Instance bump_reap_ok : ReapOk (E := Z).
Proof. by split; intros a k k' [= <-]. Qed.

(** A kernel that keeps account of its pages: the state is the list of the pages
    in use, [kfree] and [freevm] panic for a page that is not, and [kalloc] and
    [copyuvm] find the first of five pages that is free. *)
Definition give_page (e : list Z) : Z * list Z :=
  match list_filter (fun a => a ∉ e) _ [4096; 8192; 12288; 16384; 20480] with
  | a :: _ => (a, a :: e)
  | [] => (0, e)
  end.
Definition take_page (a : Z) : M (kern (list Z)) unit := fun k =>
  if bool_decide (a ∈ env k) then Ret tt (Kern (ps k) (list_difference (env k) [a])) else Panic "kfree".

#[export] Instance page_services : Services (list Z) := {|
  kalloc := fun k => Ret (give_page (env k)).1 (Kern (ps k) (give_page (env k)).2);
  kfree := take_page;
  setupkvm := fun k => Ret (give_page (env k)).1 (Kern (ps k) (give_page (env k)).2);
  inituvm := fun _ => mret tt;
  copyuvm := fun _ _ k => Ret (give_page (env k)).1 (Kern (ps k) (give_page (env k)).2);
  allocuvm := fun _ _ newsz => mret newsz;
  deallocuvm := fun _ _ newsz => mret newsz;
  freevm := take_page;
  switchuvm := fun _ => mret tt;
  switchkvm := mret tt;
  iinit := mret tt;
  initlog := mret tt;
  filedup := mret;
  fileclose := fun _ => mret tt;
  idup := mret;
  iput := fun _ => mret tt;
  namei_root := mret (Some 0%nat);
  begin_op := mret tt;
  end_op := mret tt
|}.

(** The ZOMBIE child of [exit_state] has a kernel stack and an address space. *)
Definition wait_state : kern (list Z) :=
  Kern (exit_state <| procs ::= alter (fun k => k <| kstack := 8192 |> <| pgdir := 12288 |>) 2%nat |>)
       [4096; 8192; 12288].

Lemma wait_effect_witness :
  exists r k', wait 0 wait_state = Ret r k' /\ r = WReturn 3 /\
    (state <$> procs (ps k') !! 2%nat) = Some UNUSED /\ env k' = [4096].
Proof.
  destruct (wait_effect 0 1 (zero_proc <| state := RUNNING |> <| pid := 2 |> <| parent := Some 5%nat |>) wait_state)
    as (r & k' & Hrun & H).
  - split_and!; [|done|by eexists]. split_and!; [apply NoDup_singleton|done|].
    eexists. split; [done|]. unfold cpu_ok. cbn. lia.
  - intros z kz Hz. injection Hz as <-. intros Hz. injection Hz as <-. exists [4096]. by exists [4096; 12288].
  - exists r, k'. split; [exact Hrun|]. change (findi _ _) with (Some 2%nat) in H.
    destruct H as (kz & Hz & Hr & Hp & _ & Hg). injection Hz as <-. split; [exact Hr|]. rewrite Hp.
    split; [reflexivity|]. destruct k' as [s' e']. destruct Hg as (e1 & H1 & H2).
    assert (Hl : has_lock 0 (lockd 0 exit_state)) by (apply lockd_has_lock, exit_state_runs).
    specialize (H1 _ Hl). injection H1 as <-. specialize (H2 _ Hl). by injection H2 as <-.
Defined.

(** ** Allocation of a slot *)

(** Facts about the queues that the MLFQ policy needs. *)
Definition mlfq_ok (pol : policy) (s : pstate) : Prop :=
  pol = MLFQ -> length (procs s) = 64%nat /\ exists ls, mlfq_abs (mq s) ls /\ queues_ok ls.

Lemma full_queue_has_all ls i l p :
  queues_ok ls -> ls !! i = Some l -> length l = 64%nat -> (p < 64)%nat ->
  p ∈ concat ls /\ forall j l', j <> i -> ls !! j = Some l' -> l' = [].
Proof.
  intros (Hlen & Hnd & Hall) Hl Hfull Hp.
  assert (Hperm : concat ls ≡ₚ seq 0 64).
  { apply submseteq_length_Permutation.
    - apply NoDup_submseteq; [done|]. intros x Hx. rewrite Forall_forall in Hall.
      apply elem_of_seq. specialize (Hall x Hx). lia.
    - rewrite length_seq, (concat_split _ _ _ Hl), !length_app. lia. }
  split; [rewrite Hperm; apply elem_of_seq; lia|]. intros j l' Hj Hl'.
  assert (H0 : (length l' + length l <= length (concat ls))%nat).
  { clear -Hj Hl Hl'. revert i j Hj Hl Hl'. induction ls as [|m ls IH]; intros i j Hj Hl Hl'; [done|].
    cbn. rewrite length_app. destruct i as [|i], j as [|j]; cbn in *; simplify_eq.
    - rewrite (concat_split _ _ _ Hl'), !length_app. lia.
    - rewrite (concat_split _ _ _ Hl), !length_app. lia.
    - specialize (IH i j ltac:(lia) Hl Hl'). lia. }
  rewrite Hperm, length_seq in H0. destruct l'; [done|cbn in H0; lia].
Qed.

(** [allocproc]'s loop over the queues puts the new process into one of them,
    unless it is still queued from the slot's previous life. *)
Lemma push_first_ok s ls p :
  mlfq_abs (mq s) ls -> queues_ok ls -> length (procs s) = 64%nat -> (p < 64)%nat ->
  exists b q' ls', push_first [0; 1; 2; 3; 4] p s = Ret tt (pushed b p q' s) /\
    mlfq_abs q' ls' /\ queues_ok ls' /\ p ∈ concat ls' /\
    (forall x, x ∈ concat ls' <-> x = p \/ x ∈ concat ls).
Proof.
  intros Hq Hok Hlen Hp. assert (Hl : length ls = 5%nat) by (by destruct Hok as [-> _]).
  destruct (lookup_lt_is_Some_2 ls 0 ltac:(lia)) as [l0 Hl0].
  destruct (lookup_lt_is_Some_2 ls 1 ltac:(lia)) as [l1 Hl1].
  assert (Hpush : forall i, (i < 5)%nat -> (exists b q' ls', push (Z.of_nat i) p s = Ret tt (pushed b p q' s) /\
    mlfq_abs q' ls' /\ queues_ok ls' /\ p ∈ concat ls' /\
    (forall x, x ∈ concat ls' <-> x = p \/ x ∈ concat ls))).
  { intros i Hi. destruct (push_abs s ls i p Hq Hi ltac:(lia)) as (q' & Hrun & Habs & _).
    exists (spec_enqueues ls i p), q', (spec_push ls i p). split_and!; try done.
    - by apply queues_ok_push.
    - unfold spec_push. destruct (decide (p ∈ concat ls)).
      + destruct (spec_enqueues ls i p); [rewrite concat_snoc by lia; set_solver|done].
      + rewrite queues_ok_not_full by done. rewrite concat_snoc by lia. set_solver.
    - intros x. unfold spec_push. destruct (decide (p ∈ concat ls)).
      + unfold spec_enqueues. rewrite bool_decide_eq_false_2 by tauto. cbn. naive_solver.
      + rewrite queues_ok_not_full by done. rewrite concat_snoc by lia. set_solver. }
  cbn [push_first]. rewrite (bind_ret _ _ _ _ _ (isFull_abs s ls 0 l0 Hq Hl0)).
  case_bool_decide as Hfull; [|by apply (Hpush 0%nat); lia].
  destruct (full_queue_has_all ls 0 l0 p Hok Hl0 Hfull Hp) as [_ He].
  rewrite (bind_ret _ _ _ _ _ (isFull_abs s ls 1 l1 Hq Hl1)).
  rewrite (He 1%nat l1 ltac:(lia) Hl1). cbn. apply (Hpush 1%nat). lia.
Qed.

Lemma pushed_mq b p q' s : mq (pushed b p q' s) = q'.
Proof. done. Qed.

Lemma pushed_fresh b p q' s k :
  procs s !! p = Some k -> cur_time k = 0 -> pushed b p q' s = s <| mq := q' |>.
Proof.
  intros Hk Hc. unfold pushed. destruct b; [|done].
  rewrite (list_alter_insert _ _ _ _ Hk), <- Hc, list_insert_id; [done|].
  rewrite Hk. by destruct k.
Qed.

(** The slot that [allocproc] takes. *)
Definition slot_of (s : pstate) : option nat := findi (stateb UNUSED) (procs s).

Lemma alloc_slot_ok pol c s :
  can_lock c s -> mlfq_ok pol s ->
  match slot_of s with
  | None => alloc_slot pol c s = Ret None (unlockd c (lockd c s))
  | Some p => exists q', alloc_slot pol c s =
      Ret (Some p) (unlockd c ((lockd c s) <| procs ::= alter (init_proc (nextpid s) (ticks s)) p |>
                                           <| nextpid ::= fun n => s32 (n + 1) |> <| mq := q' |>)) /\
      (pol <> MLFQ -> q' = mq s) /\
      (forall ls, pol = MLFQ -> mlfq_abs (mq s) ls -> queues_ok ls ->
         exists ls', mlfq_abs q' ls' /\ queues_ok ls' /\ p ∈ concat ls' /\
         (forall x, x ∈ concat ls' <-> x = p \/ x ∈ concat ls))
  end.
Proof.
  intros Hcl Hm. pose proof (lockd_has_lock _ _ Hcl) as Hl. unfold slot_of, alloc_slot.
  rewrite (bind_ret _ _ _ _ _ (acquire_pt_ok _ _ Hcl)).
  rewrite (bind_ret (gets (fun s => s)) _ _ _ _ eq_refl). change (procs (lockd c s)) with (procs s).
  destruct (findi (stateb UNUSED) (procs s)) as [p|] eqn:Hfind.
  2: { by rewrite (bind_ret _ _ _ _ _ (release_pt_ok _ _ Hl)). }
  destruct (proj1 (findi_Some _ _ _) Hfind) as [(k & Hk & _) _].
  rewrite (bind_ret _ _ _ _ _ (upd_proc_ok p _ (lockd c s) k Hk)).
  set (s1 := (lockd c s) <| procs ::= alter (init_proc (nextpid s) (ticks s)) p |>).
  set (s2 := s1 <| nextpid ::= fun n => s32 (n + 1) |>).
  rewrite (bind_ret (modify _) _ _ tt s2 eq_refl).
  assert (Hmid : exists q', (match pol with MLFQ => push_first [0; 1; 2; 3; 4] p | _ => mret tt end) s2
                            = Ret tt (s2 <| mq := q' |>) /\ (pol <> MLFQ -> q' = mq s) /\
      (forall ls, pol = MLFQ -> mlfq_abs (mq s) ls -> queues_ok ls ->
         exists ls', mlfq_abs q' ls' /\ queues_ok ls' /\ p ∈ concat ls' /\
         (forall x, x ∈ concat ls' <-> x = p \/ x ∈ concat ls))).
  { destruct pol; try (by exists (mq s); split_and!; [by destruct s|..]).
    destruct (Hm eq_refl) as (Hlen & ls & Hq & Hok).
    destruct (push_first_ok s2 ls p) as (b & q' & ls' & Hrun & Hq' & Hok' & Hin & Hiff); try done.
    { cbn. by rewrite length_alter. }
    { apply lookup_lt_Some in Hk. lia. }
    exists q'. split_and!; [|done|].
    - rewrite Hrun. f_equal. apply (pushed_fresh _ _ _ _ (init_proc (nextpid s) (ticks s) k)); [|done].
      cbn. by rewrite list_lookup_alter_eq, Hk.
    - intros ls0 _ Hq0 Hok0.
      destruct (push_first_ok s2 ls0 p) as (b0 & q0 & ls0' & Hrun0 & H0); try done.
      { cbn. by rewrite length_alter. }
      { apply lookup_lt_Some in Hk. lia. }
      exists ls0'. rewrite Hrun in Hrun0. 
      apply (f_equal (fun o => match o with Ret _ s => mq s | _ => q' end)) in Hrun0.
      rewrite !pushed_mq in Hrun0. by rewrite Hrun0. }
  destruct Hmid as (q' & Hrun & H1 & H2). exists q'. split; [|done].
  rewrite (bind_ret _ _ _ _ _ Hrun). set (s3 := s2 <| mq := q' |>).
  exact (bind_ret _ _ _ _ _ (release_pt_ok c s3 Hl)).
Qed.
