(* ===== verification/ForkSpec.v ===== *)
(** * ForkSpec: what [fork] makes

    [fork] runs outside ptable.lock except in [allocproc] and at the end, and
    calls the page allocator, the virtual memory code and the file layer.  The
    theorem says which answers of theirs make it succeed or fail, what the child
    is, and that a failure leaves the slot UNUSED. *)

From S2P Require Import Prelude Spinlock Proctab Mlfq Proc ProcSpec.

(** ** Services that leave the process table alone

    A service that takes locks of its own returns with the CPUs as they were,
    except that [pushcli] has refreshed [intena]. *)
Definition no_ena (k : cpu) : cpu := k <| intena := false |>.
Definition quiet (s s' : pstate) : Prop :=
  s' = s <| cpus := cpus s' |> /\ no_ena <$> cpus s' = no_ena <$> cpus s.

#[export] Instance quiet_preorder : PreOrder quiet.
Proof.
  split.
  - intros s. split; [by destruct s|done].
  - intros s1 s2 s3 [H1 E1] [H2 E2]. split; [by rewrite H2, H1|by rewrite E2].
Qed.

Lemma quiet_procs s s' : quiet s s' -> procs s' = procs s.
Proof. intros [-> _]. done. Qed.

Lemma quiet_lookup s s' c k :
  quiet s s' -> cpus s !! c = Some k -> exists k', cpus s' !! c = Some k' /\ no_ena k' = no_ena k.
Proof.
  intros [_ E] Hk. apply (f_equal (fun l => l !! c)) in E. rewrite !list_lookup_fmap, Hk in E.
  destruct (cpus s' !! c) as [k'|]; [|done]. exists k'. split; [done|]. cbn in E. congruence.
Qed.

Lemma no_ena_fields k k' : no_ena k = no_ena k' ->
  apicid k = apicid k' /\ ncli k = ncli k' /\ cproc k = cproc k' /\ iflag k = iflag k'.
Proof.
  intros H. split_and!; [exact (f_equal apicid H)|exact (f_equal ncli H)|exact (f_equal cproc H)
                        |exact (f_equal iflag H)].
Qed.

Lemma quiet_can_lock c s s' : quiet s s' -> can_lock c s -> can_lock c s'.
Proof.
  intros Hq (Hids & Hl & k & Hk & Hok & Hb).
  destruct (quiet_lookup _ _ _ _ Hq Hk) as (k' & Hk' & Hn).
  apply no_ena_fields in Hn as (_ & Hn & _ & Hi). destruct Hq as [Hs E]. split_and!.
  - unfold ids_ok in *.
    assert (Ha : forall l, apicid <$> l = apicid <$> (no_ena <$> l)) by (intros l; by rewrite <- list_fmap_compose).
    by rewrite Ha, E, <- Ha.
  - by rewrite Hs.
  - exists k'. unfold cpu_ok in *. rewrite Hn, Hi. exact (conj Hk' (conj Hok Hb)).
Qed.

Lemma unlock_quiet c s : can_lock c s -> quiet s (unlockd c (lockd c s)).
Proof.
  intros (_ & Hl & k & Hk & Hok & Hb). unfold unlockd, lockd, setf. cbn.
  rewrite list_alter_alter, (list_alter_insert _ _ _ _ Hk). split.
  - cbn. by rewrite <- Hl.
  - cbn. rewrite list_fmap_insert, pop_push_cpu by done. apply list_insert_id.
    rewrite list_lookup_fmap, Hk. cbn. destruct k as [a b n d e g]. unfold rest_cpu, no_ena. cbn.
    by destruct (n =? 0).
Qed.

Section Fork.
Context {E : Type} `{!Services E}.

(** The service [m], called by CPU [c] without ptable.lock with the state [e] of
    the other components, returns [a], leaves [e'] and does not touch the process
    table. *)
Definition asks {A} (c : nat) (m : M (kern E) A) (a : A) (e e' : E) : Prop :=
  forall s, can_lock c s -> exists s', m (Kern s e) = Ret a (Kern s' e') /\ quiet s s'.

(** While [fork] works: the lock is free, the table is the old one [P] but for the
    child's slot [np], and the other components are in state [e]. *)
Definition forking (c : nat) (P : list proc) (np : nat) (kn : proc) (e : E) (k : kern E) : Prop :=
  can_lock c (ps k) /\ procs (ps k) = <[np := kn]> P /\ env k = e.

Lemma forking_asks {A} c P np kn e e' (m : M (kern E) A) a (k : kern E) :
  forking c P np kn e k -> asks c m a e e' -> wp m (fun r k' => r = a /\ forking c P np kn e' k') k.
Proof.
  intros (Hl & Hp & He) Hm. destruct k as [s e0]. cbn [ps env] in *. subst e0.
  destruct (Hm s Hl) as (s' & Hrun & Hq). eapply wp_intro; [exact Hrun|]. split; [done|].
  unfold forking. cbn [ps env]. split_and!; [by eapply quiet_can_lock|by rewrite (quiet_procs _ _ Hq)|done].
Qed.

Lemma forking_upd c P np kn e f (k : kern E) :
  (np < length P)%nat -> forking c P np kn e k ->
  wp (lift (upd_proc np f)) (fun _ k' => forking c P np (f kn) e k') k.
Proof.
  intros Hnp (Hl & Hp & He). apply wp_zoom. eapply wp_intro.
  - apply (upd_proc_ok _ _ _ kn). rewrite Hp. by apply list_lookup_insert_eq.
  - split_and!; [exact Hl| |exact He]. cbn. rewrite Hp, (list_alter_insert _ _ _ kn), list_insert_insert_eq; [done|].
    by apply list_lookup_insert_eq.
Qed.

Lemma forking_get c P np kn e q kq (k : kern E) :
  forking c P np kn e k -> (<[np := kn]> P) !! q = Some kq ->
  wp (lift (get_proc q)) (fun r k' => r = kq /\ k' = k) k.
Proof.
  intros (_ & Hp & _) Hq. apply wp_zoom. eapply wp_intro; [apply get_proc_ok; by rewrite Hp|].
  split; [done|]. by destruct k.
Qed.

(** The child's file table: the parent's files, where it has one. *)
Definition dup_upto (n : nat) (par old : list (option nat)) : list (option nat) :=
  imap (fun i o => if bool_decide (i < n)%nat
                   then match par !! i with Some (Some f) => Some f | _ => o end else o) old.

Lemma dup_upto_0 par old : dup_upto 0 par old = old.
Proof. apply list_eq. intros i. unfold dup_upto. rewrite list_lookup_imap. by destruct (old !! i). Qed.

Lemma dup_upto_S par old n o :
  par !! n = Some o ->
  dup_upto (n + 1) par old =
  match o with Some f => <[n := Some f]> (dup_upto n par old) | None => dup_upto n par old end.
Proof.
  intros Ho.
  assert (Hother : forall i, i <> n -> dup_upto (n + 1) par old !! i = dup_upto n par old !! i).
  { intros i Hne. unfold dup_upto. rewrite !list_lookup_imap. destruct (old !! i); [|done]. cbn.
    by replace (bool_decide (i < n + 1)%nat) with (bool_decide (i < n)%nat) by (apply bool_decide_ext; lia). }
  assert (Hat : dup_upto (n + 1) par old !! n = (fun x => match o with Some f => Some f | None => x end) <$> old !! n /\
                dup_upto n par old !! n = old !! n).
  { unfold dup_upto. rewrite !list_lookup_imap. destruct (old !! n); [|done]. cbn.
    rewrite bool_decide_eq_true_2, bool_decide_eq_false_2, Ho by lia. by destruct o. }
  destruct Hat as [Hat1 Hat2]. apply list_eq. intros i.
  destruct (decide (i = n)) as [->|Hne]; [|destruct o; by rewrite ?list_lookup_insert_ne, Hother by done].
  rewrite Hat1. destruct o as [f|]; [|by rewrite Hat2; destruct (old !! n)].
  destruct (old !! n) eqn:Hn.
  - rewrite list_lookup_insert_eq; [done|]. apply lookup_lt_Some in Hat2. done.
  - rewrite list_insert_ge; [by rewrite Hat2|]. by apply lookup_ge_None.
Qed.

(** [filedup] is called for each of the files in turn. *)
Fixpoint dups (c : nat) (fs : list nat) (e e' : E) : Prop :=
  match fs with
  | [] => e' = e
  | f :: fs => exists e1, asks c (filedup f) f e e1 /\ dups c fs e1 e'
  end.
Definition open_files (os : list (option nat)) : list nat := omap id os.

Lemma dup_files_ok c P p kp np kn e e' (k : kern E) :
  p <> np -> (np < length P)%nat -> P !! p = Some kp -> length (ofile kp) = 16%nat ->
  dups c (open_files (ofile kp)) e e' -> forking c P np kn e k ->
  wp (dup_files p np)
     (fun _ k' => forking c P np (kn <| ofile := dup_upto 16 (ofile kp) (ofile kn) |>) e' k') k.
Proof.
  intros Hne Hnp Hp Hlen Hd Hk. unfold dup_files.
  set (I n k' := exists e1, dups c (open_files (drop n (ofile kp))) e1 e' /\
    forking c P np (kn <| ofile := dup_upto n (ofile kp) (ofile kn) |>) e1 k').
  eapply (wp_mono _ (fun _ k' => I (length (seq 0 16)) k')).
  2: { intros [] k' (e1 & Hd1 & Hk1). change (length (seq 0 16)) with 16%nat in *. rewrite drop_ge in Hd1 by lia.
       cbn in Hd1. by subst e1. }
  apply (wp_for_each _ _ I).
  { exists e. split; [done|]. rewrite dup_upto_0. by destruct kn. }
  intros i a k1 Hi (e1 & Hd1 & Hk1). apply lookup_seq in Hi as [-> Hi]. cbn [Nat.add] in *.
  apply wp_bind. eapply wp_mono; [eapply forking_get; [exact Hk1|by rewrite list_lookup_insert_ne]|].
  intros ? ? [-> ->]. destruct (lookup_lt_is_Some_2 (ofile kp) i ltac:(lia)) as [o Ho].
  apply wp_bind, (wp_deref _ o); [done|]. unfold I. rewrite (dup_upto_S _ _ _ _ Ho).
  rewrite (drop_S _ _ _ Ho) in Hd1. replace (S i) with (i + 1)%nat in Hd1 by lia.
  destruct o as [f|]; [|apply wp_ret; by exists e1].
  destruct Hd1 as (e2 & Hf & Hd2). apply wp_bind. eapply wp_mono; [eapply forking_asks; [exact Hk1|exact Hf]|].
  intros ? k2 [-> Hk2]. eapply wp_mono; [by apply forking_upd|]. intros [] k3 H3. by exists e2.
Qed.

(** *** allocproc *)

Lemma alloc_slot_fork pol c (k : kern E) :
  can_lock c (ps k) -> mlfq_ok pol (ps k) ->
  wp (lift (alloc_slot pol c))
     (fun mp k' =>
        mp = slot_of (ps k) /\
        match mp with
        | None => can_lock c (ps k') /\ procs (ps k') = procs (ps k) /\ env k' = env k
        | Some np => exists kn, procs (ps k) !! np = Some kn /\ state kn = UNUSED /\
            forking c (procs (ps k)) np (init_proc (nextpid (ps k)) (ticks (ps k)) kn) (env k) k'
        end) k.
Proof.
  intros Hcl Hm. pose proof (unlock_quiet c (ps k) Hcl) as Hq.
  pose proof (quiet_can_lock _ _ _ Hq Hcl) as Hcl'.
  pose proof (alloc_slot_ok pol c (ps k) Hcl Hm) as Ha. apply wp_zoom. unfold slot_of in *.
  destruct (findi (stateb UNUSED) (procs (ps k))) as [np|] eqn:Hfind.
  - destruct Ha as (q' & Hrun & _). eapply wp_intro; [exact Hrun|]. split; [done|].
    destruct (proj1 (findi_Some _ _ _) Hfind) as [(kn & Hkn & Hst%bool_decide_eq_true) _].
    exists kn. split_and!; [done|done|]. split_and!; [exact Hcl'| |done]. cbn. by rewrite (list_alter_insert _ _ _ _ Hkn).
  - eapply wp_intro; [exact Ha|]. split; [done|]. split_and!; [exact Hcl'|done|done].
Qed.

(** The child that [allocproc] returns, made from the slot [kn0]. *)
Definition embryo (s : pstate) (ks : Z) (kn0 : proc) : proc :=
  let sp := u32 (ks + KSTACKSIZE - TF_SIZE) in
  (init_proc (nextpid s) (ticks s) kn0) <| kstack := ks |>
    <| tf := sp |> <| context := u32 (sp - 4 - CTX_SIZE) |> <| ctx_eip := ResumeForkret |>.

(** [allocproc] in which [kalloc] gives [ks]. *)
Lemma allocproc_fork pol c ks e (k : kern E) np :
  can_lock c (ps k) -> mlfq_ok pol (ps k) -> slot_of (ps k) = Some np -> asks c kalloc ks (env k) e ->
  wp (allocproc pol c)
     (fun mp k' => exists kn, procs (ps k) !! np = Some kn /\ state kn = UNUSED /\
        if ks =? 0
        then mp = None /\ exists kn', state kn' = UNUSED /\ forking c (procs (ps k)) np kn' e k'
        else mp = Some np /\ forking c (procs (ps k)) np (embryo (ps k) ks kn) e k') k.
Proof.
  intros Hcl Hm Hslot Hal. unfold allocproc. apply wp_bind.
  eapply wp_mono; [by apply alloc_slot_fork|]. intros mp k1 [-> H1]. rewrite Hslot in *.
  destruct H1 as (kn & Hkn & Hst & Hk1). pose proof (lookup_lt_Some _ _ _ Hkn) as Hlt.
  apply wp_bind. eapply wp_mono; [by eapply forking_asks|]. intros ? k2 [-> Hk2].
  apply wp_bind. eapply wp_mono; [by apply forking_upd|]. intros [] k3 Hk3.
  destruct (Z.eqb_spec ks 0) as [->|Hks].
  - apply wp_bind. eapply wp_mono; [by apply forking_upd|]. intros [] k4 Hk4.
    apply wp_ret. exists kn. split_and!; [done|done|done|]. eexists. split; [|exact Hk4]. done.
  - apply wp_bind. eapply wp_mono; [by apply forking_upd|]. intros [] k4 Hk4.
    apply wp_ret. exists kn. by split_and!.
Qed.

(** *** fork *)

(** The last steps of [fork]: the child is made RUNNABLE under the lock. *)
Lemma fork_publish c P np kn e (r : Z) (Q : Z -> kern E -> Prop) (k : kern E) :
  (np < length P)%nat -> forking c P np kn e k ->
  (forall k', forking c P np (kn <| state := RUNNABLE |>) e k' -> Q r k') ->
  wp (lift (acquire_pt c);; lift (upd_proc np (fun kn => kn <| state := RUNNABLE |>));;
      lift (release_pt c);; mret r) Q k.
Proof.
  intros Hnp (Hl & Hp & He) HQ. apply wp_bind, wp_zoom. eapply wp_intro; [by apply acquire_pt_ok|].
  apply wp_bind, wp_zoom. eapply wp_intro.
  { apply (upd_proc_ok _ _ _ kn). cbn. rewrite Hp. by apply list_lookup_insert_eq. }
  apply wp_bind, wp_zoom. eapply wp_intro; [apply release_pt_ok; exact (lockd_has_lock _ _ Hl)|].
  apply wp_ret, HQ. split_and!; [|  |exact He].
  - exact (quiet_can_lock _ _ _ (unlock_quiet c (ps k) Hl) Hl).
  - cbn. rewrite Hp, (list_alter_insert _ _ _ kn), list_insert_insert_eq; [done|].
    by apply list_lookup_insert_eq.
Qed.

(** What the services answer to [fork] by a process with entry [kp], and the state
    they end in: [kalloc] has no page for the kernel stack; [copyuvm] cannot copy
    the address space, and the stack is given back; or there are a stack [ks]
    and an address space [pd], and the open files and the directory get one more
    reference. *)
Inductive fork_out := NoStack | NoCopy | Child (ks pd : Z).

Inductive fork_calls (c : nat) (kp : proc) (e : E) : fork_out -> E -> Prop :=
| fc_stack e1 : asks c kalloc 0 e e1 -> fork_calls c kp e NoStack e1
| fc_copy ks e1 e2 e3 :
    asks c kalloc ks e e1 -> ks <> 0 -> asks c (copyuvm (pgdir kp) (psz kp)) 0 e1 e2 ->
    asks c (kfree ks) tt e2 e3 -> fork_calls c kp e NoCopy e3
| fc_child ks pd cw e1 e2 e3 e4 :
    asks c kalloc ks e e1 -> ks <> 0 -> asks c (copyuvm (pgdir kp) (psz kp)) pd e1 e2 -> pd <> 0 ->
    dups c (open_files (ofile kp)) e2 e3 -> cwd kp = Some cw -> asks c (idup cw) cw e3 e4 ->
    fork_calls c kp e (Child ks pd) e4.

(** [kn] is the child of process [p] (entry [kp]), made from the slot [kn0]. *)
Definition fork_child (p : nat) (kp kn0 kn : proc) (npid : Z) : Prop :=
  state kn = RUNNABLE /\ pid kn = npid /\ parent kn = Some p /\ psz kn = psz kp /\
  frame kn = (frame kp) <| tf_eax := 0 |> /\ ctx_eip kn = ResumeForkret /\
  ofile kn = dup_upto 16 (ofile kp) (ofile kn0) /\ cwd kn = cwd kp /\
  name kn = safestrcpy16 (name kn0) (name kp) /\ killed kn = killed kn0 /\
  priority kn = 60 /\ queueNo kn = 0 /\ run_time kn = 0.

(** What [fork] has done when a slot is free and the services answered [o]. *)
Definition forked (c : nat) (p : nat) (kp : proc) (k : kern E) (np : nat) (o : fork_out) (e' : E) (r : Z) (k' : kern E) : Prop :=
  exists kn0 kn, procs (ps k) !! np = Some kn0 /\ state kn0 = UNUSED /\
    forking c (procs (ps k)) np kn e' k' /\
    match o with
    | NoStack | NoCopy => r = -1 /\ state kn = UNUSED
    | Child ks pd => r = nextpid (ps k) /\ fork_child p kp kn0 kn r /\ kstack kn = ks /\ pgdir kn = pd
    end.

Lemma fork_some pol c p kp (k : kern E) np o e' :
  runs_on c p kp (ps k) -> state kp = RUNNING -> length (ofile kp) = 16%nat -> mlfq_ok pol (ps k) ->
  slot_of (ps k) = Some np -> fork_calls c kp (env k) o e' -> wp (fork pol c) (forked c p kp k np o e') k.
Proof.
  intros Hr Hrun Hof Hm Hslot Hcalls. unfold fork, forked.
  destruct (Hr) as (Hcl & Hp & kc & Hkc & Hn & Hcp).
  pose proof (rest_runs_on _ _ _ _ _ Hr Hkc) as (Hcl1 & _).
  apply wp_bind, wp_zoom. eapply wp_intro; [by apply my_proc_ok|].
  set (k1 := k <| ps := _ |>). apply wp_bind, (wp_deref _ p); [done|].
  assert (Hal : exists ks e1, asks c kalloc ks (env k1) e1 /\
    match o with NoStack => ks = 0 /\ e' = e1 | _ => ks <> 0 end) by (destruct Hcalls; eauto).
  destruct Hal as (ks & e1 & Hal & Hks).
  apply wp_bind. eapply wp_mono; [by apply (allocproc_fork pol c ks e1 k1 np)|].
  intros mnp k2 (kn0 & Hkn0 & Hu & H2).
  change (procs (ps k1)) with (procs (ps k)) in *. assert (Hne : p <> np) by congruence.
  pose proof (lookup_lt_Some _ _ _ Hkn0) as Hlt.
  assert (Hpk : forall kn, (<[np := kn]> (procs (ps k))) !! p = Some kp)
    by (intros; by rewrite list_lookup_insert_ne).
  assert (Huniq : forall ks' e1', asks c kalloc ks' (env k1) e1' -> ks' = ks /\ e1' = e1).
  { intros ks' e1' H'. destruct (Hal _ Hcl1) as (s' & Hr1 & _), (H' _ Hcl1) as (s'' & Hr2 & _).
    rewrite Hr1 in Hr2. by injection Hr2. }
  destruct Hcalls as [e1' H1|ks' e1' e2 e3 H1 Hks0 H3 H4|ks' pd cw e1' e2 e3 e4 H1 Hks0 H3 Hpd H4 Hcw H5].
  - destruct Hks as [-> ->]. destruct H2 as (-> & kn' & Hu' & Hf). apply wp_ret. exists kn0, kn'. by split_and!.
  - destruct (Huniq _ _ H1) as [-> ->]. rewrite (proj2 (Z.eqb_neq ks 0) Hks) in H2. destruct H2 as (-> & Hf2).
    apply wp_bind. eapply wp_mono; [by eapply forking_get|]. intros ? ? [-> ->].
    apply wp_bind. eapply wp_mono; [by eapply forking_asks|]. intros ? k3 [-> Hk3].
    apply wp_bind. eapply wp_mono; [by apply forking_upd|]. intros [] k4 Hk4. cbn [Z.eqb].
    apply wp_bind. eapply wp_mono; [eapply forking_get; [exact Hk4|by apply list_lookup_insert_eq]|].
    intros ? ? [-> ->]. apply wp_bind. eapply wp_mono; [by eapply forking_asks|]. intros [] k5 [_ Hk5].
    apply wp_bind. eapply wp_mono; [by apply forking_upd|]. intros [] k6 Hk6.
    apply wp_ret. eexists kn0, _. split_and!; [done|done|exact Hk6|done|done].
  - destruct (Huniq _ _ H1) as [-> ->]. rewrite (proj2 (Z.eqb_neq ks 0) Hks) in H2. destruct H2 as (-> & Hf2).
    apply wp_bind. eapply wp_mono; [by eapply forking_get|]. intros ? ? [-> ->].
    apply wp_bind. eapply wp_mono; [by eapply forking_asks|]. intros ? k3 [-> Hk3].
    apply wp_bind. eapply wp_mono; [by apply forking_upd|]. intros [] k4 Hk4.
    rewrite (proj2 (Z.eqb_neq pd 0) Hpd).
    apply wp_bind. eapply wp_mono; [by eapply forking_get|]. intros ? ? [-> ->].
    apply wp_bind. eapply wp_mono; [by apply forking_upd|]. intros [] k5 Hk5.
    apply wp_bind. eapply wp_mono; [by eapply dup_files_ok|]. intros [] k6 Hk6.
    apply wp_bind. eapply wp_mono; [by eapply forking_get|]. intros ? ? [-> ->].
    apply wp_bind, (wp_deref _ cw); [done|].
    apply wp_bind. eapply wp_mono; [by eapply forking_asks|]. intros ? k7 [-> Hk7].
    apply wp_bind. eapply wp_mono; [by apply forking_upd|]. intros [] k8 Hk8.
    apply wp_bind. eapply wp_mono; [eapply forking_get; [exact Hk8|by apply list_lookup_insert_eq]|].
    intros ? ? [-> ->]. eapply fork_publish; [done|exact Hk8|].
    intros k9 Hk9. eexists kn0, _. split; [done|]. split; [done|]. split; [exact Hk9|].
    split; [reflexivity|]. split; [|split; reflexivity]. unfold fork_child. rewrite Hcw. repeat apply conj.
    2: { transitivity (nextpid (ps k)); reflexivity. }
    all: reflexivity.
Qed.

Lemma fork_full pol c p kp (k : kern E) :
  runs_on c p kp (ps k) -> mlfq_ok pol (ps k) -> slot_of (ps k) = None ->
  wp (fork pol c) (fun r k' => r = -1 /\ can_lock c (ps k') /\ procs (ps k') = procs (ps k) /\ env k' = env k) k.
Proof.
  intros Hr Hm Hslot. unfold fork. destruct (Hr) as (Hcl & Hp & kc & Hkc & Hn & Hcp).
  pose proof (rest_runs_on _ _ _ _ _ Hr Hkc) as (Hcl1 & _).
  apply wp_bind, wp_zoom. eapply wp_intro; [by apply my_proc_ok|].
  set (k1 := k <| ps := _ |>). apply wp_bind, (wp_deref _ p); [done|].
  apply wp_bind. unfold allocproc. apply wp_bind. eapply wp_mono; [by apply (alloc_slot_fork pol c k1)|].
  intros mp k2 [-> H2]. change (slot_of (ps k1)) with (slot_of (ps k)) in *. rewrite Hslot in *.
  destruct H2 as (? & ? & ?). by apply wp_ret, wp_ret.
Qed.

(** C21. [fork] by process [p] on CPU [c] returns, with ptable.lock free.  Without an
    UNUSED slot it returns -1 and changes neither the table nor anything else.
    Otherwise the only entry that changes is the first UNUSED slot, and what
    happens is decided by the services, and by nothing else: if [kalloc] returns
    0, or [copyuvm] of the parent's address space does, in which case the kernel
    stack is given back, [fork] returns -1 and the slot is UNUSED; if neither
    does, [fork] returns the next pid, and the slot is a RUNNABLE child of [p]
    with that stack and that address space, the same memory size, the same
    registers but for a zero in %eax, and the same open files and directory,
    which have one more reference each.  That [fork] returns needs only that
    these calls return. *)
Theorem fork_effect pol c p kp (k : kern E) :
  runs_on c p kp (ps k) -> state kp = RUNNING -> length (ofile kp) = 16%nat -> mlfq_ok pol (ps k) ->
  (is_Some (slot_of (ps k)) -> exists o e', fork_calls c kp (env k) o e') ->
  exists r k', fork pol c k = Ret r k' /\ can_lock c (ps k') /\
    match slot_of (ps k) with
    | None => r = -1 /\ procs (ps k') = procs (ps k) /\ env k' = env k
    | Some np => exists kn0 kn o, procs (ps k) !! np = Some kn0 /\ state kn0 = UNUSED /\
        procs (ps k') = <[np := kn]> (procs (ps k)) /\ fork_calls c kp (env k) o (env k') /\
        match o with
        | NoStack | NoCopy => r = -1 /\ state kn = UNUSED
        | Child ks pd => r = nextpid (ps k) /\ fork_child p kp kn0 kn r /\ kstack kn = ks /\ pgdir kn = pd
        end
    end.
Proof.
  intros Hr Hrun Hof Hm Hcalls. apply (wp_elim (fork pol c)). destruct (slot_of (ps k)) as [np|] eqn:Hslot.
  - destruct (Hcalls ltac:(eauto)) as (o & e' & Ho). eapply wp_mono; [by eapply fork_some|].
    intros r k' (kn0 & kn & H1 & H2 & (Hl & Hp & <-) & H3). split; [done|]. by exists kn0, kn, o.
  - eapply wp_mono; [by eapply fork_full|]. intros r k' (-> & ? & ? & ?). by split_and!.
Qed.

End Fork.

(** Entry 1 of [exit_state], with open files and a directory. *)
Definition forker : proc :=
  zero_proc <| state := RUNNING |> <| pid := 2 |> <| cwd := Some 7%nat |>
            <| ofile := Some 3%nat :: Some 4%nat :: replicate 14 None |>.
Definition fork_state (used : list Z) : kern (list Z) := Kern (exit_state <| procs ::= <[1%nat := forker]> |>) used.

Lemma fork_state_runs used : runs_on 0 1 forker (ps (fork_state used)).
Proof.
  split_and!; [|done|by eexists]. split_and!; [apply NoDup_singleton|done|].
  eexists. split; [done|]. unfold cpu_ok. cbn. lia.
Qed.

Lemma fork_state_mlfq used : mlfq_ok MLFQ (ps (fork_state used)).
Proof. intros _. split; [done|]. exists (replicate 5 []). split; [exact mlfq_abs_bss|exact queues_ok_init]. Qed.

(** A service of this kernel leaves the process table alone. *)
Lemma asks_same {A} c (m : M (kern (list Z)) A) a e e' :
  (forall s, m (Kern s e) = Ret a (Kern s e')) -> asks c m a e e'.
Proof. intros H s _. exists s. split; [apply H|reflexivity]. Qed.

(** With two pages free the child gets both; with one free the copy fails and it
    is given back. *)
Lemma fork_effect_witness :
  (exists r k', fork MLFQ 0 (fork_state [4096; 8192; 12288]) = Ret r k' /\ r = 1 /\
     (parent <$> procs (ps k') !! 3%nat) = Some (Some 1%nat) /\ env k' = [20480; 16384; 4096; 8192; 12288]) /\
  (exists r k', fork MLFQ 0 (fork_state [4096; 8192; 12288; 16384]) = Ret r k' /\ r = -1).
Proof.
  split.
  - destruct (fork_effect MLFQ 0 1 forker (fork_state [4096; 8192; 12288]) (fork_state_runs _) eq_refl eq_refl
                (fork_state_mlfq _)) as (r & k' & Hrun & _ & H).
    { intros _. exists (Child 16384 20480), [20480; 16384; 4096; 8192; 12288].
      set (e2 := [20480; 16384; 4096; 8192; 12288]).
      apply (fc_child 0 forker _ 16384 20480 7 [16384; 4096; 8192; 12288] e2 e2);
        [by apply asks_same|done|by apply asks_same|done| |done|by apply asks_same].
      exists e2. split; [by apply asks_same|]. exists e2. split; [by apply asks_same|]. done. }
    exists r, k'. split; [exact Hrun|]. change (slot_of _) with (Some 3%nat) in H.
    destruct H as (kn0 & kn & o & _ & _ & Hp & Ho & Hc).
    assert (Hr : exists k2, fork MLFQ 0 (fork_state [4096; 8192; 12288]) = Ret 1 k2 /\ env k2 = [20480; 16384; 4096; 8192; 12288])
      by (eexists; split; [vm_compute; reflexivity|reflexivity]).
    destruct Hr as (k2 & Hr & He). rewrite Hrun in Hr. injection Hr as -> ->.
    destruct o as [| |ks pd]; [by destruct Hc..|]. destruct Hc as (_ & Hc & _). split; [done|]. split; [|exact He].
    rewrite Hp. change (<[3%nat := kn]> (procs (ps (fork_state [4096; 8192; 12288]))) !! 3%nat) with (Some kn).
    cbn [fmap option_fmap option_map]. f_equal. exact (proj1 (proj2 (proj2 Hc))).
  - destruct (fork_effect MLFQ 0 1 forker (fork_state [4096; 8192; 12288; 16384]) (fork_state_runs _) eq_refl eq_refl
                (fork_state_mlfq _)) as (r & k' & Hrun & _ & H).
    { intros _. exists NoCopy, [4096; 8192; 12288; 16384].
      apply (fc_copy 0 forker _ 20480 [20480; 4096; 8192; 12288; 16384] [20480; 4096; 8192; 12288; 16384]);
        [by apply asks_same|done|by apply asks_same|by apply asks_same]. }
    exists r, k'. split; [exact Hrun|].
    assert (Hr : exists k2, fork MLFQ 0 (fork_state [4096; 8192; 12288; 16384]) = Ret (-1) k2)
      by (eexists; vm_compute; reflexivity).
    destruct Hr as (k2 & Hr). rewrite Hrun in Hr. by injection Hr.
Defined.
