(* ===== verification/Tables.v ===== *)
(** * Tables: the invariant of the process table

    What proc.c keeps true of [ptable.proc], [nextpid] and the MLFQ queues
    whenever ptable.lock is free or handed over: table and queue shape, pids,
    the accounting of time, and the promise behind [wait]: a process that sleeps
    for its children has no ZOMBIE child. *)

From S2P Require Import Prelude Spinlock Proctab Mlfq Proc ProcSpec.

(** [pend]: the clock interrupt has incremented [ticks] and not yet run
    [modify_times].  The ticks that have been accounted for: *)
Definition done_ticks (tk : Z) (pend : bool) : Z := if pend then tk - 1 else tk.

(** The pid and the times of a process. *)
Definition time_ok (tk : Z) (pend : bool) (k : proc) : Prop :=
  0 <= run_time k /\ (0 < pid k /\ 0 <= start_time k <= tk) /\
  if stateb ZOMBIE k
  then start_time k <= end_time k <= tk /\ run_time k <= end_time k - start_time k + 1
  else run_time k <= done_ticks tk pend - start_time k + 1.

Record tinv (pol : policy) (ini : option nat) (l : list proc) (npid tk : Z) (pend : bool)
    (q : mlfq) : Prop := {
  t_len : length l = 64%nat;
  t_queues : exists ls, mlfq_abs q ls /\ queues_ok ls /\
    (pol <> MLFQ -> concat ls = []) /\
    (forall p k, l !! p = Some k -> state k = RUNNING -> p ∉ concat ls);
  t_proc : forall p k, l !! p = Some k -> 0 <= queueNo k <= 4 /\ length (pticks k) = 5%nat;
  t_pid : forall p k, l !! p = Some k -> 0 <= pid k < npid;
  t_pid_inj : forall p q kp kq, l !! p = Some kp -> l !! q = Some kq ->
    pid kp = pid kq -> pid kp <> 0 -> p = q;
  t_time : forall p k, l !! p = Some k -> state k <> UNUSED -> time_ok tk pend k;
  t_wait : forall p k j, l !! p = Some k -> state k = SLEEPING -> chan k = Some (ChProc j) ->
    j = p /\ forall q kq, l !! q = Some kq -> parent kq = Some p -> state kq <> ZOMBIE;
  t_parent : forall p k, l !! p = Some k -> parent k <> Some p;
  t_init : forall i k, ini = Some i -> l !! i = Some k -> parent k = None;
  t_bounds : 0 < npid < 2 ^ 31 /\ 0 <= tk < 2 ^ 31 - 1
}.

(** ** Changes the invariant does not see

    [k'] differs from [k] only in fields outside the invariant, and perhaps in
    having been woken up. *)
Record tame (k k' : proc) : Prop := {
  tm_queueNo : queueNo k' = queueNo k;
  tm_pticks : pticks k' = pticks k;
  tm_pid : pid k' = pid k;
  tm_parent : parent k' = parent k;
  tm_start : start_time k' = start_time k;
  tm_end : end_time k' = end_time k;
  tm_run : run_time k' = run_time k;
  tm_state : state k' = state k \/ (state k = SLEEPING /\ state k' = RUNNABLE);
  tm_chan : chan k' = chan k \/ state k' <> SLEEPING
}.

Lemma tame_refl k : tame k k.
Proof. split; auto. Qed.

Lemma tame_state_iff k k' st :
  tame k k' -> st <> SLEEPING -> st <> RUNNABLE -> state k' = st <-> state k = st.
Proof. intros [_ _ _ _ _ _ _ [H|[H1 H2]] _] ? ?; [by rewrite H|]. rewrite H1, H2. naive_solver. Qed.

Lemma tame_sleeping k k' : tame k k' -> state k' = SLEEPING -> state k = SLEEPING /\ chan k' = chan k.
Proof. intros [_ _ _ _ _ _ _ [H|[H1 H2]] [Hc|Hc]] Hs; split; congruence. Qed.

Definition tame_list (l l' : list proc) : Prop := Forall2 tame l l'.

Lemma tame_list_refl l : tame_list l l.
Proof. induction l; constructor; auto using tame_refl. Qed.

Lemma tame_list_lookup l l' p k' :
  tame_list l l' -> l' !! p = Some k' -> exists k, l !! p = Some k /\ tame k k'.
Proof. intros H Hk. destruct (Forall2_lookup_r _ _ _ _ _ H Hk) as (k & ? & ?). eauto. Qed.

Lemma tame_list_map f l : (forall k, tame k (f k)) -> tame_list l (map f l).
Proof. intros H. induction l; cbn; constructor; auto. Qed.

Lemma tame_list_alter f p l : (forall k, l !! p = Some k -> tame k (f k)) -> tame_list l (alter f p l).
Proof.
  revert p. induction l as [|k l IH]; intros [|p] H; cbn.
  - constructor.
  - constructor.
  - constructor; [by apply H|apply tame_list_refl].
  - constructor; [apply tame_refl|]. apply IH. intros k0 Hk0. by apply H.
Qed.

Lemma tame_time_ok tk pend k k' : tame k k' -> state k <> UNUSED -> time_ok tk pend k -> time_ok tk pend k'.
Proof.
  intros Ht Hu. destruct (Ht) as [_ _ Hp _ Hs He Hr _ _]. unfold time_ok. rewrite Hp, Hs, He, Hr.
  assert (stateb ZOMBIE k' = stateb ZOMBIE k) as ->; [|done].
  unfold stateb. apply bool_decide_ext. by apply (tame_state_iff k k' ZOMBIE Ht).
Qed.

Lemma tinv_tame pol ini l l' npid tk pend q :
  tame_list l l' -> tinv pol ini l npid tk pend q -> tinv pol ini l' npid tk pend q.
Proof.
  intros Ht [Hlen (ls & Hq & Hok & Hpol & Hrun) Hproc Hpid Hinj Htime Hwait Hpar Hini Hb]. split.
  - by rewrite <- (Forall2_length _ _ _ Ht).
  - exists ls. split_and!; try done. intros p k' Hk' Hs.
    destruct (tame_list_lookup _ _ _ _ Ht Hk') as (k & Hk & Htk). apply (Hrun p k Hk).
    by apply (tame_state_iff k k' RUNNING Htk).
  - intros p k' Hk'. destruct (tame_list_lookup _ _ _ _ Ht Hk') as (k & Hk & Htk).
    rewrite (tm_queueNo _ _ Htk), (tm_pticks _ _ Htk). eauto.
  - intros p k' Hk'. destruct (tame_list_lookup _ _ _ _ Ht Hk') as (k & Hk & Htk).
    rewrite (tm_pid _ _ Htk). eauto.
  - intros p1 p2 k1' k2' H1' H2'. destruct (tame_list_lookup _ _ _ _ Ht H1') as (k1 & H1 & Ht1).
    destruct (tame_list_lookup _ _ _ _ Ht H2') as (k2 & H2 & Ht2).
    rewrite (tm_pid _ _ Ht1), (tm_pid _ _ Ht2). eauto.
  - intros p k' Hk' Hu. destruct (tame_list_lookup _ _ _ _ Ht Hk') as (k & Hk & Htk).
    assert (state k <> UNUSED) by (intros Hc; apply Hu; by apply (tame_state_iff k k' UNUSED Htk)).
    eauto using tame_time_ok.
  - intros p k' j Hk' Hs Hc. destruct (tame_list_lookup _ _ _ _ Ht Hk') as (k & Hk & Htk).
    destruct (tame_sleeping _ _ Htk Hs) as [Hs0 Hc0]. rewrite Hc0 in Hc.
    destruct (Hwait p k j Hk Hs0 Hc) as [-> Hz]. split; [done|]. intros r kr' Hr' Hpr.
    destruct (tame_list_lookup _ _ _ _ Ht Hr') as (kr & Hr & Htr).
    rewrite (tm_parent _ _ Htr) in Hpr. intros Hzz. apply (Hz r kr Hr Hpr).
    by apply (tame_state_iff kr kr' ZOMBIE Htr).
  - intros p k' Hk'. destruct (tame_list_lookup _ _ _ _ Ht Hk') as (k & Hk & Htk).
    rewrite (tm_parent _ _ Htk). eauto.
  - intros i k' Hi Hk'. destruct (tame_list_lookup _ _ _ _ Ht Hk') as (k & Hk & Htk).
    rewrite (tm_parent _ _ Htk). eauto.
  - done.
Qed.

(** ** Changing one entry *)

Definition queues_inv (pol : policy) (l : list proc) (q : mlfq) : Prop :=
  exists ls, mlfq_abs q ls /\ queues_ok ls /\ (pol <> MLFQ -> concat ls = []) /\
    (forall p k, l !! p = Some k -> state k = RUNNING -> p ∉ concat ls).

(** Entry [r] sleeps for its children. *)
Definition waiting (l : list proc) (r : nat) : Prop :=
  exists kr, l !! r = Some kr /\ state kr = SLEEPING /\ chan kr = Some (ChProc r).

Lemma lookup_insert_cases {A} (l : list A) p x r y :
  (<[p := x]> l) !! r = Some y -> (r = p /\ y = x) \/ (r <> p /\ l !! r = Some y).
Proof.
  intros H. destruct (decide (r = p)) as [->|Hne].
  - left. apply list_lookup_insert_Some in H as [(_ & -> & _)|[Hc _]]; done.
  - right. by rewrite list_lookup_insert_ne in H.
Qed.

Lemma tinv_insert pol ini l npid npid' tk pend q q' p k k' :
  tinv pol ini l npid tk pend q -> l !! p = Some k ->
  queues_inv pol (<[p := k']> l) q' ->
  0 <= queueNo k' <= 4 -> length (pticks k') = 5%nat ->
  npid <= npid' < 2 ^ 31 -> 0 <= pid k' < npid' ->
  (forall r kr, r <> p -> l !! r = Some kr -> pid kr = pid k' -> pid k' = 0) ->
  (state k' <> UNUSED -> time_ok tk pend k') ->
  (forall j, state k' = SLEEPING -> chan k' = Some (ChProc j) ->
     j = p /\ forall r kr, l !! r = Some kr -> parent kr = Some p -> state kr <> ZOMBIE) ->
  (state k' = ZOMBIE -> forall r, parent k' = Some r -> r <> p -> ~ waiting l r) ->
  parent k' <> Some p -> (ini = Some p -> parent k' = None) ->
  tinv pol ini (<[p := k']> l) npid' tk pend q'.
Proof.
  intros [Hlen _ Hproc Hpid Hinj Htime Hwait Hpar Hini Hb] Hk Hq Hqn Hpt Hnp Hp Hfresh Htk Hsl Hz Hpp Hpi.
  split; [by rewrite length_insert|exact Hq|..].
  - intros r kr [[-> ->]|[_ Hr]]%lookup_insert_cases; eauto.
  - intros r kr [[-> ->]|[_ Hr]]%lookup_insert_cases; [done|]. specialize (Hpid r kr Hr). lia.
  - intros r1 r2 k1 k2 H1 H2 Heq H0.
    apply lookup_insert_cases in H1 as [[-> ->]|[Hn1 H1]], H2 as [[-> ->]|[Hn2 H2]]; eauto.
    + exfalso. apply H0. eapply Hfresh; eauto.
    + exfalso. apply H0. rewrite Heq. eapply Hfresh; eauto.
  - intros r kr [[-> ->]|[_ Hr]]%lookup_insert_cases; eauto.
  - intros r kr j [[-> ->]|[Hne Hr]]%lookup_insert_cases Hs Hc.
    + destruct (Hsl j Hs Hc) as [-> Hnz]. split; [done|].
      intros r2 k2 [[-> ->]|[_ H2]]%lookup_insert_cases Hpr; [congruence|eauto].
    + destruct (Hwait r kr j Hr Hs Hc) as [-> Hnz]. split; [done|].
      intros r2 k2 [[-> ->]|[_ H2]]%lookup_insert_cases Hpr; [|eauto].
      intros Hzz. apply (Hz Hzz r Hpr Hne). exists kr. eauto.
  - intros r kr [[-> ->]|[_ Hr]]%lookup_insert_cases; eauto.
  - intros i kr Hi [[-> ->]|[_ Hr]]%lookup_insert_cases; eauto.
  - lia.
Qed.

Lemma tinv_queues pol ini l npid tk pend q : tinv pol ini l npid tk pend q -> queues_inv pol l q.
Proof. intros H. exact (t_queues _ _ _ _ _ _ _ H). Qed.

(** A change that keeps every process that was not RUNNING so keeps the queues. *)
Lemma queues_inv_insert pol l q p k' :
  queues_inv pol l q -> state k' <> RUNNING -> queues_inv pol (<[p := k']> l) q.
Proof.
  intros (ls & Hq & Hok & Hpol & Hrun) Hs. exists ls. split_and!; try done.
  intros r kr [[-> ->]|[_ Hr]]%lookup_insert_cases; [done|eauto].
Qed.

(** Adding process [p], which is not RUNNING, to queue [i] by [push]. *)
Lemma queues_inv_push l s i p :
  queues_inv MLFQ l (mq s) -> length (procs s) = 64%nat -> (i < NQUEUE)%nat -> (p < 64)%nat ->
  (forall k, l !! p = Some k -> state k <> RUNNING) ->
  exists b q', push (Z.of_nat i) p s = Ret tt (pushed b p q' s) /\ queues_inv MLFQ l q'.
Proof.
  intros (ls & Hq & Hok & Hpol & Hrun) Hlen Hi Hlt Hp.
  destruct (push_abs s ls i p Hq Hi ltac:(lia)) as (q' & Hrun' & Habs & _).
  exists (spec_enqueues ls i p), q'. split; [done|].
  exists (spec_push ls i p). split_and!; [done|by apply queues_ok_push|done|].
  intros r kr Hr Hs Hin. apply (Hrun r kr Hr Hs). unfold spec_push in Hin.
  destruct (spec_enqueues ls i p); [|done].
  rewrite concat_snoc in Hin by (destruct Hok as [-> _]; done).
  apply elem_of_cons in Hin as [->|Hin]; [|done]. by destruct (Hp kr Hr).
Qed.

(** The fields of the invariant that a change of state leaves alone. *)
Record same_ids (k k' : proc) : Prop := {
  si_pticks : pticks k' = pticks k;
  si_pid : pid k' = pid k;
  si_parent : parent k' = parent k;
  si_start : start_time k' = start_time k;
  si_end : end_time k' = end_time k;
  si_run : run_time k' = run_time k
}.

Lemma time_ok_same tk pend k k' :
  same_ids k k' -> state k <> ZOMBIE -> state k' <> ZOMBIE -> time_ok tk pend k -> time_ok tk pend k'.
Proof.
  intros [_ Hp _ Hs He Hr] Hz Hz'. unfold time_ok, stateb.
  rewrite !bool_decide_eq_false_2 by done. by rewrite Hp, Hs, Hr.
Qed.

(** A change of state between two states other than UNUSED and ZOMBIE. *)
Lemma tinv_restate pol ini l npid tk pend q q' p k k' :
  tinv pol ini l npid tk pend q -> l !! p = Some k -> same_ids k k' ->
  state k <> UNUSED -> state k <> ZOMBIE -> state k' <> ZOMBIE ->
  0 <= queueNo k' <= 4 -> queues_inv pol (<[p := k']> l) q' ->
  (forall j, state k' = SLEEPING -> chan k' = Some (ChProc j) ->
     j = p /\ forall r kr, l !! r = Some kr -> parent kr = Some p -> state kr <> ZOMBIE) ->
  tinv pol ini (<[p := k']> l) npid tk pend q'.
Proof.
  intros Hinv Hk Hsame Hu Hz Hz' Hqn Hq Hsl. destruct (t_bounds _ _ _ _ _ _ _ Hinv) as [Hb _].
  destruct (t_proc _ _ _ _ _ _ _ Hinv p k Hk) as [_ Hpt].
  pose proof (t_pid _ _ _ _ _ _ _ Hinv p k Hk) as Hp.
  eapply tinv_insert; try done.
  - by rewrite (si_pticks _ _ Hsame).
  - lia.
  - by rewrite (si_pid _ _ Hsame).
  - intros r kr Hne Hr Heq. rewrite (si_pid _ _ Hsame) in *.
    destruct (decide (pid k = 0)); [done|]. exfalso. apply Hne.
    eapply (t_pid_inj _ _ _ _ _ _ _ Hinv r p kr k); try done. by rewrite Heq.
  - intros _. eapply time_ok_same; try done. by eapply (t_time _ _ _ _ _ _ _ Hinv).
  - rewrite (si_parent _ _ Hsame). by eapply (t_parent _ _ _ _ _ _ _ Hinv).
  - rewrite (si_parent _ _ Hsame). intros Hi. by eapply (t_init _ _ _ _ _ _ _ Hinv).
Qed.

(** ** exit *)

Lemma exited_self_eq p s k :
  procs s !! p = Some k -> state k = RUNNING -> parent k <> Some p ->
  exited p s k !! p = Some (k <| end_time := s32 (ticks s) |> <| state := ZOMBIE |>).
Proof.
  intros Hk Hs Hp. unfold exited. rewrite list_lookup_alter_eq. unfold adopted.
  rewrite list_lookup_imap, list_lookup_fmap, Hk. cbn [fmap option_fmap option_map]. f_equal.
  assert (Hw : forall ch, wake ch k = k).
  { intros ch. unfold wake, stateb. by rewrite bool_decide_eq_false_2 by congruence. }
  assert (Ha : forall ini, adopt p ini k = k).
  { intros ini. unfold adopt, is_child. by rewrite bool_decide_eq_false_2. }
  unfold adopted_at. rewrite Hw. destruct (bool_decide _), (existsb _ _); by rewrite ?Ha, ?Hw.
Qed.

(** Where an entry of the table after [exit] comes from. *)
Lemma exited_inv p s k r kr' :
  procs s !! p = Some k -> state k = RUNNING -> parent k <> Some p ->
  exited p s k !! r = Some kr' ->
  (r = p /\ kr' = k <| end_time := s32 (ticks s) |> <| state := ZOMBIE |>) \/
  (r <> p /\ exists kr, procs s !! r = Some kr /\
     kr' = exit_other p (initproc s) (exit_wakes p s k kr) kr).
Proof.
  intros Hk Hs Hp Hr. destruct (decide (r = p)) as [->|Hne].
  - left. rewrite exited_self_eq in Hr by done. by injection Hr as <-.
  - right. split; [done|]. pose proof (lookup_lt_Some _ _ _ Hr) as Hlt.
    rewrite exited_length in Hlt. destruct (lookup_lt_is_Some_2 _ _ Hlt) as [kr Hkr].
    exists kr. split; [done|]. rewrite (exited_other_eq _ _ _ _ _ Hne Hkr) in Hr. by injection Hr as <-.
Qed.

(** The fields [exit] leaves alone in another process. *)
Lemma adopted_woken_fields p ini (b : bool) kr :
  let k' := exit_other p ini b kr in
  pticks k' = pticks kr /\ pid k' = pid kr /\ start_time k' = start_time kr /\
  end_time k' = end_time kr /\ run_time k' = run_time kr /\ queueNo k' = queueNo kr /\ chan k' = chan kr /\
  parent k' = (if is_child p kr then ini else parent kr) /\
  state k' = (if b then RUNNABLE else state kr).
Proof. unfold exit_other, adopt. by destruct b, (is_child p kr). Qed.

Lemma tinv_exit pol p s k pend :
  tinv pol (initproc s) (procs s) (nextpid s) (ticks s) pend (mq s) ->
  procs s !! p = Some k -> state k = RUNNING -> initproc s <> Some p ->
  tinv pol (initproc s) (exited p s k) (nextpid s) (ticks s) pend (mq s).
Proof.
  intros Hinv Hk Hs Hip. pose proof (t_parent _ _ _ _ _ _ _ Hinv p k Hk) as Hpp.
  destruct Hinv as [Hlen (ls & Hq & Hok & Hpol & Hrun) Hproc Hpid Hinj Htime Hwait Hpar Hini Hb].
  assert (Hex := fun r kr' => exited_inv p s k r kr' Hk Hs Hpp).
  assert (Hpid' : forall r kr', exited p s k !! r = Some kr' -> exists kr, procs s !! r = Some kr /\
    pid kr' = pid kr /\ queueNo kr' = queueNo kr /\ pticks kr' = pticks kr).
  { intros r kr' [[-> ->]|(Hne & kr & Hr & ->)]%Hex; [by exists k|]. exists kr.
    destruct (adopted_woken_fields p (initproc s) (exit_wakes p s k kr) kr)
      as (H1 & H2 & _ & _ & _ & H6 & _). by split_and!. }
  split.
  - by rewrite exited_length.
  - exists ls. split_and!; try done. intros r kr' [[-> ->]|(Hne & kr & Hr & ->)]%Hex Hst; [done|].
    apply (Hrun r kr Hr).
    destruct (adopted_woken_fields p (initproc s) (exit_wakes p s k kr) kr) as (_ & _ & _ & _ & _ & _ & _ & _ & H).
    rewrite H in Hst. by destruct (exit_wakes p s k kr).
  - intros r kr' (kr & Hr & _ & -> & ->)%Hpid'. eauto.
  - intros r kr' (kr & Hr & -> & _)%Hpid'. eauto.
  - intros r1 r2 k1' k2' (k1 & H1 & -> & _)%Hpid' (k2 & H2 & -> & _)%Hpid'. eauto.
  - intros r kr' [[-> ->]|(Hne & kr & Hr & ->)]%Hex Hu.
    + destruct (Htime p k Hk ltac:(congruence)) as (H0 & H1 & H2). unfold time_ok in *.
      unfold stateb in *. rewrite bool_decide_eq_false_2 in H2 by congruence.
      rewrite bool_decide_eq_true_2 by done. cbn. rewrite s32_small by lia.
      unfold done_ticks in *. destruct pend; lia.
    + destruct (adopted_woken_fields p (initproc s) (exit_wakes p s k kr) kr)
        as (_ & F0 & F1 & F2 & F3 & _ & _ & _ & F4).
      set (k' := exit_other _ _ _ kr) in *.
      assert (Hz : stateb ZOMBIE k' = stateb ZOMBIE kr /\ state kr <> UNUSED).
      { unfold stateb. rewrite F4 in *. unfold exit_wakes, stateb in *.
        destruct (bool_decide (state kr = SLEEPING)) eqn:E; [|done].
        apply bool_decide_eq_true in E. rewrite E. by destruct (_ || _). }
      destruct Hz as [Hz Hu']. unfold time_ok. rewrite Hz, F0, F1, F2, F3. by apply (Htime r kr Hr).
  - intros r kr' j [[-> ->]|(Hne & kr & Hr & ->)]%Hex; [done|].
    destruct (adopted_woken_fields p (initproc s) (exit_wakes p s k kr) kr)
      as (_ & _ & _ & _ & _ & _ & Fc & _ & Fs). rewrite Fc, Fs. intros Hst Hc.
    destruct (exit_wakes p s k kr) eqn:Hw; [done|].
    destruct (Hwait r kr j Hr Hst Hc) as [-> Hnz]. split; [done|].
    intros z kz' [[-> ->]|(Hnz' & kz & Hz & ->)]%Hex.
    + (* the exiting process wakes its parent *)
      cbn. intros Hpr _. unfold exit_wakes in Hw. unfold stateb in Hw.
      rewrite Hpr, Hc, !bool_decide_eq_true_2 in Hw by done. done.
    + destruct (adopted_woken_fields p (initproc s) (exit_wakes p s k kz) kz)
        as (_ & _ & _ & _ & _ & _ & _ & Fp & Fz). rewrite Fp, Fz.
      destruct (exit_wakes p s k kz) eqn:Hwz; [done|].
      destruct (is_child p kz) eqn:Hch; [|by apply (Hnz z)].
      (* a ZOMBIE handed to init wakes init *)
      intros Hi Hzz. unfold exit_wakes, stateb in Hw.
      assert (Hex' : existsb (zombie_child p) (procs s) = true).
      { apply existsb_exists. exists kz. split; [by apply list_elem_of_In, (list_elem_of_lookup_2 _ z)|].
        unfold zombie_child. rewrite Hch. by apply bool_decide_eq_true. }
      rewrite Hex', (bool_decide_eq_true_2 _ Hst) in Hw.
      rewrite (bool_decide_eq_true_2 (chan kr = ChProc <$> initproc s)), orb_true_r in Hw; [done|].
      by rewrite Hi, Hc.
  - intros r kr' [[-> ->]|(Hne & kr & Hr & ->)]%Hex; [done|].
    destruct (adopted_woken_fields p (initproc s) (exit_wakes p s k kr) kr) as (_ & _ & _ & _ & _ & _ & _ & Fp & _).
    rewrite Fp. destruct (is_child p kr) eqn:Hch; [|by apply (Hpar r)].
    intros Hi. pose proof (Hini r kr Hi Hr) as Hn. unfold is_child in Hch.
    apply bool_decide_eq_true in Hch. congruence.
  - intros i ki' Hi [[-> ->]|(Hne & ki & Hki & ->)]%Hex; [done|].
    destruct (adopted_woken_fields p (initproc s) (exit_wakes p s k ki) ki) as (_ & _ & _ & _ & _ & _ & _ & Fp & _).
    rewrite Fp. pose proof (Hini i ki Hi Hki) as Hn. unfold is_child. by rewrite bool_decide_eq_false_2 by congruence.
  - done.
Qed.

(** ** wait, allocproc, fork *)

Lemma tinv_freed pol ini l npid tk pend q z kz :
  tinv pol ini l npid tk pend q -> l !! z = Some kz -> state kz = ZOMBIE ->
  tinv pol ini (<[z := freed kz]> l) npid tk pend q.
Proof.
  intros Hinv Hz Hs. destruct (t_bounds _ _ _ _ _ _ _ Hinv) as [Hb _].
  destruct (t_proc _ _ _ _ _ _ _ Hinv z kz Hz) as [? ?].
  eapply tinv_insert; try done.
  - apply queues_inv_insert; [by eapply tinv_queues|done].
  - lia.
  - cbn. lia.
Qed.

(** A slot that [allocproc] takes: its new pid is used by nobody else. *)
Lemma tinv_alloc pol ini l npid tk pend q q' p k :
  tinv pol ini l npid tk pend q -> l !! p = Some k -> npid < 2 ^ 31 - 1 ->
  queues_inv pol (<[p := init_proc npid tk k]> l) q' ->
  tinv pol ini (<[p := init_proc npid tk k]> l) (s32 (npid + 1)) tk pend q'.
Proof.
  intros Hinv Hk Hn Hq. destruct (t_bounds _ _ _ _ _ _ _ Hinv) as [Hb Ht].
  rewrite s32_small by lia. eapply tinv_insert; try done.
  - lia.
  - cbn. lia.
  - cbn. intros r kr Hne Hr Heq. pose proof (t_pid _ _ _ _ _ _ _ Hinv r kr Hr). lia.
  - intros _. unfold time_ok, stateb. rewrite bool_decide_eq_false_2 by done.
    cbn [run_time start_time init_proc setf]. change (run_time (init_proc npid tk k)) with 0.
    change (start_time (init_proc npid tk k)) with (s32 tk). change (pid (init_proc npid tk k)) with npid. rewrite s32_small by lia.
    unfold done_ticks. destruct pend; lia.
  - cbn. by eapply (t_parent _ _ _ _ _ _ _ Hinv).
  - cbn. intros Hi. by eapply (t_init _ _ _ _ _ _ _ Hinv).
Qed.

(** What the creator of an EMBRYO process may do to it: everything but touch the
    fields of the invariant; it gives it a parent other than itself. *)
Record embryo_write (ini : option nat) (np : nat) (k k' : proc) : Prop := {
  ew_pticks : pticks k' = pticks k;
  ew_queueNo : queueNo k' = queueNo k;
  ew_pid : pid k' = pid k;
  ew_start : start_time k' = start_time k;
  ew_run : run_time k' = run_time k;
  ew_state : state k' = EMBRYO \/ state k' = UNUSED;
  ew_parent : parent k' = parent k \/ (parent k' <> Some np /\ ini <> Some np)
}.

Lemma tinv_embryo pol ini l npid tk pend q np k k' :
  tinv pol ini l npid tk pend q -> l !! np = Some k -> state k = EMBRYO ->
  embryo_write ini np k k' -> tinv pol ini (<[np := k']> l) npid tk pend q.
Proof.
  intros Hinv Hk Hs [H1 H2 H3 H4 H5 H6 H7]. destruct (t_bounds _ _ _ _ _ _ _ Hinv) as [Hb _].
  destruct (t_proc _ _ _ _ _ _ _ Hinv np k Hk) as [Hqn Hpt].
  pose proof (t_parent _ _ _ _ _ _ _ Hinv np k Hk) as Hpar.
  eapply tinv_insert; try done; rewrite ?H1, ?H2, ?H3; try done.
  - apply queues_inv_insert; [by eapply tinv_queues|]. destruct H6; congruence.
  - lia.
  - by eapply (t_pid _ _ _ _ _ _ _ Hinv).
  - intros r kr Hne Hr Heq. destruct (decide (pid k = 0)); [done|]. exfalso. apply Hne.
    eapply (t_pid_inj _ _ _ _ _ _ _ Hinv r np kr k); try done. by rewrite Heq.
  - intros Hu. assert (He : state k' = EMBRYO) by tauto.
    destruct (t_time _ _ _ _ _ _ _ Hinv np k Hk ltac:(congruence)) as (T1 & T2 & T3).
    unfold time_ok, stateb in *. rewrite H3, H4, H5, He. rewrite Hs in T3. done.
  - intros j Hc. destruct H6; congruence.
  - intros Hc. destruct H6; congruence.
  - destruct H7 as [->|[? _]]; done.
  - intros Hi. destruct H7 as [->|[_ ?]]; [|done]. by eapply (t_init _ _ _ _ _ _ _ Hinv).
Qed.

(** ** modify_times *)

(** The loop of [modify_times] after [n] entries: those to come have not been
    charged for this tick yet. *)
Record charging (pol : policy) (s0 : pstate) (n : nat) (s : pstate) : Prop := {
  ch_inv : tinv pol (initproc s0) (procs s) (nextpid s0) (ticks s0) false (mq s);
  ch_todo : forall i k, (n <= i)%nat -> procs s !! i = Some k -> state k = RUNNING ->
    run_time k <= ticks s0 - start_time k;
  ch_frame : s = s0 <| procs := procs s |> <| mq := mq s |>;
  ch_states : state <$> procs s = state <$> procs s0
}.

(** The entry [p] after its tick, without the queues. *)
Lemma charging_insert pol s0 p s k k' q' :
  charging pol s0 p s -> procs s !! p = Some k ->
  pticks k' = pticks k \/ (exists i v, pticks k' = aset (pticks k) i v) ->
  pid k' = pid k -> parent k' = parent k -> start_time k' = start_time k -> end_time k' = end_time k ->
  run_time k' = (if stateb RUNNING k then run_time k + 1 else run_time k) ->
  state k' = state k -> chan k' = chan k -> 0 <= queueNo k' <= 4 ->
  queues_inv pol (<[p := k']> (procs s)) q' ->
  charging pol s0 (p + 1) (s <| procs := <[p := k']> (procs s) |> <| mq := q' |>).
Proof.
  intros [Hinv Htodo Hf Hst] Hk Hpt Hpid Hpar Hs He Hr Hstate Hch Hqn Hq.
  destruct (t_bounds _ _ _ _ _ _ _ Hinv) as [Hb Ht].
  destruct (t_proc _ _ _ _ _ _ _ Hinv p k Hk) as [_ Hlen].
  split.
  - cbn. eapply tinv_insert; try done.
    + destruct Hpt as [->|(i & v & ->)]; [done|]. by rewrite aset_length.
    + lia.
    + rewrite Hpid. by eapply (t_pid _ _ _ _ _ _ _ Hinv).
    + intros r kr Hne Hr' Heq. rewrite Hpid in *. destruct (decide (pid k = 0)); [done|]. exfalso. apply Hne.
      eapply (t_pid_inj _ _ _ _ _ _ _ Hinv r p kr k); try done. by rewrite Heq.
    + intros Hu. rewrite Hstate in Hu.
      destruct (t_time _ _ _ _ _ _ _ Hinv p k Hk Hu) as (T1 & T2 & T3).
      specialize (Htodo p k ltac:(lia) Hk). unfold time_ok. rewrite Hr, Hs, He, Hpid.
      unfold stateb in *. rewrite Hstate. cbn [done_ticks] in *.
      destruct (bool_decide (state k = RUNNING)) eqn:E.
      * apply bool_decide_eq_true in E. specialize (Htodo E). rewrite E in *.
        rewrite bool_decide_eq_false_2 in * by done. lia.
      * done.
    + rewrite Hstate, Hch. intros j. by eapply (t_wait _ _ _ _ _ _ _ Hinv).
    + rewrite Hstate, Hpar. intros Hz r Hpr Hne (kr & Hkr & Hrs & Hrc).
      destruct (t_wait _ _ _ _ _ _ _ Hinv r kr r Hkr Hrs Hrc) as [_ Hnz]. by apply (Hnz p k).
    + rewrite Hpar. by eapply (t_parent _ _ _ _ _ _ _ Hinv).
    + rewrite Hpar. intros Hi. exact (t_init _ _ _ _ _ _ _ Hinv p k Hi Hk).
  - cbn. intros i ki Hi [[-> ->]|[_ Hki]]%lookup_insert_cases; [lia|]. intros Hrk. apply (Htodo i ki); [lia|done..].
  - by rewrite Hf at 1.
  - cbn. rewrite list_fmap_insert, Hstate, Hst. apply list_insert_id.
    rewrite <- Hst, list_lookup_fmap, Hk. done.
Qed.

Lemma charging_length pol s0 n s : charging pol s0 n s -> length (procs s) = 64%nat.
Proof. intros H. exact (t_len _ _ _ _ _ _ _ (ch_inv _ _ _ _ H)). Qed.

Lemma queues_inv_same_state pol l q p k k' :
  queues_inv pol l q -> l !! p = Some k -> state k' = state k -> queues_inv pol (<[p := k']> l) q.
Proof.
  intros (ls & Hq & Hok & Hpol & Hrun) Hk Hs. exists ls. split_and!; try done.
  intros r kr [[-> ->]|[_ Hr]]%lookup_insert_cases Hrs; [apply (Hrun p k); congruence|eauto].
Qed.

(** The whole change to entry [p] as one update, the queues untouched. *)
Lemma charging_alter pol s0 p s k f :
  charging pol s0 p s -> procs s !! p = Some k ->
  pticks (f k) = pticks k \/ (exists i v, pticks (f k) = aset (pticks k) i v) ->
  pid (f k) = pid k -> parent (f k) = parent k -> start_time (f k) = start_time k ->
  end_time (f k) = end_time k ->
  run_time (f k) = (if stateb RUNNING k then run_time k + 1 else run_time k) ->
  state (f k) = state k -> chan (f k) = chan k -> 0 <= queueNo (f k) <= 4 ->
  charging pol s0 (p + 1) (s <| procs ::= alter f p |>).
Proof.
  intros Hc Hk. intros.
  assert (E : s <| procs ::= alter f p |> = s <| procs := <[p := f k]> (procs s) |> <| mq := mq s |>).
  { unfold setf at 1. rewrite (list_alter_insert _ _ _ _ Hk). by destruct s. }
  rewrite E. eapply charging_insert; try done.
  eapply queues_inv_same_state; [|done|done]. exact (tinv_queues _ _ _ _ _ _ _ (ch_inv _ _ _ _ Hc)).
Qed.

(** A RUNNING process can be charged without overflow. *)
Lemma charging_run pol s0 p s k :
  charging pol s0 p s -> procs s !! p = Some k -> state k = RUNNING ->
  s32 (run_time k + 1) = run_time k + 1.
Proof.
  intros Hc Hk Hs. pose proof (ch_inv _ _ _ _ Hc) as Hinv.
  pose proof (ch_todo _ _ _ _ Hc p k ltac:(lia) Hk Hs) as Htodo.
  destruct (t_bounds _ _ _ _ _ _ _ Hinv) as [_ Htk].
  destruct (t_time _ _ _ _ _ _ _ Hinv p k Hk ltac:(congruence)) as (T1 & T2 & _).
  apply s32_small. lia.
Qed.

(** Aging: the process moves one queue up in [queueNo] and is pushed there. *)
Lemma aged_push s0 p s k f :
  charging MLFQ s0 p s -> procs s !! p = Some k -> stateb RUNNING k = false ->
  0 < queueNo k <= 4 ->
  f k = k <| queueNo := s32 (queueNo k - 1) |> <| cur_time := 0 |> <| wait_time := 0 |> ->
  wp (k0 ← get_proc p; push (queueNo k0) p)
     (fun _ s' => charging MLFQ s0 (p + 1) s') (s <| procs ::= alter f p |>).
Proof.
  intros Hc Hk Hrun Hqn Hf. set (s1 := s <| procs ::= alter f p |>).
  assert (Hk1 : procs s1 !! p = Some (f k)) by (cbn; by rewrite list_lookup_alter_eq, Hk).
  apply wp_bind. eapply wp_intro; [by apply get_proc_ok|].
  assert (Hq : queueNo (f k) = Z.of_nat (Z.to_nat (queueNo k - 1))).
  { rewrite Hf. cbn. rewrite s32_small; lia. }
  pose proof (charging_length _ _ _ _ Hc) as Hlen. pose proof (lookup_lt_Some _ _ _ Hk) as Hlt.
  assert (Hns : state (f k) <> RUNNING) by (rewrite Hf; by apply bool_decide_eq_false in Hrun).
  destruct (queues_inv_push (<[p := f k]> (procs s)) s1 (Z.to_nat (queueNo k - 1)) p) as (b & q' & Hpush & Hq').
  - apply queues_inv_insert; [exact (tinv_queues _ _ _ _ _ _ _ (ch_inv _ _ _ _ Hc))|done].
  - cbn. by rewrite length_alter.
  - unfold NQUEUE. lia.
  - lia.
  - rewrite list_lookup_insert_eq by done. by intros ? [= <-].
  - rewrite Hq. eapply wp_intro; [exact Hpush|].
    rewrite (pushed_fresh _ _ _ _ (f k) Hk1) by (by rewrite Hf).
    assert (E : s1 <| mq := q' |> = s <| procs := <[p := f k]> (procs s) |> <| mq := q' |>).
    { unfold s1, setf at 2. by rewrite (list_alter_insert _ _ _ _ Hk). }
    rewrite E. eapply charging_insert; try done; rewrite Hf; try done; [by left|cbn; by rewrite Hrun|].
    cbn. rewrite s32_small; lia.
Qed.

(** One entry. *)
Lemma tick_proc_ok pol s0 p s :
  (p < 64)%nat -> charging pol s0 p s ->
  wp (tick_proc pol p) (fun _ s' => charging pol s0 (p + 1) s') s.
Proof.
  intros Hp Hc. pose proof (charging_length _ _ _ _ Hc) as Hlen. pose proof (ch_inv _ _ _ _ Hc) as Hinv.
  destruct (lookup_lt_is_Some_2 (procs s) p ltac:(lia)) as [k Hk].
  destruct (t_proc _ _ _ _ _ _ _ Hinv p k Hk) as [Hqn Hpt].
  unfold tick_proc. apply wp_bind. eapply wp_intro; [by apply get_proc_ok|].
  destruct (stateb RUNNING k) eqn:Hrun.
  - pose proof (bool_decide_eq_true_1 _ Hrun) as Hs. pose proof (charging_run _ _ _ _ _ Hc Hk Hs) as Hrt.
    apply wp_bind. eapply wp_intro; [by eapply upd_proc_ok|].
    assert (Hsimple : charging pol s0 (p + 1) (s <| procs ::= alter (fun k => k <| run_time ::= fun t => s32 (t + 1) |>) p |>)).
    { eapply charging_alter; try done; [by left|]. cbn. by rewrite Hrun. }
    destruct pol; try exact Hsimple. clear Hsimple.
    destruct (aget_is_Some (pticks k) (queueNo k) ltac:(lia)) as [t Ht].
    apply wp_bind, (wp_deref _ t); [done|].
    eapply wp_intro; [eapply upd_proc_ok; cbn; by rewrite list_lookup_alter_eq, Hk|].
    rewrite procs_alter_alter. eapply charging_alter; try done; [right; eauto|]. cbn. by rewrite Hrun.
  - apply wp_bind. eapply wp_intro; [by eapply upd_proc_ok|].
    assert (Hsimple : charging pol s0 (p + 1) (s <| procs ::= alter (fun k => k <| wait_time ::= fun t => s32 (t + 1) |>) p |>)).
    { eapply charging_alter; try done; [by left|]. cbn. by rewrite Hrun. }
    destruct pol; try exact Hsimple.
    apply wp_bind. eapply wp_intro; [eapply get_proc_ok; cbn; by rewrite list_lookup_alter_eq, Hk|].
    cbn [queueNo wait_time setf]. change (queueNo (k <| wait_time ::= fun t => s32 (t + 1) |>)) with (queueNo k).
    destruct (negb (queueNo k =? 0) && _) eqn:Hage; [|exact Hsimple]. clear Hsimple.
    apply andb_prop in Hage as [Hq0 _].
    apply wp_bind. eapply wp_intro; [eapply upd_proc_ok; cbn; by rewrite list_lookup_alter_eq, Hk|].
    rewrite procs_alter_alter. eapply aged_push; try done. lia.
Qed.

Lemma tick_loop_ok pol s pend :
  tinv pol (initproc s) (procs s) (nextpid s) (ticks s) pend (mq s) -> pend = true ->
  wp (for_each (seq 0 (length (procs s))) (tick_proc pol))
     (fun _ s' => tinv pol (initproc s) (procs s') (nextpid s) (ticks s) false (mq s') /\
        s' = s <| procs := procs s' |> <| mq := mq s' |> /\
        state <$> procs s' = state <$> procs s) s.
Proof.
  intros Hinv ->. pose proof (t_len _ _ _ _ _ _ _ Hinv) as Hlen. rewrite Hlen.
  eapply wp_mono.
  - apply (wp_for_each _ _ (charging pol s)).
    + destruct Hinv as [H1 H2 H3 H4 H5 H6 H7 H8 H9 H10]. split; [split; try done|..].
      * intros p k Hk Hu. destruct (H6 p k Hk Hu) as (T1 & T2 & T3). unfold time_ok, done_ticks in *.
        destruct (stateb ZOMBIE k); lia.
      * intros i k _ Hk Hs. destruct (H6 i k Hk ltac:(congruence)) as (_ & _ & T3).
        unfold stateb in T3. rewrite bool_decide_eq_false_2 in T3 by congruence. unfold done_ticks in T3. lia.
      * by destruct s.
      * done.
    + intros i a s1 [-> Hi]%lookup_seq Hc. by apply tick_proc_ok.
  - intros [] s' [Hc1 _ Hc3 Hc4]. by split_and!.
Qed.

(** ** Waking up and small changes *)

Lemma tame_wake ch k : tame k (wake ch k).
Proof.
  unfold wake. destruct (stateb SLEEPING k && bool_decide (chan k = ch)) eqn:E; [|apply tame_refl].
  apply andb_prop in E as [E%bool_decide_eq_true _]. split; auto.
Qed.

Lemma tame_trans k1 k2 k3 : tame k1 k2 -> tame k2 k3 -> tame k1 k3.
Proof.
  intros [A1 A2 A3 A4 A5 A6 A7 A8 A9] [B1 B2 B3 B4 B5 B6 B7 B8 B9]. split; try congruence.
  - destruct A8 as [A8|[? ?]], B8 as [B8|[? ?]]; (left; congruence) || (right; split; congruence).
  - destruct B9 as [B9|B9]; [|by right]. destruct A9 as [A9|A9]; [left; congruence|].
    right. destruct B8 as [B8|[? ?]]; congruence.
Qed.

Lemma tame_list_trans l1 l2 l3 : tame_list l1 l2 -> tame_list l2 l3 -> tame_list l1 l3.
Proof.
  unfold tame_list. intros H. revert l3. induction H as [|x y l l' Hxy H IH]; intros l3 H3; inversion H3; subst.
  - constructor.
  - constructor; [by eapply tame_trans|by apply IH].
Qed.
