(* ===== verification/Legs.v ===== *)
(** * Legs: the scheduler keeps the table invariant

    One statement for the four policies: a leg of the scheduler either starts a
    process that was RUNNABLE, and is in no queue any more, or leaves the table
    as it was; in both cases the invariant of [Tables] survives. *)

From S2P Require Import Prelude Spinlock Proctab Mlfq Proc Scheduler SchedMlfq ProcSpec Tables.

Definition pinv (pol : policy) (pend : bool) (s : pstate) : Prop :=
  tinv pol (initproc s) (procs s) (nextpid s) (ticks s) pend (mq s).

Lemma same_but_cur_tame l l' : same_but_cur l l' -> tame_list l l'.
Proof.
  intros H. apply Forall2_same_length_lookup_2; [by apply same_but_cur_length|].
  intros i k k' Hk Hk'. destruct (same_but_cur_lookup _ _ _ _ H Hk) as (k2 & Hk2 & Hn). simplify_eq.
  split; try left; by symmetry.
Qed.

(** What a leg does, from the state [s] in which it chose (lock held). *)
Definition leg_post (c : nat) (s : pstate) (r : sched_stop) (s' : pstate) : Prop :=
  match r with
  | SwitchTo p => exists pr q k, tame_list (procs s) pr /\ pr !! p = Some k /\ state k = RUNNABLE /\
      s' = dispatched c p (s <| procs := pr |> <| mq := q |>)
  | Again f _ => f = 0 /\ exists pr q, tame_list (procs s) pr /\
      s' = unlockd c (s <| procs := pr |> <| mq := q |>)
  end.

(** Starting process [p]: [q] no longer holds it. *)
Lemma pinv_dispatched pol pend c p s pr q k :
  pinv pol pend s -> tame_list (procs s) pr -> pr !! p = Some k -> state k = RUNNABLE ->
  queues_inv pol (<[p := k <| state := RUNNING |>]> pr) q ->
  pinv pol pend (dispatched c p (s <| procs := pr |> <| mq := q |>)).
Proof.
  intros Hinv Ht Hk Hs Hq. unfold pinv, dispatched. cbn. rewrite (list_alter_insert _ _ _ _ Hk).
  pose proof (tinv_tame _ _ _ _ _ _ _ _ Ht Hinv) as Hinv'.
  destruct (t_proc _ _ _ _ _ _ _ Hinv' p k Hk) as [Hqn _].
  eapply tinv_restate; try done; congruence.
Qed.

(** The queues of the policies that do not use them. *)
Lemma queues_inv_idle pol l q p k :
  queues_inv pol l q -> pol <> MLFQ -> queues_inv pol (<[p := k]> l) q.
Proof.
  intros (ls & Hq & Hok & Hpol & Hrun) Hne. exists ls. split_and!; try done.
  intros r kr _ _. rewrite (Hpol Hne). set_solver.
Qed.

Section Legs.
Context {E : Type} `{!Services E} `{!SwitchOk E}.

Lemma leg_table pol pend c mp (k k' : kern E) r :
  pol <> MLFQ -> has_lock c (ps k) -> pinv pol pend (ps k) ->
  (forall p, mp = Some p -> runnable_at (procs (ps k)) p = true) ->
  dispatch_or_release c mp k = Ret r k' ->
  leg_post c (ps k) r (ps k') /\ pinv pol pend (ps k').
Proof.
  intros Hpol Hl Hinv Hmp Hrun. apply dispatch_or_release_ps in Hrun; [|done].
  assert (Hid : (ps k) <| procs := procs (ps k) |> <| mq := mq (ps k) |> = ps k) by (by destruct (ps k)).
  destruct mp as [p|]; destruct Hrun as [-> ->].
  - specialize (Hmp p eq_refl). unfold runnable_at in Hmp.
    destruct (procs (ps k) !! p) as [kp|] eqn:Hp; [|done]. apply bool_decide_eq_true in Hmp.
    split.
    + exists (procs (ps k)), (mq (ps k)), kp. rewrite Hid. split_and!; try done. apply tame_list_refl.
    + rewrite <- Hid at 1. eapply pinv_dispatched; try done; [apply tame_list_refl|].
      apply queues_inv_idle; [by eapply tinv_queues|done].
  - split; [|done]. split; [done|]. exists (procs (ps k)), (mq (ps k)). rewrite Hid.
    split; [apply tame_list_refl|done].
Qed.

Lemma rr_next_runnable i l p : rr_next i l = Some p -> runnable_at l p = true.
Proof. by intros (_ & H & _)%rr_next_Some. Qed.

Lemma fcfs_pick_runnable l p : fcfs_pick l = Some p -> runnable_at l p = true.
Proof.
  intros H. pose proof (fcfs_loop l (length l) ltac:(lia)) as Hl. unfold fcfs_pick in H.
  rewrite H in Hl. destruct Hl as (_ & k & Hk & Hr & _). unfold runnable_at. by rewrite Hk.
Qed.

Lemma pbs_pick_runnable i l p : pbs_pick i l = Some p -> runnable_at l p = true.
Proof. intros (k & Hk & Hr & _)%pbs_pick_min. unfold runnable_at. by rewrite Hk. Qed.

(** *** MLFQ *)

Lemma mlfq_finish_start c q (k k' : kern E) kq r :
  procs (ps k) !! q = Some kq -> is_runnable kq = true ->
  mlfq_finish c 1 (Some q) k = Ret r k' ->
  r = SwitchTo q /\
  ps k' = dispatched c q ((ps k) <| procs ::= alter (fun k => k <| wait_time := 0 |>
                                     <| num_run ::= fun n => s32 (n + 1) |>) q |>).
Proof.
  intros Hq Hr Hrun. unfold mlfq_finish in Hrun. cbn [Z.eqb] in Hrun.
  rewrite (bind_ret _ _ k (Some q) k) in Hrun.
  2: { unfold lift. msimp. unfold get_proc. rewrite Hq. msimp. rewrite Hr. by destruct k. }
  minv Hrun. injection Hrun as <- <-. split; [done|].
  apply lift_inv in Hrun0 as [Hup _]. unfold mlfq_account in Hup.
  rewrite (upd_proc_ok _ _ _ _ Hq) in Hup. destruct a0. apply dispatch_ps in Hrun1. rewrite Hrun1.
  injection Hup as <- <-. done.
Qed.

(** What [queues_inv] says after the first RUNNABLE entry [q] of queue [i] has
    been taken out. *)
Lemma queues_inv_taken l l' mq' ls i j row q k :
  queues_ok ls -> (forall p kp, l !! p = Some kp -> state kp = RUNNING -> p ∉ concat ls) ->
  tame_list l l' -> ls !! i = Some row -> row !! j = Some q ->
  mlfq_abs mq' (<[i := drop (S j) row ++ take j row]> ls) ->
  queues_inv MLFQ (<[q := k]> l') mq'.
Proof.
  intros Hok Hrun Ht Hi Hj Habs.
  assert (Hperm : q :: concat (<[i := drop (S j) row ++ take j row]> ls) ≡ₚ concat ls).
  { pose proof (take_drop_middle row j q Hj) as Hrow.
    rewrite (concat_split _ _ _ Hi), insert_take_drop, concat_app by (by eapply lookup_lt_Some).
    cbn [concat]. revert Hrow. generalize (take j row) (drop (S j) row). intros l1 l2 <-.
    solve_Permutation. }
  pose proof Hok as (Hlen & Hnd & Hall). rewrite <- Hperm in Hnd, Hall.
  apply NoDup_cons in Hnd as [Hnin Hnd]. apply Forall_cons in Hall as [_ Hall].
  eexists. split_and!; [exact Habs| |done|].
  - split_and!; [by rewrite length_insert|done|done].
  - intros r kr [[-> ->]|[Hne Hr]]%lookup_insert_cases Hs; [done|].
    destruct (tame_list_lookup _ _ _ _ Ht Hr) as (kr0 & Hr0 & Htr).
    intros Hin. apply (Hrun r kr0 Hr0); [by apply (tame_state_iff kr0 kr RUNNING Htr)|].
    rewrite <- Hperm. by right.
Qed.

Lemma state_eta (s : pstate) pr q : s = s <| mq := q |> <| procs := pr |> ->
  s = s <| procs := pr |> <| mq := q |>.
Proof. by destruct s. Qed.

Lemma tinv_set_queues pol ini l npid tk pend q q' :
  tinv pol ini l npid tk pend q -> queues_inv pol l q' -> tinv pol ini l npid tk pend q'.
Proof. by intros [H1 H2 H3 H4 H5 H6 H7 H8 H9 H10] Hq. Qed.

Lemma queues_inv_tame pol l l' q : tame_list l l' -> queues_inv pol l q -> queues_inv pol l' q.
Proof.
  intros Ht (ls & Hq & Hok & Hpol & Hrun). exists ls. split_and!; try done.
  intros p kp Hp Hs. destruct (tame_list_lookup _ _ _ _ Ht Hp) as (kp0 & Hp0 & Htp).
  apply (Hrun p kp0 Hp0). by apply (tame_state_iff kp0 kp RUNNING Htp).
Qed.

(** Appending processes that are not RUNNING to queue 0. *)
Lemma queues_inv_refilled l l' q ls m :
  (forall p kp, l !! p = Some kp -> state kp = RUNNING -> p ∉ concat ls) ->
  tame_list l l' -> mlfq_abs q (alter (fun x => x ++ m) 0%nat ls) ->
  queues_ok (alter (fun x => x ++ m) 0%nat ls) ->
  (forall x, x ∈ m -> wants_queue l' x = true) ->
  queues_inv MLFQ l' q.
Proof.
  intros Hrun Ht Habs Hok Hm. eexists. split_and!; [exact Habs|exact Hok|done|].
  intros p kp Hp Hs. destruct (tame_list_lookup _ _ _ _ Ht Hp) as (kp0 & Hp0 & Htp).
  rewrite elem_of_concat_alter by (destruct Hok as [Hl _]; rewrite length_alter in Hl; rewrite Hl; unfold NQUEUE; lia).
  intros [Hin|Hin].
  - apply (Hrun p kp0 Hp0); [|done]. by apply (tame_state_iff kp0 kp RUNNING Htp).
  - specialize (Hm p Hin). unfold wants_queue, is_runnable, stateb in Hm. rewrite Hp, Hs in Hm.
    by rewrite orb_true_r in Hm.
Qed.

(** Refilling queue 0 and releasing the lock. *)
Lemma mlfq_refill_post pend c p (k k' : kern E) r :
  has_lock c (ps k) -> pinv MLFQ pend (ps k) -> mlfq_finish c 0 p k = Ret r k' ->
  r = Again 0 p /\ tame_list (procs (ps k)) (procs (ps k')) /\
  ps k' = unlockd c ((ps k) <| procs := procs (ps k') |> <| mq := mq (ps k') |>) /\
  pinv MLFQ pend (ps k').
Proof.
  intros Hl Hinv Hrun. pose proof (t_len _ _ _ _ _ _ _ Hinv) as Hlen.
  destruct (t_queues _ _ _ _ _ _ _ Hinv) as (ls & Hq & Hok & _ & Hnr).
  destruct (mlfq_refill_release c p ls k Hl Hq Hok Hlen) as (k2 & Hfin & Hsame & Hps & Hq2 & Hok2).
  rewrite Hfin in Hrun. injection Hrun as <- <-.
  pose proof (same_but_cur_tame _ _ Hsame) as Ht.
  assert (Hps' : ps k2 = unlockd c ((ps k) <| procs := procs (ps k2) |> <| mq := mq (ps k2) |>))
    by (rewrite Hps at 1; done).
  split_and!; [done..|]. rewrite Hps'.
  apply (tinv_set_queues _ _ _ _ _ _ (mq (ps k))); [by eapply tinv_tame|].
  change (queues_inv MLFQ (procs (ps k2)) (mq (ps k2))).
  eapply queues_inv_refilled; try done. intros x. rewrite elem_of_missing, Hsame. tauto.
Qed.

(** The part of the MLFQ leg after the lock has been taken. *)
Lemma mlfq_leg_post pend c p (k k' : kern E) r :
  has_lock c (ps k) -> pinv MLFQ pend (ps k) ->
  ('(f, p) ← lift (mlfq_for [0; 1; 2; 3; 4] 0 p); mlfq_finish c f p) k = Ret r k' ->
  leg_post c (ps k) r (ps k') /\ pinv MLFQ pend (ps k').
Proof.
  intros Hl Hinv Hrun. pose proof (t_len _ _ _ _ _ _ _ Hinv) as Hlen.
  destruct (t_queues _ _ _ _ _ _ _ Hinv) as (ls & Hq & Hok & _ & Hnr).
  destruct (mlfq_for_loop 5 0 p ls (ps k) Hq Hok Hlen) as (s1 & Hsame & Hs1 & Hfor);
    [by destruct Hok as [-> _]|].
  rewrite drop_0 in Hfor. change (Z.of_nat <$> seq 0 5) with [0; 1; 2; 3; 4] in Hfor.
  pose proof (same_but_cur_tame _ _ Hsame) as Ht.
  assert (Hs1' : s1 = (ps k) <| procs := procs s1 |> <| mq := mq s1 |>) by (rewrite Hs1 at 1; by destruct (ps k)).
  destruct (findi (existsb (runnable_at (procs (ps k)))) ls) as [i|].
  - destruct Hfor as (l & j & q & Hi & Hj & Hlj & Hfor & Hq1).
    rewrite (bind_ret _ _ _ (1, Some q) (k <| ps := s1 |>)) in Hrun by (by apply lift_ret).
    destruct (findi_split _ _ _ _ Hj Hlj) as (_ & Hrq & _). rewrite Hsame in Hrq. unfold runnable_at in Hrq.
    destruct (procs s1 !! q) as [kq|] eqn:Hkq; [|done].
    destruct (mlfq_finish_start c q (k <| ps := s1 |>) k' kq r) as [-> Hps]; [done..|].
    change (ps (k <| ps := s1 |>)) with s1 in Hps.
    set (acc := fun k => k <| wait_time := 0 |> <| num_run ::= fun n => s32 (n + 1) |>) in *.
    assert (Hps' : ps k' = dispatched c q ((ps k) <| procs := alter acc q (procs s1) |> <| mq := mq s1 |>)).
    { rewrite Hps. f_equal. rewrite Hs1' at 1. done. }
    assert (Htame : tame_list (procs (ps k)) (alter acc q (procs s1))).
    { eapply tame_list_trans; [exact Ht|]. apply tame_list_alter. intros. split; auto. }
    assert (Hkq' : alter acc q (procs s1) !! q = Some (acc kq)) by (by rewrite list_lookup_alter_eq, Hkq).
    assert (Hst : state (acc kq) = RUNNABLE) by (by apply bool_decide_eq_true in Hrq).
    rewrite Hps'. split; [by exists (alter acc q (procs s1)), (mq s1), (acc kq)|].
    eapply pinv_dispatched; try done. by eapply queues_inv_taken.
  - destruct Hfor as (p' & Hfor & Hq1).
    rewrite (bind_ret _ _ _ (0, p') (k <| ps := s1 |>)) in Hrun by (by apply lift_ret).
    set (k1 := k <| ps := s1 |>) in *.
    assert (Hl1 : has_lock c (ps k1)) by (by change (has_lock c s1); rewrite Hs1).
    assert (Hinv1 : pinv MLFQ pend (ps k1)).
    { change (pinv MLFQ pend s1). rewrite Hs1'. unfold pinv. cbn.
      apply (tinv_set_queues _ _ _ _ _ _ (mq (ps k))); [by eapply tinv_tame|].
      apply (queues_inv_tame _ _ _ _ Ht). by exists ls. }
    destruct (mlfq_refill_post pend c p' k1 k' r Hl1 Hinv1 Hrun) as (-> & Ht2 & Hps & Hinv2).
    split; [|done]. split; [done|]. exists (procs (ps k')), (mq (ps k')). split.
    + by eapply tame_list_trans.
    + rewrite Hps at 1. change (ps k1) with s1. rewrite Hs1' at 1. done.
Qed.

(** From the head of the loop. *)
Lemma sched_top_leg pol pend c p (k k' : kern E) r :
  idle_cpu c (ps k) -> pinv pol pend (ps k) -> sched_top pol c 0 p k = Ret r k' ->
  leg_post c (choosing c (ps k)) r (ps k') /\ pinv pol pend (ps k').
Proof.
  intros Hidle Hinv Hrun. rewrite sched_top_choosing in Hrun by done.
  set (k1 := k <| ps := choosing c (ps k) |>) in *.
  assert (Hl : has_lock c (ps k1)) by (by apply choosing_has_lock).
  change (procs (ps k)) with (procs (ps k1)) in Hrun. change (choosing c (ps k)) with (ps k1).
  change (pinv pol pend (ps k1)) in Hinv.
  destruct pol; [| | |by eapply mlfq_leg_post]; (eapply leg_table; [done|done|exact Hinv| |exact Hrun]).
  - apply rr_next_runnable.
  - apply fcfs_pick_runnable.
  - apply pbs_pick_runnable.
Qed.

(** The scheduler's CPU once the process has given it up. *)
Definition back_state (c : nat) (s : pstate) : pstate :=
  s <| cpus ::= upd_cpu c (fun k => k <| cproc := None |>) |>.

Lemma back_has_lock c s : has_lock c s -> has_lock c (back_state c s).
Proof.
  intros (Hids & Hh & k & Hk & Hok & Hn). unfold back_state, has_lock, upd_cpu. cbn.
  rewrite (list_alter_insert _ _ _ _ Hk). split_and!; [by eapply ids_ok_insert|done|].
  eexists. rewrite list_lookup_insert_eq by (by eapply lookup_lt_Some). by split_and!.
Qed.

(** From the return of [swtch]. *)
Lemma sched_back_leg pol pend c p (k k' : kern E) r :
  has_lock c (ps k) -> pinv pol pend (ps k) -> sched_back pol c p k = Ret r k' ->
  leg_post c (back_state c (ps k)) r (ps k') /\ pinv pol pend (ps k').
Proof.
  intros Hl Hinv Hrun. apply sched_back_ps in Hrun as (k1 & Hps & Hrun).
  fold (back_state c (ps k)) in Hps. apply (back_has_lock c) in Hl. rewrite <- Hps in Hl |- *.
  assert (Hinv1 : pinv pol pend (ps k1)) by (by rewrite Hps).
  replace (procs (ps k)) with (procs (ps k1)) in Hrun by (by rewrite Hps).
  destruct pol.
  - eapply leg_table; [done|done|exact Hinv1|apply rr_next_runnable|exact Hrun].
  - by eapply leg_table; [done|done|exact Hinv1| |exact Hrun].
  - eapply leg_table; [done|done|exact Hinv1|apply pbs_pick_runnable|exact Hrun].
  - assert (Hfin : mlfq_finish c 0 None k1 = Ret r k').
    { rewrite <- Hrun. unfold mlfq_finish. cbn [Z.eqb]. rewrite ret_bind. done. }
    destruct (mlfq_refill_post pend c None k1 k' r Hl Hinv1 Hfin) as (-> & Ht & Hps' & Hinv').
    split; [|done]. split; [done|]. by exists (procs (ps k')), (mq (ps k')).
Qed.

End Legs.
