(* ===== verification/MachineInv.v ===== *)
(** * MachineInv: the invariant of the machine

    [cinv] ties the CPUs to the process table; together with the table
    invariant [pinv] it is kept by every step of [mstep]. *)

From S2P Require Import Prelude Spinlock Proctab Mlfq Proc Scheduler SchedMlfq.
From S2P Require Import ProcSpec ForkSpec Tables Legs Machine.

Definition running_in (l : list proc) (p : nat) : Prop :=
  exists k, l !! p = Some k /\ state k = RUNNING.

Record cinv (md : list mode) (s : pstate) : Prop := {
  c_len : length md = length (cpus s);
  c_ids : ids_ok (cpus s);
  c_cpu : forall c k, cpus s !! c = Some k -> cpu_ok k /\ ncli k < 2 ^ 30;
  c_mode : forall c m k, md !! c = Some m -> cpus s !! c = Some k ->
    cproc k = mode_proc m /\ (holds m = true -> 1 <= ncli k);
  c_zero : forall c f p, md !! c = Some (InSched f p) -> f = 0;
  c_runs : forall c m p, md !! c = Some m -> runs m = Some p -> running_in (procs s) p;
  c_all : forall p, running_in (procs s) p -> exists c m, md !! c = Some m /\ runs m = Some p;
  c_inj : forall c d mc md' p, md !! c = Some mc -> md !! d = Some md' ->
    runs mc = Some p -> runs md' = Some p -> c = d;
  c_held : forall c m, md !! c = Some m -> holds m = true -> ptlock s = Spinlock 1 (Some c);
  c_free : ptlock s = initlock \/ exists c m, md !! c = Some m /\ holds m = true
}.

(** The CPU of a mode. *)
Lemma cinv_cpu md s c m :
  cinv md s -> md !! c = Some m ->
  exists k, cpus s !! c = Some k /\ cpu_ok k /\ ncli k < 2 ^ 30 /\ cproc k = mode_proc m.
Proof.
  intros Hc Hm. pose proof (lookup_lt_Some _ _ _ Hm) as Hlt. rewrite (c_len _ _ Hc) in Hlt.
  destruct (lookup_lt_is_Some_2 _ _ Hlt) as [k Hk]. exists k.
  destruct (c_cpu _ _ Hc c k Hk). destruct (c_mode _ _ Hc c m k Hm Hk). by split_and!.
Qed.

(** A CPU that does not hold the lock and gets it finds it free. *)
Lemma acquire_free c s k a s1 :
  ids_ok (cpus s) -> cpus s !! c = Some k -> cpu_ok k -> ncli k < 2 ^ 30 ->
  ptlock s = initlock \/ (exists d, d <> c /\ ptlock s = Spinlock 1 (Some d)) ->
  acquire_pt c s = Ret a s1 -> ptlock s = initlock.
Proof.
  intros Hids Hk Hok Hb [|(d & Hd & Hl)] Hacq; [done|]. exfalso.
  unfold acquire_pt, zoom in Hacq. rewrite Hl in Hacq.
  rewrite (acquire_cases _ _ _ _ Hids Hk Hok ltac:(lia)) in Hacq.
  assert (Hnh : held_by c (Spinlock 1 (Some d)) = false).
  { unfold held_by. cbn. apply bool_decide_eq_false_2. congruence. }
  by rewrite Hnh in Hacq.
Qed.

Lemma cinv_elsewhere md s c m :
  cinv md s -> md !! c = Some m -> holds m = false ->
  ptlock s = initlock \/ (exists d, d <> c /\ ptlock s = Spinlock 1 (Some d)).
Proof.
  intros Hc Hm Hh. destruct (c_free _ _ Hc) as [|(d & m' & Hd & Hhd)]; [by left|right].
  exists d. split; [congruence|by eapply c_held].
Qed.

Lemma cinv_acquire md s c m a s1 :
  cinv md s -> md !! c = Some m -> holds m = false -> acquire_pt c s = Ret a s1 ->
  can_lock c s /\ s1 = lockd c s.
Proof.
  intros Hc Hm Hh Hacq. destruct (cinv_cpu _ _ _ _ Hc Hm) as (k & Hk & Hok & Hb & _).
  pose proof (acquire_free c s k a s1 (c_ids _ _ Hc) Hk Hok Hb (cinv_elsewhere _ _ _ _ Hc Hm Hh) Hacq) as Hfree.
  assert (Hcl : can_lock c s).
  { split_and!; [exact (c_ids _ _ Hc)|done|]. exists k. split_and!; [done|apply Hok..|lia]. }
  split; [done|]. rewrite acquire_pt_ok in Hacq by done. by injection Hacq as <- <-.
Qed.

Lemma cinv_has_lock md s c m :
  cinv md s -> md !! c = Some m -> holds m = true -> has_lock c s.
Proof.
  intros Hc Hm Hh. destruct (cinv_cpu _ _ _ _ Hc Hm) as (k & Hk & Hok & Hb & _).
  destruct (c_mode _ _ Hc c m k Hm Hk) as [_ Hn].
  split_and!; [exact (c_ids _ _ Hc)| |exists k; split_and!; [done|apply Hok..|by apply Hn]].
  rewrite (c_held _ _ Hc c m Hm Hh). unfold held_by. cbn. by apply bool_decide_eq_true_2.
Qed.

(** ** One CPU's step

    CPU [c] goes from mode [m] to [m'] and the state from [s] to [s']; the lock
    is at the CPU or free before. *)
Record cpu_step (c : nat) (m m' : mode) (s s' : pstate) : Prop := {
  cs_len : length (cpus s') = length (cpus s);
  cs_ids : ids_ok (cpus s');
  cs_other : forall d, d <> c -> cpus s' !! d = cpus s !! d;
  cs_cpu : exists k, cpus s' !! c = Some k /\ cpu_ok k /\ ncli k < 2 ^ 30 /\
    cproc k = mode_proc m' /\ (holds m' = true -> 1 <= ncli k);
  cs_zero : forall f p, m' = InSched f p -> f = 0;
  cs_running : forall p, running_in (procs s') p <->
    (running_in (procs s) p /\ runs m <> Some p) \/ runs m' = Some p;
  cs_new : forall p, runs m' = Some p -> runs m = Some p \/ ~ running_in (procs s) p;
  cs_before : holds m = true \/ ptlock s = initlock;
  cs_lock : ptlock s' = if holds m' then Spinlock 1 (Some c) else initlock
}.

Lemma cinv_step md c m m' s s' :
  cinv md s -> md !! c = Some m -> cpu_step c m m' s s' -> cinv (<[c := m']> md) s'.
Proof.
  intros Hc Hm [Hlen Hids Hoth (k & Hk & Hok & Hb & Hcp & Hn) Hz Hrun Hnew Hbef Hlk].
  pose proof (lookup_lt_Some _ _ _ Hm) as Hlt.
  assert (Hnoth : forall d md', d <> c -> md !! d = Some md' -> holds md' = false).
  { intros d md' Hne Hd. destruct (holds md') eqn:Hh; [|done].
    pose proof (c_held _ _ Hc d md' Hd Hh) as Hl. destruct Hbef as [Hbef|Hbef]; [|by rewrite Hl in Hbef].
    pose proof (c_held _ _ Hc c m Hm Hbef). congruence. }
  split.
  - rewrite length_insert, Hlen. exact (c_len _ _ Hc).
  - done.
  - intros d kd Hd. destruct (decide (d = c)) as [->|Hne]; [by simplify_eq|].
    rewrite Hoth in Hd by done. by eapply c_cpu.
  - intros d md' kd [[-> ->]|[Hne Hd]]%lookup_insert_cases Hkd; [by simplify_eq|].
    rewrite Hoth in Hkd by done. by eapply c_mode.
  - intros d f p [[-> Hf]|[Hne Hd]]%lookup_insert_cases; [by eapply Hz|by eapply c_zero].
  - intros d md' p [[-> ->]|[Hne Hd]]%lookup_insert_cases Hr; apply Hrun; [by right|left].
    split; [by eapply c_runs|]. intros Hr'. apply Hne. by eapply (c_inj _ _ Hc d c).
  - intros p [[Hp Hne]|Hp]%Hrun.
    + destruct (c_all _ _ Hc p Hp) as (d & md' & Hd & Hr). exists d, md'. split; [|done].
      rewrite list_lookup_insert_ne; [done|]. intros ->. congruence.
    + exists c, m'. split; [by apply list_lookup_insert_eq|done].
  - assert (Hone : forall d md' p, d <> c -> md !! d = Some md' -> runs m' = Some p -> runs md' = Some p -> False).
    { intros d md' p Hne Hd Hr Hr'. destruct (Hnew p Hr) as [Hm'|Hnr].
      - apply Hne. by eapply (c_inj _ _ Hc d c).
      - apply Hnr. by eapply c_runs. }
    intros d1 d2 m1 m2 p [[-> ->]|[Hn1 H1]]%lookup_insert_cases [[-> ->]|[Hn2 H2]]%lookup_insert_cases R1 R2;
      [done|exfalso; eauto|exfalso; eauto|by eapply (c_inj _ _ Hc d1 d2)].
  - intros d md' [[-> ->]|[Hne Hd]]%lookup_insert_cases Hh; [by rewrite Hlk, Hh|].
    rewrite (Hnoth d md' Hne Hd) in Hh. done.
  - rewrite Hlk. destruct (holds m') eqn:Hh; [right|by left].
    exists c, m'. split; [by apply list_lookup_insert_eq|done].
Qed.

(** The CPU part of a step, when only CPU [c]'s record changes. *)
Lemma cpu_step_intro c m m' s s' k k' :
  ids_ok (cpus s) -> cpus s !! c = Some k -> cpus s' = <[c := k']> (cpus s) -> apicid k' = apicid k ->
  cpu_ok k' -> ncli k' < 2 ^ 30 -> cproc k' = mode_proc m' -> (holds m' = true -> 1 <= ncli k') ->
  (forall f p, m' = InSched f p -> f = 0) ->
  (forall p, running_in (procs s') p <->
     (running_in (procs s) p /\ runs m <> Some p) \/ runs m' = Some p) ->
  (forall p, runs m' = Some p -> runs m = Some p \/ ~ running_in (procs s) p) ->
  (holds m = true \/ ptlock s = initlock) ->
  ptlock s' = (if holds m' then Spinlock 1 (Some c) else initlock) ->
  cpu_step c m m' s s'.
Proof.
  intros Hids Hk Hcs Hid Hok Hb Hcp Hn. intros. pose proof (lookup_lt_Some _ _ _ Hk) as Hlt.
  split; try done.
  - by rewrite Hcs, length_insert.
  - rewrite Hcs. by eapply ids_ok_insert.
  - intros d Hd. by rewrite Hcs, list_lookup_insert_ne.
  - exists k'. rewrite Hcs, list_lookup_insert_eq by done. by split_and!.
Qed.

(** Steps in which the same process goes on running on the CPU, or none. *)
Lemma running_same (m m' : mode) l l' :
  runs m' = runs m -> (forall p, running_in l' p <-> running_in l p) ->
  (forall p, runs m = Some p -> running_in l p) ->
  (forall p, running_in l' p <-> (running_in l p /\ runs m <> Some p) \/ runs m' = Some p) /\
  (forall p, runs m' = Some p -> runs m = Some p \/ ~ running_in l p).
Proof.
  intros Hr Hl Hm. split.
  - intros p. rewrite Hl, Hr. destruct (decide (runs m = Some p)); naive_solver.
  - intros p. rewrite Hr. by left.
Qed.

Lemma running_tame l l' : tame_list l l' -> forall p, running_in l' p <-> running_in l p.
Proof.
  intros Ht p. split.
  - intros (k' & Hk' & Hs). destruct (tame_list_lookup _ _ _ _ Ht Hk') as (k & Hk & Htk).
    exists k. split; [done|]. by apply (tame_state_iff k k' RUNNING Htk).
  - intros (k & Hk & Hs). destruct (Forall2_lookup_l _ _ _ _ _ Ht Hk) as (k' & Hk' & Htk).
    exists k'. split; [done|]. by apply (tame_state_iff k k' RUNNING Htk).
Qed.

Lemma running_states l l' : state <$> l' = state <$> l -> forall p, running_in l' p <-> running_in l p.
Proof.
  assert (H : forall l1 l2 p, state <$> l1 = state <$> l2 -> running_in l1 p -> running_in l2 p).
  { intros l1 l2 p Hst (k & Hk & Hs). apply (f_equal (fun x => x !! p)) in Hst.
    rewrite !list_lookup_fmap, Hk in Hst. destruct (l2 !! p) as [k2|] eqn:H2; [|done].
    exists k2. split; [done|]. cbn in Hst. congruence. }
  intros Hst p. split; by apply H.
Qed.

Lemma running_insert l p k k' :
  l !! p = Some k ->
  forall r, running_in (<[p := k']> l) r <->
    (r = p /\ state k' = RUNNING) \/ (r <> p /\ running_in l r).
Proof.
  intros Hk r. split.
  - intros (kr & [[-> ->]|[Hne Hr]]%lookup_insert_cases & Hs); [by left|right]. split; [done|by exists kr].
  - intros [[-> Hs]|[Hne (kr & Hr & Hs)]].
    + exists k'. split; [|done]. apply list_lookup_insert_eq. by eapply lookup_lt_Some.
    + exists kr. split; [|done]. by rewrite list_lookup_insert_ne.
Qed.

(** *** Taking and releasing the lock on one CPU *)

Lemma rest_cpu_ok k : cpu_ok k ->
  cpu_ok (rest_cpu k) /\ ncli (rest_cpu k) = ncli k /\ cproc (rest_cpu k) = cproc k /\
  apicid (rest_cpu k) = apicid k.
Proof.
  intros Hok. destruct k as [a b n d e g]. unfold rest_cpu, cpu_ok in *. cbn in *.
  destruct (n =? 0); cbn; tauto.
Qed.

Lemma lock_unlock_cpus c s k :
  cpus s !! c = Some k -> cpu_ok k -> cpus (unlockd c (lockd c s)) = <[c := rest_cpu k]> (cpus s).
Proof.
  intros Hk Hok. unfold unlockd, lockd. cbn. rewrite list_alter_alter, (list_alter_insert _ _ _ _ Hk).
  by rewrite pop_push_cpu.
Qed.

(** A step that takes the lock, changes the table and the queues, and releases
    it, without changing who runs. *)
Lemma locked_step md c m s s' pr :
  cinv md s -> md !! c = Some m -> can_lock c s ->
  cpus s' = cpus (unlockd c (lockd c s)) -> ptlock s' = initlock -> procs s' = pr ->
  (forall p, running_in pr p <-> running_in (procs s) p) ->
  cinv md s'.
Proof.
  intros Hc Hm (Hids & Hfree & k & Hk & Hok & Hb) Hcs Hlk Hpr Hrun.
  destruct (rest_cpu_ok k Hok) as (R1 & R2 & R3 & R4).
  destruct (c_mode _ _ Hc c m k Hm Hk) as [Hcp _]. destruct (c_cpu _ _ Hc c k Hk) as [_ Hb'].
  assert (Hh : holds m = false).
  { destruct (holds m) eqn:Hh; [|done]. pose proof (c_held _ _ Hc c m Hm Hh) as Hl. by rewrite Hl in Hfree. }
  rewrite <- (list_insert_id md c m) by done.
  destruct (running_same m m (procs s) pr eq_refl Hrun) as [H1 H2]; [intros p; by eapply c_runs|].
  eapply cinv_step; [done|done|].
  apply (cpu_step_intro c m m s s' k (rest_cpu k)); try done; rewrite ?R2, ?R3; try done.
  - by rewrite Hcs, (lock_unlock_cpus _ _ _ Hk).
  - by rewrite Hh.
  - intros f p ->. by eapply c_zero.
  - by rewrite Hpr.
  - by right.
  - by rewrite Hh.
Qed.

(** ** Operations that only wake, mark or read *)

(** [op] runs under ptable.lock and makes only tame changes. *)
Definition tame_op (c : nat) (op : M pstate unit) : Prop :=
  (forall s s', op s = Ret tt s' -> exists a s1, acquire_pt c s = Ret a s1) /\
  (forall s s', can_lock c s -> op s = Ret tt s' ->
     exists pr, tame_list (procs s) pr /\ s' = (unlockd c (lockd c s)) <| procs := pr |>).

Lemma unlockd_procs c s pr : unlockd c ((lockd c s) <| procs := pr |>) = (unlockd c (lockd c s)) <| procs := pr |>.
Proof. done. Qed.

Lemma release_inv c s a s' pr :
  can_lock c s -> release_pt c ((lockd c s) <| procs := pr |>) = Ret a s' ->
  s' = (unlockd c (lockd c s)) <| procs := pr |>.
Proof.
  intros Hcl H. rewrite (release_pt_ok c) in H; [by injection H as <- <-|].
  exact (lockd_has_lock _ _ Hcl).
Qed.

Lemma wakeup_tame c ch : tame_op c (wakeup c ch).
Proof.
  split; intros s s'.
  - unfold wakeup. intros H. minv H. eauto.
  - intros Hcl H. unfold wakeup in H. rewrite (bind_ret _ _ _ _ _ (acquire_pt_ok _ _ Hcl)) in H.
    rewrite (bind_ret (wakeup1 ch) _ _ tt ((lockd c s) <| procs := map (wake ch) (procs s) |>)) in H by done.
    exists (map (wake ch) (procs s)). split; [apply tame_list_map, tame_wake|by eapply release_inv].
Qed.

Lemma lockd_procs_id c s : (lockd c s) <| procs := procs s |> = lockd c s.
Proof. by destruct s. Qed.

(** Operations that search the table for a pid. *)
Lemma find_tame c n (f : proc -> proc) :
  (forall k, tame k (f k)) ->
  tame_op c
    (acquire_pt c;;
     s ← gets (fun s => s);
     (match findi (fun k => pid k =? n) (procs s) with
      | Some p => upd_proc p f;; release_pt c
      | None => release_pt c
      end)).
Proof.
  intros Hf. split; intros s s'.
  - intros H. minv H. eauto.
  - intros Hcl H. rewrite (bind_ret _ _ _ _ _ (acquire_pt_ok _ _ Hcl)) in H.
    rewrite (bind_ret (gets (fun s => s)) _ _ _ _ eq_refl) in H.
    change (procs (lockd c s)) with (procs s) in H.
    destruct (findi _ (procs s)) as [p|] eqn:Hfind.
    + destruct (proj1 (findi_Some _ _ _) Hfind) as [(k & Hk & _) _].
      rewrite (bind_ret _ _ _ _ _ (upd_proc_ok p f (lockd c s) k Hk)) in H.
      exists (alter f p (procs s)). split; [by apply tame_list_alter|].
      eapply release_inv; [done|]. exact H.
    + exists (procs s). split; [apply tame_list_refl|]. rewrite <- (lockd_procs_id c s) in H.
      by eapply release_inv.
Qed.

(** Two operations with the same effect on the state. *)
Lemma tame_op_ext c (op op' : M pstate unit) :
  (forall s s', op' s = Ret tt s' -> op s = Ret tt s') -> tame_op c op -> tame_op c op'.
Proof. intros He [H1 H2]. split; eauto. Qed.

Lemma read_tame c : tame_op c (acquire_pt c;; release_pt c).
Proof.
  split; intros s s'.
  - intros H. minv H. eauto.
  - intros Hcl H. rewrite (bind_ret _ _ _ _ _ (acquire_pt_ok _ _ Hcl)) in H.
    exists (procs s). split; [apply tame_list_refl|]. rewrite <- (lockd_procs_id c s) in H.
    by eapply release_inv.
Qed.

Ltac unit_ret H :=
  injection H as; subst; repeat match goal with u : unit |- _ => destruct u end.

Lemma table_op_tame pol c op : table_op pol c op -> tame_op c op.
Proof.
  intros [ch|n|n prio|n|prio f].
  - apply wakeup_tame.
  - eapply tame_op_ext; [|apply (find_tame c n (fun k =>
        let k' := k <| killed := 1 |> in
        if stateb SLEEPING k' then k' <| state := RUNNABLE |> else k'))].
    + intros s s' H. minv H. unit_ret H. unfold kill in Hrun. minv Hrun.
      rewrite (bind_ret _ _ _ _ _ Hrun0), (bind_ret _ _ _ _ _ Hrun1).
      destruct (findi _ _); minv Hrun; [rewrite (bind_ret _ _ _ _ _ Hrun2)|]; by unit_ret Hrun.
    + intros k. cbn. destruct (stateb SLEEPING _) eqn:Es; [|split; auto].
      apply bool_decide_eq_true in Es. split; auto.
  - eapply tame_op_ext; [|apply (find_tame c n (fun k => k <| priority := prio |>))].
    + intros s s' H. minv H. unit_ret H. unfold set_priority in Hrun. minv Hrun.
      rewrite (bind_ret _ _ _ _ _ Hrun0), (bind_ret _ _ _ _ _ Hrun1).
      destruct (findi _ _); minv Hrun2; unit_ret Hrun2; [|by unit_ret Hrun].
      apply get_proc_inv in Hrun4 as [-> _].
      rewrite (bind_ret _ _ _ _ _ Hrun5). by unit_ret Hrun.
    + intros k. split; auto.
  - eapply tame_op_ext; [|apply read_tame].
    intros s s' H. minv H. unit_ret H. unfold getpinfo in Hrun. minv Hrun.
    rewrite (bind_ret _ _ _ _ _ Hrun0). unit_ret Hrun1.
    destruct (findi _ _); minv Hrun; [|by unit_ret Hrun].
    apply get_proc_inv in Hrun1 as [-> _]. by unit_ret Hrun.
  - eapply tame_op_ext; [|apply read_tame].
    intros s s' H. minv H. unit_ret H. unfold checkPremption in Hrun. minv Hrun.
    rewrite (bind_ret _ _ _ _ _ Hrun0). unit_ret Hrun1. by unit_ret Hrun.
Qed.

(** ** The scheduler's legs *)

(** [swtch] to process [p] from a CPU that held the lock in state [s1]. *)
Lemma dispatched_step md c m s s1 p pr q k1 kp :
  cinv md s -> md !! c = Some m -> runs m = None ->
  (holds m = true \/ ptlock s = initlock) ->
  cpus s1 = <[c := k1]> (cpus s) ->
  (exists k0, cpus s !! c = Some k0 /\ apicid k1 = apicid k0) ->
  cpu_ok k1 -> 1 <= ncli k1 < 2 ^ 30 -> ptlock s1 = Spinlock 1 (Some c) -> procs s1 = procs s ->
  tame_list (procs s) pr -> pr !! p = Some kp -> state kp = RUNNABLE ->
  cinv (<[c := Switching p]> md) (dispatched c p (s1 <| procs := pr |> <| mq := q |>)).
Proof.
  intros Hc Hm Hr Hbef Hcs (k0 & Hk0 & Hid) Hok Hn Hlk Hps Ht Hp Hst.
  pose proof (lookup_lt_Some _ _ _ Hk0) as Hlt. destruct (c_cpu _ _ Hc c k0 Hk0) as [_ Hb].
  assert (Hnr : ~ running_in (procs s) p).
  { rewrite <- (running_tame _ _ Ht). intros (k' & Hk' & Hs). congruence. }
  eapply cinv_step; [done|done|].
  apply (cpu_step_intro c m (Switching p) s _ k0 (k1 <| cproc := Some p |>)); try done.
  - exact (c_ids _ _ Hc).
  - cbn. unfold upd_cpu. rewrite Hcs, (list_alter_insert _ _ _ k1) by (by apply list_lookup_insert_eq).
    by rewrite list_insert_insert_eq.
  - cbn. lia.
  - cbn. lia.
  - intros r. cbn. rewrite (list_alter_insert _ _ _ _ Hp), (running_insert _ _ _ _ Hp), (running_tame _ _ Ht).
    rewrite Hr. cbn. destruct (decide (r = p)) as [->|]; naive_solver.
  - intros r [= <-]. by right.
Qed.

Lemma pop_cpu_ok k : cpu_ok k -> 1 <= ncli k < 2 ^ 30 ->
  cpu_ok (pop_cpu k) /\ ncli (pop_cpu k) = ncli k - 1 /\ cproc (pop_cpu k) = cproc k /\
  apicid (pop_cpu k) = apicid k.
Proof.
  intros [Hb Hif] Hn. unfold cpu_ok, pop_cpu. cbn. rewrite s32_small by lia. split_and!; try done; [lia..|].
  intros H. destruct (Z.eqb_spec (ncli k - 1) 0); [lia|done].
Qed.

Section Steps.
Context {E : Type} {HSvc : Services E} {HSwitch : SwitchOk E} {HReap : ReapOk (E := E)}.
Variable pol : policy.

(** From the head of the loop the lock is found free. *)
Lemma top_idle md c f p r (k k' : kern E) kc :
  cinv md (ps k) -> md !! c = Some (InSched f p) -> cpus (ps k) !! c = Some kc -> ncli kc = 0 ->
  sched_top pol c f p k = Ret r k' -> idle_cpu c (ps k).
Proof.
  intros Hc Hm Hkc Hn Hrun. split_and!; [exact (c_ids _ _ Hc)| |by exists kc].
  unfold sched_top, on_cpu_sti, sti in Hrun.
  rewrite (bind_ret _ _ _ tt (k <| ps := sti_ps c (ps k) |>)) in Hrun by done.
  apply bind_inv in Hrun as ([] & k1 & Hacq & _). apply lift_inv in Hacq as [Hacq _].
  change (ptlock (ps k)) with (ptlock (sti_ps c (ps k))).
  eapply (acquire_free c (sti_ps c (ps k)) (kc <| iflag := true |>)); [..|exact Hacq].
  - unfold sti_ps. cbn. rewrite (upd_cpu_insert _ _ _ _ Hkc). by eapply ids_ok_insert; [exact (c_ids _ _ Hc)|..].
  - unfold sti_ps, upd_cpu. cbn. by rewrite list_lookup_alter_eq, Hkc.
  - unfold cpu_ok. cbn. lia.
  - cbn. lia.
  - exact (cinv_elsewhere _ _ _ _ Hc Hm eq_refl).
Qed.

Lemma step_top md pd c f p r (k k' : kern E) kc :
  cinv md (ps k) -> pinv pol pd (ps k) -> md !! c = Some (InSched f p) ->
  cpus (ps k) !! c = Some kc -> ncli kc = 0 -> sched_top pol c f p k = Ret r k' ->
  cinv (<[c := stop_mode r]> md) (ps k') /\ pinv pol pd (ps k').
Proof.
  intros Hc Hp Hm Hkc Hn Hrun. pose proof (top_idle _ _ _ _ _ _ _ _ Hc Hm Hkc Hn Hrun) as Hidle.
  rewrite (c_zero _ _ Hc c f p Hm) in Hrun.
  destruct (sched_top_leg _ _ _ _ _ _ _ Hidle Hp Hrun) as [Hpost Hinv]. split; [|done].
  pose proof (lookup_lt_Some _ _ _ Hkc) as Hlt. destruct (c_mode _ _ Hc c _ kc Hm Hkc) as [Hcp _].
  set (kt := kc <| iflag := true |>).
  assert (Hcs : cpus (choosing c (ps k)) = <[c := push_cpu kt]> (cpus (ps k))).
  { unfold choosing, lockd, sti_ps, upd_cpu. cbn. rewrite list_alter_alter. by rewrite (list_alter_insert _ _ _ _ Hkc). }
  assert (Hkt : cpu_ok kt) by (unfold cpu_ok; cbn; lia).
  assert (Hnp : ncli (push_cpu kt) = 1) by (cbn; rewrite Hn; done).
  destruct Hidle as (_ & Hfree & _). destruct r as [q|f' p']; cbn in Hpost.
  - destruct Hpost as (pr & mq' & kq & Ht & Hq & Hst & ->).
    eapply (dispatched_step _ _ (InSched f p) (ps k) (choosing c (ps k)) q pr mq' (push_cpu kt) kq); try done.
    + by right.
    + by exists kc.
    + unfold cpu_ok. rewrite Hnp. split; [lia|done].
    + lia.
  - destruct Hpost as (-> & pr & mq' & Ht & ->). eapply cinv_step; [done|exact Hm|].
    assert (Hrest : pop_cpu (push_cpu kt) = rest_cpu kt) by (by apply pop_push_cpu).
    destruct (rest_cpu_ok kt Hkt) as (R1 & R2 & R3 & R4).
    destruct (running_same (InSched f p) (InSched 0 p') (procs (ps k)) pr) as [H1 H2];
      [done|by apply running_tame|done|].
    apply (cpu_step_intro c (InSched f p) (InSched 0 p') _ _ kc (rest_cpu kt)); try done.
    + exact (c_ids _ _ Hc).
    + transitivity (alter pop_cpu c (cpus (choosing c (ps k)))); [done|].
      rewrite Hcs, (list_alter_insert _ _ _ (push_cpu kt)) by (by apply list_lookup_insert_eq).
      by rewrite list_insert_insert_eq, Hrest.
    + rewrite R2. cbn. lia.
    + by intros ? ? [= <- _].
    + by right.
Qed.

Lemma step_back md pd c p r (k k' : kern E) :
  cinv md (ps k) -> pinv pol pd (ps k) -> md !! c = Some (Yielded p) ->
  sched_back pol c p k = Ret r k' ->
  cinv (<[c := stop_mode r]> md) (ps k') /\ pinv pol pd (ps k').
Proof.
  intros Hc Hp Hm Hrun. pose proof (cinv_has_lock _ _ _ _ Hc Hm eq_refl) as Hl.
  destruct (sched_back_leg _ _ _ _ _ _ _ Hl Hp Hrun) as [Hpost Hinv]. split; [|done].
  destruct (cinv_cpu _ _ _ _ Hc Hm) as (kc & Hkc & Hok & Hb & _).
  destruct (c_mode _ _ Hc c _ kc Hm Hkc) as [_ Hn]. specialize (Hn eq_refl).
  pose proof (lookup_lt_Some _ _ _ Hkc) as Hlt.
  assert (Hcs : cpus (back_state c (ps k)) = <[c := kc <| cproc := None |>]> (cpus (ps k))).
  { unfold back_state. cbn. by rewrite (upd_cpu_insert _ _ _ _ Hkc). }
  pose proof (c_held _ _ Hc c _ Hm eq_refl) as Hlk.
  destruct r as [q|f' p']; cbn in Hpost.
  - destruct Hpost as (pr & mq' & kq & Ht & Hq & Hst & ->).
    eapply (dispatched_step _ _ (Yielded p) (ps k) (back_state c (ps k)) q pr mq' (kc <| cproc := None |>) kq); try done.
    + by left.
    + by exists kc.
  - destruct Hpost as (-> & pr & mq' & Ht & ->). eapply cinv_step; [done|exact Hm|].
    destruct (pop_cpu_ok (kc <| cproc := None |>)) as (R1 & R2 & R3 & R4); [done|cbn; lia|].
    destruct (running_same (Yielded p) (InSched 0 p') (procs (ps k)) pr) as [H1 H2];
      [done|by apply running_tame|done|].
    apply (cpu_step_intro c (Yielded p) (InSched 0 p') _ _ kc (pop_cpu (kc <| cproc := None |>))); try done.
    + exact (c_ids _ _ Hc).
    + transitivity (alter pop_cpu c (cpus (back_state c (ps k)))); [done|].
      rewrite Hcs, (list_alter_insert _ _ _ (kc <| cproc := None |>)) by (by apply list_lookup_insert_eq).
      by rewrite list_insert_insert_eq.
    + rewrite R2. cbn. lia.
    + by intros ? ? [= <- _].
    + by left.
Qed.

(** A process that goes on in user space or in the kernel, outside the lock. *)
Lemma resume_step md c p s s' k k' :
  cinv md s -> md !! c = Some (Switching p) -> cpus s !! c = Some k ->
  cpus s' = <[c := k']> (cpus s) -> apicid k' = apicid k -> cpu_ok k' -> ncli k' < 2 ^ 30 ->
  cproc k' = cproc k -> ptlock s' = initlock -> tame_list (procs s) (procs s') ->
  cinv (<[c := Running p]> md) s'.
Proof.
  intros Hc Hm Hk Hcs Hid Hok Hb Hcp Hlk Ht. eapply cinv_step; [done|exact Hm|].
  destruct (c_mode _ _ Hc c _ k Hm Hk) as [Hcp' _].
  destruct (running_same (Switching p) (Running p) (procs s) (procs s')) as [H1 H2];
    [done|by apply running_tame|intros r; by eapply (c_runs _ _ Hc c)|].
  apply (cpu_step_intro c (Switching p) (Running p) _ _ k k'); try done.
  - exact (c_ids _ _ Hc).
  - by rewrite Hcp.
  - by left.
Qed.

Lemma unlockd_cpus c s k : cpus s !! c = Some k -> cpus (unlockd c s) = <[c := pop_cpu k]> (cpus s).
Proof. intros Hk. unfold unlockd. cbn. by rewrite (list_alter_insert _ _ _ _ Hk). Qed.

Lemma step_forkret md pd c p (k k' : kern E) :
  cinv md (ps k) -> pinv pol pd (ps k) -> md !! c = Some (Switching p) ->
  lift (release_pt c) k = Ret tt k' ->
  cinv (<[c := Running p]> md) (ps k') /\ pinv pol pd (ps k').
Proof.
  intros Hc Hp Hm Hrun. pose proof (cinv_has_lock _ _ _ _ Hc Hm eq_refl) as Hl.
  apply lift_inv in Hrun as [Hrun _]. rewrite release_pt_ok in Hrun by done. injection Hrun as Hps.
  rewrite <- Hps. split; [|done].
  destruct (cinv_cpu _ _ _ _ Hc Hm) as (kc & Hkc & Hok & Hb & _).
  destruct (c_mode _ _ Hc c _ kc Hm Hkc) as [_ Hn]. specialize (Hn eq_refl).
  destruct (pop_cpu_ok kc Hok) as (R1 & R2 & R3 & R4); [lia|].
  eapply (resume_step _ _ _ _ _ kc (pop_cpu kc)); try done.
  - by apply unlockd_cpus.
  - lia.
  - apply tame_list_refl.
Qed.

(** [mycpu()->intena = intena] after [swtch]. *)
Definition set_ena (c : nat) (ena : bool) (s : pstate) : pstate :=
  s <| cpus ::= upd_cpu c (fun k => k <| intena := ena |>) |>.

Lemma sched_resume_inv c p s a s' :
  has_lock c s -> sched_resume c p s = Ret a s' -> exists ena, s' = set_ena c ena s.
Proof.
  intros (Hids & _ & k & Hk & [Hb Hif] & Hn) H. unfold sched_resume in H. minv H.
  apply get_proc_inv in Hrun as [-> _]. destruct (ctx_eip a0); try done. minv H.
  unfold zoom in Hrun. rewrite (mycpu_ok _ _ _ Hids Hk) in Hrun by (apply Hif; lia).
  injection Hrun as <- <-. injection H as <- <-. exists intena. unfold set_ena. by destruct s.
Qed.

Lemma set_ena_has_lock c ena s : has_lock c s -> has_lock c (set_ena c ena s).
Proof.
  intros (Hids & Hh & k & Hk & Hok & Hn). unfold set_ena, has_lock, upd_cpu. cbn.
  rewrite (list_alter_insert _ _ _ _ Hk). split_and!; [by eapply ids_ok_insert|done|].
  eexists. rewrite list_lookup_insert_eq by (by eapply lookup_lt_Some). by split_and!.
Qed.

End Steps.

(** ** sleep, wait *)

(** [sleep] with ptable.lock held reached [swtch]. *)
Lemma sleep_pt_inv c p s kc k ch lk a s' lk' :
  has_lock c s -> cpus s !! c = Some kc -> cproc kc = Some p -> procs s !! p = Some k ->
  sleep c ch PtableLock (s, lk) = Ret a (s', lk') ->
  ncli kc = 1 /\
  s' = s <| procs ::= alter (fun k => k <| chan := ch |> <| state := SLEEPING |>
                                        <| ctx_eip := ResumeSched (intena kc) |>) p |>.
Proof.
  intros Hl Hkc Hp Hk Hrun.
  assert (Hn : ncli kc = 1).
  { unfold sleep, on_ps in Hrun. rewrite (bind_ret _ _ _ (Some p) (s, lk)) in Hrun.
    2: { unfold zoom. cbn. by rewrite (my_proc_locked _ _ _ Hl Hkc), Hp. }
    rewrite ret_bind in Hrun.
    set (s1 := s <| procs ::= alter (fun k => k <| chan := ch |> <| state := SLEEPING |>) p |>) in *.
    rewrite (bind_ret _ _ _ tt (s1, lk)) in Hrun.
    2: { unfold zoom. cbn. by rewrite (upd_proc_ok _ _ _ _ Hk). }
    unfold zoom in Hrun. cbn [fst snd] in Hrun. destruct (sched c s1) eqn:Hs; try done.
    eapply (sched_inv c p s1 kc (k <| chan := ch |> <| state := SLEEPING |>)); [done|done|done| |exact Hs].
    cbn. by rewrite list_lookup_alter_eq, Hk. }
  split; [done|]. rewrite (sleep_pt_ok c p s kc k ch lk Hl Hkc Hn Hp Hk) in Hrun.
  by injection Hrun as <- <- <-.
Qed.

Section WaitSteps.
Context {E : Type} {HSvc : Services E} {HReap : ReapOk (E := E)}.

Lemma wait_scan_inv c p (k k' : kern E) kc kp r :
  has_lock c (ps k) -> cpus (ps k) !! c = Some kc -> cproc kc = Some p ->
  procs (ps k) !! p = Some kp -> wait_scan c p k = Ret r k' ->
  match findi (zombie_child p) (procs (ps k)) with
  | Some z => exists kz, procs (ps k) !! z = Some kz /\ r = WReturn (pid kz) /\
      ps k' = unlockd c ((ps k) <| procs := <[z := freed kz]> (procs (ps k)) |>)
  | None =>
      (exists n, r = WReturn n /\ ps k' = unlockd c (ps k)) \/
      (r = WSleep /\ ps k' = (ps k) <| procs := <[p := kp <| chan := Some (ChProc p) |>
                       <| state := SLEEPING |> <| ctx_eip := ResumeSched (intena kc) |>]> (procs (ps k)) |>)
  end.
Proof.
  intros Hl Hkc Hcp Hkp Hrun. destruct (findi (zombie_child p) (procs (ps k))) as [z|] eqn:Hfind.
  - destruct (proj1 (findi_Some _ _ _) Hfind) as [(kz & Hz & _) _].
    exists kz. split; [done|]. by apply (wait_scan_zombie_inv c p k z kz).
  - unfold wait_scan in Hrun. rewrite (bind_ret (gets ps) _ k (ps k) k eq_refl) in Hrun.
    unfold zombie_child in Hfind. rewrite Hfind in Hrun.
    unfold wait_none in Hrun. rewrite (bind_ret (gets ps) _ k (ps k) k eq_refl) in Hrun.
    rewrite (bind_ret (lift (get_proc p)) _ _ kp k) in Hrun.
    2: { rewrite (lift_eq _ _ _ _ (get_proc_ok _ _ _ Hkp)). by destruct k. }
    destruct (negb (existsb (is_child p) (procs (ps k))) || negb (killed kp =? 0)).
    + rewrite (bind_ret _ _ _ _ _ (lift_eq _ _ _ _ (release_pt_ok _ _ Hl))) in Hrun.
      injection Hrun as <- <-. left. by eexists.
    + right. minv Hrun. injection Hrun as <- <-. split; [done|].
      unfold zoom in Hrun0. destruct (sleep c _ _ _) as [[] [s' lk']| | |] eqn:Hs; try done.
      injection Hrun0 as <- <-. destruct (sleep_pt_inv _ _ _ _ _ _ _ _ _ _ Hl Hkc Hcp Hkp Hs) as [_ ->].
      exact (procs_alter_insert _ _ _ _ Hkp).
Qed.

(** The CPU part of [wait_scan]: [s0] is the state before the lock was taken or
    handed over, [ps k] the one in which the scan runs. *)
Lemma wait_scan_step pol md pd c m p s0 (k k' : kern E) kc0 kc1 r :
  cinv md s0 -> md !! c = Some m -> runs m = Some p ->
  holds m = true \/ ptlock s0 = initlock ->
  cpus s0 !! c = Some kc0 -> cpus (ps k) = <[c := kc1]> (cpus s0) -> apicid kc1 = apicid kc0 ->
  cpu_ok kc1 -> 1 <= ncli kc1 < 2 ^ 30 -> cproc kc1 = Some p ->
  ptlock (ps k) = Spinlock 1 (Some c) -> tame_list (procs s0) (procs (ps k)) ->
  pinv pol pd (ps k) -> wait_scan c p k = Ret r k' ->
  cinv (<[c := wait_mode p r]> md) (ps k') /\ pinv pol pd (ps k').
Proof.
  intros Hc Hm Hr Hbef Hkc0 Hcs Hid Hok Hn Hcp Hlk Ht Hp Hrun.
  pose proof (lookup_lt_Some _ _ _ Hkc0) as Hlt.
  assert (Hkc1 : cpus (ps k) !! c = Some kc1) by (rewrite Hcs; by apply list_lookup_insert_eq).
  assert (Hl : has_lock c (ps k)).
  { split_and!; [rewrite Hcs; eapply ids_ok_insert; [exact (c_ids _ _ Hc)|done..]| |].
    - rewrite Hlk. unfold held_by. cbn. by apply bool_decide_eq_true_2.
    - exists kc1. split_and!; [done|apply Hok..|lia]. }
  assert (Hrp : running_in (procs (ps k)) p) by (apply (running_tame _ _ Ht); by eapply c_runs).
  destruct Hrp as (kp & Hkp & Hst).
  pose proof (wait_scan_inv _ _ _ _ _ _ _ Hl Hkc1 Hcp Hkp Hrun) as Hres.
  destruct (pop_cpu_ok kc1 Hok Hn) as (R1 & R2 & R3 & R4).
  assert (Hret : forall s' rv, cpus s' = cpus (unlockd c (ps k)) -> ptlock s' = initlock ->
    (forall q, running_in (procs s') q <-> running_in (procs (ps k)) q) ->
    cinv (<[c := wait_mode p (WReturn rv)]> md) s').
  { intros s' rv Hcs' Hlk' Hrun'. eapply cinv_step; [done|exact Hm|].
    destruct (running_same m (Running p) (procs s0) (procs s')) as [H1 H2]; [done| |intros q; by eapply c_runs|].
    { intros q. by rewrite Hrun', (running_tame _ _ Ht). }
    apply (cpu_step_intro c m (Running p) _ _ kc0 (pop_cpu kc1)); try done.
    - exact (c_ids _ _ Hc).
    - rewrite Hcs', (unlockd_cpus _ _ _ Hkc1), Hcs. by rewrite list_insert_insert_eq.
    - lia. }
  destruct (findi (zombie_child p) (procs (ps k))) as [z|] eqn:Hfind.
  - destruct Hres as (kz & Hz & -> & ->).
    destruct (proj1 (findi_Some _ _ _) Hfind) as [(kz' & Hz' & Hzc) _]. simplify_eq.
    apply andb_prop in Hzc as [_ Hzs%bool_decide_eq_true]. split.
    + apply Hret; [done..|]. intros q. cbn. rewrite (running_insert _ _ _ _ Hz). cbn.
      split; [intros [[_ ?]|[_ ?]]; done|]. intros Hq. right. split; [|done].
      intros ->. destruct Hq as (kq & Hkq & Hsq). congruence.
    + by apply tinv_freed.
  - destruct Hres as [(n & -> & ->)|(-> & ->)].
    + split; [by apply Hret|done].
    + split.
      * eapply cinv_step; [done|exact Hm|].
        apply (cpu_step_intro c m (Yielded p) _ _ kc0 kc1); try done; [exact (c_ids _ _ Hc)|cbn; lia|cbn; lia|].
        intros q. cbn. rewrite (running_insert _ _ _ _ Hkp), (running_tame _ _ Ht), Hr. cbn. naive_solver.
      * unfold pinv. cbn. destruct (t_proc _ _ _ _ _ _ _ Hp p kp Hkp) as [Hqn _].
        eapply tinv_restate; try done; try congruence.
        -- apply queues_inv_insert; [by eapply tinv_queues|done].
        -- cbn. intros j _ [= <-]. split; [done|]. intros z kz Hz Hpar Hzs.
           rewrite findi_None in Hfind. specialize (Hfind z kz Hz).
           unfold zombie_child, is_child, stateb in Hfind. by rewrite !bool_decide_eq_true_2 in Hfind.
Qed.

End WaitSteps.
