(* ===== verification/MachineSafe.v ===== *)
(** * MachineSafe: every step keeps the invariant

    The steps of [mstep] one by one, and the theorems about all reachable
    states. *)

From S2P Require Import Prelude Spinlock Proctab Mlfq Proc Scheduler SchedMlfq.
From S2P Require Import ProcSpec ForkSpec Tables Legs Machine MachineInv.

(** ** Resuming *)

Lemma set_ena_cpus c ena s k :
  cpus s !! c = Some k -> cpus (set_ena c ena s) = <[c := k <| intena := ena |>]> (cpus s).
Proof. intros Hk. unfold set_ena. cbn. by rewrite (upd_cpu_insert _ _ _ _ Hk). Qed.

Lemma on_ps_inv {A} (m : M pstate A) s l a st :
  on_ps m (s, l) = Ret a st -> exists s', m s = Ret a s' /\ st = (s', l).
Proof. unfold on_ps, zoom. cbn. destruct (m s); try done. intros [= <- <-]. eauto. Qed.

Lemma on_lk_inv {A} (m : M lstate A) s l a st :
  on_lk m (s, l) = Ret a st ->
  exists cs l', m (cpus s, l) = Ret a (cs, l') /\ st = (s <| cpus := cs |>, l').
Proof.
  unfold on_lk, zoom. cbn. destruct (m (cpus s, l)) as [? [cs l']| | |]; try done.
  intros [= <- <-]. eauto.
Qed.

(** Taking another lock only nests interrupts once more on the CPU. *)
Lemma acquire_inv c cs k lk a cs' lk' :
  ids_ok cs -> cs !! c = Some k -> cpu_ok k -> ncli k < 2 ^ 31 - 2 ->
  acquire c (cs, lk) = Ret a (cs', lk') -> cs' = <[c := push_cpu k]> cs.
Proof.
  intros Hids Hk Hok Hb H. rewrite (acquire_cases _ _ _ _ Hids Hk Hok Hb) in H.
  destruct (held_by c lk); [done|]. destruct (locked lk =? 0); [|done]. by injection H as _ <- _.
Qed.

Lemma release_lk_inv c cs k lk a cs' lk' :
  ids_ok cs -> cs !! c = Some k -> cpu_ok k -> 1 <= ncli k ->
  release c (cs, lk) = Ret a (cs', lk') -> cs' = <[c := pop_cpu k]> cs.
Proof.
  intros Hids Hk Hok Hb H. rewrite (release_cases _ _ _ _ Hids Hk Hok Hb) in H.
  destruct (held_by c lk); [|done]. by injection H as _ <- _.
Qed.

Section Resume.
Context {E : Type} {HSvc : Services E} {HReap : ReapOk (E := E)}.
Variable pol : policy.

Lemma step_yield_resume md pd c p (k k' : kern E) :
  cinv md (ps k) -> pinv pol pd (ps k) -> md !! c = Some (Switching p) ->
  lift (yield_resume c p) k = Ret tt k' ->
  cinv (<[c := Running p]> md) (ps k') /\ pinv pol pd (ps k').
Proof.
  intros Hc Hp Hm Hrun. pose proof (cinv_has_lock _ _ _ _ Hc Hm eq_refl) as Hl.
  apply lift_inv in Hrun as [Hrun _]. unfold yield_resume in Hrun. minv Hrun.
  destruct (sched_resume_inv _ _ _ _ _ Hl Hrun0) as [ena ->].
  rewrite release_pt_ok in Hrun by (by apply set_ena_has_lock). injection Hrun as Hps.
  rewrite <- Hps. split; [|done].
  destruct (cinv_cpu _ _ _ _ Hc Hm) as (kc & Hkc & Hok & Hb & _).
  destruct (c_mode _ _ Hc c _ kc Hm Hkc) as [_ Hn]. specialize (Hn eq_refl).
  set (ke := kc <| intena := ena |>). destruct (pop_cpu_ok ke Hok) as (R1 & R2 & R3 & R4); [change (1 <= ncli kc < 2 ^ 30); lia|].
  pose proof (lookup_lt_Some _ _ _ Hkc) as Hlt.
  eapply (resume_step _ _ _ _ _ kc (pop_cpu ke)); try done.
  - rewrite (unlockd_cpus _ _ ke); rewrite (set_ena_cpus _ _ _ _ Hkc);
      [by rewrite list_insert_insert_eq|by apply list_lookup_insert_eq].
  - rewrite R2. change (ncli ke) with (ncli kc). lia.
  - apply tame_list_refl.
Qed.

Lemma tame_chan_running l p k :
  l !! p = Some k -> state k = RUNNING -> tame_list l (alter (fun k => k <| chan := None |>) p l).
Proof.
  intros Hk Hs. apply tame_list_alter. intros k' Hk'. simplify_eq. split; auto. right. cbn. congruence.
Qed.

Lemma step_sleep_resume md pd c p lk lk' (k : kern E) s' :
  cinv md (ps k) -> pinv pol pd (ps k) -> md !! c = Some (Switching p) -> depth_ok (ps k) c ->
  wake_from c p lk lk' (ps k) s' ->
  cinv (<[c := Running p]> md) s' /\ pinv pol pd s'.
Proof.
  intros Hc Hp Hm (kc & Hkc & Hd) Hrun. pose proof (cinv_has_lock _ _ _ _ Hc Hm eq_refl) as Hl.
  destruct (c_runs _ _ Hc c _ p Hm eq_refl) as (kp & Hkp & Hst).
  destruct (c_mode _ _ Hc c _ kc Hm Hkc) as [_ Hn]. specialize (Hn eq_refl).
  destruct (c_cpu _ _ Hc c kc Hkc) as [Hok _]. pose proof (lookup_lt_Some _ _ _ Hkc) as Hlt.
  unfold wake_from, sleep_resume in Hrun.
  apply bind_inv in Hrun as ([] & st1 & H1 & Hrun). apply on_ps_inv in H1 as (s1 & H1 & ->).
  destruct (sched_resume_inv _ _ _ _ _ Hl H1) as [ena ->].
  apply bind_inv in Hrun as ([] & st2 & H2 & Hrun). apply on_ps_inv in H2 as (s2 & H2 & ->).
  apply upd_proc_inv in H2 as (_ & _ & ->).
  apply bind_inv in Hrun as ([] & st3 & H3 & Hrun). apply on_ps_inv in H3 as (s3 & H3 & ->).
  rewrite release_pt_ok in H3 by exact (set_ena_has_lock _ ena _ Hl). injection H3 as H3.
  set (ke := kc <| intena := ena |>). assert (Hoke : cpu_ok ke) by done.
  assert (Hnke : 1 <= ncli ke < 2 ^ 30) by (change (1 <= ncli kc < 2 ^ 30); lia).
  destruct (pop_cpu_ok ke Hoke Hnke) as (R1 & R2 & R3 & R4).
  assert (Hcs3 : cpus s3 = <[c := pop_cpu ke]> (cpus (ps k))).
  { rewrite <- H3. transitivity (cpus (unlockd c (set_ena c ena (ps k)))); [done|].
    rewrite (unlockd_cpus _ _ ke); rewrite (set_ena_cpus _ _ _ _ Hkc);
      [by rewrite list_insert_insert_eq|by apply list_lookup_insert_eq]. }
  apply on_lk_inv in Hrun as (cs & l' & Hacq & [= -> <-]).
  apply (acquire_inv _ _ (pop_cpu ke)) in Hacq; [|rewrite Hcs3..|done|change (ncli ke) with (ncli kc) in R2; lia].
  2: { eapply ids_ok_insert; [exact (c_ids _ _ Hc)|done|done]. }
  2: { by apply list_lookup_insert_eq. }
  rewrite Hcs3, list_insert_insert_eq in Hacq.
  assert (Hnp : ncli (pop_cpu ke) < 2 ^ 20) by (change (ncli ke) with (ncli kc) in R2; lia).
  destruct (push_cpu_ok (pop_cpu ke) R1) as [P1 P2]. destruct R1 as [Q1 Q2].
  assert (Ht : tame_list (procs (ps k)) (procs s3)).
  { rewrite <- H3. by eapply tame_chan_running. }
  split.
  - eapply (resume_step _ _ _ _ _ kc (push_cpu (pop_cpu ke))); try done.
    + unfold cpu_ok. rewrite P1. split; [lia|done].
    + lia.
    + by rewrite <- H3.
  - unfold pinv. rewrite <- H3. cbn. eapply tinv_tame; [|exact Hp]. by eapply tame_chan_running.
Qed.

(** [wait]'s loop after its [sleep]. *)
Lemma step_wait_resume md pd c p r (k k' : kern E) :
  cinv md (ps k) -> pinv pol pd (ps k) -> md !! c = Some (Switching p) -> wait_again c p k r k' ->
  cinv (<[c := wait_mode p r]> md) (ps k') /\ pinv pol pd (ps k').
Proof.
  intros Hc Hp Hm (s1 & Hres & Hrun). pose proof (cinv_has_lock _ _ _ _ Hc Hm eq_refl) as Hl.
  destruct (c_runs _ _ Hc c _ p Hm eq_refl) as (kp & Hkp & Hst).
  destruct (cinv_cpu _ _ _ _ Hc Hm) as (kc & Hkc & Hok & Hb & Hcp).
  destruct (c_mode _ _ Hc c _ kc Hm Hkc) as [_ Hn]. specialize (Hn eq_refl).
  unfold sleep_resume in Hres.
  apply bind_inv in Hres as ([] & st1 & H1 & Hres). apply on_ps_inv in H1 as (s2 & H1 & ->).
  destruct (sched_resume_inv _ _ _ _ _ Hl H1) as [ena ->].
  apply bind_inv in Hres as ([] & st2 & H2 & Hres). apply on_ps_inv in H2 as (s3 & H2 & ->).
  apply upd_proc_inv in H2 as (_ & _ & ->). injection Hres as <-.
  match type of Hrun with wait_scan c p ?x = _ => set (k1 := x) in Hrun end.
  eapply (wait_scan_step pol md pd c (Switching p) p (ps k) k1 k' kc (kc <| intena := ena |>)); try done.
  - by left.
  - by apply set_ena_cpus.
  - by apply (c_held _ _ Hc c _ Hm).
  - by eapply tame_chan_running.
  - unfold pinv. cbn. eapply tinv_tame; [|exact Hp]. by eapply tame_chan_running.
Qed.

End Resume.

(** ** Giving up the CPU *)

(** Process [p] has changed its state and switches to the scheduler. *)
Lemma leave_step md c p s s' k k1 :
  cinv md s -> md !! c = Some (Running p) -> ptlock s = initlock -> cpus s !! c = Some k ->
  cpus s' = <[c := k1]> (cpus s) -> apicid k1 = apicid k -> cproc k1 = cproc k -> cpu_ok k1 ->
  1 <= ncli k1 < 2 ^ 30 -> ptlock s' = Spinlock 1 (Some c) ->
  (forall q, running_in (procs s') q <-> running_in (procs s) q /\ q <> p) ->
  cinv (<[c := Yielded p]> md) s'.
Proof.
  intros Hc Hm Hfree Hk Hcs Hid Hcp Hok Hn Hlk Hrun. eapply cinv_step; [done|exact Hm|].
  destruct (c_mode _ _ Hc c _ k Hm Hk) as [Hcp' _].
  apply (cpu_step_intro c (Running p) (Yielded p) _ _ k k1); try done.
  - exact (c_ids _ _ Hc).
  - lia.
  - by rewrite Hcp.
  - lia.
  - intros q. rewrite Hrun. cbn. naive_solver.
  - by right.
Qed.

(** The CPU that has just taken the lock. *)
Lemma lockd_cpu c s k :
  cpus s !! c = Some k -> cpu_ok k -> ncli k < 2 ^ 20 ->
  cpus (lockd c s) = <[c := push_cpu k]> (cpus s) /\ cpus (lockd c s) !! c = Some (push_cpu k) /\
  cpu_ok (push_cpu k) /\ 1 <= ncli (push_cpu k) < 2 ^ 30 /\
  cproc (push_cpu k) = cproc k /\ apicid (push_cpu k) = apicid k.
Proof.
  intros Hk Hok Hd. destruct (push_cpu_ok k Hok) as [P1 P2]. destruct Hok as [Q1 Q2].
  split_and!; try done.
  - cbn. by rewrite (list_alter_insert _ _ _ _ Hk).
  - cbn. by rewrite list_lookup_alter_eq, Hk.
  - unfold cpu_ok. rewrite P1. split; [lia|done].
  - lia.
  - lia.
Qed.

Lemma my_proc_any c s kc :
  ids_ok (cpus s) -> cpus s !! c = Some kc -> cpu_ok kc ->
  my_proc c s = Ret (cproc kc) (s <| cpus ::= <[c := rest_cpu kc]> |>).
Proof. intros Hids Hkc Hok. unfold my_proc. msimp. by rewrite (myproc_ok _ _ _ Hids Hkc Hok). Qed.

(** [myproc()] and then [acquire(&ptable.lock)]. *)
Lemma rest_acquire md s c m kc a s2 :
  cinv md s -> md !! c = Some m -> holds m = false -> cpus s !! c = Some kc -> ncli kc < 2 ^ 20 ->
  acquire_pt c (s <| cpus ::= <[c := rest_cpu kc]> |>) = Ret a s2 ->
  ptlock s = initlock /\
  s2 = s <| cpus ::= <[c := push_cpu (rest_cpu kc)]> |> <| ptlock := Spinlock 1 (Some c) |> /\
  cpu_ok (push_cpu (rest_cpu kc)) /\ 1 <= ncli (push_cpu (rest_cpu kc)) < 2 ^ 30 /\
  cpus s2 = <[c := push_cpu (rest_cpu kc)]> (cpus s) /\
  cproc (push_cpu (rest_cpu kc)) = cproc kc /\ apicid (push_cpu (rest_cpu kc)) = apicid kc.
Proof.
  intros Hc Hm Hh Hkc Hd Hacq. destruct (c_cpu _ _ Hc c kc Hkc) as [Hok Hb].
  destruct (rest_cpu_ok kc Hok) as (R1 & R2 & R3 & R4). pose proof (lookup_lt_Some _ _ _ Hkc) as Hlt.
  set (s1 := s <| cpus ::= <[c := rest_cpu kc]> |>) in *.
  assert (Hids : ids_ok (cpus s1)) by (by eapply ids_ok_insert; [exact (c_ids _ _ Hc)|..]).
  assert (Hkc1 : cpus s1 !! c = Some (rest_cpu kc)) by (by apply list_lookup_insert_eq).
  assert (Hfree : ptlock s1 = initlock).
  { eapply acquire_free; [done|done|done|lia|exact (cinv_elsewhere _ _ _ _ Hc Hm Hh)|exact Hacq]. }
  assert (Hcl : can_lock c s1).
  { split_and!; [done|done|]. exists (rest_cpu kc). split_and!; [done|apply R1..|lia]. }
  rewrite acquire_pt_ok in Hacq by done. injection Hacq as <- Hs2.
  destruct (lockd_cpu c s1 (rest_cpu kc) Hkc1 R1 ltac:(lia)) as (L1 & L2 & L3 & L4 & L5 & L6).
  assert (Hcs : cpus s2 = <[c := push_cpu (rest_cpu kc)]> (cpus s)).
  { rewrite <- Hs2, L1. cbn. by rewrite list_insert_insert_eq. }
  refine (conj Hfree (conj _ (conj L3 (conj L4 (conj Hcs (conj _ _)))))); [|by rewrite L5|by rewrite L6].
  rewrite <- Hs2. unfold lockd, s1, setf. cbn. rewrite (list_alter_insert _ _ _ _ Hkc1). cbn.
  by rewrite list_insert_insert_eq.
Qed.

Lemma running_ctx l p f :
  (forall k, state (f k) = state k) -> forall q, running_in (alter f p l) q <-> running_in l q.
Proof.
  intros Hf. apply running_states. apply list_eq. intros i. rewrite !list_lookup_fmap.
  destruct (decide (i = p)) as [->|].
  - rewrite list_lookup_alter_eq. destruct (l !! p); [|done]. cbn. by rewrite Hf.
  - by rewrite list_lookup_alter_ne.
Qed.

Lemma tame_ctx l p ena : tame_list l (alter (fun k => k <| ctx_eip := ResumeSched ena |>) p l).
Proof. apply tame_list_alter. intros. split; auto. Qed.

Section Leave.
Context {E : Type} {HSvc : Services E} {HReap : ReapOk (E := E)}.
Variable pol : policy.

Lemma step_exit md pd c p (k k' : kern E) :
  cinv md (ps k) -> pinv pol pd (ps k) -> md !! c = Some (Running p) ->
  initproc (ps k) <> Some p -> depth_ok (ps k) c -> lift (exit_locked c p) k = Ret tt k' ->
  cinv (<[c := Yielded p]> md) (ps k') /\ pinv pol pd (ps k').
Proof.
  intros Hc Hp Hm Hip (kc & Hkc & Hd) Hrun. apply lift_inv in Hrun as [Hrun _].
  destruct (c_runs _ _ Hc c _ p Hm eq_refl) as (kp & Hkp & Hst).
  destruct (c_cpu _ _ Hc c kc Hkc) as [Hok _]. destruct (c_mode _ _ Hc c _ kc Hm Hkc) as [Hcp _].
  assert (Hacq : exists a s1, acquire_pt c (ps k) = Ret a s1) by (unfold exit_locked in Hrun; minv Hrun; eauto).
  destruct Hacq as (a & s1 & Hacq).
  destruct (cinv_acquire _ _ _ _ _ _ Hc Hm eq_refl Hacq) as [Hcl _]. pose proof (lockd_has_lock _ _ Hcl) as Hl.
  destruct (lockd_cpu c (ps k) kc Hkc Hok Hd) as (L1 & L2 & L3 & L4 & L5 & L6).
  pose proof (t_parent _ _ _ _ _ _ _ Hp p kp Hkp) as Hpp.
  rewrite (exit_locked_sched c p kp _ Hcl Hkp) in Hrun.
  set (s2 := (lockd c (ps k)) <| procs := exited p (ps k) kp |>) in *.
  pose proof (exited_self_eq p (ps k) kp Hkp Hst Hpp) as Hself.
  assert (Hcp2 : cproc (push_cpu kc) = Some p) by (by rewrite L5, Hcp).
  destruct (sched_inv c p s2 (push_cpu kc) _ tt (ps k') Hl L2 Hcp2 Hself Hrun) as (_ & _ & Hps).
  rewrite Hps. split.
  - eapply (leave_step md c p (ps k) _ kc (push_cpu kc)); try done.
    + by destruct Hcl as (_ & ? & _).
    + intros q. cbn. rewrite running_ctx by done. split.
      * intros (kq & Hkq & Hsq).
        destruct (exited_inv _ _ _ _ _ Hkp Hst Hpp Hkq) as [[-> ->]|(Hne & kq0 & Hq0 & ->)]; [done|].
        split; [|done]. exists kq0. split; [done|].
        destruct (adopted_woken_fields p (initproc (ps k)) (exit_wakes p (ps k) kp kq0) kq0) as (_ & _ & _ & _ & _ & _ & _ & _ & F).
        rewrite F in Hsq. by destruct (exit_wakes _ _ _ _).
      * intros [(kq & Hkq & Hsq) Hne]. exists (exit_other p (initproc (ps k)) (exit_wakes p (ps k) kp kq) kq).
        split; [by apply exited_other_eq|].
        assert (Hw : exit_wakes p (ps k) kp kq = false).
        { unfold exit_wakes, stateb. by rewrite bool_decide_eq_false_2 by congruence. }
        destruct (adopted_woken_fields p (initproc (ps k)) (exit_wakes p (ps k) kp kq) kq) as (_ & _ & _ & _ & _ & _ & _ & _ & F).
        by rewrite F, Hw.
  - unfold pinv. cbn. eapply tinv_tame; [apply tame_ctx|]. by apply tinv_exit.
Qed.

Lemma step_wait md pd c p r (k k' : kern E) :
  cinv md (ps k) -> pinv pol pd (ps k) -> md !! c = Some (Running p) -> depth_ok (ps k) c ->
  wait c k = Ret r k' ->
  cinv (<[c := wait_mode p r]> md) (ps k') /\ pinv pol pd (ps k').
Proof.
  intros Hc Hp Hm (kc & Hkc & Hd) Hrun.
  destruct (c_cpu _ _ Hc c kc Hkc) as [Hok _]. destruct (c_mode _ _ Hc c _ kc Hm Hkc) as [Hcp _].
  unfold wait in Hrun.
  rewrite (bind_ret _ _ _ _ _ (lift_eq _ _ _ _ (my_proc_any c _ _ (c_ids _ _ Hc) Hkc Hok))), Hcp in Hrun.
  set (s1 := (ps k) <| cpus ::= <[c := rest_cpu kc]> |>) in *. set (k1 := k <| ps := s1 |>) in *.
  rewrite (bind_ret (deref (Some p)) _ k1 p k1 eq_refl) in Hrun.
  apply bind_inv in Hrun as (a & k2 & Hacq & Hrun). apply lift_inv in Hacq as [Hacq Hk2].
  change (ps k1) with s1 in Hacq.
  destruct (rest_acquire md (ps k) c (Running p) kc a (ps k2) Hc Hm eq_refl Hkc Hd Hacq) as (Hfree & Hps2 & R1 & R2 & R3 & R4 & R5).
  eapply (wait_scan_step pol md pd c (Running p) p (ps k) k2 k' kc (push_cpu (rest_cpu kc))); try done.
  - by right.
  - by rewrite Hps2.
  - rewrite Hps2. apply tame_list_refl.
  - by rewrite Hps2.
Qed.

(** What [yield] makes of the entry of the process. *)
Definition yielded (k : proc) : proc :=
  let k1 := k <| state := RUNNABLE |> in
  match pol with
  | MLFQ => k1 <| cur_time := 0 |> <| queueNo ::= fun q => s32 (q + 1) |>
  | _ => k1
  end.

(** What a process is left with when [yield] reaches [sched]. *)
Lemma yield_sched c p s kp :
  can_lock c s -> queues_inv pol (procs s) (mq s) -> length (procs s) = 64%nat ->
  (exists kc, cpus (lockd c s) !! c = Some kc /\ cproc kc = Some p) ->
  procs s !! p = Some kp -> 0 <= queueNo kp <= 4 -> (pol = MLFQ -> queueNo kp <> 4) ->
  exists kp' q', yield pol c s = sched c ((lockd c s) <| procs := <[p := kp']> (procs s) |> <| mq := q' |>) /\
    state kp' = RUNNABLE /\ same_ids kp kp' /\ 0 <= queueNo kp' <= 4 /\
    queues_inv pol (<[p := kp']> (procs s)) q' /\ kp' = yielded kp.
Proof.
  intros Hcl Hq Hlen (kc & Hkc & Hcp) Hkp Hqn Hq4. pose proof (lockd_has_lock _ _ Hcl) as Hl.
  unfold yield. rewrite (bind_ret _ _ _ _ _ (acquire_pt_ok _ _ Hcl)).
  rewrite (bind_ret _ _ _ _ _ (my_proc_locked _ _ _ Hl Hkc)), Hcp.
  rewrite (bind_ret (deref (Some p)) _ _ p _ eq_refl).
  rewrite (bind_ret _ _ _ _ _ (upd_proc_ok p _ (lockd c s) kp Hkp)).
  rewrite (procs_alter_insert _ p (lockd c s) kp Hkp). change (procs (lockd c s)) with (procs s).
  set (kr := kp <| state := RUNNABLE |>).
  assert (Hsimple : queues_inv pol (<[p := kr]> (procs s)) (mq s)) by (by apply queues_inv_insert).
  assert (Hid : (lockd c s) <| procs := <[p := kr]> (procs s) |> =
                (lockd c s) <| procs := <[p := kr]> (procs s) |> <| mq := mq s |>) by (by destruct s).
  pose proof (lookup_lt_Some _ _ _ Hkp) as Hlt.
  assert (Hsid : same_ids kp kr) by (by split).
  unfold yielded. destruct pol; try (exists kr, (mq s); split; [by rewrite <- Hid|exact (conj eq_refl (conj Hsid (conj Hqn (conj Hsimple eq_refl))))]).
  specialize (Hq4 eq_refl).
  set (s1 := (lockd c s) <| procs := <[p := kr]> (procs s) |>).
  assert (Hk1 : procs s1 !! p = Some kr) by (by apply list_lookup_insert_eq).
  set (ky := kr <| cur_time := 0 |> <| queueNo ::= fun q => s32 (q + 1) |>).
  assert (Hqy : queueNo ky = Z.of_nat (Z.to_nat (queueNo kp + 1))) by (cbn; rewrite s32_small; lia).
  set (s2 := (lockd c s) <| procs := <[p := ky]> (procs s) |>).
  assert (Hk2 : procs s2 !! p = Some ky) by (by apply list_lookup_insert_eq).
  destruct (queues_inv_push (<[p := ky]> (procs s)) s2 (Z.to_nat (queueNo kp + 1)) p) as (b & q' & Hpush & Hq').
  { by apply queues_inv_insert. }
  { cbn. by rewrite length_insert. }
  { unfold NQUEUE. lia. }
  { lia. }
  { rewrite list_lookup_insert_eq by done. by intros ? [= <-]. }
  assert (Hsiy : same_ids kp ky) by (by split).
  exists ky, q'. split; [|split_and!; try done; rewrite Hqy; lia].
  rewrite bind_assoc, (bind_ret _ _ s1 tt s2).
  2: { rewrite (upd_proc_ok p _ s1 kr Hk1), (procs_alter_insert _ p s1 kr Hk1). unfold s1, s2. f_equal.
       cbn. by rewrite list_insert_insert_eq. }
  rewrite bind_assoc, (bind_ret _ _ _ _ _ (get_proc_ok p s2 ky Hk2)), Hqy.
  rewrite (bind_ret _ _ _ _ _ Hpush). by rewrite (pushed_fresh _ _ _ _ ky Hk2).
Qed.

(** A RUNNING process that takes another state leaves the others running. *)
Lemma running_leave l p kp kp' :
  l !! p = Some kp -> state kp' <> RUNNING ->
  forall q, running_in (<[p := kp']> l) q <-> running_in l q /\ q <> p.
Proof. intros Hk Hs q. rewrite (running_insert _ _ _ _ Hk). naive_solver. Qed.

Lemma step_yield md pd c p kp (k k' : kern E) :
  cinv md (ps k) -> pinv pol pd (ps k) -> md !! c = Some (Running p) ->
  procs (ps k) !! p = Some kp -> (pol = MLFQ -> queueNo kp <> 4) -> depth_ok (ps k) c ->
  lift (yield pol c) k = Ret tt k' ->
  cinv (<[c := Yielded p]> md) (ps k') /\ pinv pol pd (ps k').
Proof.
  intros Hc Hp Hm Hkp Hq4 (kc & Hkc & Hd) Hrun. apply lift_inv in Hrun as [Hrun _].
  destruct (c_runs _ _ Hc c _ p Hm eq_refl) as (kp' & Hkp' & Hst). rewrite Hkp in Hkp'. injection Hkp' as <-.
  destruct (c_cpu _ _ Hc c kc Hkc) as [Hok _]. destruct (c_mode _ _ Hc c _ kc Hm Hkc) as [Hcp _].
  assert (Hacq : exists a s1, acquire_pt c (ps k) = Ret a s1) by (unfold yield in Hrun; minv Hrun; eauto).
  destruct Hacq as (a & s1 & Hacq).
  destruct (cinv_acquire _ _ _ _ _ _ Hc Hm eq_refl Hacq) as [Hcl _]. pose proof (lockd_has_lock _ _ Hcl) as Hl.
  destruct (lockd_cpu c (ps k) kc Hkc Hok Hd) as (L1 & L2 & L3 & L4 & L5 & L6).
  assert (Hcp2 : cproc (push_cpu kc) = Some p) by (by rewrite L5, Hcp).
  destruct (t_proc _ _ _ _ _ _ _ Hp p kp Hkp) as [Hqn _]. pose proof (lookup_lt_Some _ _ _ Hkp) as Hlt.
  destruct (yield_sched c p (ps k) kp Hcl (tinv_queues _ _ _ _ _ _ _ Hp) (t_len _ _ _ _ _ _ _ Hp)
              (ex_intro _ _ (conj L2 Hcp2)) Hkp Hqn Hq4) as (kp' & q' & Hy & Hr & Hsid & Hqn' & Hq' & _).
  rewrite Hy in Hrun. set (s2 := (lockd c (ps k)) <| procs := _ |> <| mq := q' |>) in *.
  assert (Hk2 : procs s2 !! p = Some kp') by (by apply list_lookup_insert_eq).
  destruct (sched_inv c p s2 (push_cpu kc) kp' tt (ps k') Hl L2 Hcp2 Hk2 Hrun) as (_ & _ & Hps).
  rewrite Hps. split.
  - eapply (leave_step md c p (ps k) _ kc (push_cpu kc)); try done.
    + by destruct Hcl as (_ & ? & _).
    + intros q. cbn. rewrite running_ctx by done. apply (running_leave _ _ kp); [done|congruence].
  - unfold pinv. cbn. eapply tinv_tame; [apply tame_ctx|].
    eapply tinv_restate; try done; congruence.
Qed.

Lemma step_sleep md pd c p ch lk lk' (k : kern E) s' kc :
  cinv md (ps k) -> pinv pol pd (ps k) -> md !! c = Some (Running p) ->
  (forall j, ch <> Some (ChProc j)) -> depth_ok (ps k) c -> cpus (ps k) !! c = Some kc -> 1 <= ncli kc ->
  sleep_on c ch lk lk' (ps k) s' ->
  cinv (<[c := Yielded p]> md) s' /\ pinv pol pd s'.
Proof.
  intros Hc Hp Hm Hch (kc' & Hkc' & Hd) Hkc Hn Hrun. rewrite Hkc in Hkc'. injection Hkc' as <-.
  destruct (c_runs _ _ Hc c _ p Hm eq_refl) as (kp & Hkp & Hst).
  destruct (c_cpu _ _ Hc c kc Hkc) as [Hok _]. destruct (c_mode _ _ Hc c _ kc Hm Hkc) as [Hcp _].
  pose proof (lookup_lt_Some _ _ _ Hkc) as Hlt. unfold sleep_on, sleep in Hrun.
  apply bind_inv in Hrun as (mp & st1 & H1 & Hrun). apply on_ps_inv in H1 as (s1 & H1 & ->).
  rewrite (my_proc_any c _ _ (c_ids _ _ Hc) Hkc Hok), Hcp in H1. injection H1 as <- <-.
  apply bind_inv in Hrun as ([] & st2 & H2 & Hrun).
  apply bind_inv in H2 as (a & st3 & Hacq & Hrel). apply on_ps_inv in Hacq as (s2 & Hacq & ->).
  destruct (rest_acquire md (ps k) c (Running p) kc a s2 Hc Hm eq_refl Hkc Hd Hacq)
    as (Hfree & Hps2 & R1 & R2 & R3 & R4 & R5).
  rewrite rest_nested_cpu in * by lia. destruct (push_cpu_ok kc Hok) as [P1 _].
  apply on_lk_inv in Hrel as (cs & l' & Hrel & ->).
  apply (release_lk_inv _ _ (push_cpu kc)) in Hrel; [|rewrite R3..|done|lia].
  2: { by eapply ids_ok_insert; [exact (c_ids _ _ Hc)|..]. }
  2: { by apply list_lookup_insert_eq. }
  rewrite R3, list_insert_insert_eq, pop_push_cpu, rest_nested_cpu in Hrel by (done || lia).
  rewrite list_insert_id in Hrel by done. subst cs.
  assert (Es : s2 <| cpus := cpus (ps k) |> = (ps k) <| ptlock := Spinlock 1 (Some c) |>) by (by rewrite Hps2).
  rewrite Es in Hrun. set (s3 := (ps k) <| ptlock := Spinlock 1 (Some c) |>) in *.
  apply bind_inv in Hrun as ([] & st4 & H4 & Hrun). apply on_ps_inv in H4 as (s4 & H4 & ->).
  apply upd_proc_inv in H4 as (_ & _ & ->). apply on_ps_inv in Hrun as (s5 & Hrun & [= <- _]).
  set (ks := kp <| chan := ch |> <| state := SLEEPING |>).
  rewrite (procs_alter_insert _ p s3 kp Hkp) in Hrun. fold ks in Hrun.
  set (s4 := s3 <| procs := <[p := ks]> (procs s3) |>) in *.
  pose proof (lookup_lt_Some _ _ _ Hkp) as Hltp.
  assert (Hk4 : procs s4 !! p = Some ks) by (by apply list_lookup_insert_eq).
  assert (Hl4 : has_lock c s4).
  { split_and!; [exact (c_ids _ _ Hc)| |exists kc; split_and!; [done|apply Hok..|done]].
    unfold held_by. cbn. by apply bool_decide_eq_true_2. }
  destruct (sched_inv c p s4 kc ks tt s' Hl4 Hkc Hcp Hk4 Hrun) as (Hn1 & _ & Hps).
  rewrite Hps. split.
  - eapply (leave_step md c p (ps k) _ kc kc); try done.
    + by rewrite list_insert_id.
    + lia.
    + intros q. cbn. rewrite running_ctx by done. by apply (running_leave _ _ kp).
  - destruct (t_proc _ _ _ _ _ _ _ Hp p kp Hkp) as [Hqn _].
    unfold pinv. cbn. eapply tinv_tame; [apply tame_ctx|].
    eapply tinv_restate; try done; try congruence.
    + apply queues_inv_insert; [by eapply tinv_queues|done].
    + intros j _ Hc'. by destruct (Hch j).
Qed.

End Leave.

(** ** Operations that leave the CPU with the process *)

Section Stay.
Context {E : Type} {HSvc : Services E}.
Variable pol : policy.

Lemma step_alloc md pd c p mp (k k' : kern E) :
  cinv md (ps k) -> pinv pol pd (ps k) -> md !! c = Some (Running p) ->
  nextpid (ps k) < 2 ^ 31 - 1 -> lift (alloc_slot pol c) k = Ret mp k' ->
  cinv md (ps k') /\ pinv pol pd (ps k').
Proof.
  intros Hc Hp Hm Hn Hrun. apply lift_inv in Hrun as [Hrun _].
  assert (Hacq : exists a s1, acquire_pt c (ps k) = Ret a s1) by (unfold alloc_slot in Hrun; minv Hrun; eauto).
  destruct Hacq as (a & s1 & Hacq). destruct (cinv_acquire _ _ _ _ _ _ Hc Hm eq_refl Hacq) as [Hcl _].
  pose proof (tinv_queues _ _ _ _ _ _ _ Hp) as Hqi. pose proof (t_len _ _ _ _ _ _ _ Hp) as Hlen.
  assert (Hmq : mlfq_ok pol (ps k)).
  { intros _. split; [done|]. destruct Hqi as (ls & ? & ? & _). eauto. }
  pose proof (alloc_slot_ok pol c (ps k) Hcl Hmq) as Ha. unfold slot_of in Ha.
  destruct (findi (stateb UNUSED) (procs (ps k))) as [np|] eqn:Hfind.
  - destruct Ha as (q' & Hrun' & Hq1 & Hq2). rewrite Hrun' in Hrun. injection Hrun as <- Hps.
    destruct (proj1 (findi_Some _ _ _) Hfind) as [(kn & Hkn & Hst%bool_decide_eq_true) _].
    set (ki := init_proc (nextpid (ps k)) (ticks (ps k)) kn) in *.
    assert (Hpr : procs (ps k') = <[np := ki]> (procs (ps k))).
    { rewrite <- Hps. cbn. by rewrite (list_alter_insert _ _ _ _ Hkn). }
    split.
    + eapply (locked_step md c (Running p) (ps k) (ps k') (<[np := ki]> (procs (ps k)))); try done.
      * by rewrite <- Hps.
      * by rewrite <- Hps.
      * intros q. rewrite (running_insert _ _ _ _ Hkn). split; [intros [[_ ?]|[_ ?]]; done|].
        intros Hq. right. split; [|done]. intros ->. destruct Hq as (kq & Hkq & Hsq). congruence.
    + unfold pinv. rewrite Hpr. rewrite <- Hps. cbn. eapply tinv_alloc; try done.
      destruct (decide (pol = MLFQ)) as [->|Hne]; [|rewrite Hq1 by done; by apply queues_inv_insert].
      destruct Hqi as (ls & Habs & Hok & _ & Hnr).
      destruct (Hq2 ls eq_refl Habs Hok) as (ls' & Habs' & Hok' & _ & Hiff).
      exists ls'. split_and!; try done. intros r kr [[-> ->]|[Hne Hr]]%lookup_insert_cases Hs; [done|].
      rewrite Hiff. intros [->|Hin]; [done|by apply (Hnr r kr)].
  - rewrite Ha in Hrun. injection Hrun as <- Hps. rewrite <- Hps. split; [|done].
    by eapply (locked_step md c (Running p) (ps k)).
Qed.

Lemma step_embryo md pd np kn kn' (s : pstate) :
  cinv md s -> pinv pol pd s -> procs s !! np = Some kn -> state kn = EMBRYO ->
  embryo_write (initproc s) np kn kn' ->
  cinv md (s <| procs ::= <[np := kn']> |>) /\ pinv pol pd (s <| procs ::= <[np := kn']> |>).
Proof.
  intros [C1 C2 C3 C4 C5 C6 C7 C8 C9 C10] Hp Hk Hs Hw.
  assert (Hrun : forall q, running_in (<[np := kn']> (procs s)) q <-> running_in (procs s) q).
  { intros q. rewrite (running_insert _ _ _ _ Hk). destruct (ew_state _ _ _ _ Hw) as [H|H]; rewrite H.
    all: split; [intros [[_ ?]|[_ ?]]; done|].
    all: intros Hq; right; split; [|done]; intros ->; destruct Hq as (kq & Hkq & Hsq); congruence. }
  split; [split; try done; cbn; intros; try apply Hrun; eauto|].
  - destruct (C7 p) as (c & m & ? & ?); [by apply Hrun|]. eauto.
  - by eapply tinv_embryo.
Qed.

Lemma step_ready md pd c p np kn (k k' : kern E) :
  cinv md (ps k) -> pinv pol pd (ps k) -> md !! c = Some (Running p) ->
  procs (ps k) !! np = Some kn -> state kn = EMBRYO -> lift (make_runnable c np) k = Ret tt k' ->
  cinv md (ps k') /\ pinv pol pd (ps k').
Proof.
  intros Hc Hp Hm Hk Hs Hrun. apply lift_inv in Hrun as [Hrun _].
  assert (Hacq : exists a s1, acquire_pt c (ps k) = Ret a s1) by (unfold make_runnable in Hrun; minv Hrun; eauto).
  destruct Hacq as (a & s1 & Hacq). destruct (cinv_acquire _ _ _ _ _ _ Hc Hm eq_refl Hacq) as [Hcl _].
  unfold make_runnable in Hrun. rewrite (bind_ret _ _ _ _ _ (acquire_pt_ok _ _ Hcl)) in Hrun.
  rewrite (bind_ret _ _ _ _ _ (upd_proc_ok np _ (lockd c (ps k)) kn Hk)) in Hrun.
  rewrite (procs_alter_insert _ np (lockd c (ps k)) kn Hk) in Hrun. apply release_inv in Hrun; [|done].
  rewrite Hrun. destruct (t_proc _ _ _ _ _ _ _ Hp np kn Hk) as [Hqn _]. split.
  - eapply (locked_step md c (Running p) (ps k)); try done.
    intros q. cbn. rewrite (running_insert _ _ _ _ Hk). split; [intros [[_ ?]|[_ ?]]; done|].
    intros Hq. right. split; [|done]. intros ->. destruct Hq as (kq & Hkq & Hsq). congruence.
  - unfold pinv. cbn. eapply tinv_restate; try done; try congruence.
    apply queues_inv_insert; [by eapply tinv_queues|done].
Qed.

Lemma step_table md pd c m op (k k' : kern E) :
  cinv md (ps k) -> pinv pol pd (ps k) -> md !! c = Some m -> holds m = false ->
  table_op pol c op -> lift op k = Ret tt k' ->
  cinv md (ps k') /\ pinv pol pd (ps k').
Proof.
  intros Hc Hp Hm Hh Hop Hrun. apply lift_inv in Hrun as [Hrun _].
  destruct (table_op_tame _ _ _ Hop) as [H1 H2]. destruct (H1 _ _ Hrun) as (a & s1 & Hacq).
  destruct (cinv_acquire _ _ _ _ _ _ Hc Hm Hh Hacq) as [Hcl _].
  destruct (H2 _ _ Hcl Hrun) as (pr & Ht & ->). split.
  - eapply (locked_step md c m (ps k)); try done. by apply running_tame.
  - unfold pinv. cbn. by eapply tinv_tame.
Qed.

Lemma step_times md c m (k k' : kern E) :
  cinv md (ps k) -> pinv pol true (ps k) -> md !! c = Some m -> holds m = false ->
  lift (modify_times pol c) k = Ret tt k' ->
  cinv md (ps k') /\ pinv pol false (ps k').
Proof.
  intros Hc Hp Hm Hh Hrun. apply lift_inv in Hrun as [Hrun _].
  assert (Hacq : exists a s1, acquire_pt c (ps k) = Ret a s1) by (unfold modify_times in Hrun; minv Hrun; eauto).
  destruct Hacq as (a & s1 & Hacq). destruct (cinv_acquire _ _ _ _ _ _ Hc Hm Hh Hacq) as [Hcl _].
  unfold modify_times in Hrun. rewrite (bind_ret _ _ _ _ _ (acquire_pt_ok _ _ Hcl)) in Hrun.
  rewrite (bind_ret (gets (fun s => s)) _ _ _ _ eq_refl) in Hrun.
  destruct (wp_elim _ _ _ (tick_loop_ok pol (lockd c (ps k)) true Hp eq_refl)) as ([] & s2 & Hloop & Hinv & Hs2 & Hst).
  rewrite (bind_ret _ _ _ _ _ Hloop) in Hrun.
  rewrite release_pt_ok in Hrun by (rewrite Hs2; exact (lockd_has_lock _ _ Hcl)). injection Hrun as Hps.
  rewrite <- Hps. split.
  - eapply (locked_step md c m (ps k) _ (procs s2)); try done; [by rewrite Hs2|]. by apply running_states.
  - unfold pinv. rewrite Hs2. exact Hinv.
Qed.

(** Interrupt nesting for other locks. *)
Lemma step_cpus md pd c m kc kc' (s : pstate) :
  cinv md s -> pinv pol pd s -> md !! c = Some m -> holds m = false -> cpus s !! c = Some kc ->
  apicid kc' = apicid kc -> cproc kc' = cproc kc -> cpu_ok kc' -> ncli kc' < 2 ^ 30 ->
  cinv md (s <| cpus := <[c := kc']> (cpus s) |>) /\ pinv pol pd (s <| cpus := <[c := kc']> (cpus s) |>).
Proof.
  intros [C1 C2 C3 C4 C5 C6 C7 C8 C9 C10] Hp Hm Hh Hk Hid Hcp Hok Hb. split; [|done].
  split; try done; cbn.
  - by rewrite length_insert.
  - by eapply ids_ok_insert.
  - intros d kd [[-> ->]|[_ Hd]]%lookup_insert_cases; [done|eauto].
  - intros d md' kd Hd [[-> ->]|[_ Hkd]]%lookup_insert_cases; [|eauto].
    rewrite Hd in Hm. injection Hm as ->. rewrite Hcp, Hh. split; [by eapply C4|done].
Qed.

Lemma own_write_tame k k' : own_write k k' -> tame k k'.
Proof. intros (sz & pd & t & fr & kl & fs & cw & nm & ->). by split; auto. Qed.

Lemma step_own md pd p kp kp' (s : pstate) :
  cinv md s -> pinv pol pd s -> procs s !! p = Some kp -> own_write kp kp' ->
  cinv md (s <| procs ::= <[p := kp']> |>) /\ pinv pol pd (s <| procs ::= <[p := kp']> |>).
Proof.
  intros Hc Hp Hk Ho. assert (Ht : tame_list (procs s) (<[p := kp']> (procs s))).
  { rewrite <- (list_alter_insert (fun _ => kp') (procs s) p kp Hk). apply tame_list_alter.
    intros k Hk'. simplify_eq. by apply own_write_tame. }
  split; [|unfold pinv; cbn; by eapply tinv_tame]. destruct Hc as [C1 C2 C3 C4 C5 C6 C7 C8 C9 C10]. split; try done; cbn.
  - intros c m q Hm Hq. apply (running_tame _ _ Ht). by eapply C6.
  - intros q Hq. apply C7. by apply (running_tame _ _ Ht).
Qed.

End Stay.

(** ** The invariant of the machine *)

Section Safety.
Context {E : Type} {HSvc : Services E} {HSwitch : SwitchOk E} {HReap : ReapOk (E := E)}.
Variable pol : policy.

Definition minv (m : mstate E) : Prop :=
  cinv (modes m) (ps (mk m)) /\ pinv pol (pending m) (ps (mk m)).

Lemma tick_pinv s :
  pinv pol false s -> ticks s < 2 ^ 31 - 2 -> pinv pol true (s <| ticks ::= Z.add 1 |>).
Proof.
  intros [H1 H2 H3 H4 H5 H6 H7 H8 H9 [Hb1 Hb2]] Ht.
  split; try done; cbn; [|lia].
  intros p k Hk Hu. destruct (H6 p k Hk Hu) as (T1 & T2 & T3). unfold time_ok, done_ticks in *.
  destruct (stateb ZOMBIE k); lia.
Qed.

Lemma cinv_ticks md s f : cinv md s -> cinv md (s <| ticks ::= f |>).
Proof. intros [C1 C2 C3 C4 C5 C6 C7 C8 C9 C10]. by split. Qed.

Lemma popcli_inv c cs k a cs' :
  ids_ok cs -> cs !! c = Some k -> cpu_ok k -> ncli k < 2 ^ 30 -> popcli c cs = Ret a cs' ->
  cs' = <[c := pop_cpu k]> cs /\ 1 <= ncli k.
Proof.
  intros Hids Hk [Hb Hif] Hn Hrun. destruct (decide (ncli k = 0)) as [H0|H0].
  - by rewrite (popcli_underflow _ _ _ Hids Hk H0) in Hrun.
  - rewrite (popcli_ok _ _ _ Hids Hk) in Hrun by (lia || apply Hif; lia).
    injection Hrun as _ <-. split; [done|lia].
Qed.

Lemma mstep_minv m m' : minv m -> mstep pol m m' -> minv m'.
Proof.
  intros [Hc Hp] Hstep. unfold minv. destruct Hstep; cbn in *.
  - by eapply step_top.
  - by eapply step_back.
  - by eapply step_forkret.
  - by eapply step_yield_resume.
  - by eapply step_sleep_resume.
  - by eapply step_wait_resume.
  - by eapply step_yield.
  - by eapply step_sleep.
  - by eapply step_exit.
  - by eapply step_wait.
  - by eapply step_alloc.
  - by eapply step_embryo.
  - by eapply step_ready.
  - by eapply step_table.
  - split; [by apply cinv_ticks|by apply tick_pinv].
  - by eapply step_times.
  - destruct H1 as (kc & Hkc & Hd). destruct (c_cpu _ _ Hc c kc Hkc) as [Hok Hb].
    rewrite (pushcli_ok _ _ _ (c_ids _ _ Hc) Hkc) in H2. injection H2 as <-.
    destruct (lockd_cpu c (ps k) kc Hkc Hok Hd) as (_ & _ & L3 & [_ L4] & L5 & L6).
    by eapply step_cpus.
  - destruct (cinv_cpu _ _ _ _ Hc H) as (kc & Hkc & Hok & Hb & _).
    destruct (popcli_inv _ _ _ _ _ (c_ids _ _ Hc) Hkc Hok Hb H1) as [-> Hn].
    destruct (pop_cpu_ok kc Hok (conj Hn Hb)) as (R1 & R2 & R3 & R4).
    eapply step_cpus; try done. lia.
  - destruct (c_cpu _ _ Hc c kc H1) as [[Hn Hif] Hb]. eapply step_cpus; try done. split; [done|]. intros Hpos. cbn. destruct b; [|done]. specialize (H2 eq_refl). cbn in Hpos. lia.
  - by eapply step_own.
  - done.
Qed.

(** The state [main] leaves behind: init is RUNNABLE, every CPU is at the head of
    its scheduler's loop. *)
Record booted (m : mstate E) : Prop := {
  bt_modes : exists n, modes m = replicate n (InSched 0 None) /\ length (cpus (ps (mk m))) = n;
  bt_cpus : ids_ok (cpus (ps (mk m))) /\
    Forall (fun k => ncli k = 0 /\ cproc k = None) (cpus (ps (mk m)));
  bt_lock : ptlock (ps (mk m)) = initlock;
  bt_pending : pending m = false;
  bt_time : ticks (ps (mk m)) = 0;
  bt_procs : exists ki, procs (ps (mk m)) = <[0%nat := ki]> (replicate 64 zero_proc) /\
    state ki = RUNNABLE /\ pid ki = 1 /\ parent ki = None /\ queueNo ki = 0 /\
    length (pticks ki) = 5%nat /\ run_time ki = 0 /\ start_time ki = 0;
  bt_ids : nextpid (ps (mk m)) = 2 /\ initproc (ps (mk m)) = Some 0%nat;
  bt_queues : exists ls, mlfq_abs (mq (ps (mk m))) ls /\ queues_ok ls /\ (pol <> MLFQ -> concat ls = [])
}.

Lemma booted_lookup ki p k :
  (<[0%nat := ki]> (replicate 64 zero_proc)) !! p = Some k -> (p = 0%nat /\ k = ki) \/ (p <> 0%nat /\ k = zero_proc).
Proof.
  intros [[-> ->]|[Hne Hk]]%lookup_insert_cases; [by left|right].
  by apply lookup_replicate in Hk as [-> _].
Qed.

Lemma booted_minv m : booted m -> minv m.
Proof.
  intros [(n & Hmd & Hlen) [Hids Hcpus] Hlk Hpend Htk (ki & Hpr & Hst & Hpid & Hpar & Hqn & Hpt & Hrt & Hsta) [Hnp Hini] (ls & Habs & Hok & Hpol)].
  assert (Hnr : forall p, ~ running_in (procs (ps (mk m))) p).
  { rewrite Hpr. intros p (k & [[_ ->]|[_ ->]]%booted_lookup & Hs); [congruence|done]. }
  split.
  - rewrite Hmd. split.
    + by rewrite length_replicate.
    + done.
    + intros c k Hk. rewrite Forall_lookup in Hcpus. destruct (Hcpus c k Hk) as [Hn _].
      unfold cpu_ok. rewrite Hn. lia.
    + intros c mo k [-> _]%lookup_replicate Hk. rewrite Forall_lookup in Hcpus.
      by destruct (Hcpus c k Hk) as [_ ->].
    + by intros c f p [[= -> _] _]%lookup_replicate.
    + by intros c mo p [-> _]%lookup_replicate.
    + intros p Hp. by destruct (Hnr p).
    + by intros c d mc md' p [-> _]%lookup_replicate.
    + by intros c mo [-> _]%lookup_replicate.
    + by left.
  - unfold pinv. rewrite Hpr, Hpend, Htk, Hnp, Hini. split.
    + done.
    + exists ls. split_and!; try done. intros p k Hk Hs. destruct (Hnr p). rewrite Hpr. by exists k.
    + intros p k [[_ ->]|[_ ->]]%booted_lookup; [rewrite Hqn; split; [lia|done]|by cbn].
    + intros p k [[_ ->]|[_ ->]]%booted_lookup; [rewrite Hpid; lia|by cbn].
    + intros p q kp kq [[-> ->]|[_ ->]]%booted_lookup [[-> ->]|[_ ->]]%booted_lookup; try done.
    + intros p k [[_ ->]|[_ ->]]%booted_lookup; [|done]. intros _. unfold time_ok, stateb.
      rewrite Hst, bool_decide_eq_false_2, Hrt, Hsta by done. cbn. lia.
    + intros p k j [[_ ->]|[_ ->]]%booted_lookup; [congruence|done].
    + intros p k [[_ ->]|[_ ->]]%booted_lookup; [by rewrite Hpar|done].
    + intros i k [= <-] [[_ ->]|[? ->]]%booted_lookup; done.
    + lia.
Qed.

Lemma reachable_minv m0 m : booted m0 -> rtc (mstep pol) m0 m -> minv m.
Proof.
  intros Hb Hr. pose proof (booted_minv _ Hb) as Hinv. clear Hb.
  induction Hr as [|m1 m2 m3 H12 _ IH]; [done|]. apply IH. by eapply mstep_minv.
Qed.

End Safety.
