(* ===== verification/MachineProps.v ===== *)
(** * MachineProps: what holds in every reachable state of the machine

    The safety theorems of the process core, for every policy and every number
    of CPUs: after [main] has booted the machine ([MachineSafe.booted]), any
    interleaving of the critical sections of proc.c ([Machine.mstep]) leads to a
    state in which CPUs and table agree, pids identify processes, the MLFQ
    queues are sound, [wait] has missed no child and the times that [waitx]
    reports are in range. *)

From S2P Require Import Prelude Spinlock Proctab Mlfq Proc Scheduler SchedMlfq.
From S2P Require Import ProcSpec Tables Legs Machine MachineInv MachineSafe.

(** ** A concrete boot

    Two CPUs, after [userinit] on CPU 0. *)
Definition two_cpus : pstate :=
  PState [Cpu 0 1 0 false None false; Cpu 1 1 0 false None false] initlock (replicate 64 zero_proc) 1 None 0
         (main_queues bss_queues).

Definition after {S A} (o : outcome S A) (d : S) : S := match o with Ret _ s => s | _ => d end.

Definition boot2 (pol : policy) : mstate Z :=
  MState (after (userinit pol 0 (Kern two_cpus 4096)) (Kern two_cpus 0)) [InSched 0 None; InSched 0 None] false.

Lemma boot2_booted pol : booted pol (boot2 pol).
Proof.
  split.
  - exists 2%nat. by destruct pol.
  - split; [|by destruct pol; vm_compute; repeat constructor].
    destruct pol; vm_compute; apply NoDup_cons; (split; [|apply NoDup_singleton]); intros ?%list_elem_of_singleton; done.
  - by destruct pol.
  - done.
  - by destruct pol.
  - eexists. split; [by destruct pol; vm_compute; reflexivity|]. by destruct pol; vm_compute.
  - by destruct pol.
  - destruct pol; [exists (replicate 5 []); split_and!; [exact mlfq_abs_bss|exact queues_ok_init|done]..|].
    destruct (push_abs two_cpus (replicate 5 []) 0 0 mlfq_abs_bss) as (q & Hrun & Hq & _); [unfold NQUEUE; cbn; lia..|].
    exists (spec_push (replicate 5 []) 0 0). split_and!; [|apply queues_ok_push; [exact queues_ok_init|unfold NQUEUE; lia..]|done].
    assert (mq (ps (mk (boot2 MLFQ))) = q) as ->; [|done].
    apply (f_equal (fun o => mq (after o two_cpus))) in Hrun. cbn [after] in Hrun. rewrite pushed_mq in Hrun.
    rewrite <- Hrun. vm_compute. reflexivity.
Qed.

(** ** The safety theorems *)

Section Props.
Context {E : Type} {HSvc : Services E} {HSwitch : SwitchOk E} {HReap : ReapOk (E := E)}.

(** C1. CPUs and the process table agree, and ptable.lock protects them: the process
    that a CPU runs is RUNNING and is the CPU's [proc]; a RUNNING process runs
    on exactly one CPU; a CPU on its way between a process and the scheduler
    holds ptable.lock, so at most one CPU is there, and otherwise the lock is
    free. *)
Theorem running_on_one_cpu pol (m0 m : mstate E) :
  booted pol m0 -> rtc (mstep pol) m0 m ->
  let s := ps (mk m) in
  (forall c mo k, modes m !! c = Some mo -> cpus s !! c = Some k -> cproc k = mode_proc mo) /\
  (forall c mo p, modes m !! c = Some mo -> runs mo = Some p -> running_in (procs s) p) /\
  (forall p, running_in (procs s) p -> exists c mo, modes m !! c = Some mo /\ runs mo = Some p /\
     forall d mo', modes m !! d = Some mo' -> runs mo' = Some p -> d = c) /\
  (forall c d mc md, modes m !! c = Some mc -> modes m !! d = Some md ->
     holds mc = true -> holds md = true -> c = d) /\
  ((forall c mo, modes m !! c = Some mo -> holds mo = false) -> ptlock s = initlock).
Proof.
  intros Hb Hr. destruct (reachable_minv _ _ _ Hb Hr) as [Hc _]. cbv zeta. split_and!.
  - intros c mo k Hm Hk. by apply (c_mode _ _ Hc c mo k).
  - apply (c_runs _ _ Hc).
  - intros p Hp. destruct (c_all _ _ Hc p Hp) as (c & mo & Hm & Hrun).
    exists c, mo. split_and!; [done..|]. intros d mo' Hm' Hrun'. by eapply (c_inj _ _ Hc d c mo' mo).
  - intros c d mc md Hmc Hmd Hhc Hhd.
    pose proof (c_held _ _ Hc c mc Hmc Hhc). pose proof (c_held _ _ Hc d md Hmd Hhd). congruence.
  - intros Hno. destruct (c_free _ _ Hc) as [|(c & mo & Hm & Hh)]; [done|].
    by rewrite (Hno c mo Hm) in Hh.
Qed.

(** Pids identify processes: the pid of a process is positive, below [nextpid],
    and no other entry of the table that is in use has it. *)
Theorem pids_identify_processes pol (m0 m : mstate E) :
  booted pol m0 -> rtc (mstep pol) m0 m ->
  forall p k, procs (ps (mk m)) !! p = Some k -> state k <> UNUSED ->
    0 < pid k < nextpid (ps (mk m)) /\
    forall q kq, procs (ps (mk m)) !! q = Some kq -> pid kq = pid k -> q = p.
Proof.
  intros Hb Hr p k Hk Hu. destruct (reachable_minv _ _ _ Hb Hr) as [_ Hp].
  destruct (t_time _ _ _ _ _ _ _ Hp p k Hk Hu) as (_ & [H0 _] & _).
  pose proof (t_pid _ _ _ _ _ _ _ Hp p k Hk). split; [lia|]. intros q kq Hq Heq.
  eapply (t_pid_inj _ _ _ _ _ _ _ Hp); try done. lia.
Qed.

(** C30. The MLFQ queues are sound: the five rings represent five lists in which no
    process occurs twice, a RUNNING process is in none of them, and every
    process has a queue number from 0 to 4.  The bound 4 rests on the test in
    [trap] that a process of queue 4 does not yield. *)
Theorem queues_sound (m0 m : mstate E) :
  booted MLFQ m0 -> rtc (mstep MLFQ) m0 m ->
  (exists ls, mlfq_abs (mq (ps (mk m))) ls /\ NoDup (concat ls) /\
     forall p, p ∈ concat ls -> exists k, procs (ps (mk m)) !! p = Some k /\ state k <> RUNNING) /\
  forall p k, procs (ps (mk m)) !! p = Some k -> 0 <= queueNo k <= 4.
Proof.
  intros Hb Hr. destruct (reachable_minv _ _ _ Hb Hr) as [_ Hp]. split.
  - destruct (t_queues _ _ _ _ _ _ _ Hp) as (ls & Hq & (_ & Hnd & Hlt) & _ & Hrun).
    exists ls. split_and!; [done..|]. intros p Hin. rewrite Forall_forall in Hlt.
    destruct (lookup_lt_is_Some_2 (procs (ps (mk m))) p) as [k Hk].
    { rewrite (t_len _ _ _ _ _ _ _ Hp). by apply Hlt. }
    exists k. split; [done|]. intros Hs. by apply (Hrun p k Hk Hs).
  - intros p k Hk. by apply (t_proc _ _ _ _ _ _ _ Hp p k).
Qed.

(** C6. [wait] and [waitx] lose no wakeup: a process that sleeps for its children
    sleeps on its own channel and none of its children is a ZOMBIE. *)
Theorem wait_misses_no_child pol (m0 m : mstate E) :
  booted pol m0 -> rtc (mstep pol) m0 m ->
  forall p k j, procs (ps (mk m)) !! p = Some k -> state k = SLEEPING -> chan k = Some (ChProc j) ->
    j = p /\
    forall q kq, procs (ps (mk m)) !! q = Some kq -> parent kq = Some p -> state kq <> ZOMBIE.
Proof.
  intros Hb Hr p k j Hk Hs Hc. destruct (reachable_minv _ _ _ Hb Hr) as [_ Hp].
  exact (t_wait _ _ _ _ _ _ _ Hp p k j Hk Hs Hc).
Qed.

(** The times of a process: it is charged for no more ticks than have passed
    since its creation, one tick of slack aside; so the waiting time that
    [waitx] computes for a ZOMBIE is at least -1 and at most its lifetime. *)
Theorem waitx_times_in_range pol (m0 m : mstate E) :
  booted pol m0 -> rtc (mstep pol) m0 m ->
  forall p k, procs (ps (mk m)) !! p = Some k -> state k = ZOMBIE ->
    0 <= start_time k <= end_time k /\ end_time k <= ticks (ps (mk m)) /\ 0 <= run_time k /\
    -1 <= end_time k - start_time k - run_time k <= end_time k - start_time k.
Proof.
  intros Hb Hr p k Hk Hs. destruct (reachable_minv _ _ _ Hb Hr) as [_ Hp].
  destruct (t_time _ _ _ _ _ _ _ Hp p k Hk ltac:(congruence)) as (T1 & T2 & T3).
  unfold stateb in T3. rewrite bool_decide_eq_true_2 in T3 by done. lia.
Qed.

End Props.

(** ** A run on two CPUs

    CPU 1 runs init.  The clock interrupt on CPU 0 increments [ticks]; before it
    gets to [modify_times], init forks on CPU 1 and yields to its child; then
    [modify_times] charges the child for a tick that began before it was born;
    the child exits. *)

Ltac by_eval := first [by vm_compute | vm_compute; reflexivity].

Lemma depth_ok_at (s : pstate) c kc : cpus s !! c = Some kc -> ncli kc <? 2 ^ 20 = true -> depth_ok s c.
Proof. intros H Hn. exists kc. split; [done|lia]. Qed.

Lemma early_child_run : exists m : mstate Z,
  rtc (mstep ROUND_ROBIN) (boot2 ROUND_ROBIN) m /\
  modes m = [InSched 0 None; Yielded 1] /\ ticks (ps (mk m)) = 1 /\
  exists k, procs (ps (mk m)) !! 1%nat = Some k /\ state k = ZOMBIE /\ parent k = Some 0%nat /\ pid k = 2 /\
    start_time k = 1 /\ end_time k = 1 /\ run_time k = 1.
Proof.
  eexists. split.
  - (* CPU 1 starts init *)
    eapply rtc_l; [eapply (st_top _ 1); by_eval|].
    eapply rtc_l; [eapply (st_forkret _ 1); by_eval|].
    (* the clock interrupt on CPU 0 *)
    eapply rtc_l; [eapply (st_pushcli _ 0); [by_eval..|eapply depth_ok_at; by_eval|by_eval]|].
    eapply rtc_l; [eapply st_tick; by_eval|].
    (* init forks and yields *)
    eapply rtc_l; [eapply (st_alloc _ 1 0 (Some 1%nat)); [by_eval..|eapply depth_ok_at; by_eval|by_eval]|].
    eapply rtc_l; [eapply (fun kn => st_embryo _ 1 0 1 kn (kn <| parent := Some 0%nat |>));
                     [by_eval..|]; split; [by_eval..|by left|right; by_eval]|].
    eapply rtc_l; [eapply (st_ready _ 1 0 1); [by_eval..|eapply depth_ok_at; by_eval|by_eval]|].
    eapply rtc_l; [eapply (st_yield _ 1 0); [by_eval..|eapply depth_ok_at; by_eval|by_eval]|].
    eapply rtc_l; [eapply (st_back _ 1 0); by_eval|].
    eapply rtc_l; [eapply (st_forkret _ 1 1); by_eval|].
    (* CPU 0 accounts for the tick *)
    eapply rtc_l; [eapply (st_times _ 0); [by_eval..|eapply depth_ok_at; by_eval|by_eval]|].
    eapply rtc_l; [eapply (st_exit _ 1 1); [by_eval..|eapply depth_ok_at; by_eval|by_eval]|].
    apply rtc_refl.
  - split; [by_eval|]. split; [by_eval|]. eexists. split_and!; by_eval.
Qed.

(** The waiting time that [waitx] reports can be -1: a boot and a run on two CPUs
    lead to a ZOMBIE child whose [run_time] exceeds its whole lifetime, because
    [modify_times] is not atomic with [ticks++]. *)
Theorem waitx_wtime_can_be_negative :
  exists (m0 m : mstate Z) p k, booted ROUND_ROBIN m0 /\ rtc (mstep ROUND_ROBIN) m0 m /\
    procs (ps (mk m)) !! p = Some k /\ state k = ZOMBIE /\
    s32 (s32 (end_time k - start_time k) - run_time k) = -1.
Proof.
  destruct early_child_run as (m & Hr & _ & _ & k & Hk & Hz & _ & _ & Hs & He & Hrt).
  exists (boot2 ROUND_ROBIN), m, 1%nat, k. split_and!; [apply boot2_booted|done..|]. by rewrite Hs, He, Hrt.
Qed.

Lemma running_on_one_cpu_witness :
  exists m : mstate Z, rtc (mstep ROUND_ROBIN) (boot2 ROUND_ROBIN) m /\ length (modes m) = 2%nat /\
    forall p, running_in (procs (ps (mk m))) p -> exists c mo, modes m !! c = Some mo /\ runs mo = Some p.
Proof.
  destruct early_child_run as (m & Hr & Hm & _). exists m. split; [exact Hr|]. split; [by rewrite Hm|].
  destruct (running_on_one_cpu ROUND_ROBIN (boot2 ROUND_ROBIN) m (boot2_booted _) Hr) as (_ & _ & H & _).
  intros p Hp. destruct (H p Hp) as (c & mo & H1 & H2 & _). by exists c, mo.
Defined.

Lemma pids_identify_processes_witness :
  exists m : mstate Z, rtc (mstep ROUND_ROBIN) (boot2 ROUND_ROBIN) m /\ 2 < nextpid (ps (mk m)).
Proof.
  destruct early_child_run as (m & Hr & _ & _ & k & Hk & Hz & _ & Hp & _). exists m. split; [exact Hr|].
  destruct (pids_identify_processes ROUND_ROBIN (boot2 ROUND_ROBIN) m (boot2_booted _) Hr 1%nat k Hk) as [H _];
    [by rewrite Hz|]. lia.
Defined.

(** With the MLFQ policy: CPU 1 takes init from queue 0 and starts it; init forks,
    which puts its child into queue 0, and yields, which puts init into queue 1;
    CPU 0 starts the child. *)
Lemma mlfq_run : exists m : mstate Z,
  rtc (mstep MLFQ) (boot2 MLFQ) m /\
  (exists k, procs (ps (mk m)) !! 0%nat = Some k /\ state k = RUNNABLE /\ queueNo k = 1) /\
  (exists k, procs (ps (mk m)) !! 1%nat = Some k /\ state k = RUNNING /\ queueNo k = 0) /\
  mlfq_abs (mq (ps (mk m))) [[]; [0%nat]; []; []; []].
Proof.
  eexists. split.
  - eapply rtc_l; [eapply (st_top _ 1); by_eval|].
    eapply rtc_l; [eapply (st_forkret _ 1); by_eval|].
    eapply rtc_l; [eapply (st_alloc _ 1 0 (Some 1%nat)); [by_eval..|eapply depth_ok_at; by_eval|by_eval]|].
    eapply rtc_l; [eapply (fun kn => st_embryo _ 1 0 1 kn (kn <| parent := Some 0%nat |>));
                     [by_eval..|]; split; [by_eval..|by left|right; by_eval]|].
    eapply rtc_l; [eapply (st_ready _ 1 0 1); [by_eval..|eapply depth_ok_at; by_eval|by_eval]|].
    eapply rtc_l; [eapply (st_yield _ 1 0); [by_eval|by_eval|intros _; by_eval|eapply depth_ok_at; by_eval|by_eval]|].
    eapply rtc_l; [eapply (st_back _ 1 0); by_eval|].
    eapply rtc_l; [eapply (st_top _ 0); by_eval|].
    apply rtc_refl.
  - split; [eexists; split_and!; by_eval|]. split; [eexists; split_and!; by_eval|].
    split_and!; [by_eval..|]. intros i l Hl.
    do 5 (destruct i as [|i]; [injection Hl as <-; eexists _, _, _, _; split_and!; [by_eval..|];
      split_and!; try by_eval; intros [|k] x Hx; by_eval || (injection Hx as <-; by_eval)|]). done.
Qed.

Lemma queues_sound_witness :
  exists m : mstate Z, rtc (mstep MLFQ) (boot2 MLFQ) m /\
    (exists k, procs (ps (mk m)) !! 0%nat = Some k /\ 0 <= queueNo k <= 4 /\ queueNo k = 1) /\
    mlfq_abs (mq (ps (mk m))) [[]; [0%nat]; []; []; []] /\
    exists ls, mlfq_abs (mq (ps (mk m))) ls /\ 1%nat ∉ concat ls.
Proof.
  destruct mlfq_run as (m & Hr & (k0 & Hk0 & _ & Hq0) & (k1 & Hk1 & Hs1 & _) & Habs). exists m. split; [exact Hr|].
  destruct (queues_sound (boot2 MLFQ) m (boot2_booted _) Hr) as [(ls & Hls & _ & Hrun) H].
  split; [exists k0; split; [exact Hk0|]; split; [exact (H _ _ Hk0)|exact Hq0]|].
  split; [exact Habs|]. exists ls. split; [exact Hls|]. intros Hin. destruct (Hrun _ Hin) as (k & Hk & Hne). congruence.
Defined.

Lemma waitx_times_in_range_witness :
  exists (m : mstate Z) k, rtc (mstep ROUND_ROBIN) (boot2 ROUND_ROBIN) m /\
    procs (ps (mk m)) !! 1%nat = Some k /\ state k = ZOMBIE /\ -1 <= end_time k - start_time k - run_time k.
Proof.
  destruct early_child_run as (m & Hr & _ & _ & k & Hk & Hz & _). exists m, k.
  split; [exact Hr|]. split; [exact Hk|]. split; [exact Hz|].
  apply (waitx_times_in_range ROUND_ROBIN (boot2 ROUND_ROBIN) m (boot2_booted _) Hr 1%nat k Hk Hz).
Defined.

(** Init runs, forks and waits: it sleeps for its child. *)
Lemma waiting_run : exists m : mstate Z,
  rtc (mstep ROUND_ROBIN) (boot2 ROUND_ROBIN) m /\
  (exists k, procs (ps (mk m)) !! 0%nat = Some k /\ state k = SLEEPING /\ chan k = Some (ChProc 0)) /\
  (exists k, procs (ps (mk m)) !! 1%nat = Some k /\ parent k = Some 0%nat).
Proof.
  eexists. split.
  - eapply rtc_l; [eapply (st_top _ 0); by_eval|].
    eapply rtc_l; [eapply (st_forkret _ 0); by_eval|].
    eapply rtc_l; [eapply (st_alloc _ 0 0 (Some 1%nat)); [by_eval..|eapply depth_ok_at; by_eval|by_eval]|].
    eapply rtc_l; [eapply (fun kn => st_embryo _ 0 0 1 kn (kn <| parent := Some 0%nat |>));
                     [by_eval..|]; split; [by_eval..|by left|right; by_eval]|].
    eapply rtc_l; [eapply (st_ready _ 0 0 1); [by_eval..|eapply depth_ok_at; by_eval|by_eval]|].
    eapply rtc_l; [eapply (st_wait _ 0 0 WSleep); [by_eval..|eapply depth_ok_at; by_eval|by_eval]|].
    apply rtc_refl.
  - split; eexists; split_and!; by_eval.
Qed.

Lemma wait_misses_no_child_witness :
  exists (m : mstate Z) k, rtc (mstep ROUND_ROBIN) (boot2 ROUND_ROBIN) m /\
    procs (ps (mk m)) !! 1%nat = Some k /\ parent k = Some 0%nat /\ state k <> ZOMBIE.
Proof.
  destruct waiting_run as (m & Hr & (k0 & H0 & Hs & Hc) & k & Hk & Hp). exists m, k.
  split; [exact Hr|]. split; [exact Hk|]. split; [exact Hp|].
  destruct (wait_misses_no_child ROUND_ROBIN (boot2 ROUND_ROBIN) m (boot2_booted _) Hr 0%nat k0 0%nat H0 Hs Hc) as [_ H].
  exact (H 1%nat k Hk Hp).
Defined.
