(* ===== verification/Mem.v ===== *)
(** * Mem: byte memory

    The address space that the byte-level routines of the kernel and of the user
    library work on: a finite map from addresses to bytes.  An access outside it
    is undefined behaviour ([Undef]).  Pointers are not wrapped: C leaves pointer
    overflow undefined, and no address beyond the map is mapped.

    A block of consecutive bytes is a list; [write_bytes] is the result of
    storing one, and the routines are specified by it. *)

From S2P Require Import Prelude.

Notation mem := (gmap Z Z).

Definition ld8 (a : Z) : M mem Z := fun m => match m !! a with Some v => Ret v m | None => Undef end.
Definition st8 (a v : Z) : M mem unit := fun m =>
  match m !! a with Some _ => Ret tt (<[a := u8 v]> m) | None => Undef end.

(** A 32-bit store, little endian. *)
Definition le32 (v : Z) : list Z := [u8 v; u8 (Z.shiftr v 8); u8 (Z.shiftr v 16); u8 (Z.shiftr v 24)].
Definition st32 (a v : Z) : M mem unit :=
  st8 a v;; st8 (a + 1) (Z.shiftr v 8);; st8 (a + 2) (Z.shiftr v 16);; st8 (a + 3) (Z.shiftr v 24).
Definition ld32 (a : Z) : M mem Z :=
  b0 ← ld8 a; b1 ← ld8 (a + 1); b2 ← ld8 (a + 2); b3 ← ld8 (a + 3);
  mret (b0 + 2 ^ 8 * b1 + 2 ^ 16 * b2 + 2 ^ 24 * b3).

(** ** Blocks *)

(** The bytes of [m] from [a] on are [bs]. *)
Fixpoint bytes_at (m : mem) (a : Z) (bs : list Z) : Prop :=
  match bs with
  | [] => True
  | b :: bs' => m !! a = Some b /\ bytes_at m (a + 1) bs'
  end.

Fixpoint write_bytes (a : Z) (bs : list Z) (m : mem) : mem :=
  match bs with
  | [] => m
  | b :: bs' => write_bytes (a + 1) bs' (<[a := b]> m)
  end.

(** The [n] addresses from [a] on are mapped. *)
Definition mapped (m : mem) (a n : Z) : Prop := forall x, a <= x < a + n -> is_Some (m !! x).

Lemma bytes_at_lookup m a bs :
  bytes_at m a bs <-> forall i b, bs !! i = Some b -> m !! (a + Z.of_nat i) = Some b.
Proof.
  revert a. induction bs as [|b bs IH]; intros a; cbn.
  - split; [|done]. intros _ i b. by rewrite lookup_nil.
  - rewrite IH. split.
    + intros [H0 H] [|i] c; cbn; [intros [= <-]; by rewrite Z.add_0_r|].
      intros Hi. specialize (H i c Hi). by replace (a + Z.of_nat (S i)) with (a + 1 + Z.of_nat i) by lia.
    + intros H. split; [specialize (H 0%nat b eq_refl); by rewrite Z.add_0_r in H|].
      intros i c Hi. specialize (H (S i) c Hi). by replace (a + 1 + Z.of_nat i) with (a + Z.of_nat (S i)) by lia.
Qed.

Lemma bytes_at_app m a bs cs :
  bytes_at m a (bs ++ cs) <-> bytes_at m a bs /\ bytes_at m (a + Z.of_nat (length bs)) cs.
Proof.
  revert a. induction bs as [|b bs IH]; intros a; cbn; [rewrite Z.add_0_r; tauto|].
  rewrite IH. replace (a + 1 + Z.of_nat (length bs)) with (a + Z.of_nat (S (length bs))) by lia. tauto.
Qed.

Lemma write_bytes_lookup bs : forall a m x,
  write_bytes a bs m !! x =
    match (if decide (a <= x) then bs !! Z.to_nat (x - a) else None) with Some b => Some b | None => m !! x end.
Proof.
  induction bs as [|b bs IH]; intros a m x; [cbn; by destruct (decide (a <= x))|].
  cbn [write_bytes]. rewrite IH. destruct (decide (a + 1 <= x)) as [H1|H1], (decide (a <= x)) as [H2|H2]; try lia.
  - replace (Z.to_nat (x - a)) with (S (Z.to_nat (x - (a + 1)))) by lia.
    by rewrite lookup_insert_ne by lia.
  - assert (x = a) as -> by lia. rewrite Z.sub_diag, lookup_insert_eq. done.
  - by rewrite lookup_insert_ne by lia.
Qed.

Lemma write_bytes_in a bs m i b :
  bs !! i = Some b -> write_bytes a bs m !! (a + Z.of_nat i) = Some b.
Proof.
  intros H. rewrite write_bytes_lookup. destruct (decide _); [|lia].
  by replace (Z.to_nat (a + Z.of_nat i - a)) with i by lia; rewrite H.
Qed.

Lemma write_bytes_out a bs m x :
  x < a \/ a + Z.of_nat (length bs) <= x -> write_bytes a bs m !! x = m !! x.
Proof.
  intros H. rewrite write_bytes_lookup. destruct (decide _); [|done].
  rewrite lookup_ge_None_2 by lia. done.
Qed.

Lemma write_bytes_at a bs m : bytes_at (write_bytes a bs m) a bs.
Proof. apply bytes_at_lookup. intros. by apply write_bytes_in. Qed.

Lemma write_bytes_app a bs cs m :
  write_bytes a (bs ++ cs) m = write_bytes (a + Z.of_nat (length bs)) cs (write_bytes a bs m).
Proof.
  revert a m. induction bs as [|b bs IH]; intros a m; cbn; [by rewrite Z.add_0_r|].
  rewrite IH. f_equal. lia.
Qed.

Lemma write_bytes_snoc a bs b m :
  write_bytes a (bs ++ [b]) m = <[a + Z.of_nat (length bs) := b]> (write_bytes a bs m).
Proof. by rewrite write_bytes_app. Qed.

Lemma write_bytes_cons_last a b bs m :
  write_bytes a (b :: bs) m = <[a := b]> (write_bytes (a + 1) bs m).
Proof.
  apply map_eq. intros x. cbn [write_bytes]. rewrite write_bytes_lookup.
  destruct (decide (x = a)) as [->|Hne].
  - rewrite lookup_insert_eq. destruct (decide _); [lia|]. by rewrite lookup_insert_eq.
  - rewrite (lookup_insert_ne (write_bytes _ _ _)) by done. rewrite write_bytes_lookup.
    by rewrite lookup_insert_ne by done.
Qed.

Lemma mapped_write m a n b bs : mapped m a n -> mapped (write_bytes b bs m) a n.
Proof.
  intros H x Hx. rewrite write_bytes_lookup. destruct (match _ with Some _ => _ | None => _ end) eqn:E; [done|].
  destruct (if decide (b <= x) then bs !! Z.to_nat (x - b) else None); [done|]. rewrite <- E. by apply H.
Qed.

Lemma mapped_sub m a n b k : mapped m a n -> a <= b -> b + k <= a + n -> mapped m b k.
Proof. intros H ? ? x Hx. apply H. lia. Qed.

Lemma bytes_at_mapped m a bs : bytes_at m a bs -> mapped m a (Z.of_nat (length bs)).
Proof.
  intros H x Hx. rewrite bytes_at_lookup in H.
  destruct (lookup_lt_is_Some_2 bs (Z.to_nat (x - a))) as [b Hb]; [lia|].
  specialize (H _ _ Hb). replace (a + Z.of_nat (Z.to_nat (x - a))) with x in H by lia. by exists b.
Qed.

(** A mapped range holds some bytes. *)
Lemma mapped_bytes m a (n : nat) :
  mapped m a (Z.of_nat n) -> exists bs, length bs = n /\ bytes_at m a bs.
Proof.
  revert a. induction n as [|n IH]; intros a H; [by exists []|].
  destruct (H a ltac:(lia)) as [b Hb].
  destruct (IH (a + 1)) as (bs & Hl & Hbs); [intros x Hx; apply H; lia|].
  exists (b :: bs). cbn. auto.
Qed.

Lemma bytes_at_write_other m a bs b cs :
  a + Z.of_nat (length bs) <= b \/ b + Z.of_nat (length cs) <= a ->
  bytes_at m a bs -> bytes_at (write_bytes b cs m) a bs.
Proof.
  intros Hd H. rewrite bytes_at_lookup in *. intros i c Hi. pose proof (lookup_lt_Some _ _ _ Hi).
  rewrite write_bytes_out by lia. by apply H.
Qed.

(** A block has no more bytes than the memory. *)
Lemma bytes_at_size m a bs : bytes_at m a bs -> (length bs <= size m)%nat.
Proof.
  intros H. assert (Hin : forall x, x ∈ seqZ a (Z.of_nat (length bs)) -> is_Some (m !! x)).
  { intros x Hx%elem_of_seqZ. by apply (bytes_at_mapped _ _ _ H). }
  transitivity (length (seqZ a (Z.of_nat (length bs)))); [rewrite length_seqZ; lia|].
  rewrite <- (size_list_to_set (C := gset Z)) by apply NoDup_seqZ. rewrite <- (size_dom (D := gset Z)).
  apply subseteq_size. intros x Hx%elem_of_list_to_set. by apply elem_of_dom, Hin.
Qed.

(** ** Loads and stores *)

Lemma ld8_ok m a v : m !! a = Some v -> ld8 a m = Ret v m.
Proof. intros H. unfold ld8. by rewrite H. Qed.

Lemma st8_ok m a v : is_Some (m !! a) -> st8 a v m = Ret tt (<[a := u8 v]> m).
Proof. intros [w H]. unfold st8. by rewrite H. Qed.

Lemma st32_ok m a v : mapped m a 4 -> st32 a v m = Ret tt (write_bytes a (le32 v) m).
Proof.
  intros H. unfold st32.
  do 3 (erewrite bind_ret; [|apply st8_ok; rewrite ?lookup_insert_ne by lia; apply H; lia]).
  rewrite st8_ok by (rewrite !lookup_insert_ne by lia; apply H; lia).
  cbn [write_bytes le32]. by rewrite <- !Z.add_assoc.
Qed.

Lemma le32_value v : is_u32 v ->
  u8 v + 2 ^ 8 * u8 (Z.shiftr v 8) + 2 ^ 16 * u8 (Z.shiftr v 16) + 2 ^ 24 * u8 (Z.shiftr v 24) = v.
Proof. unfold is_u32, u8. intros H. rewrite !Z.shiftr_div_pow2 by lia. zlia. Qed.

(** What [ld32] reads back after [st32]. *)
Lemma ld32_le m a v : is_u32 v -> bytes_at m a (le32 v) -> ld32 a m = Ret v m.
Proof.
  intros Hv (H0 & H1 & H2 & H3 & _). rewrite <- !Z.add_assoc in *. unfold ld32.
  rewrite (bind_ret _ _ _ _ _ (ld8_ok _ _ _ H0)), (bind_ret _ _ _ _ _ (ld8_ok _ _ _ H1)).
  rewrite (bind_ret _ _ _ _ _ (ld8_ok _ _ _ H2)), (bind_ret _ _ _ _ _ (ld8_ok _ _ _ H3)).
  by rewrite le32_value.
Qed.

(** ** NUL-terminated strings *)

(** The string [s] is stored at [a]. *)
Definition cstr (m : mem) (a : Z) (s : list Z) : Prop :=
  bytes_at m a (s ++ [0]) /\ Forall (fun c => c <> 0) s.

Lemma cstr_cons m a c s : cstr m a (c :: s) <-> m !! a = Some c /\ c <> 0 /\ cstr m (a + 1) s.
Proof. unfold cstr. cbn. rewrite Forall_cons. tauto. Qed.

Lemma cstr_nil m a : cstr m a [] <-> m !! a = Some 0.
Proof. unfold cstr. cbn. split; [tauto|]. intros. split; [tauto|constructor]. Qed.

Lemma cstr_size m a s : cstr m a s -> (length s < size m)%nat.
Proof. intros [H _]. apply bytes_at_size in H. rewrite length_app in H. cbn in H. lia. Qed.
