(* ===== verification/CString.v ===== *)
(** * CString: the byte and string routines of string.c and ulib.c

    [string.c] is the kernel's, [ulib.c] the user programs' (Module [Ulib]).
    Loops with a count recurse on it; loops that stop at a NUL have as fuel the
    size of the memory plus one: a run that goes on for longer has left the
    mapped memory.  Bytes are unsigned here; the source's [char] is signed, and
    every use of it below gives the same result for both readings. *)

From S2P Require Import Prelude Mem.

(** ** x86.h: rep stosb, rep stosl *)

Fixpoint stosb_loop (cnt : nat) (addr data : Z) : M mem unit :=
  match cnt with
  | O => mret tt
  | S n => st8 addr data;; stosb_loop n (addr + 1) data
  end.
Definition stosb (addr data cnt : Z) : M mem unit := stosb_loop (Z.to_nat cnt) addr data.

Fixpoint stosl_loop (cnt : nat) (addr data : Z) : M mem unit :=
  match cnt with
  | O => mret tt
  | S n => st32 addr data;; stosl_loop n (addr + 4) data
  end.
Definition stosl (addr data cnt : Z) : M mem unit := stosl_loop (Z.to_nat cnt) addr data.

(** ** string.c *)

Definition memset (dst c n : Z) : M mem Z :=
  (if (Z.rem (s32 dst) 4 =? 0) && (n mod 4 =? 0) then
     let c := Z.land c 0xFF in
     stosl dst (Z.lor (Z.lor (Z.lor (Z.shiftl c 24) (Z.shiftl c 16)) (Z.shiftl c 8)) c) (n / 4)
   else stosb dst c n);;
  mret dst.

Fixpoint memcmp_loop (n : nat) (s1 s2 : Z) : M mem Z :=
  match n with
  | O => mret 0
  | S n =>
      a ← ld8 s1; b ← ld8 s2;
      if negb (a =? b) then mret (a - b) else memcmp_loop n (s1 + 1) (s2 + 1)
  end.
Definition memcmp (v1 v2 n : Z) : M mem Z := memcmp_loop (Z.to_nat n) v1 v2.

(** [while(n-- > 0) *--d = *--s;] *)
Fixpoint copy_down (n : nat) (d s : Z) : M mem unit :=
  match n with
  | O => mret tt
  | S n => c ← ld8 (s - 1); st8 (d - 1) c;; copy_down n (d - 1) (s - 1)
  end.
(** [while(n-- > 0) *d++ = *s++;] *)
Fixpoint copy_up (n : nat) (d s : Z) : M mem unit :=
  match n with
  | O => mret tt
  | S n => c ← ld8 s; st8 d c;; copy_up n (d + 1) (s + 1)
  end.
Definition memmove (dst src n : Z) : M mem Z :=
  (if (src <? dst) && (src + n >? dst) then copy_down (Z.to_nat n) (dst + n) (src + n)
   else copy_up (Z.to_nat n) dst src);;
  mret dst.
Definition memcpy (dst src n : Z) : M mem Z := memmove dst src n.

Fixpoint strncmp_loop (n : nat) (p q : Z) : M mem Z :=
  match n with
  | O => mret 0
  | S n' =>
      a ← ld8 p;
      if a =? 0 then b ← ld8 q; mret (a - b)
      else b ← ld8 q; if a =? b then strncmp_loop n' (p + 1) (q + 1) else mret (a - b)
  end.
Definition strncmp (p q n : Z) : M mem Z := strncmp_loop (Z.to_nat n) p q.

(** [while(n-- > 0) *s++ = 0;] *)
Fixpoint zero_fill (n : nat) (s : Z) : M mem unit :=
  match n with
  | O => mret tt
  | S n => st8 s 0;; zero_fill n (s + 1)
  end.
(** [while(n-- > 0 && ( *s++ = *t++ ) != 0);] and then the second loop of
    [strncpy]: it starts with the [n] that is left. *)
Fixpoint strncpy_loop (n : nat) (s t : Z) : M mem unit :=
  match n with
  | O => mret tt
  | S n => c ← ld8 t; st8 s c;;
           if c =? 0 then zero_fill n (s + 1) else strncpy_loop n (s + 1) (t + 1)
  end.
Definition strncpy (s t n : Z) : M mem Z := strncpy_loop (Z.to_nat n) s t;; mret s.

(** [while(--n > 0 && ( *s++ = *t++ ) != 0);], the pointer [s] after it. *)
Fixpoint safestrcpy_loop (n : nat) (s t : Z) : M mem Z :=
  match n with
  | O => mret s
  | S n => c ← ld8 t; st8 s c;;
           if c =? 0 then mret (s + 1) else safestrcpy_loop n (s + 1) (t + 1)
  end.
Definition safestrcpy (s t n : Z) : M mem Z :=
  if n <=? 0 then mret s
  else s' ← safestrcpy_loop (Z.to_nat (n - 1)) s t; st8 s' 0;; mret s.

Fixpoint strlen_loop (fuel : nat) (s n : Z) : M mem Z :=
  match fuel with
  | O => undef
  | S fuel => c ← ld8 (s + n); if c =? 0 then mret n else strlen_loop fuel s (s32 (n + 1))
  end.
Definition strlen (s : Z) : M mem Z := fun m => strlen_loop (S (size m)) s 0 m.

(** ** ulib.c *)
Module Ulib.

Fixpoint strcpy_loop (fuel : nat) (s t : Z) : M mem unit :=
  match fuel with
  | O => undef
  | S fuel => c ← ld8 t; st8 s c;; if c =? 0 then mret tt else strcpy_loop fuel (s + 1) (t + 1)
  end.
Definition strcpy (s t : Z) : M mem Z := fun m => (strcpy_loop (S (size m)) s t;; mret s) m.

Fixpoint strcmp_loop (fuel : nat) (p q : Z) : M mem Z :=
  match fuel with
  | O => undef
  | S fuel =>
      a ← ld8 p;
      if a =? 0 then b ← ld8 q; mret (a - b)
      else b ← ld8 q; if a =? b then strcmp_loop fuel (p + 1) (q + 1) else mret (a - b)
  end.
Definition strcmp (p q : Z) : M mem Z := fun m => strcmp_loop (S (size m)) p q m.

Definition strlen (s : Z) : M mem Z := n ← strlen s; mret (u32 n).
Definition memset (dst c n : Z) : M mem Z := stosb dst c n;; mret dst.

Fixpoint strchr_loop (fuel : nat) (s c : Z) : M mem Z :=
  match fuel with
  | O => undef
  | S fuel => a ← ld8 s; if a =? 0 then mret 0 else if a =? c then mret s else strchr_loop fuel (s + 1) c
  end.
Definition strchr (s c : Z) : M mem Z := fun m => strchr_loop (S (size m)) s c m.

Fixpoint atoi_loop (fuel : nat) (s n : Z) : M mem Z :=
  match fuel with
  | O => undef
  | S fuel => a ← ld8 s;
      if (48 <=? a) && (a <=? 57) then atoi_loop fuel (s + 1) (s32 (s32 (s32 (n * 10) + a) - 48)) else mret n
  end.
Definition atoi (s : Z) : M mem Z := fun m => atoi_loop (S (size m)) s 0 m.

Definition memmove (vdst vsrc n : Z) : M mem Z := copy_up (Z.to_nat n) vdst vsrc;; mret vdst.

(** [gets] on the bytes that successive calls of [read(0, &c, 1)] deliver. *)
Fixpoint gets_loop (k : nat) (input : list Z) (buf i : Z) : M mem (Z * list Z) :=
  match k, input with
  | S k, c :: input' =>
      st8 (buf + i) c;;
      if (c =? 10) || (c =? 13) then mret (i + 1, input') else gets_loop k input' buf (i + 1)
  | _, _ => mret (i, input)
  end.
Definition gets (input : list Z) (buf max : Z) : M mem (list Z) :=
  '(i, rest) ← gets_loop (Z.to_nat (max - 1)) input buf 0;
  st8 (buf + i) 0;; mret rest.

End Ulib.

(** ** Specifications *)

(** Every cell of the memory is a byte. *)
Definition bytes_ok (m : mem) : Prop := map_Forall (fun _ v => 0 <= v < 256) m.
Definition byte (v : Z) : Prop := 0 <= v < 256.

Lemma u8_byte v : byte v -> u8 v = v.
Proof. unfold byte, u8. intros. apply Z.mod_small. lia. Qed.

Lemma u8_range v : byte (u8 v).
Proof. unfold byte, u8. zlia. Qed.

Lemma bytes_ok_block m a bs : bytes_ok m -> bytes_at m a bs -> Forall byte bs.
Proof.
  intros Hm H. rewrite bytes_at_lookup in H. apply Forall_lookup. intros i b Hi.
  exact (Hm _ _ (H i b Hi)).
Qed.

(** *** memset *)

Lemma stosb_loop_ok n : forall a d m, mapped m a (Z.of_nat n) ->
  stosb_loop n a d m = Ret tt (write_bytes a (replicate n (u8 d)) m).
Proof.
  induction n as [|n IH]; intros a d m H; [done|]. cbn [stosb_loop replicate write_bytes].
  rewrite (bind_ret _ _ _ _ _ (st8_ok m a d (H a ltac:(lia)))). apply IH.
  apply (mapped_write _ _ _ a [u8 d]). apply (mapped_sub _ _ _ _ _ H); lia.
Qed.

Lemma stosl_loop_ok n : forall a d m, mapped m a (4 * Z.of_nat n) ->
  stosl_loop n a d m = Ret tt (write_bytes a (concat (replicate n (le32 d))) m).
Proof.
  induction n as [|n IH]; intros a d m H; [done|].
  cbn [stosl_loop]. change (concat (replicate (S n) (le32 d))) with (le32 d ++ concat (replicate n (le32 d))).
  rewrite write_bytes_app. change (Z.of_nat (length (le32 d))) with 4.
  rewrite (bind_ret _ _ _ _ _ (st32_ok m a d ltac:(apply (mapped_sub _ _ _ _ _ H); lia))).
  apply IH, mapped_write, (mapped_sub _ _ _ _ _ H); lia.
Qed.

(** The word that [memset] stores has the byte in each of its four places. *)
Lemma memset_word c :
  let b := Z.land c 0xFF in
  le32 (Z.lor (Z.lor (Z.lor (Z.shiftl b 24) (Z.shiftl b 16)) (Z.shiftl b 8)) b) = replicate 4 (u8 c).
Proof.
  cbv zeta. assert (Hb : Z.land c 0xFF = u8 c) by (change 0xFF with (Z.ones 8); by rewrite Z.land_ones).
  rewrite Hb. pose proof (u8_range c) as Hr. set (b := u8 c) in *. clearbody b. unfold byte in Hr.
  assert (Hhi : forall i, 8 <= i -> Z.testbit b i = false).
  { intros i Hi. rewrite <- (Z.mod_small b (2 ^ 8)) by lia. by apply Z.mod_pow2_bits_high. }
  assert (Hk : forall w k, 0 <= k -> (forall i, 0 <= i < 8 -> Z.testbit w (i + k) = Z.testbit b i) -> u8 (Z.shiftr w k) = b).
  { intros w k Hk H. unfold u8. apply Z.bits_inj'. intros i Hi.
    destruct (Z.lt_ge_cases i 8).
    - rewrite Z.mod_pow2_bits_low, Z.shiftr_spec by lia. by apply H.
    - rewrite Z.mod_pow2_bits_high, Hhi by lia. done. }
  unfold le32. cbn [replicate].
  assert (Hs : forall i k, 0 <= i -> Z.testbit (Z.shiftl b k) i = Z.testbit b (i - k)) by (intros; by apply Z.shiftl_spec).
  rewrite <- (Z.shiftr_0_r (Z.lor _ b)) at 1.
  rewrite !Hk; [done|lia|..]; try lia;
    intros i Hi; rewrite !Z.lor_spec, !Hs by lia;
    repeat match goal with |- context [Z.testbit b ?j] =>
      lazymatch j with i => fail | _ => idtac end;
      first [ replace j with i by lia | rewrite (Hhi j) by lia | rewrite (Z.testbit_neg_r b j) by lia ] end;
    by destruct (Z.testbit b i).
Qed.

Lemma concat_replicate_replicate {A} n k (x : A) : concat (replicate n (replicate k x)) = replicate (n * k) x.
Proof. induction n as [|n IH]; [done|]. cbn. by rewrite IH, <- replicate_add. Qed.

(** [memset] fills, whichever of its two loops it takes. *)
Theorem memset_fills (m : mem) dst c n :
  0 <= n -> mapped m dst n ->
  memset dst c n m = Ret dst (write_bytes dst (replicate (Z.to_nat n) (u8 c)) m) /\
  memset dst c n m = Ulib.memset dst c n m.
Proof.
  intros Hn H. assert (Hb : stosb dst c n m = Ret tt (write_bytes dst (replicate (Z.to_nat n) (u8 c)) m)).
  { apply stosb_loop_ok. by rewrite Z2Nat.id. }
  assert (Hm : memset dst c n m = Ret dst (write_bytes dst (replicate (Z.to_nat n) (u8 c)) m)).
  { unfold memset. destruct (_ && _) eqn:E; [|by rewrite (bind_ret _ _ _ _ _ Hb)].
    apply andb_true_iff in E as [_ E]. apply Z.eqb_eq in E. cbv zeta. unfold stosl.
    erewrite bind_ret; [|apply stosl_loop_ok; apply (mapped_sub _ _ _ _ _ H); zlia].
    rewrite memset_word, concat_replicate_replicate.
    replace (Z.to_nat (n / 4) * 4)%nat with (Z.to_nat n) by zlia. done. }
  split; [done|]. rewrite Hm. unfold Ulib.memset. by rewrite (bind_ret _ _ _ _ _ Hb).
Qed.

(** *** memmove *)

Lemma copy_up_ok bs : forall d s m, bytes_at m s bs -> Forall byte bs -> mapped m d (Z.of_nat (length bs)) ->
  d <= s \/ s + Z.of_nat (length bs) <= d ->
  copy_up (length bs) d s m = Ret tt (write_bytes d bs m).
Proof.
  induction bs as [|b bs IH]; intros d s m Hs Hb Hd Hov; [done|].
  destruct Hs as [H0 Hs]. apply Forall_cons in Hb as [Hb0 Hb].
  cbn [copy_up length write_bytes] in *. rewrite (bind_ret _ _ _ _ _ (ld8_ok _ _ _ H0)).
  rewrite (bind_ret _ _ _ _ _ (st8_ok m d b (Hd d ltac:(lia)))), u8_byte by done.
  apply IH; [|done| |lia].
  - rewrite bytes_at_lookup in *. intros i c Hi. pose proof (lookup_lt_Some _ _ _ Hi).
    rewrite lookup_insert_ne by lia. by apply Hs.
  - apply (mapped_write _ _ _ d [b]), (mapped_sub _ _ _ _ _ Hd); lia.
Qed.

Lemma copy_down_ok bs : forall d s m, bytes_at m s bs -> Forall byte bs -> mapped m d (Z.of_nat (length bs)) ->
  s <= d \/ d + Z.of_nat (length bs) <= s ->
  copy_down (length bs) (d + Z.of_nat (length bs)) (s + Z.of_nat (length bs)) m = Ret tt (write_bytes d bs m).
Proof.
  induction bs as [|b bs IH] using rev_ind; intros d s m Hs Hb Hd Hov; [done|].
  apply bytes_at_app in Hs as [Hs [H0 _]]. apply Forall_app in Hb as [Hb [Hb0 _]%Forall_cons].
  rewrite write_bytes_snoc, !length_app in *. cbn [length] in *. rewrite Nat.add_1_r in *. cbn [copy_down].
  replace (s + Z.of_nat (S (length bs)) - 1) with (s + Z.of_nat (length bs)) by lia.
  replace (d + Z.of_nat (S (length bs)) - 1) with (d + Z.of_nat (length bs)) by lia.
  rewrite (bind_ret _ _ _ _ _ (ld8_ok _ _ _ H0)).
  erewrite bind_ret; [|apply st8_ok, Hd; lia]. rewrite u8_byte by done.
  rewrite IH; [|..].
  - f_equal. apply map_eq. intros x. rewrite write_bytes_lookup.
    destruct (decide (x = d + Z.of_nat (length bs))) as [->|Hne].
    + rewrite !lookup_insert_eq. destruct (decide _); [|done]. rewrite lookup_ge_None_2 by lia. done.
    + rewrite !lookup_insert_ne by done. by rewrite write_bytes_lookup.
  - rewrite bytes_at_lookup in *. intros i c Hi. pose proof (lookup_lt_Some _ _ _ Hi).
    rewrite lookup_insert_ne by lia. by apply Hs.
  - done.
  - apply (mapped_write _ _ _ (d + Z.of_nat (length bs)) [b]), (mapped_sub _ _ _ _ _ Hd); lia.
  - lia.
Qed.

(** The kernel's [memmove] copies the block as it was, however source and
    destination overlap, and changes nothing else. *)
Theorem memmove_copies (m : mem) dst src bs :
  bytes_ok m -> bytes_at m src bs -> mapped m dst (Z.of_nat (length bs)) ->
  memmove dst src (Z.of_nat (length bs)) m = Ret dst (write_bytes dst bs m).
Proof.
  intros Hm Hs Hd. pose proof (bytes_ok_block _ _ _ Hm Hs) as Hb. unfold memmove. rewrite Nat2Z.id.
  destruct (_ && _) eqn:E.
  - apply andb_true_iff in E as [H1 H2]. by rewrite (bind_ret _ _ _ _ _ (copy_down_ok bs dst src m Hs Hb Hd ltac:(lia))).
  - apply andb_false_iff in E. by rewrite (bind_ret _ _ _ _ _ (copy_up_ok bs dst src m Hs Hb Hd ltac:(lia))).
Qed.

(** The user library's [memmove] copies upwards only: onto a destination [k]
    bytes above the source it repeats the first [k] bytes of the source. *)
Theorem ulib_memmove_overlap (m : mem) src k bs :
  bytes_ok m -> bytes_at m src bs -> (0 < k < length bs)%nat ->
  mapped m src (Z.of_nat (k + length bs)) ->
  exists m', Ulib.memmove (src + Z.of_nat k) src (Z.of_nat (length bs)) m = Ret (src + Z.of_nat k) m' /\
    (forall i, (i < k + length bs)%nat -> m' !! (src + Z.of_nat i) = bs !! (i mod k)%nat) /\
    (forall x, x < src \/ src + Z.of_nat (k + length bs) <= x -> m' !! x = m !! x).
Proof.
  intros Hm Hs Hk Hmap.
  assert (Hloop : forall n m1 j, (j + n = length bs)%nat ->
    (forall i, (i < k + j)%nat -> m1 !! (src + Z.of_nat i) = bs !! (i mod k)%nat) ->
    (forall x, x < src \/ src + Z.of_nat (k + j) <= x -> m1 !! x = m !! x) ->
    exists m', copy_up n (src + Z.of_nat (k + j)) (src + Z.of_nat j) m1 = Ret tt m' /\
      (forall i, (i < k + length bs)%nat -> m' !! (src + Z.of_nat i) = bs !! (i mod k)%nat) /\
      (forall x, x < src \/ src + Z.of_nat (k + length bs) <= x -> m' !! x = m !! x)).
  { induction n as [|n IH]; intros m1 j Hj H1 H2.
    { exists m1. replace (length bs) with j by lia. by split_and!. }
    destruct (lookup_lt_is_Some_2 bs (j mod k)%nat) as [b Hb].
    { pose proof (Nat.mod_upper_bound j k ltac:(lia)). lia. }
    pose proof (bytes_ok_block _ _ _ Hm Hs) as Hall. rewrite Forall_lookup in Hall.
    pose proof (Hall _ _ Hb) as Hbb. cbn [copy_up].
    erewrite bind_ret; [|apply (ld8_ok _ _ b); by rewrite H1 by lia].
    erewrite bind_ret; [|apply st8_ok; rewrite H2 by lia; apply Hmap; lia]. rewrite u8_byte by done.
    replace (src + Z.of_nat (k + j) + 1) with (src + Z.of_nat (k + S j)) by lia.
    replace (src + Z.of_nat j + 1) with (src + Z.of_nat (S j)) by lia.
    apply IH; [lia|..].
    - intros i Hi. destruct (decide (i = k + j)%nat) as [->|Hne].
      + rewrite lookup_insert_eq. replace (k + j)%nat with (j + 1 * k)%nat by lia.
        by rewrite Nat.Div0.mod_add.
      + rewrite lookup_insert_ne by lia. apply H1. lia.
    - intros x Hx. rewrite lookup_insert_ne by lia. apply H2. lia. }
  destruct (Hloop (length bs) m 0%nat) as (m' & Hrun & H); [done|..].
  - intros i Hi. rewrite Nat.mod_small by lia. rewrite bytes_at_lookup in Hs.
    destruct (lookup_lt_is_Some_2 bs i) as [b Hb]; [lia|]. rewrite Hb. by apply Hs.
  - done.
  - exists m'. split; [|done]. unfold Ulib.memmove. rewrite Nat2Z.id.
    rewrite Nat.add_0_r, Z.add_0_r in Hrun. by rewrite (bind_ret _ _ _ _ _ Hrun).
Qed.

(** *** Comparisons *)

(** The difference of two blocks at the first place where they differ. *)
Fixpoint first_diff (bs cs : list Z) : Z :=
  match bs, cs with
  | b :: bs', c :: cs' => if b =? c then first_diff bs' cs' else b - c
  | _, _ => 0
  end.

Lemma first_diff_eq bs : forall cs, length bs = length cs -> (first_diff bs cs = 0 <-> bs = cs).
Proof.
  induction bs as [|b bs IH]; intros [|c cs] Hl; try done. cbn. destruct (Z.eqb_spec b c) as [->|Hne].
  - rewrite IH by (cbn in Hl; lia). split; congruence.
  - split; [lia|congruence].
Qed.

Lemma memcmp_ok (m : mem) p q bs : forall cs, length bs = length cs -> bytes_at m p bs -> bytes_at m q cs ->
  memcmp_loop (length bs) p q m = Ret (first_diff bs cs) m.
Proof.
  revert p q. induction bs as [|b bs IH]; intros p q [|c cs] Hl Hp Hq; try done.
  destruct Hp as [Hp0 Hp], Hq as [Hq0 Hq]. cbn [memcmp_loop length first_diff].
  rewrite (bind_ret _ _ _ _ _ (ld8_ok _ _ _ Hp0)), (bind_ret _ _ _ _ _ (ld8_ok _ _ _ Hq0)).
  destruct (b =? c); cbn; [|done]. apply IH; [cbn in Hl; lia|done..].
Qed.

(** Two strings, compared with their terminators. *)
Fixpoint str_diff (s t : list Z) : Z :=
  match s, t with
  | [], [] => 0
  | [], c :: _ => - c
  | b :: _, [] => b
  | b :: s', c :: t' => if b =? c then str_diff s' t' else b - c
  end.

Lemma str_diff_eq s : forall t, Forall (fun c => c <> 0) s -> Forall (fun c => c <> 0) t ->
  (str_diff s t = 0 <-> s = t).
Proof.
  induction s as [|b s IH]; intros [|c t] Hs Ht; cbn; try done.
  - apply Forall_cons in Ht as [? _]. split; [lia|done].
  - apply Forall_cons in Hs as [? _]. split; [lia|done].
  - apply Forall_cons in Hs as [_ Hs], Ht as [_ Ht]. destruct (Z.eqb_spec b c) as [->|Hne].
    + rewrite IH by done. split; congruence.
    + split; [lia|congruence].
Qed.

Lemma strncmp_ok (m : mem) n : forall p q s t, cstr m p s -> cstr m q t ->
  strncmp_loop n p q m = Ret (str_diff (take n s) (take n t)) m.
Proof.
  induction n as [|n IH]; intros p q s t Hs Ht; [by rewrite !take_0|]. cbn [strncmp_loop].
  destruct s as [|b s], t as [|c t]; rewrite ?cstr_cons, ?cstr_nil in *;
    repeat match goal with H : _ /\ _ |- _ => destruct H end.
  all: erewrite bind_ret; [|apply ld8_ok; eassumption].
  1, 2: cbn; erewrite bind_ret; [|apply ld8_ok; eassumption]; done.
  all: destruct (Z.eqb_spec b 0); [done|].
  all: erewrite bind_ret; [|apply ld8_ok; eassumption]; cbn [take firstn str_diff].
  - destruct (Z.eqb_spec b 0); [done|]. by rewrite Z.sub_0_r.
  - destruct (Z.eqb_spec b c); [|done]. by apply IH.
Qed.

Lemma strcmp_loop_ok (m : mem) fuel : forall p q s t, cstr m p s -> cstr m q t -> (length s < fuel)%nat ->
  Ulib.strcmp_loop fuel p q m = Ret (str_diff s t) m.
Proof.
  induction fuel as [|n IH]; intros p q s t Hs Ht Hf; [lia|]. cbn [Ulib.strcmp_loop].
  destruct s as [|b s], t as [|c t]; rewrite ?cstr_cons, ?cstr_nil in *;
    repeat match goal with H : _ /\ _ |- _ => destruct H end.
  all: erewrite bind_ret; [|apply ld8_ok; eassumption].
  1, 2: cbn; erewrite bind_ret; [|apply ld8_ok; eassumption]; done.
  all: destruct (Z.eqb_spec b 0); [done|].
  all: erewrite bind_ret; [|apply ld8_ok; eassumption]; cbn [str_diff].
  - destruct (Z.eqb_spec b 0); [done|]. by rewrite Z.sub_0_r.
  - destruct (Z.eqb_spec b c); [|done]. apply IH; [done..|cbn in Hf; lia].
Qed.

(** [strcmp] and [strncmp] return 0 for exactly the strings that are equal (in
    their first [n] characters). *)
Theorem strcmp_equal (m : mem) p q s t n :
  cstr m p s -> cstr m q t ->
  (exists r, Ulib.strcmp p q m = Ret r m /\ (r = 0 <-> s = t)) /\
  (exists r, strncmp p q n m = Ret r m /\ (r = 0 <-> take (Z.to_nat n) s = take (Z.to_nat n) t)).
Proof.
  intros Hs Ht. pose proof (proj2 Hs). pose proof (proj2 Ht). split.
  - eexists. split; [|by apply str_diff_eq].
    unfold Ulib.strcmp. apply strcmp_loop_ok; [done..|]. pose proof (cstr_size _ _ _ Hs). lia.
  - eexists. split; [by apply strncmp_ok|]. apply str_diff_eq; by apply Forall_take.
Qed.

(** *** Copies of strings *)

Lemma strlen_loop_ok (m : mem) fuel a s : forall pre, cstr m a (pre ++ s) -> Z.of_nat (length (pre ++ s)) < 2 ^ 31 ->
  (length s < fuel)%nat ->
  strlen_loop fuel a (Z.of_nat (length pre)) m = Ret (Z.of_nat (length (pre ++ s))) m.
Proof.
  revert s. induction fuel as [|n IH]; intros s pre Hs Hl Hf; [lia|]. cbn [strlen_loop].
  destruct (Hs) as [Hb Hn]. rewrite <- app_assoc in Hb. apply bytes_at_app in Hb as [_ Hb].
  destruct s as [|c s]; destruct Hb as [H0 _].
  - rewrite (bind_ret _ _ _ _ _ (ld8_ok _ _ _ H0)). by rewrite app_nil_r.
  - rewrite (bind_ret _ _ _ _ _ (ld8_ok _ _ _ H0)).
    apply Forall_app in Hn as [_ [Hc _]%Forall_cons]. destruct (Z.eqb_spec c 0); [done|].
    rewrite length_app in Hl. cbn in Hl, Hf. rewrite s32_small by lia.
    replace (Z.of_nat (length pre) + 1) with (Z.of_nat (length (pre ++ [c]))) by (rewrite length_app; cbn; lia).
    rewrite (cons_middle c pre s), app_assoc. apply IH; [by rewrite <- app_assoc| |lia].
    rewrite !length_app. cbn. lia.
Qed.

Lemma strlen_ok (m : mem) a s : cstr m a s -> Z.of_nat (length s) < 2 ^ 31 ->
  strlen a m = Ret (Z.of_nat (length s)) m.
Proof.
  intros Hs Hl. apply (strlen_loop_ok m (S (size m)) a s []); [done..|].
  pose proof (cstr_size _ _ _ Hs). lia.
Qed.

Lemma zero_fill_ok n : forall a m, mapped m a (Z.of_nat n) ->
  zero_fill n a m = Ret tt (write_bytes a (replicate n 0) m).
Proof.
  induction n as [|n IH]; intros a m H; [done|]. cbn [zero_fill replicate write_bytes].
  erewrite bind_ret; [|apply st8_ok, H; lia]. change (u8 0) with 0. apply IH.
  apply (mapped_write _ _ _ a [0]), (mapped_sub _ _ _ _ _ H); lia.
Qed.

(** The block at [s] of [n] bytes does not meet the string [str] at [t]. *)
Definition apart (s n t : Z) (str : list Z) : Prop :=
  t + Z.of_nat (length str) + 1 <= s \/ s + n <= t.

Lemma cstr_insert m t str s c :
  cstr m t str -> s < t \/ t + Z.of_nat (length str) < s -> cstr (<[s := c]> m) t str.
Proof.
  intros [H Hn] Hs. split; [|done]. apply (bytes_at_write_other m t (str ++ [0]) s [c]); [|done].
  rewrite length_app. cbn. lia.
Qed.

(** One step of a copying loop: the first character is stored, the rest of the
    string is still there. *)
Lemma copy_char {B} m s n t c str (k : Z -> M mem B) :
  cstr m t (c :: str) -> byte c -> mapped m s (Z.of_nat (S n)) -> apart s (Z.of_nat (S n)) t (c :: str) ->
  (x ← ld8 t; st8 s x;; k x) m = k c (<[s := c]> m) /\ c <> 0 /\
  cstr (<[s := c]> m) (t + 1) str /\ mapped (<[s := c]> m) (s + 1) (Z.of_nat n) /\
  apart (s + 1) (Z.of_nat n) (t + 1) str.
Proof.
  intros (H0 & Hc & Hs)%cstr_cons Hb Hm Ha. unfold apart in *. cbn [length] in *. split_and!.
  - rewrite (bind_ret _ _ _ _ _ (ld8_ok _ _ _ H0)). erewrite bind_ret; [|apply st8_ok, Hm; lia].
    by rewrite u8_byte by done.
  - done.
  - apply cstr_insert; [done|lia].
  - apply (mapped_write _ _ _ s [c]), (mapped_sub _ _ _ _ _ Hm); lia.
  - lia.
Qed.

Lemma copy_nul {B} m s n t (k : Z -> M mem B) :
  cstr m t [] -> mapped m s (Z.of_nat (S n)) -> (x ← ld8 t; st8 s x;; k x) m = k 0 (<[s := 0]> m).
Proof.
  intros H0%cstr_nil Hm. rewrite (bind_ret _ _ _ _ _ (ld8_ok _ _ _ H0)).
  by erewrite bind_ret; [|apply st8_ok, Hm; lia].
Qed.

Lemma strncpy_loop_ok n : forall k s t str m,
  cstr m t str -> Forall byte str -> mapped m s (Z.of_nat n) -> apart s (Z.of_nat n) t str -> (n <= k)%nat ->
  strncpy_loop n s t m = Ret tt (write_bytes s (take n (str ++ replicate k 0)) m).
Proof.
  induction n as [|n IH]; intros k s t str m Hs Hb Hm Ha Hk; [done|]. cbn [strncpy_loop].
  destruct str as [|c str].
  - rewrite (copy_nul _ _ _ _ _ Hs Hm). cbn [app]. rewrite take_replicate, Nat.min_l by lia.
    change (zero_fill n (s + 1) (<[s := 0]> m) = Ret tt (write_bytes (s + 1) (replicate n 0) (<[s := 0]> m))).
    apply zero_fill_ok, (mapped_write _ _ _ s [0]), (mapped_sub _ _ _ _ _ Hm); lia.
  - apply Forall_cons in Hb as [Hc Hb].
    destruct (copy_char m s n t c str (fun x => if x =? 0 then zero_fill n (s + 1) else strncpy_loop n (s + 1) (t + 1))
                Hs Hc Hm Ha) as (-> & Hc0 & Hs' & Hm' & Ha').
    destruct (Z.eqb_spec c 0); [done|]. by rewrite (IH k _ _ str) by (done || lia).
Qed.

Lemma safestrcpy_loop_ok n : forall s t str m,
  cstr m t str -> Forall byte str -> mapped m s (Z.of_nat n) -> apart s (Z.of_nat n) t str ->
  safestrcpy_loop n s t m =
    Ret (s + Z.of_nat (length (take n (str ++ [0])))) (write_bytes s (take n (str ++ [0])) m).
Proof.
  induction n as [|n IH]; intros s t str m Hs Hb Hm Ha; [cbn; by rewrite Z.add_0_r|]. cbn [safestrcpy_loop].
  destruct str as [|c str].
  - rewrite (copy_nul _ _ _ _ _ Hs Hm). cbn [app]. by destruct n.
  - apply Forall_cons in Hb as [Hc Hb].
    destruct (copy_char m s n t c str (fun x => if x =? 0 then mret (s + 1) else safestrcpy_loop n (s + 1) (t + 1))
                Hs Hc Hm Ha) as (-> & Hc0 & Hs' & Hm' & Ha').
    destruct (Z.eqb_spec c 0); [done|]. rewrite (IH _ _ str) by done. cbn [app take firstn length write_bytes]. f_equal. lia.
Qed.

(** What [strncpy] and [safestrcpy] leave at [s], for a string that does not meet
    the destination: [strncpy] writes exactly [n] bytes, the string's first [n]
    padded with NULs; [safestrcpy] writes at most [n] bytes, of which the last is
    a NUL, so that what is at [s] is the string cut to [n-1] characters.
    Nothing else changes. *)
Theorem string_copies (m : mem) s t str n :
  bytes_ok m -> cstr m t str -> 0 < n -> mapped m s n -> apart s n t str ->
  strncpy s t n m = Ret s (write_bytes s (take (Z.to_nat n) (str ++ replicate (Z.to_nat n) 0)) m) /\
  exists m', safestrcpy s t n m = Ret s m' /\ cstr m' s (take (Z.to_nat (n - 1)) str) /\
    (forall x, x < s \/ s + n <= x -> m' !! x = m !! x).
Proof.
  intros Hm Hs Hn Hd Ha. destruct (Hs) as [Hat Hnz].
  assert (Hb : Forall byte str).
  { pose proof (bytes_ok_block _ _ _ Hm Hat) as H. by apply Forall_app in H as [? _]. }
  split.
  - unfold strncpy. erewrite bind_ret; [|apply (strncpy_loop_ok _ (Z.to_nat n)); rewrite ?Z2Nat.id by lia; (done || lia)].
    done.
  - unfold safestrcpy. destruct (Z.leb_spec n 0); [lia|].
    set (k := Z.to_nat (n - 1)). assert (Hk : n = Z.of_nat k + 1) by lia.
    erewrite bind_ret; [|apply safestrcpy_loop_ok; [done|done|apply (mapped_sub _ _ _ _ _ Hd); lia|unfold apart in *; lia]].
    set (w := take k (str ++ [0])). assert (Hw : (length w <= k)%nat) by (unfold w; rewrite length_take; lia).
    erewrite bind_ret; [|apply st8_ok; apply mapped_write with (a := s) (n := n); [done|lia]].
    change (u8 0) with 0. rewrite <- write_bytes_snoc. eexists. split; [done|]. split.
    + split; [|by apply Forall_take].
      pose proof (write_bytes_at s (w ++ [0]) m) as Hw0.
      destruct (decide (k <= length str)%nat) as [Hle|Hgt].
      * by replace (take k str) with w by (unfold w; by rewrite take_app_le).
      * rewrite (take_ge str) by lia. apply bytes_at_app in Hw0 as [Hw0 _].
        by replace (str ++ [0]) with w by (unfold w; apply take_ge; rewrite length_app; cbn; lia).
    + intros x Hx. apply write_bytes_out. rewrite length_app. cbn. lia.
Qed.

Lemma strcpy_loop_ok fuel : forall s t str m,
  cstr m t str -> Forall byte str -> mapped m s (Z.of_nat (S (length str))) ->
  apart s (Z.of_nat (S (length str))) t str -> (length str < fuel)%nat ->
  Ulib.strcpy_loop fuel s t m = Ret tt (write_bytes s (str ++ [0]) m).
Proof.
  induction fuel as [|n IH]; intros s t str m Hs Hb Hm Ha Hf; [lia|]. cbn [Ulib.strcpy_loop].
  destruct str as [|c str].
  - by rewrite (copy_nul _ _ _ _ _ Hs Hm).
  - apply Forall_cons in Hb as [Hc Hb].
    destruct (copy_char m s _ t c str (fun x => if x =? 0 then mret tt else Ulib.strcpy_loop n (s + 1) (t + 1))
                Hs Hc Hm Ha) as (-> & Hc0 & Hs' & Hm' & Ha').
    destruct (Z.eqb_spec c 0); [done|]. rewrite (IH _ _ str) by (done || (cbn in Hf; lia)). done.
Qed.

Lemma strchr_loop_ok (m : mem) fuel c : forall a s, cstr m a s -> (length s < fuel)%nat ->
  Ulib.strchr_loop fuel a c m =
    Ret (match findi (Z.eqb c) s with Some i => a + Z.of_nat i | None => 0 end) m.
Proof.
  induction fuel as [|n IH]; intros a s Hs Hf; [lia|]. cbn [Ulib.strchr_loop].
  destruct s as [|b s].
  - apply cstr_nil in Hs. by rewrite (bind_ret _ _ _ _ _ (ld8_ok _ _ _ Hs)).
  - apply cstr_cons in Hs as (H0 & Hb & Hs). rewrite (bind_ret _ _ _ _ _ (ld8_ok _ _ _ H0)).
    destruct (Z.eqb_spec b 0); [done|]. cbn [findi]. rewrite (Z.eqb_sym c b).
    destruct (b =? c); [by rewrite Z.add_0_r|]. rewrite (IH _ s) by (done || (cbn in Hf; lia)).
    destruct (findi (Z.eqb c) s); cbn; [f_equal; lia|done].
Qed.

(** The value of a string of decimal digits. *)
Definition digits_value (ds : list Z) : Z := fold_left (fun n d => n * 10 + (d - 48)) ds 0.
Definition is_digit (c : Z) : Prop := 48 <= c <= 57.

Lemma digits_value_ge ds : forall n, 0 <= n -> Forall is_digit ds ->
  n <= fold_left (fun n d => n * 10 + (d - 48)) ds n.
Proof.
  induction ds as [|d ds IH]; intros n Hn Hd; cbn; [done|].
  apply Forall_cons in Hd as [Hd0 Hd]. unfold is_digit in Hd0.
  specialize (IH (n * 10 + (d - 48)) ltac:(lia) Hd). lia.
Qed.

Lemma atoi_loop_ok (m : mem) fuel : forall a n ds c, bytes_at m a (ds ++ [c]) -> Forall is_digit ds -> ~ is_digit c ->
  (length ds < fuel)%nat -> 0 <= n ->
  fold_left (fun n d => n * 10 + (d - 48)) ds n < 2 ^ 31 ->
  Ulib.atoi_loop fuel a n m = Ret (fold_left (fun n d => n * 10 + (d - 48)) ds n) m.
Proof.
  unfold is_digit. induction fuel as [|f IH]; intros a n ds c Hat Hd Hc Hf Hn Hlt; [lia|]. cbn [Ulib.atoi_loop].
  destruct ds as [|d ds]; destruct Hat as [H0 Hat]; rewrite (bind_ret _ _ _ _ _ (ld8_ok _ _ _ H0)).
  - destruct (Z.leb_spec 48 c), (Z.leb_spec c 57); try lia; done.
  - apply Forall_cons in Hd as [Hd0 Hd]. destruct (Z.leb_spec 48 d), (Z.leb_spec d 57); try lia. cbn [andb].
    cbn [fold_left] in *. pose proof (digits_value_ge ds (n * 10 + (d - 48)) ltac:(lia) Hd) as Hge.
    replace (s32 (s32 (s32 (n * 10) + d) - 48)) with (n * 10 + (d - 48)).
    + apply (IH _ _ _ c); try done; cbn in Hf; lia.
    + rewrite s32_sub_l, <- Z.add_sub_assoc, s32_add_l, s32_small by lia. lia.
Qed.

(** [strlen], [strcpy], [strchr] and [atoi] of the user library on a string: its
    length, a copy of it, the first occurrence of a character, and the value of
    the digits at its head. *)
Theorem ulib_strings (m : mem) a s :
  bytes_ok m -> cstr m a s -> Z.of_nat (length s) < 2 ^ 31 ->
  Ulib.strlen a m = Ret (Z.of_nat (length s)) m /\
  (forall d, mapped m d (Z.of_nat (S (length s))) -> apart d (Z.of_nat (S (length s))) a s ->
     Ulib.strcpy d a m = Ret d (write_bytes d (s ++ [0]) m)) /\
  (forall c, Ulib.strchr a c m = Ret (match findi (Z.eqb c) s with Some i => a + Z.of_nat i | None => 0 end) m) /\
  (forall ds rest, s = ds ++ rest -> Forall is_digit ds ->
     (forall c, head rest = Some c -> ~ is_digit c) -> digits_value ds < 2 ^ 31 ->
     Ulib.atoi a m = Ret (digits_value ds) m).
Proof.
  intros Hm Hs Hl. pose proof (cstr_size _ _ _ Hs) as Hsz. split_and!.
  - unfold Ulib.strlen. rewrite (bind_ret _ _ _ _ _ (strlen_ok _ _ _ Hs Hl)). by rewrite u32_small by lia.
  - intros d Hd Ha. unfold Ulib.strcpy. erewrite bind_ret; [done|]. apply strcpy_loop_ok; try done; [|lia].
    pose proof (bytes_ok_block _ _ _ Hm (proj1 Hs)) as H. by apply Forall_app in H as [? _].
  - intros c. apply strchr_loop_ok; [done|lia].
  - intros ds rest -> Hd Hr Hv. destruct Hs as [Hat _]. rewrite <- app_assoc in Hat. rewrite length_app in Hsz.
    assert (exists c tl, rest ++ [0] = c :: tl /\ ~ is_digit c) as (c & tl & Htl & Hc).
    { destruct rest as [|c tl]; [exists 0, []; split; [done|unfold is_digit; lia]|].
      exists c, (tl ++ [0]). split; [done|by apply Hr]. }
    rewrite Htl, cons_middle, app_assoc in Hat. apply bytes_at_app in Hat as [Hat _].
    unfold Ulib.atoi. eapply atoi_loop_ok; try done; lia.
Qed.

(** ** Instances *)

Definition mem_of (a : Z) (bs : list Z) : mem := write_bytes a bs ∅.

Lemma mem_of_at a bs : bytes_at (mem_of a bs) a bs.
Proof. apply write_bytes_at. Qed.

Lemma mem_of_bytes_ok a bs : Forall byte bs -> bytes_ok (mem_of a bs).
Proof.
  intros H x v Hx. unfold mem_of in Hx. rewrite write_bytes_lookup, lookup_empty in Hx.
  destruct (if decide (a <= x) then bs !! Z.to_nat (x - a) else None) eqn:E; [|done].
  injection Hx as <-. destruct (decide (a <= x)); [|done]. rewrite Forall_lookup in H. by apply (H _ _ E).
Qed.

Lemma mem_of_mapped a bs b n : a <= b -> b + n <= a + Z.of_nat (length bs) -> mapped (mem_of a bs) b n.
Proof. intros. eapply mapped_sub; [apply bytes_at_mapped, mem_of_at|lia..]. Qed.

(** "42ab" and a dozen NULs, at 100. *)
Definition demo_bytes : list Z := [52; 50; 97; 98] ++ replicate 12 0.
Definition demo : mem := mem_of 100 demo_bytes.

Lemma demo_ok : bytes_ok demo.
Proof. apply mem_of_bytes_ok. unfold demo_bytes. cbn. repeat constructor; unfold byte; lia. Qed.

Lemma demo_str : cstr demo 100 [52; 50; 97; 98].
Proof. split; [|repeat constructor; done]. vm_compute. repeat split. Qed.

Lemma memset_fills_witness :
  memset 104 7 8 demo = Ulib.memset 104 7 8 demo /\ memset 101 7 3 demo = Ulib.memset 101 7 3 demo.
Proof.
  split.
  - apply (memset_fills demo 104 7 8); [lia|apply mem_of_mapped; cbn; lia].
  - apply (memset_fills demo 101 7 3); [lia|apply mem_of_mapped; cbn; lia].
Defined.

Lemma memmove_copies_witness :
  memmove 102 100 4 demo = Ret 102 (write_bytes 102 [52; 50; 97; 98] demo).
Proof.
  apply (memmove_copies demo 102 100 [52; 50; 97; 98]);
    [exact demo_ok|by vm_compute|apply mem_of_mapped; cbn; lia].
Defined.

Lemma ulib_memmove_overlap_witness :
  exists m', Ulib.memmove 102 100 4 demo = Ret 102 m' /\ m' !! 104 = Some 52 /\ demo !! 102 = Some 97.
Proof.
  destruct (ulib_memmove_overlap demo 100 2 [52; 50; 97; 98]) as (m' & Hrun & H & _);
    [exact demo_ok|by vm_compute|cbn; lia|apply mem_of_mapped; cbn; lia|].
  exists m'. split; [exact Hrun|]. split; [|by vm_compute]. exact (H 4%nat ltac:(cbn; lia)).
Defined.

Lemma strcmp_equal_witness : exists r, strncmp 100 100 2 demo = Ret r demo /\ r = 0.
Proof.
  destruct (strcmp_equal demo 100 100 [52; 50; 97; 98] [52; 50; 97; 98] 2 demo_str demo_str) as [_ (r & Hr & H)].
  exists r. split; [exact Hr|by apply H].
Defined.

Lemma string_copies_witness :
  exists m', safestrcpy 108 100 4 demo = Ret 108 m' /\ cstr m' 108 [52; 50; 97].
Proof.
  destruct (string_copies demo 108 100 [52; 50; 97; 98] 4) as [_ (m' & Hr & Hc & _)];
    [exact demo_ok|exact demo_str|lia|apply mem_of_mapped; cbn; lia|left; cbn; lia|].
  by exists m'.
Defined.

Lemma ulib_strings_witness : Ulib.strlen 100 demo = Ret 4 demo /\ Ulib.atoi 100 demo = Ret 42 demo.
Proof.
  destruct (ulib_strings demo 100 [52; 50; 97; 98] demo_ok demo_str) as (H1 & _ & _ & H2); [cbn; lia|].
  split; [exact H1|]. apply (H2 [52; 50] [97; 98]); [done|repeat constructor; unfold is_digit; lia| |by vm_compute].
  intros c [= <-]. unfold is_digit. lia.
Defined.
