(* ===== verification/Ring.v ===== *)
(** * Ring: buffers indexed by free-running counters

    The console's input buffer and the pipe keep a circular buffer [b] of [N]
    bytes with two unsigned counters that are never reduced: the bytes between
    the read counter [r] and the end counter [e] are at the indices modulo [N].
    The counters wrap at 2^32, which is harmless because [N] divides 2^32.
    [ring] relates such a buffer to the queue it represents. *)

From S2P Require Import Prelude.

Lemma u32_add_eq a k : 0 <= k < 2 ^ 32 -> is_u32 a -> u32 (a + k) = a <-> k = 0.
Proof. unfold is_u32, u32. intros Hk Ha. split; [|intros ->; rewrite Z.add_0_r; apply Z.mod_small; lia]. zlia. Qed.

Section Ring.
Context (N : Z) (HN : 0 < N < 2 ^ 31) (Hdiv : (N | 2 ^ 32)).

Record ring (b : list Z) (r e : Z) (q : list Z) : Prop := {
  ring_size : Z.of_nat (length b) = N;
  ring_r : is_u32 r;
  ring_e : e = u32 (r + Z.of_nat (length q));
  ring_fits : Z.of_nat (length q) <= N;
  ring_at : forall i x, q !! i = Some x -> aget b ((r + Z.of_nat i) mod N) = Some x
}.

Lemma u32_mod x : u32 x mod N = x mod N.
Proof.
  destruct Hdiv as [k Hk]. unfold u32. rewrite Hk, (Z.mul_comm k N).
  rewrite Z.mod_eq with (a := x) by lia.
  replace (x - N * k * (x / (N * k))) with (x + (- (k * (x / (N * k)))) * N) by lia.
  by rewrite Z.mod_add by lia.
Qed.

Lemma ring_index_inj a i j : 0 <= i < N -> 0 <= j < N -> (a + i) mod N = (a + j) mod N -> i = j.
Proof.
  intros Hi Hj H. pose proof (Z.div_mod (a + i) N ltac:(lia)). pose proof (Z.div_mod (a + j) N ltac:(lia)).
  assert (Hq : (a + i) / N = (a + j) / N \/ (a + i) / N < (a + j) / N \/ (a + j) / N < (a + i) / N) by lia.
  destruct Hq as [Hq|[Hq|Hq]]; nia.
Qed.

Lemma ring_length b r e q : ring b r e q -> u32 (e - r) = Z.of_nat (length q).
Proof.
  intros [_ Hr -> Hf _]. unfold is_u32 in Hr. unfold u32.
  rewrite Zminus_mod_idemp_l. replace (r + Z.of_nat (length q) - r) with (Z.of_nat (length q)) by lia.
  apply Z.mod_small. lia.
Qed.

Lemma ring_empty b r e q : ring b r e q -> (e = r <-> q = []).
Proof.
  intros [_ Hr -> Hf _]. rewrite u32_add_eq by (done || lia). destruct q; cbn; split; (done || lia).
Qed.

Lemma ring_full b r e q : ring b r e q -> (e = u32 (r + N) <-> Z.of_nat (length q) = N).
Proof. intros [_ Hr -> Hf _]. unfold is_u32, u32 in *. split; [zlia|by intros ->]. Qed.

Lemma ring_push b r e q v :
  ring b r e q -> Z.of_nat (length q) < N ->
  is_Some (aget b (e mod N)) /\ ring (aset b (e mod N) v) r (u32 (e + 1)) (q ++ [v]).
Proof.
  intros [Hb Hr He Hf Hat] Hlt. assert (Hm : forall x, 0 <= x mod N < N) by (intros; apply Z.mod_pos_bound; lia).
  split; [apply aget_is_Some; rewrite Hb; apply Hm|].
  assert (Hidx : e mod N = (r + Z.of_nat (length q)) mod N) by (rewrite He; apply u32_mod).
  split.
  - by rewrite aset_length.
  - done.
  - rewrite length_app. cbn. rewrite He. unfold u32. rewrite Zplus_mod_idemp_l. f_equal. lia.
  - rewrite length_app. cbn. lia.
  - intros i x Hi. apply lookup_app_Some in Hi as [Hi|[Hge Hi]].
    + pose proof (lookup_lt_Some _ _ _ Hi). rewrite aget_aset_ne; [by apply Hat|].
      rewrite Hidx. intros Heq. apply ring_index_inj in Heq; lia.
    + apply list_lookup_singleton_Some in Hi as [Hi <-]. replace i with (length q) by lia.
      rewrite Hidx. apply aget_aset_eq. rewrite Hb. apply Hm.
Qed.

Lemma ring_head b r e x q :
  ring b r e (x :: q) -> aget b (r mod N) = Some x /\ ring b (u32 (r + 1)) e q.
Proof.
  intros [Hb Hr He Hf Hat]. split; [specialize (Hat 0%nat x eq_refl); by rewrite Z.add_0_r in Hat|]. split.
  - done.
  - apply u32_range.
  - rewrite He. unfold u32. rewrite Zplus_mod_idemp_l. f_equal. cbn [length]. lia.
  - cbn in Hf. lia.
  - intros i y Hi. specialize (Hat (S i) y Hi).
    rewrite <- Zplus_mod_idemp_l, u32_mod, Zplus_mod_idemp_l.
    by replace (r + 1 + Z.of_nat i) with (r + Z.of_nat (S i)) by lia.
Qed.

Lemma ring_last b r e q x :
  ring b r e (q ++ [x]) -> aget b (u32 (e - 1) mod N) = Some x /\ ring b r (u32 (e - 1)) q.
Proof.
  intros [Hb Hr He Hf Hat]. rewrite length_app in *. cbn in *.
  assert (Hl : u32 (e - 1) = u32 (r + Z.of_nat (length q))).
  { rewrite He. unfold u32. rewrite Zminus_mod_idemp_l. f_equal. lia. }
  split.
  - rewrite Hl, u32_mod. apply Hat. by rewrite lookup_app_r, Nat.sub_diag by lia.
  - split; [done|done|done|lia|]. intros i y Hi. apply Hat. rewrite lookup_app_l; [done|]. by eapply lookup_lt_Some.
Qed.

(** [r--] after [r++]: the byte is back. *)
Lemma ring_unread b r e x q :
  ring b r e (x :: q) -> u32 (u32 (r + 1) - 1) = r.
Proof.
  intros [_ Hr _ _ _]. unfold u32. rewrite Zminus_mod_idemp_l. replace (r + 1 - 1) with r by lia.
  by apply u32_small.
Qed.

Lemma ring_nil b r : Z.of_nat (length b) = N -> is_u32 r -> ring b r r [].
Proof.
  intros Hb Hr. split; cbn; try done; [|lia]. rewrite Z.add_0_r. symmetry. by apply u32_small.
Qed.

End Ring.
