(* ===== verification/Grep.v ===== *)
(** * Grep: the regular expression matcher and the line loop of grep.c

    NUL-terminated strings are lists of non-NUL characters; [re[1]] past the end
    is the terminator.  [matchhere] and [matchstar] are one recursion on the
    pattern with an inner loop over the text. *)

From S2P Require Import Prelude.

Definition STAR : Z := 42.
Definition DOLLAR : Z := 36.
Definition DOT : Z := 46.
Definition CARET : Z := 94.
Definition NL : Z := 10.

(** [matchstar(c, re, text)], given [matchhere re]: the do-while over the text. *)
Fixpoint matchstar (here : list Z -> bool) (c : Z) (text : list Z) : bool :=
  if here text then true
  else match text with
       | [] => false
       | x :: text' => if (x =? c) || (c =? DOT) then matchstar here c text' else false
       end.

Fixpoint matchhere (re text : list Z) : bool :=
  match re with
  | [] => true
  | c :: re1 =>
      match re1 with
      | s :: re2 =>
          if s =? STAR then matchstar (matchhere re2) c text
          else match text with
               | x :: text' => if (c =? DOT) || (c =? x) then matchhere re1 text' else false
               | [] => false
               end
      | [] =>
          if c =? DOLLAR then match text with [] => true | _ => false end
          else match text with
               | x :: text' => if (c =? DOT) || (c =? x) then matchhere re1 text' else false
               | [] => false
               end
      end
  end.

(** The do-while of [match]. *)
Fixpoint match_from (re text : list Z) : bool :=
  if matchhere re text then true
  else match text with [] => false | _ :: text' => match_from re text' end.

Definition match_ (re text : list Z) : bool :=
  match re with
  | c :: re' => if c =? CARET then matchhere re' text else match_from re text
  | [] => match_from re text
  end.

(** ** grep *)

(** [strchr(p, '\n')] on the bytes of the buffer from [p] on: the text before the
    newline and what follows it.  A NUL ends the search. *)
Fixpoint split_nl (p : list Z) : option (list Z * list Z) :=
  match p with
  | [] => None
  | c :: p' =>
      if c =? 0 then None
      else if c =? NL then Some ([], p')
      else match split_nl p' with Some (l, q) => Some (c :: l, q) | None => None end
  end.

(** The inner while: what is written to descriptor 1, the rest from [p] on, and
    whether [p] has moved.  Each round drops a newline from the buffer, so the
    buffer's length is enough fuel. *)
Fixpoint grep_scan (fuel : nat) (pattern p : list Z) (moved : bool) : list Z * list Z * bool :=
  match fuel with
  | O => ([], p, moved)
  | S fuel =>
      match split_nl p with
      | None => ([], p, moved)
      | Some (line, q) =>
          let '(out, rest, mv) := grep_scan fuel pattern q true in
          ((if match_ pattern line then line ++ [NL] else []) ++ out, rest, mv)
      end
  end.

Definition BUFSZ : nat := 1024.

(** [reads] is what the calls of [read] deliver, at most [sizeof(buf)-m-1] bytes
    each; an empty list is the end of the file.  [kept] are the [m] bytes at the
    start of the buffer.  [None]: a call delivered more than it was asked for. *)
Fixpoint grep (pattern : list Z) (reads : list (list Z)) (kept : list Z) : option (list Z) :=
  match reads with
  | [] => Some []
  | chunk :: reads' =>
      if bool_decide (chunk = []) then Some []
      else if bool_decide (BUFSZ - length kept - 1 < length chunk)%nat then None
      else
        let data := kept ++ chunk in
        let '(out, rest, moved) := grep_scan (length data) pattern data false in
        out' ← grep pattern reads' (if moved then rest else []);
        Some (out ++ out')
  end.

(** ** What a pattern means *)

Inductive pat := PEnd | PEol | PChar (c : Z) (p : pat) | PStar (c : Z) (p : pat).

Fixpoint parse (re : list Z) : pat :=
  match re with
  | [] => PEnd
  | c :: re1 =>
      match re1 with
      | s :: re2 => if s =? STAR then PStar c (parse re2) else PChar c (parse re1)
      | [] => if c =? DOLLAR then PEol else PChar c (parse re1)
      end
  end.

(** The character [c] of a pattern stands for [x]. *)
Definition stands_for (c x : Z) : Prop := c = DOT \/ c = x.

(** The texts that begin with a match of the pattern. *)
Fixpoint denotes (p : pat) (text : list Z) : Prop :=
  match p with
  | PEnd => True
  | PEol => text = []
  | PChar c p => exists x text', text = x :: text' /\ stands_for c x /\ denotes p text'
  | PStar c p => exists t1 t2, text = t1 ++ t2 /\ Forall (stands_for c) t1 /\ denotes p t2
  end.

Lemma stands_for_b c x : (c =? DOT) || (c =? x) = true <-> stands_for c x.
Proof. unfold stands_for. rewrite orb_true_iff, !Z.eqb_eq. done. Qed.

Lemma matchstar_spec here c text :
  matchstar here c text = true <->
  exists t1 t2, text = t1 ++ t2 /\ Forall (stands_for c) t1 /\ here t2 = true.
Proof.
  induction text as [|x text IH]; cbn; destruct (here _) eqn:Hh.
  - split; [|done]. intros _. by exists [], [].
  - split; [done|]. intros ([|y t1] & t2 & Heq & _ & H); [|done]. cbn in Heq. congruence.
  - split; [|done]. intros _. by exists [], (x :: text).
  - rewrite (orb_comm (x =? c)), (Z.eqb_sym x c). destruct ((c =? DOT) || (c =? x)) eqn:E.
    + apply stands_for_b in E. rewrite IH. split.
      * intros (t1 & t2 & -> & Hf & H). exists (x :: t1), t2. split_and!; [done|by constructor|done].
      * intros ([|y t1] & t2 & Heq & Hf & H); cbn in Heq; [congruence|]. injection Heq as <- ->.
        apply Forall_cons in Hf as [_ Hf]. by exists t1, t2.
    + split; [done|]. intros ([|y t1] & t2 & Heq & Hf & H); cbn in Heq; [congruence|].
      injection Heq as <- ->. apply Forall_cons in Hf as [Hx _]. apply stands_for_b in Hx. congruence.
Qed.

Lemma matchchar_spec c (h : list Z -> bool) text (P : list Z -> Prop) :
  (forall t, h t = true <-> P t) ->
  (match text with x :: text' => if (c =? DOT) || (c =? x) then h text' else false | [] => false end) = true <->
  exists x text', text = x :: text' /\ stands_for c x /\ P text'.
Proof.
  intros Hh. destruct text as [|x text]; [split; [done|by intros (? & ? & ? & _)]|].
  destruct ((c =? DOT) || (c =? x)) eqn:E.
  - apply stands_for_b in E. rewrite Hh. split; [eauto|]. by intros (? & ? & [= <- <-] & _ & ?).
  - split; [done|]. intros (? & ? & [= <- <-] & Hs & _). apply stands_for_b in Hs. congruence.
Qed.

Lemma matchhere_spec_len n : forall re text, (length re <= n)%nat ->
  matchhere re text = true <-> denotes (parse re) text.
Proof.
  induction n as [|n IH]; intros [|c re1] text Hn; cbn in Hn; try done; try lia.
  destruct re1 as [|s re2]; cbn [matchhere parse].
  - destruct (c =? DOLLAR); [cbn; by destruct text|].
    apply (matchchar_spec c (matchhere [])). done.
  - destruct (s =? STAR).
    + rewrite matchstar_spec. cbn [denotes]. assert (Hr : (length re2 <= n)%nat) by (cbn in Hn; lia).
      split; intros (t1 & t2 & ? & ? & ?); exists t1, t2; (split_and!; [done..|by apply (IH re2 t2 Hr)]).
    + apply (matchchar_spec c (matchhere (s :: re2))). intros t. apply (IH (s :: re2) t). cbn in *. lia.
Qed.

Lemma matchhere_spec re text : matchhere re text = true <-> denotes (parse re) text.
Proof. by apply (matchhere_spec_len (length re)). Qed.

Lemma match_from_spec re text :
  match_from re text = true <-> exists t1 t2, text = t1 ++ t2 /\ denotes (parse re) t2.
Proof.
  induction text as [|x text IH]; cbn; destruct (matchhere re _) eqn:Hh.
  - apply matchhere_spec in Hh. split; [|done]. intros _. by exists [], [].
  - split; [done|]. intros ([|] & t2 & Heq & H); [|done]. cbn in Heq. subst t2. apply matchhere_spec in H. congruence.
  - apply matchhere_spec in Hh. split; [|done]. intros _. by exists [], (x :: text).
  - rewrite IH. split.
    + intros (t1 & t2 & -> & H). by exists (x :: t1), t2.
    + intros ([|y t1] & t2 & Heq & H); cbn in Heq.
      * subst t2. apply matchhere_spec in H. congruence.
      * injection Heq as _ ->. by exists t1, t2.
Qed.

(** C39. The matcher decides what the pattern means: [^] anchors it at the start of
    the text, otherwise it may match from anywhere. *)
Theorem match_decides re text :
  match_ re text = true <->
  match re with
  | c :: re' =>
      if c =? CARET then denotes (parse re') text
      else exists t1 t2, text = t1 ++ t2 /\ denotes (parse re) t2
  | [] => True
  end.
Proof.
  unfold match_. destruct re as [|c re'].
  - rewrite match_from_spec. split; [done|]. intros _. by exists [], text.
  - destruct (c =? CARET); [apply matchhere_spec|apply match_from_spec].
Qed.

(** ** The lines that grep prints *)

(** The complete lines of a text, and what follows the last newline. *)
Fixpoint split_lines (d : list Z) : list (list Z) * list Z :=
  match d with
  | [] => ([], [])
  | c :: d' =>
      let '(ls, r) := split_lines d' in
      if c =? NL then ([] :: ls, r)
      else match ls with [] => ([], c :: r) | l :: ls' => ((c :: l) :: ls', r) end
  end.

Definition selected (pattern : list Z) (ls : list (list Z)) : list Z :=
  concat (map (fun l => if match_ pattern l then l ++ [NL] else []) ls).

Lemma split_lines_app d1 : forall d2,
  split_lines (d1 ++ d2) =
    let '(ls1, r1) := split_lines d1 in let '(ls2, r2) := split_lines (r1 ++ d2) in (ls1 ++ ls2, r2).
Proof.
  induction d1 as [|c d1 IH]; intros d2; [cbn; by destruct (split_lines d2)|].
  cbn. rewrite IH. destruct (split_lines d1) as [ls1 r1]. destruct (c =? NL) eqn:Hc.
  - by destruct (split_lines (r1 ++ d2)).
  - destruct ls1 as [|l ls1]; cbn.
    + rewrite Hc. destruct (split_lines (r1 ++ d2)) as [[|] ?]; done.
    + by destruct (split_lines (r1 ++ d2)).
Qed.

Lemma split_nl_lines d : Forall (fun c => c <> 0) d ->
  match split_nl d with
  | None => split_lines d = ([], d)
  | Some (l, q) => split_lines d = (l :: (split_lines q).1, (split_lines q).2) /\
      (length q < length d)%nat /\ Forall (fun c => c <> 0) q
  end.
Proof.
  induction d as [|c d IH]; intros Hd; [done|]. apply Forall_cons in Hd as [Hc Hd]. specialize (IH Hd). cbn.
  destruct (Z.eqb_spec c 0); [done|]. destruct (Z.eqb_spec c NL).
  - split_and!; [by destruct (split_lines d)|lia|done].
  - destruct (split_nl d) as [[l q]|].
    + destruct IH as (-> & Hq & Hn). split_and!; [done|lia|done].
    + by rewrite IH.
Qed.

Lemma grep_scan_spec pattern fuel : forall d mv, (length d <= fuel)%nat -> Forall (fun c => c <> 0) d ->
  grep_scan fuel pattern d mv =
    (selected pattern (split_lines d).1, (split_lines d).2,
     match (split_lines d).1 with [] => mv | _ => true end).
Proof.
  induction fuel as [|f IH]; intros d mv Hf Hd; [destruct d; [done|cbn in Hf; lia]|].
  cbn [grep_scan]. pose proof (split_nl_lines d Hd) as Hs. destruct (split_nl d) as [[l q]|].
  - destruct Hs as (-> & Hq & Hn). rewrite IH by (done || lia). cbn. by destruct (split_lines q).1.
  - by rewrite Hs.
Qed.

(** A file read in chunks in which every line ends within the read it began in
    or in the next: each read delivers a newline, and fits into the buffer behind
    the bytes kept from the one before. *)
Fixpoint good_reads (reads : list (list Z)) (kept : list Z) : Prop :=
  match reads with
  | [] => True
  | chunk :: reads' =>
      NL ∈ chunk /\ Forall (fun c => c <> 0) chunk /\ (length kept + length chunk < BUFSZ)%nat /\
      good_reads reads' (split_lines (kept ++ chunk)).2
  end.

Lemma split_lines_nl d : NL ∈ d -> (split_lines d).1 <> [].
Proof.
  induction d as [|c d IH]; intros Hin; [by apply elem_of_nil in Hin|]. cbn [split_lines].
  destruct (split_lines d) as [ls r]. destruct (Z.eqb_spec c NL); [done|].
  apply elem_of_cons in Hin as [Heq|Hin]; [congruence|]. by destruct ls; [destruct (IH Hin)|].
Qed.

Lemma split_lines_rest d : Forall (fun c => c <> 0) d -> Forall (fun c => c <> 0) (split_lines d).2.
Proof.
  induction d as [|c d IH]; intros Hd; [done|]. apply Forall_cons in Hd as [Hc Hd]. specialize (IH Hd). cbn [split_lines].
  destruct (split_lines d) as [ls r]. destruct (c =? NL); [done|]. destruct ls; [by constructor|done].
Qed.

Lemma selected_app pattern l1 l2 : selected pattern (l1 ++ l2) = selected pattern l1 ++ selected pattern l2.
Proof. unfold selected. by rewrite map_app, concat_app. Qed.

Lemma grep_lines_from pattern reads : forall kept, Forall (fun c => c <> 0) kept -> (split_lines kept).1 = [] ->
  good_reads reads kept -> grep pattern reads kept = Some (selected pattern (split_lines (kept ++ concat reads)).1).
Proof.
  induction reads as [|chunk reads IH]; intros kept Hk Hk0 Hg; cbn [grep concat].
  { rewrite app_nil_r. by rewrite Hk0. }
  destruct Hg as (Hnl & Hc & Hsz & Hg). rewrite bool_decide_eq_false_2 by (intros ->; by apply elem_of_nil in Hnl).
  rewrite bool_decide_eq_false_2 by (unfold BUFSZ in *; lia). cbv zeta.
  assert (Hd : Forall (fun c => c <> 0) (kept ++ chunk)) by by apply Forall_app.
  rewrite grep_scan_spec by (done || lia).
  assert (Hne : (split_lines (kept ++ chunk)).1 <> []) by (apply split_lines_nl; apply elem_of_app; by right).
  rewrite app_assoc, (split_lines_app (kept ++ chunk)).
  destruct (split_lines (kept ++ chunk)) as [ls r] eqn:E. cbn [fst snd] in *.
  destruct ls as [|l ls]; [done|].
  assert (Hr : Forall (fun c => c <> 0) r) by (pose proof (split_lines_rest _ Hd) as H; by rewrite E in H).
  assert (Hr0 : (split_lines r).1 = []).
  { pose proof (split_lines_app (kept ++ chunk) []) as H. rewrite app_nil_r, E in H.
    rewrite app_nil_r in H. destruct (split_lines r) as [ls2 r2]. apply (f_equal (fun x => length x.1)) in H.
    cbn in H. rewrite length_app in H. destruct ls2; [done|cbn in H; lia]. }
  rewrite IH by done. destruct (split_lines (r ++ concat reads)) as [ls2 r2]. cbn [fst].
  by rewrite selected_app.
Qed.

(** grep prints exactly the lines of the file that match, in order, when the
    file is read in chunks none of which lies inside one line. *)
Theorem grep_prints_matching_lines pattern reads :
  good_reads reads [] ->
  grep pattern reads [] = Some (selected pattern (split_lines (concat reads)).1).
Proof. intros Hg. by apply (grep_lines_from pattern reads []). Qed.

(** A read that delivers no newline is forgotten: the beginning of the line that
    it ends in is lost, and the line is matched and printed without it. *)
Theorem grep_forgets_partial_line pattern part reads :
  NL ∉ part -> part <> [] -> (length part < BUFSZ)%nat -> Forall (fun c => c <> 0) part ->
  grep pattern (part :: reads) [] = grep pattern reads [].
Proof.
  intros Hnl Hne Hlen Hz. cbn [grep]. rewrite !bool_decide_eq_false_2 by (done || (unfold BUFSZ in *; cbn; lia)).
  cbn [app]. cbv zeta. rewrite grep_scan_spec by done.
  assert (split_lines part = ([], part)) as ->.
  { clear Hne Hlen Hz. induction part as [|c part IH]; [done|]. cbn.
    rewrite not_elem_of_cons in Hnl. destruct Hnl as [Hc Hnl]. rewrite (IH Hnl).
    destruct (Z.eqb_spec c NL); [by subst|done]. }
  cbn. by destruct (grep pattern reads []).
Qed.

(** Lines "ab", "b" and "a", read in two chunks, with the pattern "^a". *)
Lemma grep_prints_matching_lines_witness :
  good_reads [[97; 98; 10; 98]; [10; 97; 10]] [] /\
  grep [94; 97] [[97; 98; 10; 98]; [10; 97; 10]] [] = Some [97; 98; 10; 97; 10].
Proof.
  assert (Hg : good_reads [[97; 98; 10; 98]; [10; 97; 10]] []).
  { repeat split; try (repeat constructor; done); try (unfold BUFSZ; cbn; lia);
      unfold NL; repeat (apply elem_of_cons; right || (left; reflexivity)); set_solver. }
  split; [exact Hg|]. exact (grep_prints_matching_lines [94; 97] _ Hg).
Defined.

(** "ab\n", read as "a" and "b\n", with the pattern "a". *)
Lemma grep_forgets_partial_line_witness :
  grep [97] [[97]; [98; 10]] [] = Some [] /\ grep [97] [[97; 98; 10]] [] = Some [97; 98; 10].
Proof.
  split; [|reflexivity]. rewrite (grep_forgets_partial_line [97] [97] [[98; 10]]);
    [reflexivity|set_solver|done|unfold BUFSZ; cbn; lia|repeat constructor; done].
Defined.
