(* ===== verification/Printf.v ===== *)
(** * Printf: formatted output, printf.c and console.c

    [printf] of the user library and [cprintf] of the kernel, as the sequence of
    characters they hand to [putc] and to [consputc].  A format is a string
    without its terminator; the variable arguments are a list of machine words,
    and a [%s] reads the memory.  [None] is undefined behaviour: an argument that
    was not passed, a string outside the memory, an index outside [buf[16]] or
    [digits]. *)

From S2P Require Import Prelude Mem CString.

Definition MINUS : Z := 45.
Definition PERCENT : Z := 37.

Definition upper_digits : list Z := [48; 49; 50; 51; 52; 53; 54; 55; 56; 57; 65; 66; 67; 68; 69; 70].
Definition lower_digits : list Z := [48; 49; 50; 51; 52; 53; 54; 55; 56; 57; 97; 98; 99; 100; 101; 102].

(** [do{ buf[i++] = digits[x % base]; }while((x /= base) != 0);], with a round
    for each bit of [x] as fuel. *)
Fixpoint put_digits (fuel : nat) (digits : list Z) (x base : Z) (buf : list Z) : option (list Z) :=
  match fuel with
  | O => None
  | S fuel =>
      c ← aget digits (x mod base);
      if bool_decide (length buf < 16)%nat then
        let buf := buf ++ [c] in
        let x := x / base in
        if negb (x =? 0) then put_digits fuel digits x base buf else Some buf
      else None
  end.

(** The sign goes to the end of the buffer, which is printed backwards. *)
Definition put_sign (neg : bool) (buf : list Z) : option (list Z) :=
  if neg then if bool_decide (length buf < 16)%nat then Some (buf ++ [MINUS]) else None
  else Some buf.

Definition printint_with (digits : list Z) (xx base : Z) (sgn : bool) : option (list Z) :=
  let neg := sgn && (xx <? 0) in
  let x := if neg then u32 (- xx) else u32 xx in
  buf ← put_digits 32 digits x base [];
  buf ← put_sign neg buf;
  Some (rev buf).

(** printf.c and console.c *)
Definition printint (xx base : Z) (sgn : bool) : option (list Z) := printint_with upper_digits xx base sgn.
Definition kprintint (xx base : Z) (sign : bool) : option (list Z) := printint_with lower_digits xx base sign.

(** [while( *s != 0) putc( *s++ )] *)
Fixpoint str_at (fuel : nat) (m : mem) (s : Z) : option (list Z) :=
  match fuel with
  | O => None
  | S fuel => c ← m !! s; if c =? 0 then Some [] else l ← str_at fuel m (s + 1); Some (c :: l)
  end.

Definition str_null : list Z := [40; 110; 117; 108; 108; 41].   (* "(null)" *)

Definition put_str (m : mem) (s : Z) : option (list Z) :=
  if s =? 0 then Some str_null else str_at (S (size m)) m s.

(** The letters of the directives. *)
Definition ch_d : Z := 100.
Definition ch_x : Z := 120.
Definition ch_p : Z := 112.
Definition ch_s : Z := 115.
Definition ch_c : Z := 99.

(** [printf]: [pct] says that the last character was a [%]. *)
Fixpoint printf_loop (digits : list Z) (m : mem) (fmt : list Z) (pct : bool) (args : list Z) : option (list Z) :=
  match fmt with
  | [] => Some []
  | c :: fmt =>
      let next out args := l ← printf_loop digits m fmt false args; Some (out ++ l) in
      if negb pct then
        if c =? PERCENT then printf_loop digits m fmt true args else next [c] args
      else if c =? ch_d then
        a ← head args; out ← printint_with digits (s32 a) 10 true; next out (tail args)
      else if (c =? ch_x) || (c =? ch_p) then
        a ← head args; out ← printint_with digits (s32 a) 16 false; next out (tail args)
      else if c =? ch_s then
        a ← head args; out ← put_str m a; next out (tail args)
      else if c =? ch_c then
        a ← head args; next [u8 a] (tail args)
      else if c =? PERCENT then next [c] args
      else next [PERCENT; c] args
  end.
Definition printf (m : mem) (fmt args : list Z) : option (list Z) := printf_loop upper_digits m fmt false args.

(** [cprintf]: the character after a [%] is taken at once. *)
Fixpoint cprintf_loop (digits : list Z) (m : mem) (fmt args : list Z) : option (list Z) :=
  match fmt with
  | [] => Some []
  | c :: fmt =>
      if negb (c =? PERCENT) then l ← cprintf_loop digits m fmt args; Some (c :: l)
      else
        match fmt with
        | [] => Some []
        | c :: fmt =>
            let next out args := l ← cprintf_loop digits m fmt args; Some (out ++ l) in
            if c =? ch_d then
              a ← head args; out ← printint_with digits (s32 a) 10 true; next out (tail args)
            else if (c =? ch_x) || (c =? ch_p) then
              a ← head args; out ← printint_with digits (s32 a) 16 false; next out (tail args)
            else if c =? ch_s then
              a ← head args; out ← put_str m a; next out (tail args)
            else if c =? PERCENT then next [PERCENT] args
            else next [PERCENT; c] args
        end
  end.
Definition cprintf (m : mem) (fmt args : list Z) : option (list Z) := cprintf_loop lower_digits m fmt args.

(** ** Numbers *)

(** The value of the digits [ds], the most significant first. *)
Definition num_value (base : Z) (ds : list Z) : Z := fold_left (fun n d => n * base + d) ds 0.

Lemma num_value_snoc base ds d : num_value base (ds ++ [d]) = num_value base ds * base + d.
Proof. unfold num_value. by rewrite fold_left_app. Qed.

(** The digits come out with the least significant first; [k] of them are
    enough for a number below [base^k]. *)
Lemma put_digits_ok digits base k : 1 < base -> base <= Z.of_nat (length digits) ->
  forall fuel x buf, (0 < k <= fuel)%nat -> 0 <= x < base ^ Z.of_nat k -> (length buf + k <= 16)%nat ->
  exists ds cs, put_digits fuel digits x base buf = Some (buf ++ rev cs) /\
    Forall2 (fun d c => 0 <= d < base /\ aget digits d = Some c) ds cs /\
    num_value base ds = x /\ (0 < length ds <= k)%nat /\ (x <> 0 -> head ds <> Some 0) /\ (x = 0 -> ds = [0]).
Proof.
  intros Hb Hlen. induction k as [|k IH]; intros fuel x buf Hk Hx Hbuf; [lia|].
  destruct fuel as [|fuel]; [lia|]. cbn [put_digits].
  assert (Hmod : 0 <= x mod base < base) by (apply Z.mod_pos_bound; lia).
  destruct (aget_is_Some digits (x mod base)) as [c Hc]; [lia|]. rewrite Hc. cbn [mbind option_bind].
  rewrite bool_decide_eq_true_2 by lia. cbv zeta. destruct (Z.eqb_spec (x / base) 0) as [H0|H0]; cbn [negb].
  - exists [x mod base], [c]. split_and!; try done; cbn; try lia.
    + constructor; [done|constructor].
    + unfold num_value. cbn. pose proof (Z.div_mod x base ltac:(lia)). lia.
    + intros Hx0 [= Hm]. pose proof (Z.div_mod x base ltac:(lia)). lia.
    + intros ->. by rewrite Z.mod_0_l by lia.
  - assert (Hlt : 0 <= x / base < base ^ Z.of_nat k).
    { split; [apply Z.div_pos; lia|]. apply Z.div_lt_upper_bound; [lia|].
      rewrite <- Z.pow_succ_r, <- Nat2Z.inj_succ by lia. apply Hx. }
    assert (Hk0 : (0 < k)%nat) by (destruct k; [cbn in Hlt; lia|lia]).
    destruct (IH fuel (x / base) (buf ++ [c])) as (ds & cs & Hrun & HF & Hv & Hl & Hhd & _); [lia|done|rewrite length_app; cbn; lia|].
    exists (ds ++ [x mod base]), (cs ++ [c]). rewrite Hrun, rev_app_distr, <- app_assoc. split_and!; try done.
    + apply Forall2_app; [done|]. constructor; [done|constructor].
    + rewrite num_value_snoc, Hv. pose proof (Z.div_mod x base ltac:(lia)). lia.
    + rewrite length_app. cbn. lia.
    + rewrite length_app. cbn. lia.
    + intros _. specialize (Hhd H0). by destruct ds.
    + intros ->. by rewrite Z.div_0_l in H0 by lia.
Qed.

(** Reading a number back: the inverse tables and an optional minus. *)
Definition digit_of (c : Z) : Z :=
  if (48 <=? c) && (c <=? 57) then c - 48
  else if (65 <=? c) && (c <=? 70) then c - 55
  else c - 87.
Definition read_num (base : Z) (s : list Z) : Z :=
  match s with
  | c :: s' => if c =? MINUS then - num_value base (map digit_of s') else num_value base (map digit_of s)
  | [] => 0
  end.

(** Both tables are inverted by [digit_of]. *)
Definition good_table (digits : list Z) : Prop :=
  length digits = 16%nat /\ forall d c, aget digits d = Some c -> digit_of c = d /\ c <> MINUS.

Lemma good_table_check digits :
  length digits = 16%nat ->
  Forall (fun '(d, c) => digit_of c = d /\ c <> MINUS) (imap (fun i c => (Z.of_nat i, c)) digits) ->
  good_table digits.
Proof.
  intros Hl H. split; [done|]. intros d c Hc. pose proof (aget_Some_range _ _ _ Hc).
  rewrite <- (Z2Nat.id d), aget_nat in Hc by lia. rewrite Forall_lookup in H.
  specialize (H (Z.to_nat d) (Z.of_nat (Z.to_nat d), c)). rewrite list_lookup_imap, Hc, Z2Nat.id in H by lia. by apply H.
Qed.

Lemma upper_good : good_table upper_digits.
Proof. apply good_table_check; [done|]. vm_compute. repeat constructor; discriminate. Qed.
Lemma lower_good : good_table lower_digits.
Proof. apply good_table_check; [done|]. vm_compute. repeat constructor; discriminate. Qed.

Lemma digits_back digits ds cs base : good_table digits ->
  Forall2 (fun d c => 0 <= d < base /\ aget digits d = Some c) ds cs ->
  map digit_of cs = ds /\ Forall (fun c => c <> MINUS) cs.
Proof.
  intros [_ Hg]. induction 1 as [|d c ds cs [_ Hc] _ [IH1 IH2]]; [done|]. destruct (Hg _ _ Hc) as [Hd Hm].
  cbn. rewrite Hd, IH1. split; [done|by constructor].
Qed.

(** Printing a number, for a base with at most [k] digits. *)
Lemma printint_with_ok digits xx base sgn k :
  good_table digits -> 1 < base <= 16 -> 2 ^ 32 <= base ^ Z.of_nat k -> (k <= 15)%nat ->
  is_s32 xx ->
  exists out, printint_with digits xx base sgn = Some out /\ (length out <= k + 1)%nat /\
    read_num base out = (if sgn then xx else u32 xx).
Proof.
  intros Hg Hb Hk Hk15 Hxx. unfold printint_with. set (neg := sgn && (xx <? 0)).
  set (x := if neg then u32 (- xx) else u32 xx).
  assert (Hx : is_u32 x) by (unfold x; destruct neg; apply u32_range). unfold is_u32 in Hx.
  assert (Hk0 : (0 < k)%nat) by (destruct k; [cbn in Hk; lia|lia]).
  destruct (put_digits_ok digits base k ltac:(lia) ltac:(destruct Hg; lia) 32 x [] ltac:(lia) ltac:(lia) ltac:(cbn; lia))
    as (ds & cs & -> & HF & Hv & Hl & _). cbn [app mbind option_bind].
  destruct (digits_back _ _ _ _ Hg HF) as [Hds Hm]. pose proof (Forall2_length _ _ _ HF) as Hlen.
  unfold put_sign. destruct neg eqn:Hneg.
  - apply andb_true_iff in Hneg as [-> Hlt]. rewrite bool_decide_eq_true_2 by (rewrite length_rev; lia).
    cbn [mbind option_bind]. rewrite rev_app_distr, rev_involutive. cbn [rev app]. eexists. split_and!; [done|cbn; lia|].
    cbn [read_num]. rewrite Z.eqb_refl, Hds, Hv. unfold x. unfold is_s32 in Hxx. rewrite u32_small; lia.
  - cbn [mbind option_bind]. rewrite rev_involutive. eexists. split_and!; [done|lia|].
    destruct cs as [|c cs]; [cbn in Hlen; lia|]. cbn [read_num]. apply Forall_cons in Hm as [Hc _].
    destruct (Z.eqb_spec c MINUS); [done|]. rewrite Hds, Hv. unfold x. destruct sgn; [|done].
    cbn in Hneg. unfold is_s32 in Hxx. rewrite u32_small; lia.
Qed.

(** C38. Printed numbers read back: [printint] of the user library and of the kernel
    never overrun their buffer of 16, and the characters they print denote the
    number, in decimal with its sign, in hexadecimal as an unsigned word. *)
Theorem printint_roundtrip xx :
  is_s32 xx ->
  (exists out, printint xx 10 true = Some out /\ read_num 10 out = xx /\ (length out <= 11)%nat) /\
  (exists out, printint xx 16 false = Some out /\ read_num 16 out = u32 xx /\ (length out <= 9)%nat) /\
  (exists out, kprintint xx 10 true = Some out /\ read_num 10 out = xx /\ (length out <= 11)%nat) /\
  (exists out, kprintint xx 16 false = Some out /\ read_num 16 out = u32 xx /\ (length out <= 9)%nat).
Proof.
  intros Hx. split_and!.
  - destruct (printint_with_ok upper_digits xx 10 true 10) as (out & ? & ? & ?); eauto using upper_good; cbn; lia.
  - destruct (printint_with_ok upper_digits xx 16 false 8) as (out & ? & ? & ?); eauto using upper_good; cbn; lia.
  - destruct (printint_with_ok lower_digits xx 10 true 10) as (out & ? & ? & ?); eauto using lower_good; cbn; lia.
  - destruct (printint_with_ok lower_digits xx 16 false 8) as (out & ? & ? & ?); eauto using lower_good; cbn; lia.
Qed.

(** ** printf and cprintf *)

(** The format has no [%c], which only [printf] knows. *)
Fixpoint no_pct_c (fmt : list Z) (pct : bool) : bool :=
  match fmt with
  | [] => true
  | c :: fmt => if pct then negb (c =? ch_c) && no_pct_c fmt false else no_pct_c fmt (c =? PERCENT)
  end.

(** The two formatters agree: with the same table of digits, [printf] and
    [cprintf] print the same characters for every format without [%c]. *)
Theorem printf_agrees_with_cprintf digits m fmt args :
  no_pct_c fmt false = true -> printf_loop digits m fmt false args = cprintf_loop digits m fmt args.
Proof.
  remember (length fmt) as n eqn:Hn. assert (Hle : (length fmt <= n)%nat) by lia. clear Hn.
  revert fmt args Hle. induction n as [|n IH]; intros [|c fmt] args Hle Hc; cbn in Hle; try done; try lia.
  cbn [printf_loop cprintf_loop no_pct_c] in *. cbv zeta. cbn [negb].
  destruct (Z.eqb_spec c PERCENT) as [->|Hne]; cbn [negb].
  - destruct fmt as [|c fmt]; [done|]. cbn [printf_loop no_pct_c negb] in *. cbv zeta.
    apply andb_true_iff in Hc as [Hcc Hc]. cbn in Hle.
    assert (IH' : forall args, printf_loop digits m fmt false args = cprintf_loop digits m fmt args).
    { intros. apply IH; [lia|done]. }
    destruct (head args) as [a|]; cbn [mbind option_bind].
    + destruct (c =? ch_d); [destruct (printint_with _ _ _ _); [cbn [mbind option_bind]; by rewrite IH'|done]|].
      destruct ((c =? ch_x) || (c =? ch_p));
        [destruct (printint_with _ _ _ _); [cbn [mbind option_bind]; by rewrite IH'|done]|].
      destruct (c =? ch_s); [destruct (put_str m a); [cbn [mbind option_bind]; by rewrite IH'|done]|].
      destruct (c =? ch_c); [done|]. destruct (Z.eqb_spec c PERCENT) as [->|]; by rewrite IH'.
    + destruct (c =? ch_d); [done|]. destruct ((c =? ch_x) || (c =? ch_p)); [done|].
      destruct (c =? ch_s); [done|].
      destruct (c =? ch_c); [done|]. destruct (Z.eqb_spec c PERCENT) as [->|]; by rewrite IH'.
  - rewrite IH; [done|lia|]. destruct (Z.eqb_spec c PERCENT); [done|exact Hc].
Qed.

Lemma printint_roundtrip_witness : exists out, printint (-2147483648) 10 true = Some out /\ read_num 10 out = -2147483648.
Proof.
  destruct (printint_roundtrip (-2147483648)) as [(out & H1 & H2 & _) _]; [split; vm_compute; done|].
  exists out. by split.
Defined.

(** "x=%x%" *)
Lemma printf_agrees_with_cprintf_witness :
  printf_loop lower_digits ∅ [120; 61; 37; 120; 37] false [255] = Some [120; 61; 102; 102].
Proof. rewrite (printf_agrees_with_cprintf lower_digits ∅ [120; 61; 37; 120; 37] [255]); by vm_compute. Defined.
