(* ===== verification/Kbd.v ===== *)
(** * Kbd: the keyboard driver, kbd.c and kbd.h

    [kbdgetc] turns the scan code that the controller has, if any, into a
    character, with the modifier keys in the static variable [shift]: the state
    of the model.  The two port reads are arguments. *)

From S2P Require Import Prelude.

Definition KBS_DIB : Z := 1.
Definition NO : Z := 0.
Definition SHIFT : Z := Z.shiftl 1 0.
Definition CTL : Z := Z.shiftl 1 1.
Definition ALT : Z := Z.shiftl 1 2.
Definition CAPSLOCK : Z := Z.shiftl 1 3.
Definition NUMLOCK : Z := Z.shiftl 1 4.
Definition SCROLLLOCK : Z := Z.shiftl 1 5.
Definition E0ESC : Z := Z.shiftl 1 6.

Definition KEY_HOME : Z := 0xE0.
Definition KEY_END : Z := 0xE1.
Definition KEY_UP : Z := 0xE2.
Definition KEY_DN : Z := 0xE3.
Definition KEY_LF : Z := 0xE4.
Definition KEY_RT : Z := 0xE5.
Definition KEY_PGUP : Z := 0xE6.
Definition KEY_PGDN : Z := 0xE7.
Definition KEY_INS : Z := 0xE8.
Definition KEY_DEL : Z := 0xE9.

(** [C('A')], stored into a [uchar]. *)
Definition C (x : Z) : Z := u8 (x - 64).

(** [uchar t[256] = { l..., [i] v, ... };] *)
Definition table256 (l : list Z) (designated : list (Z * Z)) : list Z :=
  foldl (fun t '(i, v) => aset t i v) (l ++ replicate (256 - length l) 0) designated.

Definition shiftcode : list Z :=
  table256 [] [(0x1D, CTL); (0x2A, SHIFT); (0x36, SHIFT); (0x38, ALT); (0x9D, CTL); (0xB8, ALT)].

Definition togglecode : list Z :=
  table256 [] [(0x3A, CAPSLOCK); (0x45, NUMLOCK); (0x46, SCROLLLOCK)].

(** The cursor keys, the same in the three maps. *)
Definition cursor_keys : list (Z * Z) :=
  [(0xC8, KEY_UP); (0xD0, KEY_DN); (0xC9, KEY_PGUP); (0xD1, KEY_PGDN); (0xCB, KEY_LF); (0xCD, KEY_RT);
   (0x97, KEY_HOME); (0xCF, KEY_END); (0xD2, KEY_INS); (0xD3, KEY_DEL)].

Definition normalmap : list Z :=
  table256
   [NO;  0x1B; 49;  50;  51;  52;  53;  54;      (* 0x00 *)
    55;  56;   57;  48;  45;  61;  8;   9;
    113; 119;  101; 114; 116; 121; 117; 105;     (* 0x10 *)
    111; 112;  91;  93;  10;  NO;  97;  115;
    100; 102;  103; 104; 106; 107; 108; 59;      (* 0x20 *)
    39;  96;   NO;  92;  122; 120; 99;  118;
    98;  110;  109; 44;  46;  47;  NO;  42;      (* 0x30 *)
    NO;  32;   NO;  NO;  NO;  NO;  NO;  NO;
    NO;  NO;   NO;  NO;  NO;  NO;  NO;  55;      (* 0x40 *)
    56;  57;   45;  52;  53;  54;  43;  49;
    50;  51;   48;  46;  NO;  NO;  NO;  NO]      (* 0x50 *)
   ([(0x9C, 10); (0xB5, 47)] ++ cursor_keys).

Definition shiftmap : list Z :=
  table256
   [NO;  27;   33;  64;  35;  36;  37;  94;      (* 0x00 *)
    38;  42;   40;  41;  95;  43;  8;   9;
    81;  87;   69;  82;  84;  89;  85;  73;      (* 0x10 *)
    79;  80;   123; 125; 10;  NO;  65;  83;
    68;  70;   71;  72;  74;  75;  76;  58;      (* 0x20 *)
    34;  126;  NO;  124; 90;  88;  67;  86;
    66;  78;   77;  60;  62;  63;  NO;  42;      (* 0x30 *)
    NO;  32;   NO;  NO;  NO;  NO;  NO;  NO;
    NO;  NO;   NO;  NO;  NO;  NO;  NO;  55;      (* 0x40 *)
    56;  57;   45;  52;  53;  54;  43;  49;
    50;  51;   48;  46;  NO;  NO;  NO;  NO]      (* 0x50 *)
   ([(0x9C, 10); (0xB5, 47)] ++ cursor_keys).

Definition ctlmap : list Z :=
  table256
   [NO;   NO;   NO;   NO;   NO;   NO;   NO;   NO;
    NO;   NO;   NO;   NO;   NO;   NO;   NO;   NO;
    C 81; C 87; C 69; C 82; C 84; C 89; C 85; C 73;
    C 79; C 80; NO;   NO;   13;   NO;   C 65; C 83;
    C 68; C 70; C 71; C 72; C 74; C 75; C 76; NO;
    NO;   NO;   NO;   C 92; C 90; C 88; C 67; C 86;
    C 66; C 78; C 77; NO;   NO;   C 47; NO;   NO]
   ([(0x9C, 13); (0xB5, C 47)] ++ cursor_keys).

Definition charcode : list (list Z) := [normalmap; shiftmap; ctlmap; ctlmap].

(** Capitals and small letters, swapped by CapsLock. *)
Definition swap_case (c : Z) : Z :=
  if (97 <=? c) && (c <=? 122) then u32 (c + (65 - 97))
  else if (65 <=? c) && (c <=? 90) then u32 (c + (97 - 65))
  else c.

(** [st] and [data] are what [inb(KBSTATP)] and [inb(KBDATAP)] deliver. *)
Definition kbdgetc (st data : Z) : M Z Z :=
  if Z.land st KBS_DIB =? 0 then mret (-1)
  else if data =? 0xE0 then modify (fun shift => Z.lor shift E0ESC);; mret 0
  else if negb (Z.land data 0x80 =? 0) then
    (* Key released *)
    shift ← gets (fun s => s);
    let data := if negb (Z.land shift E0ESC =? 0) then data else Z.land data 0x7F in
    code ← deref (aget shiftcode data);
    modify (fun shift => Z.land shift (Z.lnot (Z.lor code E0ESC)));;
    mret 0
  else
    shift ← gets (fun s => s);
    data ← (if negb (Z.land shift E0ESC =? 0) then
              modify (fun shift => Z.land shift (Z.lnot E0ESC));; mret (Z.lor data 0x80)
            else mret data);
    code ← deref (aget shiftcode data);
    toggle ← deref (aget togglecode data);
    modify (fun shift => Z.lxor (Z.lor shift code) toggle);;
    shift ← gets (fun s => s);
    row ← deref (aget charcode (Z.land shift (Z.lor CTL SHIFT)));
    c ← deref (aget row data);
    mret (if negb (Z.land shift CAPSLOCK =? 0) then swap_case c else c).

(** ** Properties, by exhaustion over the 128 states and the 256 codes *)

Lemma forall_range (P : Z -> bool) n : forallb P (seqZ 0 n) = true -> forall x, 0 <= x < n -> P x = true.
Proof. rewrite forallb_forall. intros H x Hx. apply H, list_elem_of_In, elem_of_seqZ. lia. Qed.

Definition kbd_ok (s data : Z) : bool :=
  match kbdgetc 1 data s with
  | Ret c s' => (0 <=? c) && (c <? 256) && (0 <=? s') && (s' <? 128)
  | _ => false
  end.

Lemma kbd_ok_all : forallb (fun s => forallb (kbd_ok s) (seqZ 0 256)) (seqZ 0 128) = true.
Proof. vm_compute. reflexivity. Qed.

(** The keyboard driver is total: in every state of the modifiers and for every
    scan code no table is read out of bounds, the result is a character or -1
    when there is none, and the modifiers stay within their seven bits. *)
Theorem kbdgetc_in_range st data s :
  0 <= data < 256 -> 0 <= s < 128 ->
  exists c s', kbdgetc st data s = Ret c s' /\ -1 <= c < 256 /\ 0 <= s' < 128.
Proof.
  intros Hd Hs. destruct (Z.land st KBS_DIB =? 0) eqn:Hst.
  - exists (-1), s. unfold kbdgetc. rewrite Hst. split; [done|lia].
  - assert (Heq : kbdgetc st data s = kbdgetc 1 data s) by (unfold kbdgetc; by rewrite Hst).
    pose proof (forall_range _ _ (forall_range _ _ kbd_ok_all s Hs) data Hd) as H.
    unfold kbd_ok in H. rewrite Heq. destruct (kbdgetc 1 data s) as [c s'| | |]; try done.
    rewrite !andb_true_iff in H. exists c, s'. split; [done|lia].
Qed.

(** The keys of the letters, with the scan codes of an AT keyboard. *)
Definition letters : list (Z * Z) :=
  zip [0x1E; 0x30; 0x2E; 0x20; 0x12; 0x21; 0x22; 0x23; 0x17; 0x24; 0x25; 0x26; 0x32;
       0x31; 0x18; 0x19; 0x10; 0x13; 0x1F; 0x14; 0x16; 0x2F; 0x11; 0x2D; 0x15; 0x2C] (seqZ 97 26).

Definition bit_set (s b : Z) : bool := negb (Z.land s b =? 0).

(** The character of a letter key with modifiers [s]. *)
Definition typed (s ch : Z) : Z :=
  if bit_set s CTL then ch - 96
  else if xorb (bit_set s SHIFT) (bit_set s CAPSLOCK) then ch - 32
  else ch.

Definition letter_ok (s : Z) (e : Z * Z) : bool :=
  bit_set s E0ESC ||
  match kbdgetc 1 e.1 s with Ret c s' => (c =? typed s e.2) && (s' =? s) | _ => false end.

Lemma letter_ok_all : forallb (fun s => forallb (letter_ok s) letters) (seqZ 0 128) = true.
Proof. vm_compute. reflexivity. Qed.

(** A letter key types its letter: the control character when CTL is down,
    otherwise the capital exactly when one of SHIFT and CapsLock is on. *)
Theorem kbd_types_letters key ch s :
  (key, ch) ∈ letters -> 0 <= s < 128 -> bit_set s E0ESC = false ->
  kbdgetc 1 key s = Ret (typed s ch) s.
Proof.
  intros Hin Hs He. pose proof (forall_range _ _ letter_ok_all s Hs) as H. rewrite forallb_forall in H.
  specialize (H (key, ch) ltac:(by apply list_elem_of_In)). unfold letter_ok in H. rewrite He in H. cbn [orb fst snd] in H.
  destruct (kbdgetc 1 key s) as [c s'| | |]; try done. apply andb_true_iff in H as [H1%Z.eqb_eq H2%Z.eqb_eq].
  by subst.
Qed.

(** A modifier key: the bit it sets, and the codes of pressing and of releasing
    it.  The right-hand CTL and ALT keys send the prefix E0. *)
Definition modifiers : list (Z * list Z * list Z) :=
  [(CTL, [0x1D], [0x9D]); (SHIFT, [0x2A], [0xAA]); (SHIFT, [0x36], [0xB6]); (ALT, [0x38], [0xB8]);
   (CTL, [0xE0; 0x1D], [0xE0; 0x9D]); (ALT, [0xE0; 0x38], [0xE0; 0xB8])].

Definition scan (codes : list Z) : M Z unit := for_each codes (fun d => kbdgetc 1 d;; mret tt).

Definition modifier_ok (s : Z) (e : Z * list Z * list Z) : bool :=
  let '(bit, down, up) := e in
  bit_set s E0ESC ||
  match scan down s with
  | Ret _ s1 => (s1 =? Z.lor s bit) &&
      match scan up s1 with Ret _ s2 => s2 =? Z.land s (Z.lnot bit) | _ => false end
  | _ => false
  end.

Lemma modifier_ok_all : forallb (fun s => forallb (modifier_ok s) modifiers) (seqZ 0 128) = true.
Proof. vm_compute. reflexivity. Qed.

(** Pressing a modifier key sets its bit and no other, releasing it clears it. *)
Theorem kbd_modifiers bit down up s :
  (bit, down, up) ∈ modifiers -> 0 <= s < 128 -> bit_set s E0ESC = false ->
  scan down s = Ret tt (Z.lor s bit) /\ scan up (Z.lor s bit) = Ret tt (Z.land s (Z.lnot bit)).
Proof.
  intros Hin Hs He. pose proof (forall_range _ _ modifier_ok_all s Hs) as H. rewrite forallb_forall in H.
  specialize (H (bit, down, up) ltac:(by apply list_elem_of_In)). unfold modifier_ok in H. rewrite He in H. cbn [orb] in H.
  destruct (scan down s) as [[] s1| | |]; try done. apply andb_true_iff in H as [->%Z.eqb_eq H].
  destruct (scan up _) as [[] s2| | |]; try done. apply Z.eqb_eq in H as ->. done.
Qed.

Lemma kbdgetc_in_range_witness : exists c s', kbdgetc 1 0xB8 100 = Ret c s' /\ -1 <= c < 256 /\ 0 <= s' < 128.
Proof. apply (kbdgetc_in_range 1 0xB8 100); lia. Defined.

Lemma kbd_types_letters_witness : kbdgetc 1 0x10 (Z.lor SHIFT CAPSLOCK) = Ret 113 (Z.lor SHIFT CAPSLOCK).
Proof.
  apply (kbd_types_letters 0x10 113); [|by vm_compute|by vm_compute].
  apply list_elem_of_lookup. exists 16%nat. reflexivity.
Defined.

Lemma kbd_modifiers_witness : scan [0xE0; 0x1D] CAPSLOCK = Ret tt (Z.lor CAPSLOCK CTL).
Proof.
  apply (kbd_modifiers CTL [0xE0; 0x1D] [0xE0; 0x9D] CAPSLOCK); [|by vm_compute|by vm_compute].
  apply list_elem_of_lookup. exists 4%nat. reflexivity.
Defined.
