(* ===== verification/Console.v ===== *)
(** * Console: console.c and the output side of uart.c

    The input buffer with its line editing, [consoleread] and [consolewrite], and
    the output to the CGA screen and the serial port.  The operations are the
    critical sections of cons.lock: they run with the lock held from beginning to
    end, so no interleaving is lost (lock: Spinlock.v).  [wakeup] and [procdump]
    belong to the process table; here they are entries of the trace [calls].  The
    UART's busy wait is not modelled. *)

From S2P Require Import Prelude Mem Printf Ring.

Definition INPUT_BUF : Z := 128.
Definition BACKSPACE : Z := 0x100.
Definition ctrl (x : Z) : Z := x - 64.
Definition NEWLINE : Z := 10.

Inductive call := CallWakeup | CallProcdump.

Record console := Console_ {
  ibuf : list Z; ir : Z; iw : Z; ie : Z;      (* input *)
  crt : list Z; crtpos : Z;                   (* CGA memory and the cursor register *)
  uart : bool; serial : list Z;               (* is there a UART; what has been sent to it *)
  panicked : bool; locking : bool;
  calls : list call
}.

#[export] Instance eta_console : Eta console := fun r =>
  Console_ (ibuf r) (ir r) (iw r) (ie r) (crt r) (crtpos r) (uart r) (serial r) (panicked r) (locking r) (calls r).

(** ** Output *)

Definition uartputc (c : Z) : M console unit :=
  modify (fun s => if uart s then s <| serial ::= fun l => l ++ [u8 c] |> else s).

(** [uartgetc]: [st] is the line status register, [data] the receive buffer. *)
Definition uartgetc (st data : Z) : M console Z :=
  present ← gets uart;
  mret (if negb present then -1 else if Z.land st 0x01 =? 0 then -1 else data).

Definition set_cell (pos v : Z) : M console unit :=
  l ← gets crt; _ ← deref (aget l pos); modify (fun s => s <| crt := aset l pos v |>).

(** [memmove(crt, crt+80, sizeof(crt[0])*23*80)] and
    [memset(crt+pos, 0, sizeof(crt[0])*(24*80 - pos))] *)
Definition scroll_rows (l : list Z) : list Z := take (23 * 80) (drop 80 l) ++ drop (23 * 80) l.
Definition blank_from (l : list Z) (pos : nat) : list Z :=
  take pos l ++ replicate (24 * 80 - pos) 0 ++ drop (24 * 80) l.

(** The second half of [cgaputc]: scroll if need be, and move the cursor. *)
Definition cga_place (pos : Z) : M console unit :=
  if (pos <? 0) || (pos >? 25 * 80) then panic "pos under/overflow"
  else
    pos ← (if Z.quot pos 80 >=? 24 then
             l ← gets crt;
             let pos := pos - 80 in
             (* a count below 0 would be a huge unsigned length *)
             if (Z.of_nat (length l) <? 24 * 80) || (24 * 80 <? pos) then undef
             else modify (fun s => s <| crt := blank_from (scroll_rows l) (Z.to_nat pos) |>);; mret pos
           else mret pos);
    modify (fun s => s <| crtpos := u16 pos |>);;
    set_cell pos (Z.lor 32 0x0700).

Definition cgaputc (c : Z) : M console unit :=
  pos ← gets crtpos;
  pos ← (if c =? NEWLINE then mret (pos + (80 - Z.rem pos 80))
         else if c =? BACKSPACE then mret (if pos >? 0 then pos - 1 else pos)
         else set_cell pos (Z.lor (Z.land c 0xff) 0x0700);; mret (pos + 1));
  cga_place pos.

Definition consputc (c : Z) : M console unit :=
  p ← gets panicked;
  if p : bool then spin
  else
    (if c =? BACKSPACE then uartputc 8;; uartputc 32;; uartputc 8 else uartputc c);;
    cgaputc c.

(** [cprintf] hands its characters to [consputc]. *)
Definition cprintf (m : mem) (fmt args : list Z) : M console unit :=
  cs ← deref (Printf.cprintf m fmt args); for_each cs consputc.

Definition str_lapicid : list Z := [108; 97; 112; 105; 99; 105; 100; 32; 37; 100; 58; 32; 112; 97; 110; 105; 99; 58; 32].
Definition str_pc : list Z := [32; 37; 112].

(** [panic], up to its endless loop: what the other CPUs see. *)
Definition kpanic (m : mem) (lapicid : Z) (msg pcs : list Z) : M console unit :=
  modify (fun s => s <| locking := false |>);;
  cprintf m str_lapicid [lapicid];;
  cprintf m msg [];;
  cprintf m [NEWLINE] [];;
  for_each pcs (fun pc => cprintf m str_pc [pc]);;
  modify (fun s => s <| panicked := true |>).

(** ** Input *)

(** [while(input.e != input.w && input.buf[(input.e-1) % INPUT_BUF] != '\n')]:
    [e - w] rounds at most. *)
Fixpoint kill_line (fuel : nat) : M console unit :=
  match fuel with
  | O => mret tt
  | S fuel =>
      s ← gets (fun s => s);
      if ie s =? iw s then mret tt
      else
        c ← deref (aget (ibuf s) (u32 (ie s - 1) mod INPUT_BUF));
        if c =? NEWLINE then mret tt
        else
          modify (fun s => s <| ie ::= fun e => u32 (e - 1) |>);;
          consputc BACKSPACE;;
          kill_line fuel
  end.

(** One character of the loop of [consoleintr]; the result is [doprocdump]. *)
Definition console_char (c : Z) (doprocdump : bool) : M console bool :=
  if c =? ctrl 80 then mret true
  else if c =? ctrl 85 then
    s ← gets (fun s => s);
    kill_line (Z.to_nat (u32 (ie s - iw s)));;
    mret doprocdump
  else if (c =? ctrl 72) || (c =? 0x7f) then
    s ← gets (fun s => s);
    (if negb (ie s =? iw s) then
       modify (fun s => s <| ie ::= fun e => u32 (e - 1) |>);; consputc BACKSPACE
     else mret tt);;
    mret doprocdump
  else
    s ← gets (fun s => s);
    (if negb (c =? 0) && (u32 (ie s - ir s) <? INPUT_BUF) then
       let c := if c =? 13 then NEWLINE else c in
       _ ← deref (aget (ibuf s) (ie s mod INPUT_BUF));
       modify (fun s => s <| ibuf := aset (ibuf s) (ie s mod INPUT_BUF) (u8 c) |>
                          <| ie ::= fun e => u32 (e + 1) |>);;
       consputc c;;
       s ← gets (fun s => s);
       (if (c =? NEWLINE) || (c =? ctrl 68) || (ie s =? u32 (ir s + INPUT_BUF)) then
          modify (fun s => s <| iw := ie s |> <| calls ::= cons CallWakeup |>)
        else mret tt)
     else mret tt);;
    mret doprocdump.

(** [cs]: the characters that [getc] delivers before it returns -1. *)
Fixpoint console_chars (cs : list Z) (doprocdump : bool) : M console bool :=
  match cs with
  | [] => mret doprocdump
  | c :: cs => d ← console_char c doprocdump; console_chars cs d
  end.

Definition consoleintr (cs : list Z) : M console unit :=
  d ← console_chars cs false;
  if d : bool then modify (fun s => s <| calls ::= cons CallProcdump |>) else mret tt.

(** How a run of [consoleread] ends: it returns, it has been killed (-1), or it
    sleeps on [&input.r] with so many bytes left to read. *)
Inductive read_end := ReadDone | ReadKilled | ReadSleep (left : nat).

(** The loop, for [n] bytes; [target] is the count the caller asked for.  The
    bytes stored at [dst] are the first result. *)
Fixpoint consoleread_loop (n : nat) (target : Z) (killed : bool) : M console (list Z * read_end) :=
  match n with
  | O => mret ([], ReadDone)
  | S n' =>
      s ← gets (fun s => s);
      if ir s =? iw s then mret ([], if killed then ReadKilled else ReadSleep n)
      else
        c ← deref (aget (ibuf s) (ir s mod INPUT_BUF));
        modify (fun s => s <| ir ::= fun r => u32 (r + 1) |>);;
        if c =? ctrl 68 then
          (if Z.of_nat n <? target then modify (fun s => s <| ir ::= fun r => u32 (r - 1) |>) else mret tt);;
          mret ([], ReadDone)
        else if c =? NEWLINE then mret ([c], ReadDone)
        else
          '(l, e) ← consoleread_loop n' target killed;
          mret (c :: l, e)
  end.
Definition consoleread (n : Z) (killed : bool) : M console (list Z * read_end) :=
  consoleread_loop (Z.to_nat n) (u32 n) killed.

Definition consolewrite (buf : list Z) : M console Z :=
  for_each buf (fun c => consputc (Z.land c 0xff));;
  mret (Z.of_nat (length buf)).

Definition consoleinit : M console unit := modify (fun s => s <| locking := true |>).

(** ** The screen *)

Definition screen_ok (s : console) : Prop :=
  length (crt s) = 2000%nat /\ 0 <= crtpos s < 24 * 80 /\ panicked s = false.

(** Only the screen and the serial line differ. *)
Definition output_only (s s' : console) : Prop :=
  s' = s <| crt := crt s' |> <| crtpos := crtpos s' |> <| serial := serial s' |>.

Lemma set_cell_ok pos v s : 0 <= pos < Z.of_nat (length (crt s)) ->
  set_cell pos v s = Ret tt (s <| crt := aset (crt s) pos v |>).
Proof. intros H. unfold set_cell. msimp. by destruct (aget_is_Some (crt s) pos H) as [w ->]. Qed.

Lemma scroll_rows_length l : length l = 2000%nat -> length (scroll_rows l) = 2000%nat.
Proof. intros H. unfold scroll_rows. rewrite length_app, length_take, !length_drop. lia. Qed.

Lemma blank_from_length l n : length l = 2000%nat -> (n <= 24 * 80)%nat -> length (blank_from l n) = 2000%nat.
Proof. intros H Hn. unfold blank_from. rewrite !length_app, length_take, length_drop, length_replicate. lia. Qed.

Lemma cga_place_ok pos s : length (crt s) = 2000%nat -> 0 <= pos <= 24 * 80 ->
  exists l p, cga_place pos s = Ret tt (s <| crt := l |> <| crtpos := p |>) /\
    length l = 2000%nat /\ 0 <= p < 24 * 80.
Proof.
  intros Hl Hp. unfold cga_place.
  destruct (Z.ltb_spec pos 0), (Z.gtb_spec pos (25 * 80)); try lia. cbn [orb].
  rewrite Z.quot_div_nonneg by lia. destruct (Z.geb_spec (pos / 80) 24) as [Hge|Hlt].
  - assert (pos = 1920) as -> by zlia. msimp. rewrite Hl. cbn [Z.ltb orb].
    change (Z.of_nat 2000 <? 24 * 80) with false. change (24 * 80 <? 1920 - 80) with false. cbn [orb].
    pose proof (scroll_rows_length _ Hl) as Hs. pose proof (blank_from_length _ (Z.to_nat (1920 - 80)) Hs ltac:(lia)) as Hb.
    rewrite set_cell_ok by (cbn [crt crtpos setf]; rewrite Hb; lia).
    exists (aset (blank_from (scroll_rows (crt s)) (Z.to_nat (1920 - 80))) 1840 (Z.lor 32 0x0700)), 1840.
    split; [reflexivity|]. rewrite aset_length. split; [exact Hb|lia].
  - msimp. rewrite set_cell_ok by (cbn [crt crtpos setf]; rewrite Hl; zlia).
    exists (aset (crt s) pos (Z.lor 32 0x0700)), pos. unfold u16. rewrite Z.mod_small by lia.
    split; [reflexivity|]. rewrite aset_length. split; [exact Hl|zlia].
Qed.

Lemma cgaputc_ok c s : length (crt s) = 2000%nat -> 0 <= crtpos s < 24 * 80 ->
  exists l p, cgaputc c s = Ret tt (s <| crt := l |> <| crtpos := p |>) /\
    length l = 2000%nat /\ 0 <= p < 24 * 80.
Proof.
  intros Hl Hp. unfold cgaputc. rewrite (bind_ret (gets crtpos) _ _ _ _ eq_refl).
  destruct (c =? NEWLINE); [|destruct (c =? BACKSPACE)].
  - rewrite ret_bind. apply cga_place_ok; [done|]. rewrite Z.rem_mod_nonneg by lia. zlia.
  - rewrite ret_bind. apply cga_place_ok; [done|]. destruct (Z.gtb_spec (crtpos s) 0); lia.
  - rewrite bind_assoc, (bind_ret _ _ _ _ _ (set_cell_ok (crtpos s) _ s ltac:(lia))), ret_bind.
    destruct (cga_place_ok (crtpos s + 1) (s <| crt := aset (crt s) (crtpos s) (Z.lor (Z.land c 0xff) 0x0700) |>))
      as (l & p & Hrun & H); [cbn; by rewrite aset_length|lia|]. exists l, p. rewrite Hrun. done.
Qed.

(** The serial line gets the character, or backspace, space, backspace. *)
Definition serial_of (c : Z) : list Z := if c =? BACKSPACE then [8; 32; 8] else [u8 c].

Lemma consputc_ok c s : screen_ok s ->
  exists l p, length l = 2000%nat /\ 0 <= p < 24 * 80 /\
    consputc c s = Ret tt (s <| serial := if uart s then serial s ++ serial_of c else serial s |>
                             <| crt := l |> <| crtpos := p |>).
Proof.
  intros (Hl & Hp & Hpan). unfold consputc. rewrite (bind_ret (gets panicked) _ _ _ _ eq_refl), Hpan.
  set (s1 := s <| serial := if uart s then serial s ++ serial_of c else serial s |>).
  assert (Hser : (if c =? BACKSPACE then uartputc 8;; uartputc 32;; uartputc 8 else uartputc c) s = Ret tt s1).
  { unfold s1, serial_of, uartputc. destruct s as [i1 i2 i3 i4 i5 i6 u ser i7 i8 i9].
    destruct (c =? BACKSPACE), u; msimp; try done. unfold setf. cbn. by rewrite <- !app_assoc. }
  rewrite (bind_ret _ _ _ _ _ Hser).
  destruct (cgaputc_ok c s1) as (l & p & Hrun & Hl' & Hp'); [done..|]. exists l, p. split; [exact Hl'|]. split; [exact Hp'|]. exact Hrun.
Qed.

Lemma consputc_screen c s : screen_ok s ->
  exists s', consputc c s = Ret tt s' /\ screen_ok s' /\ output_only s s'.
Proof.
  intros H. destruct (consputc_ok c s H) as (l & p & Hl & Hp & Hrun). eexists. split; [exact Hrun|].
  destruct H as (_ & _ & Hpan). split; [split; [exact Hl|split; [exact Hp|exact Hpan]]|reflexivity].
Qed.

(** Writing to the console cannot fail: from a sound screen every sequence of
    characters is printed, the cursor stays on the first 24 rows and no cell
    outside the screen is touched; the serial line gets the bytes in order. *)
Theorem consolewrite_total buf s :
  screen_ok s -> uart s = true ->
  exists s', consolewrite buf s = Ret (Z.of_nat (length buf)) s' /\ screen_ok s' /\ output_only s s' /\
    serial s' = serial s ++ map (fun c => Z.land c 0xff) buf.
Proof.
  intros Hs Hu.
  assert (H : wp (for_each buf (fun c => consputc (Z.land c 0xff)))
                 (fun _ s' => screen_ok s' /\ output_only s s' /\
                    serial s' = serial s ++ map (fun c => Z.land c 0xff) (take (length buf) buf)) s).
  { apply (wp_for_each buf _ (fun i s' => screen_ok s' /\ output_only s s' /\
             serial s' = serial s ++ map (fun c => Z.land c 0xff) (take i buf))).
    { split_and!; [done|by destruct s|cbn; by rewrite app_nil_r]. }
    intros i c s1 Hc (Hok & Ho & Hser). destruct (consputc_ok (Z.land c 0xff) s1 Hok) as (l & p & Hl & Hp & Hrun).
    apply (wp_intro _ _ _ _ _ Hrun). assert (Hu1 : uart s1 = true) by (rewrite Ho; exact Hu).
    destruct Hok as (_ & _ & Hpan). split_and!; try done.
    - unfold output_only in *. by rewrite Ho.
    - cbn [serial crt crtpos setf]. rewrite Hu1. rewrite Hser, <- app_assoc. f_equal.
      rewrite Nat.add_1_r, (take_S_r _ _ _ Hc), map_app. cbn [map]. f_equal.
      assert (Hr : 0 <= Z.land c 0xff < 256).
      { change 0xff with (Z.ones 8). rewrite Z.land_ones by lia. apply Z.mod_pos_bound. lia. }
      unfold serial_of. destruct (Z.eqb_spec (Z.land c 0xff) BACKSPACE) as [E|_]; [unfold BACKSPACE in E; lia|].
      unfold u8. by rewrite Z.mod_small by lia. }
  apply wp_elim in H as ([] & s' & Hrun & Hok & Ho & Hser). rewrite firstn_all in Hser.
  exists s'. split_and!; [|done..]. unfold consolewrite. by rewrite (bind_ret _ _ _ _ _ Hrun).
Qed.

(** ** The input buffer

    The buffer holds a queue of bytes: first the committed ones, which
    [consoleread] may take, then the line being edited, which holds no newline. *)

Record input_abs (s : console) (com edit : list Z) : Prop := {
  in_ring : ring INPUT_BUF (ibuf s) (ir s) (ie s) (com ++ edit);
  in_w : iw s = u32 (ir s + Z.of_nat (length com));
  in_line : Forall (fun c => c <> NEWLINE) edit
}.

Definition cons_abs (s : console) (com edit : list Z) : Prop := screen_ok s /\ input_abs s com edit.

(** What a typed character does to the two queues. *)
Definition spec_char (com edit : list Z) (c : Z) : list Z * list Z :=
  if c =? ctrl 80 then (com, edit)
  else if c =? ctrl 85 then (com, [])
  else if (c =? ctrl 72) || (c =? 0x7f) then (com, removelast edit)
  else if negb (c =? 0) && (Z.of_nat (length (com ++ edit)) <? INPUT_BUF) then
    let c := if c =? 13 then NEWLINE else c in
    let edit' := edit ++ [u8 c] in
    if (c =? NEWLINE) || (c =? ctrl 68) || (Z.of_nat (length (com ++ edit')) =? INPUT_BUF)
    then (com ++ edit', []) else (com, edit')
  else (com, edit).

Lemma buf_bounds : 0 < INPUT_BUF < 2 ^ 31.
Proof. done. Qed.
Lemma buf_divides : (INPUT_BUF | 2 ^ 32).
Proof. by exists (2 ^ 25). Qed.
#[local] Hint Resolve buf_bounds buf_divides : core.

Lemma input_abs_output s s' com edit : output_only s s' -> input_abs s com edit -> input_abs s' com edit.
Proof. intros -> [H1 H2 H3]. by split. Qed.

Lemma in_e s com edit : input_abs s com edit -> ie s = u32 (iw s + Z.of_nat (length edit)).
Proof.
  intros [[_ _ He _ _] Hw _]. rewrite He, Hw, length_app. unfold u32. rewrite Zplus_mod_idemp_l. f_equal. lia.
Qed.

Lemma edit_fits s com edit : input_abs s com edit -> Z.of_nat (length edit) <= INPUT_BUF.
Proof. intros [[_ _ _ Hf _] _ _]. rewrite length_app in Hf. lia. Qed.

Lemma edit_empty s com edit : input_abs s com edit -> (ie s =? iw s) = bool_decide (edit = []).
Proof.
  intros H. pose proof (in_e _ _ _ H) as He. pose proof (edit_fits _ _ _ H) as Hf. unfold INPUT_BUF in Hf.
  apply eq_true_iff_eq. rewrite Z.eqb_eq, bool_decide_eq_true, He.
  assert (Hw : is_u32 (iw s)) by (rewrite (in_w _ _ _ H); apply u32_range).
  rewrite (u32_add_eq (iw s) (Z.of_nat (length edit)) ltac:(lia) Hw).
  destruct edit; cbn; split; (done || lia).
Qed.

Lemma edit_pop s com edit x : input_abs s com (edit ++ [x]) ->
  aget (ibuf s) (u32 (ie s - 1) mod INPUT_BUF) = Some x /\
  input_abs (s <| ie ::= fun e => u32 (e - 1) |>) com edit.
Proof.
  intros [Hr Hw Hl]. rewrite app_assoc in Hr. apply ring_last in Hr as [Hx Hr]; [|done..].
  apply Forall_app in Hl as [Hl _]. split; [done|]. by split.
Qed.

(** Killing the line deletes all of it. *)
Lemma kill_line_ok com edit : forall s, cons_abs s com edit ->
  exists s', kill_line (length edit) s = Ret tt s' /\ cons_abs s' com [] /\ calls s' = calls s.
Proof.
  induction edit as [|x edit IH] using rev_ind; intros s [Hs Hi]; [by exists s|].
  rewrite length_app, Nat.add_1_r. cbn [kill_line]. rewrite (bind_ret (gets (fun s => s)) _ _ _ _ eq_refl).
  rewrite (edit_empty _ _ _ Hi), bool_decide_eq_false_2 by by destruct edit.
  destruct (edit_pop _ _ _ _ Hi) as [Hx Hi']. rewrite Hx. cbn [deref]. rewrite ret_bind.
  pose proof (in_line _ _ _ Hi) as [_ [Hnl _]%Forall_cons]%Forall_app. destruct (Z.eqb_spec x NEWLINE); [done|].
  set (s0 := s <| ie ::= fun e => u32 (e - 1) |>) in *. rewrite (bind_ret (modify _) _ _ tt s0 eq_refl).
  destruct (consputc_screen BACKSPACE s0 Hs) as (s1 & Hput & Hs1 & Ho). rewrite (bind_ret _ _ _ _ _ Hput).
  destruct (IH s1) as (s' & Hrun & Habs & Hc); [split; [done|by eapply input_abs_output]|].
  exists s'. split_and!; [done..|]. rewrite Hc, Ho. done.
Qed.

(** Appending a character to the line. *)
Lemma edit_push s com edit v : input_abs s com edit -> Z.of_nat (length (com ++ edit)) < INPUT_BUF ->
  is_Some (aget (ibuf s) (ie s mod INPUT_BUF)) /\
  ring INPUT_BUF (aset (ibuf s) (ie s mod INPUT_BUF) v) (ir s) (u32 (ie s + 1)) (com ++ edit ++ [v]).
Proof. intros [Hr _ _] Hlt. rewrite app_assoc. by apply ring_push. Qed.

Lemma console_char_ok c d s com edit :
  cons_abs s com edit -> 0 <= c < 256 ->
  exists s', console_char c d s = Ret (d || (c =? ctrl 80)) s' /\
    cons_abs s' (spec_char com edit c).1 (spec_char com edit c).2 /\
    calls s' = (if bool_decide ((spec_char com edit c).1 = com) then [] else [CallWakeup]) ++ calls s.
Proof.
  intros [Hs Hi] Hc. unfold console_char, spec_char.
  destruct (Z.eqb_spec c (ctrl 80)) as [->|Hp].
  { exists s. rewrite orb_true_r. split; [done|]. rewrite bool_decide_eq_true_2 by done. by split. }
  rewrite orb_false_r. destruct (Z.eqb_spec c (ctrl 85)) as [->|Hu].
  { rewrite (bind_ret (gets (fun s => s)) _ _ _ _ eq_refl).
    assert (Hn : Z.to_nat (u32 (ie s - iw s)) = length edit).
    { pose proof (edit_fits _ _ _ Hi) as Hf. unfold INPUT_BUF in Hf. rewrite (in_e _ _ _ Hi). unfold u32.
      rewrite Zminus_mod_idemp_l. replace (iw s + Z.of_nat (length edit) - iw s) with (Z.of_nat (length edit)) by lia.
      rewrite Z.mod_small by lia. lia. }
    destruct (kill_line_ok com edit s (conj Hs Hi)) as (s' & Hrun & Habs & Hcalls). rewrite Hn.
    rewrite (bind_ret _ _ _ _ _ Hrun). exists s'. cbn. by rewrite bool_decide_eq_true_2. }
  destruct ((c =? ctrl 72) || (c =? 0x7f)).
  { rewrite (bind_ret (gets (fun s => s)) _ _ _ _ eq_refl). rewrite (edit_empty _ _ _ Hi). cbn [fst snd].
    rewrite (bool_decide_eq_true_2 (com = com)) by done.
    destruct edit as [|x edit _] using rev_ind; [by exists s|].
    rewrite bool_decide_eq_false_2 by by destruct edit. cbn [negb]. rewrite removelast_last.
    destruct (edit_pop _ _ _ _ Hi) as [_ Hi']. set (s0 := s <| ie ::= fun e => u32 (e - 1) |>) in *.
    rewrite bind_assoc, (bind_ret (modify _) _ _ tt s0 eq_refl).
    destruct (consputc_screen BACKSPACE s0 Hs) as (s1 & Hput & Hs1 & Ho). rewrite (bind_ret _ _ _ _ _ Hput).
    exists s1. split; [done|]. split; [split; [done|by eapply input_abs_output]|]. by rewrite Ho. }
  rewrite (bind_ret (gets (fun s => s)) _ _ _ _ eq_refl).
  rewrite (ring_length _ buf_bounds _ _ _ _ (in_ring _ _ _ Hi)).
  destruct (negb (c =? 0) && _) eqn:Hroom.
  2: { exists s. cbn [fst snd]. rewrite bool_decide_eq_true_2 by done. by split_and!. }
  apply andb_true_iff in Hroom as [_ Hlt%Z.ltb_lt]. cbv zeta.
  set (c' := if c =? 13 then NEWLINE else c). destruct (edit_push s com edit (u8 c') Hi Hlt) as [[old Hold] Hring].
  rewrite Hold. rewrite bind_assoc. cbn [deref]. rewrite ret_bind, bind_assoc.
  set (s1 := s <| ibuf := aset (ibuf s) (ie s mod INPUT_BUF) (u8 c') |> <| ie ::= fun e => u32 (e + 1) |>).
  erewrite bind_ret; [|reflexivity]. change (setf (fun e => u32 (e + 1)) _) with s1. rewrite bind_assoc.
  destruct (consputc_screen c' s1 Hs) as (s2 & Hput & Hs2 & Ho). rewrite (bind_ret _ _ _ _ _ Hput), bind_assoc.
  rewrite (bind_ret (gets (fun s => s)) _ _ _ _ eq_refl).
  assert (Hring2 : ring INPUT_BUF (ibuf s2) (ir s2) (ie s2) (com ++ edit ++ [u8 c'])) by (rewrite Ho; exact Hring).
  assert (Hfull : (ie s2 =? u32 (ir s2 + INPUT_BUF)) = (Z.of_nat (length (com ++ edit ++ [u8 c'])) =? INPUT_BUF)).
  { apply eq_true_iff_eq. rewrite !Z.eqb_eq. by eapply ring_full. }
  rewrite Hfull. destruct ((c' =? NEWLINE) || (c' =? ctrl 68) || _) eqn:Hcommit; cbn [fst snd].
  - eexists. split; [reflexivity|]. rewrite bool_decide_eq_false_2.
    2: { intros Heq. apply (f_equal length) in Heq. rewrite !length_app in Heq. cbn in Heq. lia. }
    split; [split; [exact Hs2|]|cbn [calls setf app]; by rewrite Ho]. split; [|exact (ring_e _ _ _ _ _ Hring2)|done].
    rewrite app_nil_r. exact Hring2.
  - eexists. split; [reflexivity|]. rewrite bool_decide_eq_true_2 by done.
    split; [split; [exact Hs2|]|by rewrite Ho]. split; [exact Hring2| |].
    + rewrite Ho. exact (in_w _ _ _ Hi).
    + apply Forall_app. split; [exact (in_line _ _ _ Hi)|]. constructor; [|constructor].
      apply orb_false_iff in Hcommit as [[Hnl%Z.eqb_neq _]%orb_false_iff _]. unfold u8.
      assert (0 <= c' < 256) by (unfold c', NEWLINE; destruct (c =? 13); lia). by rewrite Z.mod_small by lia.
Qed.

(** What [consoleread] takes from the committed bytes; [fresh]: it has delivered
    nothing yet. *)
Fixpoint spec_read (n : nat) (fresh killed : bool) (com : list Z) : list Z * read_end * list Z :=
  match n, com with
  | O, _ => ([], ReadDone, com)
  | S _, [] => ([], if killed then ReadKilled else ReadSleep n, [])
  | S n', c :: com' =>
      if c =? ctrl 68 then ([], ReadDone, if fresh then com' else com)
      else if c =? NEWLINE then ([c], ReadDone, com')
      else let '(l, e, r) := spec_read n' false killed com' in (c :: l, e, r)
  end.

Lemma com_empty s com edit : input_abs s com edit -> (ir s =? iw s) = bool_decide (com = []).
Proof.
  intros [Hr Hw _]. apply eq_true_iff_eq. rewrite Z.eqb_eq, bool_decide_eq_true, Hw.
  pose proof (ring_fits _ _ _ _ _ Hr) as Hf. rewrite length_app in Hf. unfold INPUT_BUF in Hf.
  pose proof (u32_add_eq (ir s) (Z.of_nat (length com)) ltac:(lia) (ring_r _ _ _ _ _ Hr)) as H.
  destruct com; cbn in *; split; intros H0; [done|symmetry; by apply H|apply eq_sym, H in H0; lia|done].
Qed.

Lemma com_take s c com edit : input_abs s (c :: com) edit ->
  aget (ibuf s) (ir s mod INPUT_BUF) = Some c /\ input_abs (s <| ir ::= fun r => u32 (r + 1) |>) com edit /\
  u32 (u32 (ir s + 1) - 1) = ir s.
Proof.
  intros [Hr Hw Hl]. cbn [app] in Hr. destruct (ring_head _ buf_bounds buf_divides _ _ _ _ _ Hr) as [Hc Hr'].
  split_and!; [done| |by eapply ring_unread]. split; [done| |done]. change (iw s = u32 (u32 (ir s + 1) + Z.of_nat (length com))).
  rewrite Hw. unfold u32. rewrite Zplus_mod_idemp_l. f_equal. cbn [length]. lia.
Qed.

Lemma consoleread_loop_ok n : forall target killed s com edit,
  cons_abs s com edit -> Z.of_nat n <= target ->
  exists s', consoleread_loop n target killed s =
      Ret (spec_read n (Z.of_nat n =? target) killed com).1 s' /\
    cons_abs s' (spec_read n (Z.of_nat n =? target) killed com).2 edit.
Proof.
  induction n as [|n IH]; intros target killed s com edit [Hs Hi] Ht; [by exists s; destruct com|].
  cbn [consoleread_loop spec_read]. rewrite (bind_ret (gets (fun s => s)) _ _ _ _ eq_refl), (com_empty _ _ _ Hi).
  destruct com as [|c com]; [exists s; by destruct killed|]. rewrite bool_decide_eq_false_2 by done.
  destruct (com_take _ _ _ _ Hi) as (Hc & Hi' & Hun). rewrite Hc. cbn [deref]. rewrite ret_bind.
  set (s1 := s <| ir ::= fun r => u32 (r + 1) |>) in *. rewrite (bind_ret (modify _) _ _ tt s1 eq_refl).
  destruct (c =? ctrl 68).
  - destruct (Z.ltb_spec (Z.of_nat (S n)) target), (Z.eqb_spec (Z.of_nat (S n)) target); try lia.
    + assert (Hback : s1 <| ir ::= fun r => u32 (r - 1) |> = s).
      { unfold s1. destruct s. unfold setf. cbn in *. by rewrite Hun. }
      exists s. split; [|by split]. erewrite bind_ret; [|reflexivity]. by rewrite Hback.
    + exists s1. by split.
  - destruct (c =? NEWLINE); [by exists s1|].
    destruct (IH target killed s1 com edit) as (s' & Hrun & Habs); [by split|lia|].
    destruct (Z.eqb_spec (Z.of_nat n) target); [lia|].
    destruct (spec_read n false killed com) as [[l e] r] eqn:Hspec. cbn in *.
    exists s'. rewrite (bind_ret _ _ _ _ _ Hrun). by split.
Qed.

Lemma console_chars_ok cs : forall d s com edit, cons_abs s com edit -> Forall (fun c => 0 <= c < 256) cs ->
  exists d' s', console_chars cs d s = Ret d' s' /\
    let '(com', edit') := foldl (fun '(com, edit) c => spec_char com edit c) (com, edit) cs in cons_abs s' com' edit'.
Proof.
  induction cs as [|c cs IH]; intros d s com edit Ha Hc; [by exists d, s|].
  apply Forall_cons in Hc as [Hc Hcs]. destruct (console_char_ok c d s com edit Ha Hc) as (s1 & Hrun & Ha1 & _).
  cbn [console_chars foldl]. destruct (spec_char com edit c) as [com1 edit1].
  destruct (IH (d || (c =? ctrl 80)) s1 com1 edit1 Ha1 Hcs) as (d' & s' & Hrun' & Ha').
  exists d', s'. by rewrite (bind_ret _ _ _ _ _ Hrun).
Qed.

Lemma consoleintr_ok cs s com edit : cons_abs s com edit -> Forall (fun c => 0 <= c < 256) cs ->
  exists s', consoleintr cs s = Ret tt s' /\
    let '(com', edit') := foldl (fun '(com, edit) c => spec_char com edit c) (com, edit) cs in cons_abs s' com' edit'.
Proof.
  intros Ha Hc. destruct (console_chars_ok cs false s com edit Ha Hc) as (d & s' & Hrun & H).
  unfold consoleintr. rewrite (bind_ret _ _ _ _ _ Hrun). destruct d; [|by exists s'].
  eexists. split; [reflexivity|]. destruct (foldl _ _ cs) as [com' edit']. destruct H as [H1 [H2 H3 H4]]. by split; [|split].
Qed.

(** *** Traces: keyboard interrupts and reads in any order *)

Inductive cons_op := OpType (cs : list Z) | OpRead (n : Z) (killed : bool).

Definition cons_op_ok (o : cons_op) : Prop :=
  match o with OpType cs => Forall (fun c => 0 <= c < 256) cs | OpRead n _ => 0 <= n < 2 ^ 31 end.

Fixpoint cons_run (os : list cons_op) : M console (list (list Z * read_end)) :=
  match os with
  | [] => mret []
  | OpType cs :: os => consoleintr cs;; cons_run os
  | OpRead n killed :: os => r ← consoleread n killed; l ← cons_run os; mret (r :: l)
  end.

Fixpoint spec_run (os : list cons_op) (com edit : list Z) : list (list Z * read_end) :=
  match os with
  | [] => []
  | OpType cs :: os =>
      let '(com', edit') := foldl (fun '(com, edit) c => spec_char com edit c) (com, edit) cs in
      spec_run os com' edit'
  | OpRead n killed :: os =>
      let '(l, e, com') := spec_read (Z.to_nat n) true killed com in (l, e) :: spec_run os com' edit
  end.

Lemma cons_run_ok os s com edit :
  cons_abs s com edit -> Forall cons_op_ok os ->
  exists s', cons_run os s = Ret (spec_run os com edit) s'.
Proof.
  revert s com edit. induction os as [|o os IH]; intros s com edit Ha Ho; [by exists s|].
  apply Forall_cons in Ho as [Ho Hos]. destruct o as [cs|n killed]; cbn [cons_run spec_run].
  - destruct (consoleintr_ok cs s com edit Ha Ho) as (s1 & Hrun & Ha1). rewrite (bind_ret _ _ _ _ _ Hrun).
    destruct (foldl _ _ cs) as [com1 edit1]. by apply IH.
  - cbn in Ho. destruct (consoleread_loop_ok (Z.to_nat n) (u32 n) killed s com edit Ha) as (s1 & Hrun & Ha1).
    { rewrite u32_small by lia. lia. }
    rewrite u32_small, Z2Nat.id, Z.eqb_refl in Hrun, Ha1 by lia.
    unfold consoleread. rewrite u32_small by lia. rewrite (bind_ret _ _ _ _ _ Hrun).
    destruct (spec_read (Z.to_nat n) true killed com) as [[l e] com1]. cbn [fst snd] in *.
    destruct (IH s1 com1 edit Ha1 Hos) as (s' & Hrun'). exists s'. by rewrite (bind_ret _ _ _ _ _ Hrun').
Qed.

(** C36. The console's input implements its specification, two queues without
    indices: any sequence of keyboard interrupts and reads goes through without
    a fault and delivers what the specification delivers, whatever the position
    of the counters, their wrap-around included. *)
Theorem console_input_refines os s com edit :
  cons_abs s com edit -> Forall cons_op_ok os ->
  exists s', cons_run os s = Ret (spec_run os com edit) s'.
Proof. apply cons_run_ok. Qed.

(** A character that stands for itself. *)
Definition plain (c : Z) : Prop := 32 <= c < 127.

Lemma spec_char_plain com edit c : plain c -> Z.of_nat (length (com ++ edit)) < INPUT_BUF - 1 ->
  spec_char com edit c = (com, edit ++ [c]).
Proof.
  unfold plain, spec_char, ctrl, INPUT_BUF, NEWLINE. intros Hp Hl.
  destruct (Z.eqb_spec c (80 - 64)), (Z.eqb_spec c (85 - 64)), (Z.eqb_spec c (72 - 64)), (Z.eqb_spec c 0x7f),
    (Z.eqb_spec c 0); try lia. cbn [orb negb andb].
  destruct (Z.ltb_spec (Z.of_nat (length (com ++ edit))) 128); [|lia].
  destruct (Z.eqb_spec c 13); [lia|]. unfold u8. rewrite Z.mod_small by lia.
  destruct (Z.eqb_spec c 10), (Z.eqb_spec c (68 - 64)); try lia. cbn [orb].
  destruct (Z.eqb_spec (Z.of_nat (length (com ++ edit ++ [c]))) 128) as [E|_]; [|done].
  rewrite app_assoc, length_app in E. cbn in E. lia.
Qed.

Lemma spec_chars_plain line : forall edit, Forall plain line -> Z.of_nat (length edit + length line) < INPUT_BUF ->
  foldl (fun '(com, edit) c => spec_char com edit c) ([], edit) line = ([], edit ++ line).
Proof.
  induction line as [|c line IH]; intros edit Hp Hl; [by rewrite app_nil_r|]. apply Forall_cons in Hp as [Hc Hp].
  cbn [foldl length] in *. rewrite spec_char_plain by (done || (cbn [app]; lia)).
  rewrite IH; [by rewrite <- app_assoc|done|rewrite length_app; cbn; lia].
Qed.

Lemma spec_read_line line n rest : Forall plain line -> (length line < n)%nat ->
  forall fresh killed, spec_read n fresh killed (line ++ NEWLINE :: rest) = (line ++ [NEWLINE], ReadDone, rest).
Proof.
  revert n. induction line as [|c line IH]; intros n Hp Hn fresh killed; (destruct n as [|n]; [lia|]); [done|].
  apply Forall_cons in Hp as [Hc Hp]. cbn [spec_read app]. unfold plain in Hc.
  destruct (Z.eqb_spec c (ctrl 68)) as [E|_]; [unfold ctrl in E; lia|].
  destruct (Z.eqb_spec c NEWLINE) as [E|_]; [unfold NEWLINE in E; lia|]. rewrite IH by (done || (cbn in Hn; lia)). done.
Qed.

(** A line that is typed is read: plain characters, a kill, the line, a stray
    character taken back with backspace, and return; a read with enough room
    returns the line with a newline. *)
Theorem console_line_roundtrip s junk line stray n :
  cons_abs s [] [] -> Forall plain junk -> Forall plain line -> plain stray ->
  Z.of_nat (length junk) < INPUT_BUF -> Z.of_nat (length line) < INPUT_BUF - 1 -> Z.of_nat (length line) < n < 2 ^ 31 ->
  exists s', cons_run [OpType (junk ++ [ctrl 85]); OpType (line ++ [stray; ctrl 72; 13]); OpRead n false] s =
    Ret [(line ++ [NEWLINE], ReadDone)] s'.
Proof.
  intros Ha Hj Hl Hst Hlj Hll Hn.
  assert (Hb : forall l, Forall plain l -> Forall (fun c => 0 <= c < 256) l).
  { intros l Hp. eapply Forall_impl; [exact Hp|]. unfold plain. intros. lia. }
  edestruct (cons_run_ok [OpType (junk ++ [ctrl 85]); OpType (line ++ [stray; ctrl 72; 13]); OpRead n false] s [] [] Ha)
    as (s' & Hrun).
  { repeat constructor; cbn; try lia; apply Forall_app; (split; [by apply Hb|]).
    - repeat constructor; unfold ctrl; lia.
    - unfold plain in Hst. repeat constructor; unfold ctrl; lia. }
  exists s'. rewrite Hrun. f_equal. cbn [spec_run].
  rewrite foldl_app, (spec_chars_plain junk []) by (done || (cbn; lia)). cbn [app foldl].
  change (spec_char [] junk (ctrl 85)) with (@nil Z, @nil Z). cbv beta iota.
  rewrite foldl_app, (spec_chars_plain line []) by (done || (cbn; unfold INPUT_BUF in *; lia)). cbn [app foldl].
  rewrite spec_char_plain by (done || (cbn [app]; lia)).
  change (spec_char [] (line ++ [stray]) (ctrl 72)) with (@nil Z, removelast (line ++ [stray])).
  rewrite removelast_last.
  assert (Hcr : spec_char [] line 13 = (line ++ [NEWLINE], [])).
  { unfold spec_char. cbn [Z.eqb ctrl orb negb andb app]. unfold INPUT_BUF in *.
    destruct (Z.ltb_spec (Z.of_nat (length line)) 128); [|lia]. done. }
  rewrite Hcr. by rewrite spec_read_line by (done || lia).
Qed.

(** A console just before its counters wrap around. *)
Definition demo_console : console :=
  Console_ (replicate 128 0) (2 ^ 32 - 2) (2 ^ 32 - 2) (2 ^ 32 - 2) (replicate 2000 0) (24 * 80 - 1) true [] false true [].

Lemma demo_console_abs : cons_abs demo_console [] [].
Proof.
  split; [split_and!; by vm_compute|]. split; [|by vm_compute|done]. apply ring_nil; [done|by vm_compute|split; by vm_compute].
Qed.

Lemma consolewrite_total_witness :
  exists s', consolewrite [104; 105; 10] demo_console = Ret 3 s' /\ serial s' = [104; 105; 10].
Proof.
  destruct (consolewrite_total [104; 105; 10] demo_console) as (s' & Hrun & _ & _ & Hser);
    [exact (proj1 demo_console_abs)|done|]. exists s'. by split.
Defined.

Lemma console_input_refines_witness :
  exists s', cons_run [OpType [97; 98; 4]; OpRead 1 false; OpRead 9 false; OpRead 9 false] demo_console =
    Ret [([97], ReadDone); ([98], ReadDone); ([], ReadDone)] s'.
Proof.
  apply (console_input_refines [OpType [97; 98; 4]; OpRead 1 false; OpRead 9 false; OpRead 9 false] demo_console [] []);
    [exact demo_console_abs|]. repeat constructor; cbn; lia.
Defined.

Lemma console_line_roundtrip_witness :
  exists s', cons_run [OpType [120; 21]; OpType [108; 115; 120; 8; 13]; OpRead 100 false] demo_console =
    Ret [([108; 115; 10], ReadDone)] s'.
Proof.
  apply (console_line_roundtrip demo_console [120] [108; 115] 120 100);
    [exact demo_console_abs|repeat constructor; unfold plain; lia..|unfold plain; lia|done|done|cbn; lia].
Defined.
