(* ===== verification/Kalloc.v ===== *)
(** * Kalloc: the physical page allocator, kalloc.c

    The free list runs through the free pages themselves: the first word of a
    free page is the address of the next.  The memory is [Mem.mem]; addresses are
    the kernel's virtual addresses.  [kend] stands for the linker's [end].  The
    bodies of [kalloc] and [kfree] run under kmem.lock once [kinit2] has set
    [use_lock], and on one CPU before: they are atomic here. *)

From S2P Require Import Prelude Mem CString.

Definition PGSIZE : Z := 4096.
Definition PHYSTOP : Z := 0xE000000.
Definition KERNBASE : Z := 0x80000000.
Definition V2P (a : Z) : Z := u32 (a - KERNBASE).
Definition PGROUNDUP (sz : Z) : Z := Z.land (u32 (sz + PGSIZE - 1)) (Z.lnot (PGSIZE - 1)).

Record kmem := Kmem { use_lock : bool; freelist : Z; kbytes : mem }.
#[export] Instance eta_kmem : Eta kmem := fun r => Kmem (use_lock r) (freelist r) (kbytes r).

Definition on_mem {A} (m : M mem A) : M kmem A := zoom kbytes (fun b s => s <| kbytes := b |>) m.

Section Kalloc.
Context (kend : Z).

Definition kfree (v : Z) : M kmem unit :=
  if negb (v mod PGSIZE =? 0) || (v <? kend) || (V2P v >=? PHYSTOP) then panic "kfree"
  else
    on_mem (memset v 1 PGSIZE);;
    head ← gets freelist;
    on_mem (st32 v head);;
    modify (fun s => s <| freelist := v |>).

Definition kalloc : M kmem Z :=
  r ← gets freelist;
  (if negb (r =? 0) then
     next ← on_mem (ld32 r);
     modify (fun s => s <| freelist := next |>)
   else mret tt);;
  mret r.

(** [for(; p + PGSIZE <= vend; p += PGSIZE) kfree(p);] *)
Definition pages_between (vstart vend : Z) : list Z :=
  let p := PGROUNDUP vstart in
  map (fun i => p + i * PGSIZE) (seqZ 0 ((vend - p) / PGSIZE)).
Definition freerange (vstart vend : Z) : M kmem unit :=
  for_each (pages_between vstart vend) kfree.

Definition kinit1 (vstart vend : Z) : M kmem unit :=
  modify (fun s => s <| use_lock := false |>);; freerange vstart vend.
Definition kinit2 (vstart vend : Z) : M kmem unit :=
  freerange vstart vend;; modify (fun s => s <| use_lock := true |>).

(** ** The invariant *)

(** A page that the allocator may manage. *)
Definition page (p : Z) : Prop :=
  p mod PGSIZE = 0 /\ 0 < p < 2 ^ 32 /\ kend <= p /\ V2P p < PHYSTOP.

(** The list of free pages [l] starts at [a]. *)
Fixpoint flist (m : mem) (a : Z) (l : list Z) : Prop :=
  match l with
  | [] => a = 0
  | p :: l => a = p /\ exists next, is_u32 next /\ bytes_at m p (le32 next) /\ flist m next l
  end.

Record kinv (s : kmem) (free : list Z) : Prop := {
  k_list : flist (kbytes s) (freelist s) free;
  k_nodup : NoDup free;
  k_pages : Forall page free
}.

Lemma page_apart p q : page p -> page q -> p <> q -> p + PGSIZE <= q \/ q + PGSIZE <= p.
Proof. unfold page, PGSIZE. intros (Hp & _) (Hq & _) Hne. zlia. Qed.

Lemma page_check p : page p -> negb (p mod PGSIZE =? 0) || (p <? kend) || (V2P p >=? PHYSTOP) = false.
Proof.
  intros (H1 & _ & H2 & H3). apply Z.eqb_eq in H1. rewrite H1. cbn [negb orb].
  destruct (Z.ltb_spec p kend); [lia|]. rewrite Z.geb_leb. by apply Z.leb_gt.
Qed.

(** Writing to memory outside the free pages keeps the list. *)
Lemma flist_frame m m' l : forall a,
  (forall p x, p ∈ l -> p <= x < p + PGSIZE -> m' !! x = m !! x) -> flist m a l -> flist m' a l.
Proof.
  induction l as [|p l IH]; intros a Hm Hl; [done|]. destruct Hl as (-> & next & Hn & Hb & Hl).
  split; [done|]. exists next. split_and!; [done| |apply IH; [|done]; intros q x Hq; apply Hm; by right].
  rewrite bytes_at_lookup in *. intros i b Hi. pose proof (lookup_lt_Some _ _ _ Hi) as Hlt. cbn in Hlt.
  rewrite (Hm p) by (first [by left|unfold PGSIZE; lia]). by apply Hb.
Qed.

(** [kfree] puts the page in front of the list and fills the rest of it. *)
Lemma kfree_ok s free v :
  kinv s free -> page v -> v ∉ free -> mapped (kbytes s) v PGSIZE ->
  exists b, kfree v s = Ret tt (s <| kbytes := b |> <| freelist := v |>) /\
    kinv (s <| kbytes := b |> <| freelist := v |>) (v :: free) /\
    (forall x, v + 4 <= x < v + PGSIZE -> b !! x = Some 1) /\
    (forall x, x < v \/ v + PGSIZE <= x -> b !! x = kbytes s !! x) /\ is_u32 (freelist s).
Proof.
  intros [Hl Hnd Hp] Hv Hnew Hm. unfold kfree. rewrite (page_check v Hv).
  assert (Hset : memset v 1 PGSIZE (kbytes s) = Ret v (write_bytes v (replicate (Z.to_nat PGSIZE) 1) (kbytes s))).
  { unfold memset. assert (Hmod : (Z.rem (s32 v) 4 =? 0) && (PGSIZE mod 4 =? 0) = true).
    { destruct Hv as (Hal & _). unfold PGSIZE in *. apply andb_true_iff. split; [|done]. apply Z.eqb_eq.
      apply Z.rem_divide; [lia|]. unfold s32. rewrite Z.mod_eq by lia. set (q := (v + 2 ^ 31) / 2 ^ 32).
      exists (1024 * (v / 4096) - 2 ^ 30 * q). clearbody q. pose proof (Z.div_mod v 4096 ltac:(lia)). lia. }
    rewrite Hmod. cbv zeta. unfold stosl.
    erewrite bind_ret; [|apply stosl_loop_ok; apply (mapped_sub _ _ _ _ _ Hm); unfold PGSIZE; zlia].
    rewrite memset_word, concat_replicate_replicate. done. }
  set (b1 := write_bytes v (replicate (Z.to_nat PGSIZE) 1) (kbytes s)) in *.
  erewrite bind_ret; [|unfold on_mem, zoom; by rewrite Hset]. rewrite (bind_ret (gets freelist) _ _ _ _ eq_refl).
  assert (Hm1 : mapped b1 v 4) by (apply mapped_write, (mapped_sub _ _ _ _ _ Hm); unfold PGSIZE; lia).
  erewrite bind_ret; [|unfold on_mem, zoom; cbn [kbytes setf]; by rewrite (st32_ok b1 v _ Hm1)].
  set (b := write_bytes v (le32 (freelist s)) b1). exists b.
  assert (Hout : forall x, x < v \/ v + PGSIZE <= x -> b !! x = kbytes s !! x).
  { intros x Hx. unfold b, b1. rewrite !write_bytes_out; rewrite ?length_replicate; cbn; unfold PGSIZE in *; lia || done. }
  assert (Hhead : is_u32 (freelist s)).
  { destruct free as [|p free]; cbn in Hl; [rewrite Hl; done|]. destruct Hl as (-> & _).
    apply Forall_cons in Hp as [(_ & Hr & _) _]. unfold is_u32. lia. }
  split; [reflexivity|]. split; [|split_and!; try done].
  - split; [|by apply NoDup_cons|by constructor]. cbn [flist kbytes freelist setf]. split; [done|].
    exists (freelist s). split_and!; [done|apply write_bytes_at|]. eapply flist_frame; [|exact Hl].
    intros p x Hin Hx. apply Hout. rewrite Forall_forall in Hp.
    assert (p <> v) by congruence. destruct (page_apart p v (Hp p Hin) Hv ltac:(done)); lia.
  - intros x Hx. unfold b. rewrite write_bytes_out by (cbn; lia). unfold b1.
    replace x with (v + Z.of_nat (Z.to_nat (x - v))) by lia. apply write_bytes_in.
    apply lookup_replicate. split; [done|]. unfold PGSIZE in *. lia.
Qed.

(** [kalloc] takes the first page of the list. *)
Lemma kalloc_ok s free : kinv s free ->
  match free with
  | [] => kalloc s = Ret 0 s
  | p :: free' => exists next, kalloc s = Ret p (s <| freelist := next |>) /\ kinv (s <| freelist := next |>) free'
  end.
Proof.
  intros [Hl Hnd Hp]. unfold kalloc. rewrite (bind_ret (gets freelist) _ _ _ _ eq_refl).
  destruct free as [|p free]; cbn [flist] in Hl.
  - rewrite Hl. done.
  - destruct Hl as (-> & next & Hn & Hb & Hl). apply Forall_cons in Hp as [(_ & Hr & _) Hp].
    destruct (Z.eqb_spec p 0); [lia|]. cbn [negb].
    assert (Hload : on_mem (ld32 p) s = Ret next s).
    { unfold on_mem, zoom. rewrite (ld32_le _ _ _ Hn Hb). by destruct s. }
    rewrite bind_assoc, (bind_ret _ _ _ _ _ Hload). exists next. split; [done|].
    apply NoDup_cons in Hnd as [_ Hnd]. by split.
Qed.

(** ** Clients

    A client owns the pages it got from [kalloc] and has not freed; it may write
    to them as it likes, and it frees only what it owns. *)

Inductive kstep : kmem * list Z -> kmem * list Z -> Prop :=
| ks_alloc s s' p own : kalloc s = Ret p s' -> p <> 0 -> kstep (s, own) (s', p :: own)
| ks_none s s' own : kalloc s = Ret 0 s' -> kstep (s, own) (s', own)
| ks_free s s' own1 p own2 : kfree p s = Ret tt s' -> kstep (s, own1 ++ p :: own2) (s', own1 ++ own2)
| ks_write s s' own p x v : p ∈ own -> p <= x < p + PGSIZE -> on_mem (st8 x v) s = Ret tt s' ->
    kstep (s, own) (s', own).

(** The free pages and the owned ones are the pages of the beginning. *)
Record kshare (all : list Z) (s : kmem) (own free : list Z) : Prop := {
  sh_inv : kinv s free;
  sh_all : free ++ own ≡ₚ all;
  sh_mapped : forall p, p ∈ all -> mapped (kbytes s) p PGSIZE
}.

Lemma kshare_disjoint all s own free : NoDup all -> kshare all s own free ->
  NoDup own /\ NoDup free /\ forall p, p ∈ own -> p ∉ free.
Proof.
  intros Hnd [_ Hall _]. rewrite <- Hall in Hnd. apply NoDup_app in Hnd as (H1 & H2 & H3).
  split_and!; [done..|]. intros p Ho Hf. by apply (H2 p Hf).
Qed.

Lemma kshare_free all s own1 p own2 free :
  NoDup all -> Forall page all -> kshare all s (own1 ++ p :: own2) free ->
  exists s', kfree p s = Ret tt s' /\ kshare all s' (own1 ++ own2) (p :: free).
Proof.
  intros Hnd Hpg Hsh. destruct (kshare_disjoint _ _ _ _ Hnd Hsh) as (_ & _ & Hdis).
  destruct Hsh as [Hinv Hall Hmap].
  assert (Hin : p ∈ own1 ++ p :: own2) by set_solver.
  assert (Hpa : p ∈ all) by (rewrite <- Hall; set_solver).
  assert (Hp : page p) by (rewrite Forall_forall in Hpg; by apply Hpg).
  destruct (kfree_ok s free p Hinv Hp (Hdis p Hin) (Hmap p Hpa)) as (b & Hrun & Hinv' & _ & Hout & _).
  eexists. split; [exact Hrun|]. split; [done|rewrite <- Hall; solve_Permutation|].
  intros q Hq x Hx. cbn [kbytes freelist setf].
  destruct (decide (x < p \/ p + PGSIZE <= x)) as [Ho|Hi]; [rewrite Hout by done; by apply (Hmap q)|].
  destruct (decide (q = p)) as [->|Hne].
  - destruct (k_list _ _ Hinv') as (_ & next & _ & Hb & _). cbn [kbytes freelist setf] in Hb.
    clear Hi. destruct (decide (x < p + 4)).
    + rewrite bytes_at_lookup in Hb. destruct (lookup_lt_is_Some_2 (le32 next) (Z.to_nat (x - p))) as [c Hc]; [cbn; lia|].
      specialize (Hb _ _ Hc). rewrite Z2Nat.id in Hb by lia. replace (p + (x - p)) with x in Hb by lia. by exists c.
    + destruct (kfree_ok s free p Hinv Hp (Hdis p Hin) (Hmap p Hpa)) as (b2 & Hrun2 & _ & Hfill & _).
      rewrite Hrun in Hrun2. apply (f_equal (fun o => match o with Ret _ s => kbytes s | _ => ∅ end)) in Hrun2.
      cbn in Hrun2. rewrite Hrun2, Hfill by lia. done.
  - rewrite Forall_forall in Hpg. destruct (page_apart q p (Hpg q Hq) Hp Hne); lia.
Qed.

Lemma kshare_alloc all s own free : kshare all s own free ->
  match free with
  | [] => kalloc s = Ret 0 s
  | p :: free' => exists s', kalloc s = Ret p s' /\ kshare all s' (p :: own) free'
  end.
Proof.
  intros [Hinv Hall Hmap]. pose proof (kalloc_ok s free Hinv) as H. destruct free as [|p free]; [done|].
  destruct H as (next & Hrun & Hinv'). eexists. split; [exact Hrun|]. split; [done|rewrite <- Hall; solve_Permutation|done].
Qed.

Lemma kstep_share all s own free s' own' : NoDup all -> Forall page all ->
  kshare all s own free -> kstep (s, own) (s', own') -> exists free', kshare all s' own' free'.
Proof.
  intros Hnd Hpg Hsh Hst.
  inversion Hst as [? ? p ? Hk Hp0|? ? ? Hk|? ? own1 p own2 Hk|? ? ? p x v Hin Hx Hk]; subst.
  - pose proof (kshare_alloc _ _ _ _ Hsh) as H. destruct free as [|q free]; [congruence|].
    destruct H as (s1 & Hrun & Hsh'). assert (p = q /\ s' = s1) as [-> ->] by (split; congruence). eauto.
  - pose proof (kshare_alloc _ _ _ _ Hsh) as H. destruct free as [|q free].
    + assert (s' = s) as -> by congruence. eauto.
    + destruct H as (s1 & Hrun & Hsh'). assert (q = 0) as -> by congruence. exfalso.
      pose proof (k_pages _ _ (sh_inv _ _ _ _ Hsh)) as [(_ & Hr & _) _]%Forall_cons. lia.
  - destruct (kshare_free _ _ _ _ _ _ Hnd Hpg Hsh) as (s1 & Hrun & Hsh').
    assert (s' = s1) as -> by congruence. eauto.
  - destruct (kshare_disjoint _ _ _ _ Hnd Hsh) as (_ & _ & Hdis). destruct Hsh as [[Hl Hn Hp] Hall Hmap]. exists free.
    assert (Hpa : p ∈ all) by (rewrite <- Hall; set_solver).
    unfold on_mem, zoom in Hk. rewrite (st8_ok _ _ _ (Hmap p Hpa x Hx)) in Hk. injection Hk as <-.
    split; [split; [|done..]|done|].
    + eapply flist_frame; [|exact Hl]. intros q y Hq Hy. cbn [kbytes setf]. apply lookup_insert_ne.
      rewrite Forall_forall in Hp, Hpg. assert (p <> q) by (intros ->; by apply (Hdis q)).
      destruct (page_apart p q (Hpg p Hpa) (Hp q Hq) ltac:(done)); lia.
    + intros q Hq. apply (mapped_write _ _ _ x [u8 v]). by apply Hmap.
Qed.

Lemma kshare_reachable all s0 s own : kinv s0 all -> (forall p, p ∈ all -> mapped (kbytes s0) p PGSIZE) ->
  rtc kstep (s0, []) (s, own) -> exists free, kshare all s own free.
Proof.
  intros Hinv Hmap Hr. assert (H0 : exists free, kshare all s0 [] free).
  { exists all. split; [done|by rewrite app_nil_r|done]. }
  destruct Hinv as [_ Hnd Hpg].
  assert (Hgen : forall x y, rtc kstep x y -> (exists free, kshare all x.1 x.2 free) -> exists free, kshare all y.1 y.2 free).
  { induction 1 as [|[a b] [c d] z Hs _ IH]; [done|]. intros [free Hf]. apply IH. cbn in *. by eapply kstep_share. }
  exact (Hgen _ _ Hr H0).
Qed.

(** C10. Pages are never shared and never lost: whatever the clients do within their
    pages, the pages they own are distinct; an allocation gives a page that
    nobody owns, and fails only when every page is owned; every owned page can be
    given back. *)
Theorem pages_never_shared all s0 s own :
  kinv s0 all -> (forall p, p ∈ all -> mapped (kbytes s0) p PGSIZE) -> rtc kstep (s0, []) (s, own) ->
  NoDup own /\ own ⊆ all /\
  (exists p s', kalloc s = Ret p s' /\ ((p = 0 /\ own ≡ₚ all) \/ (p ∈ all /\ p ∉ own))) /\
  (forall p, p ∈ own -> exists s', kfree p s = Ret tt s').
Proof.
  intros Hinv Hmap Hr. destruct (kshare_reachable _ _ _ _ Hinv Hmap Hr) as [free Hsh].
  destruct Hinv as [_ Hnd Hpg]. destruct (kshare_disjoint _ _ _ _ Hnd Hsh) as (Hno & Hnf & Hdis).
  split; [done|]. split; [intros p Hp; rewrite <- (sh_all _ _ _ _ Hsh); set_solver|]. split.
  - pose proof (kshare_alloc _ _ _ _ Hsh) as H. destruct free as [|p free].
    + exists 0, s. split; [done|]. left. split; [done|]. by rewrite <- (sh_all _ _ _ _ Hsh).
    + destruct H as (s' & Hrun & _). exists p, s'. split; [done|]. right. split.
      * rewrite <- (sh_all _ _ _ _ Hsh). set_solver.
      * intros Hp. apply (Hdis p Hp). by left.
  - intros p Hp. apply list_elem_of_split in Hp as (own1 & own2 & ->).
    destruct (kshare_free _ _ _ _ _ _ Hnd Hpg Hsh) as (s' & Hrun & _). by exists s'.
Qed.

(** ** Initialisation *)

Lemma freerange_pages ps : forall s free, kinv s free -> NoDup ps -> Forall page ps ->
  (forall p, p ∈ ps -> p ∉ free /\ mapped (kbytes s) p PGSIZE) ->
  exists s', for_each ps kfree s = Ret tt s' /\ kinv s' (rev ps ++ free) /\ use_lock s' = use_lock s.
Proof.
  induction ps as [|p ps IH]; intros s free Hinv Hnd Hpg Hp; [by exists s|].
  apply NoDup_cons in Hnd as [Hnew Hnd]. apply Forall_cons in Hpg as [Hpp Hpg].
  destruct (Hp p ltac:(by left)) as [Hnf Hm].
  destruct (kfree_ok s free p Hinv Hpp Hnf Hm) as (b & Hrun & Hinv' & _ & Hout & _).
  cbn [for_each]. rewrite (bind_ret _ _ _ _ _ Hrun).
  destruct (IH _ (p :: free) Hinv' Hnd Hpg) as (s' & Hrun' & Hinv'' & Hu).
  { intros q Hq. destruct (Hp q ltac:(by right)) as [Hqf Hqm]. split; [set_solver|].
    intros x Hx. cbn [kbytes freelist setf]. rewrite Forall_forall in Hpg. assert (q <> p) by congruence.
    destruct (page_apart q p (Hpg q Hq) Hpp ltac:(done)); rewrite Hout by lia; by apply Hqm. }
  exists s'. split; [done|]. cbn [rev]. rewrite <- app_assoc. by split.
Qed.


Lemma PGROUNDUP_eq a : 0 <= a <= 2 ^ 32 - PGSIZE -> PGROUNDUP a = (a + PGSIZE - 1) / PGSIZE * PGSIZE.
Proof.
  intros Ha. unfold PGROUNDUP, PGSIZE in *.
  rewrite u32_small by lia. change (Z.lnot (4096 - 1)) with (Z.lnot (Z.ones 12)). by rewrite land_lnot_ones.
Qed.

(** [freerange] visits the pages that lie in the range. *)
Lemma pages_between_spec vstart vend p : 0 <= vstart <= 2 ^ 32 - PGSIZE ->
  p ∈ pages_between vstart vend <-> p mod PGSIZE = 0 /\ vstart <= p /\ p + PGSIZE <= vend.
Proof.
  intros Hv. unfold pages_between. rewrite (PGROUNDUP_eq vstart Hv). cbv zeta. unfold PGSIZE in *.
  set (q := (vstart + 4096 - 1) / 4096). rewrite list_elem_of_fmap. split.
  - intros (i & -> & Hi%elem_of_seqZ). split_and!; [|unfold q in *; zlia..].
    by rewrite <- Z.mul_add_distr_r, Z.mod_mul by lia.
  - intros (H1 & H2 & H3). exists (p / 4096 - q). split; [|apply elem_of_seqZ]; unfold q in *; zlia.
Qed.

Lemma pages_between_nodup vstart vend : NoDup (pages_between vstart vend).
Proof.
  unfold pages_between. apply NoDup_fmap; [|apply NoDup_seqZ]. intros i j. unfold PGSIZE. lia.
Qed.

Lemma kinit1_ok s vstart vend :
  freelist s = 0 -> KERNBASE <= kend -> kend <= vstart -> vstart <= vend <= KERNBASE + PHYSTOP ->
  mapped (kbytes s) vstart (vend - vstart) ->
  exists s', kinit1 vstart vend s = Ret tt s' /\ kinv s' (rev (pages_between vstart vend)).
Proof.
  intros Hf Hk Hs He Hm. unfold kinit1. erewrite bind_ret; [|reflexivity].
  assert (Hr : 0 <= vstart <= 2 ^ 32 - PGSIZE) by (unfold KERNBASE, PHYSTOP, PGSIZE in *; lia).
  destruct (freerange_pages (pages_between vstart vend) (s <| use_lock := false |>) []) as (s' & Hrun & Hinv & _).
  - split; [exact Hf|constructor|constructor].
  - apply pages_between_nodup.
  - apply Forall_forall. intros p (H1 & H2 & H3)%(pages_between_spec _ _ _ Hr).
    unfold page, V2P, KERNBASE, PHYSTOP, PGSIZE in *. rewrite u32_small by lia. lia.
  - intros p (H1 & H2 & H3)%(pages_between_spec _ _ _ Hr). split; [apply not_elem_of_nil|].
    cbn [kbytes setf]. apply (mapped_sub _ _ _ _ _ Hm); lia.
  - exists s'. rewrite app_nil_r in Hinv. by split.
Qed.

(** After [kinit1] the free list holds exactly the pages that lie between the
    two addresses, each once. *)
Theorem kinit_frees_the_range s vstart vend :
  freelist s = 0 -> KERNBASE <= kend -> kend <= vstart -> vstart <= vend <= KERNBASE + PHYSTOP ->
  mapped (kbytes s) vstart (vend - vstart) ->
  exists s' free, kinit1 vstart vend s = Ret tt s' /\ kinv s' free /\
    forall p, p ∈ free <-> p mod PGSIZE = 0 /\ vstart <= p /\ p + PGSIZE <= vend.
Proof.
  intros Hf Hk Hs He Hm. destruct (kinit1_ok s vstart vend Hf Hk Hs He Hm) as (s' & Hrun & Hinv).
  exists s', (rev (pages_between vstart vend)). split_and!; [done..|]. intros p.
  rewrite <- pages_between_spec by (unfold KERNBASE, PHYSTOP, PGSIZE in *; lia).
  rewrite !list_elem_of_In. symmetry. apply in_rev.
Qed.

End Kalloc.

(** Three pages of memory from 0x80400100 on, of which two are whole. *)
Definition demo_kmem : kmem := Kmem false 0 (mem_of 0x80400100 (replicate (Z.to_nat 12288) 0)).

Lemma demo_kmem_mapped : mapped (kbytes demo_kmem) 0x80400100 (0x80403100 - 0x80400100).
Proof. apply mem_of_mapped; [lia|]. rewrite length_replicate. lia. Qed.

Lemma kinit_frees_the_range_witness :
  exists s' free, kinit1 0x80400100 0x80400100 0x80403100 demo_kmem = Ret tt s' /\ kinv 0x80400100 s' free /\
    0x80402000 ∈ free.
Proof.
  destruct (kinit_frees_the_range 0x80400100 demo_kmem 0x80400100 0x80403100) as (s' & free & Hrun & Hinv & Hin);
    [reflexivity|unfold KERNBASE; lia|lia|unfold KERNBASE, PHYSTOP; lia|exact demo_kmem_mapped|].
  exists s', free. split; [exact Hrun|]. split; [exact Hinv|]. apply Hin. unfold PGSIZE. split; [reflexivity|lia].
Defined.

(** One free page, at 0x80401000; it is allocated, and there is no other. *)
Definition one_page : kmem := Kmem true 0x80401000 (mem_of 0x80401000 (replicate 4096 0)).

Lemma one_page_inv : kinv 0x80400000 one_page [0x80401000].
Proof.
  split; [|apply NoDup_singleton|].
  - split; [done|]. exists 0. split_and!; [by split|..]; [|done].
    change (le32 0) with (replicate 4 0). pose proof (mem_of_at 0x80401000 (replicate 4096 0)) as H.
    change 4096%nat with (4 + 4092)%nat in H. rewrite replicate_add in H. by apply bytes_at_app in H as [H _].
  - constructor; [|constructor]. unfold page, V2P, PGSIZE, PHYSTOP, KERNBASE. split; [done|]. rewrite u32_small; lia.
Qed.

Lemma pages_never_shared_witness :
  exists s p s', rtc (kstep 0x80400000) (one_page, []) (s, [0x80401000]) /\ kalloc s = Ret p s' /\ p = 0.
Proof.
  pose proof (kalloc_ok 0x80400000 one_page _ one_page_inv) as (next & Hrun & _).
  assert (Hr : rtc (kstep 0x80400000) (one_page, []) (one_page <| freelist := next |>, [0x80401000])).
  { eapply rtc_once. by apply ks_alloc. }
  destruct (pages_never_shared 0x80400000 [0x80401000] one_page _ _ one_page_inv
              ltac:(intros p ->%list_elem_of_singleton; apply mem_of_mapped; rewrite ?length_replicate; unfold PGSIZE; lia) Hr)
    as (_ & _ & (p & s' & Hk & H) & _).
  exists (one_page <| freelist := next |>), p, s'. split; [exact Hr|]. split; [exact Hk|].
  destruct H as [[H _]|[Hin Hnot]]; [exact H|]. by destruct (Hnot Hin).
Defined.
