(* ===== verification/Pipe.v ===== *)
(** * Pipe: pipe.c

    A pipe is a ring of 512 bytes with free-running counters (Ring.v) and a flag
    for each end.  [pipewrite] and [piperead] are cut at [sleep]: a leg runs from
    taking p->lock, or from waking up, to releasing it or to going to sleep, and
    is atomic.  A leg that ends in [sleep] says what is left to do; after the
    wakeup the loop goes on with that.  The calls of [wakeup] and [kfree] are
    entries of the trace [pcalls].  [pipealloc] is in File.v. *)

From S2P Require Import Prelude Ring.

Definition PIPESIZE : Z := 512.

Inductive pcall := WakeNread | WakeNwrite | FreePipe.

Record pipe := Pipe {
  pdata : list Z; nread : Z; nwrite : Z; readopen : bool; writeopen : bool; pcalls : list pcall
}.
#[export] Instance eta_pipe : Eta pipe := fun r =>
  Pipe (pdata r) (nread r) (nwrite r) (readopen r) (writeopen r) (pcalls r).

Definition note_call (c : pcall) : M pipe unit := modify (fun s => s <| pcalls ::= cons c |>).

Definition pipeclose (writable : bool) : M pipe unit :=
  (if writable then modify (fun s => s <| writeopen := false |>);; note_call WakeNread
   else modify (fun s => s <| readopen := false |>);; note_call WakeNwrite);;
  s ← gets (fun s => s);
  if negb (readopen s) && negb (writeopen s) then note_call FreePipe else mret tt.

(** How a leg of [pipewrite] ends: all written, -1, or asleep on [&p->nwrite]
    with these bytes left. *)
Inductive write_end := WroteAll | WriteFailed | WriteSleeps (rest : list Z).

Fixpoint pipewrite (addr : list Z) (killed : bool) : M pipe write_end :=
  match addr with
  | [] => note_call WakeNread;; mret WroteAll
  | b :: addr' =>
      s ← gets (fun s => s);
      if nwrite s =? u32 (nread s + PIPESIZE) then
        if negb (readopen s) || killed then mret WriteFailed
        else note_call WakeNread;; mret (WriteSleeps addr)
      else
        _ ← deref (aget (pdata s) (nwrite s mod PIPESIZE));
        modify (fun s => s <| pdata := aset (pdata s) (nwrite s mod PIPESIZE) b |>
                           <| nwrite ::= fun n => u32 (n + 1) |>);;
        pipewrite addr' killed
  end.

(** [for(i = 0; i < n; i++){ if(p->nread == p->nwrite) break; ... }] *)
Fixpoint pipe_copy (n : nat) : M pipe (list Z) :=
  match n with
  | O => mret []
  | S n =>
      s ← gets (fun s => s);
      if nread s =? nwrite s then mret []
      else
        b ← deref (aget (pdata s) (nread s mod PIPESIZE));
        modify (fun s => s <| nread ::= fun r => u32 (r + 1) |>);;
        l ← pipe_copy n;
        mret (b :: l)
  end.

Inductive pread_end := ReadBytes (l : list Z) | ReadFailed | ReadSleeps.

Definition piperead (n : Z) (killed : bool) : M pipe pread_end :=
  s ← gets (fun s => s);
  if (nread s =? nwrite s) && writeopen s then
    mret (if killed then ReadFailed else ReadSleeps)
  else
    l ← pipe_copy (Z.to_nat n);
    note_call WakeNwrite;;
    mret (ReadBytes l).

(** ** The pipe as a queue *)

Record pipe_abs (s : pipe) (q : list Z) (ro wo : bool) : Prop := {
  pa_ring : ring PIPESIZE (pdata s) (nread s) (nwrite s) q;
  pa_ro : readopen s = ro;
  pa_wo : writeopen s = wo
}.

Lemma pipe_bounds : 0 < PIPESIZE < 2 ^ 31.
Proof. done. Qed.
Lemma pipe_divides : (PIPESIZE | 2 ^ 32).
Proof. by exists (2 ^ 23). Qed.
#[local] Hint Resolve pipe_bounds pipe_divides : core.

(** Room in the buffer. *)
Definition room (q : list Z) : nat := Z.to_nat PIPESIZE - length q.

Definition spec_write (addr : list Z) (ro killed : bool) (q : list Z) : write_end * list Z :=
  if bool_decide (length addr <= room q)%nat then (WroteAll, q ++ addr)
  else (if negb ro || killed then WriteFailed else WriteSleeps (drop (room q) addr), q ++ take (room q) addr).

Lemma pipewrite_ok addr killed ro wo : forall s q, pipe_abs s q ro wo ->
  exists s', pipewrite addr killed s = Ret (spec_write addr ro killed q).1 s' /\
    pipe_abs s' (spec_write addr ro killed q).2 ro wo.
Proof.
  induction addr as [|b addr IH]; intros s q [Hr Hro Hwo].
  { eexists. split; [reflexivity|]. unfold spec_write. rewrite bool_decide_eq_true_2 by (cbn; lia).
    cbn [snd]. rewrite app_nil_r. by split. }
  cbn [pipewrite]. rewrite (bind_ret (gets (fun s => s)) _ _ _ _ eq_refl).
  pose proof (ring_fits _ _ _ _ _ Hr) as Hf. pose proof (ring_full _ pipe_bounds pipe_divides _ _ _ _ Hr) as Hfull.
  destruct (Z.eqb_spec (nwrite s) (u32 (nread s + PIPESIZE))) as [E|E].
  - apply Hfull in E. assert (Hroom : room q = 0%nat) by (unfold room; lia).
    unfold spec_write. rewrite Hroom, bool_decide_eq_false_2 by (cbn; lia). cbn [fst snd take drop firstn skipn].
    rewrite app_nil_r, Hro. destruct (negb ro || killed); eexists; (split; [reflexivity|]); by split.
  - assert (Hlt : Z.of_nat (length q) < PIPESIZE) by (assert (Z.of_nat (length q) <> PIPESIZE) by (intros H; by apply E, Hfull); lia).
    destruct (ring_push _ pipe_bounds pipe_divides _ _ _ _ b Hr Hlt) as [[old Hold] Hr'].
    rewrite Hold. cbn [deref]. rewrite ret_bind. erewrite bind_ret; [|reflexivity].
    set (s1 := s <| pdata := _ |> <| nwrite ::= _ |>).
    destruct (IH s1 (q ++ [b])) as (s' & Hrun & Habs); [by split|]. exists s'. rewrite Hrun.
    assert (Hspec : spec_write addr ro killed (q ++ [b]) = spec_write (b :: addr) ro killed q).
    { unfold spec_write. assert (Hrm : room q = S (room (q ++ [b]))) by (unfold room; rewrite length_app; cbn; lia).
      rewrite Hrm. cbn [length take drop firstn skipn]. rewrite <- !app_assoc. cbn [app].
      rewrite (bool_decide_ext (S (length addr) <= S (room (q ++ [b])))%nat (length addr <= room (q ++ [b]))%nat) by lia.
      done. }
    by rewrite <- Hspec.
Qed.

Lemma pipe_copy_ok n ro wo : forall s q, pipe_abs s q ro wo ->
  exists s', pipe_copy n s = Ret (take n q) s' /\ pipe_abs s' (drop n q) ro wo.
Proof.
  induction n as [|n IH]; intros s q [Hr Hro Hwo]; [by exists s|].
  cbn [pipe_copy]. rewrite (bind_ret (gets (fun s => s)) _ _ _ _ eq_refl).
  pose proof (ring_empty _ pipe_bounds _ _ _ _ Hr) as He.
  destruct (Z.eqb_spec (nread s) (nwrite s)) as [E|E].
  - assert (q = []) as -> by (by apply He). exists s. split; [done|by split].
  - destruct q as [|b q]; [by destruct E; symmetry; apply He|].
    destruct (ring_head _ pipe_bounds pipe_divides _ _ _ _ _ Hr) as [Hb Hr'].
    rewrite Hb. cbn [deref]. rewrite ret_bind. erewrite bind_ret; [|reflexivity].
    destruct (IH (s <| nread ::= fun r => u32 (r + 1) |>) q) as (s' & Hrun & Habs); [by split|].
    exists s'. by rewrite (bind_ret _ _ _ _ _ Hrun).
Qed.

Definition spec_pread (n : Z) (wo killed : bool) (q : list Z) : pread_end * list Z :=
  if bool_decide (q = []) && wo then (if killed then ReadFailed else ReadSleeps, q)
  else (ReadBytes (take (Z.to_nat n) q), drop (Z.to_nat n) q).

Lemma piperead_ok n killed s q ro wo : pipe_abs s q ro wo ->
  exists s', piperead n killed s = Ret (spec_pread n wo killed q).1 s' /\
    pipe_abs s' (spec_pread n wo killed q).2 ro wo.
Proof.
  intros Ha. destruct (Ha) as [Hr Hro Hwo]. unfold piperead, spec_pread.
  rewrite (bind_ret (gets (fun s => s)) _ _ _ _ eq_refl).
  assert (Heq : (nread s =? nwrite s) = bool_decide (q = [])).
  { apply eq_true_iff_eq. rewrite Z.eqb_eq, bool_decide_eq_true, <- (ring_empty _ pipe_bounds _ _ _ _ Hr). done. }
  rewrite Heq, Hwo. destruct (bool_decide (q = []) && wo); [by exists s|].
  destruct (pipe_copy_ok (Z.to_nat n) ro wo s q Ha) as (s1 & Hrun & Ha1). rewrite (bind_ret _ _ _ _ _ Hrun).
  eexists. split; [reflexivity|]. destruct Ha1. by split.
Qed.

(** ** Interleaved readers and writers *)

Inductive pipe_op := OpWrite (l : list Z) (killed : bool) | OpRead (n : Z) (killed : bool) | OpClose (writable : bool).
Inductive pipe_out := OutW (e : write_end) | OutR (e : pread_end) | OutC.

Definition pipe_leg (o : pipe_op) : M pipe pipe_out :=
  match o with
  | OpWrite l k => e ← pipewrite l k; mret (OutW e)
  | OpRead n k => e ← piperead n k; mret (OutR e)
  | OpClose w => pipeclose w;; mret OutC
  end.

(** A leg with the number of bytes it has stored, which is how far it has moved
    [nwrite]: a write that is cut short returns -1 and does not say. *)
Definition counted_leg (o : pipe_op) : M pipe (pipe_out * nat) :=
  s ← gets (fun s => s);
  r ← pipe_leg o;
  s' ← gets (fun s => s);
  mret (r, Z.to_nat (u32 (nwrite s' - nwrite s))).

Fixpoint pipe_run (os : list pipe_op) : M pipe (list (pipe_out * nat)) :=
  match os with
  | [] => mret []
  | o :: os => r ← counted_leg o; l ← pipe_run os; mret (r :: l)
  end.

(** The bytes that a leg has put into the pipe, and those it has delivered. *)
Definition put_in (o : pipe_op) (r : pipe_out * nat) : list Z :=
  match o with OpWrite l _ => take r.2 l | _ => [] end.
Definition got_out (r : pipe_out * nat) : list Z := match r.1 with OutR (ReadBytes l) => l | _ => [] end.

(** How the end of a leg goes with the number of bytes it stored: a write that
    returns its length has stored all, one that sleeps has the others left, and
    one that fails has stored fewer than asked. *)
Definition reports (o : pipe_op) (r : pipe_out * nat) : Prop :=
  match o, r with
  | OpWrite l _, (OutW WroteAll, n) => n = length l
  | OpWrite l _, (OutW (WriteSleeps rest), n) => rest = drop n l /\ (n < length l)%nat
  | OpWrite l _, (OutW WriteFailed, n) => (n < length l)%nat
  | OpRead _ _, (OutR _, n) | OpClose _, (OutC, n) => n = 0%nat
  | _, _ => False
  end.

Definition same_nread (s s' : pipe) : Prop := nread s' = nread s.
Definition same_nwrite (s s' : pipe) : Prop := nwrite s' = nwrite s.
#[local] Instance same_nread_preorder : PreOrder same_nread.
Proof. split; unfold same_nread; [intros s|intros s1 s2 s3]; congruence. Qed.
#[local] Instance same_nwrite_preorder : PreOrder same_nwrite.
Proof. split; unfold same_nwrite; [intros s|intros s1 s2 s3]; congruence. Qed.

Lemma pipewrite_nread l k : keeps same_nread (pipewrite l k).
Proof. induction l as [|b l IH]; cbn [pipewrite]; unfold note_call; keeps_auto; try (by apply keeps_modify); done. Qed.

Lemma pipe_copy_nwrite n : keeps same_nwrite (pipe_copy n).
Proof. induction n as [|n IH]; cbn [pipe_copy]; keeps_auto; try (by apply keeps_modify); done. Qed.

Lemma piperead_nwrite n k : keeps same_nwrite (piperead n k).
Proof. unfold piperead, note_call. keeps_auto; [apply pipe_copy_nwrite|by apply keeps_modify]. Qed.

Lemma ring_added (s s' : pipe) q l ro wo ro' wo' :
  pipe_abs s q ro wo -> pipe_abs s' (q ++ l) ro' wo' -> nread s' = nread s ->
  Z.to_nat (u32 (nwrite s' - nwrite s)) = length l.
Proof.
  intros [Hr _ _] [Hr' _ _] E. pose proof (ring_fits _ _ _ _ _ Hr') as Hf. rewrite length_app in Hf. unfold PIPESIZE in Hf.
  rewrite (ring_e _ _ _ _ _ Hr), (ring_e _ _ _ _ _ Hr'), E, length_app. unfold u32.
  rewrite Zminus_mod_idemp_l, Zminus_mod_idemp_r.
  replace (nread s + Z.of_nat (length q + length l) - (nread s + Z.of_nat (length q))) with (Z.of_nat (length l)) by lia.
  rewrite Z.mod_small by lia. apply Nat2Z.id.
Qed.

Lemma counted_leg_eq o s r s' : pipe_leg o s = Ret r s' ->
  counted_leg o s = Ret (r, Z.to_nat (u32 (nwrite s' - nwrite s))) s'.
Proof.
  intros H. unfold counted_leg. rewrite (bind_ret (gets (fun s => s)) _ _ _ _ eq_refl), (bind_ret _ _ _ _ _ H).
  by rewrite (bind_ret (gets (fun s => s)) _ _ _ _ eq_refl).
Qed.

Lemma none_added (s s' : pipe) : nwrite s' = nwrite s -> Z.to_nat (u32 (nwrite s' - nwrite s)) = 0%nat.
Proof. intros ->. by rewrite Z.sub_diag. Qed.

Lemma write_leg_ok l k s q ro wo : pipe_abs s q ro wo ->
  exists e n s', counted_leg (OpWrite l k) s = Ret (OutW e, n) s' /\ pipe_abs s' (q ++ take n l) ro wo /\
    reports (OpWrite l k) (OutW e, n) /\
    (forall rest, e = WriteSleeps rest -> ro = true /\ Z.of_nat (length (q ++ take n l)) = PIPESIZE).
Proof.
  intros Ha. pose proof (ring_fits _ _ _ _ _ (pa_ring _ _ _ _ Ha)) as Hf. unfold PIPESIZE in Hf.
  destruct (pipewrite_ok l k ro wo s q Ha) as (s' & Hrun & Ha'). pose proof (pipewrite_nread _ _ _ _ _ Hrun) as Hn. unfold same_nread in Hn.
  assert (Hleg : pipe_leg (OpWrite l k) s = Ret (OutW (spec_write l ro k q).1) s').
  { cbn [pipe_leg]. by rewrite (bind_ret _ _ _ _ _ Hrun). }
  rewrite (counted_leg_eq _ _ _ _ Hleg). clear Hrun Hleg. unfold spec_write in *. case_bool_decide as Hfit; cbn [fst snd] in *.
  - rewrite (ring_added _ _ _ _ _ _ _ _ Ha Ha' Hn). eexists _, _, s'. split; [reflexivity|].
    rewrite take_ge by lia. by split_and!.
  - rewrite (ring_added _ _ _ _ _ _ _ _ Ha Ha' Hn). rewrite length_take.
    replace (room q `min` length l)%nat with (room q) by lia. eexists _, _, s'. split; [reflexivity|]. split; [exact Ha'|].
    destruct (negb ro || k) eqn:Hk; cbn [reports].
    + split; [lia|done].
    + split; [split; [done|lia]|]. intros rest [= <-]. apply orb_false_iff in Hk as [Hro _].
      split; [by destruct ro|]. rewrite length_app, length_take. unfold room, PIPESIZE in *. lia.
Qed.

Lemma read_leg_ok n k s q ro wo : pipe_abs s q ro wo ->
  exists s', counted_leg (OpRead n k) s = Ret (OutR (spec_pread n wo k q).1, 0%nat) s' /\
    pipe_abs s' (spec_pread n wo k q).2 ro wo.
Proof.
  intros Ha. destruct (piperead_ok n k s q ro wo Ha) as (s' & Hrun & Ha'). exists s'. split; [|exact Ha'].
  pose proof (piperead_nwrite _ _ _ _ _ Hrun) as Hw. unfold same_nwrite in Hw.
  rewrite (counted_leg_eq _ _ (OutR (spec_pread n wo k q).1) s'); [by rewrite none_added|].
  cbn [pipe_leg]. by rewrite (bind_ret _ _ _ _ _ Hrun).
Qed.

Lemma close_leg_ok w s q ro wo : pipe_abs s q ro wo ->
  exists s' ro' wo', counted_leg (OpClose w) s = Ret (OutC, 0%nat) s' /\ pipe_abs s' q ro' wo'.
Proof.
  intros [Hr Hro Hwo].
  assert (Hgo : exists s', pipeclose w s = Ret tt s' /\ pdata s' = pdata s /\ nread s' = nread s /\ nwrite s' = nwrite s).
  { unfold pipeclose. destruct w; unfold note_call; msimp;
      match goal with |- context [if ?b then _ else _] => destruct b end; eexists; (split; [reflexivity|]); done. }
  destruct Hgo as (s' & Hrun & Hd & Hnr & Hnw). exists s', (readopen s'), (writeopen s'). split.
  - rewrite (counted_leg_eq _ _ OutC s'); [by rewrite none_added|]. cbn [pipe_leg]. by rewrite (bind_ret _ _ _ _ _ Hrun).
  - split; [by rewrite Hd, Hnr, Hnw|done|done].
Qed.

Lemma pipe_leg_ok o s q ro wo : pipe_abs s q ro wo ->
  exists r s' q' ro' wo', counted_leg o s = Ret r s' /\ pipe_abs s' q' ro' wo' /\
    reports o r /\ q ++ put_in o r = got_out r ++ q'.
Proof.
  intros Ha. destruct o as [l k|n k|w].
  - destruct (write_leg_ok l k s q ro wo Ha) as (e & n & s' & Hrun & Ha' & Hrep & _).
    exists (OutW e, n), s', (q ++ take n l), ro, wo. by split_and!.
  - destruct (read_leg_ok n k s q ro wo Ha) as (s' & Hrun & Ha'). eexists _, s', _, ro, wo. split; [exact Hrun|].
    split; [exact Ha'|]. split; [done|]. cbn [put_in]. rewrite app_nil_r. unfold spec_pread.
    destruct (bool_decide (q = []) && wo); cbn; [by destruct k|by rewrite take_drop].
  - destruct (close_leg_ok w s q ro wo Ha) as (s' & ro' & wo' & Hrun & Ha'). eexists _, s', q, ro', wo'.
    split; [exact Hrun|]. split; [exact Ha'|]. split; [done|]. cbn. by rewrite app_nil_r.
Qed.

(** C24. The pipe is a stream: in every interleaving of legs of readers, writers and
    closers, killed ones and writes without a reader included, the bytes delivered
    to the readers, in order, followed by what is still in the buffer, are the
    bytes the writers put in, in order; nothing is lost, repeated or reordered,
    and no leg faults.  A write that fails has put in the bytes it stored before
    it found the buffer full, and the others not. *)
Theorem pipe_is_a_stream os s q ro wo :
  pipe_abs s q ro wo ->
  exists outs s' q' ro' wo', pipe_run os s = Ret outs s' /\ pipe_abs s' q' ro' wo' /\ Forall2 reports os outs /\
    q ++ concat (zip_with put_in os outs) = concat (map got_out outs) ++ q'.
Proof.
  revert s q ro wo. induction os as [|o os IH]; intros s q ro wo Ha.
  { exists [], s, q, ro, wo. split_and!; [done|done|constructor|]. cbn. by rewrite app_nil_r. }
  destruct (pipe_leg_ok o s q ro wo Ha) as (r & s1 & q1 & ro1 & wo1 & Hrun & Ha1 & Hrep & Hq).
  destruct (IH s1 q1 ro1 wo1 Ha1) as (outs & s' & q' & ro' & wo' & Hrun' & Ha' & Hreps & Hs).
  exists (r :: outs), s', q', ro', wo'. cbn [pipe_run].
  rewrite (bind_ret _ _ _ _ _ Hrun), (bind_ret _ _ _ _ _ Hrun'). split_and!; [done|done|by constructor|].
  cbn. rewrite app_assoc, Hq, <- !app_assoc. f_equal. exact Hs.
Qed.

(** When a leg of a pipe goes to sleep and when a read sees the end of the
    stream: a writer sleeps only with the buffer full and a reader left; a reader
    sleeps only with the buffer empty and the write end open; a read of at least
    a byte returns none exactly when the buffer is empty and the write end
    closed. *)
Theorem pipe_blocking o s q ro wo :
  pipe_abs s q ro wo ->
  exists r s' q' ro' wo', counted_leg o s = Ret r s' /\ pipe_abs s' q' ro' wo' /\
    (forall rest, r.1 = OutW (WriteSleeps rest) -> ro = true /\ Z.of_nat (length q') = PIPESIZE) /\
    (r.1 = OutR ReadSleeps -> q = [] /\ wo = true) /\
    (forall n k, o = OpRead n k -> 0 < n -> (r.1 = OutR (ReadBytes []) <-> q = [] /\ wo = false)).
Proof.
  intros Ha. destruct o as [l k|n k|w].
  - destruct (write_leg_ok l k s q ro wo Ha) as (e & n & s' & Hrun & Ha' & _ & Hs).
    eexists _, s', _, ro, wo. split; [exact Hrun|]. split; [exact Ha'|]. split_and!; [|done|done].
    intros rest [= ->]. by apply (Hs rest).
  - destruct (read_leg_ok n k s q ro wo Ha) as (s' & Hrun & Ha'). eexists _, s', _, ro, wo. split; [exact Hrun|].
    split; [exact Ha'|]. cbn [fst]. clear Hrun Ha'. unfold spec_pread.
    destruct (bool_decide (q = []) && wo) eqn:E; cbn [fst snd]; (split; [done|]).
    + apply andb_true_iff in E as [Hq%bool_decide_eq_true ->]. split; [done|].
      intros n0 k0 _ _. split; [by destruct k|]. by intros [_ ?].
    + split; [done|]. intros n0 k0 [= <- <-] Hn. split.
      * intros [= Ht]. assert (q = []) as ->; [|split; [done|by destruct wo]].
        destruct q; [done|]. destruct (Z.to_nat n) eqn:Hz; [lia|done].
      * intros [-> ->]. by rewrite take_nil.
  - destruct (close_leg_ok w s q ro wo Ha) as (s' & ro' & wo' & Hrun & Ha'). by eexists _, s', q, ro', wo'.
Qed.

(** An empty pipe whose counters are about to wrap around. *)
Definition demo_pipe : pipe := Pipe (replicate 512 0) (2 ^ 32 - 3) (2 ^ 32 - 3) true true [].

Lemma demo_pipe_abs : pipe_abs demo_pipe [] true true.
Proof. split; [|done|done]. apply ring_nil; [done|by vm_compute|split; by vm_compute]. Qed.

(** The second write is by a killed process: it fills the buffer and fails. *)
Definition demo_run : list pipe_op :=
  [OpWrite [1; 2; 3; 4; 5] false; OpRead 3 false; OpWrite (replicate 600 6) true; OpRead 3 false].

Lemma pipe_is_a_stream_witness :
  exists outs s' q', pipe_run demo_run demo_pipe = Ret outs s' /\ Forall2 reports demo_run outs /\
    [] ++ concat (zip_with put_in demo_run outs) = concat (map got_out outs) ++ q'.
Proof.
  destruct (pipe_is_a_stream demo_run demo_pipe [] true true demo_pipe_abs)
    as (outs & s' & q' & _ & _ & Hrun & _ & Hrep & Hq).
  exists outs, s', q'. split; [exact Hrun|]. split; [exact Hrep|exact Hq].
Defined.
