(* ===== verification/Log.v ===== *)
(** * Log: the redo log of log.c

    The log on top of the buffer cache.  The cache is used through its contract
    (proved of bio.c in Bio.v): [bread] delivers the current contents of a block,
    the modified copy if there is one and the disk's otherwise; [bwrite] writes a
    block to the disk; [log_write] pins a modified copy in memory.  The number of
    buffers is not represented: [bget] panics when all [NBUF] = 30 of them are in
    use or modified, this [bread] does not.  A log of 30 blocks, as mkfs makes it,
    never has more than 29 modified blocks, which the theorem on runs states; a
    larger log could have 30, and then the code panics.  The disk
    writes are recorded in order, so that a crash is a prefix of them: the disk
    keeps the writes that were done, and memory is lost.

    [begin_op] and [end_op] are the critical sections of log.lock; where the
    code sleeps the leg returns [false] and is run again after a wakeup. *)

From S2P Require Import Prelude Mem.

Definition LOGSIZE : Z := 30.
Definition MAXOPBLOCKS : Z := 10.
Definition BSIZE : nat := 512.

Notation block := (list Z).

(** ** Blocks *)

Record blk := Blk { ddisk : gmap Z block; dirty : gmap Z block; dwrites : list (Z * block) }.
#[export] Instance eta_blk : Eta blk := fun r => Blk (ddisk r) (dirty r) (dwrites r).

Definition bread (b : Z) : M blk block := fun s =>
  match dirty s !! b with
  | Some d => Ret d s
  | None => match ddisk s !! b with Some d => Ret d s | None => Panic "iderw: block out of range" end
  end.

Definition bwrite (b : Z) (d : block) : M blk unit := fun s =>
  match ddisk s !! b with
  | Some _ => Ret tt (s <| ddisk := <[b := d]> (ddisk s) |> <| dirty := delete b (dirty s) |>
                        <| dwrites := dwrites s ++ [(b, d)] |>)
  | None => Panic "iderw: block out of range"
  end.

(** ** Words in a block *)

Definition get32 (d : block) (off : nat) : option Z :=
  b0 ← d !! off; b1 ← d !! (off + 1)%nat; b2 ← d !! (off + 2)%nat; b3 ← d !! (off + 3)%nat;
  Some (b0 + 2 ^ 8 * b1 + 2 ^ 16 * b2 + 2 ^ 24 * b3).
Definition put32 (d : block) (off : nat) (v : Z) : block := list_inserts off (le32 v) d.

(** ** The log *)

Record log := Log {
  lblk : blk; lstart : Z; lsize : Z; ldev : Z; outstanding : Z; committing : bool;
  lh_n : Z; lh_block : list Z;   (* log.lh *)
  lwakes : nat                   (* wakeup(&log) *)
}.
#[export] Instance eta_log : Eta log := fun r =>
  Log (lblk r) (lstart r) (lsize r) (ldev r) (outstanding r) (committing r) (lh_n r) (lh_block r) (lwakes r).

Definition on_blk {A} (m : M blk A) : M log A := zoom lblk (fun b s => s <| lblk := b |>) m.

(** Copy committed blocks from log to their home location. *)
Definition install_one (tail : Z) : M log unit :=
  s ← gets (fun s => s);
  lbuf ← on_blk (bread (lstart s + tail + 1));
  b ← deref (aget (lh_block s) tail);
  dbuf ← on_blk (bread b);
  on_blk (bwrite b lbuf).
Definition install_trans : M log unit :=
  s ← gets (fun s => s);
  for_each (seqZ 0 (lh_n s)) install_one.

(** Read the log header from disk into the in-memory log header. *)
Definition read_head : M log unit :=
  s ← gets (fun s => s);
  buf ← on_blk (bread (lstart s));
  n ← deref (get32 buf 0);
  modify (fun s => s <| lh_n := s32 n |>);;
  for_each (seqZ 0 (s32 n)) (fun i =>
    v ← deref (get32 buf (4 + 4 * Z.to_nat i));
    s ← gets (fun s => s);
    _ ← deref (aget (lh_block s) i);
    modify (fun s => s <| lh_block := aset (lh_block s) i (s32 v) |>)).

(** What [write_head] makes of the header block. *)
Definition put_head (buf : block) (n : Z) (blocks : list Z) : block :=
  foldl (fun d i => put32 d (4 + 4 * i) (default 0 (blocks !! i))) (put32 buf 0 n) (seq 0 (Z.to_nat n)).
Definition write_head : M log unit :=
  s ← gets (fun s => s);
  buf ← on_blk (bread (lstart s));
  if Z.of_nat (length (lh_block s)) <? lh_n s then undef
  else on_blk (bwrite (lstart s) (put_head buf (lh_n s) (lh_block s))).

Definition recover_from_log : M log unit :=
  read_head;;
  install_trans;;
  modify (fun s => s <| lh_n := 0 |>);;
  write_head.

(** [initlog], given what [readsb] reads. *)
Definition initlog (dev sb_logstart sb_nlog : Z) : M log unit :=
  modify (fun s => s <| lstart := sb_logstart |> <| lsize := sb_nlog |> <| ldev := dev |>);;
  recover_from_log.

(** A leg of [begin_op]: [false] means that it sleeps on the log. *)
Definition begin_op : M log bool :=
  s ← gets (fun s => s);
  if committing s then mret false
  else if lh_n s + (outstanding s + 1) * MAXOPBLOCKS >? LOGSIZE then mret false
  else modify (fun s => s <| outstanding ::= fun n => s32 (n + 1) |>);; mret true.

(** Copy modified blocks from cache to log. *)
Definition write_log_one (tail : Z) : M log unit :=
  s ← gets (fun s => s);
  to ← on_blk (bread (lstart s + tail + 1));
  b ← deref (aget (lh_block s) tail);
  from ← on_blk (bread b);
  on_blk (bwrite (lstart s + tail + 1) from).
Definition write_log : M log unit :=
  s ← gets (fun s => s);
  for_each (seqZ 0 (lh_n s)) write_log_one.

Definition commit : M log unit :=
  s ← gets (fun s => s);
  if lh_n s >? 0 then
    write_log;;
    write_head;;
    install_trans;;
    modify (fun s => s <| lh_n := 0 |>);;
    write_head
  else mret tt.

Definition wakeup_log : M log unit := modify (fun s => s <| lwakes ::= S |>).

Definition end_op : M log unit :=
  modify (fun s => s <| outstanding ::= fun n => s32 (n - 1) |>);;
  s ← gets (fun s => s);
  if committing s then panic "log.committing"
  else if outstanding s =? 0 then
    modify (fun s => s <| committing := true |>);;
    commit;;
    modify (fun s => s <| committing := false |>);;
    wakeup_log
  else wakeup_log.

(** [log_write] of the buffer of block [b] with contents [data]. *)
Definition log_write (b : Z) (data : block) : M log unit :=
  s ← gets (fun s => s);
  if (lh_n s >=? LOGSIZE) || (lh_n s >=? lsize s - 1) then panic "too big a transaction"
  else if outstanding s <? 1 then panic "log_write outside of trans"
  else
    let i := match findi (Z.eqb b) (take (Z.to_nat (lh_n s)) (lh_block s)) with
             | Some i => Z.of_nat i | None => lh_n s end in
    _ ← deref (aget (lh_block s) i);
    modify (fun s => s <| lh_block := aset (lh_block s) i b |>);;
    (if i =? lh_n s then modify (fun s => s <| lh_n ::= fun n => s32 (n + 1) |>) else mret tt);;
    on_blk (modify (fun k => k <| dirty := <[b := data]> (dirty k) |>)).

(** ** Words *)

Lemma put32_length d off v : length (put32 d off v) = length d.
Proof. apply length_inserts. Qed.

Lemma get32_Some (d : list Z) o : (o + 4 <= length d)%nat -> exists v, get32 d o = Some v.
Proof.
  intros H. unfold get32. destruct (lookup_lt_is_Some_2 d o) as [? ->]; [lia|]. destruct (lookup_lt_is_Some_2 d (o + 1)) as [? ->]; [lia|].
  destruct (lookup_lt_is_Some_2 d (o + 2)) as [? ->]; [lia|]. destruct (lookup_lt_is_Some_2 d (o + 3)) as [? ->]; [lia|]. cbn. eauto.
Qed.

Lemma get32_put32_eq d off v : (off + 4 <= length d)%nat -> get32 (put32 d off v) off = Some (u32 v).
Proof.
  intros H. unfold get32, put32.
  rewrite !list_lookup_inserts by (cbn; lia).
  replace (off - off)%nat with 0%nat by lia. replace (off + 1 - off)%nat with 1%nat by lia.
  replace (off + 2 - off)%nat with 2%nat by lia. replace (off + 3 - off)%nat with 3%nat by lia.
  cbn [le32 lookup list_lookup mbind option_bind]. f_equal.
  unfold u8, u32. rewrite !Z.shiftr_div_pow2 by lia. zlia.
Qed.

Lemma get32_put32_ne d off off' v : (off + 4 <= off')%nat \/ (off' + 4 <= off)%nat ->
  get32 (put32 d off v) off' = get32 d off'.
Proof.
  intros H. unfold get32, put32.
  assert (Hx : forall k, (k < 4)%nat -> list_inserts off (le32 v) d !! (off' + k)%nat = d !! (off' + k)%nat).
  { intros k Hk. destruct (decide (off' + k < off)%nat); [by rewrite list_lookup_inserts_lt|].
    rewrite list_lookup_inserts_ge by (cbn; lia). done. }
  pose proof (Hx 0%nat ltac:(lia)) as H0. rewrite Nat.add_0_r in H0. by rewrite H0, !Hx by lia.
Qed.

(** The header block written for [n] blocks, and reading it back. *)
Lemma put_head_length buf n blocks : length (put_head buf n blocks) = length buf.
Proof.
  unfold put_head. assert (H : forall l d, length (foldl (fun d i => put32 d (4 + 4 * i) (default 0 (blocks !! i))) d l) = length d).
  { induction l as [|i l IH]; intros d; [done|]; cbn [foldl]. by rewrite IH, put32_length. }
  by rewrite H, put32_length.
Qed.

Lemma put_head_get buf n blocks : length buf = BSIZE -> 0 <= n <= LOGSIZE ->
  get32 (put_head buf n blocks) 0 = Some (u32 n) /\
  forall i, (i < Z.to_nat n)%nat -> get32 (put_head buf n blocks) (4 + 4 * i) = Some (u32 (default 0 (blocks !! i))).
Proof.
  intros Hb Hn. unfold LOGSIZE in Hn. unfold put_head.
  assert (H : forall k d, length d = BSIZE -> (k <= 30)%nat ->
    let d' := foldl (fun d i => put32 d (4 + 4 * i) (default 0 (blocks !! i))) d (seq 0 k) in
    get32 d' 0 = get32 d 0 /\ length d' = BSIZE /\
    forall i, (i < k)%nat -> get32 d' (4 + 4 * i) = Some (u32 (default 0 (blocks !! i)))).
  { induction k as [|k IH]; intros d Hd Hk; [split_and!; [done..|]; intros; lia|].
    cbv zeta. rewrite seq_S, foldl_app. cbn [foldl]. rewrite !Nat.add_0_l. destruct (IH d Hd ltac:(lia)) as (H0 & Hl & Hi).
    rewrite put32_length. split_and!; [rewrite get32_put32_ne by lia; done|done|].
    intros i Hik. destruct (decide (i = k)) as [->|Hne].
    - apply get32_put32_eq. rewrite Hl. unfold BSIZE. lia.
    - rewrite get32_put32_ne by lia. apply Hi. lia. }
  destruct (H (Z.to_nat n) (put32 buf 0 n)) as (H0 & _ & Hi); [by rewrite put32_length|lia|].
  split; [|done]. rewrite H0. apply get32_put32_eq. rewrite Hb. unfold BSIZE. lia.
Qed.

(** ** Disks and crashes *)

(** A disk after the writes [w]. *)
Definition apply_writes (w : list (Z * block)) (d : gmap Z block) : gmap Z block :=
  foldl (fun d '(b, v) => <[b := v]> d) d w.

Lemma apply_writes_app w1 w2 d : apply_writes (w1 ++ w2) d = apply_writes w2 (apply_writes w1 d).
Proof. apply foldl_app. Qed.

Lemma apply_writes_cons b v w d : apply_writes ((b, v) :: w) d = apply_writes w (<[b := v]> d).
Proof. done. Qed.

Lemma apply_writes_other w d b : b ∉ w.*1 -> apply_writes w d !! b = d !! b.
Proof.
  revert d. induction w as [|[b' v] w IH]; intros d Hb; [done|]. cbn in Hb. apply not_elem_of_cons in Hb as [Hne Hb].
  rewrite apply_writes_cons, IH by done. by apply lookup_insert_ne.
Qed.

Lemma apply_writes_in w d b v : NoDup w.*1 -> (b, v) ∈ w -> apply_writes w d !! b = Some v.
Proof.
  revert d. induction w as [|[b' v'] w IH]; intros d Hnd Hin; [by apply elem_of_nil in Hin|].
  cbn in Hnd. apply NoDup_cons in Hnd as [Hnew Hnd]. apply elem_of_cons in Hin as [[= -> ->]|Hin].
  - rewrite apply_writes_cons, apply_writes_other by done. apply lookup_insert_eq.
  - rewrite apply_writes_cons. by apply IH.
Qed.

(** The blocks of the disk; the log's place on it. *)
Definition disk_ok (size : Z) (d : gmap Z block) : Prop :=
  forall b, 0 <= b < size -> exists v, d !! b = Some v /\ length v = BSIZE.
Definition in_log (start size b : Z) : Prop := start <= b < start + size.

(** The header on the disk says that the log holds the blocks [bs]. *)
Definition head_says (d : gmap Z block) (start : Z) (bs : list Z) : Prop :=
  exists h, d !! start = Some h /\ length h = BSIZE /\ get32 h 0 = Some (Z.of_nat (length bs)) /\
    forall i b, bs !! i = Some b -> get32 h (4 + 4 * i) = Some b.

(** A machine that has just booted with this disk: nothing is cached. *)
Definition fresh (d : gmap Z block) (start size dev : Z) : log :=
  Log (Blk d ∅ []) start size dev 0 false 0 (replicate 30 0) 0.

Section Crash.
Context (start size N : Z).
Context (Hstart : 0 <= start) (Hsize : 1 <= size) (HN : start + size <= N) (HNmax : N < 2 ^ 31).

(** Blocks that may be in the log: on the disk, outside the log, no two alike. *)
Definition logged_ok (bs : list Z) : Prop :=
  NoDup bs /\ Forall (fun b => 0 <= b < N /\ ~ in_log start size b) bs /\
  Z.of_nat (length bs) <= LOGSIZE /\ Z.of_nat (length bs) < size.

(** [s] is the log with the disk [d] and the in-memory header [bs]. *)
Definition holds_head (s : log) (bs : list Z) : Prop :=
  lstart s = start /\ lh_n s = Z.of_nat (length bs) /\ length (lh_block s) = 30%nat /\
  take (length bs) (lh_block s) = bs.

Lemma holds_head_at s bs i b : holds_head s bs -> bs !! i = Some b -> aget (lh_block s) (Z.of_nat i) = Some b.
Proof.
  intros (_ & _ & _ & Ht) Hi. rewrite aget_nat. rewrite <- Ht in Hi. by apply lookup_take_Some in Hi as [? _].
Qed.

Lemma on_blk_bread_clean b s v : dirty (lblk s) !! b = None -> ddisk (lblk s) !! b = Some v ->
  on_blk (bread b) s = Ret v s.
Proof. intros H1 H2. unfold on_blk, zoom, bread. rewrite H1, H2. by destruct s. Qed.

Lemma on_blk_bread_dirty b s v : dirty (lblk s) !! b = Some v -> on_blk (bread b) s = Ret v s.
Proof. intros H1. unfold on_blk, zoom, bread. rewrite H1. by destruct s. Qed.

(** The log after more disk writes. *)
Definition wrote (w : list (Z * block)) (s : log) : log :=
  s <| lblk := Blk (apply_writes w (ddisk (lblk s))) (foldl (fun m '(b, _) => delete b m) (dirty (lblk s)) w)
                   (dwrites (lblk s) ++ w) |>.

Lemma wrote_nil s : wrote [] s = s.
Proof. destruct s as [[d m w]]. unfold wrote, setf. cbn. by rewrite app_nil_r. Qed.

Lemma wrote_app w1 w2 s : wrote (w1 ++ w2) s = wrote w2 (wrote w1 s).
Proof. unfold wrote, setf. cbn. by rewrite apply_writes_app, foldl_app, app_assoc. Qed.

Lemma on_blk_bwrite b v s : is_Some (ddisk (lblk s) !! b) -> on_blk (bwrite b v) s = Ret tt (wrote [(b, v)] s).
Proof. intros [w H]. unfold on_blk, zoom, bwrite. by rewrite H. Qed.

Lemma wrote_dirty w s b : dirty (lblk s) !! b = None -> dirty (lblk (wrote w s)) !! b = None.
Proof.
  unfold wrote. cbn. generalize (dirty (lblk s)). induction w as [|[b' v] w IH]; intros m Hm; [done|]. cbn. apply IH.
  destruct (decide (b = b')) as [->|]; [apply lookup_delete_eq|by rewrite lookup_delete_ne].
Qed.

Lemma wrote_mapped w s b : is_Some (ddisk (lblk s) !! b) -> is_Some (ddisk (lblk (wrote w s)) !! b).
Proof.
  unfold wrote. cbn. generalize (ddisk (lblk s)). induction w as [|[b' v] w IH]; intros m Hm; [done|]. cbn. apply IH.
  destruct (decide (b = b')) as [->|]; [by rewrite lookup_insert_eq|by rewrite lookup_insert_ne].
Qed.

(** A loop each round of which writes one block. *)
Lemma loop_writes (body : Z -> M log unit) (w : list (Z * block)) s :
  (forall i x, w !! i = Some x -> body (Z.of_nat i) (wrote (take i w) s) = Ret tt (wrote (take i w ++ [x]) s)) ->
  for_each (seqZ 0 (Z.of_nat (length w))) body s = Ret tt (wrote w s).
Proof.
  intros H. assert (Hk : forall k, (k <= length w)%nat ->
    for_each (seqZ 0 (Z.of_nat k)) body s = Ret tt (wrote (take k w) s)).
  { induction k as [|k IH]; intros Hk; [cbn; by rewrite wrote_nil|].
    replace (Z.of_nat (S k)) with (Z.of_nat k + 1) by lia. rewrite seqZ_app, for_each_app by lia.
    rewrite (bind_ret _ _ _ _ _ (IH ltac:(lia))).
    destruct (lookup_lt_is_Some_2 w k) as [x Hx]; [lia|]. rewrite (take_S_r _ _ _ Hx).
    rewrite seqZ_cons, seqZ_nil by lia. cbn [for_each]. rewrite Z.add_0_l.
    rewrite (bind_ret _ _ _ _ _ (H k x Hx)). done. }
  rewrite (Hk (length w)) by lia. by rewrite take_ge.
Qed.

Lemma wrote_head w s bs : holds_head s bs -> holds_head (wrote w s) bs.
Proof. done. Qed.

(** Writes outside a block leave it. *)
Lemma wrote_disk_other w s b : b ∉ w.*1 -> ddisk (lblk (wrote w s)) !! b = ddisk (lblk s) !! b.
Proof. intros H. by apply apply_writes_other. Qed.

Lemma wrote_dirty_other w s b : b ∉ w.*1 -> dirty (lblk (wrote w s)) !! b = dirty (lblk s) !! b.
Proof.
  unfold wrote. cbn. generalize (dirty (lblk s)). induction w as [|[b' v] w IH]; intros m Hb; [done|].
  cbn in *. apply not_elem_of_cons in Hb as [Hne Hb]. rewrite IH by done. by apply lookup_delete_ne.
Qed.

Lemma logged_at bs i b : logged_ok bs -> bs !! i = Some b ->
  0 <= b < N /\ ~ in_log start size b /\ (i < length bs)%nat /\ Z.of_nat (length bs) <= 30.
Proof.
  intros (_ & Hf & Hl & _) Hi. rewrite Forall_lookup in Hf. destruct (Hf i b Hi). apply lookup_lt_Some in Hi. done.
Qed.

Lemma zip_fst (bs : list Z) (vs : list block) : length vs = length bs -> (zip bs vs).*1 = bs.
Proof. intros H. apply fst_zip. lia. Qed.

(** The places in the log of the blocks of a transaction. *)
Definition log_writes (vs : list block) : list (Z * block) := imap (fun i v => (start + Z.of_nat i + 1, v)) vs.

Lemma log_writes_take vs i b : b ∈ (take i (log_writes vs)).*1 -> start < b <= start + Z.of_nat (length vs) /\ b <= start + Z.of_nat i.
Proof.
  intros ((b' & v) & -> & Hin)%list_elem_of_fmap. apply list_elem_of_lookup in Hin as [j Hj].
  apply lookup_take_Some in Hj as [Hj Hlt]. unfold log_writes in Hj. rewrite list_lookup_imap in Hj.
  destruct (vs !! j) eqn:E; [|done]. injection Hj as <- <-. apply lookup_lt_Some in E. cbn. lia.
Qed.

Lemma install_trans_ok s bs vs :
  holds_head s bs -> logged_ok bs -> length vs = length bs ->
  (forall i v, vs !! i = Some v -> ddisk (lblk s) !! (start + Z.of_nat i + 1) = Some v) ->
  (forall b, in_log start size b -> dirty (lblk s) !! b = None) ->
  (forall b, b ∈ bs -> is_Some (ddisk (lblk s) !! b)) ->
  install_trans s = Ret tt (wrote (zip bs vs) s).
Proof.
  intros Hh Hok Hlen Hlog Hclean Hmap. unfold install_trans. rewrite (bind_ret (gets (fun s => s)) _ _ _ _ eq_refl).
  destruct (Hh) as (Hst & Hn & _ & _). rewrite Hn. replace (length bs) with (length (zip bs vs)) at 1
    by (rewrite length_zip_with; lia). apply loop_writes. intros i [b v] Hi.
  apply lookup_zip_with_Some in Hi as (b' & v' & [= <- <-] & Hb & Hv).
  destruct (logged_at _ _ _ Hok Hb) as (Hbr & Hnl & Hilt & Hle). destruct Hok as (Hnd & Hall & _ & Hsz).
  assert (Hout : forall x, x ∈ (take i (zip bs vs)).*1 -> x ∈ take i bs).
  { intros x. by rewrite fmap_take, zip_fst by done. }
  assert (Hnew : b ∉ (take i (zip bs vs)).*1).
  { intros (j & Hj)%Hout%list_elem_of_lookup. apply lookup_take_Some in Hj as [Hj Hji].
    pose proof (NoDup_lookup _ _ _ _ Hnd Hb Hj). lia. }
  assert (Hlogb : start + Z.of_nat i + 1 ∉ (take i (zip bs vs)).*1).
  { intros (j & Hj)%Hout%list_elem_of_lookup. apply lookup_take_Some in Hj as [Hj _].
    rewrite Forall_lookup in Hall. destruct (Hall j _ Hj) as [_ Hnl']. apply Hnl'. unfold in_log. lia. }
  unfold install_one. rewrite (bind_ret (gets (fun s => s)) _ _ _ _ eq_refl).
  change (lstart (wrote (take i (zip bs vs)) s)) with (lstart s). rewrite Hst.
  erewrite bind_ret; [|apply on_blk_bread_clean; [|rewrite wrote_disk_other by done; by apply Hlog]].
  2: { rewrite wrote_dirty_other by done. apply Hclean. unfold in_log. lia. }
  change (lh_block (wrote (take i (zip bs vs)) s)) with (lh_block s).
  rewrite (holds_head_at _ _ _ _ Hh Hb). cbn [deref]. rewrite ret_bind.
  assert (Hbm : is_Some (ddisk (lblk (wrote (take i (zip bs vs)) s)) !! b)).
  { apply wrote_mapped, Hmap. by eapply list_elem_of_lookup_2. }
  assert (Hread : exists d, on_blk (bread b) (wrote (take i (zip bs vs)) s) = Ret d (wrote (take i (zip bs vs)) s)).
  { destruct (dirty (lblk (wrote (take i (zip bs vs)) s)) !! b) as [d|] eqn:E.
    - exists d. by apply on_blk_bread_dirty.
    - destruct Hbm as [d Hd]. exists d. by apply on_blk_bread_clean. }
  destruct Hread as [d Hread]. rewrite (bind_ret _ _ _ _ _ Hread), (on_blk_bwrite _ _ _ Hbm). by rewrite wrote_app.
Qed.

Lemma write_log_ok s bs vs :
  holds_head s bs -> logged_ok bs -> length vs = length bs ->
  (forall i b v, bs !! i = Some b -> vs !! i = Some v -> dirty (lblk s) !! b = Some v) ->
  (forall b, in_log start size b -> dirty (lblk s) !! b = None /\ is_Some (ddisk (lblk s) !! b)) ->
  write_log s = Ret tt (wrote (log_writes vs) s).
Proof.
  intros Hh Hok Hlen Hdirty Hclean. unfold write_log. rewrite (bind_ret (gets (fun s => s)) _ _ _ _ eq_refl).
  destruct (Hh) as (Hst & Hn & _ & _). rewrite Hn, <- Hlen. replace (length vs) with (length (log_writes vs)) at 1
    by apply length_imap. apply loop_writes. intros i [b0 v] Hi. unfold log_writes in Hi.
  rewrite list_lookup_imap in Hi. destruct (vs !! i) as [v'|] eqn:Hv; [|done]. injection Hi as <- <-.
  pose proof (lookup_lt_Some _ _ _ Hv) as Hilt. destruct (lookup_lt_is_Some_2 bs i) as [b Hb]; [lia|].
  destruct (logged_at _ _ _ Hok Hb) as (Hbr & Hnl & _ & Hle). destruct Hok as (_ & _ & _ & Hsz).
  set (s1 := wrote (take i (log_writes vs)) s).
  assert (Hpre : forall x, x ∈ (take i (log_writes vs)).*1 -> start < x <= start + Z.of_nat i).
  { intros x Hx%log_writes_take. lia. }
  destruct (Hclean (start + Z.of_nat i + 1)) as [Hc [old Hold]]; [unfold in_log; lia|].
  assert (Hfree : start + Z.of_nat i + 1 ∉ (take i (log_writes vs)).*1) by (intros H%Hpre; lia).
  assert (Hbf : b ∉ (take i (log_writes vs)).*1) by (intros H%Hpre; apply Hnl; unfold in_log; lia).
  unfold write_log_one. rewrite (bind_ret (gets (fun s => s)) _ _ _ _ eq_refl).
  change (lstart s1) with (lstart s). rewrite Hst.
  assert (Hold1 : ddisk (lblk s1) !! (start + Z.of_nat i + 1) = Some old) by (unfold s1; by rewrite wrote_disk_other).
  erewrite bind_ret; [|apply on_blk_bread_clean; [|exact Hold1]].
  2: { unfold s1. by rewrite wrote_dirty_other. }
  change (lh_block s1) with (lh_block s). rewrite (holds_head_at _ _ _ _ Hh Hb). cbn [deref]. rewrite ret_bind.
  erewrite bind_ret; [|apply on_blk_bread_dirty; unfold s1; rewrite wrote_dirty_other by done; by eapply Hdirty].
  rewrite on_blk_bwrite by (by exists old). unfold s1. by rewrite wrote_app.
Qed.

Lemma write_head_ok s bs h :
  holds_head s bs -> Z.of_nat (length bs) <= LOGSIZE ->
  dirty (lblk s) !! start = None -> ddisk (lblk s) !! start = Some h ->
  write_head s = Ret tt (wrote [(start, put_head h (Z.of_nat (length bs)) (lh_block s))] s).
Proof.
  intros (Hst & Hn & Hl & _) Hle Hd Hh. unfold write_head. rewrite (bind_ret (gets (fun s => s)) _ _ _ _ eq_refl), Hst.
  rewrite (bind_ret _ _ _ _ _ (on_blk_bread_clean _ _ _ Hd Hh)). rewrite Hl, Hn. unfold LOGSIZE in Hle.
  destruct (Z.ltb_spec (Z.of_nat 30) (Z.of_nat (length bs))); [lia|]. by rewrite on_blk_bwrite.
Qed.

Lemma read_head_ok s h bs :
  lstart s = start -> dirty (lblk s) !! start = None -> ddisk (lblk s) !! start = Some h ->
  get32 h 0 = Some (Z.of_nat (length bs)) -> (forall i b, bs !! i = Some b -> get32 h (4 + 4 * i) = Some b) ->
  Forall (fun b => 0 <= b < 2 ^ 31) bs -> length (lh_block s) = 30%nat -> (length bs <= 30)%nat ->
  read_head s = Ret tt (s <| lh_n := Z.of_nat (length bs) |>
                          <| lh_block := bs ++ drop (length bs) (lh_block s) |>).
Proof.
  intros Hst Hd Hh Hn Hb Hr Hl Hle. unfold read_head. rewrite (bind_ret (gets (fun s => s)) _ _ _ _ eq_refl), Hst.
  rewrite (bind_ret _ _ _ _ _ (on_blk_bread_clean _ _ _ Hd Hh)), Hn. cbn [deref]. rewrite ret_bind.
  rewrite s32_small by lia. set (s1 := s <| lh_n := Z.of_nat (length bs) |>).
  rewrite (bind_ret (modify _) _ _ tt s1 eq_refl).
  assert (Hk : forall k, (k <= length bs)%nat ->
    for_each (seqZ 0 (Z.of_nat k)) (fun i =>
      v ← deref (get32 h (4 + 4 * Z.to_nat i)); s ← gets (fun s => s); _ ← deref (aget (lh_block s) i);
      modify (fun s => s <| lh_block := aset (lh_block s) i (s32 v) |>)) s1
    = Ret tt (s1 <| lh_block := take k bs ++ drop k (lh_block s) |>)).
  { induction k as [|k IH]; intros Hk.
    { cbn [for_each seqZ]. cbn. by destruct s. }
    replace (Z.of_nat (S k)) with (Z.of_nat k + 1) by lia. rewrite seqZ_app, for_each_app by lia.
    rewrite (bind_ret _ _ _ _ _ (IH ltac:(lia))). rewrite seqZ_cons, seqZ_nil by lia. cbn [for_each]. rewrite Z.add_0_l.
    destruct (lookup_lt_is_Some_2 bs k) as [b Hbk]; [lia|]. rewrite Nat2Z.id, (Hb _ _ Hbk). cbn [deref].
    destruct (lookup_lt_is_Some_2 (lh_block s) k) as [y Hy]; [lia|].
    assert (Hlen : length (take k bs) = k) by (rewrite length_take; lia).
    set (l := take k bs ++ drop k (lh_block s)).
    assert (Hlk : l !! k = Some y).
    { unfold l. rewrite lookup_app_r by lia. rewrite Hlen, Nat.sub_diag, lookup_drop, Nat.add_0_r. done. }
    erewrite bind_ret; [reflexivity|]. rewrite ret_bind, (bind_ret (gets (fun s => s)) _ _ _ _ eq_refl).
    change (lh_block (s1 <| lh_block := l |>)) with l. rewrite aget_nat, Hlk. cbn [deref]. rewrite ret_bind.
    rewrite Forall_lookup in Hr. rewrite s32_small by (specialize (Hr _ _ Hbk); lia).
    unfold modify. change (lh_block (s1 <| lh_block := l |>)) with l. rewrite aset_nat. unfold l.
    rewrite insert_app_r_alt by lia. rewrite Hlen, Nat.sub_diag, (drop_S _ _ _ Hy). cbn [insert list_insert].
    rewrite (take_S_r _ _ _ Hbk), <- app_assoc. done. }
  rewrite (Hk (length bs)) by lia. by rewrite firstn_all.
Qed.

Lemma foldl_delete_empty (w : list (Z * block)) : foldl (fun (m : gmap Z block) '(b, _) => delete b m) ∅ w = ∅.
Proof. induction w as [|[b v] w IH]; [done|]. cbn. by rewrite delete_empty. Qed.

Lemma logged_range bs : logged_ok bs -> Forall (fun b => 0 <= b < 2 ^ 31) bs.
Proof. intros (_ & H & _). eapply Forall_impl; [exact H|]. cbn. intros; lia. Qed.

(** What recovery writes, for a header [h] that lists [bs]. *)
Definition recovery (h : block) (bs : list Z) (vs : list block) : list (Z * block) :=
  zip bs vs ++ [(start, put_head h 0 (bs ++ replicate (30 - length bs) 0))].

Lemma drop_replicate_30 n : drop n (replicate 30 0) = replicate (30 - n) 0.
Proof. apply drop_replicate. Qed.

Lemma recover_ok d h bs vs dev :
  d !! start = Some h -> get32 h 0 = Some (Z.of_nat (length bs)) ->
  (forall i b, bs !! i = Some b -> get32 h (4 + 4 * i) = Some b) ->
  logged_ok bs -> length vs = length bs ->
  (forall i v, vs !! i = Some v -> d !! (start + Z.of_nat i + 1) = Some v) ->
  (forall b, b ∈ bs -> is_Some (d !! b)) ->
  exists s', recover_from_log (fresh d start size dev) = Ret tt s' /\
    lblk s' = Blk (apply_writes (recovery h bs vs) d) ∅ (recovery h bs vs) /\
    lstart s' = start /\ lsize s' = size /\ lh_n s' = 0 /\ outstanding s' = 0 /\ committing s' = false /\
    length (lh_block s') = 30%nat.
Proof.
  intros Hh Hn Hb Hok Hlen Hlog Hmap. pose proof (logged_range _ Hok) as Hr.
  destruct (Hok) as (Hnd & Hall & Hle & Hsz). unfold LOGSIZE in Hle. unfold recover_from_log.
  rewrite (bind_ret _ _ _ _ _ (read_head_ok (fresh d start size dev) h bs eq_refl (lookup_empty _) Hh Hn Hb Hr eq_refl ltac:(lia))).
  set (lb := bs ++ drop (length bs) (lh_block (fresh d start size dev))).
  set (s1 := (fresh d start size dev) <| lh_n := Z.of_nat (length bs) |> <| lh_block := lb |>).
  assert (Hlb : length lb = 30%nat).
  { unfold lb. rewrite length_app, length_drop. cbn [lh_block fresh]. rewrite length_replicate. lia. }
  assert (Hh1 : holds_head s1 bs).
  { split_and!; [done|done|exact Hlb|]. change (lh_block s1) with lb. unfold lb. by rewrite take_app_length. }
  rewrite (bind_ret _ _ _ _ _ (install_trans_ok s1 bs vs Hh1 Hok Hlen Hlog (fun b _ => lookup_empty b) Hmap)).
  set (s2 := wrote (zip bs vs) s1). set (s3 := s2 <| lh_n := 0 |>).
  rewrite (bind_ret (modify _) _ _ tt s3 eq_refl).
  assert (Hs : start ∉ (zip bs vs).*1).
  { rewrite zip_fst by done. intros Hin. rewrite Forall_forall in Hall. destruct (Hall _ Hin) as [_ Hnl].
    apply Hnl. unfold in_log. lia. }
  assert (Hw : write_head s3 = Ret tt (wrote [(start, put_head h 0 lb)] s3)).
  { apply (write_head_ok s3 [] h); [by split_and!|cbn; unfold LOGSIZE; lia|apply wrote_dirty; apply lookup_empty|].
    change (ddisk (lblk s2) !! start = Some h). unfold s2. by rewrite wrote_disk_other. }
  rewrite Hw. eexists. split; [reflexivity|].
  assert (Hlbe : lb = bs ++ replicate (30 - length bs) 0) by (unfold lb; cbn [lh_block fresh]; by rewrite drop_replicate_30).
  unfold recovery. rewrite <- Hlbe. split_and!; [|done..].
  unfold wrote, s3, s2, s1, wrote, setf. cbn. rewrite foldl_delete_empty, delete_empty, apply_writes_app. done.
Qed.

(** ** The log between commits

    [bs] are the blocks of the open transaction.  Exactly they have modified
    copies in memory, and the log on the disk is empty. *)

Record log_inv (s : log) (bs : list Z) : Prop := {
  li_head : holds_head s bs;
  li_size : lsize s = size;
  li_ok : logged_ok bs;
  li_dirty : forall b, b ∈ bs <-> is_Some (dirty (lblk s) !! b);
  li_len : forall b v, dirty (lblk s) !! b = Some v -> length v = BSIZE;
  li_disk : disk_ok N (ddisk (lblk s));
  li_empty : head_says (ddisk (lblk s)) start []
}.

(** The contents of a block as the file system sees it. *)
Definition current (s : log) (b : Z) : option block :=
  match dirty (lblk s) !! b with Some v => Some v | None => ddisk (lblk s) !! b end.

(** The modified copies, in the order of the header. *)
Definition copies (s : log) (bs : list Z) : list block := map (fun b => default [] (dirty (lblk s) !! b)) bs.

Lemma copies_length s bs : length (copies s bs) = length bs.
Proof. apply length_map. Qed.

Lemma copies_at s bs i b v : log_inv s bs -> bs !! i = Some b -> copies s bs !! i = Some v -> dirty (lblk s) !! b = Some v.
Proof.
  intros Hi Hb Hv. unfold copies in Hv. rewrite list_lookup_fmap, Hb in Hv. injection Hv as <-.
  destruct (proj1 (li_dirty _ _ Hi b)) as [w ->]; [by eapply list_elem_of_lookup_2|done].
Qed.

(** What a commit writes. *)
Definition commit_writes (h : block) (bs : list Z) (vs : list block) (lb : list Z) : list (Z * block) :=
  let h1 := put_head h (Z.of_nat (length bs)) lb in
  log_writes vs ++ [(start, h1)] ++ zip bs vs ++ [(start, put_head h1 0 lb)].

Lemma log_inv_clean s bs b : log_inv s bs -> in_log start size b -> dirty (lblk s) !! b = None.
Proof.
  intros Hi Hb. destruct (dirty (lblk s) !! b) eqn:E; [|done]. exfalso.
  assert (Hin : b ∈ bs) by (apply (li_dirty _ _ Hi); by rewrite E).
  destruct (li_ok _ _ Hi) as (_ & Hall & _). rewrite Forall_forall in Hall. by destruct (Hall b Hin).
Qed.

Lemma disk_ok_mapped d b : disk_ok N d -> 0 <= b < N -> is_Some (d !! b).
Proof. intros H Hb. destruct (H b Hb) as (v & -> & _). done. Qed.

Lemma log_writes_fresh vs : Z.of_nat (length vs) < size ->
  (forall b, b ∈ (log_writes vs).*1 -> in_log start size b) /\ start ∉ (log_writes vs).*1.
Proof.
  intros Hl. assert (H : forall b, b ∈ (log_writes vs).*1 -> start < b <= start + Z.of_nat (length vs)).
  { intros b Hb. rewrite <- (take_ge (log_writes vs) (length vs)) in Hb by (unfold log_writes; rewrite length_imap; lia).
    by apply log_writes_take in Hb as [? _]. }
  split; [intros b Hb%H; unfold in_log; lia|intros Hb%H; lia].
Qed.

Lemma log_writes_at vs i v d : vs !! i = Some v -> apply_writes (log_writes vs) d !! (start + Z.of_nat i + 1) = Some v.
Proof.
  intros Hv. apply apply_writes_in.
  - apply NoDup_alt. intros j k x Hj Hk. rewrite !list_lookup_fmap in Hj, Hk. unfold log_writes in *.
    rewrite !list_lookup_imap in Hj, Hk. destruct (vs !! j), (vs !! k); simplify_eq/=. lia.
  - apply list_elem_of_lookup. exists i. unfold log_writes. rewrite list_lookup_imap, Hv. done.
Qed.

Lemma commit_ok s bs h :
  log_inv s bs -> bs <> [] -> ddisk (lblk s) !! start = Some h ->
  exists s', commit s = Ret tt s' /\
    lblk s' = lblk (wrote (commit_writes h bs (copies s bs) (lh_block s)) s) /\
    s' = s <| lblk := lblk s' |> <| lh_n := 0 |>.
Proof.
  intros Hi Hne Hh. destruct (Hi) as [Hhd Hsz Hok Hd _ Hdisk _]. destruct (Hok) as (Hnd & Hall & Hle & Hlt).
  destruct (Hhd) as (Hst & Hn & Hl & Ht).
  set (vs := copies s bs). assert (Hlen : length vs = length bs) by apply copies_length.
  destruct (log_writes_fresh vs ltac:(lia)) as [Hlog Hs].
  unfold commit. rewrite (bind_ret (gets (fun s => s)) _ _ _ _ eq_refl), Hn.
  assert (Hpos : Z.of_nat (length bs) >? 0 = true).
  { destruct bs; [done|]. cbn. apply Z.gtb_lt. lia. } rewrite Hpos.
  rewrite (bind_ret _ _ _ _ _ (write_log_ok s bs vs Hhd Hok Hlen
             (fun i b v Hb Hv => copies_at s bs i b v Hi Hb Hv)
             (fun b Hb => conj (log_inv_clean s bs b Hi Hb) (disk_ok_mapped _ b Hdisk ltac:(unfold in_log in Hb; lia))))).
  set (s1 := wrote (log_writes vs) s).
  assert (Hh1 : ddisk (lblk s1) !! start = Some h) by (unfold s1; by rewrite wrote_disk_other).
  assert (Hc1 : dirty (lblk s1) !! start = None).
  { apply wrote_dirty, (log_inv_clean s bs _ Hi). unfold in_log. lia. }
  rewrite (bind_ret _ _ _ _ _ (write_head_ok s1 bs h Hhd Hle Hc1 Hh1)).
  change (lh_block s1) with (lh_block s). set (h1 := put_head h (Z.of_nat (length bs)) (lh_block s)).
  set (s2 := wrote [(start, h1)] s1).
  assert (Hin2 : forall i v, vs !! i = Some v -> ddisk (lblk s2) !! (start + Z.of_nat i + 1) = Some v).
  { intros i v Hv. unfold s2. rewrite wrote_disk_other; [by apply log_writes_at|]. cbn. intros ?%list_elem_of_singleton. lia. }
  rewrite (bind_ret _ _ _ _ _ (install_trans_ok s2 bs vs Hhd Hok Hlen Hin2
             (fun b Hb => wrote_dirty _ _ _ (wrote_dirty _ _ _ (log_inv_clean s bs b Hi Hb)))
             (fun b Hb => wrote_mapped _ _ _ (wrote_mapped _ _ _ (disk_ok_mapped _ b Hdisk
                ltac:(rewrite Forall_forall in Hall; by destruct (Hall b Hb))))))).
  set (s3 := wrote (zip bs vs) s2). set (s4 := s3 <| lh_n := 0 |>). rewrite (bind_ret (modify _) _ _ tt s4 eq_refl).
  assert (Hz : start ∉ (zip bs vs).*1).
  { rewrite zip_fst by done. intros Hin. rewrite Forall_forall in Hall. destruct (Hall _ Hin) as [_ Hnl].
    apply Hnl. unfold in_log. lia. }
  assert (Hh3 : ddisk (lblk s3) !! start = Some h1).
  { unfold s3. rewrite wrote_disk_other by done. unfold s2, wrote. cbn. apply lookup_insert_eq. }
  assert (Hw : write_head s4 = Ret tt (wrote [(start, put_head h1 0 (lh_block s))] s4)).
  { apply (write_head_ok s4 [] h1); [by split_and!|cbn; unfold LOGSIZE; lia| |exact Hh3].
    change (dirty (lblk s3) !! start = None). by do 2 apply wrote_dirty. }
  rewrite Hw. eexists. split; [reflexivity|]. split.
  - unfold commit_writes. fold h1. cbv zeta. rewrite !wrote_app. fold s1 s2 s3. done.
  - destruct s. done.
Qed.

(** ** Crashes

    Writes that name each block once: a prefix of them leaves each block as it
    was or as the whole list makes it, and the whole list can be redone. *)

Lemma apply_writes_take w d b k : NoDup w.*1 ->
  apply_writes (take k w) d !! b = d !! b \/ forall d', apply_writes (take k w) d !! b = apply_writes w d' !! b.
Proof.
  intros Hnd. destruct (decide (b ∈ (take k w).*1)) as [Hin|Hout]; [|left; by apply apply_writes_other].
  right. intros d'. apply list_elem_of_fmap in Hin as ([b' v] & -> & Hin). cbn.
  rewrite (apply_writes_in (take k w) d b' v), (apply_writes_in w d' b' v); [done|done| |rewrite fmap_take; by eapply sublist_NoDup, sublist_take|done].
  by eapply elem_of_sublist, sublist_take.
Qed.

Lemma apply_writes_redo w d d' b : NoDup w.*1 -> d !! b = d' !! b \/ d !! b = apply_writes w d' !! b ->
  apply_writes w d !! b = apply_writes w d' !! b.
Proof.
  intros Hnd H. destruct (decide (b ∈ w.*1)) as [Hin|Hout].
  - apply list_elem_of_fmap in Hin as ([b' v] & -> & Hin). cbn. by rewrite !(apply_writes_in w _ b' v).
  - rewrite !apply_writes_other in * by done. by destruct H.
Qed.

(** A disk on which the machine has restarted and crashed again during
    recovery, any number of times. *)
Inductive recrashed (dev : Z) : gmap Z block -> gmap Z block -> Prop :=
| recrashed_refl d : recrashed dev d d
| recrashed_step d d' s k :
    recover_from_log (fresh d start size dev) = Ret tt s ->
    recrashed dev (apply_writes (take k (dwrites (lblk s))) d) d' -> recrashed dev d d'.

Lemma head_says_put d h n lb : length h = BSIZE -> n = 0 ->
  head_says (apply_writes [(start, put_head h n lb)] d) start [].
Proof.
  intros Hh ->. exists (put_head h 0 lb). cbn [apply_writes foldl]. rewrite lookup_insert_eq, put_head_length. split_and!; [done|done| |done].
  by apply (put_head_get h 0 lb); [|unfold LOGSIZE].
Qed.

Lemma start_in_log : in_log start size start.
Proof. unfold in_log. lia. Qed.

Lemma head_write_other d h b : ~ in_log start size b -> apply_writes [(start, h)] d !! b = d !! b.
Proof. intros Hb. apply apply_writes_other. cbn. intros ->%list_elem_of_singleton. by apply Hb, start_in_log. Qed.

Lemma take_snoc_writes {A} k (w : list A) x : take k (w ++ [x]) = take k w \/ take k (w ++ [x]) = w ++ [x].
Proof.
  destruct (decide (k <= length w)%nat); [left; by rewrite take_app_le|right].
  apply take_ge. rewrite length_app. cbn. lia.
Qed.

(** Recovery of a disk whose log is empty writes the empty header again. *)
Lemma recover_empty dev d : head_says d start [] ->
  exists s h lb, recover_from_log (fresh d start size dev) = Ret tt s /\ length h = BSIZE /\
    lblk s = Blk (apply_writes [(start, put_head h 0 lb)] d) ∅ [(start, put_head h 0 lb)] /\ lh_n s = 0.
Proof.
  intros (h & Hh & Hl & Hn & Hb).
  assert (Hok0 : logged_ok []).
  { split_and!; [apply NoDup_nil_2|by apply Forall_nil|unfold LOGSIZE; cbn; lia|cbn; lia]. }
  assert (Hnil : forall b, b ∈ @nil Z -> is_Some (d !! b)) by (intros b Hb0; by apply elem_of_nil in Hb0).
  destruct (recover_ok d h [] [] dev Hh Hn Hb Hok0 eq_refl ltac:(done) Hnil) as (s & Hr & Hblk & _ & _ & Hn0 & _).
  exists s, h, (replicate 30 0). split_and!; [done|done| |done]. rewrite Hblk. done.
Qed.
Section Atomic.
Context (d0 : gmap Z block) (bs : list Z) (vs : list block).
Context (Hok : logged_ok bs) (Hlen : length vs = length bs) (Hhome : forall b, b ∈ bs -> is_Some (d0 !! b)).

Definition new_disk : gmap Z block := apply_writes (zip bs vs) d0.

(** Before the header is written: recovery finds an empty log. *)
Definition before_commit (d : gmap Z block) : Prop :=
  head_says d start [] /\ forall b, ~ in_log start size b -> d !! b = d0 !! b.

(** After it: the log holds the transaction, each home block is old or new; or
    all home blocks are new and the log is empty again. *)
Definition after_commit (d : gmap Z block) : Prop :=
  (head_says d start [] /\ forall b, ~ in_log start size b -> d !! b = new_disk !! b) \/
  (head_says d start bs /\ (forall i v, vs !! i = Some v -> d !! (start + Z.of_nat i + 1) = Some v) /\
   forall b, ~ in_log start size b -> d !! b = d0 !! b \/ d !! b = new_disk !! b).

Lemma zip_NoDup : NoDup (zip bs vs).*1.
Proof. rewrite zip_fst by done. apply Hok. Qed.

Lemma zip_not_log b k : in_log start size b -> b ∉ (take k (zip bs vs)).*1.
Proof.
  intros Hb Hin. rewrite fmap_take, zip_fst in Hin by done.
  assert (Hin' : b ∈ bs) by (by eapply elem_of_sublist, sublist_take).
  destruct Hok as (_ & Hall & _). rewrite Forall_forall in Hall. by destruct (Hall b Hin').
Qed.

(** Recovery keeps a disk on its side of the commit, however often it is cut
    short, and when it completes the home blocks are all old or all new. *)
Definition recovers (P : gmap Z block -> Prop) (goal : gmap Z block) (dev : Z) (d : gmap Z block) : Prop :=
  exists s, recover_from_log (fresh d start size dev) = Ret tt s /\
    (forall k, P (apply_writes (take k (dwrites (lblk s))) d)) /\
    dirty (lblk s) = ∅ /\ lh_n s = 0 /\
    (forall b, ~ in_log start size b -> ddisk (lblk s) !! b = goal !! b).

Lemma empty_recovers (P : gmap Z block -> Prop) goal dev d :
  (forall d, head_says d start [] -> (forall b, ~ in_log start size b -> d !! b = goal !! b) -> P d) ->
  head_says d start [] -> (forall b, ~ in_log start size b -> d !! b = goal !! b) -> recovers P goal dev d.
Proof.
  intros HP Hh Hd. destruct (recover_empty dev d Hh) as (s & h & lb & Hr & Hl & Hblk & Hn).
  exists s. rewrite Hblk. cbn [dwrites ddisk dirty]. split_and!; [done| |done|done|].
  - intros [|k]; [by apply HP|]. cbn [take]. rewrite take_nil. apply HP; [by apply head_says_put|].
    intros b Hb. rewrite head_write_other by done. by apply Hd.
  - intros b Hb. rewrite head_write_other by done. by apply Hd.
Qed.

Lemma before_recovers dev d : before_commit d -> recovers before_commit d0 dev d.
Proof. intros [Hh Hd]. by apply empty_recovers. Qed.

Lemma after_recovers dev d : after_commit d -> recovers after_commit new_disk dev d.
Proof.
  intros [[Hh Hd]|(Hh & Hv & Hd)]; [apply empty_recovers; [intros; by left|done|done]|].
  destruct (Hh) as (h & Hs & Hl & Hn & Hb).
  assert (Hmap : forall b, b ∈ bs -> is_Some (d !! b)).
  { intros b Hin. pose proof Hok as (Hnd & Hall & _). rewrite Forall_forall in Hall. destruct (Hall b Hin) as [_ Hnl].
    apply list_elem_of_lookup in Hin as [i Hi]. destruct (lookup_lt_is_Some_2 vs i) as [v Hvi].
    { rewrite Hlen. by eapply lookup_lt_Some. }
    destruct (Hd b Hnl) as [->| ->]; [apply Hhome; by eapply list_elem_of_lookup_2|].
    unfold new_disk. rewrite (apply_writes_in _ _ b v); [done|apply zip_NoDup|].
    apply list_elem_of_lookup. exists i. apply lookup_zip_with_Some. eauto. }
  destruct (recover_ok d h bs vs dev Hs Hn Hb Hok Hlen Hv Hmap) as (s & Hr & Hblk & _ & _ & Hn0 & _).
  exists s. rewrite Hblk. cbn [dwrites ddisk dirty]. unfold recovery.
  set (h' := put_head h 0 _).
  assert (Hfull : forall b, ~ in_log start size b -> apply_writes (zip bs vs ++ [(start, h')]) d !! b = new_disk !! b).
  { intros b Hb'. rewrite apply_writes_app, head_write_other by done. apply apply_writes_redo; [apply zip_NoDup|by apply Hd]. }
  split_and!; [done| |done|done|exact Hfull]. intros k.
  destruct (take_snoc_writes k (zip bs vs) (start, h')) as [-> | ->].
  - right. split_and!.
    + exists h. rewrite apply_writes_other; [done|]. apply zip_not_log, start_in_log.
    + intros i v Hi. rewrite apply_writes_other; [by apply Hv|]. apply zip_not_log.
      apply lookup_lt_Some in Hi. destruct Hok as (_ & _ & _ & Hz). unfold in_log. lia.
    + intros b Hb'. destruct (apply_writes_take (zip bs vs) d b k zip_NoDup) as [->|H]; [by apply Hd|right; apply H].
  - left. split; [|exact Hfull]. rewrite apply_writes_app. by apply head_says_put.
Qed.

Lemma recrashed_keeps P goal dev d d' :
  (forall d, P d -> recovers P goal dev d) -> recrashed dev d d' -> P d -> P d'.
Proof.
  intros HP Hc. induction Hc as [|d d' s k Hr Hc IH]; intros Hd; [done|]. apply IH.
  destruct (HP d Hd) as (s' & Hr' & Hk & _). rewrite Hr in Hr'. injection Hr' as <-. apply Hk.
Qed.

(** Where each prefix of a commit's writes leaves the disk. *)
Lemma log_prefix_before h k : d0 !! start = Some h -> head_says d0 start [] ->
  before_commit (apply_writes (take k (log_writes vs)) d0).
Proof.
  intros Hh (h0 & Hs & Hrest).
  assert (Hin : forall b, b ∈ (take k (log_writes vs)).*1 -> in_log start size b /\ b <> start).
  { intros b Hb%log_writes_take. destruct Hok as (_ & _ & _ & Hz). unfold in_log. lia. }
  split; [exists h0; rewrite apply_writes_other; [done|]; intros [_ ?]%Hin; done|].
  intros b Hb. apply apply_writes_other. intros [? _]%Hin. done.
Qed.

Lemma commit_prefix h lb k : d0 !! start = Some h -> head_says d0 start [] -> take (length bs) lb = bs ->
  let d := apply_writes (take k (commit_writes h bs vs lb)) d0 in
  if (k <=? length bs)%nat then before_commit d else after_commit d.
Proof.
  intros Hh Hsays Hlb. assert (Hl : length h = BSIZE) by (destruct Hsays as (h0 & Hs & ? & _); by simplify_eq).
  pose proof Hok as (_ & Hall & Hle & Hz). unfold LOGSIZE in Hle.
  assert (Hlw : length (log_writes vs) = length bs) by (unfold log_writes; by rewrite length_imap).
  unfold commit_writes. cbv zeta. set (h1 := put_head h _ lb). set (h2 := put_head h1 0 lb).
  destruct (Nat.leb_spec k (length bs)) as [Hk|Hk].
  { rewrite take_app_le by lia. by eapply log_prefix_before. }
  rewrite take_app_ge by lia. rewrite Hlw, apply_writes_app.
  destruct (k - length bs)%nat as [|j] eqn:E; [lia|]. cbn [take app]. rewrite apply_writes_cons.
  set (d1 := <[start := h1]> (apply_writes (log_writes vs) d0)).
  destruct (put_head_get h (Z.of_nat (length bs)) lb Hl ltac:(unfold LOGSIZE; lia)) as [Hg0 Hgi].
  assert (Hat : forall i b, bs !! i = Some b -> get32 h1 (4 + 4 * i) = Some b).
  { intros i b Hi. pose proof (lookup_lt_Some _ _ _ Hi) as Hlt. unfold h1. rewrite Hgi by lia.
    rewrite <- Hlb in Hi. apply lookup_take_Some in Hi as [Hi _]. rewrite Hi. cbn.
    rewrite <- Hlb in Hall. rewrite Forall_lookup in Hall. 
    destruct (Hall i b) as [? _]; [rewrite lookup_take_lt by done; done|]. by rewrite u32_small by lia. }
  assert (Hd1 : head_says d1 start bs).
  { exists h1. unfold d1. rewrite lookup_insert_eq. split_and!; [done|unfold h1; by rewrite put_head_length| |done].
    fold h1 in Hg0. rewrite Hg0, u32_small by lia. done. }
  assert (Hv1 : forall i v, vs !! i = Some v -> d1 !! (start + Z.of_nat i + 1) = Some v).
  { intros i v Hi. unfold d1. rewrite lookup_insert_ne by lia. by apply log_writes_at. }
  assert (Hh1 : forall b, ~ in_log start size b -> d1 !! b = d0 !! b).
  { intros b Hb. unfold d1. rewrite lookup_insert_ne by (intros <-; by apply Hb, start_in_log).
    apply apply_writes_other. intros Hin. apply Hb, (proj1 (log_writes_fresh vs ltac:(lia)) b Hin). }
  destruct (take_snoc_writes j (zip bs vs) (start, h2)) as [-> | ->].
  - right. split_and!.
    + destruct Hd1 as (x & Hx). exists x. rewrite apply_writes_other; [done|]. apply zip_not_log, start_in_log.
    + intros i v Hi. rewrite apply_writes_other; [by apply Hv1|]. apply zip_not_log.
      apply lookup_lt_Some in Hi. unfold in_log. lia.
    + intros b Hb. destruct (apply_writes_take (zip bs vs) d1 b j zip_NoDup) as [->|H]; [left; by apply Hh1|right; apply H].
  - left. rewrite apply_writes_app. split; [apply head_says_put; [unfold h1; by rewrite put_head_length|done]|].
    intros b Hb. rewrite head_write_other by done. apply apply_writes_redo; [apply zip_NoDup|left; by apply Hh1].
Qed.

End Atomic.

(** With the transaction's copies, the new disk is what the file system sees. *)
Lemma new_disk_current s bs b : log_inv s bs -> new_disk (ddisk (lblk s)) bs (copies s bs) !! b = current s b.
Proof.
  intros Hi. unfold new_disk, current. pose proof (copies_length s bs) as Hl.
  destruct (dirty (lblk s) !! b) as [v|] eqn:E.
  - assert (Hin : b ∈ bs) by (apply (li_dirty _ _ Hi); by rewrite E).
    apply list_elem_of_lookup in Hin as [i Hb]. apply apply_writes_in; [by apply zip_NoDup, Hl; apply Hi|].
    apply list_elem_of_lookup. exists i. apply lookup_zip_with_Some. exists b, v. split_and!; [done|done|].
    unfold copies. rewrite list_lookup_fmap, Hb. cbn. by rewrite E.
  - apply apply_writes_other. rewrite zip_fst by done. intros Hin%(li_dirty _ _ Hi). rewrite E in Hin. by destruct Hin.
Qed.

Lemma wrote_writes w s : dwrites (lblk (wrote w s)) = dwrites (lblk s) ++ w.
Proof. done. Qed.

(** C2. However a commit is cut short, and however often the recoveries after it
    are, the recovery that completes leaves the file system's blocks all as they
    were before the transaction or all as the transaction made them; which of
    the two is decided by the header write, the write after those of the log. *)
Theorem commit_crash_atomic s bs :
  log_inv s bs -> bs <> [] ->
  exists s' w, commit s = Ret tt s' /\ dwrites (lblk s') = dwrites (lblk s) ++ w /\ length w = (2 * length bs + 2)%nat /\
    forall dev k d, recrashed dev (apply_writes (take k w) (ddisk (lblk s))) d ->
      exists s2, recover_from_log (fresh d start size dev) = Ret tt s2 /\ dirty (lblk s2) = ∅ /\
        forall b, ~ in_log start size b ->
          ddisk (lblk s2) !! b = if (k <=? length bs)%nat then ddisk (lblk s) !! b else current s b.
Proof.
  intros Hi Hne. destruct (li_empty _ _ Hi) as (h & Hh & _).
  destruct (commit_ok s bs h Hi Hne Hh) as (s' & Hc & Hblk & _).
  pose proof (copies_length s bs) as Hl. set (w := commit_writes h bs (copies s bs) (lh_block s)) in *.
  assert (Hhome : forall b, b ∈ bs -> is_Some (ddisk (lblk s) !! b)).
  { intros b Hb. eapply disk_ok_mapped; [apply Hi|]. destruct (li_ok _ _ Hi) as (_ & Hall & _).
    rewrite Forall_forall in Hall. by destruct (Hall b Hb). }
  exists s', w. split_and!; [done|by rewrite Hblk, wrote_writes| |].
  { unfold w, commit_writes, log_writes. rewrite !length_app, length_imap, length_zip_with. cbn. lia. }
  intros dev k d Hd.
  pose proof (commit_prefix (ddisk (lblk s)) bs (copies s bs) (li_ok _ _ Hi) Hl h (lh_block s) k Hh
                (li_empty _ _ Hi) (proj2 (proj2 (proj2 (li_head _ _ Hi))))) as Hp. cbv zeta in Hp. fold w in Hp.
  destruct (k <=? length bs)%nat.
  - assert (Hb : before_commit (ddisk (lblk s)) d).
    { eapply recrashed_keeps; [|exact Hd|exact Hp]. intros x Hx. by apply (before_recovers). }
    destruct (before_recovers (ddisk (lblk s)) dev d Hb) as (s2 & ? & _ & ? & _ & ?). eauto.
  - assert (Ha : after_commit (ddisk (lblk s)) bs (copies s bs) d).
    { eapply recrashed_keeps; [|exact Hd|exact Hp]. intros x Hx. apply after_recovers; [apply Hi|done|done|done]. }
    destruct (after_recovers (ddisk (lblk s)) bs (copies s bs) (li_ok _ _ Hi) Hl Hhome dev d Ha) as (s2 & ? & _ & ? & _ & Hx).
    exists s2. split_and!; [done|done|]. intros b Hb. rewrite Hx by done. by apply new_disk_current.
Qed.

(** ** Transactions *)

Lemma apply_writes_disk_ok w d : disk_ok N d -> Forall (fun x => length x.2 = BSIZE) w -> disk_ok N (apply_writes w d).
Proof.
  revert d. induction w as [|[b v] w IH]; intros d Hd Hw; [done|]. apply Forall_cons in Hw as [Hv Hw].
  rewrite apply_writes_cons. apply IH; [|done]. intros b' Hb'. destruct (decide (b = b')) as [->|].
  - exists v. by rewrite lookup_insert_eq.
  - rewrite lookup_insert_ne by done. by apply Hd.
Qed.

Lemma wrote_dirty_in w s b : b ∈ w.*1 -> dirty (lblk (wrote w s)) !! b = None.
Proof.
  intros Hin. apply list_elem_of_fmap in Hin as ([b' v] & -> & Hin). apply list_elem_of_split in Hin as (w1 & w2 & ->).
  cbn [fst]. change (w1 ++ (b', v) :: w2) with (w1 ++ [(b', v)] ++ w2). rewrite !wrote_app. apply wrote_dirty.
  unfold wrote at 1. cbn. apply lookup_delete_eq.
Qed.

Lemma copies_len s bs : log_inv s bs -> Forall (fun v : block => length v = BSIZE) (copies s bs).
Proof.
  intros Hi. apply Forall_lookup. intros i v Hv. destruct (bs !! i) as [b|] eqn:Hb.
  - eapply (li_len _ _ Hi), copies_at; done.
  - unfold copies in Hv. by rewrite list_lookup_fmap, Hb in Hv.
Qed.

Lemma commit_writes_len s bs h lb : log_inv s bs -> length h = BSIZE ->
  Forall (fun x => length x.2 = BSIZE) (commit_writes h bs (copies s bs) lb).
Proof.
  intros Hi Hh. pose proof (copies_len s bs Hi) as Hc. unfold commit_writes. cbv zeta.
  rewrite Forall_app, Forall_app, Forall_app. split_and!.
  - unfold log_writes. apply Forall_lookup. intros i [b v] Hx. rewrite list_lookup_imap in Hx.
    destruct (copies s bs !! i) eqn:E; [|done]. injection Hx as <- <-. by eapply (Forall_lookup_1 _ _ _ _ Hc).
  - apply Forall_cons. split; [cbn [snd]; by rewrite put_head_length|by apply Forall_nil].
  - apply Forall_lookup. intros i [b v] Hx. apply lookup_zip_with_Some in Hx as (? & ? & [= <- <-] & _ & Hv).
    by eapply (Forall_lookup_1 _ _ _ _ Hc).
  - apply Forall_cons. split; [cbn [snd]; by rewrite !put_head_length|by apply Forall_nil].
Qed.

Lemma logged_ok_nil : logged_ok [].
Proof. split_and!; [apply NoDup_nil_2|by apply Forall_nil|unfold LOGSIZE; cbn; lia|cbn; lia]. Qed.

(** A commit makes the disk what the file system sees, and empties the log. *)
Lemma commit_keeps s bs : log_inv s bs ->
  exists s', commit s = Ret tt s' /\ log_inv s' [] /\ outstanding s' = outstanding s /\ committing s' = committing s /\
    forall b, ~ in_log start size b -> ddisk (lblk s') !! b = current s b.
Proof.
  intros Hi. destruct bs as [|b0 bs0].
  { exists s. destruct (li_head _ _ Hi) as (_ & Hn & _).
    split_and!; [unfold commit; rewrite (bind_ret (gets (fun s => s)) _ _ _ _ eq_refl), Hn; done|done|done|done|].
    intros b _. unfold current. destruct (dirty (lblk s) !! b) eqn:E; [|done].
    assert (Hb : b ∈ @nil Z) by (apply (li_dirty _ _ Hi); by rewrite E). by apply elem_of_nil in Hb. }
  set (bs := b0 :: bs0) in *. destruct (li_empty _ _ Hi) as (h & Hh & Hl & _).
  destruct (commit_ok s bs h Hi ltac:(done) Hh) as (s' & Hc & Hblk & Hs').
  set (w := commit_writes h bs (copies s bs) (lh_block s)) in *. pose proof (copies_length s bs) as Hlen.
  destruct (li_head _ _ Hi) as (Hst & _ & Hb30 & Htake).
  pose proof (commit_prefix (ddisk (lblk s)) bs (copies s bs) (li_ok _ _ Hi) Hlen h (lh_block s) (length w) Hh
                (li_empty _ _ Hi) Htake) as Hp. cbv zeta in Hp. fold w in Hp. rewrite take_ge in Hp by done.
  assert (Hw : length w = (2 * length bs + 2)%nat).
  { unfold w, commit_writes, log_writes. rewrite !length_app, length_imap, length_zip_with. cbn [length]. lia. }
  destruct (Nat.leb_spec (length w) (length bs)); [lia|].
  assert (Hhead : head_says (apply_writes w (ddisk (lblk s))) start []).
  { unfold w, commit_writes. cbv zeta. rewrite !apply_writes_app. apply head_says_put; [by rewrite put_head_length|done]. }
  assert (Hnone : forall b, dirty (lblk s') !! b = None).
  { intros b. rewrite Hblk. destruct (decide (b ∈ w.*1)) as [Hin|Hout]; [by apply wrote_dirty_in|].
    rewrite wrote_dirty_other by done. destruct (dirty (lblk s) !! b) eqn:E; [|done]. exfalso. apply Hout.
    unfold w, commit_writes. cbv zeta. rewrite !fmap_app, zip_fst, !elem_of_app by done. right. right. left.
    apply (li_dirty _ _ Hi). by rewrite E. }
  exists s'. split_and!; [done| | | |].
  - split.
    + rewrite Hs'. by split_and!.
    + rewrite Hs'. apply Hi.
    + apply logged_ok_nil.
    + intros b. rewrite Hnone. split; [by intros ?%elem_of_nil|intros [? ?]; done].
    + intros b v. by rewrite Hnone.
    + rewrite Hblk. apply apply_writes_disk_ok; [apply Hi|by apply commit_writes_len].
    + rewrite Hblk. exact Hhead.
  - by rewrite Hs'.
  - by rewrite Hs'.
  - intros b Hb. rewrite Hblk. rewrite <- (new_disk_current s bs b Hi). destruct Hp as [[_ Hp]|[Hp _]]; [by apply Hp|].
    destruct Hp as (h1 & Hh1 & _ & Hn1 & _), Hhead as (h2 & Hh2 & _ & Hn2 & _). rewrite Hh1 in Hh2.
    injection Hh2 as <-. rewrite Hn1 in Hn2. done.
Qed.

(** The blocks of the transaction after a write of block [b]. *)
Definition absorb (b : Z) (bs : list Z) : list Z := if decide (b ∈ bs) then bs else bs ++ [b].

Lemma findi_absorb b bs : match findi (Z.eqb b) bs with
  | Some i => b ∈ bs /\ bs !! i = Some b
  | None => b ∉ bs end.
Proof.
  destruct (findi (Z.eqb b) bs) as [i|] eqn:E.
  - apply findi_Some in E as [(x & Hx & Heq) _]. apply Z.eqb_eq in Heq as <-. split; [by eapply list_elem_of_lookup_2|done].
  - intros Hin. apply list_elem_of_lookup in Hin as [i Hi]. rewrite findi_None in E. specialize (E i b Hi).
    by rewrite Z.eqb_refl in E.
Qed.

Lemma log_write_result s bs b data :
  holds_head s bs -> Z.of_nat (length bs) < LOGSIZE -> Z.of_nat (length bs) < lsize s - 1 -> 1 <= outstanding s ->
  exists s', log_write b data s = Ret tt s' /\ holds_head s' (absorb b bs) /\ lsize s' = lsize s /\
    outstanding s' = outstanding s /\ committing s' = committing s /\
    lblk s' = Blk (ddisk (lblk s)) (<[b := data]> (dirty (lblk s))) (dwrites (lblk s)).
Proof.
  intros (Hst & Hn & Hl & Ht) H1 H2 H3. unfold log_write. rewrite (bind_ret (gets (fun s => s)) _ _ _ _ eq_refl), Hn.
  unfold LOGSIZE in *. destruct (Z.geb_spec (Z.of_nat (length bs)) 30); [lia|].
  destruct (Z.geb_spec (Z.of_nat (length bs)) (lsize s - 1)); [lia|]. cbn [orb].
  destruct (Z.ltb_spec (outstanding s) 1); [lia|]. rewrite Nat2Z.id, Ht. cbv zeta.
  pose proof (findi_absorb b bs) as Hf. unfold absorb. destruct (findi (Z.eqb b) bs) as [i|] eqn:E.
  - destruct Hf as [Hin Hi]. rewrite decide_True by done. pose proof (lookup_lt_Some _ _ _ Hi) as Hlt.
    assert (Hli : lh_block s !! i = Some b) by (rewrite <- Ht in Hi; by apply lookup_take_Some in Hi as [? _]).
    rewrite aget_nat, Hli. cbn [deref]. rewrite ret_bind. erewrite bind_ret; [|reflexivity].
    destruct (Z.eqb_spec (Z.of_nat i) (Z.of_nat (length bs))); [lia|]. rewrite ret_bind.
    eexists. split; [reflexivity|]. split_and!; [|done..]. split_and!; [done|done| |].
    + cbn. rewrite aset_nat. by rewrite length_insert.
    + cbn. rewrite aset_nat, list_insert_id by done. done.
  - rewrite decide_False by done.
    destruct (lookup_lt_is_Some_2 (lh_block s) (length bs)) as [y Hy]; [lia|]. rewrite aget_nat, Hy. cbn [deref].
    rewrite ret_bind. erewrite bind_ret; [|reflexivity]. rewrite Z.eqb_refl. erewrite bind_ret; [|reflexivity].
    eexists. split; [reflexivity|]. split_and!; [|done..]. split_and!; [done| | |].
    + cbn. rewrite Hn, length_app. cbn [length]. rewrite s32_small by lia. lia.
    + cbn. rewrite aset_nat. by rewrite length_insert.
    + cbn. rewrite aset_nat, length_app. cbn [length]. rewrite Nat.add_1_r.
      rewrite (take_S_r _ _ b) by (rewrite list_lookup_insert_eq; [done|lia]).
      rewrite take_insert_ge by lia. by rewrite Ht.
Qed.

Lemma absorb_elem b x bs : x ∈ absorb b bs <-> x = b \/ x ∈ bs.
Proof.
  unfold absorb. destruct (decide (b ∈ bs)); [naive_solver|]. rewrite elem_of_app, list_elem_of_singleton. naive_solver.
Qed.

Lemma absorb_length b bs : (length bs <= length (absorb b bs) <= length bs + 1)%nat.
Proof. unfold absorb. destruct (decide (b ∈ bs)); [lia|]. rewrite length_app. cbn. lia. Qed.

Lemma log_write_ok s bs b data :
  log_inv s bs -> Z.of_nat (length bs) < LOGSIZE -> Z.of_nat (length bs) < size - 1 -> 1 <= outstanding s ->
  0 <= b < N -> ~ in_log start size b -> length data = BSIZE ->
  exists s', log_write b data s = Ret tt s' /\ log_inv s' (absorb b bs) /\
    outstanding s' = outstanding s /\ committing s' = committing s /\ ddisk (lblk s') = ddisk (lblk s) /\
    forall x, current s' x = if decide (x = b) then Some data else current s x.
Proof.
  intros Hi H1 H2 H3 Hb Hnl Hd. pose proof (li_size _ _ Hi) as Hsz.
  destruct (log_write_result s bs b data) as (s' & Hw & Hh & Hs & Ho & Hc & Hblk); [apply Hi|done|by rewrite Hsz|done|].
  exists s'. pose proof (absorb_length b bs). split_and!; [done| |done|done|by rewrite Hblk|].
  - destruct (li_ok _ _ Hi) as (Hnd & Hall & _). split; [done|by rewrite Hs| | | |rewrite Hblk; apply Hi|rewrite Hblk; apply Hi].
    + split_and!; [| |lia|lia].
      * unfold absorb. destruct (decide (b ∈ bs)); [done|]. apply NoDup_app. split_and!; [done| |apply NoDup_singleton].
        intros x Hx ->%list_elem_of_singleton. done.
      * rewrite Forall_forall in Hall |- *. intros x [->|Hx]%absorb_elem; [done|by apply Hall].
    + intros x. rewrite absorb_elem, Hblk. cbn. destruct (decide (x = b)) as [->|Hne].
      * rewrite lookup_insert_eq. split; [done|by left].
      * rewrite lookup_insert_ne by done. rewrite <- (li_dirty _ _ Hi). naive_solver.
    + intros x v. rewrite Hblk. cbn. destruct (decide (x = b)) as [->|Hne].
      * rewrite lookup_insert_eq. by intros [= <-].
      * rewrite lookup_insert_ne by done. apply Hi.
  - intros x. unfold current. rewrite Hblk. cbn. destruct (decide (x = b)) as [->|Hne].
    + by rewrite lookup_insert_eq.
    + by rewrite lookup_insert_ne.
Qed.

(** A change of the fields that are not about blocks. *)
Lemma log_inv_counts s s' bs : log_inv s bs -> lblk s' = lblk s -> lstart s' = lstart s -> lsize s' = lsize s ->
  lh_n s' = lh_n s -> lh_block s' = lh_block s -> log_inv s' bs.
Proof.
  intros [Hh Hs Ho Hd Hl Hk He] H1 H2 H3 H4 H5. split; [|by rewrite H3|done|by rewrite H1..].
  unfold holds_head. by rewrite H2, H4, H5.
Qed.

Lemma end_op_ok s bs : log_inv s bs -> 1 <= outstanding s < 2 ^ 31 -> committing s = false ->
  exists s' bs', end_op s = Ret tt s' /\ log_inv s' bs' /\ outstanding s' = outstanding s - 1 /\ committing s' = false /\
    (forall b, ~ in_log start size b -> current s' b = current s b) /\
    if outstanding s =? 1 then bs' = [] /\ forall b, ~ in_log start size b -> ddisk (lblk s') !! b = current s b
    else bs' = bs /\ ddisk (lblk s') = ddisk (lblk s).
Proof.
  intros Hi Ho Hc. unfold end_op. set (s1 := s <| outstanding ::= fun n => s32 (n - 1) |>).
  rewrite (bind_ret (modify _) _ _ tt s1 eq_refl), (bind_ret (gets (fun s => s)) _ _ _ _ eq_refl).
  change (committing s1) with (committing s). rewrite Hc.
  assert (Ho1 : outstanding s1 = outstanding s - 1) by (unfold s1; cbn; apply s32_small; lia). rewrite Ho1.
  assert (Hi1 : log_inv s1 bs) by (by eapply log_inv_counts).
  destruct (Z.eqb_spec (outstanding s) 1) as [E|E].
  - rewrite E. change (1 - 1 =? 0) with true. cbv iota. rewrite (bind_ret (modify _) _ _ tt (s1 <| committing := true |>) eq_refl).
    destruct (commit_keeps (s1 <| committing := true |>) bs) as (s2 & Hcm & Hi2 & Ho2 & _ & Hd2); [by eapply log_inv_counts|].
    rewrite (bind_ret _ _ _ _ _ Hcm). erewrite bind_ret; [|reflexivity].
    eexists _, []. split; [reflexivity|]. split_and!.
    + by eapply log_inv_counts.
    + cbn. rewrite Ho2. cbn. rewrite E. done.
    + done.
    + intros b Hb. unfold current at 1. cbn. destruct (dirty (lblk s2) !! b) eqn:Ed; [|by apply Hd2].
      assert (Hin : b ∈ @nil Z) by (apply (li_dirty _ _ Hi2); by rewrite Ed). by apply elem_of_nil in Hin.
    + done.
    + exact Hd2.
  - destruct (Z.eqb_spec (outstanding s - 1) 0); [lia|]. eexists _, bs. split; [reflexivity|].
    split_and!; [by eapply log_inv_counts|exact Ho1|done|done|done|done].
Qed.

(** The blocks that are kept in the cache until the commit. *)
Lemma log_inv_pinned s bs : log_inv s bs -> Z.of_nat (base.size (dirty (lblk s))) < size.
Proof.
  intros Hi. destruct (li_ok _ _ Hi) as (Hnd & _ & _ & Hlt). rewrite <- size_dom.
  assert (Hsub : dom (dirty (lblk s)) ⊆@{gset Z} list_to_set bs).
  { intros b Hb. apply elem_of_list_to_set, (li_dirty _ _ Hi). by apply elem_of_dom. }
  apply subseteq_size in Hsub. rewrite size_list_to_set in Hsub by done. lia.
Qed.

(** ** Runs of file system operations

    The log with, for each operation between its [begin_op] and its [end_op],
    the number of blocks it may still write; what the file system sees; and what
    it would find after a crash. *)

Record tx := Tx { tlog : log; tops : list Z; tview : gmap Z block; tdurable : gmap Z block }.

(** An operation begins, writes a block or ends; or the machine crashes. A crash
    loses all memory: it leaves the disk, on which any number of recoveries may
    be cut short before one completes. It comes between the writes of the disk
    ([t_crash]) or after the first [k] writes of the commit that the last
    operation's [end_op] makes ([t_crash_end]): up to the write of the header,
    which is the one after the [lh_n] copies into the log, the transaction is
    lost, and from then on it is durable. *)
Inductive tstep : tx -> tx -> Prop :=
| t_begin s rs v d s' :
    begin_op s = Ret true s' -> tstep (Tx s rs v d) (Tx s' (rs ++ [MAXOPBLOCKS]) v d)
| t_write s rs v d i r b data s' :
    rs !! i = Some r -> 0 < r -> 0 <= b < N -> ~ in_log start size b -> length data = BSIZE ->
    log_write b data s = Ret tt s' ->
    tstep (Tx s rs v d) (Tx s' (<[i := r - 1]> rs) (<[b := data]> v) d)
| t_end s rs v d i r s' :
    rs !! i = Some r -> end_op s = Ret tt s' ->
    tstep (Tx s rs v d) (Tx s' (delete i rs) v (if (length rs =? 1)%nat then v else d))
| t_crash s rs v d dev d' s' :
    recrashed dev (ddisk (lblk s)) d' -> initlog dev start size (fresh d' 0 0 0) = Ret tt s' ->
    tstep (Tx s rs v d) (Tx s' [] d d)
| t_crash_end s r v d s1 w k dev d' s' :
    end_op s = Ret tt s1 -> dwrites (lblk s1) = dwrites (lblk s) ++ w ->
    recrashed dev (apply_writes (take k w) (ddisk (lblk s))) d' ->
    initlog dev start size (fresh d' 0 0 0) = Ret tt s' ->
    let kept := if (k <=? Z.to_nat (lh_n s))%nat then d else v in
    tstep (Tx s [r] v d) (Tx s' [] kept kept).

(** Boot: [initlog] on a disk whose log header lists [bs]. *)
Definition tboot (d : gmap Z block) (t : tx) : Prop :=
  exists dev bs, disk_ok N d /\ head_says d start bs /\ logged_ok bs /\
    initlog dev start size (fresh d 0 0 0) = Ret tt (tlog t) /\ tops t = [] /\
    tview t = ddisk (lblk (tlog t)) /\ tdurable t = ddisk (lblk (tlog t)).

Fixpoint sumZ (l : list Z) : Z := match l with [] => 0 | x :: l => x + sumZ l end.

Lemma sumZ_app l1 l2 : sumZ (l1 ++ l2) = sumZ l1 + sumZ l2.
Proof. induction l1 as [|x l1 IH]; cbn; lia. Qed.

Lemma sumZ_split l i r : l !! i = Some r -> sumZ l = r + sumZ (delete i l).
Proof.
  revert i. induction l as [|x l IH]; intros [|i] H; cbn in *; [done|done|by injection H as ->|].
  rewrite (IH i H). unfold delete in *. lia.
Qed.

Lemma sumZ_insert l i r v : l !! i = Some r -> sumZ (<[i := v]> l) = sumZ l - r + v.
Proof.
  revert i. induction l as [|x l IH]; intros [|i] H; cbn in *; [done|done|injection H as ->; lia|].
  change (x + sumZ (<[i := v]> l) = x + sumZ l - r + v). rewrite (IH i H). lia.
Qed.

Lemma sumZ_bound l : Forall (fun r => 0 <= r <= MAXOPBLOCKS) l -> 0 <= sumZ l <= Z.of_nat (length l) * MAXOPBLOCKS.
Proof. unfold MAXOPBLOCKS. induction 1; cbn [sumZ length]; lia. Qed.

(** The invariant of runs. *)
Record tx_ok (t : tx) (bs : list Z) : Prop := {
  tk_inv : log_inv (tlog t) bs;
  tk_count : outstanding (tlog t) = Z.of_nat (length (tops t));
  tk_few : Z.of_nat (length (tops t)) <= 3;
  tk_idle : committing (tlog t) = false;
  tk_left : Forall (fun r => 0 <= r <= MAXOPBLOCKS) (tops t);
  tk_room : Z.of_nat (length bs) + sumZ (tops t) <= LOGSIZE;
  tk_quiet : tops t = [] -> bs = [];
  tk_view : forall b, ~ in_log start size b -> current (tlog t) b = tview t !! b;
  tk_durable : forall b, ~ in_log start size b -> ddisk (lblk (tlog t)) !! b = tdurable t !! b
}.

Lemma begin_op_cases s : exists r s', begin_op s = Ret r s' /\
  if r then committing s = false /\ lh_n s + (outstanding s + 1) * MAXOPBLOCKS <= LOGSIZE /\
            s' = s <| outstanding ::= fun n => s32 (n + 1) |>
  else s' = s /\ (committing s = true \/ LOGSIZE < lh_n s + (outstanding s + 1) * MAXOPBLOCKS).
Proof.
  unfold begin_op. rewrite (bind_ret (gets (fun s => s)) _ _ _ _ eq_refl). destruct (committing s) eqn:E.
  { exists false, s. split_and!; [done|done|by left]. }
  destruct (Z.gtb_spec (lh_n s + (outstanding s + 1) * MAXOPBLOCKS) LOGSIZE) as [H|H].
  - exists false, s. split_and!; [done|done|by right].
  - eexists true, _. split; [reflexivity|]. done.
Qed.

(** The blocks of the log area that a header listing [bs] speaks of. *)
Definition log_contents (d : gmap Z block) (bs : list Z) : list block :=
  map (fun i => default [] (d !! (start + Z.of_nat i + 1))) (seq 0 (length bs)).

Lemma log_contents_at d bs i v : disk_ok N d -> logged_ok bs -> log_contents d bs !! i = Some v ->
  d !! (start + Z.of_nat i + 1) = Some v /\ length v = BSIZE.
Proof.
  intros Hd (_ & _ & Hle & Hsz) Hvi. unfold log_contents in Hvi. pose proof (lookup_lt_Some _ _ _ Hvi) as Hlt.
  rewrite length_map, length_seq in Hlt. rewrite list_lookup_fmap, lookup_seq_lt in Hvi by done. injection Hvi as <-.
  destruct (Hd (start + Z.of_nat i + 1)) as (v & -> & ?); [lia|done].
Qed.

Lemma recovery_len d h bs : disk_ok N d -> logged_ok bs -> length h = BSIZE ->
  Forall (fun x => length x.2 = BSIZE) (recovery h bs (log_contents d bs)).
Proof.
  intros Hd Hok Hh. unfold recovery. apply Forall_app. split.
  - apply Forall_lookup. intros i [b v] Hx. apply lookup_zip_with_Some in Hx as (? & ? & [= <- <-] & _ & Hvi).
    by apply (log_contents_at d bs i).
  - apply Forall_cons. split; [cbn [snd]; by rewrite put_head_length|by apply Forall_nil].
Qed.

(** What recovery does to a disk with a sound header. *)
Lemma recover_disk dev d bs : disk_ok N d -> head_says d start bs -> logged_ok bs ->
  exists s w, recover_from_log (fresh d start size dev) = Ret tt s /\ lblk s = Blk (apply_writes w d) ∅ w /\
    Forall (fun x => length x.2 = BSIZE) w /\ holds_head s [] /\ lsize s = size /\
    outstanding s = 0 /\ committing s = false /\ head_says (apply_writes w d) start [].
Proof.
  intros Hd (h & Hh & Hlh & Hn & Hb) Hok.
  assert (Hlen : length (log_contents d bs) = length bs) by (unfold log_contents; by rewrite length_map, length_seq).
  pose proof Hok as (_ & Hall & _). rewrite Forall_forall in Hall.
  destruct (recover_ok d h bs (log_contents d bs) dev Hh Hn Hb Hok Hlen
              (fun i v H => proj1 (log_contents_at d bs i v Hd Hok H))) as
    (s & Hr & Hblk & Hst & Hs & Hn0 & Hou & Hco & Hl).
  { intros b Hbin. eapply disk_ok_mapped; [exact Hd|]. by destruct (Hall b Hbin). }
  eexists s, _. split; [exact Hr|]. split; [exact Hblk|].
  split; [by apply recovery_len|]. split; [by split_and!|]. split_and!; [done|done|done|].
  unfold recovery. rewrite apply_writes_app. by apply head_says_put.
Qed.

Lemma initlog_recovers dev d : initlog dev start size (fresh d 0 0 0) = recover_from_log (fresh d start size dev).
Proof. done. Qed.

Lemma boot_ok d t : tboot d t -> tx_ok t [].
Proof.
  intros (dev & bs & Hd & Hh & Hok & Hi & Ho & Hv & Hdu).
  destruct (recover_disk dev d bs Hd Hh Hok) as (s & w & Hr & Hblk & Hw & Hhd & Hs & Hou & Hco & Hsays).
  rewrite initlog_recovers, Hr in Hi. injection Hi as Hi.
  assert (Hclean : forall b, dirty (lblk s) !! b = None) by (intros b; rewrite Hblk; apply lookup_empty).
  split; rewrite ?Ho, <- ?Hi; [|done|cbn; lia|done|by apply Forall_nil|cbn; unfold LOGSIZE; lia|done| |].
  - split; [done|done|apply logged_ok_nil| | |rewrite Hblk; by apply apply_writes_disk_ok|by rewrite Hblk].
    + intros b. rewrite Hclean. split; [by intros ?%elem_of_nil|by intros [? ?]].
    + intros b v. by rewrite Hclean.
  - intros b _. unfold current. rewrite Hclean, Hv. by rewrite Hi.
  - intros b _. rewrite Hdu. by rewrite Hi.
Qed.

Lemma tx_ok_ext s rs v d v' d' bs :
  (forall b, ~ in_log start size b -> v !! b = v' !! b) -> (forall b, ~ in_log start size b -> d !! b = d' !! b) ->
  tx_ok (Tx s rs v d) bs -> tx_ok (Tx s rs v' d') bs.
Proof.
  intros Hv Hd []. split; [done..| |]; intros b Hb; cbn in *; [rewrite <- Hv by done|rewrite <- Hd by done]; auto.
Qed.

(** A crash leaves a disk on one side of a commit; the recoveries that are cut
    short keep it there, and the boot that completes sees that side's blocks. *)
Section Reboot.
Context (P : gmap Z block -> Prop) (goal : gmap Z block) (dev : Z).
Context (HP : forall d, P d -> recovers P goal dev d).
Context (Hsays : forall d, P d -> exists bs, head_says d start bs /\ logged_ok bs).

Lemma recrashed_disk_ok d d' : recrashed dev d d' -> P d -> disk_ok N d -> P d' /\ disk_ok N d'.
Proof.
  intros Hc. induction Hc as [|d d' s k Hr Hc IH]; intros Hd Hok; [done|]. apply IH.
  - destruct (HP d Hd) as (s' & Hr' & Hk & _). rewrite Hr in Hr'. injection Hr' as <-. apply Hk.
  - destruct (Hsays d Hd) as (bs & Hbs & Hlk).
    destruct (recover_disk dev d bs Hok Hbs Hlk) as (s' & w & Hr' & Hblk & Hw & _).
    rewrite Hr in Hr'. injection Hr' as <-. rewrite Hblk. apply apply_writes_disk_ok; [done|by apply Forall_take].
Qed.

Lemma reboot_ok d d' : recrashed dev d d' -> P d -> disk_ok N d ->
  exists s', initlog dev start size (fresh d' 0 0 0) = Ret tt s' /\ tx_ok (Tx s' [] goal goal) [].
Proof.
  intros Hc Hd Hok. destruct (recrashed_disk_ok d d' Hc Hd Hok) as [Hd' Hok'].
  destruct (HP d' Hd') as (s' & Hr & _ & _ & _ & Hgoal). exists s'. rewrite initlog_recovers. split; [done|].
  apply (tx_ok_ext _ _ (ddisk (lblk s')) (ddisk (lblk s'))); [exact Hgoal|exact Hgoal|].
  destruct (Hsays d' Hd') as (bs & Hbs & Hlk). apply (boot_ok d'). exists dev, bs. by split_and!.
Qed.

End Reboot.

Lemma tx_ok_exists_ext v v' (Q : log -> Prop) :
  (forall b, ~ in_log start size b -> v !! b = v' !! b) ->
  (exists s', Q s' /\ tx_ok (Tx s' [] v v) []) -> exists s', Q s' /\ tx_ok (Tx s' [] v' v') [].
Proof. intros Hv (s' & HQ & Hk). exists s'. split; [done|]. by apply (tx_ok_ext _ _ v v). Qed.

Lemma crash_ok s bs rs v d dev d' : tx_ok (Tx s rs v d) bs -> recrashed dev (ddisk (lblk s)) d' ->
  exists s', initlog dev start size (fresh d' 0 0 0) = Ret tt s' /\ tx_ok (Tx s' [] d d) [].
Proof.
  intros Ht Hc. pose proof (tk_inv _ _ Ht) as Hinv. pose proof (tk_durable _ _ Ht) as Hdu. cbn [tlog tdurable] in *.
  apply (tx_ok_exists_ext _ _ _ Hdu).
  apply (reboot_ok (before_commit (ddisk (lblk s))) _ dev (before_recovers _ dev)) with (ddisk (lblk s)); try done.
  - intros x [Hx _]. exists []. split; [done|apply logged_ok_nil].
  - split; [apply Hinv|done].
  - apply Hinv.
Qed.

(** The writes of the last operation's [end_op] are those of the commit. *)
Definition end_writes (h : block) (s : log) (bs : list Z) : list (Z * block) :=
  match bs with [] => [] | _ => commit_writes h bs (copies s bs) (lh_block s) end.

Lemma end_op_writes s bs : log_inv s bs -> outstanding s = 1 -> committing s = false ->
  exists h s1, ddisk (lblk s) !! start = Some h /\ length h = BSIZE /\ end_op s = Ret tt s1 /\
    dwrites (lblk s1) = dwrites (lblk s) ++ end_writes h s bs.
Proof.
  intros Hi Ho Hc. destruct (li_empty _ _ Hi) as (h & Hh & Hlh & _). exists h.
  unfold end_op. set (s0 := s <| outstanding ::= fun n => s32 (n - 1) |>).
  rewrite (bind_ret (modify _) _ _ tt s0 eq_refl), (bind_ret (gets (fun s => s)) _ _ _ _ eq_refl).
  change (committing s0) with (committing s). rewrite Hc.
  replace (outstanding s0) with 0 by (unfold s0; cbn; by rewrite Ho). cbv iota.
  change (0 =? 0) with true. cbv iota. set (s2 := s0 <| committing := true |>).
  rewrite (bind_ret (modify _) _ _ tt s2 eq_refl).
  assert (Hi2 : log_inv s2 bs) by (by eapply log_inv_counts). destruct bs as [|b0 bs].
  - unfold commit. rewrite bind_assoc, (bind_ret (gets (fun s => s)) _ _ _ _ eq_refl).
    destruct (li_head _ _ Hi2) as (_ & -> & _). eexists. split_and!; [done|done|reflexivity|].
    cbn. by rewrite app_nil_r.
  - destruct (commit_ok s2 (b0 :: bs) h Hi2 ltac:(done) Hh) as (s3 & Hcm & Hblk & _).
    rewrite (bind_ret _ _ _ _ _ Hcm). eexists. split_and!; [done|done|reflexivity|].
    change (dwrites (lblk s3) = dwrites (lblk s) ++ end_writes h s (b0 :: bs)). by rewrite Hblk, wrote_writes.
Qed.

Lemma end_writes_side s bs h k : log_inv s bs -> ddisk (lblk s) !! start = Some h ->
  let d := apply_writes (take k (end_writes h s bs)) (ddisk (lblk s)) in
  disk_ok N d /\
  if (k <=? length bs)%nat then before_commit (ddisk (lblk s)) d
  else after_commit (ddisk (lblk s)) bs (copies s bs) d.
Proof.
  intros Hi Hh d. pose proof (li_ok _ _ Hi) as Hok. destruct (li_head _ _ Hi) as (_ & _ & _ & Htake).
  assert (Hlh : length h = BSIZE) by (destruct (li_empty _ _ Hi) as (h0 & Hh0 & ? & _); by simplify_eq).
  unfold d, end_writes. destruct bs as [|b0 bs0].
  - rewrite take_nil. split; [apply Hi|].
    destruct (k <=? length [])%nat; [|left]; (split; [apply Hi|done]).
  - set (bs := b0 :: bs0) in *. split.
    + apply apply_writes_disk_ok; [apply Hi|]. apply Forall_take. by apply commit_writes_len.
    + apply (commit_prefix _ bs (copies s bs) Hok (copies_length s bs) h (lh_block s) k Hh (li_empty _ _ Hi) Htake).
Qed.

Lemma crash_end_ok s bs r v d h k dev d' : tx_ok (Tx s [r] v d) bs -> ddisk (lblk s) !! start = Some h ->
  recrashed dev (apply_writes (take k (end_writes h s bs)) (ddisk (lblk s))) d' ->
  exists s', initlog dev start size (fresh d' 0 0 0) = Ret tt s' /\
    let kept := if (k <=? Z.to_nat (lh_n s))%nat then d else v in tx_ok (Tx s' [] kept kept) [].
Proof.
  intros Ht Hh Hrc. destruct (Ht) as [Hinv _ _ _ _ _ _ Hv Hdu]. cbn [tlog tops tview tdurable] in *.
  destruct (li_head _ _ Hinv) as (_ & Hn & _). rewrite Hn, Nat2Z.id. pose proof (li_ok _ _ Hinv) as Hok.
  destruct (end_writes_side s bs h k Hinv Hh) as [Hdk Hp]. cbv zeta in *. destruct (k <=? length bs)%nat.
  - apply (tx_ok_exists_ext _ _ _ Hdu). eapply (reboot_ok _ _ dev (before_recovers _ dev)); [|exact Hrc|exact Hp|exact Hdk].
    intros x [Hx _]. exists []. split; [done|apply logged_ok_nil].
  - apply (tx_ok_exists_ext (new_disk (ddisk (lblk s)) bs (copies s bs))).
    { intros b Hb. rewrite (new_disk_current s bs b Hinv). by apply Hv. }
    eapply (reboot_ok (after_commit (ddisk (lblk s)) bs (copies s bs)) _ dev); [| |exact Hrc|exact Hp|exact Hdk].
    + intros x Hx. apply after_recovers; [done|apply copies_length| |done]. intros b Hb. eapply disk_ok_mapped; [apply Hinv|].
      destruct Hok as (_ & Hall & _). rewrite Forall_forall in Hall. by destruct (Hall b Hb).
    + intros x [[Hx _]|[Hx _]]; [exists []; split; [done|apply logged_ok_nil]|by exists bs].
Qed.

(** The machine can crash in the last operation's [end_op] after any number of
    its writes, and the next boot completes. *)
Lemma crash_end_total s bs r v d k (dev : Z) : tx_ok (Tx s [r] v d) bs ->
  exists s', let kept := if (k <=? Z.to_nat (lh_n s))%nat then d else v in tstep (Tx s [r] v d) (Tx s' [] kept kept).
Proof.
  intros Ht. destruct (end_op_writes s bs) as (h & s1 & Hh & _ & He & Hw); [apply Ht|apply (tk_count _ _ Ht)|apply Ht|].
  destruct (crash_end_ok s bs r v d h k dev _ Ht Hh (recrashed_refl _ _)) as (s' & Hi & _).
  exists s'. eapply t_crash_end; [exact He|exact Hw|apply recrashed_refl|exact Hi].
Qed.

Lemma begin_ok s bs rs v d s' : tx_ok (Tx s rs v d) bs -> begin_op s = Ret true s' ->
  tx_ok (Tx s' (rs ++ [MAXOPBLOCKS]) v d) bs.
Proof.
  intros [Hi Hc Hf Hid Hl Hr Hq Hv Hd] Hb. cbn [tlog tops tview tdurable] in *. pose proof (sumZ_bound _ Hl) as Hsum.
  destruct (begin_op_cases s) as (b & s1 & Hb1 & Hcase). rewrite Hb in Hb1. injection Hb1 as <- <-.
  destruct Hcase as (_ & Hroom & ->). unfold LOGSIZE, MAXOPBLOCKS in *. destruct (li_head _ _ Hi) as (_ & Hn & _).
  split; cbn [tlog tops tview tdurable]; rewrite ?length_app, ?sumZ_app; cbn [length sumZ];
    [by eapply log_inv_counts| |lia|done| |unfold LOGSIZE; lia|by destruct rs|done|done].
  - cbn. rewrite Hc, s32_small by lia. lia.
  - apply Forall_app. split; [done|]. apply Forall_cons. split; [unfold MAXOPBLOCKS; lia|by apply Forall_nil].
Qed.

Lemma write_ok s bs rs v d i r b data : tx_ok (Tx s rs v d) bs -> rs !! i = Some r -> 0 < r -> 0 <= b < N ->
  ~ in_log start size b -> length data = BSIZE -> Z.of_nat (length bs) < size - 1 ->
  exists s', log_write b data s = Ret tt s' /\ tx_ok (Tx s' (<[i := r - 1]> rs) (<[b := data]> v) d) (absorb b bs).
Proof.
  intros [Hi Hc Hf Hid Hl Hr Hq Hv Hd] Hri Hr0 Hbn Hbl Hlen Hp1. cbn [tlog tops tview tdurable] in *.
  pose proof (lookup_lt_Some _ _ _ Hri) as Hlt. pose proof (sumZ_split _ _ _ Hri) as Hss.
  pose proof (sumZ_bound (delete i rs) ltac:(by apply Forall_delete)) as Hdel.
  destruct (log_write_ok s bs b data Hi) as (s1 & Hw1 & Hi1 & Ho1 & Hc1 & Hd1 & Hv1); [lia|done|lia|done|done|done|].
  exists s1. split; [done|]. pose proof (absorb_length b bs).
  split; cbn [tlog tops tview tdurable]; rewrite ?length_insert, ?(sumZ_insert _ _ _ _ Hri);
    [done|lia|lia|by rewrite Hc1| |lia|intros Hnil; apply (f_equal length) in Hnil; rewrite length_insert in Hnil; cbn in Hnil; lia| |by rewrite Hd1].
  - apply Forall_insert; [done|]. rewrite Forall_lookup in Hl. specialize (Hl i r Hri). lia.
  - intros x Hx. rewrite Hv1. destruct (decide (x = b)) as [->|Hne]; [by rewrite lookup_insert_eq|].
    rewrite lookup_insert_ne by done. by apply Hv.
Qed.

Lemma log_write_room s bs b data s' : log_inv s bs -> log_write b data s = Ret tt s' -> Z.of_nat (length bs) < size - 1.
Proof.
  intros Hi. destruct (li_head _ _ Hi) as (_ & Hn & _). pose proof (li_size _ _ Hi) as Hsz. unfold log_write.
  rewrite (bind_ret (gets (fun s => s)) _ _ _ _ eq_refl), Hn, Hsz.
  destruct (Z.geb_spec (Z.of_nat (length bs)) (size - 1)); [by rewrite orb_true_r|lia].
Qed.

Lemma tstep_ok t bs t' : tx_ok t bs -> tstep t t' -> exists bs', tx_ok t' bs'.
Proof.
  intros Ht Hs. destruct (Ht) as [Hi Hc Hf Hid Hl Hr Hq Hv Hd].
  destruct Hs as [s rs v d s' Hb|s rs v d i r b data s' Hri Hr0 Hbn Hbl Hlen Hw|s rs v d i r s' Hri He
    |s rs v d dev d' s' Hrc Hin|s r v d s1 w k dev d' s' He Hw Hrc Hin kept];
    [| | |exists []|exists []];
    cbn [tlog tops tview tdurable] in *; pose proof (sumZ_bound _ Hl) as Hsum.
  - exists bs. by eapply begin_ok.
  - destruct (write_ok s bs rs v d i r b data Ht Hri Hr0 Hbn Hbl Hlen) as (s1 & Hw1 & Hk); [by eapply log_write_room|].
    rewrite Hw in Hw1. injection Hw1 as <-. by exists (absorb b bs).
  - pose proof (lookup_lt_Some _ _ _ Hri) as Hlt.
    destruct (end_op_ok s bs Hi ltac:(lia) Hid) as (s1 & bs' & He1 & Hi1 & Ho1 & Hc1 & Hv1 & Hcase).
    rewrite He in He1. injection He1 as <-. exists bs'. pose proof (sumZ_split _ _ _ Hri) as Hss.
    assert (Hr1 : 0 <= r) by (rewrite Forall_lookup in Hl; specialize (Hl i r Hri); lia).
    assert (Hld : length (delete i rs) = (length rs - 1)%nat) by (by apply length_delete; exists r).
    split; cbn [tlog tops tview tdurable]; rewrite ?Hld; [done|lia|lia|done|by apply Forall_delete| | | |].
    + destruct (Z.eqb_spec (outstanding s) 1); destruct Hcase as [-> _]; cbn [length]; lia.
    + intros Hnil%(f_equal length). rewrite Hld in Hnil. cbn in Hnil.
      destruct (Z.eqb_spec (outstanding s) 1); [by destruct Hcase|lia].
    + intros b Hb. rewrite Hv1 by done. by apply Hv.
    + intros b Hb. destruct (Z.eqb_spec (outstanding s) 1) as [E|E], (Nat.eqb_spec (length rs) 1); try lia; destruct Hcase as [_ Hcase].
      * rewrite Hcase by done. by apply Hv.
      * rewrite Hcase. by apply Hd.
  - destruct (crash_ok s bs rs v d dev d' Ht Hrc) as (s2 & Hi2 & Hk). rewrite Hin in Hi2. by injection Hi2 as <-.
  - destruct (end_op_writes s bs Hi Hc Hid) as (h & s2 & Hh & _ & He2 & Hw2). rewrite He in He2. injection He2 as <-.
    rewrite Hw in Hw2. apply app_inv_head in Hw2 as ->.
    destruct (crash_end_ok s bs r v d h k dev d' Ht Hh Hrc) as (s2 & Hi2 & Hk). rewrite Hin in Hi2. by injection Hi2 as <-.
Qed.

Lemma reachable_tx_ok d t0 t : tboot d t0 -> rtc tstep t0 t -> exists bs, tx_ok t bs.
Proof.
  intros Hb Hr. assert (H0 : exists bs, tx_ok t0 bs) by (exists []; by eapply boot_ok). clear Hb.
  induction Hr as [|t0 t1 t2 Hs Hr IH]; [done|]. apply IH. destruct H0 as [bs H0]. by eapply tstep_ok.
Qed.

(** A log without outstanding operations admits one. *)
Lemma idle_admits t bs : tx_ok t bs -> tops t = [] -> exists s', begin_op (tlog t) = Ret true s'.
Proof.
  intros [Hi Hc Hf Hid Hl Hr Hq Hv Hd] Hnil.
  destruct (begin_op_cases (tlog t)) as ([|] & s' & Hb & Hcase); [eauto|]. exfalso.
  destruct (li_head _ _ Hi) as (_ & Hn & _). rewrite (Hq Hnil) in Hn. rewrite Hnil in Hc. unfold LOGSIZE, MAXOPBLOCKS in *.
  cbn in Hn, Hc. destruct Hcase as [_ [Hcase|Hcase]]; [by rewrite Hid in Hcase|lia].
Qed.

(** C5. In every run of operations, commits and crashes, where a crash may come
    between any two writes of the disk, inside a commit or a recovery too, the
    file system reads what the operations since the last crash have written and
    otherwise what was durable then, the disk holds exactly what the last commit
    that reached its header write made durable, and the next crash, however often
    its recovery is cut short, brings that back. The blocks kept in the cache
    until the commit are fewer than those of the log, so that with the log of
    [LOGSIZE] blocks that mkfs makes one of the [NBUF] buffers is always free to
    read into. *)
Theorem log_refines_transactions d t0 t :
  tboot d t0 -> rtc tstep t0 t ->
  Z.of_nat (base.size (dirty (lblk (tlog t)))) < size /\
  forall b, 0 <= b < N -> ~ in_log start size b ->
    (exists v, on_blk (bread b) (tlog t) = Ret v (tlog t) /\ tview t !! b = Some v) /\
    ddisk (lblk (tlog t)) !! b = tdurable t !! b /\
    forall dev d', recrashed dev (ddisk (lblk (tlog t))) d' ->
      exists s2, initlog dev start size (fresh d' 0 0 0) = Ret tt s2 /\ ddisk (lblk s2) !! b = tdurable t !! b.
Proof.
  intros Hb Hr. destruct (reachable_tx_ok d t0 t Hb Hr) as (bs & [Hi _ _ _ _ _ _ Hv Hd]).
  split; [by eapply log_inv_pinned|]. intros b Hbn Hnl. 
  specialize (Hv b Hnl). specialize (Hd b Hnl). split_and!; [|done|].
  - destruct (li_disk _ _ Hi b Hbn) as (v0 & Hv0 & _). unfold current in Hv.
    destruct (dirty (lblk (tlog t)) !! b) as [v|] eqn:E.
    + exists v. split; [by apply on_blk_bread_dirty|done].
    + exists v0. split; [by apply on_blk_bread_clean|]. by rewrite <- Hv.
  - intros dev d' Hc. set (d0 := ddisk (lblk (tlog t))) in *.
    assert (Hb' : before_commit d0 d').
    { eapply recrashed_keeps; [apply before_recovers|exact Hc|]. split; [apply Hi|done]. }
    destruct (before_recovers d0 dev d' Hb') as (s2 & Hrec & _ & _ & _ & Hd2).
    exists s2. rewrite initlog_recovers, Hd2 by done. done.
Qed.

End Crash.

(** The log mkfs makes has [LOGSIZE] blocks, of which the header takes one: three
    operations of ten blocks each are admitted, and the thirtieth block panics. *)
Lemma log_admits_more_than_it_holds d dev data :
  exists s3 s, (begin_op;; begin_op;; begin_op) (fresh d 2 LOGSIZE dev) = Ret true s3 /\
    for_each (seqZ 60 29) (fun b => log_write b (data b)) s3 = Ret tt s /\
    outstanding s = 3 /\ lh_n s = 29 /\
    forall b v, log_write b v s = Panic "too big a transaction".
Proof. eexists _, _. split; [reflexivity|]. split; [vm_compute; reflexivity|]. split_and!; [reflexivity|reflexivity|]. intros. reflexivity. Qed.

(** ** Witnesses *)

Definition blank_disk (N : Z) : gmap Z block := list_to_map ((fun b => (b, replicate BSIZE 0)) <$> seqZ 0 N).

Lemma blank_disk_at N b : 0 <= b < N -> blank_disk N !! b = Some (replicate BSIZE 0).
Proof.
  intros Hb. unfold blank_disk. apply elem_of_list_to_map.
  - rewrite <- list_fmap_compose. cbn. rewrite list_fmap_id. apply NoDup_seqZ.
  - apply list_elem_of_fmap. exists b. split; [done|]. apply elem_of_seqZ. lia.
Qed.

Lemma blank_disk_ok N : disk_ok N (blank_disk N).
Proof. intros b Hb. exists (replicate BSIZE 0). rewrite blank_disk_at by done. by rewrite length_replicate. Qed.

Lemma blank_head N start : 0 <= start < N -> head_says (blank_disk N) start [].
Proof. intros H. exists (replicate BSIZE 0). rewrite blank_disk_at by done. by rewrite length_replicate. Qed.

(** A log of four blocks with one modified block. *)
Definition one_write : log := Log (Blk (blank_disk 8) {[6 := replicate BSIZE 1]} []) 2 4 1 1 false 1 (6 :: replicate 29 0) 0.

Lemma one_write_inv : log_inv 2 4 8 one_write [6].
Proof.
  split; [by split_and!|done| | | |apply blank_disk_ok|by apply blank_head].
  - split_and!; [apply NoDup_singleton| |done|done]. apply Forall_singleton. unfold in_log. lia.
  - intros b. rewrite list_elem_of_singleton. cbn. split; [intros ->; by rewrite lookup_singleton_eq|].
    intros [v Hv]. by apply lookup_singleton_Some in Hv as [? _].
  - intros b v Hv. cbn in Hv. apply lookup_singleton_Some in Hv as [_ <-]. reflexivity.
Qed.

Lemma commit_crash_atomic_witness :
  exists s' w, commit one_write = Ret tt s' /\ dwrites (lblk s') = [] ++ w /\ length w = 4%nat /\
    forall dev k d, recrashed 2 4 dev (apply_writes (take k w) (blank_disk 8)) d ->
      exists s2, recover_from_log (fresh d 2 4 dev) = Ret tt s2 /\ dirty (lblk s2) = ∅ /\
        forall b, ~ in_log 2 4 b ->
          ddisk (lblk s2) !! b = if (k <=? 1)%nat then blank_disk 8 !! b else current one_write b.
Proof. apply (commit_crash_atomic 2 4 8 ltac:(lia) ltac:(lia) ltac:(lia) ltac:(lia) one_write [6] one_write_inv ltac:(done)). Defined.

(** A run that boots a blank disk of 64 blocks with the 30 blocks of
    log that mkfs makes. *)
Lemma blank_boots : exists t0, tboot 2 30 64 (blank_disk 64) t0.
Proof.
  destruct (recover_empty 2 30 64 ltac:(lia) ltac:(lia) 1 (blank_disk 64)) as (s & h & lb & Hr & _); [by apply blank_head|].
  exists (Tx s [] (ddisk (lblk s)) (ddisk (lblk s))), 1, []. split_and!; [apply blank_disk_ok|by apply blank_head| |exact Hr|done..].
  by apply logged_ok_nil.
Qed.

(** An operation writes block 40 and the machine crashes in its commit, after [k]
    writes. *)
Lemma sample_run k : exists t0 t, tboot 2 30 64 (blank_disk 64) t0 /\ rtc (tstep 2 30 64) t0 t /\
  tdurable t !! 40 = if (k <=? 1)%nat then tdurable t0 !! 40 else Some (replicate BSIZE 7).
Proof.
  destruct blank_boots as [t0 Hb]. pose proof (boot_ok 2 30 64 ltac:(lia) ltac:(lia) ltac:(lia) ltac:(lia) _ _ Hb) as Hok0.
  assert (Hops : tops t0 = []) by (by destruct Hb as (? & ? & _ & _ & _ & _ & ? & _)).
  destruct (idle_admits 2 30 64 t0 [] Hok0 Hops) as [s1 H1]. destruct t0 as [s0 rs v d]. cbn in Hops. subst rs.
  pose proof (t_begin 2 30 64 s0 [] v d s1 H1) as Hs1.
  assert (Hok1 : tx_ok 2 30 64 (Tx s1 ([] ++ [MAXOPBLOCKS]) v d) []).
  { by apply (begin_ok 2 30 64 s0). }
  destruct (write_ok 2 30 64 s1 [] ([] ++ [MAXOPBLOCKS]) v d 0%nat MAXOPBLOCKS 40
    (replicate BSIZE 7) Hok1 eq_refl ltac:(done) ltac:(lia) ltac:(unfold in_log; lia) eq_refl ltac:(done)) as (s2 & H2 & Hok2).
  pose proof (t_write 2 30 64 s1 ([] ++ [MAXOPBLOCKS]) v d 0%nat MAXOPBLOCKS 40 (replicate BSIZE 7) s2 eq_refl ltac:(done) ltac:(lia)
                ltac:(unfold in_log; lia) eq_refl H2) as Hs2.
  destruct (crash_end_total 2 30 64 ltac:(lia) ltac:(lia) ltac:(lia) ltac:(lia) s2 _ 9 _ d k 1 Hok2) as [s3 Hs3]. cbv zeta in Hs3.
  assert (Hn : lh_n s2 = 1) by (destruct (li_head _ _ _ _ _ (tk_inv _ _ _ _ _ Hok2)) as (_ & Hn & _); exact Hn).
  eexists _, _. split; [exact Hb|]. split; [eapply rtc_l; [exact Hs1|]; eapply rtc_l; [exact Hs2|]; eapply rtc_once, Hs3|].
  cbn [tdurable]. rewrite Hn. change (Z.to_nat 1) with 1%nat. destruct (k <=? 1)%nat; [done|apply lookup_insert_eq].
Qed.

(** The crash comes just after the header write, so the write of block 40 is
    durable. *)
Lemma log_refines_transactions_witness :
  exists t, tdurable t !! 40 = Some (replicate BSIZE 7) /\ Z.of_nat (base.size (dirty (lblk (tlog t)))) < 30 /\
    forall b, 0 <= b < 64 -> ~ in_log 2 30 b ->
    (exists v, on_blk (bread b) (tlog t) = Ret v (tlog t) /\ tview t !! b = Some v) /\
    ddisk (lblk (tlog t)) !! b = tdurable t !! b /\
    forall dev d', recrashed 2 30 dev (ddisk (lblk (tlog t))) d' ->
      exists s2, initlog dev 2 30 (fresh d' 0 0 0) = Ret tt s2 /\ ddisk (lblk s2) !! b = tdurable t !! b.
Proof.
  destruct (sample_run 2) as (t0 & t & Hb & Hr & Hd). exists t. split; [exact Hd|].
  apply (log_refines_transactions 2 30 64 ltac:(lia) ltac:(lia) ltac:(lia) ltac:(lia) _ t0 t Hb Hr).
Defined.
