(* ===== verification/Sleeplock.v ===== *)
(** * Sleeplock: the long-term locks of sleeplock.c

    A sleep lock is its [locked] word and the pid of its holder; its name is
    only printed.  Each operation is one critical section of the spin lock
    inside.  [acquiresleep] is cut where it sleeps: a leg that finds the lock
    held returns [false], and the process runs another leg when it is woken.
    [slwakes] counts the calls of [wakeup(lk)]. *)

From S2P Require Import Prelude.

Record sleeplock := SleepLock { sl_locked : Z; sl_pid : Z; slwakes : nat }.
#[export] Instance eta_sleeplock : Eta sleeplock := fun r => SleepLock (sl_locked r) (sl_pid r) (slwakes r).

Definition initsleeplock : M sleeplock unit := modify (fun l => l <| sl_locked := 0 |> <| sl_pid := 0 |>).

Definition acquiresleep (pid : Z) : M sleeplock bool :=
  l ← gets (fun l => l);
  if negb (sl_locked l =? 0) then mret false
  else modify (fun l => l <| sl_locked := 1 |> <| sl_pid := pid |>);; mret true.

Definition releasesleep : M sleeplock unit :=
  modify (fun l => l <| sl_locked := 0 |> <| sl_pid := 0 |> <| slwakes ::= S |>).

Definition holdingsleep (pid : Z) : M sleeplock bool :=
  l ← gets (fun l => l); mret (negb (sl_locked l =? 0) && (sl_pid l =? pid)).

(** ** Processes at a sleep lock

    Each process is outside, trying (about to run a leg of [acquiresleep]),
    asleep on the lock, or holding it.  The sleepers are woken by the calls of
    [wakeup(lk)] that an operation makes, and by nothing else. *)

Inductive slpc := SlOut | SlTrying | SlAsleep | SlHolds.
#[export] Instance slpc_eq : EqDecision slpc.
Proof. solve_decision. Defined.

Definition sl_woken (p : slpc) : slpc := match p with SlAsleep => SlTrying | p => p end.

(** The processes after an operation that took the lock from [l] to [l']. *)
Definition sl_wakes (l l' : sleeplock) (ps : list slpc) : list slpc :=
  if (slwakes l <? slwakes l')%nat then sl_woken <$> ps else ps.

Inductive slstep (pids : list Z) : sleeplock * list slpc -> sleeplock * list slpc -> Prop :=
| sl_ask l ps i : ps !! i = Some SlOut -> slstep pids (l, ps) (l, <[i := SlTrying]> ps)
| sl_leg l ps i pid r l' :
    ps !! i = Some SlTrying -> pids !! i = Some pid -> acquiresleep pid l = Ret r l' ->
    slstep pids (l, ps) (l', sl_wakes l l' (<[i := if r : bool then SlHolds else SlAsleep]> ps))
| sl_rel l ps i l' :
    ps !! i = Some SlHolds -> releasesleep l = Ret tt l' ->
    slstep pids (l, ps) (l', sl_wakes l l' (<[i := SlOut]> ps)).

Record sl_inv (pids : list Z) (l : sleeplock) (ps : list slpc) : Prop := {
  sl_free : sl_locked l = 0 -> SlHolds ∉ ps /\ SlAsleep ∉ ps;
  sl_held : sl_locked l <> 0 -> exists i pid, ps !! i = Some SlHolds /\ pids !! i = Some pid /\ sl_pid l = pid;
  sl_one : forall i j, ps !! i = Some SlHolds -> ps !! j = Some SlHolds -> i = j
}.

Lemma acquiresleep_cases pid l : acquiresleep pid l =
  if sl_locked l =? 0 then Ret true (l <| sl_locked := 1 |> <| sl_pid := pid |>) else Ret false l.
Proof. unfold acquiresleep. msimp. by destruct (sl_locked l =? 0). Qed.

Lemma not_in_insert {A} (l : list A) i x y : x ∉ l -> x <> y -> x ∉ <[i := y]> l.
Proof.
  intros Hx Hne Hin. apply list_elem_of_lookup in Hin as [j Hj].
  destruct (decide (i = j)) as [<-|Hij].
  - apply list_lookup_insert_Some in Hj as [(_ & ? & _)|(? & _)]; done.
  - rewrite list_lookup_insert_ne in Hj by done. by eapply Hx, list_elem_of_lookup_2.
Qed.

Lemma insert_holds_other (ps : list slpc) i j p : p <> SlHolds -> ps !! i <> Some SlHolds ->
  <[i := p]> ps !! j = Some SlHolds <-> ps !! j = Some SlHolds.
Proof.
  intros Hp Hi. destruct (decide (i = j)) as [<-|Hij]; [|by rewrite list_lookup_insert_ne].
  split; [|done]. intros Hj. apply list_lookup_insert_Some in Hj as [(_ & ? & _)|(? & _)]; done.
Qed.

Lemma sl_inv_step pids l ps l' ps' : sl_inv pids l ps -> slstep pids (l, ps) (l', ps') -> sl_inv pids l' ps'.
Proof.
  intros [Hf Hh H1] Hs. inversion Hs as [? ? i Hi|? ? i pid r ? Hi Hpid Ha|? ? i ? Hi Hr]; simplify_eq.
  - assert (Ho : forall j, <[i := SlTrying]> ps !! j = Some SlHolds <-> ps !! j = Some SlHolds)
      by (intros j; apply insert_holds_other; [done|by rewrite Hi]).
    split; [intros [? ?]%Hf; split; by apply not_in_insert| |].
    + intros (j & pid & Hj & ?)%Hh. exists j, pid. by rewrite Ho.
    + intros j k. rewrite !Ho. apply H1.
  - rewrite acquiresleep_cases in Ha. destruct (Z.eqb_spec (sl_locked l) 0) as [E|E]; simplify_eq;
      unfold sl_wakes; cbn [slwakes setf]; rewrite Nat.ltb_irrefl.
    + destruct (Hf E) as [Hno _]. split; [done| |].
      * intros _. exists i, pid. by rewrite list_lookup_insert_eq by (by eapply lookup_lt_Some).
      * assert (Ho : forall j, <[i := SlHolds]> ps !! j = Some SlHolds -> j = i).
        { intros j Hj. destruct (decide (i = j)); [done|]. rewrite list_lookup_insert_ne in Hj by done.
          exfalso. by eapply Hno, list_elem_of_lookup_2. }
        intros j k Hj%Ho Hk%Ho. congruence.
    + assert (Ho : forall j, <[i := SlAsleep]> ps !! j = Some SlHolds <-> ps !! j = Some SlHolds)
        by (intros j; apply insert_holds_other; [done|by rewrite Hi]).
      split; [done| |intros j k; rewrite !Ho; apply H1].
      intros _. destruct (Hh E) as (j & p & Hj & ?). exists j, p. by rewrite Ho.
  - injection Hr as <-. unfold sl_wakes. cbn [slwakes setf]. rewrite (proj2 (Nat.ltb_lt _ _) (Nat.lt_succ_diag_r (slwakes l))).
    assert (Hno : forall p, p = SlHolds \/ p = SlAsleep -> p ∉ sl_woken <$> <[i := SlOut]> ps).
    { intros p Hp (q & -> & Hq)%list_elem_of_fmap. destruct q; cbn in Hp; try (by destruct Hp).
      apply list_elem_of_lookup in Hq as [j Hj]. destruct (decide (i = j)) as [<-|Hij].
      - rewrite list_lookup_insert_eq in Hj by (by eapply lookup_lt_Some). done.
      - rewrite list_lookup_insert_ne in Hj by done. by pose proof (H1 i j Hi Hj). }
    split; [intros _; split; apply Hno; eauto|done|].
    intros j k Hj. exfalso. eapply (Hno SlHolds); [by left|by eapply list_elem_of_lookup_2].
Qed.

Lemma sl_inv_reachable pids l n x : sl_locked l = 0 -> rtc (slstep pids) (l, replicate n SlOut) x -> sl_inv pids x.1 x.2.
Proof.
  intros H0 Hr. assert (Hi : sl_inv pids (l, replicate n SlOut).1 (l, replicate n SlOut).2).
  { split; cbn; [intros _; split; intros [? _]%elem_of_replicate; done|done|].
    intros i j Hi. apply lookup_replicate in Hi as [? _]. done. }
  revert Hi. induction Hr as [|[l1 p1] [l2 p2] z Hs Hr IH]; intros Hi; [done|]. apply IH. by eapply sl_inv_step.
Qed.

(** C37. Over every interleaving at most one process holds the lock, its pid is the
    recorded one, and no process sleeps on a free lock: the wakeup that every
    release makes, under the lock, reaches those that wait. *)
Theorem sleeplock_exclusive pids l n l' ps :
  sl_locked l = 0 -> rtc (slstep pids) (l, replicate n SlOut) (l', ps) ->
  (forall i j, ps !! i = Some SlHolds -> ps !! j = Some SlHolds -> i = j) /\
  (forall i, ps !! i = Some SlHolds -> pids !! i = Some (sl_pid l') /\ sl_locked l' <> 0) /\
  (SlAsleep ∈ ps -> exists i, ps !! i = Some SlHolds).
Proof.
  intros H0 Hr. destruct (sl_inv_reachable pids l n _ H0 Hr) as [Hf Hh H1]. cbn in *. split_and!; [done| |].
  - intros i Hi. assert (Hl : sl_locked l' <> 0).
    { intros E. destruct (Hf E) as [Hno _]. by eapply Hno, list_elem_of_lookup_2. }
    split; [|done]. destruct (Hh Hl) as (j & pid & Hj & Hp & ->). by rewrite (H1 i j Hi Hj).
  - intros Ha. destruct (decide (sl_locked l' = 0)) as [E|E]; [by destruct (Hf E)|].
    destruct (Hh E) as (i & _ & ? & _). eauto.
Qed.

(** Process 1 takes the lock, process 0 goes to sleep, 1 releases it, and 0, which
    that has woken, takes it. *)
Lemma sleeplock_exclusive_witness :
  let l := SleepLock 1 7 1 in let ps := [SlHolds; SlOut] in
  (forall i j, ps !! i = Some SlHolds -> ps !! j = Some SlHolds -> i = j) /\
  (forall i, ps !! i = Some SlHolds -> [7; 8] !! i = Some (sl_pid l) /\ sl_locked l <> 0) /\
  (SlAsleep ∈ ps -> exists i, ps !! i = Some SlHolds).
Proof.
  apply (sleeplock_exclusive [7; 8] (SleepLock 0 0 0) 2 (SleepLock 1 7 1) [SlHolds; SlOut]); [reflexivity|].
  eapply rtc_l; [apply (sl_ask _ _ _ 0%nat); reflexivity|].
  eapply rtc_l; [apply (sl_ask _ _ _ 1%nat); reflexivity|].
  eapply rtc_l; [apply (sl_leg _ _ _ 1%nat 8 true (SleepLock 1 8 0)); reflexivity|].
  eapply rtc_l; [apply (sl_leg _ _ _ 0%nat 7 false (SleepLock 1 8 0)); reflexivity|].
  eapply rtc_l; [apply (sl_rel _ _ _ 1%nat (SleepLock 0 0 1)); reflexivity|].
  eapply rtc_l; [apply (sl_leg _ _ _ 0%nat 7 true (SleepLock 1 7 1)); reflexivity|].
  apply rtc_refl.
Defined.
