(* ===== verification/Bio.v ===== *)
(** * Bio: the buffer cache of bio.c

    Buffers are the elements of [bcache.buf]; a pointer to one is its index, and
    the index [HEAD] is [bcache.head].  The list of all buffers is the doubly
    linked list of the code, with its [prev] and [next] pointers.

    The operations are the critical sections of [bcache.lock] and of the
    buffers' sleep locks; they run one after another in any order (BioSys.v).
    The disk driver is an interface ([Driver]): Ide.v and Memide.v implement it. *)

From S2P Require Import Prelude Sleeplock.

Notation block := (list Z).

Definition NBUF : nat := 30.
Definition HEAD : nat := 30.
Definition B_VALID : Z := 2.
Definition B_DIRTY : Z := 4.

Record buf := Buf {
  bflags : Z; bdev : Z; bblockno : Z; bsleep : sleeplock; brefcnt : Z;
  bprev : nat; bnext : nat; bdata : block
}.
#[export] Instance eta_buf : Eta buf := fun r =>
  Buf (bflags r) (bdev r) (bblockno r) (bsleep r) (brefcnt r) (bprev r) (bnext r) (bdata r).

(** The cache above a driver with state [D]. *)
Record bio (D : Type) := Bio { bufs : list buf; drv : D }.
Arguments Bio {D} bufs drv.
Arguments bufs {D} b.
Arguments drv {D} b.
#[export] Instance eta_bio D : Eta (bio D) := fun r => Bio (bufs r) (drv r).

Section Ops.
Context {D : Type}.

Definition get_buf (b : nat) : M (bio D) buf := s ← gets bufs; deref (s !! b).
Definition upd_buf (b : nat) (f : buf -> buf) : M (bio D) unit :=
  _ ← get_buf b; modify (fun s => s <| bufs ::= alter f b |>).

Definition on_lock {A} (b : nat) (m : M sleeplock A) : M (bio D) A :=
  x ← get_buf b;
  match m (bsleep x) with
  | Ret a l => upd_buf b (fun x => x <| bsleep := l |>);; mret a
  | Panic msg => panic msg | Undef => undef | Spin => spin
  end.

Definition binit : M (bio D) unit :=
  upd_buf HEAD (fun h => h <| bprev := HEAD |>);;
  upd_buf HEAD (fun h => h <| bnext := HEAD |>);;
  for_each (seq 0 NBUF) (fun b =>
    h ← get_buf HEAD;
    upd_buf b (fun x => x <| bnext := bnext h |>);;
    upd_buf b (fun x => x <| bprev := HEAD |>);;
    on_lock b initsleeplock;;
    upd_buf (bnext h) (fun x => x <| bprev := b |>);;
    upd_buf HEAD (fun x => x <| bnext := b |>)).

(** Is the block already cached?  The scan along [next]. *)
Fixpoint bget_cached (fuel : nat) (b : nat) (dev blockno : Z) : M (bio D) (option nat) :=
  match fuel with
  | O => spin
  | S fuel =>
      if (b =? HEAD)%nat then mret None
      else x ← get_buf b;
        if (bdev x =? dev) && (bblockno x =? blockno) then mret (Some b)
        else bget_cached fuel (bnext x) dev blockno
  end.

(** Not cached; recycle an unused buffer.  The scan along [prev]. *)
Fixpoint bget_unused (fuel : nat) (b : nat) : M (bio D) (option nat) :=
  match fuel with
  | O => spin
  | S fuel =>
      if (b =? HEAD)%nat then mret None
      else x ← get_buf b;
        if (brefcnt x =? 0) && (Z.land (bflags x) B_DIRTY =? 0) then mret (Some b)
        else bget_unused fuel (bprev x)
  end.

(** The part of [bget] under [bcache.lock]: the buffer it then locks. *)
Definition bget (dev blockno : Z) : M (bio D) nat :=
  h ← get_buf HEAD;
  c ← bget_cached (S NBUF) (bnext h) dev blockno;
  match c with
  | Some b => upd_buf b (fun x => x <| brefcnt ::= fun n => u32 (n + 1) |>);; mret b
  | None =>
      h ← get_buf HEAD;
      u ← bget_unused (S NBUF) (bprev h);
      match u with
      | Some b =>
          upd_buf b (fun x => x <| bdev := dev |> <| bblockno := blockno |> <| bflags := 0 |> <| brefcnt := 1 |>);;
          mret b
      | None => panic "bget: no buffers"
      end
  end.

(** The first half of [brelse]: release the sleep lock. *)
Definition brelse_unlock (pid : Z) (b : nat) : M (bio D) unit :=
  h ← on_lock b (holdingsleep pid);
  if negb h then panic "brelse" else on_lock b releasesleep.

(** The second half: drop the reference and move the buffer to the front. *)
Definition brelse_unref (b : nat) : M (bio D) unit :=
  upd_buf b (fun x => x <| brefcnt ::= fun n => u32 (n - 1) |>);;
  x ← get_buf b;
  if brefcnt x =? 0 then
    upd_buf (bnext x) (fun y => y <| bprev := bprev x |>);;
    upd_buf (bprev x) (fun y => y <| bnext := bnext x |>);;
    h ← get_buf HEAD;
    upd_buf b (fun y => y <| bnext := bnext h |>);;
    upd_buf b (fun y => y <| bprev := HEAD |>);;
    upd_buf (bnext h) (fun y => y <| bprev := b |>);;
    upd_buf HEAD (fun y => y <| bnext := b |>)
  else mret tt.

(** The test of the loop in which iderw waits: is the request finished? *)
Definition iderw_done (b : nat) : M (bio D) bool :=
  x ← get_buf b; mret (Z.land (bflags x) (Z.lor B_VALID B_DIRTY) =? B_VALID).

End Ops.

(** ** Runs of buffers along their pointers *)

Definition nextp (l : list buf) (a : nat) : option nat := bnext <$> l !! a.
Definition prevp (l : list buf) (a : nat) : option nat := bprev <$> l !! a.

Fixpoint chain (nx : nat -> option nat) (l : list nat) : Prop :=
  match l with
  | [] => True
  | a :: l' => match l' with [] => True | b :: _ => nx a = Some b /\ chain nx l' end
  end.

(** [l] is the list of buffers, most recently used first. *)
Definition linked (bs : list buf) (l : list nat) : Prop :=
  chain (nextp bs) (HEAD :: l ++ [HEAD]) /\ chain (prevp bs) (HEAD :: rev l ++ [HEAD]).

Lemma chain_cons2 nx a b l : chain nx (a :: b :: l) <-> nx a = Some b /\ chain nx (b :: l).
Proof. done. Qed.

Lemma chain_app nx l1 a l2 : chain nx (l1 ++ a :: l2) <-> chain nx (l1 ++ [a]) /\ chain nx (a :: l2).
Proof.
  induction l1 as [|b l1 IH]; [split; [intros H; split; [exact I|exact H]|by intros [_ ?]]|]. destruct l1 as [|c l1].
  - cbn [app]. rewrite !chain_cons2. cbn [chain]. naive_solver.
  - change ((b :: c :: l1) ++ a :: l2) with (b :: c :: (l1 ++ a :: l2)).
    change ((b :: c :: l1) ++ [a]) with (b :: c :: (l1 ++ [a])). rewrite !chain_cons2.
    change (c :: l1 ++ a :: l2) with ((c :: l1) ++ a :: l2). rewrite IH. cbn [app]. naive_solver.
Qed.

Lemma chain_ext nx nx' l z : (forall a, a ∈ l -> nx a = nx' a) -> chain nx (l ++ [z]) -> chain nx' (l ++ [z]).
Proof.
  induction l as [|a l IH]; intros H Hc; [done|]. destruct l as [|b l].
  - cbn in *. by rewrite <- H by set_solver.
  - change ((a :: b :: l) ++ [z]) with (a :: b :: (l ++ [z])) in *. rewrite chain_cons2 in *.
    destruct Hc as [H1 H2]. split; [by rewrite <- H by set_solver|]. apply (IH ltac:(set_solver) H2).
Qed.

(** The first element of [l], or the head. *)
Definition first (l : list nat) : nat := hd HEAD l.


Lemma elem_rev {A} (x : A) l : x ∈ rev l <-> x ∈ l.
Proof. by rewrite !list_elem_of_In, <- in_rev. Qed.

Lemma nodup_rev {A} (l : list A) : NoDup l -> NoDup (rev l).
Proof. by rewrite <- Permutation_rev. Qed.

(** A list of all buffers. *)
Record lru (bs : list buf) (l : list nat) : Prop := {
  lru_linked : linked bs l;
  lru_perm : l ≡ₚ seq 0 NBUF;
  lru_len : length bs = S NBUF
}.

Lemma lru_nodup bs l : lru bs l -> NoDup l.
Proof. intros [_ H _]. rewrite H. apply NoDup_seq. Qed.

Lemma lru_elem bs l b : lru bs l -> b ∈ l <-> (b < NBUF)%nat.
Proof. intros [_ H _]. rewrite H, elem_of_seq. lia. Qed.

Lemma lru_no_head bs l : lru bs l -> HEAD ∉ l.
Proof. intros H. rewrite (lru_elem _ _ _ H). unfold HEAD, NBUF. lia. Qed.

Lemma lru_length bs l : lru bs l -> length l = NBUF.
Proof. intros [_ H _]. by rewrite H, length_seq. Qed.

Lemma lru_get bs l b : lru bs l -> (b <= NBUF)%nat -> exists x, bs !! b = Some x.
Proof. intros [_ _ H] Hb. apply lookup_lt_is_Some_2. lia. Qed.

Section Scan.
Context {D : Type}.
Implicit Types s : bio D.

Definition has_key (bs : list buf) (dev blockno : Z) (b : nat) : bool :=
  match bs !! b with Some x => (bdev x =? dev) && (bblockno x =? blockno) | None => false end.
Definition unused (bs : list buf) (b : nat) : bool :=
  match bs !! b with Some x => (brefcnt x =? 0) && (Z.land (bflags x) B_DIRTY =? 0) | None => false end.

Lemma get_buf_ok s b x : bufs s !! b = Some x -> get_buf b s = Ret x s.
Proof. intros H. unfold get_buf. msimp. by rewrite H. Qed.

Lemma upd_buf_ok s b x f : bufs s !! b = Some x -> upd_buf b f s = Ret tt (s <| bufs ::= alter f b |>).
Proof. intros H. unfold upd_buf. by rewrite (bind_ret _ _ _ _ _ (get_buf_ok s b x H)). Qed.

Lemma bget_cached_ok s dev blockno l fuel :
  chain (nextp (bufs s)) (l ++ [HEAD]) -> HEAD ∉ l -> (length l < fuel)%nat ->
  bget_cached fuel (first l) dev blockno s = Ret (List.find (has_key (bufs s) dev blockno) l) s.
Proof.
  revert fuel. induction l as [|b l IH]; intros [|fuel] Hc Hno Hf; try (cbn in Hf; lia); [done|].
  cbn [bget_cached first hd]. destruct (Nat.eqb_spec b HEAD) as [->|Hne]; [set_solver|].
  assert (Hn : nextp (bufs s) b = Some (first l)) by (destruct l; by destruct Hc).
  unfold nextp in Hn. destruct (bufs s !! b) as [x|] eqn:E; [|done]. injection Hn as Hn.
  rewrite (bind_ret _ _ _ _ _ (get_buf_ok s b x E)). cbn [List.find]. unfold has_key at 1. rewrite E.
  destruct ((bdev x =? dev) && (bblockno x =? blockno)); [done|]. rewrite Hn.
  apply IH; [by destruct l; [|destruct Hc]|set_solver|cbn in Hf; lia].
Qed.

Lemma bget_unused_ok s l fuel :
  chain (prevp (bufs s)) (l ++ [HEAD]) -> HEAD ∉ l -> (length l < fuel)%nat ->
  bget_unused fuel (first l) s = Ret (List.find (unused (bufs s)) l) s.
Proof.
  revert fuel. induction l as [|b l IH]; intros [|fuel] Hc Hno Hf; try (cbn in Hf; lia); [done|].
  cbn [bget_unused first hd]. destruct (Nat.eqb_spec b HEAD) as [->|Hne]; [set_solver|].
  assert (Hn : prevp (bufs s) b = Some (first l)) by (destruct l; by destruct Hc).
  unfold prevp in Hn. destruct (bufs s !! b) as [x|] eqn:E; [|done]. injection Hn as Hn.
  rewrite (bind_ret _ _ _ _ _ (get_buf_ok s b x E)). cbn [List.find]. unfold unused at 1. rewrite E.
  destruct ((brefcnt x =? 0) && (Z.land (bflags x) B_DIRTY =? 0)); [done|]. rewrite Hn.
  apply IH; [by destruct l; [|destruct Hc]|set_solver|cbn in Hf; lia].
Qed.

Lemma chain_head nx l : chain nx (HEAD :: l ++ [HEAD]) -> nx HEAD = Some (first l) /\ chain nx (l ++ [HEAD]).
Proof. destruct l as [|b l]; [by intros [? _]|]. intros [? ?]. done. Qed.

(** [bget]: the cached buffer, or the least recently used one that is free. *)
Lemma bget_ok s l dev blockno : lru (bufs s) l ->
  bget dev blockno s =
    match List.find (has_key (bufs s) dev blockno) l with
    | Some b => Ret b (s <| bufs ::= alter (fun x => x <| brefcnt ::= fun n => u32 (n + 1) |>) b |>)
    | None =>
        match List.find (unused (bufs s)) (rev l) with
        | Some b => Ret b (s <| bufs ::= alter (fun x => x <| bdev := dev |> <| bblockno := blockno |>
                                                          <| bflags := 0 |> <| brefcnt := 1 |>) b |>)
        | None => Panic "bget: no buffers"
        end
    end.
Proof.
  intros Hl. pose proof (lru_no_head _ _ Hl) as Hno. pose proof (lru_length _ _ Hl) as Hlen.
  destruct (lru_get _ _ HEAD Hl ltac:(done)) as [h Hh]. destruct (lru_linked _ _ Hl) as [Hn Hp].
  apply chain_head in Hn as [Hn Hcn], Hp as [Hp Hcp]. unfold nextp, prevp in Hn, Hp. rewrite Hh in Hn, Hp.
  injection Hn as Hn. injection Hp as Hp. unfold bget. rewrite (bind_ret _ _ _ _ _ (get_buf_ok s HEAD h Hh)), Hn.
  rewrite (bind_ret _ _ _ _ _ (bget_cached_ok s dev blockno l (S NBUF) Hcn Hno ltac:(lia))).
  assert (Hin : forall f l' b, List.find f l' = Some b -> (forall a, a ∈ l' -> (a < NBUF)%nat) -> exists x, bufs s !! b = Some x).
  { intros f l' b [Hb _]%find_some Hr. apply (lru_get _ l); [done|]. apply list_elem_of_In in Hb. specialize (Hr b Hb). lia. }
  destruct (List.find (has_key (bufs s) dev blockno) l) as [b|] eqn:E.
  - destruct (Hin _ _ _ E) as [x Hx]; [intros a; by rewrite (lru_elem _ _ _ Hl)|].
    by rewrite (bind_ret _ _ _ _ _ (upd_buf_ok s b x _ Hx)).
  - rewrite (bind_ret _ _ _ _ _ (get_buf_ok s HEAD h Hh)), Hp.
    rewrite (bind_ret _ _ _ _ _ (bget_unused_ok s (rev l) (S NBUF) Hcp ltac:(by rewrite elem_rev) ltac:(rewrite length_rev; lia))).
    destruct (List.find (unused (bufs s)) (rev l)) as [b|] eqn:E'; [|done].
    destruct (Hin _ _ _ E') as [x Hx].
    { intros a Ha. apply (lru_elem _ _ _ Hl). by apply elem_rev. }
    by rewrite (bind_ret _ _ _ _ _ (upd_buf_ok s b x _ Hx)).
Qed.

End Scan.

(** ** Moving a buffer to the front *)

(** Everything of a buffer but its links. *)
Definition core (x : buf) : buf := x <| bprev := 0%nat |> <| bnext := 0%nat |>.

Lemma alter_lookup (f : buf -> buf) (i : nat) (bs : list buf) (a : nat) : alter f i bs !! a = if decide (a = i) then f <$> bs !! a else bs !! a.
Proof. destruct (decide (a = i)) as [->|]; [apply list_lookup_alter_eq|by apply list_lookup_alter_ne]. Qed.

Lemma nextp_alter (f : buf -> buf) (i : nat) (bs : list buf) (a : nat) : nextp (alter f i bs) a = if decide (a = i) then (fun x => bnext (f x)) <$> bs !! a else nextp bs a.
Proof. unfold nextp. rewrite alter_lookup. destruct (decide (a = i)); [|done]. by destruct (bs !! a). Qed.

Lemma prevp_alter (f : buf -> buf) (i : nat) (bs : list buf) (a : nat) : prevp (alter f i bs) a = if decide (a = i) then (fun x => bprev (f x)) <$> bs !! a else prevp bs a.
Proof. unfold prevp. rewrite alter_lookup. destruct (decide (a = i)); [|done]. by destruct (bs !! a). Qed.

Lemma chain_ext_all nx nx' l : (forall a, nx a = nx' a) -> chain nx l -> chain nx' l.
Proof.
  intros H. induction l as [|a l IH]; [done|]. destruct l as [|b l]; [done|]. rewrite !chain_cons2, <- H. naive_solver.
Qed.

(** Fields other than the links. *)
Lemma lru_alter (f : buf -> buf) (b : nat) (bs : list buf) l : (forall x, bnext (f x) = bnext x /\ bprev (f x) = bprev x) -> lru bs l -> lru (alter f b bs) l.
Proof.
  intros Hf [[Hn Hp] Hperm Hl]. split; [|done|by rewrite length_alter]. split.
  - eapply chain_ext_all, Hn. intros a. rewrite nextp_alter. unfold nextp. destruct (decide (a = b)); [|done].
    destruct (bs !! a) as [x|]; [|done]. cbn. by rewrite (proj1 (Hf x)).
  - eapply chain_ext_all, Hp. intros a. rewrite prevp_alter. unfold prevp. destruct (decide (a = b)); [|done].
    destruct (bs !! a) as [x|]; [|done]. cbn. by rewrite (proj2 (Hf x)).
Qed.

(** Taking an element out of a chain, and adding one at its end. *)
Lemma chain_skip nx nx' l1 p b l2 z :
  chain nx (l1 ++ p :: b :: l2 ++ [z]) -> NoDup (l1 ++ p :: l2) -> nx' p = Some (hd z l2) ->
  (forall a, a ∈ l1 ++ l2 -> nx' a = nx a) -> chain nx' (l1 ++ p :: l2 ++ [z]).
Proof.
  intros Hc Hnd Hp Hs. apply chain_app in Hc as [Hc1 Hc2]. apply chain_app. split.
  - eapply chain_ext, Hc1. intros a Ha. symmetry. apply Hs. set_solver.
  - rewrite chain_cons2 in Hc2. destruct Hc2 as [_ Hc2].
    assert (Hc3 : chain nx (l2 ++ [z])) by (destruct l2; [done|]; cbn [app] in *; rewrite chain_cons2 in Hc2; by destruct Hc2).
    assert (Hc4 : chain nx' (l2 ++ [z])) by (eapply chain_ext, Hc3; intros a Ha; symmetry; apply Hs; set_solver).
    destruct l2; done.
Qed.

Lemma chain_snoc nx nx' l f b z :
  chain nx (l ++ f :: [z]) -> nx' f = Some b -> nx' b = Some z -> (forall a, a ∈ l -> nx' a = nx a) ->
  chain nx' (l ++ f :: [b; z]).
Proof.
  intros Hc Hf Hb Hs. apply chain_app in Hc as [Hc _]. apply chain_app. split; [|by cbn].
  eapply chain_ext, Hc. intros a Ha. symmetry. by apply Hs.
Qed.

Definition unlink (x : buf) (bs : list buf) : list buf :=
  alter (fun y => y <| bnext := bnext x |>) (bprev x) (alter (fun y => y <| bprev := bprev x |>) (bnext x) bs).

Definition push_front (b : nat) (h : buf) (bs : list buf) : list buf :=
  alter (fun y => y <| bnext := b |>) HEAD
    (alter (fun y => y <| bprev := b |>) (bnext h)
      (alter (fun y => y <| bprev := HEAD |>) b (alter (fun y => y <| bnext := bnext h |>) b bs))).

Lemma head_snoc l : exists l' f, HEAD :: rev l = l' ++ [f] /\ f = first l /\ (l' = [] <-> l = []) /\
  (forall a, a ∈ l' -> a = HEAD \/ a ∈ l) /\ (NoDup (HEAD :: l) -> f ∉ l').
Proof.
  destruct l as [|c l]; [exists [], HEAD; split_and!; [done|done|done|set_solver|set_solver]|].
  exists (HEAD :: rev l), c. split_and!; [done|done|done| |].
  - intros a. rewrite elem_of_cons, elem_rev. set_solver.
  - rewrite !NoDup_cons. intros (Hh & Hc & _) [->|Hin]%elem_of_cons; [set_solver|by rewrite elem_rev in Hin].
Qed.

Lemma linked_around bs l1 b l2 : linked bs (l1 ++ b :: l2) ->
  nextp bs b = Some (first l2) /\ prevp bs b = Some (first (rev l1)).
Proof.
  intros [Hn Hp]. rewrite <- app_assoc in Hn. cbn [app] in Hn. change (HEAD :: l1 ++ b :: l2 ++ [HEAD]) with ((HEAD :: l1) ++ b :: l2 ++ [HEAD]) in Hn.
  apply chain_app in Hn as [_ Hn]. rewrite rev_app_distr in Hp. cbn [rev] in Hp. rewrite <- !app_assoc in Hp. cbn [app] in Hp.
  change (HEAD :: rev l2 ++ b :: rev l1 ++ [HEAD]) with ((HEAD :: rev l2) ++ b :: rev l1 ++ [HEAD]) in Hp.
  apply chain_app in Hp as [_ Hp]. split.
  - destruct l2; by destruct Hn.
  - destruct (rev l1); by destruct Hp.
Qed.

Lemma first_in l : first l = HEAD /\ l = [] \/ first l ∈ l.
Proof. destruct l; [by left|right; set_solver]. Qed.

(** Unlinking [b] and linking it in front of the rest. *)
Lemma linked_unlink bs l1 b l2 x :
  linked bs (l1 ++ b :: l2) -> NoDup (HEAD :: l1 ++ b :: l2) -> (forall a, a ∈ HEAD :: l1 ++ l2 -> is_Some (bs !! a)) ->
  bs !! b = Some x -> linked (unlink x bs) (l1 ++ l2).
Proof.
  intros Hl Hnd Hin Hx. destruct (linked_around _ _ _ _ Hl) as [Hbn Hbp]. destruct Hl as [Hn Hp].
  unfold nextp in Hbn. unfold prevp in Hbp. rewrite Hx in Hbn, Hbp. injection Hbn as Hbn. injection Hbp as Hbp.
  destruct (head_snoc (rev l1)) as (k & p & Hk & Hpe & _ & Hka & Hkn). rewrite rev_involutive in Hk.
  destruct (head_snoc l2) as (k2 & n & Hk2 & Hne & _ & Hka2 & Hkn2).
  apply NoDup_cons in Hnd as [Hh Hnd]. apply NoDup_app in Hnd as (Hnd1 & Hdis & Hnd2). apply NoDup_cons in Hnd2 as [Hb2 Hnd2].
  rewrite not_elem_of_app, not_elem_of_cons in Hh. destruct Hh as (Hh1 & _ & Hh2).
  assert (Hd12 : forall a, a ∈ l1 -> a ∉ l2) by (intros a Ha Ha2; by apply (Hdis a Ha), elem_of_cons; right).
  assert (Hp1 : p = HEAD \/ p ∈ l1).
  { destruct (first_in (rev l1)) as [[E _]|E]; rewrite <- Hpe in E; [by left|right]. by rewrite elem_rev in E. }
  assert (Hn1 : n = HEAD \/ n ∈ l2) by (destruct (first_in l2) as [[E _]|E]; rewrite <- Hne in E; auto).
  assert (Hpin : is_Some (bs !! p)) by (apply Hin; rewrite elem_of_cons, elem_of_app; tauto).
  assert (Hnin : is_Some (bs !! n)) by (apply Hin; rewrite elem_of_cons, elem_of_app; tauto).
  assert (Hndr : NoDup (HEAD :: rev l1)) by (apply NoDup_cons; split; [by rewrite elem_rev|by apply nodup_rev]).
  assert (Hndl : NoDup (HEAD :: l2)) by (by apply NoDup_cons).
  assert (Hnda : NoDup (l1 ++ l2)) by (by apply NoDup_app).
  assert (Hha : HEAD ∉ l1 ++ l2) by (rewrite elem_of_app; tauto).
  unfold unlink. rewrite Hbn, Hbp, <- Hpe, <- Hne. split.
  - rewrite <- app_assoc. change (HEAD :: l1 ++ l2 ++ [HEAD]) with ((HEAD :: l1) ++ l2 ++ [HEAD]). rewrite Hk, <- app_assoc. cbn [app].
    eapply (chain_skip (nextp bs) _ k p b l2).
    + rewrite <- app_assoc in Hn. cbn [app] in Hn. change (HEAD :: l1 ++ b :: l2 ++ [HEAD]) with ((HEAD :: l1) ++ b :: l2 ++ [HEAD]) in Hn.
      rewrite Hk, <- app_assoc in Hn. exact Hn.
    + change (p :: l2) with ([p] ++ l2). rewrite app_assoc, <- Hk. cbn [app]. by apply NoDup_cons.
    + rewrite nextp_alter, decide_True by done. destruct Hpin as [y Hy]. rewrite alter_lookup, Hy. destruct (decide (p = n)); cbn; by rewrite Hne.
    + intros a Ha. rewrite nextp_alter. destruct (decide (a = p)) as [->|_].
      { exfalso. apply elem_of_app in Ha as [Ha|Ha]; [by apply Hkn|]. destruct Hp1 as [->|Hp1]; [done|by eapply Hd12]. }
      rewrite nextp_alter. destruct (decide (a = n)); [|done]. unfold nextp. by destruct (bs !! a).
  - rewrite rev_app_distr, <- app_assoc. change (HEAD :: rev l2 ++ rev l1 ++ [HEAD]) with ((HEAD :: rev l2) ++ rev l1 ++ [HEAD]).
    rewrite Hk2, <- app_assoc. cbn [app]. eapply (chain_skip (prevp bs) _ k2 n b (rev l1)).
    + rewrite rev_app_distr in Hp. cbn [rev] in Hp. rewrite <- !app_assoc in Hp. cbn [app] in Hp.
      change (HEAD :: rev l2 ++ b :: rev l1 ++ [HEAD]) with ((HEAD :: rev l2) ++ b :: rev l1 ++ [HEAD]) in Hp.
      rewrite Hk2, <- app_assoc in Hp. exact Hp.
    + change (n :: rev l1) with ([n] ++ rev l1). rewrite app_assoc, <- Hk2. cbn [app]. rewrite <- rev_app_distr.
      apply NoDup_cons. split; [by rewrite elem_rev|by apply nodup_rev].
    + rewrite prevp_alter. destruct Hnin as [y Hy]. change (hd HEAD (rev l1)) with (first (rev l1)). rewrite <- Hpe.
      destruct (decide (n = p)) as [->|]; [rewrite alter_lookup, decide_True by done; by rewrite Hy|].
      rewrite prevp_alter, decide_True by done. by rewrite Hy.
    + intros a Ha. rewrite !prevp_alter. rewrite alter_lookup. destruct (decide (a = n)) as [->|_].
      { exfalso. apply elem_of_app in Ha as [Ha|Ha]; [by apply Hkn2|]. rewrite elem_rev in Ha.
        destruct Hn1 as [->|Hn1]; [done|by eapply Hd12]. }
      destruct (decide (a = p)); [|done]. unfold prevp. by destruct (bs !! a).
Qed.

Lemma linked_push bs l b h :
  linked bs l -> NoDup (HEAD :: b :: l) -> (forall a, a ∈ HEAD :: b :: l -> is_Some (bs !! a)) ->
  bs !! HEAD = Some h -> linked (push_front b h bs) (b :: l).
Proof.
  intros [Hn Hp] Hnd Hin Hh. apply chain_head in Hn as [Hnh Hn]. unfold nextp in Hnh. rewrite Hh in Hnh. injection Hnh as Hnh.
  destruct (head_snoc l) as (k & f & Hk & Hfe & _ & Hka & Hkn). rewrite !NoDup_cons in Hnd. destruct Hnd as (Hhb & Hbl & Hnd).
  rewrite not_elem_of_cons in Hhb. destruct Hhb as [Hhb Hhl]. assert (Hndl : NoDup (HEAD :: l)) by (by apply NoDup_cons).
  destruct (Hin b) as [x Hx]; [rewrite !elem_of_cons; tauto|]. unfold push_front. rewrite Hnh, <- Hfe.
  assert (Hf : f = HEAD \/ f ∈ l) by (destruct (first_in l) as [[E _]|E]; rewrite <- Hfe in E; auto).
  destruct (Hin f) as [y Hy]; [rewrite !elem_of_cons; tauto|].
  assert (Hfb : f <> b) by (intros ->; destruct Hf; [congruence|done]).
  split.
  - cbn [app]. rewrite chain_cons2. split.
    { rewrite nextp_alter, decide_True by done. rewrite !alter_lookup, Hh. by repeat destruct (decide _). }
    assert (Hrest : forall a, a ∈ l -> nextp bs a = nextp (push_front b h bs) a).
    { intros a Ha. assert (a <> HEAD /\ a <> b) as [? ?] by (split; intros ->; done). unfold push_front.
      rewrite !nextp_alter, !alter_lookup. unfold nextp. repeat case_decide; try done; by destruct (bs !! a). }
    unfold push_front in Hrest. rewrite Hnh, <- Hfe in Hrest.
    assert (Hl : chain (nextp (alter (fun y => y <| bnext := b |>) HEAD (alter (fun y => y <| bprev := b |>) f
        (alter (fun y => y <| bprev := HEAD |>) b (alter (fun y => y <| bnext := f |>) b bs))))) (l ++ [HEAD]))
      by (eapply chain_ext, Hn; exact Hrest).
    destruct l as [|c l]; cbn [app] in *; (rewrite chain_cons2; split; [|exact Hl]);
      rewrite !nextp_alter, !alter_lookup, Hx; repeat case_decide; cbn in *; congruence.
  - cbn [rev]. rewrite <- app_assoc. change (HEAD :: rev l ++ [b] ++ [HEAD]) with ((HEAD :: rev l) ++ [b; HEAD]).
    rewrite Hk, <- app_assoc. cbn [app]. apply (chain_snoc (prevp bs)).
    + change (HEAD :: rev l ++ [HEAD]) with ((HEAD :: rev l) ++ [HEAD]) in Hp. rewrite Hk, <- app_assoc in Hp. exact Hp.
    + rewrite !prevp_alter, !alter_lookup, Hy. by repeat case_decide.
    + rewrite !prevp_alter, !alter_lookup, Hx. by repeat case_decide.
    + intros a Ha. assert (Hax : a <> b /\ a <> f).
      { split; [intros ->; by destruct (Hka b Ha)|]. intros ->. by apply Hkn. }
      destruct Hax. rewrite !prevp_alter, !alter_lookup. unfold prevp. repeat case_decide; try done; by destruct (bs !! a).
Qed.

(** The links are all that moving a buffer changes. *)
Lemma core_alter (f : buf -> buf) (i : nat) (bs : list buf) (a : nat) :
  (forall x, core (f x) = core x) -> core <$> alter f i bs !! a = core <$> bs !! a.
Proof. intros Hf. rewrite alter_lookup. destruct (decide (a = i)); [|done]. destruct (bs !! a); [|done]. cbn. by rewrite Hf. Qed.

Lemma core_move b x h bs a : core <$> push_front b h (unlink x bs) !! a = core <$> bs !! a.
Proof. unfold push_front, unlink. by rewrite !core_alter. Qed.

Lemma push_length b x h bs : length (push_front b h (unlink x bs)) = length bs.
Proof. unfold push_front, unlink. by rewrite !length_alter. Qed.

Section Effects.
Context {D : Type}.
Implicit Types s : bio D.

Lemma bio_set_set s f g : s <| bufs ::= f |> <| bufs ::= g |> = s <| bufs := g (f (bufs s)) |>.
Proof. done. Qed.

(** Moving the buffer [b] of the list to the front. *)
Lemma move_front_ok s l b x :
  lru (bufs s) l -> (b < NBUF)%nat -> bufs s !! b = Some x ->
  exists s' l', (upd_buf (bnext x) (fun y => y <| bprev := bprev x |>);;
    upd_buf (bprev x) (fun y => y <| bnext := bnext x |>);;
    h ← get_buf HEAD;
    upd_buf b (fun y => y <| bnext := bnext h |>);;
    upd_buf b (fun y => y <| bprev := HEAD |>);;
    upd_buf (bnext h) (fun y => y <| bprev := b |>);;
    upd_buf HEAD (fun y => y <| bnext := b |>)) s = Ret tt s' /\ lru (bufs s') (b :: l') /\
    l ≡ₚ b :: l' /\ drv s' = drv s /\ forall a, core <$> bufs s' !! a = core <$> bufs s !! a.
Proof.
  intros Hl Hb Hx. assert (Hbl : b ∈ l) by (by apply (lru_elem _ _ _ Hl)).
  apply list_elem_of_split in Hbl as (l1 & l2 & ->). destruct (linked_around _ _ _ _ (lru_linked _ _ Hl)) as [Hn Hp].
  unfold nextp in Hn. unfold prevp in Hp. rewrite Hx in Hn, Hp. injection Hn as Hn. injection Hp as Hp.
  assert (Hnd : NoDup (HEAD :: l1 ++ b :: l2)) by (apply NoDup_cons; split; [by eapply lru_no_head|by eapply lru_nodup]).
  assert (Hlen : forall a (bs : list buf), length bs = S NBUF -> (a <= NBUF)%nat -> exists y, bs !! a = Some y)
    by (intros a bs H1 H2; apply lookup_lt_is_Some_2; lia).
  assert (Hrange : forall a, a ∈ HEAD :: l1 ++ l2 -> (a <= NBUF)%nat).
  { intros a [->|Ha]%elem_of_cons; [done|]. enough (a < NBUF)%nat by lia. apply (lru_elem _ _ _ Hl).
    rewrite elem_of_app, elem_of_cons. apply elem_of_app in Ha. tauto. }
  pose proof (lru_len _ _ Hl) as Hlb.
  assert (Hnr : (bnext x <= NBUF)%nat).
  { rewrite Hn. apply Hrange. destruct (first_in l2) as [[-> _]|]; [by left|]. rewrite elem_of_cons, elem_of_app. tauto. }
  assert (Hpr : (bprev x <= NBUF)%nat).
  { rewrite Hp. apply Hrange. destruct (first_in (rev l1)) as [[-> _]|E]; [by left|]. rewrite elem_rev in E.
    rewrite elem_of_cons, elem_of_app. tauto. }
  destruct (Hlen (bnext x) (bufs s) Hlb Hnr) as [n Hnx]. rewrite (bind_ret _ _ _ _ _ (upd_buf_ok s _ n _ Hnx)).
  set (s1 := s <| bufs ::= _ |>). assert (Hl1 : length (bufs s1) = S NBUF) by (unfold s1; cbn; by rewrite length_alter).
  destruct (Hlen (bprev x) (bufs s1) Hl1 Hpr) as [p Hpx]. rewrite (bind_ret _ _ _ _ _ (upd_buf_ok s1 _ p _ Hpx)).
  set (s2 := s1 <| bufs ::= _ |>). assert (Hl2 : length (bufs s2) = S NBUF) by (unfold s2; cbn; by rewrite length_alter).
  assert (Hs2 : bufs s2 = unlink x (bufs s)) by done.
  assert (Hk2 : linked (bufs s2) (l1 ++ l2)).
  { rewrite Hs2. apply (linked_unlink _ _ b); [apply Hl|done| |done]. intros a Ha. apply Hlen; [done|by apply Hrange]. }
  destruct (Hlen HEAD (bufs s2) Hl2 ltac:(done)) as [h Hh]. rewrite (bind_ret _ _ _ _ _ (get_buf_ok s2 _ h Hh)).
  assert (Hf : bnext h = first (l1 ++ l2)).
  { destruct Hk2 as [Hc _]. apply chain_head in Hc as [Hc _]. unfold nextp in Hc. rewrite Hh in Hc. by injection Hc. }
  destruct (Hlen b (bufs s2) Hl2 ltac:(lia)) as [x2 Hx2]. rewrite (bind_ret _ _ _ _ _ (upd_buf_ok s2 _ x2 _ Hx2)).
  set (s3 := s2 <| bufs ::= _ |>). assert (Hl3 : length (bufs s3) = S NBUF) by (unfold s3; cbn; by rewrite length_alter).
  destruct (Hlen b (bufs s3) Hl3 ltac:(lia)) as [x3 Hx3]. rewrite (bind_ret _ _ _ _ _ (upd_buf_ok s3 _ x3 _ Hx3)).
  set (s4 := s3 <| bufs ::= _ |>). assert (Hl4 : length (bufs s4) = S NBUF) by (unfold s4; cbn; by rewrite length_alter).
  assert (Hhr : (bnext h <= NBUF)%nat).
  { rewrite Hf. apply Hrange. destruct (first_in (l1 ++ l2)) as [[-> _]|]; [by left|]. rewrite elem_of_cons. tauto. }
  destruct (Hlen (bnext h) (bufs s4) Hl4 Hhr) as [x4 Hx4]. rewrite (bind_ret _ _ _ _ _ (upd_buf_ok s4 _ x4 _ Hx4)).
  set (s5 := s4 <| bufs ::= _ |>). assert (Hl5 : length (bufs s5) = S NBUF) by (unfold s5; cbn; by rewrite length_alter).
  destruct (Hlen HEAD (bufs s5) Hl5 ltac:(done)) as [h5 Hh5]. rewrite (upd_buf_ok s5 _ h5 _ Hh5).
  eexists _, (l1 ++ l2). split; [reflexivity|]. set (s6 := s5 <| bufs ::= _ |>).
  assert (Hs6 : bufs s6 = push_front b h (unlink x (bufs s))) by done.
  assert (Hperm : l1 ++ b :: l2 ≡ₚ b :: l1 ++ l2) by (by rewrite Permutation_middle).
  split_and!; [|done|done|intros a; rewrite Hs6; apply core_move].
  split; [|by rewrite <- Hperm; apply Hl|by rewrite Hs6, push_length].
  rewrite Hs6, <- Hs2. apply linked_push; [done|by rewrite <- Hperm| |done].
  intros a Ha. apply Hlen; [done|]. rewrite !elem_of_cons in Ha. destruct Ha as [->|[->|Ha]]; [done|lia|].
  apply Hrange, elem_of_cons. by right.
Qed.

(** [brelse] after the lock is released. *)
Lemma brelse_unref_ok s l b x :
  lru (bufs s) l -> (b < NBUF)%nat -> bufs s !! b = Some x ->
  exists s' l', brelse_unref b s = Ret tt s' /\ lru (bufs s') l' /\ drv s' = drv s /\
    forall a, core <$> bufs s' !! a =
      core <$> alter (fun x => x <| brefcnt ::= fun n => u32 (n - 1) |>) b (bufs s) !! a.
Proof.
  intros Hl Hb Hx. unfold brelse_unref. rewrite (bind_ret _ _ _ _ _ (upd_buf_ok s b x _ Hx)).
  set (s1 := s <| bufs ::= _ |>). set (x1 := x <| brefcnt ::= fun n => u32 (n - 1) |>).
  assert (Hl1 : lru (bufs s1) l) by (by apply lru_alter).
  assert (Hx1 : bufs s1 !! b = Some x1) by (unfold s1; cbn; by rewrite list_lookup_alter_eq, Hx).
  rewrite (bind_ret _ _ _ _ _ (get_buf_ok s1 b x1 Hx1)). destruct (brefcnt x1 =? 0); [|by exists s1, l].
  destruct (move_front_ok s1 l b x1 Hl1 Hb Hx1) as (s' & l' & Hm & Hl' & _ & Hd & Hc).
  exists s', (b :: l'). by split_and!.
Qed.
End Effects.

(** [binit] on zeroed memory makes the list. *)
Definition buf0 : buf := Buf 0 0 0 (SleepLock 0 0 0) 0 0 0 [].

Lemma binit_ok {D} (d : D) data : exists s', binit (Bio (replicate (S NBUF) (buf0 <| bdata := data |>)) d) = Ret tt s' /\
  drv s' = d /\ lru (bufs s') (rev (seq 0 NBUF)) /\
  forall b x, bufs s' !! b = Some x -> core x = buf0 <| bdata := data |>.
Proof.
  eexists. split; [vm_compute; reflexivity|]. split; [reflexivity|]. split.
  - split; [|by rewrite <- Permutation_rev|reflexivity]. split; vm_compute; by repeat split.
  - intros b x Hx. apply list_elem_of_lookup_2, list_elem_of_In in Hx. cbn in Hx. repeat destruct Hx as [<-|Hx]; done.
Qed.

(** ** The driver below the cache

    [iderw] runs up to the point where it waits for its request ([iderw_done]
    is then the test of its loop); [ideintr] is the interrupt handler. *)

Class Driver (D : Type) := {
  iderw : Z -> nat -> M (bio D) unit;
  ideintr : M (bio D) unit
}.

Section Rw.
Context `{Driver D}.

(** [bread] once it holds the buffer's lock: [true] if it waits for the disk. *)
Definition bread_fill (pid : Z) (b : nat) : M (bio D) bool :=
  x ← get_buf b;
  if Z.land (bflags x) B_VALID =? 0 then iderw pid b;; mret true else mret false.

Definition bwrite (pid : Z) (b : nat) : M (bio D) unit :=
  h ← on_lock b (holdingsleep pid);
  if negb h then panic "bwrite"
  else upd_buf b (fun x => x <| bflags ::= fun f => Z.lor f B_DIRTY |>);; iderw pid b.

(** [bread] run without interference: [None] if it must wait, for the lock or
    for the disk. *)
Definition bread (pid dev blockno : Z) : M (bio D) (option nat) :=
  b ← bget dev blockno;
  ok ← on_lock b (acquiresleep pid);
  if negb ok then mret None
  else
    waits ← bread_fill pid b;
    if waits : bool then d ← iderw_done b; mret (if d : bool then Some b else None)
    else mret (Some b).

Definition brelse (pid : Z) (b : nat) : M (bio D) unit := brelse_unlock pid b;; brelse_unref b.
End Rw.

(** What the cache relies on.  [queue] are the buffers whose requests the driver
    has not finished; [platter] is the contents of the disks, [None] for a block
    that does not exist. *)

Definition dirtyb (x : buf) : bool := negb (Z.land (bflags x) B_DIRTY =? 0).

Definition served (x : buf) (disk : option block) : buf :=
  x <| bdata := if dirtyb x then bdata x else default [] disk |>
    <| bflags := Z.land (Z.lor (bflags x) B_VALID) (Z.lnot B_DIRTY) |>.

Definition io_part (x : buf) : Z * Z * Z * block := (bflags x, bdev x, bblockno x, bdata x).

Class DriverLaws (D : Type) `{Driver D} := {
  queue : D -> list nat;
  platter : D -> Z -> Z -> option block;
  drv_ok : bio D -> Prop;
  finished := fun (b : nat) (s s' : bio D) => exists x,
    bufs s !! b = Some x /\
    bufs s' = <[b := served x (platter (drv s) (bdev x) (bblockno x))]> (bufs s) /\
    forall dev no, platter (drv s') dev no =
      if dirtyb x && (dev =? bdev x) && (no =? bblockno x) then Some (bdata x) else platter (drv s) dev no;
  law_frame : forall s s',
    drv_ok s -> drv s' = drv s ->
    (forall b x, b ∈ queue (drv s) -> bufs s !! b = Some x -> exists x', bufs s' !! b = Some x' /\ io_part x' = io_part x) ->
    drv_ok s';
  law_rw : forall s pid b x,
    drv_ok s -> bufs s !! b = Some x -> sl_locked (bsleep x) <> 0 -> sl_pid (bsleep x) = pid ->
    bflags x = 0 \/ bflags x = Z.lor B_VALID B_DIRTY -> b ∉ queue (drv s) ->
    is_Some (platter (drv s) (bdev x) (bblockno x)) -> length (bdata x) = 512%nat ->
    exists s', iderw pid b s = Ret tt s' /\ drv_ok s' /\
      ((bufs s' = bufs s /\ queue (drv s') = queue (drv s) ++ [b] /\
         forall dev no, platter (drv s') dev no = platter (drv s) dev no) \/
       (queue (drv s') = queue (drv s) /\ finished b s s'));
  law_intr : forall s, drv_ok s ->
    exists s', ideintr s = Ret tt s' /\ drv_ok s' /\
      ((queue (drv s) = [] /\ queue (drv s') = queue (drv s) /\ bufs s' = bufs s /\ forall dev no, platter (drv s') dev no = platter (drv s) dev no) \/
       exists b rest, queue (drv s) = b :: rest /\ queue (drv s') = rest /\ finished b s s')
}.

(** ** Locks of buffers *)

Section Locks.
Context {D : Type}.
Implicit Types s : bio D.

Lemma on_lock_ok {A} s b x (m : M sleeplock A) a l :
  bufs s !! b = Some x -> m (bsleep x) = Ret a l ->
  on_lock b m s = Ret a (s <| bufs ::= alter (fun x => x <| bsleep := l |>) b |>).
Proof.
  intros Hx Hm. unfold on_lock. rewrite (bind_ret _ _ _ _ _ (get_buf_ok s b x Hx)), Hm.
  by rewrite (bind_ret _ _ _ _ _ (upd_buf_ok s b x _ Hx)).
Qed.

Lemma alter_id (f : buf -> buf) (b : nat) (bs : list buf) x : bs !! b = Some x -> f x = x -> alter f b bs = bs.
Proof.
  intros Hx Hf. apply list_eq. intros a. rewrite alter_lookup. destruct (decide (a = b)) as [->|]; [|done].
  rewrite Hx. cbn. by rewrite Hf.
Qed.

Lemma buf_holding_ok s b x pid : bufs s !! b = Some x ->
  on_lock b (holdingsleep pid) s = Ret (negb (sl_locked (bsleep x) =? 0) && (sl_pid (bsleep x) =? pid)) s.
Proof.
  intros Hx. erewrite on_lock_ok; [|done|reflexivity]. f_equal. destruct s as [bs d]. unfold setf. cbn in *. f_equal.
  eapply alter_id; [done|]. by destruct x.
Qed.
End Locks.
