(* ===== verification/Memide.v ===== *)
(** * Memide: the disk in memory of memide.c

    The driver of the kernel that is built without a disk (xv6memfs): the disk
    is an array of bytes, and [iderw] copies at once.  It implements the
    interface [Driver] of the buffer cache. *)

From S2P Require Import Prelude Sleeplock Bio.

Record memide := Memide { disksize : Z; memdisk : list Z }.

(** [ideinit], given the image that is linked to the kernel. *)
Definition memide_init (image : list Z) (image_size : Z) : memide := Memide (image_size / 512) image.

Definition memide_rw (pid : Z) (b : nat) : M (bio memide) unit :=
  h ← on_lock b (holdingsleep pid);
  if negb h then panic "iderw: buf not locked"
  else
    x ← get_buf b;
    d ← gets drv;
    if Z.land (bflags x) (Z.lor B_VALID B_DIRTY) =? B_VALID then panic "iderw: nothing to do"
    else if negb (bdev x =? 1) then panic "iderw: request not for disk 1"
    else if bblockno x >=? u32 (disksize d) then panic "iderw: block out of range"
    else
      let p := Z.to_nat (bblockno x * 512) in
      (if negb (Z.land (bflags x) B_DIRTY =? 0) then
         upd_buf b (fun x => x <| bflags ::= fun f => Z.land f (Z.lnot B_DIRTY) |>);;
         modify (fun s => s <| drv := Memide (disksize d) (list_inserts p (bdata x) (memdisk d)) |>)
       else upd_buf b (fun y => y <| bdata := take 512 (drop p (memdisk d)) |>));;
      upd_buf b (fun x => x <| bflags ::= fun f => Z.lor f B_VALID |>).

Definition memide_intr : M (bio memide) unit := mret tt.

#[export] Instance memide_driver : Driver memide := { iderw := memide_rw; ideintr := memide_intr }.

Definition memide_block (d : memide) (dev no : Z) : option block :=
  if (dev =? 1) && (0 <=? no) && (no <? disksize d) then Some (take 512 (drop (Z.to_nat (no * 512)) (memdisk d))) else None.

Definition memide_ok (s : bio memide) : Prop :=
  0 <= disksize (drv s) < 2 ^ 22 /\ length (memdisk (drv s)) = Z.to_nat (disksize (drv s) * 512).

(** Writing one block leaves the others. *)
Lemma slice_write (l data : list Z) i j n :
  length data = 512%nat -> length l = (n * 512)%nat -> (i < n)%nat -> (j < n)%nat ->
  take 512 (drop (j * 512) (list_inserts (i * 512) data l)) =
    if decide (i = j) then data else take 512 (drop (j * 512) l).
Proof.
  intros Hd Hl Hi Hj. apply list_eq. intros k. destruct (decide (k < 512)%nat) as [Hk|Hk].
  - rewrite lookup_take_lt, lookup_drop by done. destruct (decide (i = j)) as [<-|Hne].
    + rewrite list_lookup_inserts by lia. f_equal. lia.
    + rewrite lookup_take_lt, lookup_drop by done. destruct (decide (j < i)%nat).
      * apply list_lookup_inserts_lt. lia.
      * apply list_lookup_inserts_ge. lia.
  - rewrite lookup_take_ge by lia. destruct (decide (i = j)); [|by rewrite lookup_take_ge by lia].
    symmetry. apply lookup_ge_None. lia.
Qed.

Lemma memide_write_platter d no data dev' no' :
  0 <= disksize d < 2 ^ 22 -> length (memdisk d) = Z.to_nat (disksize d * 512) -> length data = 512%nat ->
  is_Some (memide_block d 1 no) ->
  memide_block (Memide (disksize d) (list_inserts (Z.to_nat (no * 512)) data (memdisk d))) dev' no' =
    if (dev' =? 1) && (no' =? no) then Some data else memide_block d dev' no'.
Proof.
  intros Hs Hl Hd Hno. unfold memide_block in *. cbn [disksize memdisk]. rewrite Z.eqb_refl in Hno.
  destruct (Z.leb_spec 0 no) as [H1|]; [|by destruct Hno]. destruct (Z.ltb_spec no (disksize d)) as [H2|]; [|by destruct Hno].
  destruct (Z.eqb_spec dev' 1) as [->|]; [|done]. cbn [andb].
  destruct (Z.leb_spec 0 no') as [H3|]; destruct (Z.ltb_spec no' (disksize d)) as [H4|]; cbn [andb].
  - replace (Z.to_nat (no * 512)) with (Z.to_nat no * 512)%nat by lia.
    replace (Z.to_nat (no' * 512)) with (Z.to_nat no' * 512)%nat by lia.
    rewrite (slice_write _ _ _ _ (Z.to_nat (disksize d))) by lia.
    destruct (decide (Z.to_nat no = Z.to_nat no')), (Z.eqb_spec no' no); done || lia.
  - destruct (Z.eqb_spec no' no); [lia|done].
  - destruct (Z.eqb_spec no' no); [lia|done].
  - destruct (Z.eqb_spec no' no); [lia|done].
Qed.

#[export] Program Instance memide_laws : DriverLaws memide := {
  queue := fun _ => [];
  platter := memide_block;
  drv_ok := memide_ok
}.
Next Obligation. intros s s' H Hd _. unfold memide_ok. by rewrite Hd. Qed.
Next Obligation.
  intros s pid b x Hok Hx Hl Hp Hf _ Hdisk Hlen. unfold iderw, memide_driver, memide_rw.
  rewrite (bind_ret _ _ _ _ _ (buf_holding_ok s b x pid Hx)).
  destruct (Z.eqb_spec (sl_locked (bsleep x)) 0); [done|]. destruct (Z.eqb_spec (sl_pid (bsleep x)) pid); [|done]. cbn [negb andb].
  rewrite (bind_ret _ _ _ _ _ (get_buf_ok s b x Hx)), (bind_ret (gets drv) _ _ _ _ eq_refl).
  destruct Hok as [Hs Hm]. destruct Hdisk as [v Hv]. unfold memide_block in Hv.
  destruct (Z.eqb_spec (bdev x) 1) as [Hdev|]; [|done]. destruct (Z.leb_spec 0 (bblockno x)) as [H1|]; [|done].
  destruct (Z.ltb_spec (bblockno x) (disksize (drv s))) as [H2|]; [|done]. cbn [andb] in Hv.
  rewrite (u32_small (disksize (drv s))) by lia. destruct (Z.geb_spec (bblockno x) (disksize (drv s))); [lia|].
  assert (Hpl : memide_block (drv s) (bdev x) (bblockno x) = Some (take 512 (drop (Z.to_nat (bblockno x * 512)) (memdisk (drv s))))).
  { unfold memide_block. rewrite Hdev, Z.eqb_refl.
    destruct (Z.leb_spec 0 (bblockno x)); [|lia]. by destruct (Z.ltb_spec (bblockno x) (disksize (drv s))); [|lia]. }
  destruct Hf as [Hf|Hf]; rewrite Hf; cbn [negb]; cbv zeta.
  - change (Z.land 0 (Z.lor B_VALID B_DIRTY) =? B_VALID) with false. change (Z.land 0 B_DIRTY =? 0) with true. cbn [negb].
    rewrite (bind_ret _ _ _ _ _ (upd_buf_ok s b x _ Hx)).
    erewrite upd_buf_ok; [|cbn; rewrite list_lookup_alter_eq, Hx; reflexivity].
    eexists. split; [reflexivity|]. split; [done|]. right. split; [done|]. exists x. split_and!; [done| |].
    + unfold setf. cbn. rewrite list_alter_alter. rewrite (list_alter_insert _ _ _ x Hx). f_equal.
      unfold served, dirtyb. by rewrite Hpl, Hf.
    + intros dev no. unfold dirtyb. by rewrite Hf.
  - change (Z.land (Z.lor B_VALID B_DIRTY) (Z.lor B_VALID B_DIRTY) =? B_VALID) with false.
    change (Z.land (Z.lor B_VALID B_DIRTY) B_DIRTY =? 0) with false. cbn [negb]. rewrite bind_assoc.
    rewrite (bind_ret _ _ _ _ _ (upd_buf_ok s b x _ Hx)). erewrite bind_ret; [|reflexivity].
    erewrite upd_buf_ok; [|cbn; rewrite list_lookup_alter_eq, Hx; reflexivity].
    eexists. split; [reflexivity|]. split; [split; [done|cbn; by rewrite length_inserts]|]. right. split; [done|].
    exists x. split_and!; [done| |].
    + unfold setf. cbn. rewrite list_alter_alter. rewrite (list_alter_insert _ _ _ x Hx). f_equal.
      unfold served, dirtyb. rewrite Hf. done.
    + intros dev no. unfold dirtyb. rewrite Hf, Hdev. cbn [drv]. change (negb (Z.land (Z.lor B_VALID B_DIRTY) B_DIRTY =? 0)) with true.
      cbn [andb]. apply memide_write_platter; [done|done|done|]. rewrite Hdev in Hpl. by rewrite Hpl.
Qed.
Next Obligation. intros s H. exists s. split; [done|]. split; [done|]. by left. Qed.
