(* ===== verification/Ide.v ===== *)
(** * Ide: the disk driver of ide.c

    The controller is outside the source.  It is a type class: its ports, what
    is on its drives, and the documented behaviour of the two commands that the
    driver uses ([Ata], [AtaLaws]), with or without an error.  [finish] is the
    time up to the interrupt that ends a command.

    [idequeue] is the list of the buffers that are linked through [qnext]. *)

From S2P Require Import Prelude Sleeplock Bio.

Definition FSSIZE : Z := 1000.
Definition SECTOR_SIZE : Z := 512.
Definition IDE_BSY : Z := 128.
Definition IDE_DRDY : Z := 64.
Definition IDE_DF : Z := 32.
Definition IDE_ERR : Z := 1.
Definition IDE_CMD_READ : Z := 32.
Definition IDE_CMD_WRITE : Z := 48.
Definition IDE_CMD_RDMUL : Z := 196.
Definition IDE_CMD_WRMUL : Z := 197.

Class Ata (A : Type) := {
  outb : Z -> Z -> A -> A;
  inb : Z -> A -> Z;
  outsl : Z -> block -> A -> A;
  insl : Z -> A -> block * A;
  finish : A -> A;
  sectors : A -> Z -> Z -> option block
}.

(** Issuing a command for one sector, as the ATA registers ask for it. *)
Definition ata_cmd `{Ata A} (drive lba cmd : Z) (h : A) : A :=
  outb 0x1f7 cmd
    (outb 0x1f6 (Z.lor (Z.lor 0xe0 (Z.shiftl drive 4)) (Z.land (Z.shiftr lba 24) 0x0f))
      (outb 0x1f5 (Z.land (Z.shiftr lba 16) 0xff)
        (outb 0x1f4 (Z.land (Z.shiftr lba 8) 0xff)
          (outb 0x1f3 (Z.land lba 0xff) (outb 0x1f2 1 (outb 0x3f6 0 h)))))).

(** The status register when the drive accepts a command: not busy and ready,
    whatever its other bits (seek complete, data request) are; and when it reports
    no error and no fault. *)
Definition ready `{Ata A} (h : A) : Prop := Z.land (inb 0x1f7 h) (Z.lor IDE_BSY IDE_DRDY) = IDE_DRDY.
Definition good `{Ata A} (h : A) : bool := Z.land (inb 0x1f7 h) (Z.lor IDE_DF IDE_ERR) =? 0.

(** A ready drive takes a command and the data of a write, and is ready again when
    it has finished.  A read changes no sector; if it reports no error, the data
    is at the data port.  A write changes only its sector, which has the data if
    no error is reported and otherwise may have any. *)
Class AtaLaws (A : Type) `{Ata A} := {
  ata_read : forall h drive lba d,
    0 <= drive < 2 -> 0 <= lba < 2 ^ 28 -> ready h -> sectors h drive lba = Some d ->
    let h1 := ata_cmd drive lba IDE_CMD_READ h in
    let h2 := finish h1 in
    (forall dr n, sectors h1 dr n = sectors h dr n) /\ ready h2 /\ (forall dr n, sectors h2 dr n = sectors h dr n) /\
    (good h2 = true -> (insl 0x1f0 h2).1 = d /\ ready (insl 0x1f0 h2).2 /\
       forall dr n, sectors (insl 0x1f0 h2).2 dr n = sectors h dr n);
  ata_write : forall h drive lba data,
    0 <= drive < 2 -> 0 <= lba < 2 ^ 28 -> ready h -> is_Some (sectors h drive lba) -> length data = 512%nat ->
    let h1 := outsl 0x1f0 data (ata_cmd drive lba IDE_CMD_WRITE h) in
    let h2 := finish h1 in
    (forall dr n, sectors h1 dr n = sectors h dr n) /\ ready h2 /\
    (forall dr n, ~ (dr = drive /\ n = lba) -> sectors h2 dr n = sectors h dr n) /\
    is_Some (sectors h2 drive lba) /\ (good h2 = true -> sectors h2 drive lba = Some data);
  ata_idle : forall h, ready h -> ready (finish h) /\ forall dr n, sectors (finish h) dr n = sectors h dr n
}.

Record ide (A : Type) := Ide { idequeue : list nat; havedisk1 : bool; hw : A; idewakes : list nat }.
Arguments Ide {A} idequeue havedisk1 hw idewakes.
Arguments idequeue {A} i.
Arguments havedisk1 {A} i.
Arguments hw {A} i.
Arguments idewakes {A} i.
#[export] Instance eta_ide A : Eta (ide A) := fun r => Ide (idequeue r) (havedisk1 r) (hw r) (idewakes r).

Section Ide.
Context `{Ata A}.

Definition on_drv {X} (m : M (ide A) X) : M (bio (ide A)) X := zoom drv (fun d s => s <| drv := d |>) m.
Definition out (port v : Z) : M (ide A) unit := modify (fun d => d <| hw ::= outb port v |>).

(** Wait for IDE disk to become ready: the loop is left when it is. *)
Definition idewait (checkerr : bool) : M (ide A) Z :=
  r ← gets (fun d => inb 0x1f7 (hw d));
  if negb (Z.land r (Z.lor IDE_BSY IDE_DRDY) =? IDE_DRDY) then spin
  else if checkerr && negb (Z.land r (Z.lor IDE_DF IDE_ERR) =? 0) then mret (-1)
  else mret 0.

(** Check if disk 1 is present: the loop that polls its status. *)
Fixpoint ideprobe (n : nat) : M (ide A) unit :=
  match n with
  | O => mret tt
  | S n =>
      r ← gets (fun d => inb 0x1f7 (hw d));
      if negb (r =? 0) then modify (fun d => d <| havedisk1 := true |>) else ideprobe n
  end.

Definition ideinit : M (ide A) unit :=
  idewait false;;
  out 0x1f6 (Z.lor 0xe0 (Z.shiftl 1 4));;
  ideprobe 1000;;
  out 0x1f6 (Z.lor 0xe0 (Z.shiftl 0 4)).

(** Start the request for [b]. *)
Definition idestart (b : option nat) : M (bio (ide A)) unit :=
  match b with
  | None => panic "idestart"
  | Some b =>
      x ← get_buf b;
      if bblockno x >=? FSSIZE then panic "incorrect blockno"
      else
        let sector_per_block := 512 / SECTOR_SIZE in
        let sector := s32 (bblockno x * sector_per_block) in
        let read_cmd := if sector_per_block =? 1 then IDE_CMD_READ else IDE_CMD_RDMUL in
        let write_cmd := if sector_per_block =? 1 then IDE_CMD_WRITE else IDE_CMD_WRMUL in
        if sector_per_block >? 7 then panic "idestart"
        else on_drv (
          idewait false;;
          out 0x3f6 0;;
          out 0x1f2 sector_per_block;;
          out 0x1f3 (Z.land sector 0xff);;
          out 0x1f4 (Z.land (Z.shiftr sector 8) 0xff);;
          out 0x1f5 (Z.land (Z.shiftr sector 16) 0xff);;
          out 0x1f6 (Z.lor (Z.lor 0xe0 (Z.shiftl (Z.land (bdev x) 1) 4)) (Z.land (Z.shiftr sector 24) 0x0f));;
          if negb (Z.land (bflags x) B_DIRTY =? 0) then
            out 0x1f7 write_cmd;;
            modify (fun d => d <| hw ::= outsl 0x1f0 (bdata x) |>)
          else out 0x1f7 read_cmd)
  end.

(** Interrupt handler. *)
Definition ide_intr : M (bio (ide A)) unit :=
  d ← gets drv;
  match idequeue d with
  | [] => mret tt
  | b :: rest =>
      on_drv (modify (fun d => d <| idequeue := rest |>));;
      x ← get_buf b;
      (if Z.land (bflags x) B_DIRTY =? 0 then
         r ← on_drv (idewait true);
         if r >=? 0 then
           data ← on_drv (h ← gets hw; modify (fun d => d <| hw := (insl 0x1f0 h).2 |>);; mret (insl 0x1f0 h).1);
           upd_buf b (fun x => x <| bdata := data |>)
         else mret tt
       else mret tt);;
      upd_buf b (fun x => x <| bflags ::= fun f => Z.lor f B_VALID |>);;
      upd_buf b (fun x => x <| bflags ::= fun f => Z.land f (Z.lnot B_DIRTY) |>);;
      on_drv (modify (fun d => d <| idewakes ::= fun w => w ++ [b] |>));;
      match rest with [] => mret tt | c :: _ => idestart (Some c) end
  end.

(** Sync buf with disk, up to the loop that waits. *)
Definition ide_rw (pid : Z) (b : nat) : M (bio (ide A)) unit :=
  h ← on_lock b (holdingsleep pid);
  if negb h then panic "iderw: buf not locked"
  else
    x ← get_buf b;
    d ← gets drv;
    if Z.land (bflags x) (Z.lor B_VALID B_DIRTY) =? B_VALID then panic "iderw: nothing to do"
    else if negb (bdev x =? 0) && negb (havedisk1 d) then panic "iderw: ide disk 1 not present"
    else
      on_drv (modify (fun d => d <| idequeue ::= fun q => q ++ [b] |>));;
      d ← gets drv;
      if decide (head (idequeue d) = Some b) then idestart (Some b) else mret tt.

(** An interrupt comes when the drive has finished. *)
Definition ide_interrupt : M (bio (ide A)) unit :=
  on_drv (modify (fun d => d <| hw ::= finish |>));; ide_intr.
End Ide.

#[export] Instance ide_driver `{Ata A} : Driver (ide A) := { iderw := ide_rw; ideintr := ide_interrupt }.

(** ** The driver serves its queue *)

Section Laws.
Context `{AtaLaws A}.
Implicit Types s : bio (ide A).

Definition ide_block (d : ide A) (dev no : Z) : option block :=
  if ((dev =? 0) || (dev =? 1)) && (0 <=? no) && (no <? FSSIZE) then sectors (hw d) dev no else None.

(** The controller after the request of a buffer was issued. *)
Definition issued (x : buf) (h : A) : A :=
  if dirtyb x then outsl 0x1f0 (bdata x) (ata_cmd (bdev x) (bblockno x) IDE_CMD_WRITE h)
  else ata_cmd (bdev x) (bblockno x) IDE_CMD_READ h.

(** A request that can be served. *)
Definition request_ok (d : ide A) (x : buf) : Prop :=
  (bflags x = 0 \/ bflags x = Z.lor B_VALID B_DIRTY) /\ is_Some (ide_block d (bdev x) (bblockno x)) /\ length (bdata x) = 512%nat.

Record ide_ok (s : bio (ide A)) : Prop := {
  io_disk1 : havedisk1 (drv s) = true;
  io_nodup : NoDup (idequeue (drv s));
  io_reqs : forall b, b ∈ idequeue (drv s) -> exists x, bufs s !! b = Some x /\ request_ok (drv s) x;
  io_active : match idequeue (drv s) with
              | [] => ready (hw (drv s))
              | b :: _ => exists x h, bufs s !! b = Some x /\ hw (drv s) = issued x h /\ ready h /\
                            forall dr n, sectors (hw (drv s)) dr n = sectors h dr n
              end
}.

Lemma ide_block_Some d dev no : is_Some (ide_block d dev no) ->
  0 <= dev < 2 /\ 0 <= no < FSSIZE /\ ide_block d dev no = sectors (hw d) dev no /\ is_Some (sectors (hw d) dev no).
Proof.
  unfold ide_block. intros Hs. destruct (Z.eqb_spec dev 0), (Z.eqb_spec dev 1), (Z.leb_spec 0 no), (Z.ltb_spec no FSSIZE);
    cbn [andb orb] in *; try (by destruct Hs); split_and!; try done; lia.
Qed.

Lemma issued_sectors x h : request_ok (Ide [] true h []) x -> ready h ->
  forall dr n, sectors (issued x h) dr n = sectors h dr n.
Proof.
  intros (Hf & Hk & Hl) Hr. apply ide_block_Some in Hk as (Hd & Hn & _ & Hs). cbn [hw] in Hs. unfold FSSIZE in Hn. unfold issued.
  destruct (dirtyb x).
  - apply ata_write; [done|lia|done|done|done].
  - destruct Hs as [v Hv]. by apply (ata_read h _ _ v); [|lia| |].
Qed.

Lemma idewait_ready c (d : ide A) : ready (hw d) -> idewait c d = Ret (if c && negb (good (hw d)) then -1 else 0) d.
Proof.
  intros Hr. unfold idewait. rewrite (bind_ret (gets _) _ _ _ _ eq_refl), Hr, Z.eqb_refl. cbn [negb].
  by destruct (c && negb (good (hw d))) eqn:E; unfold good in E; rewrite E.
Qed.

Lemma out_bind {X} port v (k : unit -> M (ide A) X) d : (out port v ≫= k) d = k tt (d <| hw ::= outb port v |>).
Proof. done. Qed.

Lemma idestart_ok s b x : bufs s !! b = Some x -> request_ok (drv s) x -> ready (hw (drv s)) ->
  idestart (Some b) s = Ret tt (s <| drv ::= fun d => d <| hw ::= issued x |> |>).
Proof.
  intros Hx (Hf & Hk & _) Hr. apply ide_block_Some in Hk as (Hd & Hn & _ & _). unfold FSSIZE in Hn. unfold idestart.
  rewrite (bind_ret _ _ _ _ _ (get_buf_ok s b x Hx)). destruct (Z.geb_spec (bblockno x) FSSIZE); [unfold FSSIZE in *; lia|].
  change (512 / SECTOR_SIZE) with 1. cbv zeta. rewrite Z.mul_1_r, s32_small by lia. change (1 >? 7) with false. change (1 =? 1) with true.
  cbv iota. unfold on_drv, zoom. rewrite (bind_ret _ _ _ _ _ (idewait_ready _ _ Hr)). rewrite !out_bind.
  assert (Hdev : Z.land (bdev x) 1 = bdev x) by (assert (bdev x = 0 \/ bdev x = 1) as [-> | ->] by lia; done).
  rewrite Hdev. unfold issued, dirtyb. destruct (negb (Z.land (bflags x) B_DIRTY =? 0)); done.
Qed.

Lemma on_drv_modify f s : on_drv (modify f) s = Ret tt (s <| drv ::= f |>).
Proof. done. Qed.

Lemma request_mono d d' x : (forall dr n, is_Some (sectors (hw d) dr n) -> is_Some (sectors (hw d') dr n)) ->
  request_ok d x -> request_ok d' x.
Proof.
  intros Hs (Hf & Hk & Hl). split_and!; [done| |done]. unfold ide_block in *.
  destruct (((bdev x =? 0) || (bdev x =? 1)) && (0 <=? bblockno x) && (bblockno x <? FSSIZE)); [by apply Hs|done].
Qed.

Lemma issued_io x x' h : io_part x' = io_part x -> issued x' h = issued x h.
Proof. intros [= E1 E2 E3 E4]. unfold issued, dirtyb. by rewrite E1, E2, E3, E4. Qed.

Lemma request_io d x x' : io_part x' = io_part x -> request_ok d x -> request_ok d x'.
Proof. intros [= E1 E2 E3 E4]. unfold request_ok. by rewrite E1, E2, E3, E4. Qed.

Lemma ide_frame s s' : ide_ok s -> drv s' = drv s ->
  (forall b x, b ∈ idequeue (drv s) -> bufs s !! b = Some x -> exists x', bufs s' !! b = Some x' /\ io_part x' = io_part x) ->
  ide_ok s'.
Proof.
  intros [H1 H2 H3 H4] Hd Hb. split; rewrite Hd; [done|done| |].
  - intros b Hin. destruct (H3 b Hin) as (x & Hx & Hr). destruct (Hb b x Hin Hx) as (x' & Hx' & E). exists x'.
    split; [done|]. by eapply request_io.
  - destruct (idequeue (drv s)) as [|b q] eqn:E; [done|]. destruct H4 as (x & h & Hx & Hh & Hrest).
    destruct (Hb b x ltac:(set_solver) Hx) as (x' & Hx' & E'). exists x', h. split; [done|]. by rewrite (issued_io x x' h E').
Qed.

Lemma ide_start_ok s b x q :
  havedisk1 (drv s) = true -> idequeue (drv s) = b :: q -> NoDup (b :: q) ->
  (forall c, c ∈ b :: q -> exists x, bufs s !! c = Some x /\ request_ok (drv s) x) ->
  bufs s !! b = Some x -> ready (hw (drv s)) ->
  exists s', idestart (Some b) s = Ret tt s' /\ ide_ok s' /\ bufs s' = bufs s /\ idequeue (drv s') = b :: q /\
    forall dr n, sectors (hw (drv s')) dr n = sectors (hw (drv s)) dr n.
Proof.
  intros H1 Hq Hnd Hr Hx Hst. destruct (Hr b ltac:(set_solver)) as (x' & Hx' & Hrx). rewrite Hx in Hx'. injection Hx' as <-.
  assert (Hsec : forall dr n, sectors (issued x (hw (drv s))) dr n = sectors (hw (drv s)) dr n).
  { apply issued_sectors; [|done]. by eapply request_mono, Hrx. }
  eexists. split; [by apply (idestart_ok s b x)|]. split; [|done].
  split; cbn [drv bufs idequeue havedisk1 setf]; [done|by rewrite Hq| |].
  - rewrite Hq. intros c Hc. destruct (Hr c Hc) as (y & Hy & Hry). exists y. split; [done|].
    eapply request_mono, Hry. intros dr n. cbn. by rewrite Hsec.
  - rewrite Hq. exists x, (hw (drv s)). by split_and!.
Qed.

Lemma ide_rw_law s pid b x :
  ide_ok s -> bufs s !! b = Some x -> sl_locked (bsleep x) <> 0 -> sl_pid (bsleep x) = pid ->
  bflags x = 0 \/ bflags x = Z.lor B_VALID B_DIRTY -> b ∉ idequeue (drv s) ->
  is_Some (ide_block (drv s) (bdev x) (bblockno x)) -> length (bdata x) = 512%nat ->
  exists s', ide_rw pid b s = Ret tt s' /\ ide_ok s' /\ bufs s' = bufs s /\
    idequeue (drv s') = idequeue (drv s) ++ [b] /\ forall dr n, sectors (hw (drv s')) dr n = sectors (hw (drv s)) dr n.
Proof.
  intros Hok Hx Hl Hp Hf Hnew Hdisk Hlen. destruct (Hok) as [H1 H2 H3 H4]. unfold ide_rw.
  rewrite (bind_ret _ _ _ _ _ (buf_holding_ok s b x pid Hx)).
  destruct (Z.eqb_spec (sl_locked (bsleep x)) 0); [done|]. destruct (Z.eqb_spec (sl_pid (bsleep x)) pid); [|done]. cbn [negb andb].
  rewrite (bind_ret _ _ _ _ _ (get_buf_ok s b x Hx)), (bind_ret (gets drv) _ _ _ _ eq_refl), H1, andb_false_r.
  assert (Hn : Z.land (bflags x) (Z.lor B_VALID B_DIRTY) =? B_VALID = false) by (by destruct Hf as [-> | ->]). rewrite Hn.
  set (s1 := s <| drv ::= fun d => d <| idequeue ::= fun q => q ++ [b] |> |>).
  rewrite (bind_ret _ _ _ _ _ (on_drv_modify _ s)), (bind_ret (gets drv) _ _ _ _ eq_refl). fold s1.
  change (idequeue (drv s1)) with (idequeue (drv s) ++ [b]).
  assert (Hreq : forall c, c ∈ idequeue (drv s) ++ [b] -> exists x, bufs s !! c = Some x /\ request_ok (drv s1) x).
  { intros c [Hc| ->%list_elem_of_singleton]%elem_of_app; [apply H3, Hc|]. exists x. done. }
  destruct (idequeue (drv s)) as [|c q] eqn:E.
  - rewrite decide_True by done. destruct (ide_start_ok s1 b x []) as (s' & Hs & Hok' & Hb & Hq & Hsec);
      [done|unfold s1; cbn; by rewrite E|apply NoDup_singleton|done|done|done|]. exists s'. by rewrite Hq.
  - rewrite decide_False by (cbn; intros [= ->]; set_solver). exists s1. split; [done|]. split; [|unfold s1; cbn; by rewrite E].
    split; [done| | |]; change (idequeue (drv s1)) with (idequeue (drv s) ++ [b]); rewrite E; [|done|done].
    apply NoDup_app. split_and!; [done| |apply NoDup_singleton]. intros y Hy ->%list_elem_of_singleton. done.
Qed.

(** After a request: the next one is started. *)
Lemma ide_next s q :
  havedisk1 (drv s) = true -> idequeue (drv s) = q -> NoDup q ->
  (forall c, c ∈ q -> exists x, bufs s !! c = Some x /\ request_ok (drv s) x) -> ready (hw (drv s)) ->
  exists s', match q with [] => mret tt | c :: _ => idestart (Some c) end s = Ret tt s' /\ ide_ok s' /\
    bufs s' = bufs s /\ idequeue (drv s') = q /\ forall dr n, sectors (hw (drv s')) dr n = sectors (hw (drv s)) dr n.
Proof.
  intros H1 Hq Hnd Hr Hst. destruct q as [|c q].
  - exists s. split_and!; [done| |done|done|done]. split; rewrite ?Hq; done.
  - destruct (Hr c ltac:(set_solver)) as (x & Hx & _). apply (ide_start_ok s c x q H1 Hq Hnd Hr Hx Hst).
Qed.

Lemma block_sectors (d d' : ide A) : (forall dr n, sectors (hw d') dr n = sectors (hw d) dr n) ->
  forall dev no, ide_block d' dev no = ide_block d dev no.
Proof. intros Hs dev no. unfold ide_block. by rewrite Hs. Qed.

(** The data and flags of the buffer whose request has finished. *)
Lemma intr_finish s b x q data wr :
  havedisk1 (drv s) = true -> idequeue (drv s) = b :: q -> NoDup (b :: q) -> bufs s !! b = Some x ->
  (forall c, c ∈ q -> exists y, bufs s !! c = Some y /\ request_ok (drv s) y) ->
  ready (hw (drv s)) ->
  let s1 := s <| drv ::= fun d => d <| idequeue := q |> |> <| bufs ::= alter (fun y => y <| bdata := data |>) b |> in
  exists s', (upd_buf b (fun x => x <| bflags ::= fun f => Z.lor f B_VALID |>);;
      upd_buf b (fun x => x <| bflags ::= fun f => Z.land f (Z.lnot B_DIRTY) |>);;
      on_drv (modify (fun d => d <| idewakes ::= fun w => w ++ wr |>));;
      match q with [] => mret tt | c :: _ => idestart (Some c) end) s1 = Ret tt s' /\ ide_ok s' /\
    bufs s' = <[b := x <| bdata := data |> <| bflags := Z.land (Z.lor (bflags x) B_VALID) (Z.lnot B_DIRTY) |>]> (bufs s) /\
    idequeue (drv s') = q /\ forall dr n, sectors (hw (drv s')) dr n = sectors (hw (drv s)) dr n.
Proof.
  intros H1 Hq Hnd Hx Hr Hst s1. apply NoDup_cons in Hnd as [Hb Hnd].
  erewrite bind_ret; [|eapply upd_buf_ok; unfold s1; cbn; rewrite list_lookup_alter_eq, Hx; reflexivity].
  erewrite bind_ret; [|eapply upd_buf_ok; unfold s1; cbn; rewrite !list_lookup_alter_eq, Hx; reflexivity].
  rewrite (bind_ret _ _ _ _ _ (on_drv_modify _ _)). set (s2 := (_ : bio (ide A)) <| drv ::= _ |>).
  assert (Hb2 : bufs s2 = <[b := x <| bdata := data |> <| bflags := Z.land (Z.lor (bflags x) B_VALID) (Z.lnot B_DIRTY) |>]> (bufs s)).
  { unfold s2, s1, setf. cbn. rewrite !list_alter_alter. by rewrite (list_alter_insert _ _ _ x Hx). }
  destruct (ide_next s2 q) as (s' & Hs & Hok & Hb' & Hq' & Hsec); [done|done|done| |done|].
  - intros c Hc. destruct (Hr c Hc) as (y & Hy & Hry). exists y. rewrite Hb2, list_lookup_insert_ne by (intros ->; done). done.
  - exists s'. rewrite Hb', Hb2. by split_and!.
Qed.

(** The buffer of a request that has ended: [ok] says whether the drive reported
    no error.  The driver does not keep that. *)
Definition ended (ok : bool) (x : buf) (disk : option block) : buf :=
  if ok then served x disk else x <| bflags := Z.land (Z.lor (bflags x) B_VALID) (Z.lnot B_DIRTY) |>.

(** Whether the drive reports no error at the interrupt that comes next. *)
Definition status_ok s : bool := good (finish (hw (drv s))).

(** The first request of the queue is taken off it and ends. *)
Definition first_ends (s s' : bio (ide A)) : Prop :=
  exists b rest x, idequeue (drv s) = b :: rest /\ idequeue (drv s') = rest /\ bufs s !! b = Some x /\
    bufs s' = <[b := ended (status_ok s) x (ide_block (drv s) (bdev x) (bblockno x))]> (bufs s) /\
    (forall dev no, ~ (dirtyb x = true /\ dev = bdev x /\ no = bblockno x) ->
       ide_block (drv s') dev no = ide_block (drv s) dev no) /\
    (dirtyb x = true -> status_ok s = true -> ide_block (drv s') (bdev x) (bblockno x) = Some (bdata x)).

Lemma block_at (d : ide A) dev no : 0 <= dev < 2 -> 0 <= no < FSSIZE -> ide_block d dev no = sectors (hw d) dev no.
Proof.
  intros H1 H2. unfold ide_block.
  destruct (Z.eqb_spec dev 0), (Z.eqb_spec dev 1), (Z.leb_spec 0 no), (Z.ltb_spec no FSSIZE); cbn; try done; lia.
Qed.

Lemma block_mono (d d' : ide A) dev no : sectors (hw d') dev no = sectors (hw d) dev no -> ide_block d' dev no = ide_block d dev no.
Proof. intros E. unfold ide_block. by rewrite E. Qed.

Lemma same_data {X} (m : M (bio (ide A)) X) (d : ide A) (l : list buf) b x :
  l !! b = Some x -> m (Bio l d) = m (Bio (alter (fun y => y <| bdata := bdata x |>) b l) d).
Proof. intros Hx. do 2 f_equal. symmetry. eapply alter_id; [done|]. by destruct x. Qed.

(** What the interrupt handler does for the active request. *)
Lemma intr_read s b x q h : ide_ok s -> idequeue (drv s) = b :: q -> bufs s !! b = Some x -> request_ok (drv s) x ->
  bflags x = 0 -> hw (drv s) = issued x h -> ready h -> (forall dr n, sectors (hw (drv s)) dr n = sectors h dr n) ->
  exists s', ide_interrupt s = Ret tt s' /\ ide_ok s' /\ first_ends s s'.
Proof.
  intros [H1 H2 H3 _] E Hx Hreq Hf Hh Hst Hsec. destruct (Hreq) as (_ & Hk & Hl).
  pose proof Hk as (Hd & Hn & Hke & Hks)%ide_block_Some. unfold FSSIZE in Hn. rewrite Hsec in Hks. rewrite E in H2, H3.
  assert (Hdb : dirtyb x = false) by (unfold dirtyb; by rewrite Hf).
  unfold issued in Hh. rewrite Hdb in Hh. destruct Hks as [v Hv].
  destruct (ata_read h (bdev x) (bblockno x) v Hd ltac:(lia) Hst Hv) as (_ & Hs1 & Hsec1 & Hgood).
  rewrite <- Hh in Hs1, Hsec1, Hgood.
  unfold ide_interrupt. rewrite (bind_ret _ _ _ _ _ (on_drv_modify _ s)). unfold ide_intr.
  rewrite (bind_ret (gets drv) _ _ _ _ eq_refl). cbn [drv idequeue setf]. rewrite E.
  rewrite (bind_ret _ _ _ _ _ (on_drv_modify _ _)). erewrite bind_ret; [|by apply get_buf_ok].
  rewrite Hf. change (Z.land 0 B_DIRTY =? 0) with true. cbv iota. rewrite bind_assoc.
  erewrite bind_ret; [|unfold on_drv, zoom; rewrite idewait_ready by exact Hs1; reflexivity]. cbn [andb].
  change (good (hw _)) with (status_ok s). destruct (status_ok s) eqn:Hok; cbn [negb].
  - destruct (Hgood Hok) as (Hin & Hs2 & Hsec2). change (0 >=? 0) with true. cbv iota. rewrite bind_assoc.
    erewrite bind_ret; [|reflexivity]. erewrite bind_ret; [|by eapply upd_buf_ok].
    set (s1 := s <| drv ::= fun d => d <| hw := (insl 0x1f0 (finish (hw d))).2 |> |>).
    destruct (intr_finish s1 b x q v [b]) as (s' & Hrun & Hok' & Hb & Hq & Hsc); [done|done|done|done| |done|].
    { intros c Hc. destruct (H3 c ltac:(set_solver)) as (y & Hy & Hry). exists y. split; [done|].
      eapply request_mono, Hry. intros dr n. unfold s1. cbn. by rewrite Hsec2, Hsec. }
    rewrite <- Hin in Hrun, Hb. exists s'. split; [exact Hrun|]. split; [done|]. exists b, q, x.
    split_and!; [done|done|done| | |by rewrite Hdb].
    + rewrite Hb, Hok. unfold ended, served. by rewrite Hdb, Hke, Hsec, Hv, Hin.
    + intros dev no _. apply block_mono. rewrite Hsc. unfold s1. cbn. by rewrite Hsec2, Hsec.
  - change (-1 >=? 0) with false. cbv iota. rewrite ret_bind. set (s1 := s <| drv ::= fun d => d <| hw := finish (hw d) |> |>).
    destruct (intr_finish s1 b x q (bdata x) [b]) as (s' & Hrun & Hok' & Hb & Hq & Hsc); [done|done|done|done| |done|].
    { intros c Hc. destruct (H3 c ltac:(set_solver)) as (y & Hy & Hry). exists y. split; [done|].
      eapply request_mono, Hry. intros dr n. unfold s1. cbn. by rewrite Hsec1, Hsec. }
    exists s'. split; [rewrite <- Hrun; by apply same_data|]. split; [done|]. exists b, q, x. split_and!; [done|done|done| | |by rewrite Hdb].
    + rewrite Hb, Hok. unfold ended. by destruct x.
    + intros dev no _. apply block_mono. rewrite Hsc. unfold s1. cbn. by rewrite Hsec1, Hsec.
Qed.

Lemma intr_write s b x q h : ide_ok s -> idequeue (drv s) = b :: q -> bufs s !! b = Some x -> request_ok (drv s) x ->
  bflags x = Z.lor B_VALID B_DIRTY -> hw (drv s) = issued x h -> ready h -> (forall dr n, sectors (hw (drv s)) dr n = sectors h dr n) ->
  exists s', ide_interrupt s = Ret tt s' /\ ide_ok s' /\ first_ends s s'.
Proof.
  intros [H1 H2 H3 _] E Hx Hreq Hf Hh Hst Hsec. destruct (Hreq) as (_ & Hk & Hl).
  pose proof Hk as (Hd & Hn & Hke & Hks)%ide_block_Some. pose proof Hn as Hn'. unfold FSSIZE in Hn. rewrite Hsec in Hks. rewrite E in H2, H3.
  assert (Hdb : dirtyb x = true) by (unfold dirtyb; by rewrite Hf). unfold issued in Hh. rewrite Hdb in Hh.
  destruct (ata_write h (bdev x) (bblockno x) (bdata x) Hd ltac:(lia) Hst Hks Hl) as (_ & Hs1 & Hsec2 & Hown & Hgood).
  rewrite <- Hh in Hs1, Hsec2, Hown, Hgood.
  unfold ide_interrupt. rewrite (bind_ret _ _ _ _ _ (on_drv_modify _ s)). unfold ide_intr.
  rewrite (bind_ret (gets drv) _ _ _ _ eq_refl). cbn [drv idequeue setf]. rewrite E.
  rewrite (bind_ret _ _ _ _ _ (on_drv_modify _ _)). erewrite bind_ret; [|by apply get_buf_ok].
  rewrite Hf. change (Z.land (Z.lor B_VALID B_DIRTY) B_DIRTY =? 0) with false. cbv iota. rewrite ret_bind.
  set (s1 := s <| drv ::= fun d => d <| hw := finish (hw d) |> |>).
  destruct (intr_finish s1 b x q (bdata x) [b]) as (s' & Hrun & Hok' & Hb & Hq & Hsc); [done|done|done|done| |done|].
  { intros c Hc. destruct (H3 c ltac:(set_solver)) as (y & Hy & Hry). exists y. split; [done|].
    eapply request_mono, Hry. intros dr n Hs. unfold s1. cbn.
    destruct (decide (dr = bdev x /\ n = bblockno x)) as [[-> ->]|Hne]; [done|]. by rewrite Hsec2, <- Hsec. }
  exists s'. split; [rewrite <- Hrun; by apply same_data|]. split; [done|]. exists b, q, x. split_and!; [done|done|done| | |].
  - rewrite Hb. unfold ended, served. rewrite Hdb. destruct (status_ok s); [done|by destruct x].
  - intros dev no Hne. apply block_mono. rewrite Hsc. unfold s1. cbn. rewrite Hsec2, Hsec; [done|tauto].
  - intros _ Hok. rewrite block_at by done. rewrite Hsc. unfold s1. cbn. by apply Hgood.
Qed.

Lemma ide_intr_law s : ide_ok s ->
  exists s', ide_interrupt s = Ret tt s' /\ ide_ok s' /\
    ((idequeue (drv s) = [] /\ idequeue (drv s') = idequeue (drv s) /\ bufs s' = bufs s /\
      forall dev no, ide_block (drv s') dev no = ide_block (drv s) dev no) \/ first_ends s s').
Proof.
  intros Hok. destruct (Hok) as [H1 H2 H3 H4]. destruct (idequeue (drv s)) as [|b q] eqn:E.
  - destruct (ata_idle _ H4) as [Hst Hsec]. unfold ide_interrupt. rewrite (bind_ret _ _ _ _ _ (on_drv_modify _ s)).
    set (s0 := s <| drv ::= _ |>). unfold ide_intr. rewrite (bind_ret (gets drv) _ _ _ _ eq_refl).
    change (idequeue (drv s0)) with (idequeue (drv s)). rewrite E.
    exists s0. split; [done|]. split; [split; cbn; rewrite ?E; try done; set_solver|].
    left. split_and!; [done|by cbn|done|]. by apply block_sectors.
  - destruct H4 as (x & h & Hx & Hh & Hst & Hsec). destruct (H3 b ltac:(set_solver)) as (x' & Hx' & Hreq).
    rewrite Hx in Hx'. injection Hx' as <-.
    assert (Hgo : exists s', ide_interrupt s = Ret tt s' /\ ide_ok s' /\ first_ends s s')
      by (destruct (Hreq) as ([Hf|Hf] & _); [by eapply intr_read|by eapply intr_write]).
    destruct Hgo as (s' & ? & ? & ?). exists s'. split_and!; [done|done|by right].
Qed.

(** A controller that never reports an error keeps the contract of a driver. *)
Class AtaFaultless : Prop := ata_faultless : forall h : A, good (finish h) = true.
Context {HF : AtaFaultless}.

#[export] Program Instance ide_laws : DriverLaws (ide A) := {
  queue := idequeue;
  platter := ide_block;
  drv_ok := ide_ok
}.
Next Obligation. intros s s'. apply ide_frame. Qed.
Next Obligation.
  intros s pid b x Hok Hx Hl Hp Hf Hq Hd Hlen. destruct (ide_rw_law s pid b x Hok Hx Hl Hp Hf Hq Hd Hlen) as (s' & Hr & Hok' & Hb & Hq' & Hs).
  exists s'. split; [done|]. split; [done|]. left. split_and!; [done|done|]. by apply block_sectors.
Qed.
Next Obligation.
  intros s Hok. destruct (ide_intr_law s Hok) as (s' & Hr & Hok' & Hcase). exists s'. split; [done|]. split; [done|].
  destruct Hcase as [?|(b & rest & x & Hq & Hq' & Hx & Hb & Hpl & Hwr)]; [by left|right]. exists b, rest. split_and!; [done|done|].
  assert (Hgood : status_ok s = true) by apply ata_faultless. rewrite Hgood in Hb. exists x. split_and!; [done|exact Hb|].
  intros dev no. destruct (dirtyb x) eqn:Hd; cbn [andb]; [|apply Hpl; by intros [? _]].
  destruct (Z.eqb_spec dev (bdev x)) as [->|], (Z.eqb_spec no (bblockno x)) as [->|]; cbn [andb];
    [by apply Hwr|apply Hpl; naive_solver..].
Qed.
End Laws.

(** ** Every request is served *)

Section Drain.
Context `{AtaLaws A}.
Implicit Types s : bio (ide A).

(** [n] interrupts, and for each whether the drive reported no error. *)
Fixpoint interrupts (n : nat) : M (bio (ide A)) (list bool) :=
  match n with
  | O => mret []
  | S n => ok ← gets status_ok; ideintr;; l ← interrupts n; mret (ok :: l)
  end.

Definition same_key (x y : buf) : Prop := bdev x = bdev y /\ bblockno x = bblockno y.

Definition distinct_keys s : Prop := forall b c x y, b ∈ idequeue (drv s) -> c ∈ idequeue (drv s) ->
  bufs s !! b = Some x -> bufs s !! c = Some y -> same_key x y -> b = c.

(** What the driver makes of the buffer [b] and of its block.  If the drive
    reported an error, the buffer keeps its data and is marked valid all the
    same. *)
Definition request_ended (ok : bool) (s s' : bio (ide A)) (b : nat) (x : buf) : Prop :=
  exists x', bufs s' !! b = Some x' /\ bflags x' = B_VALID /\ same_key x' x /\
    (dirtyb x = false -> ide_block (drv s') (bdev x) (bblockno x) = ide_block (drv s) (bdev x) (bblockno x)) /\
    if ok then ide_block (drv s') (bdev x) (bblockno x) = Some (bdata x') /\ (dirtyb x = true -> bdata x' = bdata x)
    else bdata x' = bdata x.

(** One interrupt ends the first request and leaves the others. *)
Lemma ide_serves_first s b q : ide_ok s -> idequeue (drv s) = b :: q ->
  exists s' x, ideintr s = Ret tt s' /\ ide_ok s' /\ idequeue (drv s') = q /\ bufs s !! b = Some x /\
    request_ended (status_ok s) s s' b x /\
    (forall c, c <> b -> bufs s' !! c = bufs s !! c) /\
    (forall dev no, ~ (dev = bdev x /\ no = bblockno x) -> ide_block (drv s') dev no = ide_block (drv s) dev no).
Proof.
  intros Hok Hq. destruct (ide_intr_law s Hok) as (s' & Hr & Hok' & [(Hq' & _)|(c & rest & x & Hq' & Hrest & Hx & Hbufs & Hpl & Hwr)]); [congruence|].
  rewrite Hq in Hq'. injection Hq' as <- <-. destruct (io_reqs _ Hok b) as (x1 & Hx1 & Hf & Hs & Hl); [rewrite Hq; by left|].
  rewrite Hx in Hx1. injection Hx1 as <-. exists s', x.
  split_and!; [done|done|done|done| |intros c Hc; by rewrite Hbufs, list_lookup_insert_ne|intros dev no Hne; apply Hpl; tauto].
  eexists. split; [rewrite Hbufs; apply list_lookup_insert_eq; by eapply lookup_lt_Some|].
  assert (Hflags : Z.land (Z.lor (bflags x) B_VALID) (Z.lnot B_DIRTY) = B_VALID) by (by destruct Hf as [-> | ->]).
  split; [by destruct (status_ok s)|]. split; [by destruct (status_ok s)|].
  split; [intros Hd; apply Hpl; intros [? _]; congruence|].
  destruct (status_ok s); [|done]. unfold ended, served. cbn [bdata setf]. destruct (dirtyb x) eqn:Hd.
  - split; [by apply Hwr|done].
  - split; [|done]. rewrite Hpl by (by intros [? _]). by destruct Hs as [v ->].
Qed.

(** C25. As many interrupts as there are requests empty the queue.  Where the drive
    reports no error, the buffer is valid and agrees with its block: a block that
    was to be written has the buffer's data, and the buffer has the data of a block
    that was to be read.  Where it reports an error, the buffer is marked valid
    with the data it had before.  Other buffers and blocks stay as they are. *)
Theorem ide_serves_queue s : ide_ok s -> distinct_keys s ->
  exists oks s', interrupts (length (idequeue (drv s))) s = Ret oks s' /\ idequeue (drv s') = [] /\
    length oks = length (idequeue (drv s)) /\
    (forall i b x ok, idequeue (drv s) !! i = Some b -> oks !! i = Some ok -> bufs s !! b = Some x -> request_ended ok s s' b x) /\
    (forall c, c ∉ idequeue (drv s) -> bufs s' !! c = bufs s !! c) /\
    (forall dev no, (forall c y, c ∈ idequeue (drv s) -> bufs s !! c = Some y -> ~ (dev = bdev y /\ no = bblockno y)) ->
       ide_block (drv s') dev no = ide_block (drv s) dev no).
Proof.
  remember (idequeue (drv s)) as q eqn:Hq. symmetry in Hq. revert s Hq. induction q as [|b q IH]; intros s Hq Hok Hk.
  { exists [], s. split_and!; try done. }
  destruct (ide_serves_first s b q Hok Hq) as (s1 & x & Hr & Hok1 & Hq1 & Hx & Hserved & Hoth & Hpl).
  pose proof (io_nodup _ Hok) as Hnd. rewrite Hq in Hnd. apply NoDup_cons in Hnd as [Hb Hnd].
  assert (Hne : forall c, c ∈ q -> c <> b) by (intros c Hc ->; done).
  assert (Hkey : forall c y, c ∈ q -> bufs s !! c = Some y -> ~ (bdev y = bdev x /\ bblockno y = bblockno x)).
  { intros c y Hc Hy E. apply (Hne c Hc). apply (Hk c b y x); [rewrite Hq; by right|rewrite Hq; by left|done..]. }
  assert (Hk1 : distinct_keys s1).
  { intros c c' y y' Hc Hc' Hy Hy'. rewrite Hq1 in Hc, Hc'. rewrite Hoth in Hy, Hy' by auto.
    apply Hk; [rewrite Hq; by right|rewrite Hq; by right|done|done]. }
  destruct (IH s1 Hq1 Hok1 Hk1) as (oks & s2 & Hr2 & Hq2 & Hlen & Hs2 & Ho2 & Hp2). exists (status_ok s :: oks), s2.
  split_and!; [|done|cbn; lia| | |].
  - cbn [length interrupts]. rewrite (bind_ret (gets status_ok) _ _ _ _ eq_refl), (bind_ret _ _ _ _ _ Hr).
    by rewrite (bind_ret _ _ _ _ _ Hr2).
  - intros [|i] c y ok Hi Hoki Hy.
    + injection Hi as <-. injection Hoki as <-. rewrite Hx in Hy. injection Hy as <-.
      destruct Hserved as (x' & Hx' & Hf' & Hkx & Hrd & Hdata). exists x'. rewrite (Ho2 b Hb), Hx'.
      assert (Hsame : ide_block (drv s2) (bdev x) (bblockno x) = ide_block (drv s1) (bdev x) (bblockno x)).
      { apply Hp2. intros c y Hc Hy [E1 E2]. rewrite Hoth in Hy by auto. by apply (Hkey c y Hc Hy). }
      rewrite Hsame. by split_and!.
    + cbn in Hi, Hoki. assert (Hc : c ∈ q) by (by eapply list_elem_of_lookup_2).
      assert (Hsame : ide_block (drv s1) (bdev y) (bblockno y) = ide_block (drv s) (bdev y) (bblockno y)).
      { apply Hpl. intros E. by apply (Hkey c y Hc Hy). }
      rewrite <- (Hoth c (Hne c Hc)) in Hy. destruct (Hs2 i c y ok Hi Hoki Hy) as (y' & Hy' & Hf' & Hky & Hrd & Hdata).
      exists y'. rewrite <- Hsame. by split_and!.
  - intros c Hc. apply not_elem_of_cons in Hc as [Hc1 Hc2]. by rewrite Ho2, Hoth.
  - intros dev no Hno. rewrite Hp2, Hpl; [done| |].
    + apply (Hno b x); [by left|done].
    + intros c y Hc Hy. rewrite Hoth in Hy by auto. apply (Hno c y); [by right|done].
Qed.
End Drain.

(** ** A controller

    Registers, the sector buffer and two drives with bad sectors: what [AtaLaws]
    asks for can be built. *)

Record toy := Toy { t_reg : Z -> Z; t_stat : Z; t_buf : block; t_disk : gmap (Z * Z) block }.

Definition toy_lba (h : toy) : Z := t_reg h 0x1f3 + 256 * t_reg h 0x1f4 + 65536 * t_reg h 0x1f5 + 16777216 * (t_reg h 0x1f6 mod 16).
Definition toy_drive (h : toy) : Z := t_reg h 0x1f6 / 16 mod 2.
Definition toy_at (h : toy) : Z * Z := (toy_drive h, toy_lba h).

Section Toy.
Variable bad : Z * Z -> bool.

(** The status at the end of a command: ready and seek complete, with a request to
    transfer data after a read, or with an error for a bad sector. *)
Definition toy_status (h : toy) : Z :=
  if bad (toy_at h) then 0x51 else if t_reg h 0x1f7 =? IDE_CMD_READ then 0x58 else 0x50.

Definition toy_end (h : toy) : toy :=
  if t_reg h 0x1f7 =? 0 then Toy (t_reg h) 0x50 (t_buf h) (t_disk h)
  else Toy (fun p => if p =? 0x1f7 then 0 else t_reg h p) (toy_status h) (t_buf h)
           (if (t_reg h 0x1f7 =? IDE_CMD_WRITE) && negb (bad (toy_at h)) then <[toy_at h := t_buf h]> (t_disk h) else t_disk h).

#[local] Instance toy_ata : Ata toy := {
  outb := fun port v h => Toy (fun p => if p =? port then v else t_reg h p) (t_stat h) (t_buf h) (t_disk h);
  inb := fun port h => if t_reg h 0x1f7 =? 0 then t_stat h else IDE_BSY;
  outsl := fun port data h => Toy (t_reg h) (t_stat h) data (t_disk h);
  insl := fun port h => (default [] (t_disk h !! toy_at h), Toy (t_reg h) 0x50 (t_buf h) (t_disk h));
  finish := toy_end;
  sectors := fun h dr n => t_disk h !! (dr, n)
}.

Lemma toy_decode drive lba cmd h : 0 <= drive < 2 -> 0 <= lba < 2 ^ 28 -> toy_at (ata_cmd drive lba cmd h) = (drive, lba).
Proof.
  intros Hd Hl. unfold toy_at, toy_drive, toy_lba, ata_cmd. cbn -[Z.land Z.lor Z.shiftr Z.shiftl Z.mul Z.add Z.modulo Z.div].
  assert (H6 : forall n, 0 <= n < 16 -> Z.lor (Z.lor 0xe0 (Z.shiftl drive 4)) n = 0xe0 + drive * 16 + n).
  { intros n Hn. assert (Hcase : forallb (fun d => forallb (fun m => Z.lor (Z.lor 0xe0 (Z.shiftl d 4)) m =? 0xe0 + d * 16 + m) (seqZ 0 16)) [0; 1] = true) by reflexivity.
    rewrite forallb_forall in Hcase. specialize (Hcase drive ltac:(cbn; lia)). rewrite forallb_forall in Hcase.
    apply Z.eqb_eq, Hcase, list_elem_of_In, elem_of_seqZ. lia. }
  change 0xff with (Z.ones 8). change 0x0f with (Z.ones 4). rewrite !Z.land_ones, !Z.shiftr_div_pow2 by lia.
  rewrite H6 by (apply Z.mod_pos_bound; lia). f_equal; zlia.
Qed.

Lemma toy_end_status h : t_reg h 0x1f7 <> 0 -> inb 0x1f7 (toy_end h) = toy_status h.
Proof. intros Hc. unfold toy_end. rewrite (proj2 (Z.eqb_neq _ _) Hc). done. Qed.

Lemma toy_end_disk h : t_reg h 0x1f7 <> 0 ->
  t_disk (toy_end h) =
  if (t_reg h 0x1f7 =? IDE_CMD_WRITE) && negb (bad (toy_at h)) then <[toy_at h := t_buf h]> (t_disk h) else t_disk h.
Proof. intros Hc. unfold toy_end. rewrite (proj2 (Z.eqb_neq _ _) Hc). done. Qed.

#[local] Instance toy_laws : AtaLaws toy.
Proof.
  split.
  - intros h drive lba d Hd Hl _ Hs h1 h2. pose proof (toy_decode drive lba IDE_CMD_READ h Hd Hl) as Hat. fold h1 in Hat.
    assert (Hstat : inb 0x1f7 h2 = if bad (drive, lba) then 0x51 else 0x58).
    { change (inb 0x1f7 (toy_end h1) = if bad (drive, lba) then 0x51 else 0x58). rewrite toy_end_status by done.
      unfold toy_status. by rewrite Hat. }
    assert (Hdisk : t_disk h2 = t_disk h) by done.
    split_and!; [done|unfold ready; rewrite Hstat; by destruct (bad _)|done|]. intros _. split_and!; [|done|done].
    change (default [] (t_disk h2 !! toy_at h1) = d). rewrite Hdisk, Hat. cbn in Hs. by rewrite Hs.
  - intros h drive lba data Hd Hl _ Hs Hlen h1 h2. pose proof (toy_decode drive lba IDE_CMD_WRITE h Hd Hl) as Hat.
    assert (Hat1 : toy_at h1 = (drive, lba)) by exact Hat.
    assert (Hstat : inb 0x1f7 h2 = if bad (drive, lba) then 0x51 else 0x50).
    { change (inb 0x1f7 (toy_end h1) = if bad (drive, lba) then 0x51 else 0x50). rewrite toy_end_status by done.
      unfold toy_status. by rewrite Hat1. }
    assert (Hdisk : t_disk h2 = if bad (drive, lba) then t_disk h else <[(drive, lba) := data]> (t_disk h)).
    { unfold h2. change (finish h1) with (toy_end h1). rewrite toy_end_disk, Hat1 by done. by destruct (bad (drive, lba)). }
    split_and!; [done|unfold ready; rewrite Hstat; by destruct (bad _)| | |].
    + intros dr n Hne. change (t_disk h2 !! (dr, n) = t_disk h !! (dr, n)). rewrite Hdisk. destruct (bad _); [done|]. apply lookup_insert_ne. naive_solver.
    + change (is_Some (t_disk h2 !! (drive, lba))). rewrite Hdisk. destruct (bad _); [done|]. by rewrite lookup_insert_eq.
    + unfold good. rewrite Hstat. change (sectors h2 drive lba) with (t_disk h2 !! (drive, lba)). rewrite Hdisk.
      destruct (bad _); [done|]. intros _. apply lookup_insert_eq.
  - intros h Hi. unfold ready in *. cbn in *. unfold toy_end. destruct (Z.eqb_spec (t_reg h 0x1f7) 0) as [E|]; [|done]. cbn. by rewrite E.
Qed.

End Toy.

Lemma toy_faultless : AtaFaultless (A := toy) (H := toy_ata (fun _ => false)).
Proof.
  intros h. unfold good. cbn. unfold toy_end, toy_status. destruct (Z.eqb_spec (t_reg h 0x1f7) 0) as [E|E]; cbn.
  - by rewrite E.
  - by destruct (t_reg h 0x1f7 =? IDE_CMD_READ).
Qed.

(** Three requests: block 5 of disk 1 is to be written, block 6 to be read, and
    block 7, which is bad, too. *)
Definition bad_sector (a : Z * Z) : bool := bool_decide (a = (1, 7)).
#[export] Instance bad_ata : Ata toy := toy_ata bad_sector.
#[export] Instance bad_laws : AtaLaws toy := toy_laws bad_sector.
Definition toy0 : toy := Toy (fun _ => 0) 0x50 [] {[(1, 5) := replicate 512 1; (1, 6) := replicate 512 2; (1, 7) := replicate 512 3]}.
Definition wbuf : buf := Buf 6 1 5 (SleepLock 1 7 0) 1 0 0 (replicate 512 9).
Definition rbuf : buf := Buf 0 1 6 (SleepLock 1 8 0) 1 0 0 (replicate 512 0).
Definition xbuf : buf := Buf 0 1 7 (SleepLock 1 9 0) 1 0 0 (replicate 512 0).
Definition requests : bio (ide toy) := Bio [wbuf; rbuf; xbuf] (Ide [0%nat; 1%nat; 2%nat] true (issued wbuf toy0) []).

Lemma requests_ok : ide_ok requests /\ distinct_keys requests.
Proof.
  assert (Hin : forall b x, b ∈ idequeue (drv requests) -> bufs requests !! b = Some x ->
    b = 0%nat /\ x = wbuf \/ b = 1%nat /\ x = rbuf \/ b = 2%nat /\ x = xbuf).
  { intros b x Hb Hx. cbn in Hb. repeat (apply elem_of_cons in Hb as [->|Hb]; [injection Hx as <-; tauto|]). by apply elem_of_nil in Hb. }
  split.
  - split; [done|cbn; by apply (bool_decide_unpack _)| |].
    + intros b Hb. assert (Hx : exists x, bufs requests !! b = Some x /\ (x = wbuf \/ x = rbuf \/ x = xbuf)).
      { cbn in Hb. repeat (apply elem_of_cons in Hb as [->|Hb]; [eexists; split; [reflexivity|tauto]|]). by apply elem_of_nil in Hb. }
      destruct Hx as (x & Hx & Hcase). exists x. split; [done|].
      destruct Hcase as [->|[->| ->]]; split_and!; first [by left|by right|by eexists|reflexivity].
    + exists wbuf, toy0. by split_and!.
  - intros b c x y Hb Hc Hx Hy [_ E].
    destruct (Hin b x Hb Hx) as [[-> ->]|[[-> ->]|[-> ->]]], (Hin c y Hc Hy) as [[-> ->]|[[-> ->]|[-> ->]]]; done.
Qed.

Lemma ide_serves_queue_witness :
  exists oks s', interrupts 3 requests = Ret oks s' /\ idequeue (drv s') = [] /\ oks = [true; true; false] /\
    (forall i b x ok, [0%nat; 1%nat; 2%nat] !! i = Some b -> oks !! i = Some ok -> bufs requests !! b = Some x ->
       request_ended ok requests s' b x).
Proof.
  destruct (ide_serves_queue requests (proj1 requests_ok) (proj2 requests_ok)) as (oks & s' & Hrun & Hq & _ & Hreq & _).
  exists oks, s'. split; [exact Hrun|]. split; [exact Hq|]. split; [|exact Hreq].
  assert (Hr : exists s2, interrupts 3 requests = Ret [true; true; false] s2) by (eexists; vm_compute; reflexivity).
  destruct Hr as (s2 & Hr). cbn [length requests drv idequeue] in Hrun. rewrite Hr in Hrun. by injection Hrun as <- _.
Defined.
