(* ===== verification/BioSys.v ===== *)
(** * BioSys: processes at the buffer cache

    Any number of threads of control use the cache, above any driver that
    satisfies [DriverLaws].  Each is at a point of [bread], of its use of the
    buffer, of [bwrite] or of [brelse]; the steps are the critical sections of
    Bio.v and run in any order, with the interrupts of the disk between them.
    The invariant gives the contract of bio.c: one process at a time has a
    block, what it finds is what the last one left, and nothing that has not
    reached the disk is ever dropped. *)

From S2P Require Import Prelude Sleeplock Bio Memide.

Notation key := (Z * Z)%type.

(** Where a thread is.  [BHave b k m]: it has the buffer; [m] says that it has
    changed the data and neither written nor pinned it yet. *)
Inductive bpc :=
| BIdle
| BWait (b : nat) (k : key)
| BLocked (b : nat) (k : key)
| BDisk (b : nat) (k : key)
| BHave (b : nat) (k : key) (m : bool)
| BRel (b : nat) (k : key).

Definition ref_of (p : bpc) : option (nat * key) :=
  match p with
  | BIdle => None
  | BWait b k | BLocked b k | BDisk b k | BHave b k _ | BRel b k => Some (b, k)
  end.

(** The buffer whose sleep lock the thread has. *)
Definition lock_of (p : bpc) : option nat :=
  match p with BLocked b _ | BDisk b _ | BHave b _ _ => Some b | _ => None end.

Record bsys (D : Type) := BSys { b_io : bio D; b_thr : list (Z * bpc); b_view : gmap key block }.
Arguments BSys {D} b_io b_thr b_view.
Arguments b_io {D} b.
Arguments b_thr {D} b.
Arguments b_view {D} b.

Section Sys.
Context `{DriverLaws D}.
Implicit Types io : bio D.

(** The blocks that exist; device 0 is never used by the kernel. *)
Definition block_on (io : bio D) (k : key) : Prop := k.1 <> 0 /\ is_Some (platter (drv io) k.1 k.2).

Inductive bstep : bsys D -> bsys D -> Prop :=
| bs_get io thr v t pid dev no b io' :
    thr !! t = Some (pid, BIdle) -> block_on io (dev, no) -> bget dev no io = Ret b io' ->
    bstep (BSys io thr v) (BSys io' (<[t := (pid, BWait b (dev, no))]> thr) v)
| bs_lock io thr v t pid b k io' :
    thr !! t = Some (pid, BWait b k) -> on_lock b (acquiresleep pid) io = Ret true io' ->
    bstep (BSys io thr v) (BSys io' (<[t := (pid, BLocked b k)]> thr) v)
| bs_fill io thr v t pid b k (waits : bool) io' :
    thr !! t = Some (pid, BLocked b k) -> bread_fill pid b io = Ret waits io' ->
    bstep (BSys io thr v) (BSys io' (<[t := (pid, if waits then BDisk b k else BHave b k false)]> thr) v)
| bs_done io thr v t pid b k io' :
    thr !! t = Some (pid, BDisk b k) -> iderw_done b io = Ret true io' ->
    bstep (BSys io thr v) (BSys io' (<[t := (pid, BHave b k false)]> thr) v)
| bs_change io thr v t pid b k m data io' :
    thr !! t = Some (pid, BHave b k m) -> length data = 512%nat ->
    upd_buf b (fun x => x <| bdata := data |>) io = Ret tt io' ->
    bstep (BSys io thr v) (BSys io' (<[t := (pid, BHave b k true)]> thr) (<[k := data]> v))
| bs_pin io thr v t pid b k m io' :
    thr !! t = Some (pid, BHave b k m) -> upd_buf b (fun x => x <| bflags ::= fun f => Z.lor f B_DIRTY |>) io = Ret tt io' ->
    bstep (BSys io thr v) (BSys io' (<[t := (pid, BHave b k false)]> thr) v)
| bs_write io thr v t pid b k m io' :
    thr !! t = Some (pid, BHave b k m) -> bwrite pid b io = Ret tt io' ->
    bstep (BSys io thr v) (BSys io' (<[t := (pid, BDisk b k)]> thr) v)
| bs_unlock io thr v t pid b k io' :
    thr !! t = Some (pid, BHave b k false) -> brelse_unlock pid b io = Ret tt io' ->
    bstep (BSys io thr v) (BSys io' (<[t := (pid, BRel b k)]> thr) v)
| bs_unref io thr v t pid b k io' :
    thr !! t = Some (pid, BRel b k) -> brelse_unref b io = Ret tt io' ->
    bstep (BSys io thr v) (BSys io' (<[t := (pid, BIdle)]> thr) v)
| bs_intr io thr v io' :
    ideintr io = Ret tt io' -> bstep (BSys io thr v) (BSys io' thr v).

(** Boot: [binit] on zeroed memory; nothing is cached. *)
Definition bboot (y : bsys D) : Prop :=
  exists d data, length data = 512%nat /\
    binit (Bio (replicate (S NBUF) (buf0 <| bdata := data |>)) d) = Ret tt (b_io y) /\
    Forall (fun t => t.2 = BIdle) (b_thr y) /\ Z.of_nat (length (b_thr y)) < 2 ^ 32 /\
    drv_ok (b_io y) /\ queue d = [] /\
    (forall dev no, b_view y !! (dev, no) = platter d dev no) /\
    (forall dev no v, platter d dev no = Some v -> length v = 512%nat).

(** ** Counting references *)

Definition refs (b : nat) (thr : list (Z * bpc)) : Z :=
  Z.of_nat (length (List.filter (fun t => bool_decide (fst <$> ref_of t.2 = Some b)) thr)).

Definition refb (b : nat) (p : bpc) : Z := if bool_decide (fst <$> ref_of p = Some b) then 1 else 0.

Lemma refs_cons b x thr : refs b (x :: thr) = refb b x.2 + refs b thr.
Proof. unfold refs, refb. cbn [List.filter]. destruct (bool_decide _); cbn [length]; lia. Qed.

Lemma refs_insert b thr t pid p pid' p' : thr !! t = Some (pid, p) ->
  refs b (<[t := (pid', p')]> thr) = refs b thr - refb b p + refb b p'.
Proof.
  revert t. induction thr as [|x thr IH]; intros [|t] Ht; [done|done| |].
  - injection Ht as ->. change (<[0%nat := (pid', p')]> ((pid, p) :: thr)) with ((pid', p') :: thr). rewrite !refs_cons. cbn [snd]. lia.
  - change (<[S t := (pid', p')]> (x :: thr)) with (x :: <[t := (pid', p')]> thr). rewrite !refs_cons, (IH t Ht). lia.
Qed.

Lemma refs_pos b thr t pid p k : thr !! t = Some (pid, p) -> ref_of p = Some (b, k) -> 0 < refs b thr.
Proof.
  intros Ht Hp. unfold refs. enough (Hin : (pid, p) ∈ List.filter (fun t => bool_decide (fst <$> ref_of t.2 = Some b)) thr).
  { destruct (List.filter _ thr); [by apply elem_of_nil in Hin|cbn; lia]. }
  rewrite list_elem_of_In, filter_In, <- list_elem_of_In. split; [by eapply list_elem_of_lookup_2|].
  apply bool_decide_eq_true. cbn [snd]. by rewrite Hp.
Qed.

Lemma refs_max b thr : 0 <= refs b thr <= Z.of_nat (length thr).
Proof. unfold refs. pose proof (List.filter_length_le (fun t => bool_decide (fst <$> ref_of t.2 = Some b)) thr). lia. Qed.

Lemma refs_zero b thr t pid p k : refs b thr = 0 -> thr !! t = Some (pid, p) -> ref_of p = Some (b, k) -> False.
Proof. intros Hz Ht Hp. pose proof (refs_pos b thr t pid p k Ht Hp). lia. Qed.

(** ** The invariant *)

Definition bkey (x : buf) : key := (bdev x, bblockno x).
Definition flags_ok (f : Z) : Prop := f = 0 \/ f = B_VALID \/ f = Z.lor B_VALID B_DIRTY.
Definition changing (b : nat) (thr : list (Z * bpc)) : Prop := exists t pid k, thr !! t = Some (pid, BHave b k true).

(** A buffer, the threads, what the disk has and what the blocks contain. *)
Record buf_ok (thr : list (Z * bpc)) (q : list nat) (disk : Z -> Z -> option block) (v : gmap key block) (b : nat) (x : buf) : Prop := {
  bo_flags : flags_ok (bflags x);
  bo_refs : brefcnt x = refs b thr;
  bo_len : length (bdata x) = 512%nat;
  bo_free : sl_locked (bsleep x) = 0 -> forall t pid p, thr !! t = Some (pid, p) -> lock_of p <> Some b;
  bo_held : sl_locked (bsleep x) <> 0 -> exists t p, thr !! t = Some (sl_pid (bsleep x), p) /\ lock_of p = Some b;
  bo_one : forall t t' pid pid' p p', thr !! t = Some (pid, p) -> thr !! t' = Some (pid', p') ->
    lock_of p = Some b -> lock_of p' = Some b -> t = t';
  bo_data : bflags x <> 0 -> v !! bkey x = Some (bdata x);
  bo_clean : bflags x <> Z.lor B_VALID B_DIRTY -> ~ changing b thr -> bdev x <> 0 -> v !! bkey x = disk (bdev x) (bblockno x);
  bo_queue : b ∈ q -> bflags x <> B_VALID /\ exists t pid k, thr !! t = Some (pid, BDisk b k)
}.

(** A thread and the buffer it refers to. *)
Definition thr_ok (bs : list buf) (q : list nat) (disk : Z -> Z -> option block) (p : bpc) : Prop :=
  match ref_of p with
  | None => True
  | Some (b, k) => (b < NBUF)%nat /\ k.1 <> 0 /\ is_Some (disk k.1 k.2) /\
      exists x, bs !! b = Some x /\ bkey x = k /\
        match p with
        | BDisk _ _ => bflags x = B_VALID \/ b ∈ q
        | BHave _ _ _ => bflags x <> 0
        | _ => True
        end
  end.

Record binv (y : bsys D) : Prop := {
  bi_lru : exists l, lru (bufs (b_io y)) l;
  bi_drv : drv_ok (b_io y);
  bi_thr : forall t pid p, b_thr y !! t = Some (pid, p) ->
    thr_ok (bufs (b_io y)) (queue (drv (b_io y))) (platter (drv (b_io y))) p;
  bi_buf : forall b x, (b < NBUF)%nat -> bufs (b_io y) !! b = Some x ->
    buf_ok (b_thr y) (queue (drv (b_io y))) (platter (drv (b_io y))) (b_view y) b x;
  bi_uniq : forall b b' x x', (b < NBUF)%nat -> (b' < NBUF)%nat -> bufs (b_io y) !! b = Some x ->
    bufs (b_io y) !! b' = Some x' -> bdev x <> 0 -> bkey x = bkey x' -> b = b';
  bi_uncached : forall k, k.1 <> 0 -> (forall b x, (b < NBUF)%nat -> bufs (b_io y) !! b = Some x -> bkey x <> k) ->
    b_view y !! k = platter (drv (b_io y)) k.1 k.2;
  bi_few : Z.of_nat (length (b_thr y)) < 2 ^ 32;
  bi_len : forall dev no v, platter (drv (b_io y)) dev no = Some v -> length v = 512%nat;
  bi_queue : NoDup (queue (drv (b_io y))) /\ forall b, b ∈ queue (drv (b_io y)) -> (b < NBUF)%nat
}.

Lemma thr_insert (thr : list (Z * bpc)) (t t' : nat) (pid pid' : Z) (p p' q : bpc) : thr !! t = Some (pid, p) ->
  <[t := (pid, p')]> thr !! t' = Some (pid', q) ->
  (t' = t /\ pid' = pid /\ q = p') \/ (t' <> t /\ thr !! t' = Some (pid', q)).
Proof.
  intros Ht H'. destruct (decide (t = t')) as [<-|Hne].
  - rewrite list_lookup_insert_eq in H' by (by eapply lookup_lt_Some). injection H' as <- <-. by left.
  - rewrite list_lookup_insert_ne in H' by done. right. by split.
Qed.

Lemma thr_insert_eq (thr : list (Z * bpc)) (t : nat) (pid : Z) (p p' : bpc) : thr !! t = Some (pid, p) -> <[t := (pid, p')]> thr !! t = Some (pid, p').
Proof. intros Ht. apply list_lookup_insert_eq. by eapply lookup_lt_Some. Qed.

Lemma thr_insert_ne (thr : list (Z * bpc)) (t t' : nat) (pid : Z) (p' : bpc) : t <> t' -> <[t := (pid, p')]> thr !! t' = thr !! t'.
Proof. intros. by apply list_lookup_insert_ne. Qed.

Definition changes (p : bpc) (c : nat) : Prop := exists k, p = BHave c k true.
Definition disking (p : bpc) (c : nat) : Prop := exists k, p = BDisk c k.

Lemma changing_insert (thr : list (Z * bpc)) (t : nat) pid p p' c : thr !! t = Some (pid, p) ->
  (changes p c <-> changes p' c) -> changing c (<[t := (pid, p')]> thr) <-> changing c thr.
Proof.
  intros Ht Hch. split; intros (t' & q & k & H').
  - destruct (thr_insert _ _ _ _ _ _ _ _ Ht H') as [(-> & -> & E)|(_ & ?)]; [|by exists t', q, k].
    destruct (proj2 Hch) as [k' ->]; [by exists k|]. by exists t, pid, k'.
  - destruct (decide (t' = t)) as [->|Hne]; [|exists t', q, k; by rewrite thr_insert_ne].
    rewrite Ht in H'. injection H' as -> ->. destruct (proj1 Hch) as [k' ->]; [by exists k|].
    exists t, q, k'. by eapply thr_insert_eq.
Qed.

(** A step of thread [t] that leaves the flags, the data and the lock of the
    buffer [c] alone. *)
Lemma buf_ok_step thr t pid p p' q q' disk disk' v v' c x x' :
  thr !! t = Some (pid, p) -> buf_ok thr q disk v c x ->
  bflags x' = bflags x -> bkey x' = bkey x -> bdata x' = bdata x -> bsleep x' = bsleep x ->
  brefcnt x' = brefcnt x - refb c p + refb c p' ->
  (lock_of p = Some c <-> lock_of p' = Some c) -> (changes p c <-> changes p' c) ->
  (c ∈ q' -> c ∈ q) -> (disking p c -> disking p' c \/ c ∉ q') ->
  v' !! bkey x = v !! bkey x -> (bdev x <> 0 -> disk' (bdev x) (bblockno x) = disk (bdev x) (bblockno x)) ->
  buf_ok (<[t := (pid, p')]> thr) q' disk' v' c x'.
Proof.
  intros Ht [H1 H2 H3 H4 H5 H6 H7 H8 H9] Ef Ek Ed Es Er Hl Hc Hq Hd Hv Hdisk.
  assert (Ekk : bdev x' = bdev x /\ bblockno x' = bblockno x) by (unfold bkey in Ek; by injection Ek). destruct Ekk as [Ekd Ekb].
  split; rewrite ?Ef, ?Ed, ?Es, ?Ek, ?Ekd, ?Ekb.
  - done.
  - rewrite Er, H2. symmetry. by eapply refs_insert.
  - done.
  - intros Hlk t' pid' r Hr. destruct (thr_insert _ _ _ _ _ _ _ _ Ht Hr) as [(-> & -> & ->)|(_ & Hr')]; [|by eapply H4].
    rewrite <- Hl. by eapply H4.
  - intros Hlk. destruct (H5 Hlk) as (t' & r & Hr & Hrl). destruct (decide (t' = t)) as [->|Hne].
    + rewrite Ht in Hr. injection Hr as -> ->. exists t, p'. split; [by eapply thr_insert_eq|by apply Hl].
    + exists t', r. by rewrite thr_insert_ne.
  - assert (Hback : forall t1 pid1 p1, <[t := (pid, p')]> thr !! t1 = Some (pid1, p1) -> lock_of p1 = Some c ->
      exists p0, thr !! t1 = Some (pid1, p0) /\ lock_of p0 = Some c).
    { intros t1 pid1 p1 H' Hp1. destruct (thr_insert _ _ _ _ _ _ _ _ Ht H') as [(-> & -> & ->)|(_ & ?)]; [|eauto].
      exists p. split; [done|by apply Hl]. }
    intros t1 t2 pid1 pid2 p1 p2 E1 E2 L1 L2. destruct (Hback _ _ _ E1 L1) as (r1 & F1 & M1), (Hback _ _ _ E2 L2) as (r2 & F2 & M2).
    by eapply H6.
  - intros Hf. by rewrite Hv, H7.
  - intros Hf Hch Hdv. rewrite Hv, (Hdisk Hdv). apply H8; [done| |done]. intros Hc'. apply Hch. by apply (changing_insert _ _ _ _ _ _ Ht Hc).
  - intros Hin. destruct (H9 (Hq Hin)) as [Hnv (t' & r & k & Hr)]. split; [done|]. destruct (decide (t' = t)) as [->|Hne].
    + rewrite Ht in Hr. injection Hr as -> ->. destruct Hd as [[k' ->]|?]; [by exists k| |done].
      exists t, r, k'. by eapply thr_insert_eq.
    + exists t', r, k. by rewrite thr_insert_ne.
Qed.

Lemma refb_other p c : (forall k, ref_of p <> Some (c, k)) -> refb c p = 0.
Proof.
  intros Hn. unfold refb. rewrite bool_decide_eq_false_2; [done|]. destruct (ref_of p) as [[b k]|] eqn:E; [|done].
  cbn. intros [= ->]. by apply (Hn k).
Qed.

Lemma refb_self p c k : ref_of p = Some (c, k) -> refb c p = 1.
Proof. intros E. unfold refb. by rewrite bool_decide_eq_true_2 by (by rewrite E). Qed.

(** A step of a thread that has nothing to do with buffer [c]. *)
Lemma buf_ok_other thr t pid p p' q q' disk disk' v v' c x x' :
  thr !! t = Some (pid, p) -> buf_ok thr q disk v c x -> core x' = core x ->
  (forall k, ref_of p <> Some (c, k)) -> (forall k, ref_of p' <> Some (c, k)) -> (c ∈ q' -> c ∈ q) ->
  v' !! bkey x = v !! bkey x -> (bdev x <> 0 -> disk' (bdev x) (bblockno x) = disk (bdev x) (bblockno x)) ->
  buf_ok (<[t := (pid, p')]> thr) q' disk' v' c x'.
Proof.
  intros Ht Hok Hc Hp Hp' Hq Hv Hd. unfold core in Hc. destruct x, x'. unfold setf in Hc. cbn in Hc. injection Hc as -> -> -> -> -> ->.
  assert (Hnl : forall r, (forall k, ref_of r <> Some (c, k)) -> lock_of r <> Some c /\ ~ changes r c /\ ~ disking r c).
  { intros r Hr. split_and!; [destruct r; cbn in *; try done; intros [= ->]; by eapply Hr| |];
      intros [k ->]; by apply (Hr k). }
  destruct (Hnl p Hp) as (? & ? & ?), (Hnl p' Hp') as (? & ? & ?).
  eapply buf_ok_step; try exact Hok; try done; cbn; rewrite ?refb_other by done; tauto || lia.
Qed.

(** Threads whose buffers keep their keys and flags. *)
Lemma thr_ok_mono bs bs' q q' disk disk' p : thr_ok bs q disk p ->
  (forall k, is_Some (disk k.1 k.2) -> is_Some (disk' k.1 k.2)) ->
  (forall b k x, ref_of p = Some (b, k) -> bs !! b = Some x -> exists x', bs' !! b = Some x' /\ bkey x' = bkey x /\
     (lock_of p = Some b -> (bflags x' = bflags x /\ (b ∈ q -> b ∈ q')) \/ bflags x' = B_VALID)) ->
  thr_ok bs' q' disk' p.
Proof.
  unfold thr_ok. intros Ht Hd Hb. destruct (ref_of p) as [[b k]|] eqn:E; [|done].
  destruct Ht as (Hlt & Hk & Hs & x & Hx & Hkx & Hp). split_and!; [done|done|by apply Hd|].
  destruct (Hb b k x eq_refl Hx) as (x' & Hx' & Hkx' & Hl). exists x'. split_and!; [done|congruence|].
  destruct p; try done; cbn in E; injection E as -> ->; cbn in Hl; destruct (Hl eq_refl) as [[-> Hq]| ->]; try done; try tauto.
Qed.

Lemma core_key x x' : core x' = core x -> bkey x' = bkey x /\ bflags x' = bflags x /\ bdev x' = bdev x.
Proof. destruct x, x'. unfold core, setf, bkey. cbn. by intros [= -> -> -> -> -> ->]. Qed.

Lemma core_Some (bs bs' : list buf) (c : nat) (x' : buf) : core <$> bs' !! c = core <$> bs !! c -> bs' !! c = Some x' ->
  exists x : buf, bs !! c = Some x /\ core x' = core x.
Proof. intros Hc Hx. rewrite Hx in Hc. destruct (bs !! c) as [x|]; [|done]. apply (inj Some) in Hc. eauto. Qed.

(** A step of thread [t] on buffer [b], whose key stays. *)
Lemma binv_step io thr v t pid p p' io' v' b x x' :
  binv (BSys io thr v) -> thr !! t = Some (pid, p) ->
  (exists l, lru (bufs io') l) -> drv_ok io' ->
  (forall c, c <> b -> core <$> bufs io' !! c = core <$> bufs io !! c) ->
  (forall c k, ref_of p = Some (c, k) \/ ref_of p' = Some (c, k) -> c = b) ->
  (forall c, c <> b -> c ∈ queue (drv io') <-> c ∈ queue (drv io)) -> NoDup (queue (drv io')) ->
  (b < NBUF)%nat -> bufs io !! b = Some x -> bufs io' !! b = Some x' -> bkey x' = bkey x -> bdev x <> 0 ->
  (forall k, k <> bkey x -> v' !! k = v !! k) ->
  (forall dev no, (dev, no) <> bkey x -> platter (drv io') dev no = platter (drv io) dev no) ->
  (forall d, platter (drv io') (bdev x) (bblockno x) = Some d -> length d = 512%nat) ->
  (is_Some (platter (drv io) (bdev x) (bblockno x)) -> is_Some (platter (drv io') (bdev x) (bblockno x))) ->
  buf_ok (<[t := (pid, p')]> thr) (queue (drv io')) (platter (drv io')) v' b x' ->
  thr_ok (bufs io') (queue (drv io')) (platter (drv io')) p' ->
  (forall t' pid' r, t' <> t -> thr !! t' = Some (pid', r) -> lock_of r = Some b ->
     (bflags x' = bflags x /\ (b ∈ queue (drv io) -> b ∈ queue (drv io'))) \/ bflags x' = B_VALID) ->
  binv (BSys io' (<[t := (pid, p')]> thr) v').
Proof.
  intros [I1 I2 I3 I4 I5 I6 I7 I8 I9] Ht Hlru Hdrv Hcore Href Hq Hqn Hb Hx Hx' Hkx Hdev Hv Hpl Hpllen Hplsome Hbok Htok Hoth.
  cbn [b_io b_thr b_view] in *.
  assert (Hback : forall c y', (c < NBUF)%nat -> bufs io' !! c = Some y' -> exists y, bufs io !! c = Some y /\ bkey y' = bkey y /\ bdev y' = bdev y).
  { intros c y' Hc Hy'. destruct (decide (c = b)) as [->|Hne].
    - rewrite Hx' in Hy'. injection Hy' as <-. exists x. split_and!; [done|done|]. unfold bkey in Hkx. by injection Hkx.
    - destruct (core_Some _ _ _ _ (Hcore c Hne) Hy') as (y & Hy & E). exists y. destruct (core_key _ _ E) as (? & _ & ?). done. }
  assert (Hdom : forall k : key, is_Some (platter (drv io) k.1 k.2) -> is_Some (platter (drv io') k.1 k.2)).
  { intros [d n] Hs. cbn in *. destruct (decide ((d, n) = bkey x)) as [E|E]; [|by rewrite Hpl].
    unfold bkey in E. injection E as -> ->. by apply Hplsome. }
  split; cbn [b_io b_thr b_view]; [done|done| | | | | | |].
  - intros t' pid' r Hr. destruct (thr_insert _ _ _ _ _ _ _ _ Ht Hr) as [(-> & -> & ->)|(Hne & Hr')]; [done|].
    eapply thr_ok_mono; [by eapply I3|exact Hdom|]. intros c k y _ Hy. destruct (decide (c = b)) as [->|Hcb].
    + rewrite Hx in Hy. injection Hy as <-. exists x'. split_and!; [done|done|]. intros Hl. by eapply Hoth.
    + pose proof (Hcore c Hcb) as Hc. rewrite Hy in Hc. destruct (bufs io' !! c) as [y'|] eqn:E; [|done]. apply (inj Some) in Hc.
      destruct (core_key _ _ Hc) as (? & ? & _). exists y'. split_and!; [done|done|]. intros _. left. split; [done|]. by apply Hq.
  - intros c y' Hc Hy'. destruct (decide (c = b)) as [->|Hne]; [rewrite Hx' in Hy'; by injection Hy' as <-|].
    destruct (core_Some _ _ _ _ (Hcore c Hne) Hy') as (y & Hy & E).
    assert (Hky : bkey y <> bkey x).
    { intros Hk. apply Hne. symmetry. by eapply I5. }
    eapply (buf_ok_other thr t pid p p'); [done|by apply I4|done| | |apply Hq, Hne|by apply Hv|intros _; by apply Hpl].
    + intros k Hk. apply Hne. by eapply Href; left.
    + intros k Hk. apply Hne. by eapply Href; right.
  - intros c c' y y' Hc Hc' Hy Hy' Hd Hk. destruct (Hback c y Hc Hy) as (z & Hz & E1 & E2), (Hback c' y' Hc' Hy') as (z' & Hz' & E1' & _).
    eapply (I5 c c' z z'); [done..|congruence|congruence].
  - intros k Hk Hno. assert (Hnx : k <> bkey x) by (intros ->; by eapply Hno; [exact Hb|exact Hx'|]).
    rewrite Hv by done. destruct k as [d n]. cbn [fst snd] in *. rewrite Hpl by done. apply (I6 (d, n)); [done|].
    intros c y Hc Hy. destruct (decide (c = b)) as [->|Hne]; [rewrite Hx in Hy; injection Hy as <-; congruence|].
    pose proof (Hcore c Hne) as E. rewrite Hy in E. destruct (bufs io' !! c) as [y'|] eqn:E'; [|done]. apply (inj Some) in E.
    destruct (core_key _ _ E) as (<- & _ & _). by eapply Hno.
  - by rewrite length_insert.
  - intros d n w Hw. destruct (decide ((d, n) = bkey x)) as [E|E].
    + unfold bkey in E. injection E as -> ->. by apply Hpllen.
    + rewrite Hpl in Hw by done. by eapply I8.
  - split; [done|]. intros c Hc. destruct (decide (c = b)) as [->|Hne]; [done|]. by apply I9, Hq.
Qed.

(** What a thread knows of the buffer it refers to. *)
Lemma thread_buf io thr v t pid p b k : binv (BSys io thr v) -> thr !! t = Some (pid, p) -> ref_of p = Some (b, k) ->
  exists x, (b < NBUF)%nat /\ bufs io !! b = Some x /\ bkey x = k /\ bdev x <> 0 /\
    is_Some (platter (drv io) (bdev x) (bblockno x)) /\ length (bdata x) = 512%nat /\
    buf_ok thr (queue (drv io)) (platter (drv io)) v b x.
Proof.
  intros [I1 I2 I3 I4 I5 I6 I7 I8 I9] Ht Hp. cbn in *. pose proof (I3 _ _ _ Ht) as Hok. unfold thr_ok in Hok. rewrite Hp in Hok.
  destruct Hok as (Hb & Hk & Hs & x & Hx & Hkx & _). exists x. rewrite <- Hkx in Hk, Hs. cbn in Hk, Hs.
  pose proof (I4 b x Hb Hx) as Hbo. split_and!; try done. by apply Hbo.
Qed.

Lemma thread_holds thr q disk v t pid p b x : buf_ok thr q disk v b x -> thr !! t = Some (pid, p) -> lock_of p = Some b ->
  sl_locked (bsleep x) <> 0 /\ sl_pid (bsleep x) = pid.
Proof.
  intros Hbo Ht Hl. assert (Hlk : sl_locked (bsleep x) <> 0).
  { intros E. by apply (bo_free _ _ _ _ _ _ Hbo E _ _ _ Ht). }
  split; [done|]. destruct (bo_held _ _ _ _ _ _ Hbo Hlk) as (t' & p' & Ht' & Hl').
  pose proof (bo_one _ _ _ _ _ _ Hbo _ _ _ _ _ _ Ht Ht' Hl Hl') as <-. congruence.
Qed.

Lemma insert_self (thr : list (Z * bpc)) (t : nat) (pid : Z) (p : bpc) : thr !! t = Some (pid, p) -> <[t := (pid, p)]> thr = thr.
Proof. apply list_insert_id. Qed.

Lemma alter_eq (bs : list buf) (f : buf -> buf) (b : nat) x : bs !! b = Some x -> alter f b bs !! b = Some (f x).
Proof. intros Hx. by rewrite list_lookup_alter_eq, Hx. Qed.

Lemma alter_core_ne (bs : list buf) (f : buf -> buf) (b c : nat) : c <> b -> core <$> alter f b bs !! c = core <$> bs !! c.
Proof. intros Hne. by rewrite list_lookup_alter_ne. Qed.

(** The driver does not mind changes to buffers that it is not working on. *)
Lemma frame_alter io b f : drv_ok io -> b ∉ queue (drv io) -> drv_ok (io <| bufs ::= alter f b |>).
Proof.
  intros Hd Hq. eapply law_frame; [exact Hd|done|]. intros c x Hc Hx. exists x. split; [|done]. cbn.
  rewrite list_lookup_alter_ne; [done|]. intros <-. done.
Qed.

Lemma frame_alter_io io b f : drv_ok io -> (forall x, io_part (f x) = io_part x) -> drv_ok (io <| bufs ::= alter f b |>).
Proof.
  intros Hd Hf. eapply law_frame; [exact Hd|done|]. intros c x Hc Hx. cbn. rewrite alter_lookup.
  destruct (decide (c = b)); [|eauto]. rewrite Hx. eexists. split; [reflexivity|]. apply Hf.
Qed.

(** A step that changes one buffer and not the driver. *)
Lemma binv_buf io thr v t pid p p' v' b x f :
  binv (BSys io thr v) -> thr !! t = Some (pid, p) -> ref_of p = Some (b, bkey x) -> ref_of p' = Some (b, bkey x) \/ ref_of p' = None ->
  bufs io !! b = Some x -> (forall y, bnext (f y) = bnext y /\ bprev (f y) = bprev y) -> bkey (f x) = bkey x ->
  drv_ok (io <| bufs ::= alter f b |>) ->
  (forall k, k <> bkey x -> v' !! k = v !! k) ->
  buf_ok (<[t := (pid, p')]> thr) (queue (drv io)) (platter (drv io)) v' b (f x) ->
  thr_ok (alter f b (bufs io)) (queue (drv io)) (platter (drv io)) p' ->
  lock_of p = Some b \/ bflags (f x) = bflags x ->
  binv (BSys (io <| bufs ::= alter f b |>) (<[t := (pid, p')]> thr) v').
Proof.
  intros Hi Ht Hp Hp' Hx Hf Hk Hd Hv Hb Htok Hl.
  destruct (thread_buf _ _ _ _ _ _ _ _ Hi Ht Hp) as (y & Hlt & Hy & _ & Hdev & _ & _ & Hbo). rewrite Hx in Hy. injection Hy as <-.
  eapply (binv_step io thr v t pid p p' _ v' b x (f x)); try done.
  - destruct (bi_lru _ Hi) as [l Hl']. exists l. by apply lru_alter.
  - intros c Hc. by apply alter_core_ne.
  - intros c k Hc. destruct Hp' as [Hp'|Hp']; rewrite Hp, Hp' in Hc; naive_solver.
  - by destruct (bi_queue _ Hi).
  - by apply alter_eq.
  - intros d. apply (bi_len _ Hi).
  - intros t' pid' r Hne Hr Hlr. destruct Hl as [Hl| ->]; [|by left].
    exfalso. apply Hne. by eapply (bo_one _ _ _ _ _ _ Hbo).
Qed.

Lemma step_lock io thr v t pid b k io' :
  binv (BSys io thr v) -> thr !! t = Some (pid, BWait b k) -> on_lock b (acquiresleep pid) io = Ret true io' ->
  binv (BSys io' (<[t := (pid, BLocked b k)]> thr) v).
Proof.
  intros Hi Ht Hr. destruct (thread_buf _ _ _ _ _ _ _ _ Hi Ht eq_refl) as (x & Hb & Hx & <- & Hdev & Hs & Hlen & Hbo).
  destruct (acquiresleep pid (bsleep x)) as [r l| | |] eqn:Ea; rewrite acquiresleep_cases in Ea; [|by destruct (sl_locked (bsleep x) =? 0)..].
  pose proof Hr as Hr'. erewrite on_lock_ok in Hr'; [|done|by rewrite acquiresleep_cases]. injection Hr' as -> <-.
  destruct (Z.eqb_spec (sl_locked (bsleep x)) 0) as [E|]; [|done]. injection Ea as <-.
  eapply binv_buf; try done; [by left|by apply frame_alter_io; [apply Hi|]| | |by right].
  - destruct Hbo as [H1 H2 H3 H4 H5 H6 H7 H8 H9]. split; try done.
    + cbn. rewrite H2. erewrite (refs_insert b thr t); [|done]. rewrite !(refb_self _ b (bkey x)) by done. lia.
    + intros _. exists t, (BLocked b (bkey x)). split; [by eapply thr_insert_eq|done].
    + assert (Hno : forall t1 pid1 p1, <[t := (pid, BLocked b (bkey x))]> thr !! t1 = Some (pid1, p1) -> lock_of p1 = Some b -> t1 = t).
      { intros t1 pid1 p1 E1 L1. destruct (thr_insert _ _ _ _ _ _ _ _ Ht E1) as [(-> & _)|(_ & F)]; [done|]. by apply (H4 E) in F. }
      intros t1 t2 pid1 pid2 p1 p2 E1 E2 L1 L2. by rewrite (Hno _ _ _ E1 L1), (Hno _ _ _ E2 L2).
    + intros Hf Hc Hd. apply H8; [done| |done]. intros Hc'. apply Hc. apply (changing_insert _ _ _ _ _ _ Ht); [|done].
      split; intros [? ?]; done.
    + intros Hq. destruct (H9 Hq) as (_ & t' & pid' & k' & Ht'). exfalso. by apply (H4 E _ _ _ Ht').
  - unfold thr_ok. cbn [ref_of]. split_and!; [done|done|done|]. eexists. split; [by apply alter_eq|]. done.
Qed.

(** The holder of a buffer goes on holding it. *)
Lemma buf_ok_hold thr t pid p p' q q' disk disk' v v' b k x x' :
  thr !! t = Some (pid, p) -> buf_ok thr q disk v b x ->
  lock_of p = Some b -> lock_of p' = Some b -> ref_of p = Some (b, k) -> ref_of p' = Some (b, k) ->
  brefcnt x' = brefcnt x -> bsleep x' = bsleep x ->
  flags_ok (bflags x') -> length (bdata x') = 512%nat ->
  (bflags x' <> 0 -> v' !! bkey x' = Some (bdata x')) ->
  (bflags x' <> Z.lor B_VALID B_DIRTY -> ~ changes p' b -> bdev x' <> 0 -> v' !! bkey x' = disk' (bdev x') (bblockno x')) ->
  (b ∈ q' -> bflags x' <> B_VALID /\ disking p' b) ->
  buf_ok (<[t := (pid, p')]> thr) q' disk' v' b x'.
Proof.
  intros Ht Hbo Hl Hl' Hr Hr' Erc Es Hf Hlen Hd Hc Hq. destruct (thread_holds _ _ _ _ _ _ _ _ _ Hbo Ht Hl) as [Hlk Hpid].
  split; try done.
  - rewrite Erc, (bo_refs _ _ _ _ _ _ Hbo). erewrite (refs_insert b thr t); [|done]. rewrite !(refb_self _ b k) by done. lia.
  - rewrite Es. done.
  - rewrite Es, Hpid. intros _. exists t, p'. split; [by eapply thr_insert_eq|done].
  - assert (Hno : forall t1 pid1 p1, <[t := (pid, p')]> thr !! t1 = Some (pid1, p1) -> lock_of p1 = Some b -> t1 = t).
    { intros t1 pid1 p1 E1 L1. destruct (thr_insert _ _ _ _ _ _ _ _ Ht E1) as [(-> & _)|(_ & F)]; [done|].
      by eapply (bo_one _ _ _ _ _ _ Hbo). }
    intros t1 t2 pid1 pid2 p1 p2 E1 E2 L1 L2. by rewrite (Hno _ _ _ E1 L1), (Hno _ _ _ E2 L2).
  - intros Hnf Hnc Hdv. apply Hc; [done| |done]. intros [k' ->]. apply Hnc. exists t, pid, k'. by eapply thr_insert_eq.
  - intros Hin. destruct (Hq Hin) as [? [k' ->]]. split; [done|]. exists t, pid, k'. by eapply thr_insert_eq.
Qed.

(** With the lock, a buffer is only in the queue if its holder waits for it. *)
Lemma holder_queue thr t pid p q disk v b x : buf_ok thr q disk v b x -> thr !! t = Some (pid, p) -> lock_of p = Some b ->
  ~ disking p b -> b ∉ q.
Proof.
  intros Hbo Ht Hl Hnd Hin. destruct (bo_queue _ _ _ _ _ _ Hbo Hin) as (_ & t' & pid' & k & Ht'). apply Hnd.
  pose proof (bo_one _ _ _ _ _ _ Hbo _ _ _ _ _ _ Ht Ht' Hl eq_refl) as <-. rewrite Ht in Ht'. injection Ht' as _ ->. by exists k.
Qed.

Lemma holder_changing thr t pid p q disk v b x : buf_ok thr q disk v b x -> thr !! t = Some (pid, p) -> lock_of p = Some b ->
  changing b thr -> changes p b.
Proof.
  intros Hbo Ht Hl (t' & pid' & k & Ht').
  pose proof (bo_one _ _ _ _ _ _ Hbo _ _ _ _ _ _ Ht Ht' Hl eq_refl) as <-. rewrite Ht in Ht'. injection Ht' as _ ->. by exists k.
Qed.

Lemma step_done io thr v t pid b k io' :
  binv (BSys io thr v) -> thr !! t = Some (pid, BDisk b k) -> iderw_done b io = Ret true io' ->
  binv (BSys io' (<[t := (pid, BHave b k false)]> thr) v).
Proof.
  intros Hi Ht Hr. destruct (thread_buf _ _ _ _ _ _ _ _ Hi Ht eq_refl) as (x & Hb & Hx & <- & Hdev & Hs & Hlen & Hbo).
  unfold iderw_done in Hr. rewrite (bind_ret _ _ _ _ _ (get_buf_ok io b x Hx)) in Hr. injection Hr as Hf <-.
  assert (Hfl : bflags x = B_VALID) by (destruct (bo_flags _ _ _ _ _ _ Hbo) as [E|[E|E]]; rewrite E in Hf; done || exact E).
  eapply (binv_step io thr v t pid (BDisk b (bkey x)) (BHave b (bkey x) false) io v b x x); try done; try apply Hi.
  - intros c k. cbn. naive_solver.
  - eapply buf_ok_hold; try done; try apply Hbo.
    + intros Hnd _ _. apply (bo_clean _ _ _ _ _ _ Hbo); [done| |done]. intros Hc.
      destruct (holder_changing _ _ _ _ _ _ _ _ _ Hbo Ht eq_refl Hc) as [? ?]. done.
    + intros Hin. by destruct (bo_queue _ _ _ _ _ _ Hbo Hin).
  - unfold thr_ok. cbn [ref_of]. split_and!; [done|done|done|]. exists x. by rewrite Hfl.
  - intros. by left.
Qed.

Lemma step_change io thr v t pid b k m data io' :
  binv (BSys io thr v) -> thr !! t = Some (pid, BHave b k m) -> length data = 512%nat ->
  upd_buf b (fun x => x <| bdata := data |>) io = Ret tt io' ->
  binv (BSys io' (<[t := (pid, BHave b k true)]> thr) (<[k := data]> v)).
Proof.
  intros Hi Ht Hlen Hr. destruct (thread_buf _ _ _ _ _ _ _ _ Hi Ht eq_refl) as (x & Hb & Hx & <- & Hdev & Hs & _ & Hbo).
  rewrite (upd_buf_ok io b x _ Hx) in Hr. injection Hr as <-.
  assert (Hq : b ∉ queue (drv io)) by (eapply (holder_queue thr t); try done; intros [? ?]; done).
  pose proof (bi_thr _ Hi _ _ _ Ht) as Htok. unfold thr_ok in Htok. cbn [ref_of] in Htok.
  destruct Htok as (_ & _ & _ & x0 & Hx0 & _ & Hf0). cbn in Hx0. rewrite Hx in Hx0. injection Hx0 as <-.
  eapply binv_buf; try done; [by left|by apply frame_alter; [apply Hi|]|intros k' Hk'; by apply lookup_insert_ne| | |by left].
  - eapply buf_ok_hold; try done; cbn; [apply Hbo|intros _; apply lookup_insert_eq|].
    intros _ Hnc. exfalso. apply Hnc. by eexists.
  - unfold thr_ok. cbn [ref_of]. split_and!; [done|done|done|]. eexists. split; [by apply alter_eq|]. done.
Qed.

Lemma step_pin io thr v t pid b k m io' :
  binv (BSys io thr v) -> thr !! t = Some (pid, BHave b k m) ->
  upd_buf b (fun x => x <| bflags ::= fun f => Z.lor f B_DIRTY |>) io = Ret tt io' ->
  binv (BSys io' (<[t := (pid, BHave b k false)]> thr) v) /\
  exists x, bufs io' !! b = Some x /\ bflags x = Z.lor B_VALID B_DIRTY.
Proof.
  intros Hi Ht Hr. destruct (thread_buf _ _ _ _ _ _ _ _ Hi Ht eq_refl) as (x & Hb & Hx & <- & Hdev & Hs & Hlen & Hbo).
  rewrite (upd_buf_ok io b x _ Hx) in Hr. injection Hr as <-.
  assert (Hq : b ∉ queue (drv io)) by (eapply (holder_queue thr t); try done; intros [? ?]; done).
  pose proof (bi_thr _ Hi _ _ _ Ht) as Htok. unfold thr_ok in Htok. cbn [ref_of] in Htok.
  destruct Htok as (_ & _ & _ & x0 & Hx0 & _ & Hf0). cbn in Hx0. rewrite Hx in Hx0. injection Hx0 as <-.
  assert (Hfl : Z.lor (bflags x) B_DIRTY = Z.lor B_VALID B_DIRTY)
    by (destruct (bo_flags _ _ _ _ _ _ Hbo) as [E|[E|E]]; rewrite E in *; done).
  split; [|eexists; split; [by apply alter_eq|exact Hfl]].
  eapply binv_buf; try done; [by left|by apply frame_alter; [apply Hi|]| | |by left].
  - eapply buf_ok_hold; try done; cbn; [right; by right|intros _; by apply (bo_data _ _ _ _ _ _ Hbo)].
  - unfold thr_ok. cbn [ref_of]. split_and!; [done|done|done|]. eexists. split; [by apply alter_eq|]. split; [done|]. cbn. by rewrite Hfl.
Qed.

Lemma served_fields x d : flags_ok (bflags x) -> bflags x <> B_VALID ->
  bflags (served x d) = B_VALID /\ bkey (served x d) = bkey x /\ bsleep (served x d) = bsleep x /\
  brefcnt (served x d) = brefcnt x /\ bdata (served x d) = (if dirtyb x then bdata x else default [] d) /\
  bnext (served x d) = bnext x /\ bprev (served x d) = bprev x.
Proof. intros [E|[E|E]] Hnv; [| |]; unfold served; cbn; rewrite E; [|done|]; by split_and!. Qed.

(** The completion of the request of a buffer that its holder waits for, or is
    about to wait for. *)
Lemma step_finished io thr v t pid p p' b k x io' :
  binv (BSys io thr v) -> thr !! t = Some (pid, p) -> lock_of p = Some b -> ref_of p = Some (b, k) -> p' = BDisk b k ->
  bufs io !! b = Some x -> bflags x <> B_VALID -> ~ changes p b -> (bflags x = 0 \/ bflags x = Z.lor B_VALID B_DIRTY) ->
  finished b io io' -> drv_ok io' -> b ∉ queue (drv io') -> NoDup (queue (drv io')) -> (forall c, c <> b -> c ∈ queue (drv io') <-> c ∈ queue (drv io)) ->
  binv (BSys io' (<[t := (pid, p')]> thr) v).
Proof.
  intros Hi Ht Hl Hp -> Hx Hnv Hnc Hf (x1 & Hx1 & Hbufs & Hpl) Hd Hq Hqn Hqo. rewrite Hx in Hx1. injection Hx1 as <-.
  destruct (thread_buf _ _ _ _ _ _ _ _ Hi Ht Hp) as (x1 & Hb & Hx1 & <- & Hdev & Hs & Hlen & Hbo).
  rewrite Hx in Hx1. injection Hx1 as <-. set (x' := served x _) in Hbufs.
  destruct (served_fields x (platter (drv io) (bdev x) (bblockno x)) (bo_flags _ _ _ _ _ _ Hbo) Hnv) as (F1 & F2 & F3 & F4 & F5 & F6 & F7).
  fold x' in F1, F2, F3, F4, F5, F6, F7.
  assert (Hx' : bufs io' !! b = Some x') by (rewrite Hbufs; apply list_lookup_insert_eq; by eapply lookup_lt_Some).
  assert (Hplk : platter (drv io') (bdev x) (bblockno x) = v !! bkey x /\ v !! bkey x = Some (bdata x')).
  { rewrite Hpl, !Z.eqb_refl. cbn [andb]. unfold dirtyb in *. destruct Hf as [Hf|Hf]; rewrite Hf in *.
    - change (negb (Z.land 0 B_DIRTY =? 0)) with false in *. cbn [andb].
      assert (Hc : v !! bkey x = platter (drv io) (bdev x) (bblockno x)).
      { apply (bo_clean _ _ _ _ _ _ Hbo); [by rewrite Hf| |done]. intros Hc. by eapply Hnc, (holder_changing thr t). }
      rewrite Hc. split; [done|]. rewrite F5. destruct Hs as [w ->]. done.
    - change (negb (Z.land (Z.lor B_VALID B_DIRTY) B_DIRTY =? 0)) with true in *. cbn [andb]. rewrite F5.
      rewrite (bo_data _ _ _ _ _ _ Hbo) by (by rewrite Hf). done. }
  destruct Hplk as [Hplk Hvk].
  assert (Hlen' : length (bdata x') = 512%nat).
  { rewrite F5. destruct (dirtyb x); [done|]. destruct Hs as [w Hw]. rewrite Hw. cbn. by eapply (bi_len _ Hi). }
  assert (F2' : bdev x' = bdev x /\ bblockno x' = bblockno x) by done. destruct F2' as [Fd Fb].
  eapply (binv_step io thr v t pid p (BDisk b (bkey x)) io' v b x x'); try done.
  - destruct (bi_lru _ Hi) as [l Hlru]. exists l. cbn in Hlru. rewrite Hbufs, <- (list_alter_insert (fun _ => x') _ _ x Hx).
    destruct Hlru as [[L1 L2] L3 L4]. split; [split|done|by rewrite length_alter].
    + eapply chain_ext_all, L1. intros a. rewrite nextp_alter. unfold nextp. destruct (decide (a = b)) as [->|]; [|done]. by rewrite Hx.
    + eapply chain_ext_all, L2. intros a. rewrite prevp_alter. unfold prevp. destruct (decide (a = b)) as [->|]; [|done]. by rewrite Hx.
  - intros c Hc. by rewrite Hbufs, list_lookup_insert_ne.
  - intros c k. cbn. rewrite Hp. naive_solver.
  - intros dev no Hne. rewrite Hpl. destruct (Z.eqb_spec dev (bdev x)) as [->|], (Z.eqb_spec no (bblockno x)) as [->|];
      rewrite ?andb_false_r, ?andb_true_r; try done. all: by destruct (dirtyb x).
  - intros d. rewrite Hplk, Hvk. by intros [= <-].
  - intros _. by rewrite Hplk, Hvk.
  - eapply (buf_ok_hold thr t pid p (BDisk b (bkey x))); try done.
    rewrite F1. right. by left.
  - unfold thr_ok. cbn [ref_of]. split_and!; [done|done|cbn; by rewrite Hplk, Hvk|]. exists x'. split_and!; [done|done|by left].
  - intros. by right.
Qed.

(** [iderw] of the holder of a buffer. *)
Lemma step_rw io thr v t pid p b k x io' :
  binv (BSys io thr v) -> thr !! t = Some (pid, p) -> lock_of p = Some b -> ref_of p = Some (b, k) ->
  bufs io !! b = Some x -> bflags x = 0 \/ bflags x = Z.lor B_VALID B_DIRTY -> ~ changes p b -> ~ disking p b ->
  iderw pid b io = Ret tt io' -> binv (BSys io' (<[t := (pid, BDisk b k)]> thr) v).
Proof.
  intros Hi Ht Hl Hp Hx Hf Hnc Hnd Hr.
  destruct (thread_buf _ _ _ _ _ _ _ _ Hi Ht Hp) as (x1 & Hb & Hx1 & <- & Hdev & Hs & Hlen & Hbo).
  rewrite Hx in Hx1. injection Hx1 as <-. destruct (thread_holds _ _ _ _ _ _ _ _ _ Hbo Ht Hl) as [Hlk Hpid].
  pose proof (holder_queue _ _ _ _ _ _ _ _ _ Hbo Ht Hl Hnd) as Hq.
  assert (Hnv : bflags x <> B_VALID) by (destruct Hf as [-> | ->]; done).
  destruct (law_rw io pid b x (bi_drv _ Hi) Hx Hlk Hpid Hf Hq Hs Hlen) as (s' & Hr' & Hd & Hcase).
  rewrite Hr in Hr'. injection Hr' as <-. destruct Hcase as [(Hbufs & Hq' & Hpl)|(Hq' & Hfin)].
  - eapply (binv_step io thr v t pid p (BDisk b (bkey x)) io' v b x x); try done.
    + rewrite Hbufs. apply Hi.
    + intros c _. by rewrite Hbufs.
    + intros c k. cbn. rewrite Hp. naive_solver.
    + intros c Hc. rewrite Hq', elem_of_app, list_elem_of_singleton. naive_solver.
    + rewrite Hq'. apply NoDup_app. split_and!; [by destruct (bi_queue _ Hi)| |apply NoDup_singleton].
      intros c Hc ->%list_elem_of_singleton. done.
    + by rewrite Hbufs.
    + intros d. rewrite Hpl. apply (bi_len _ Hi).
    + by rewrite Hpl.
    + eapply (buf_ok_hold thr t pid p (BDisk b (bkey x))); try done; try apply Hbo.
      * intros Hfl _ Hdv. rewrite Hpl. apply (bo_clean _ _ _ _ _ _ Hbo); [done| |done]. intros Hc. by eapply Hnc, (holder_changing thr t).
      * intros _. split; [done|by eexists].
    + unfold thr_ok. cbn [ref_of]. split_and!; [done|done|cbn; by rewrite Hpl|]. exists x. rewrite Hbufs. split_and!; [done|done|].
      right. rewrite Hq', elem_of_app, list_elem_of_singleton. by right.
    + intros t' pid' r Hne Hr' Hlr. exfalso. apply Hne. by eapply (bo_one _ _ _ _ _ _ Hbo).
  - eapply step_finished; try done; rewrite ?Hq'; [done|by destruct (bi_queue _ Hi)|done].
Qed.

Lemma step_fill io thr v t pid b k (waits : bool) io' :
  binv (BSys io thr v) -> thr !! t = Some (pid, BLocked b k) -> bread_fill pid b io = Ret waits io' ->
  binv (BSys io' (<[t := (pid, if waits then BDisk b k else BHave b k false)]> thr) v).
Proof.
  intros Hi Ht Hr. destruct (thread_buf _ _ _ _ _ _ _ _ Hi Ht eq_refl) as (x & Hb & Hx & <- & Hdev & Hs & Hlen & Hbo).
  unfold bread_fill in Hr. rewrite (bind_ret _ _ _ _ _ (get_buf_ok io b x Hx)) in Hr.
  pose proof (bo_flags _ _ _ _ _ _ Hbo) as Hfo. destruct (Z.eqb_spec (Z.land (bflags x) B_VALID) 0) as [E|E].
  - assert (Hf : bflags x = 0) by (destruct Hfo as [F|[F|F]]; rewrite F in E; done || exact F).
    apply bind_inv in Hr as ([] & s1 & Hr & [= <- <-]).
    eapply (step_rw io thr v t pid (BLocked b (bkey x))); try done; [by left| |]; intros [? ?]; done.
  - injection Hr as <- <-. assert (Hf : bflags x <> 0) by (intros F; rewrite F in E; done).
    assert (Hq : b ∉ queue (drv io)) by (eapply (holder_queue thr t); try done; intros [? ?]; done).
    eapply (binv_step io thr v t pid (BLocked b (bkey x)) (BHave b (bkey x) false) io v b x x); try done; try apply Hi.
    + intros c k. cbn. naive_solver.
    + eapply buf_ok_hold; try done; try apply Hbo.
      intros Hnd _ _. apply (bo_clean _ _ _ _ _ _ Hbo); [done| |done]. intros Hc.
      destruct (holder_changing _ _ _ _ _ _ _ _ _ Hbo Ht eq_refl Hc) as [? ?]. done.
    + unfold thr_ok. cbn [ref_of]. split_and!; [done|done|done|]. by exists x.
    + intros. by left.
Qed.

Lemma step_write io thr v t pid b k m io' :
  binv (BSys io thr v) -> thr !! t = Some (pid, BHave b k m) -> bwrite pid b io = Ret tt io' ->
  binv (BSys io' (<[t := (pid, BDisk b k)]> thr) v).
Proof.
  intros Hi Ht Hr. destruct (thread_buf _ _ _ _ _ _ _ _ Hi Ht eq_refl) as (x & Hb & Hx & <- & Hdev & Hs & Hlen & Hbo).
  unfold bwrite in Hr. rewrite (bind_ret _ _ _ _ _ (buf_holding_ok io b x pid Hx)) in Hr.
  destruct (negb _); [done|]. apply bind_inv in Hr as ([] & io1 & Hpin & Hr).
  destruct (step_pin _ _ _ _ _ _ _ _ _ Hi Ht Hpin) as [Hi1 (x1 & Hx1 & Hf1)].
  rewrite <- (list_insert_insert_eq thr t (pid, BDisk b (bkey x)) (pid, BHave b (bkey x) false)).
  eapply (step_rw io1 _ v t pid (BHave b (bkey x) false)); try done; [by eapply thr_insert_eq|by right| |]; intros [? ?]; done.
Qed.

Lemma step_unlock io thr v t pid b k io' :
  binv (BSys io thr v) -> thr !! t = Some (pid, BHave b k false) -> brelse_unlock pid b io = Ret tt io' ->
  binv (BSys io' (<[t := (pid, BRel b k)]> thr) v).
Proof.
  intros Hi Ht Hr. destruct (thread_buf _ _ _ _ _ _ _ _ Hi Ht eq_refl) as (x & Hb & Hx & <- & Hdev & Hs & Hlen & Hbo).
  unfold brelse_unlock in Hr. rewrite (bind_ret _ _ _ _ _ (buf_holding_ok io b x pid Hx)) in Hr. destruct (negb _); [done|].
  erewrite on_lock_ok in Hr; [|done|reflexivity]. injection Hr as <-.
  assert (Hq : b ∉ queue (drv io)) by (eapply (holder_queue thr t); try done; intros [? ?]; done).
  assert (Hno : forall t1 pid1 p1, <[t := (pid, BRel b (bkey x))]> thr !! t1 = Some (pid1, p1) -> lock_of p1 <> Some b).
  { intros t1 pid1 p1 E1 L1. destruct (thr_insert _ _ _ _ _ _ _ _ Ht E1) as [(_ & _ & ->)|(Hne & F)]; [done|].
    apply Hne. by eapply (bo_one _ _ _ _ _ _ Hbo). }
  eapply binv_buf; try done; [by left|by apply frame_alter; [apply Hi|]| | |by left].
  - destruct Hbo as [H1 H2 H3 H4 H5 H6 H7 H8 H9]. split; try done.
    + cbn. rewrite H2. erewrite (refs_insert b thr t); [|done]. rewrite !(refb_self _ b (bkey x)) by done. lia.
    + intros t1 t2 pid1 pid2 p1 p2 E1 _ L1. by apply Hno in E1.
    + intros Hf Hc Hd. apply H8; [done| |done]. intros (t1 & pid1 & k1 & E1).
      pose proof (H6 _ _ _ _ _ _ Ht E1 eq_refl eq_refl) as <-. congruence.
  - unfold thr_ok. cbn [ref_of]. split_and!; [done|done|done|]. eexists. split; [by apply alter_eq|]. done.
Qed.

Lemma step_unref io thr v t pid b k io' :
  binv (BSys io thr v) -> thr !! t = Some (pid, BRel b k) -> brelse_unref b io = Ret tt io' ->
  binv (BSys io' (<[t := (pid, BIdle)]> thr) v).
Proof.
  intros Hi Ht Hr. destruct (thread_buf _ _ _ _ _ _ _ _ Hi Ht eq_refl) as (x & Hb & Hx & <- & Hdev & Hs & Hlen & Hbo).
  destruct (bi_lru _ Hi) as [l Hl]. destruct (brelse_unref_ok io l b x Hl Hb Hx) as (s' & l' & Hr' & Hl' & Hd & Hc).
  rewrite Hr in Hr'. injection Hr' as <-. pose proof (Hc b) as Hcb. rewrite (alter_eq _ _ _ _ Hx) in Hcb.
  destruct (bufs io' !! b) as [x'|] eqn:Hx'; [|done]. apply (inj Some) in Hcb.
  assert (Hother : forall c, c <> b -> core <$> bufs io' !! c = core <$> bufs io !! c).
  { intros c Hne. rewrite Hc. by apply alter_core_ne. }
  assert (Hfields : bflags x' = bflags x /\ bkey x' = bkey x /\ bdata x' = bdata x /\ bsleep x' = bsleep x /\ brefcnt x' = u32 (brefcnt x - 1)).
  { destruct x, x'. unfold core, setf, bkey in *. cbn in *. by injection Hcb as -> -> -> -> -> ->. }
  destruct Hfields as (F1 & F2 & F3 & F4 & F5).
  pose proof (refs_pos b thr t pid _ (bkey x) Ht eq_refl) as Hpos. pose proof (refs_max b thr) as Hmax.
  pose proof (bi_few _ Hi) as Hfew. pose proof (bo_refs _ _ _ _ _ _ Hbo) as Hrc. cbn in Hfew.
  rewrite u32_small in F5 by lia.
  eapply (binv_step io thr v t pid (BRel b (bkey x)) BIdle io' v b x x'); rewrite ?Hd; try done.
  - by exists l'.
  - eapply law_frame; [apply Hi|done|]. intros c y _ Hy. destruct (decide (c = b)) as [->|Hne].
    + cbn in Hy. rewrite Hx in Hy. injection Hy as <-. exists x'. split; [done|]. unfold io_part. unfold bkey in F2. injection F2 as -> ->. by rewrite F1, F3.
    + pose proof (Hother c Hne) as E. cbn in Hy. rewrite Hy in E. destruct (bufs io' !! c) as [y'|] eqn:E'; [|done]. apply (inj Some) in E.
      exists y'. split; [done|]. destruct y, y'. unfold core, setf in E. cbn in E. by injection E as -> -> -> -> -> ->.
  - intros c k. cbn. naive_solver.
  - by destruct (bi_queue _ Hi).
  - intros d. apply (bi_len _ Hi).
  - eapply (buf_ok_step thr t pid (BRel b (bkey x)) BIdle); try exact Hbo; try done.
    + rewrite F5, (refb_self (BRel b (bkey x)) b (bkey x)), (refb_other BIdle b) by done. lia.
    + by split; intros [? ?].
    + intros [? ?]. done.
  - intros. left. by rewrite F1.
Qed.

Lemma step_intr io thr v io' : binv (BSys io thr v) -> ideintr io = Ret tt io' -> binv (BSys io' thr v).
Proof.
  intros Hi Hr. destruct (law_intr io (bi_drv _ Hi)) as (s' & Hr' & Hd & Hcase). rewrite Hr in Hr'. injection Hr' as <-.
  destruct Hcase as [(_ & Hq & Hb & Hpl)|(b & rest & Hq & Hq' & Hfin)].
  - destruct Hi as [I1 I2 I3 I4 I5 I6 I7 I8 I9]. cbn in *. split; cbn; rewrite ?Hb, ?Hq; try done.
    + intros t pid p Ht. eapply thr_ok_mono; [by eapply I3|intros k; by rewrite Hpl|]. intros b k x _ Hx. exists x. split_and!; try done. by left.
    + intros b x Hlt Hx. destruct (I4 b x Hlt Hx) as [H1' H2' H3' H4' H5' H6' H7' H8' H9']. split; try done.
      intros. rewrite Hpl. by apply H8'.
    + intros k Hk Hno. rewrite Hpl. by apply I6.
    + intros dev no w. rewrite Hpl. apply I8.
  - destruct (Hfin) as (x & Hx & _). destruct (bi_queue _ Hi) as [Hnd Hlt]. cbn in Hnd, Hlt. rewrite Hq in Hnd.
    assert (Hin : b ∈ queue (drv io)) by (rewrite Hq; by left). apply NoDup_cons in Hnd as [Hnb Hnd].
    pose proof (bi_buf _ Hi b x (Hlt b Hin) Hx) as Hbo. cbn in Hbo.
    destruct (bo_queue _ _ _ _ _ _ Hbo Hin) as (Hnv & t & pid & k & Ht). rewrite <- (insert_self thr t pid (BDisk b k) Ht).
    eapply (step_finished io thr v t pid (BDisk b k)); try done; rewrite ?Hq', ?Hq.
    + intros [? ?]. done.
    + destruct (bo_flags _ _ _ _ _ _ Hbo) as [?|[?|?]]; tauto.
    + done.
    + done.
    + intros c Hne. rewrite elem_of_cons. naive_solver.
Qed.

Lemma get_cached io thr v t pid dev no b x :
  binv (BSys io thr v) -> thr !! t = Some (pid, BIdle) -> block_on io (dev, no) ->
  (b < NBUF)%nat -> bufs io !! b = Some x -> bkey x = (dev, no) ->
  binv (BSys (io <| bufs ::= alter (fun x => x <| brefcnt ::= fun n => u32 (n + 1) |>) b |>) (<[t := (pid, BWait b (dev, no))]> thr) v).
Proof.
  intros Hi Ht [Hdev Hdisk] Hb Hx Hk. cbn in Hdev, Hdisk. pose proof (bi_buf _ Hi b x Hb Hx) as Hbo. cbn in Hbo.
  assert (Hdx : bdev x = dev /\ bblockno x = no) by (unfold bkey in Hk; by injection Hk). destruct Hdx as [Hd1 Hd2].
  pose proof (refs_max b (<[t := (pid, BWait b (dev, no))]> thr)) as Hmax. rewrite length_insert in Hmax.
  erewrite (refs_insert b thr t) in Hmax; [|done]. rewrite (refb_other BIdle b), (refb_self _ b (dev, no)) in Hmax by done.
  pose proof (bi_few _ Hi) as Hfew. cbn in Hfew. pose proof (bo_refs _ _ _ _ _ _ Hbo) as Hrc. pose proof (refs_max b thr) as Hmin.
  eapply (binv_step io thr v t pid BIdle (BWait b (dev, no)) _ v b x (x <| brefcnt ::= fun n => u32 (n + 1) |>)); try done.
  - destruct (bi_lru _ Hi) as [l Hl]. exists l. by apply lru_alter.
  - by apply frame_alter_io; [apply Hi|].
  - intros c Hc. by apply alter_core_ne.
  - intros c k. cbn. naive_solver.
  - by destruct (bi_queue _ Hi).
  - by apply alter_eq.
  - by rewrite Hd1.
  - intros d. apply (bi_len _ Hi).
  - eapply (buf_ok_step thr t pid BIdle); try exact Hbo; try done.
    + cbn. rewrite (refb_other BIdle b), (refb_self _ b (dev, no)) by done. rewrite u32_small by lia. lia.
    + split; intros [? ?]; done.
    + intros [? ?]. done.
  - unfold thr_ok. cbn [ref_of]. split_and!; [done|done|done|]. eexists. split; [by apply alter_eq|]. done.
  - intros. by left.
Qed.

Lemma get_recycled io thr v t pid dev no b x :
  binv (BSys io thr v) -> thr !! t = Some (pid, BIdle) -> block_on io (dev, no) ->
  (forall c y, (c < NBUF)%nat -> bufs io !! c = Some y -> bkey y <> (dev, no)) ->
  (b < NBUF)%nat -> bufs io !! b = Some x -> brefcnt x = 0 -> Z.land (bflags x) B_DIRTY = 0 ->
  binv (BSys (io <| bufs ::= alter (fun x => x <| bdev := dev |> <| bblockno := no |> <| bflags := 0 |> <| brefcnt := 1 |>) b |>)
             (<[t := (pid, BWait b (dev, no))]> thr) v).
Proof.
  intros Hi Ht [Hdev Hdisk] Hno Hb Hx Hr0 Hnd. cbn in Hdev, Hdisk. pose proof (bi_buf _ Hi b x Hb Hx) as Hbo. cbn in Hbo.
  assert (Hnoref : forall t' pid' r k, thr !! t' = Some (pid', r) -> ref_of r <> Some (b, k)).
  { intros t' pid' r k Hr Href. eapply (refs_zero b thr); [|done|done]. by rewrite <- (bo_refs _ _ _ _ _ _ Hbo). }
  assert (Hnolock : forall t' pid' r, thr !! t' = Some (pid', r) -> lock_of r <> Some b).
  { intros t' pid' r Hr Hl. destruct r; cbn in Hl; try done; injection Hl as ->; by eapply Hnoref. }
  assert (Hfree : sl_locked (bsleep x) = 0).
  { destruct (decide (sl_locked (bsleep x) = 0)) as [|E]; [done|].
    destruct (bo_held _ _ _ _ _ _ Hbo E) as (t' & r & Hr & Hl). by apply Hnolock in Hr. }
  assert (Hq : b ∉ queue (drv io)).
  { intros Hin. destruct (bo_queue _ _ _ _ _ _ Hbo Hin) as (_ & t' & pid' & k & Hr). by apply (Hnolock _ _ _ Hr). }
  assert (Hnch : ~ changing b thr) by (intros (t' & pid' & k & Hr); by apply (Hnolock _ _ _ Hr)).
  destruct Hi as [I1 I2 I3 I4 I5 I6 I7 I8 I9]. cbn [b_io b_thr b_view] in *.
  set (f := fun x => _ : buf). set (x' := f x).
  assert (Hback : forall c y, alter f b (bufs io) !! c = Some y -> (c = b /\ y = x') \/ (c <> b /\ bufs io !! c = Some y)).
  { intros c y Hy. rewrite alter_lookup in Hy. destruct (decide (c = b)) as [->|]; [|by right]. rewrite Hx in Hy. injection Hy as <-. by left. }
  split; cbn [b_io b_thr b_view bufs drv setf]; [|by apply frame_alter| | | | |by rewrite length_insert|done|done].
  - destruct I1 as [l Hl]. exists l. by apply lru_alter.
  - intros t' pid' r Hr. destruct (thr_insert _ _ _ _ _ _ _ _ Ht Hr) as [(-> & -> & ->)|(Hne & Hr')].
    + unfold thr_ok. cbn [ref_of]. split_and!; [done|done|done|]. eexists. split; [by apply alter_eq|]. done.
    + eapply thr_ok_mono; [by eapply I3|done|]. intros c k y Hc Hy. exists y.
      assert (c <> b) by (intros ->; by eapply Hnoref). split_and!; [by cbn; rewrite list_lookup_alter_ne|done|]. intros _. by left.
  - intros c y Hc Hy. destruct (Hback c y Hy) as [(-> & ->)|(Hne & Hy')].
    + assert (Hlk' : forall t' pid' r, <[t := (pid, BWait b (dev, no))]> thr !! t' = Some (pid', r) -> lock_of r <> Some b).
      { intros t' pid' r Hr. destruct (thr_insert _ _ _ _ _ _ _ _ Ht Hr) as [(_ & _ & ->)|(_ & Hr')]; [done|by eapply Hnolock]. }
      split; try done.
      * by left.
      * cbn. erewrite (refs_insert b thr t); [|done]. rewrite (refb_other BIdle b), (refb_self _ b (dev, no)) by done.
        rewrite <- (bo_refs _ _ _ _ _ _ Hbo). lia.
      * apply (bo_len _ _ _ _ _ _ Hbo).
      * intros t1 t2 pid1 pid2 p1 p2 E1 _ L1. by apply Hlk' in E1.
      * intros _ _ _. cbn. apply (I6 (dev, no)); [done|]. exact Hno.
    + eapply (buf_ok_other thr t pid BIdle (BWait b (dev, no))); [done|by apply I4|done|done| |done|done|done].
      intros k. cbn. naive_solver.
  - intros c c' y y' Hc Hc' Hy Hy' Hd Hk. destruct (Hback c y Hy) as [(-> & ->)|(Hne & Hy1)], (Hback c' y' Hy') as [(-> & ->)|(Hne' & Hy1')].
    + done.
    + exfalso. by eapply (Hno c' y').
    + exfalso. by eapply (Hno c y).
    + by eapply I5.
  - intros k Hk Hnk. destruct (decide (k = bkey x)) as [->|Hkx].
    + cbn. rewrite (bo_clean _ _ _ _ _ _ Hbo); try done. intros E. by rewrite E in Hnd.
    + apply I6; [done|]. intros c y Hc Hy. destruct (decide (c = b)) as [->|Hne]; [rewrite Hx in Hy; injection Hy as <-; congruence|].
      eapply (Hnk c); [done|]. cbn. by rewrite list_lookup_alter_ne.
Qed.

Lemma find_has io l dev no : lru (bufs io) l ->
  match List.find (has_key (bufs io) dev no) l with
  | Some b => (b < NBUF)%nat /\ exists x, bufs io !! b = Some x /\ bkey x = (dev, no)
  | None => forall c y, (c < NBUF)%nat -> bufs io !! c = Some y -> bkey y <> (dev, no)
  end.
Proof.
  intros Hl. destruct (List.find _ l) as [b|] eqn:E.
  - apply find_some in E as [Hin Hk]. apply list_elem_of_In in Hin. split; [by apply (lru_elem _ _ _ Hl)|]. unfold has_key in Hk.
    destruct (bufs io !! b) as [x|]; [|done]. exists x. split; [done|]. apply andb_true_iff in Hk as [H1 H2].
    unfold bkey. by rewrite (proj1 (Z.eqb_eq _ _) H1), (proj1 (Z.eqb_eq _ _) H2).
  - intros c y Hc Hy Hk. apply (lru_elem _ _ _ Hl) in Hc. apply list_elem_of_In in Hc.
    pose proof (find_none _ _ E c Hc) as Hf. unfold has_key in Hf. rewrite Hy in Hf. unfold bkey in Hk. injection Hk as <- <-.
    by rewrite !Z.eqb_refl in Hf.
Qed.

Lemma find_free io l b : lru (bufs io) l -> List.find (unused (bufs io)) (rev l) = Some b ->
  (b < NBUF)%nat /\ exists x, bufs io !! b = Some x /\ brefcnt x = 0 /\ Z.land (bflags x) B_DIRTY = 0.
Proof.
  intros Hl [Hin Hu]%find_some. split; [apply (lru_elem _ _ _ Hl); by rewrite list_elem_of_In, in_rev|]. unfold unused in Hu.
  destruct (bufs io !! b) as [x|]; [|done]. exists x. apply andb_true_iff in Hu as [H1 H2]. split_and!; [done|by apply Z.eqb_eq..].
Qed.

Lemma step_get io thr v t pid dev no b io' :
  binv (BSys io thr v) -> thr !! t = Some (pid, BIdle) -> block_on io (dev, no) -> bget dev no io = Ret b io' ->
  binv (BSys io' (<[t := (pid, BWait b (dev, no))]> thr) v).
Proof.
  intros Hi Ht Hon Hr. destruct (bi_lru _ Hi) as [l Hl]. cbn in Hl. rewrite (bget_ok io l dev no Hl) in Hr.
  pose proof (find_has io l dev no Hl) as Hf. destruct (List.find (has_key (bufs io) dev no) l) as [c|].
  - injection Hr as <- <-. destruct Hf as (Hc & x & Hx & Hk). by eapply get_cached.
  - destruct (List.find (unused (bufs io)) (rev l)) as [c|] eqn:Eu; [|done]. injection Hr as <- <-.
    destruct (find_free _ _ _ Hl Eu) as (Hc & x & Hx & H1 & H2). by eapply get_recycled.
Qed.

Lemma bstep_binv y y' : binv y -> bstep y y' -> binv y'.
Proof.
  intros Hi Hs. destruct Hs; [by eapply step_get|by eapply step_lock|by eapply step_fill|by eapply step_done|by eapply step_change
    |by eapply step_pin|by eapply step_write|by eapply step_unlock|by eapply step_unref|by eapply step_intr].
Qed.

Lemma boot_binv y : bboot y -> binv y.
Proof.
  intros (d & data & Hlen & Hinit & Hidle & Hfew & Hd & Hq & Hv & Hpl).
  destruct (binit_ok d data) as (s' & Hr & Hdrv & Hlru & Hcore). rewrite Hinit in Hr. injection Hr as <-. clear Hinit.
  assert (Hnone : forall t pid p, b_thr y !! t = Some (pid, p) -> p = BIdle).
  { intros t pid p Ht. rewrite Forall_lookup in Hidle. exact (Hidle t _ Ht). }
  assert (Href : forall b, refs b (b_thr y) = 0).
  { intros b. unfold refs. replace (List.filter _ _) with (@nil (Z * bpc)); [done|]. symmetry.
    destruct (List.filter _ (b_thr y)) as [|[pid p] l] eqn:E; [done|]. exfalso.
    assert (Hin : In (pid, p) (List.filter (fun t => bool_decide (fst <$> ref_of t.2 = Some b)) (b_thr y))) by (rewrite E; by left).
    apply filter_In in Hin as [Hin Hb]. apply list_elem_of_In, list_elem_of_lookup in Hin as [t Ht].
    apply Hnone in Ht as ->. by apply bool_decide_eq_true in Hb. }
  assert (Hf : forall b x, bufs (b_io y) !! b = Some x -> bflags x = 0 /\ bdev x = 0 /\ bblockno x = 0 /\ sl_locked (bsleep x) = 0 /\
      brefcnt x = 0 /\ bdata x = data).
  { intros b x Hx. pose proof (Hcore b x Hx) as E. destruct x. unfold core, setf in E. cbn in E. injection E as -> -> -> -> -> ->. done. }
  split.
  - by eexists.
  - done.
  - intros t pid p Ht. by rewrite (Hnone _ _ _ Ht).
  - intros b x Hb Hx. destruct (Hf b x Hx) as (F1 & F2 & F3 & F4 & F5 & F6). split; rewrite ?F1, ?F2, ?F3, ?F4, ?F5, ?F6; try done.
    + by left.
    + intros _ t pid p Ht. by rewrite (Hnone _ _ _ Ht).
    + intros t t' pid pid' p p' Ht _ Hl. by rewrite (Hnone _ _ _ Ht) in Hl.
    + rewrite Hdrv, Hq. by intros ?%elem_of_nil.
  - intros b b' x x' _ _ Hx _ Hd0. by destruct (Hf b x Hx) as (_ & ? & _).
  - intros [dev no] Hk _. cbn. by rewrite Hv, Hdrv.
  - done.
  - rewrite Hdrv. exact Hpl.
  - rewrite Hdrv, Hq. split; [apply NoDup_nil_2|by intros b ?%elem_of_nil].
Qed.

Lemma reachable_binv y0 y : bboot y0 -> rtc bstep y0 y -> binv y.
Proof.
  intros Hb Hr. pose proof (boot_binv _ Hb) as Hi. clear Hb. induction Hr as [|y1 y2 y3 Hs Hr IH]; [done|]. apply IH. by eapply bstep_binv.
Qed.

(** A buffer that a thread is using. *)
Lemma have_view io thr v t pid b k m : binv (BSys io thr v) -> thr !! t = Some (pid, BHave b k m) ->
  exists x, bufs io !! b = Some x /\ bkey x = k /\ v !! k = Some (bdata x).
Proof.
  intros Hi Ht. destruct (thread_buf _ _ _ _ _ _ _ _ Hi Ht eq_refl) as (x & Hb & Hx & <- & _ & _ & _ & Hbo).
  pose proof (bi_thr _ Hi _ _ _ Ht) as Htok. unfold thr_ok in Htok. cbn [ref_of] in Htok.
  destruct Htok as (_ & _ & _ & x0 & Hx0 & _ & Hf). cbn in Hx0. rewrite Hx in Hx0. injection Hx0 as <-.
  exists x. split_and!; [done|done|]. by apply (bo_data _ _ _ _ _ _ Hbo).
Qed.

(** C8. In every reachable state two threads never have the same block, and what a
    thread finds in its buffer is the contents of its block as the last change
    left them. *)
Theorem block_has_one_user y0 y :
  bboot y0 -> rtc bstep y0 y ->
  forall t pid b k m, b_thr y !! t = Some (pid, BHave b k m) ->
    (exists x, bufs (b_io y) !! b = Some x /\ bkey x = k /\ b_view y !! k = Some (bdata x)) /\
    forall t' pid' b' k' m', b_thr y !! t' = Some (pid', BHave b' k' m') -> t' <> t -> k' <> k.
Proof.
  intros Hb Hr t pid b k m Ht. pose proof (reachable_binv _ _ Hb Hr) as Hi. destruct y as [io thr v]. cbn in *. split; [by eapply have_view|].
  intros t' pid' b' k' m' Ht' Hne ->. destruct (thread_buf _ _ _ _ _ _ _ _ Hi Ht eq_refl) as (x & Hlt & Hx & Hk & Hdev & _ & _ & Hbo).
  destruct (thread_buf _ _ _ _ _ _ _ _ Hi Ht' eq_refl) as (x' & Hlt' & Hx' & Hk' & _).
  assert (b = b') as <- by (eapply (bi_uniq _ Hi); try done; congruence). apply Hne. by eapply (bo_one _ _ _ _ _ _ Hbo).
Qed.

(** C26. Nothing is lost: where the disk does not have the contents of a block, a
    buffer has exactly them, because it is dirty or a thread has just changed it
    and still holds it, and [bget] does not take that buffer for another block. *)
Theorem cache_keeps_unwritten y0 y :
  bboot y0 -> rtc bstep y0 y ->
  forall dev no, dev <> 0 -> b_view y !! (dev, no) = platter (drv (b_io y)) dev no \/
    exists b x, bufs (b_io y) !! b = Some x /\ bkey x = (dev, no) /\ b_view y !! (dev, no) = Some (bdata x) /\
      (dirtyb x = true \/ exists t pid k, b_thr y !! t = Some (pid, BHave b k true)) /\ unused (bufs (b_io y)) b = false.
Proof.
  intros Hb Hr dev no Hdev. destruct (decide (b_view y !! (dev, no) = platter (drv (b_io y)) dev no)) as [|Hdiff]; [by left|right].
  pose proof (reachable_binv _ _ Hb Hr) as Hi. destruct (bi_lru _ Hi) as [l Hl].
  pose proof (find_has _ _ dev no Hl) as Hf. destruct (List.find _ l) as [b|]; [|exfalso; by apply Hdiff, (bi_uncached _ Hi (dev, no))].
  destruct Hf as (Hlt & x & Hx & Hk). exists b, x. pose proof (bi_buf _ Hi b x Hlt Hx) as Hbo.
  assert (Hkk : bdev x = dev /\ bblockno x = no) by (unfold bkey in Hk; by injection Hk). destruct Hkk as [<- <-].
  split; [done|]. split; [done|].
  destruct (decide (bflags x = Z.lor B_VALID B_DIRTY)) as [E|Hnd].
  - split; [apply (bo_data _ _ _ _ _ _ Hbo); by rewrite E|]. split; [left; unfold dirtyb; by rewrite E|].
    unfold unused. rewrite Hx, E. apply andb_false_r.
  - assert (Hch : changing b (b_thr y)).
    { destruct (existsb (fun t => match t.2 with BHave b' _ true => bool_decide (b' = b) | _ => false end) (b_thr y)) eqn:Ex.
      - apply existsb_exists in Ex as ([pid p] & Hin & Hp). apply list_elem_of_In, list_elem_of_lookup in Hin as [t Ht].
        destruct p as [| | | |b' k [|]|]; try done. apply bool_decide_eq_true in Hp as ->. by exists t, pid, k.
      - exfalso. apply Hdiff, (bo_clean _ _ _ _ _ _ Hbo Hnd); [|done]. intros (t & pid & k & Ht).
        assert (Hex : existsb (fun t => match t.2 with BHave b' _ true => bool_decide (b' = b) | _ => false end) (b_thr y) = true).
        { apply existsb_exists. exists (pid, BHave b k true). split; [by eapply list_elem_of_In, list_elem_of_lookup_2|].
          by apply bool_decide_eq_true. }
        congruence. }
    destruct Hch as (t & pid & k & Ht). pose proof (bi_thr _ Hi t pid _ Ht) as Hth. cbn in Hth.
    destruct Hth as (_ & _ & _ & x' & Hx' & _ & Hfl). rewrite Hx in Hx'. injection Hx' as <-.
    split; [by apply (bo_data _ _ _ _ _ _ Hbo)|]. split; [right; eauto|].
    unfold unused. rewrite Hx. pose proof (refs_pos b (b_thr y) t pid _ k Ht eq_refl) as Hpos.
    rewrite <- (bo_refs _ _ _ _ _ _ Hbo) in Hpos. destruct (Z.eqb_spec (brefcnt x) 0); [lia|done].
Qed.

(** No operation of the cache panics or fails at the point of a thread where
    the kernel calls it, save that [bget] finds no buffer when all of them are
    in use or dirty. *)
Lemma cache_progress io thr v t pid p : binv (BSys io thr v) -> thr !! t = Some (pid, p) ->
  match p with
  | BIdle => forall dev no, (exists b io', bget dev no io = Ret b io') \/
      (bget dev no io = Panic "bget: no buffers" /\ forall b, (b < NBUF)%nat -> unused (bufs io) b = false)
  | BWait b _ => exists r io', on_lock b (acquiresleep pid) io = Ret r io'
  | BLocked b _ => exists r io', bread_fill pid b io = Ret r io'
  | BDisk b _ => exists r io', iderw_done b io = Ret r io'
  | BHave b _ _ => (exists io', bwrite pid b io = Ret tt io') /\ exists io', brelse_unlock pid b io = Ret tt io'
  | BRel b _ => exists io', brelse_unref b io = Ret tt io'
  end.
Proof.
  intros Hi Ht. destruct (bi_lru _ Hi) as [l Hl]. cbn in Hl. destruct p as [|b k|b k|b k|b k m|b k].
  { intros dev no. rewrite (bget_ok io l dev no Hl). destruct (List.find (has_key (bufs io) dev no) l); [left; eauto|].
    destruct (List.find (unused (bufs io)) (rev l)) eqn:E; [left; eauto|]. right. split; [done|].
    intros b Hb. eapply find_none; [exact E|]. apply in_rev. rewrite rev_involutive. apply list_elem_of_In. by apply (lru_elem _ _ _ Hl). }
  all: destruct (thread_buf _ _ _ _ _ _ _ _ Hi Ht eq_refl) as (x & Hb & Hx & Hk & Hdev & Hs & Hlen & Hbo).
  - rewrite <- Hk in *. destruct (acquiresleep pid (bsleep x)) as [r s'| | |] eqn:Ea; rewrite acquiresleep_cases in Ea;
      [|by destruct (sl_locked (bsleep x) =? 0)..].
    eexists _, _. apply (on_lock_ok io b x); [done|]. by rewrite acquiresleep_cases.
  - unfold bread_fill. rewrite (bind_ret _ _ _ _ _ (get_buf_ok io b x Hx)).
    destruct (Z.eqb_spec (Z.land (bflags x) B_VALID) 0) as [E|E]; [|eauto].
    assert (Hf : bflags x = 0) by (destruct (bo_flags _ _ _ _ _ _ Hbo) as [F|[F|F]]; rewrite F in E; done || exact F).
    destruct (thread_holds _ _ _ _ _ _ _ _ _ Hbo Ht eq_refl) as [Hlk Hpid].
    assert (Hq : b ∉ queue (drv io)) by (eapply (holder_queue thr t); try done; intros [? ?]; done).
    destruct (law_rw io pid b x (bi_drv _ Hi) Hx Hlk Hpid (or_introl Hf) Hq Hs Hlen) as (s' & Hr & _).
    eexists _, _. by rewrite (bind_ret _ _ _ _ _ Hr).
  - eexists _, _. unfold iderw_done. by rewrite (bind_ret _ _ _ _ _ (get_buf_ok io b x Hx)).
  - destruct (thread_holds _ _ _ _ _ _ _ _ _ Hbo Ht eq_refl) as [Hlk Hpid].
    assert (Hh : negb (sl_locked (bsleep x) =? 0) && (sl_pid (bsleep x) =? pid) = true).
    { rewrite Hpid, Z.eqb_refl. by destruct (Z.eqb_spec (sl_locked (bsleep x)) 0). }
    split.
    + unfold bwrite. rewrite (bind_ret _ _ _ _ _ (buf_holding_ok io b x pid Hx)), Hh. cbn [negb].
      destruct (step_pin _ _ _ _ _ _ _ _ _ Hi Ht (upd_buf_ok io b x _ Hx)) as [Hi1 (x1 & Hx1 & Hf1)].
      assert (Ht1 : <[t := (pid, BHave b k false)]> thr !! t = Some (pid, BHave b k false)) by (by eapply thr_insert_eq).
      destruct (thread_buf _ _ _ _ _ _ _ _ Hi1 Ht1 eq_refl) as (x2 & _ & Hx2 & _ & _ & Hs1 & Hlen1 & Hbo1).
      rewrite Hx1 in Hx2. injection Hx2 as <-. destruct (thread_holds _ _ _ _ _ _ _ _ _ Hbo1 Ht1 eq_refl) as [Hlk1 Hpid1].
      rewrite (bind_ret _ _ _ _ _ (upd_buf_ok io b x _ Hx)).
      destruct (law_rw _ pid b x1 (bi_drv _ Hi1) Hx1 Hlk1 Hpid1 (or_intror Hf1)) as (s' & Hr & _); [|done|done|eauto].
      eapply (holder_queue _ t); try done. intros [? ?]. done.
    + unfold brelse_unlock. rewrite (bind_ret _ _ _ _ _ (buf_holding_ok io b x pid Hx)), Hh. cbn [negb].
      eexists. by eapply on_lock_ok.
  - destruct (brelse_unref_ok io l b x Hl Hb Hx) as (s' & _ & Hr & _). eauto.
Qed.

Theorem cache_operations_return y0 y :
  bboot y0 -> rtc bstep y0 y -> forall t pid p, b_thr y !! t = Some (pid, p) ->
  match p with
  | BIdle => forall dev no, (exists b io', bget dev no (b_io y) = Ret b io') \/
      (bget dev no (b_io y) = Panic "bget: no buffers" /\ forall b, (b < NBUF)%nat -> unused (bufs (b_io y)) b = false)
  | BWait b _ => exists r io', on_lock b (acquiresleep pid) (b_io y) = Ret r io'
  | BLocked b _ => exists r io', bread_fill pid b (b_io y) = Ret r io'
  | BDisk b _ => exists r io', iderw_done b (b_io y) = Ret r io'
  | BHave b _ _ => (exists io', bwrite pid b (b_io y) = Ret tt io') /\ exists io', brelse_unlock pid b (b_io y) = Ret tt io'
  | BRel b _ => exists io', brelse_unref b (b_io y) = Ret tt io'
  end.
Proof. intros Hb Hr t pid p Ht. pose proof (reachable_binv _ _ Hb Hr) as Hi. destruct y. by eapply cache_progress. Qed.
End Sys.

(** ** Witnesses: two processes at a disk of four blocks in memory *)

Definition disk4 : memide := Memide 4 (replicate 2048 0).
Definition block0 : block := replicate 512 0.

Lemma disk4_at no : 0 <= no < 4 -> memide_block disk4 1 no = Some block0.
Proof. intros H. assert (no = 0 \/ no = 1 \/ no = 2 \/ no = 3) as [->|[->|[->| ->]]] by lia; reflexivity. Qed.

Lemma disk4_block dev no v : memide_block disk4 dev no = Some v -> dev = 1 /\ 0 <= no < 4 /\ v = block0.
Proof.
  unfold memide_block. change (disksize disk4) with 4. destruct (Z.eqb_spec dev 1) as [->|]; [|done].
  destruct (Z.leb_spec 0 no), (Z.ltb_spec no 4); try done. intros Hv. split_and!; [done|lia|lia|].
  assert (Hd : memide_block disk4 1 no = Some v).
  { unfold memide_block. change (disksize disk4) with 4. destruct (Z.leb_spec 0 no), (Z.ltb_spec no 4); try lia. exact Hv. }
  rewrite disk4_at in Hd by lia. congruence.
Qed.

Definition view4 : gmap key block := list_to_map ((fun no => ((1, no), block0)) <$> [0; 1; 2; 3]).

Lemma view4_at dev no : view4 !! (dev, no) = memide_block disk4 dev no.
Proof.
  destruct (memide_block disk4 dev no) as [v|] eqn:E.
  - apply disk4_block in E as (-> & Hno & ->).
    assert (no = 0 \/ no = 1 \/ no = 2 \/ no = 3) as [->|[->|[->| ->]]] by lia; reflexivity.
  - unfold view4. apply not_elem_of_list_to_map. intros ((k & w) & Hk & Hin)%list_elem_of_fmap.
    apply list_elem_of_fmap in Hin as (n & [= -> ->] & Hn). cbn in Hk. injection Hk as -> ->.
    rewrite disk4_at in E; [done|]. rewrite !elem_of_cons in Hn. destruct Hn as [->|[->|[->|[->|Hn]]]]; [lia..|by apply elem_of_nil in Hn].
Qed.

Lemma boot4 : exists io, bboot (BSys (D := memide) io [(7, BIdle); (8, BIdle)] view4) /\ drv io = disk4 /\
  forall b x, bufs io !! b = Some x -> core x = buf0 <| bdata := block0 |>.
Proof.
  destruct (binit_ok disk4 block0) as (io & Hr & Hd & _ & Hcore). exists io. split; [|split; [exact Hd|exact Hcore]].
  exists disk4, block0. split; [reflexivity|]. split; [exact Hr|]. clear Hr. split_and!; [by repeat constructor|done| |reflexivity|apply view4_at|].
  - change (memide_ok io). unfold memide_ok. rewrite Hd. split; [done|reflexivity].
  - by intros dev no v (_ & _ & ->)%disk4_block.
Qed.

(** The first process reads block 2 and changes it. *)
Lemma sample4 : exists (y0 y : bsys memide) b, bboot y0 /\ rtc bstep y0 y /\ b_thr y !! 0%nat = Some (7, BHave b (1, 2) true).
Proof.
  destruct boot4 as (io & Hb & Hd & Hcore). set (thr := [(7, BIdle); (8, BIdle)]) in *. pose proof (boot_binv _ Hb) as Hi0.
  destruct (bi_lru _ Hi0) as [l Hl]. cbn in Hl. pose proof (bget_ok io l 1 2 Hl) as Hg.
  assert (Hnone : List.find (has_key (bufs io) 1 2) l = None).
  { pose proof (find_has io l 1 2 Hl) as Hf. destruct (List.find (has_key (bufs io) 1 2) l) as [b|]; [|done].
    destruct Hf as (_ & x & Hx & Hk). pose proof (Hcore b x Hx) as E. destruct x. unfold core, setf in E. cbn in E. injection E as _ -> _ _ _ _. done. }
  rewrite Hnone in Hg. destruct (List.find (unused (bufs io)) (rev l)) as [b|] eqn:Eu.
  2: { exfalso. pose proof (lru_length _ _ Hl) as Hlen. destruct l as [|c l']; [done|].
       pose proof (find_none _ _ Eu c) as Hf. rewrite <- in_rev in Hf. specialize (Hf (or_introl eq_refl)). unfold unused in Hf.
       assert (Hc : (c < NBUF)%nat) by (apply (lru_elem _ _ _ Hl); by left).
       destruct (lru_get _ _ c Hl ltac:(lia)) as [x Hx]. rewrite Hx in Hf. pose proof (Hcore c x Hx) as E. destruct x.
       unfold core, setf in E. cbn in E. by injection E as -> _ _ _ ->. }
  destruct (find_free _ _ _ Hl Eu) as (Hlt & x & Hx & _). set (io1 := io <| bufs ::= _ |>) in Hg.
  assert (Hs1 : bstep (BSys io thr view4) (BSys io1 (<[0%nat := (7, BWait b (1, 2))]> thr) view4)).
  { eapply bs_get; [reflexivity| |exact Hg]. split; [done|]. rewrite Hd. cbn. by eexists. }
  set (thr1 := <[0%nat := (7, BWait b (1, 2))]> thr) in Hs1. set (x1 := x <| bdev := 1 |> <| bblockno := 2 |> <| bflags := 0 |> <| brefcnt := 1 |>).
  assert (Hx1 : bufs io1 !! b = Some x1) by (unfold io1; cbn; rewrite list_lookup_alter_eq, Hx; reflexivity).
  assert (Hfree : sl_locked (bsleep x1) = 0) by (pose proof (Hcore b x Hx) as E; destruct x; unfold core, setf in E; cbn in E; by injection E as _ _ _ -> _ _).
  assert (Ha : acquiresleep 7 (bsleep x1) = Ret true ((bsleep x1) <| sl_locked := 1 |> <| sl_pid := 7 |>)) by (by rewrite acquiresleep_cases, Hfree).
  pose proof (on_lock_ok io1 b x1 _ _ _ Hx1 Ha) as Hlk. set (io2 := io1 <| bufs ::= _ |>) in Hlk.
  pose proof (bs_lock io1 thr1 view4 0%nat 7 b (1, 2) io2 eq_refl Hlk) as Hs2. set (thr2 := <[0%nat := (7, BLocked b (1, 2))]> thr1) in Hs2.
  pose proof (bstep_binv _ _ (bstep_binv _ _ Hi0 Hs1) Hs2) as Hi2.
  destruct (cache_progress io2 thr2 view4 0%nat 7 (BLocked b (1, 2)) Hi2 eq_refl) as (r & io3 & Hf).
  pose proof (bs_fill io2 thr2 view4 0%nat 7 b (1, 2) r io3 eq_refl Hf) as Hs3. pose proof (bstep_binv _ _ Hi2 Hs3) as Hi3.
  set (thr3 := <[0%nat := (7, if r then BDisk b (1, 2) else BHave b (1, 2) false)]> thr2) in *.
  assert (Hdone : exists y, rtc bstep (BSys io3 thr3 view4) y /\ binv y /\ b_thr y !! 0%nat = Some (7, BHave b (1, 2) false) /\ b_view y = view4 /\ b_io y = io3).
  { destruct r; [|exists (BSys io3 thr3 view4); by split_and!].
    destruct (thread_buf io3 thr3 view4 0%nat 7 _ b (1, 2) Hi3 eq_refl eq_refl) as (x3 & _ & Hx3 & _ & _ & _ & _ & Hbo).
    pose proof (bi_thr _ Hi3 0%nat 7 _ eq_refl) as (_ & _ & _ & x3' & Hx3' & _ & Hfl). cbn in Hx3'. rewrite Hx3 in Hx3'. injection Hx3' as <-.
    destruct Hfl as [Hfl|Hfl]; [|change (b ∈ @nil nat) in Hfl; by apply elem_of_nil in Hfl].
    assert (Hd3 : iderw_done b io3 = Ret true io3) by (unfold iderw_done; rewrite (bind_ret _ _ _ _ _ (get_buf_ok io3 b x3 Hx3)); by rewrite Hfl).
    pose proof (bs_done io3 thr3 view4 0%nat 7 b (1, 2) io3 eq_refl Hd3) as Hs4. eexists. split; [by apply rtc_once|].
    split_and!; [by eapply bstep_binv|done|done|done]. }
  destruct Hdone as ([io4 thr4 v4] & Hr4 & Hi4 & Ht4 & Hv4 & Hio4). cbn in Ht4, Hv4, Hio4. subst io4 v4.
  destruct (thread_buf io3 thr4 view4 0%nat 7 _ b (1, 2) Hi4 Ht4 eq_refl) as (x4 & _ & Hx4 & Hk4 & _ & Hplat & _ & Hbo4).
  pose proof (bs_change io3 thr4 view4 0%nat 7 b (1, 2) false (replicate 512 9) _ Ht4 eq_refl (upd_buf_ok io3 b x4 _ Hx4)) as Hs5.
  eexists _, _, b. split; [exact Hb|]. split.
  { eapply rtc_l; [exact Hs1|]. eapply rtc_l; [exact Hs2|]. eapply rtc_l; [exact Hs3|]. etransitivity; [exact Hr4|]. apply rtc_once, Hs5. }
  cbn [b_thr]. by eapply thr_insert_eq.
Qed.

Lemma block_has_one_user_witness :
  exists (y : bsys memide) b, b_thr y !! 0%nat = Some (7, BHave b (1, 2) true) /\
  forall t pid b k m, b_thr y !! t = Some (pid, BHave b k m) ->
    (exists x, bufs (b_io y) !! b = Some x /\ bkey x = k /\ b_view y !! k = Some (bdata x)) /\
    forall t' pid' b' k' m', b_thr y !! t' = Some (pid', BHave b' k' m') -> t' <> t -> k' <> k.
Proof.
  destruct sample4 as (y0 & y & b & Hb & Hr & Ht). exists y, b. split; [exact Ht|].
  apply (block_has_one_user y0 y Hb Hr).
Defined.

Lemma cache_keeps_unwritten_witness :
  exists (y : bsys memide) b, b_thr y !! 0%nat = Some (7, BHave b (1, 2) true) /\
  forall dev no, dev <> 0 -> b_view y !! (dev, no) = platter (drv (b_io y)) dev no \/
    exists b x, bufs (b_io y) !! b = Some x /\ bkey x = (dev, no) /\ b_view y !! (dev, no) = Some (bdata x) /\
      (dirtyb x = true \/ exists t pid k, b_thr y !! t = Some (pid, BHave b k true)) /\ unused (bufs (b_io y)) b = false.
Proof.
  destruct sample4 as (y0 & y & b & Hb & Hr & Ht). exists y, b. split; [exact Ht|].
  apply (cache_keeps_unwritten y0 y Hb Hr).
Defined.

Lemma cache_operations_return_witness :
  exists (y : bsys memide) b, b_thr y !! 0%nat = Some (7, BHave b (1, 2) true) /\
    (exists io', bwrite 7 b (b_io y) = Ret tt io') /\ exists io', brelse_unlock 7 b (b_io y) = Ret tt io'.
Proof.
  destruct sample4 as (y0 & y & b & Hb & Hr & Ht). exists y, b. split; [exact Ht|].
  apply (cache_operations_return y0 y Hb Hr _ _ _ Ht).
Defined.
