(* ===== verification/Fs.v ===== *)
(** * Fs: the file system of fs.c

    Blocks, inodes, files, directories and paths, as fs.c has them.  The layers
    below are used through their contracts: [bread] gives the contents of a
    block as the running operations have made them, and [log_write] changes it
    ([log_refines_transactions] of Log.v, [block_has_one_user] of BioSys.v).
    [flog] records the blocks that were given to [log_write].

    The inode cache is the array [icache.inode]; a pointer to an inode is its
    index.  Its sleep locks are those of Sleeplock.v: an operation that must
    wait for a lock cannot go on from this state ([spin]).  [mypid] is the
    running process, [cwd] its current directory.  The device switch table
    [devsw] is filled by the drivers; it is an argument. *)

From S2P Require Import Prelude Mem Sleeplock Log.

Definition ROOTINO : Z := 1.
Definition ROOTDEV : Z := 1.
Definition BPB : Z := 4096.
Definition IPB : Z := 8.
Definition NDIRECT : Z := 12.
Definition NINDIRECT : Z := 128.
Definition MAXFILE : Z := 140.
Definition NINODE : nat := 50.
Definition NDEV : Z := 10.
Definition DIRSIZ : nat := 14.
Definition T_DIR : Z := 1.
Definition T_FILE : Z := 2.
Definition T_DEV : Z := 3.

Definition s16 (x : Z) : Z := (x + 2 ^ 15) mod 2 ^ 16 - 2 ^ 15.

Record superblock := SuperBlock {
  sb_size : Z; sb_nblocks : Z; sb_ninodes : Z; sb_nlog : Z; sb_logstart : Z; sb_inodestart : Z; sb_bmapstart : Z
}.

(** The part of an inode that is on the disk. *)
Record dinode := Dinode { d_type : Z; d_major : Z; d_minor : Z; d_nlink : Z; d_size : Z; d_addrs : list Z }.
#[export] Instance eta_dinode : Eta dinode := fun r =>
  Dinode (d_type r) (d_major r) (d_minor r) (d_nlink r) (d_size r) (d_addrs r).

Record inode := Inode { i_dev : Z; i_inum : Z; i_ref : Z; i_lock : sleeplock; i_valid : bool; i_d : dinode }.
#[export] Instance eta_inode : Eta inode := fun r => Inode (i_dev r) (i_inum r) (i_ref r) (i_lock r) (i_valid r) (i_d r).

Record fs := FsState { fview : gmap (Z * Z) block; flog : list (Z * Z); fsb : superblock; icache : list inode }.
#[export] Instance eta_fs : Eta fs := fun r => FsState (fview r) (flog r) (fsb r) (icache r).

Definition BBLOCK (b : Z) (s : superblock) : Z := u32 (b / BPB + sb_bmapstart s).
Definition IBLOCK (i : Z) (s : superblock) : Z := u32 (i / IPB + sb_inodestart s).

(** ** Blocks *)

Definition bread (dev b : Z) : M fs block := s ← gets fview;
  match s !! (dev, b) with Some d => mret d | None => panic "incorrect blockno" end.
Definition log_write (dev b : Z) (d : block) : M fs unit :=
  modify (fun s => s <| fview ::= <[(dev, b) := d]> |> <| flog ::= fun l => l ++ [(dev, b)] |>).

Definition word (d : block) (i : nat) : option Z := get32 d (4 * i).

Definition readsb (dev : Z) : M fs superblock :=
  d ← bread dev 1;
  w0 ← deref (word d 0); w1 ← deref (word d 1); w2 ← deref (word d 2); w3 ← deref (word d 3);
  w4 ← deref (word d 4); w5 ← deref (word d 5); w6 ← deref (word d 6);
  mret (SuperBlock w0 w1 w2 w3 w4 w5 w6).

Definition bzero (dev bno : Z) : M fs unit :=
  d ← bread dev bno;
  log_write dev bno (replicate (length d) 0).

Definition bit_mask (bi : Z) : Z := Z.shiftl 1 (bi mod 8).

(** The inner loop of [balloc]: the first bit that is clear. *)
Fixpoint balloc_bits (d : block) (bis : list Z) : M fs (option Z) :=
  match bis with
  | [] => mret None
  | bi :: bis' =>
      c ← deref (aget d (bi / 8));
      if Z.land c (bit_mask bi) =? 0 then mret (Some bi) else balloc_bits d bis'
  end.

(** The outer loop, over the blocks of the map. *)
Fixpoint balloc_blocks (dev : Z) (bs : list Z) : M fs Z :=
  match bs with
  | [] => panic "balloc: out of blocks"
  | b :: bs' =>
      sb ← gets fsb;
      d ← bread dev (BBLOCK b sb);
      r ← balloc_bits d (seqZ 0 (Z.min BPB (sb_size sb - b)));
      match r with
      | Some bi =>
          c ← deref (aget d (bi / 8));
          log_write dev (BBLOCK b sb) (aset d (bi / 8) (Z.lor c (bit_mask bi)));;
          bzero dev (b + bi);;
          mret (b + bi)
      | None => balloc_blocks dev bs'
      end
  end.

(** The values of [b] in [for(b = 0; b < sb.size; b += BPB)]. *)
Definition map_steps (size : Z) : list Z := (fun i => i * BPB) <$> seqZ 0 ((size + BPB - 1) / BPB).

Definition balloc (dev : Z) : M fs Z :=
  sb ← gets fsb; balloc_blocks dev (map_steps (sb_size sb)).

Definition bfree (dev b : Z) : M fs unit :=
  sb ← gets fsb;
  d ← bread dev (BBLOCK b sb);
  let bi := b mod BPB in
  c ← deref (aget d (bi / 8));
  if Z.land c (bit_mask bi) =? 0 then panic "freeing free block"
  else log_write dev (BBLOCK b sb) (aset d (bi / 8) (Z.land c (Z.lnot (bit_mask bi)))).

(** ** Inodes *)

Definition get16 (d : block) (off : nat) : option Z :=
  b0 ← d !! off; b1 ← d !! (off + 1)%nat; Some (b0 + 2 ^ 8 * b1).
Definition put16 (d : block) (off : nat) (v : Z) : block := list_inserts off [u8 v; u8 (Z.shiftr v 8)] d.

Fixpoint get_words (d : block) (off n : nat) : option (list Z) :=
  match n with
  | O => Some []
  | S n => w ← get32 d off; l ← get_words d (off + 4) n; Some (w :: l)
  end.
Fixpoint put_words (d : block) (off : nat) (ws : list Z) : block :=
  match ws with [] => d | w :: ws => put_words (put32 d off w) (off + 4) ws end.

(** [(struct dinode*\)bp->data + inum%IPB]. *)
Definition dip (inum : Z) : nat := Z.to_nat (inum mod IPB * 64).

Definition get_dinode (d : block) (p : nat) : option dinode :=
  t ← get16 d p; ma ← get16 d (p + 2); mi ← get16 d (p + 4); nl ← get16 d (p + 6); sz ← get32 d (p + 8);
  ads ← get_words d (p + 12) 13;
  Some (Dinode (s16 t) (s16 ma) (s16 mi) (s16 nl) sz ads).
Definition put_dinode (d : block) (p : nat) (i : dinode) : block :=
  put_words (put32 (put16 (put16 (put16 (put16 d p (d_type i)) (p + 2) (d_major i)) (p + 4) (d_minor i))
                     (p + 6) (d_nlink i)) (p + 8) (d_size i)) (p + 12) (d_addrs i).

Definition get_ip (ip : nat) : M fs inode := s ← gets icache; deref (s !! ip).
Definition upd_ip (ip : nat) (f : inode -> inode) : M fs unit :=
  _ ← get_ip ip; modify (fun s => s <| icache ::= alter f ip |>).

Definition iget (dev inum : Z) : M fs nat :=
  c ← gets icache;
  match findi (fun i => (i_ref i >? 0) && (i_dev i =? dev) && (i_inum i =? inum)) c with
  | Some ip => upd_ip ip (fun i => i <| i_ref ::= fun n => s32 (n + 1) |>);; mret ip
  | None =>
      match findi (fun i => i_ref i =? 0) c with
      | None => panic "iget: no inodes"
      | Some ip => upd_ip ip (fun i => i <| i_dev := dev |> <| i_inum := inum |> <| i_ref := 1 |> <| i_valid := false |>);; mret ip
      end
  end.

(** The loop of [ialloc]. *)
Fixpoint ialloc_from (dev type : Z) (inums : list Z) : M fs nat :=
  match inums with
  | [] => panic "ialloc: no inodes"
  | inum :: rest =>
      sb ← gets fsb;
      d ← bread dev (IBLOCK inum sb);
      t ← deref (get16 d (dip inum));
      if s16 t =? 0 then
        log_write dev (IBLOCK inum sb) (put16 (list_inserts (dip inum) (replicate 64 0) d) (dip inum) type);;
        iget dev inum
      else ialloc_from dev type rest
  end.
Definition ialloc (dev type : Z) : M fs nat :=
  sb ← gets fsb; ialloc_from dev type (seqZ 1 (sb_ninodes sb - 1)).

Definition iupdate (ip : nat) : M fs unit :=
  i ← get_ip ip;
  sb ← gets fsb;
  d ← bread (i_dev i) (IBLOCK (i_inum i) sb);
  log_write (i_dev i) (IBLOCK (i_inum i) sb) (put_dinode d (dip (i_inum i)) (i_d i)).

Definition idup (ip : nat) : M fs nat := upd_ip ip (fun i => i <| i_ref ::= fun n => s32 (n + 1) |>);; mret ip.

Definition on_ilock {A} (ip : nat) (m : M sleeplock A) : M fs A :=
  i ← get_ip ip;
  match m (i_lock i) with
  | Ret a l => upd_ip ip (fun i => i <| i_lock := l |>);; mret a
  | Panic msg => panic msg | Undef => undef | Spin => spin
  end.

(** [iinit]: the locks, and the super block. *)
Definition iinit (dev : Z) : M fs unit :=
  for_each (seq 0 NINODE) (fun i => on_ilock i initsleeplock);;
  sb ← readsb dev;
  modify (fun s => s <| fsb := sb |>).

Section Process.
Context (mypid : Z) (cwd : nat).

(** Take an inode's lock; a process that finds it taken waits. *)
Definition take_ilock (ip : nat) : M fs unit := ok ← on_ilock ip (acquiresleep mypid); if ok : bool then mret tt else spin.

Definition ilock (ip : nat) : M fs unit :=
  i ← get_ip ip;
  if i_ref i <? 1 then panic "ilock"
  else
    take_ilock ip;;
    i ← get_ip ip;
    if i_valid i then mret tt
    else
      sb ← gets fsb;
      d ← bread (i_dev i) (IBLOCK (i_inum i) sb);
      di ← deref (get_dinode d (dip (i_inum i)));
      upd_ip ip (fun i => i <| i_d := di |> <| i_valid := true |>);;
      if d_type di =? 0 then panic "ilock: no type" else mret tt.

Definition iunlock (ip : nat) : M fs unit :=
  h ← on_ilock ip (holdingsleep mypid);
  i ← get_ip ip;
  if negb h || (i_ref i <? 1) then panic "iunlock" else on_ilock ip releasesleep.

(** ** Inode content *)

Definition set_addr (ip : nat) (k v : Z) : M fs unit :=
  upd_ip ip (fun i => i <| i_d ::= fun d => d <| d_addrs ::= fun l => aset l k v |> |>).

(** [if((addr = ip->addrs[k]) == 0) ip->addrs[k] = addr = balloc(ip->dev);] *)
Definition addr_or_alloc (ip : nat) (k : Z) : M fs Z :=
  i ← get_ip ip;
  addr ← deref (aget (d_addrs (i_d i)) k);
  if addr =? 0 then b ← balloc (i_dev i); set_addr ip k b;; mret b else mret addr.

Definition bmap (ip : nat) (bn : Z) : M fs Z :=
  if bn <? NDIRECT then addr_or_alloc ip bn
  else
    let bn := bn - NDIRECT in
    if bn <? NINDIRECT then
      addr ← addr_or_alloc ip NDIRECT;
      i ← get_ip ip;
      d ← bread (i_dev i) addr;
      a ← deref (word d (Z.to_nat bn));
      if a =? 0 then
        b ← balloc (i_dev i);
        log_write (i_dev i) addr (put32 d (4 * Z.to_nat bn) b);;
        mret b
      else mret a
    else panic "bmap: out of range".

Definition itrunc (ip : nat) : M fs unit :=
  for_each (seqZ 0 NDIRECT) (fun k =>
    i ← get_ip ip;
    a ← deref (aget (d_addrs (i_d i)) k);
    if a =? 0 then mret tt else bfree (i_dev i) a;; set_addr ip k 0);;
  i ← get_ip ip;
  ind ← deref (aget (d_addrs (i_d i)) NDIRECT);
  (if ind =? 0 then mret tt
   else
     d ← bread (i_dev i) ind;
     for_each (seq 0 (Z.to_nat NINDIRECT)) (fun j =>
       a ← deref (word d j);
       if a =? 0 then mret tt else bfree (i_dev i) a);;
     bfree (i_dev i) ind;;
     set_addr ip NDIRECT 0);;
  upd_ip ip (fun i => i <| i_d ::= fun d => d <| d_size := 0 |> |>);;
  iupdate ip.

Definition iput (ip : nat) : M fs unit :=
  take_ilock ip;;
  i ← get_ip ip;
  (if i_valid i && (d_nlink (i_d i) =? 0) && (i_ref i =? 1) then
     itrunc ip;;
     upd_ip ip (fun i => i <| i_d ::= fun d => d <| d_type := 0 |> |>);;
     iupdate ip;;
     upd_ip ip (fun i => i <| i_valid := false |>)
   else mret tt);;
  on_ilock ip releasesleep;;
  upd_ip ip (fun i => i <| i_ref ::= fun n => s32 (n - 1) |>).

Definition iunlockput (ip : nat) : M fs unit := iunlock ip;; iput ip.

Record stat := Stat { st_type : Z; st_dev : Z; st_ino : Z; st_nlink : Z; st_size : Z }.
Definition stati (ip : nat) : M fs stat :=
  i ← get_ip ip;
  mret (Stat (d_type (i_d i)) (i_dev i) (i_inum i) (d_nlink (i_d i)) (d_size (i_d i))).

(** The device switch: [devsw[major].read] and [.write], if there are any. *)
Context (devread : Z -> option (nat -> Z -> M fs (Z * list Z))) (devwrite : Z -> option (nat -> list Z -> M fs Z)).

(** The loop of [readi]: the bytes from [off], [n - tot] of them to go. *)
Fixpoint readi_loop (fuel : nat) (ip : nat) (off todo : Z) : M fs (list Z) :=
  if todo <=? 0 then mret []
  else
    match fuel with
    | O => spin
    | S fuel =>
        i ← get_ip ip;
        b ← bmap ip (off / 512);
        d ← bread (i_dev i) b;
        let m := Z.min todo (512 - off mod 512) in
        rest ← readi_loop fuel ip (u32 (off + m)) (todo - m);
        mret (take (Z.to_nat m) (drop (Z.to_nat (off mod 512)) d) ++ rest)
    end.

Definition readi (ip : nat) (off n : Z) : M fs (Z * list Z) :=
  i ← get_ip ip;
  if d_type (i_d i) =? T_DEV then
    let major := d_major (i_d i) in
    if (major <? 0) || (major >=? NDEV) then mret (-1, [])
    else match devread major with None => mret (-1, []) | Some read => read ip n end
  else
    let size := d_size (i_d i) in
    if (off >? size) || (u32 (off + n) <? off) then mret (-1, [])
    else
      let n := if u32 (off + n) >? size then u32 (size - off) else n in
      bs ← readi_loop (Z.to_nat n) ip off n;
      mret (s32 n, bs).

Fixpoint writei_loop (fuel : nat) (ip : nat) (off : Z) (src : list Z) : M fs Z :=
  match src with
  | [] => mret off
  | _ =>
    match fuel with
    | O => spin
    | S fuel =>
        i ← get_ip ip;
        b ← bmap ip (off / 512);
        d ← bread (i_dev i) b;
        let m := Z.min (Z.of_nat (length src)) (512 - off mod 512) in
        log_write (i_dev i) b (list_inserts (Z.to_nat (off mod 512)) (take (Z.to_nat m) src) d);;
        writei_loop fuel ip (u32 (off + m)) (drop (Z.to_nat m) src)
    end
  end.

(** [writei] of the bytes [src]; [n] is their number. *)
Definition writei (ip : nat) (src : list Z) (off : Z) : M fs Z :=
  i ← get_ip ip;
  let n := Z.of_nat (length src) in
  if d_type (i_d i) =? T_DEV then
    let major := d_major (i_d i) in
    if (major <? 0) || (major >=? NDEV) then mret (-1)
    else match devwrite major with None => mret (-1) | Some write => write ip src end
  else
    if (off >? d_size (i_d i)) || (u32 (off + n) <? off) then mret (-1)
    else if u32 (off + n) >? MAXFILE * 512 then mret (-1)
    else
      off' ← writei_loop (length src) ip off src;
      i ← get_ip ip;
      (if (n >? 0) && (off' >? d_size (i_d i)) then
         upd_ip ip (fun i => i <| i_d ::= fun d => d <| d_size := off' |> |>);; iupdate ip
       else mret tt);;
      mret (s32 n).

(** ** Directories *)

(** [strncmp] and [strncpy] on names; a name that is shorter than its field ends
    with a NUL. *)
Fixpoint strncmp_name (n : nat) (p q : list Z) : Z :=
  match n with
  | O => 0
  | S n =>
      let x := hd 0 p in let y := hd 0 q in
      if negb (x =? 0) && (x =? y) then strncmp_name n (tl p) (tl q) else x - y
  end.
Definition namecmp (s t : list Z) : Z := strncmp_name DIRSIZ s t.

Fixpoint strncpy_name (n : nat) (t : list Z) : list Z :=
  match n with
  | O => []
  | S n => let x := hd 0 t in if x =? 0 then replicate (S n) 0 else x :: strncpy_name n (tl t)
  end.

(** The values of [off] in [for(off = 0; off < dp->size; off += sizeof(de))]. *)
Definition dir_steps (size : Z) : list Z := (fun i => i * 16) <$> seqZ 0 ((size + 15) / 16).

Definition de_inum (de : list Z) : option Z := get16 de 0.
Definition de_name (de : list Z) : list Z := drop 2 de.

Fixpoint dirlookup_from (dp : nat) (name : list Z) (offs : list Z) : M fs (option (nat * Z)) :=
  match offs with
  | [] => mret None
  | off :: offs' =>
      r ← readi dp off 16;
      if negb (r.1 =? 16) then panic "dirlookup read"
      else
        inum ← deref (de_inum r.2);
        if inum =? 0 then dirlookup_from dp name offs'
        else if namecmp name (de_name r.2) =? 0 then
          i ← get_ip dp;
          ip ← iget (i_dev i) inum;
          mret (Some (ip, off))
        else dirlookup_from dp name offs'
  end.

(** The inode of the entry and its offset, which is stored in [*poff]. *)
Definition dirlookup (dp : nat) (name : list Z) : M fs (option (nat * Z)) :=
  i ← get_ip dp;
  if negb (d_type (i_d i) =? T_DIR) then panic "dirlookup not DIR"
  else dirlookup_from dp name (dir_steps (d_size (i_d i))).

(** Look for an empty dirent: its offset, or the one after the last. *)
Fixpoint dirlink_from (dp : nat) (offs : list Z) (last : Z) : M fs Z :=
  match offs with
  | [] => mret last
  | off :: offs' =>
      r ← readi dp off 16;
      if negb (r.1 =? 16) then panic "dirlink read"
      else
        inum ← deref (de_inum r.2);
        if inum =? 0 then mret off else dirlink_from dp offs' (off + 16)
  end.

Definition dirlink (dp : nat) (name : list Z) (inum : Z) : M fs Z :=
  e ← dirlookup dp name;
  match e with
  | Some (ip, _) => iput ip;; mret (-1)
  | None =>
      i ← get_ip dp;
      off ← dirlink_from dp (dir_steps (d_size (i_d i))) 0;
      r ← writei dp ([u8 inum; u8 (Z.shiftr inum 8)] ++ strncpy_name DIRSIZ name) off;
      if negb (r =? 16) then panic "dirlink" else mret 0
  end.

(** ** Paths *)

Definition SLASH : Z := 47.

(** [while( *path == '/') path++;] *)
Fixpoint skip_slashes (path : list Z) : list Z :=
  match path with c :: p => if c =? SLASH then skip_slashes p else path | [] => [] end.

(** [while( *path != '/' && *path != 0) path++;]: what it passes and the rest. *)
Fixpoint elem (path : list Z) : list Z * list Z :=
  match path with
  | c :: p => if c =? SLASH then ([], path) else let r := elem p in (c :: r.1, r.2)
  | [] => ([], [])
  end.

(** The next path element and the path after it. *)
Definition skipelem (path : list Z) : option (list Z * list Z) :=
  match skip_slashes path with
  | [] => None
  | path => let (s, rest) := elem path in Some (take DIRSIZ s, skip_slashes rest)
  end.

(** The loop of [namex], from the inode [ip]. *)
Fixpoint namex_loop (fuel : nat) (nameiparent : bool) (ip : nat) (path name : list Z) : M fs (option nat * list Z) :=
  match skipelem path with
  | None => if nameiparent then iput ip;; mret (None, name) else mret (Some ip, name)
  | Some (name, path) =>
      match fuel with
      | O => spin
      | S fuel =>
          ilock ip;;
          i ← get_ip ip;
          if negb (d_type (i_d i) =? T_DIR) then iunlockput ip;; mret (None, name)
          else if nameiparent && (match path with [] => true | _ => false end) then iunlock ip;; mret (Some ip, name)
          else
            e ← dirlookup ip name;
            match e with
            | None => iunlockput ip;; mret (None, name)
            | Some (next, _) => iunlockput ip;; namex_loop fuel nameiparent next path name
            end
      end
  end.

Definition namex (path : list Z) (nameiparent : bool) : M fs (option nat * list Z) :=
  ip ← (if hd 0 path =? SLASH then iget ROOTDEV ROOTINO else idup cwd);
  namex_loop (length path) nameiparent ip path [].

Definition namei (path : list Z) : M fs (option nat) := r ← namex path false; mret r.1.
Definition nameiparent (path : list Z) : M fs (option nat * list Z) := namex path true.
End Process.
