(* ===== verification/FsAlloc.v ===== *)
(** * FsAlloc: the block allocator of fs.c

    The free map, as [balloc] and [bfree] use it, is a set of blocks: [balloc]
    takes the first free block out of it and zeroes the block, [bfree] puts a
    block back, and neither touches anything else. *)

From S2P Require Import Prelude Mem Log Fs.

(** ** Bits of the map *)

Definition bit_at (d : block) (bi : Z) : bool :=
  match aget d (bi / 8) with Some c => Z.testbit c (bi mod 8) | None => true end.

Definition in_use (s : fs) (dev b : Z) : bool :=
  match fview s !! (dev, BBLOCK b (fsb s)) with Some d => bit_at d (b mod BPB) | None => true end.

Lemma land_mask c bi : (Z.land c (bit_mask bi) =? 0) = negb (Z.testbit c (bi mod 8)).
Proof.
  unfold bit_mask. rewrite Z.shiftl_1_l. assert (Hk : 0 <= bi mod 8) by zlia. set (k := bi mod 8) in *.
  destruct (Z.testbit c k) eqn:E; cbn [negb].
  - apply Z.eqb_neq. intros H0. apply (f_equal (fun z => Z.testbit z k)) in H0.
    rewrite Z.land_spec, E, Z.pow2_bits_true, Z.bits_0 in H0 by done. done.
  - apply Z.eqb_eq. apply Z.bits_inj'. intros n Hn. rewrite Z.land_spec, Z.bits_0.
    destruct (decide (n = k)) as [->|Hne]; [by rewrite E|]. rewrite Z.pow2_bits_false by done. apply andb_false_r.
Qed.

Lemma testbit_set c k n : 0 <= k -> 0 <= n -> Z.testbit (Z.lor c (Z.shiftl 1 k)) n = (Z.testbit c n || (n =? k)).
Proof.
  intros Hk Hn. rewrite Z.lor_spec, Z.shiftl_1_l, Z.pow2_bits_eqb by done. f_equal. apply Z.eqb_sym.
Qed.

Lemma testbit_clear c k n : 0 <= k -> 0 <= n ->
  Z.testbit (Z.land c (Z.lnot (Z.shiftl 1 k))) n = (Z.testbit c n && negb (n =? k)).
Proof.
  intros Hk Hn. rewrite Z.land_spec, Z.lnot_spec, Z.shiftl_1_l, Z.pow2_bits_eqb by done. by rewrite (Z.eqb_sym k n).
Qed.

Lemma bit_div bi bi' : bi / 8 = bi' / 8 -> bi mod 8 = bi' mod 8 -> bi = bi'.
Proof. zlia. Qed.

(** Setting and clearing one bit. *)
Lemma bit_at_set d bi bi' c : aget d (bi / 8) = Some c ->
  bit_at (aset d (bi / 8) (Z.lor c (bit_mask bi))) bi' = (bit_at d bi' || (bi' =? bi)).
Proof.
  intros Hc. unfold bit_at, bit_mask. destruct (decide (bi' / 8 = bi / 8)) as [E|E].
  - rewrite E, aget_aset_eq by (by eapply aget_Some_range). rewrite Hc. rewrite testbit_set by zlia. f_equal.
    destruct (Z.eqb_spec (bi' mod 8) (bi mod 8)), (Z.eqb_spec bi' bi); try done; [exfalso; eauto using bit_div|congruence].
  - rewrite aget_aset_ne by done. destruct (Z.eqb_spec bi' bi) as [->|]; [done|]. by rewrite orb_false_r.
Qed.

Lemma bit_at_clear d bi bi' c : aget d (bi / 8) = Some c ->
  bit_at (aset d (bi / 8) (Z.land c (Z.lnot (bit_mask bi)))) bi' = (bit_at d bi' && negb (bi' =? bi)).
Proof.
  intros Hc. unfold bit_at, bit_mask. destruct (decide (bi' / 8 = bi / 8)) as [E|E].
  - rewrite E, aget_aset_eq by (by eapply aget_Some_range). rewrite Hc. rewrite testbit_clear by zlia. f_equal. f_equal.
    destruct (Z.eqb_spec (bi' mod 8) (bi mod 8)), (Z.eqb_spec bi' bi); try done; [exfalso; eauto using bit_div|congruence].
  - rewrite aget_aset_ne by done. destruct (Z.eqb_spec bi' bi) as [->|]; [done|]. by rewrite andb_true_r.
Qed.

(** ** The map of a device *)

(** The blocks of the free map and of the inodes. *)
Definition meta (sb : superblock) (b : Z) : Prop :=
  (exists b', 0 <= b' < sb_size sb /\ b = BBLOCK b' sb) \/ (exists i, 0 <= i < sb_ninodes sb /\ b = IBLOCK i sb).

(** Every block of the file system is there; block 0 and the blocks of the map
    and of the inodes are marked as used. *)

Record map_ok (s : fs) (dev : Z) : Prop := {
  mo_size : 0 <= sb_size (fsb s) < 2 ^ 31;
  mo_start : 0 <= sb_bmapstart (fsb s) < 2 ^ 31;
  mo_blocks : forall b, 0 <= b < sb_size (fsb s) -> exists d, fview s !! (dev, b) = Some d /\ length d = 512%nat;
  mo_map : forall b, 0 <= b < sb_size (fsb s) -> 0 <= BBLOCK b (fsb s) < sb_size (fsb s);
  mo_inodes : forall i, 0 <= i < sb_ninodes (fsb s) -> 0 <= IBLOCK i (fsb s) < sb_size (fsb s) /\
    forall b, 0 <= b < sb_size (fsb s) -> IBLOCK i (fsb s) <> BBLOCK b (fsb s);
  mo_meta : forall b, 0 <= b < sb_size (fsb s) -> in_use s dev b = false -> ~ meta (fsb s) b /\ b <> 0
}.

Lemma mo_self s dev b b' : map_ok s dev -> 0 <= b < sb_size (fsb s) -> 0 <= b' < sb_size (fsb s) -> in_use s dev b = false ->
  b <> BBLOCK b' (fsb s).
Proof. intros Hm Hb Hb' Hu ->. destruct (mo_meta _ _ Hm _ Hb Hu) as [Hn _]. apply Hn. left. eauto. Qed.


Lemma BBLOCK_eq s dev b : map_ok s dev -> 0 <= b < sb_size (fsb s) -> BBLOCK b (fsb s) = b / BPB + sb_bmapstart (fsb s).
Proof. intros [H1 H2 _ _ _ _] Hb. unfold BBLOCK, BPB. apply u32_small. zlia. Qed.

(** The map blocks of two blocks differ when the blocks are far apart. *)
Lemma BBLOCK_inj s dev b b' : map_ok s dev -> 0 <= b < sb_size (fsb s) -> 0 <= b' < sb_size (fsb s) ->
  BBLOCK b (fsb s) = BBLOCK b' (fsb s) -> b mod BPB = b' mod BPB -> b = b'.
Proof. intros Hm Hb Hb'. rewrite !(BBLOCK_eq s dev) by done. unfold BPB. zlia. Qed.

Lemma map_block s dev b : map_ok s dev -> 0 <= b < sb_size (fsb s) ->
  exists d, fview s !! (dev, BBLOCK b (fsb s)) = Some d /\ length d = 512%nat.
Proof. intros Hm Hb. apply (mo_blocks _ _ Hm). by apply (mo_map _ _ Hm). Qed.

Lemma bread_ok s dev b d : fview s !! (dev, b) = Some d -> bread dev b s = Ret d s.
Proof. intros H. unfold bread. msimp. by rewrite H. Qed.

(** The state after [log_write]. *)
Definition logged (s : fs) (dev b : Z) (d : block) : fs :=
  s <| fview ::= <[(dev, b) := d]> |> <| flog ::= fun l => l ++ [(dev, b)] |>.

Lemma log_write_eq s dev b d : log_write dev b d s = Ret tt (logged s dev b d).
Proof. done. Qed.

Lemma balloc_bits_ok s d bis : length d = 512%nat -> Forall (fun bi => 0 <= bi < BPB) bis ->
  balloc_bits d bis s = Ret (List.find (fun bi => negb (bit_at d bi)) bis) s.
Proof.
  intros Hd. induction bis as [|bi bis IH]; intros Hf; [done|]. apply Forall_cons in Hf as [Hb Hf]. cbn [balloc_bits List.find].
  unfold BPB in Hb. destruct (aget_is_Some d (bi / 8)) as [c Hc]; [rewrite Hd; zlia|]. rewrite Hc. cbn [deref]. rewrite ret_bind, land_mask.
  unfold bit_at at 1. rewrite Hc. destruct (Z.testbit c (bi mod 8)); cbn [negb]; [by apply IH|done].
Qed.

(** ** Allocation *)

(** What taking block [b] out of the free set changes. *)
Record allocated (s : fs) (dev b : Z) (s' : fs) : Prop := {
  al_free : in_use s dev b = false;
  al_range : 0 <= b < sb_size (fsb s);
  al_used : forall b', 0 <= b' < sb_size (fsb s) -> in_use s' dev b' = (in_use s dev b' || (b' =? b));
  al_zero : fview s' !! (dev, b) = Some (replicate 512 0);
  al_rest : forall k, k <> (dev, b) -> k <> (dev, BBLOCK b (fsb s)) -> fview s' !! k = fview s !! k;
  al_log : flog s' = flog s ++ [(dev, BBLOCK b (fsb s)); (dev, b)];
  al_sb : fsb s' = fsb s;
  al_icache : icache s' = icache s;
  al_map : map_ok s' dev
}.

Lemma balloc_found s dev b d c :
  map_ok s dev -> 0 <= b < sb_size (fsb s) -> in_use s dev b = false ->
  fview s !! (dev, BBLOCK b (fsb s)) = Some d -> length d = 512%nat -> aget d (b mod BPB / 8) = Some c ->
  exists s', (log_write dev (BBLOCK b (fsb s)) (aset d (b mod BPB / 8) (Z.lor c (bit_mask (b mod BPB))));; bzero dev b;; mret b) s = Ret b s' /\
    allocated s dev b s'.
Proof.
  intros Hm Hb Hfree Hd Hl Hc. set (d1 := aset d _ _). set (s1 := logged s dev (BBLOCK b (fsb s)) d1).
  rewrite (bind_ret _ _ _ _ _ (log_write_eq s dev _ d1)). fold s1. pose proof (mo_self _ _ b b Hm Hb Hb Hfree) as Hne.
  destruct (mo_blocks _ _ Hm b Hb) as (d0 & Hd0 & Hl0).
  assert (Hv1 : fview s1 !! (dev, b) = Some d0) by (unfold s1; cbn; rewrite lookup_insert_ne by congruence; done).
  unfold bzero. rewrite bind_assoc. rewrite (bind_ret _ _ _ _ _ (bread_ok s1 dev b d0 Hv1)), Hl0.
  eexists. split; [reflexivity|]. set (s2 := logged s1 dev b (replicate 512 0)).
  assert (Hrest : forall k, k <> (dev, b) -> k <> (dev, BBLOCK b (fsb s)) -> fview s2 !! k = fview s !! k).
  { intros k H1 H2. unfold s2, s1. cbn. by rewrite !lookup_insert_ne by congruence. }
  assert (Hmapb : fview s2 !! (dev, BBLOCK b (fsb s)) = Some d1).
  { unfold s2, s1. cbn. rewrite lookup_insert_ne by congruence. apply lookup_insert_eq. }
  assert (Hused : forall b', 0 <= b' < sb_size (fsb s) -> in_use s2 dev b' = (in_use s dev b' || (b' =? b))).
  { intros b' Hb'. unfold in_use. change (fsb s2) with (fsb s). pose proof (mo_self _ _ b b' Hm Hb Hb' Hfree) as Hn'.
    destruct (decide (BBLOCK b' (fsb s) = BBLOCK b (fsb s))) as [E|E].
    - rewrite E, Hmapb, Hd. unfold d1. rewrite bit_at_set by done. f_equal.
      destruct (Z.eqb_spec (b' mod BPB) (b mod BPB)) as [E'|], (Z.eqb_spec b' b); try done; [exfalso|congruence].
      by pose proof (BBLOCK_inj s dev b' b Hm Hb' Hb E E').
    - rewrite Hrest by congruence. destruct (Z.eqb_spec b' b) as [->|]; [done|by rewrite orb_false_r]. }
  split; try done.
  - unfold s2. cbn. apply lookup_insert_eq.
  - unfold s2, s1. cbn. by rewrite <- app_assoc.
  - destruct Hm as [M1 M2 M3 M4 M5 M6]. split; try done.
    + intros b' Hb'. destruct (decide ((dev, b') = (dev, b))) as [E|E]; [|destruct (decide ((dev, b') = (dev, BBLOCK b (fsb s)))) as [E'|E']].
      * injection E as ->. exists (replicate 512 0). split; [unfold s2; cbn; apply lookup_insert_eq|apply length_replicate].
      * injection E' as ->. exists d1. split; [done|]. unfold d1. by rewrite aset_length.
      * rewrite Hrest by done. by apply M3.
    + intros b1 H1 Hu. rewrite Hused in Hu by done. apply orb_false_iff in Hu as [Hu _]. by apply M6.
Qed.

Lemma in_use_seq s dev k n d : map_ok s dev -> 0 <= k -> 0 < n -> k * BPB + n <= sb_size (fsb s) -> n <= BPB ->
  fview s !! (dev, BBLOCK (k * BPB) (fsb s)) = Some d ->
  List.find (fun b => negb (in_use s dev b)) (seqZ (k * BPB) n) =
  (fun bi => k * BPB + bi) <$> List.find (fun bi => negb (bit_at d bi)) (seqZ 0 n).
Proof.
  intros Hm Hk Hn Hs Hb Hd. rewrite <- (Z.add_0_r (k * BPB)) at 1. rewrite <- fmap_add_seqZ.
  assert (H : forall bi, 0 <= bi < n -> in_use s dev (k * BPB + bi) = bit_at d bi).
  { intros bi Hbi. unfold in_use. unfold BPB in *. replace (BBLOCK (k * 4096 + bi) (fsb s)) with (BBLOCK (k * 4096) (fsb s)).
    - rewrite Hd. f_equal. zlia.
    - rewrite !(BBLOCK_eq s dev) by (done || lia). unfold BPB. f_equal. zlia. }
  assert (Hin : Forall (fun bi => 0 <= bi < n) (seqZ 0 n)) by (apply Forall_forall; intros x ?%elem_of_seqZ; lia).
  clear Hd. induction (seqZ 0 n) as [|bi l IH]; [done|]. apply Forall_cons in Hin as [H1 H2]. cbn [fmap list_fmap List.find].
  rewrite (H bi H1). destruct (bit_at d bi); cbn [negb]; [by apply IH|done].
Qed.

Definition first_free (s : fs) (dev : Z) (bs : list Z) : option Z := List.find (fun b => negb (in_use s dev b)) bs.

Lemma find_app {A} (f : A -> bool) l1 l2 : List.find f (l1 ++ l2) = match List.find f l1 with Some x => Some x | None => List.find f l2 end.
Proof. induction l1 as [|x l1 IH]; [done|]. cbn. by destruct (f x). Qed.

Lemma balloc_blocks_ok s dev k n : map_ok s dev -> 0 <= k -> 0 <= n -> k + n = (sb_size (fsb s) + BPB - 1) / BPB ->
  match first_free s dev (seqZ (k * BPB) (sb_size (fsb s) - k * BPB)) with
  | Some b => exists s', balloc_blocks dev ((fun i => i * BPB) <$> seqZ k n) s = Ret b s' /\ allocated s dev b s'
  | None => balloc_blocks dev ((fun i => i * BPB) <$> seqZ k n) s = Panic "balloc: out of blocks"
  end.
Proof.
  intros Hm Hk Hn. revert k Hk. pattern n. apply natlike_ind; [| |done].
  - intros k Hk Hkn. replace (seqZ (k * BPB) (sb_size (fsb s) - k * BPB)) with (@nil Z); [done|].
    symmetry. apply seqZ_nil. unfold BPB in *. zlia.
  - clear n Hn. intros n Hn IH k Hk Hkn. rewrite (seqZ_cons k (Z.succ n)) by lia. cbn [fmap list_fmap balloc_blocks].
    replace (Z.pred (Z.succ n)) with n by lia. replace (Z.succ k) with (k + 1) by lia.
    rewrite (bind_ret (gets fsb) _ _ _ _ eq_refl).
    assert (Hb : 0 <= k * BPB < sb_size (fsb s)) by (unfold BPB in *; zlia).
    destruct (map_block s dev (k * BPB) Hm Hb) as (d & Hd & Hl). rewrite (bind_ret _ _ _ _ _ (bread_ok _ _ _ _ Hd)).
    set (w := Z.min BPB (sb_size (fsb s) - k * BPB)).
    assert (Hw : 0 < w <= BPB /\ k * BPB + w <= sb_size (fsb s)) by (unfold w, BPB in *; lia).
    rewrite (bind_ret _ _ _ _ _ (balloc_bits_ok s d (seqZ 0 w) Hl ltac:(apply Forall_forall; intros x ?%elem_of_seqZ; unfold BPB in *; lia))).
    replace (sb_size (fsb s) - k * BPB) with (w + (sb_size (fsb s) - k * BPB - w)) by lia.
    unfold first_free. rewrite seqZ_app by (unfold w, BPB in *; lia). rewrite find_app, (in_use_seq s dev k w d) by (done || lia).
    destruct (List.find (fun bi => negb (bit_at d bi)) (seqZ 0 w)) as [bi|] eqn:E.
    + cbn [fmap option_fmap option_map]. apply find_some in E as [Hin Hbit]. apply list_elem_of_In, elem_of_seqZ in Hin.
      unfold BPB in *. assert (Hmod : (k * 4096 + bi) mod 4096 = bi) by zlia.
      assert (HBB : BBLOCK (k * 4096 + bi) (fsb s) = BBLOCK (k * 4096) (fsb s)).
      { rewrite !(BBLOCK_eq s dev) by (done || lia). unfold BPB. f_equal. zlia. }
      destruct (aget_is_Some d (bi / 8)) as [c Hc]; [rewrite Hl; zlia|]. rewrite Hc. cbn [deref]. rewrite ret_bind.
      destruct (balloc_found s dev (k * 4096 + bi) d c) as (s' & Hr & Ha); [done|lia| |by rewrite HBB|done|unfold BPB; by rewrite Hmod|].
      { unfold in_use, BPB. rewrite HBB, Hd, Hmod. by apply negb_true_iff. }
      unfold BPB in Hr. rewrite HBB, Hmod in Hr. eauto.
    + cbn [fmap option_fmap option_map]. destruct (decide (n = 0)) as [->|Hn0].
      * replace (sb_size (fsb s) - k * BPB - w) with 0 by (unfold w, BPB in *; zlia). cbn. done.
      * assert (Hw' : w = BPB) by (unfold w, BPB in *; zlia). rewrite Hw'.
        replace (k * BPB + BPB) with ((k + 1) * BPB) by (unfold BPB; lia).
        replace (sb_size (fsb s) - k * BPB - BPB) with (sb_size (fsb s) - (k + 1) * BPB) by (unfold BPB; lia).
        apply (IH (k + 1)); lia.
Qed.

Lemma balloc_ok s dev : map_ok s dev ->
  match first_free s dev (seqZ 0 (sb_size (fsb s))) with
  | Some b => exists s', balloc dev s = Ret b s' /\ allocated s dev b s'
  | None => balloc dev s = Panic "balloc: out of blocks"
  end.
Proof.
  intros Hm. unfold balloc. rewrite (bind_ret (gets fsb) _ _ _ _ eq_refl). unfold map_steps.
  pose proof (balloc_blocks_ok s dev 0 ((sb_size (fsb s) + BPB - 1) / BPB) Hm ltac:(lia)) as H.
  rewrite Z.mul_0_l, Z.sub_0_r in H. apply H; [|lia]. destruct (mo_size _ _ Hm). unfold BPB. zlia.
Qed.

(** What putting block [b] back changes. *)
Record freed (s : fs) (dev b : Z) (s' : fs) : Prop := {
  fr_used : forall b', 0 <= b' < sb_size (fsb s) -> in_use s' dev b' = (in_use s dev b' && negb (b' =? b));
  fr_rest : forall k, k <> (dev, BBLOCK b (fsb s)) -> fview s' !! k = fview s !! k;
  fr_log : flog s' = flog s ++ [(dev, BBLOCK b (fsb s))];
  fr_sb : fsb s' = fsb s;
  fr_icache : icache s' = icache s;
  fr_map : ~ meta (fsb s) b -> b <> 0 -> map_ok s' dev
}.

Lemma bfree_ok s dev b : map_ok s dev -> 0 <= b < sb_size (fsb s) ->
  if in_use s dev b then exists s', bfree dev b s = Ret tt s' /\ freed s dev b s'
  else bfree dev b s = Panic "freeing free block".
Proof.
  intros Hm Hb. destruct (map_block s dev b Hm Hb) as (d & Hd & Hl). unfold bfree. rewrite (bind_ret (gets fsb) _ _ _ _ eq_refl).
  rewrite (bind_ret _ _ _ _ _ (bread_ok _ _ _ _ Hd)). cbv zeta. destruct (aget_is_Some d (b mod BPB / 8)) as [c Hc]; [rewrite Hl; unfold BPB; zlia|].
  rewrite Hc. cbn [deref]. rewrite ret_bind, land_mask. unfold in_use at 1. rewrite Hd. unfold bit_at at 1. rewrite Hc.
  destruct (Z.testbit c (b mod BPB mod 8)); cbn [negb]; [|done]. rewrite log_write_eq. eexists. split; [reflexivity|].
  set (d1 := aset d _ _). set (s' := logged s dev _ d1).
  assert (Hrest : forall k, k <> (dev, BBLOCK b (fsb s)) -> fview s' !! k = fview s !! k) by (intros k Hk; unfold s'; cbn; by apply lookup_insert_ne).
  assert (Hused : forall b', 0 <= b' < sb_size (fsb s) -> in_use s' dev b' = (in_use s dev b' && negb (b' =? b))).
  { intros b' Hb'. unfold in_use. change (fsb s') with (fsb s). destruct (decide (BBLOCK b' (fsb s) = BBLOCK b (fsb s))) as [E|E].
    - rewrite E. unfold s'. cbn. rewrite lookup_insert_eq, Hd. unfold d1. rewrite bit_at_clear by done. f_equal. f_equal.
      destruct (Z.eqb_spec (b' mod BPB) (b mod BPB)) as [E'|], (Z.eqb_spec b' b); try done; [exfalso|congruence].
      by pose proof (BBLOCK_inj s dev b' b Hm Hb' Hb E E').
    - rewrite Hrest by congruence. destruct (Z.eqb_spec b' b) as [->|]; [done|by rewrite andb_true_r]. }
  split; try done. intros Hnm Hn0. destruct Hm as [M1 M2 M3 M4 M5 M6]. split; try done.
  - intros b' Hb'. destruct (decide ((dev, b') = (dev, BBLOCK b (fsb s)))) as [E|E].
    + injection E as ->. exists d1. split; [unfold s'; cbn; apply lookup_insert_eq|]. unfold d1. by rewrite aset_length.
    + rewrite Hrest by done. by apply M3.
  - intros b1 H1 Hu. rewrite Hused in Hu by done. change (fsb s') with (fsb s).
    destruct (Z.eqb_spec b1 b) as [->|]; [done|]. rewrite andb_true_r in Hu. by apply M6.
Qed.

(** ** Clients of the allocator

    The blocks [own] were handed out and not freed since. *)

Inductive astep (dev : Z) : fs * list Z -> fs * list Z -> Prop :=
| a_alloc s own b s' : balloc dev s = Ret b s' -> astep dev (s, own) (s', b :: own)
| a_free s own b s' : b ∈ own -> bfree dev b s = Ret tt s' -> astep dev (s, own) (s', List.filter (fun x => negb (x =? b)) own).

Record aown (s : fs) (dev : Z) (own : list Z) : Prop := {
  ao_map : map_ok s dev;
  ao_nodup : NoDup own;
  ao_used : Forall (fun b => 0 <= b < sb_size (fsb s) /\ in_use s dev b = true /\ ~ meta (fsb s) b /\ b <> 0) own
}.

Lemma first_free_Some s dev b : first_free s dev (seqZ 0 (sb_size (fsb s))) = Some b -> 0 <= b < sb_size (fsb s) /\ in_use s dev b = false.
Proof.
  intros [Hin Hu]%find_some. apply list_elem_of_In, elem_of_seqZ in Hin. split; [lia|by apply negb_true_iff].
Qed.

Lemma first_free_None s dev b : first_free s dev (seqZ 0 (sb_size (fsb s))) = None -> 0 <= b < sb_size (fsb s) -> in_use s dev b = true.
Proof.
  intros Hn Hb. pose proof (find_none _ _ Hn b) as H. rewrite <- list_elem_of_In, elem_of_seqZ in H.
  apply negb_false_iff, H. lia.
Qed.

Lemma astep_own dev s own s' own' : aown s dev own -> astep dev (s, own) (s', own') -> aown s' dev own'.
Proof.
  intros [Hm Hnd Hu] Hs. inversion Hs as [? ? b ? Hr|? ? b ? Hin Hr]; simplify_eq.
  - pose proof (balloc_ok s dev Hm) as Hok. destruct (first_free s dev (seqZ 0 (sb_size (fsb s)))) as [b'|]; [|congruence].
    destruct Hok as (s1 & Hr1 & Ha). rewrite Hr in Hr1. injection Hr1 as <- <-. destruct (mo_meta _ _ Hm b (al_range _ _ _ _ Ha) (al_free _ _ _ _ Ha)) as [Hnm Hn0].
    split; [apply Ha| |].
    + apply NoDup_cons. split; [|done]. intros Hin. rewrite Forall_forall in Hu. destruct (Hu b Hin) as (_ & Hub & _).
      by rewrite (al_free _ _ _ _ Ha) in Hub.
    + rewrite (al_sb _ _ _ _ Ha). apply Forall_cons. split.
      * split_and!; [apply Ha..| |done|done]. rewrite (al_used _ _ _ _ Ha) by apply Ha. by rewrite Z.eqb_refl, orb_true_r.
      * eapply Forall_impl; [exact Hu|]. cbn. intros x (H1 & H2 & H3 & H4). split_and!; [lia|lia| |done|done].
        rewrite (al_used _ _ _ _ Ha) by done. by rewrite H2.
  - rewrite Forall_forall in Hu. destruct (Hu b Hin) as (Hb & Hub & Hnm & Hn0). pose proof (bfree_ok s dev b Hm Hb) as Hok. rewrite Hub in Hok.
    destruct Hok as (s1 & Hr1 & Hf). rewrite Hr in Hr1. injection Hr1 as <-. split; [by apply Hf| |].
    + apply NoDup_ListNoDup, List.NoDup_filter, NoDup_ListNoDup, Hnd.
    + rewrite (fr_sb _ _ _ _ Hf). apply Forall_forall. intros x Hx. apply list_elem_of_In, filter_In in Hx as [Hx Hne].
      apply list_elem_of_In in Hx. destruct (Hu x Hx) as (H1 & H2 & H3 & H4). split_and!; [lia|lia| |done|done].
      rewrite (fr_used _ _ _ _ Hf) by done. by rewrite H2, Hne.
Qed.

(** C9. In every run of allocations and frees no block is handed out twice, each
    new block is zeroed, no block of the map or of the inodes is ever handed
    out, freeing a block that is held succeeds, and allocation fails only when
    every block is in use. *)
Theorem blocks_never_shared dev s0 s own :
  map_ok s0 dev -> rtc (astep dev) (s0, []) (s, own) ->
  NoDup own /\ (forall b, b ∈ own -> ~ meta (fsb s) b /\ exists s', bfree dev b s = Ret tt s' /\ in_use s' dev b = false) /\
  ((exists b s', balloc dev s = Ret b s' /\ b ∉ own /\ fview s' !! (dev, b) = Some (replicate 512 0)) \/
   (balloc dev s = Panic "balloc: out of blocks" /\ forall b, 0 <= b < sb_size (fsb s) -> in_use s dev b = true)).
Proof.
  intros Hm Hr. assert (Ho : aown s dev own).
  { assert (H0 : aown s0 dev []) by (split; [done|apply NoDup_nil_2|by apply Forall_nil]).
    revert H0. change (aown (s0, @nil Z).1 dev (s0, @nil Z).2 -> aown (s, own).1 dev (s, own).2). clear Hm.
    induction Hr as [|[s1 o1] [s2 o2] z Hs Hr IH]; [done|]. intros H1. apply IH. by eapply astep_own. }
  destruct Ho as [Hm1 Hnd Hu]. rewrite Forall_forall in Hu. split_and!; [done| |].
  - intros b Hin. destruct (Hu b Hin) as (Hb & Hub & Hnm & _). split; [done|]. pose proof (bfree_ok s dev b Hm1 Hb) as Hok. rewrite Hub in Hok.
    destruct Hok as (s' & Hf & Hfr). exists s'. split; [done|]. rewrite (fr_used _ _ _ _ Hfr) by done. by rewrite Z.eqb_refl, andb_false_r.
  - pose proof (balloc_ok s dev Hm1) as Hok. destruct (first_free s dev (seqZ 0 (sb_size (fsb s)))) as [b|] eqn:E.
    + left. destruct Hok as (s' & Ha & Hal). exists b, s'. split_and!; [done| |apply Hal]. intros Hin. destruct (Hu b Hin) as (_ & Hub & _).
      by rewrite (al_free _ _ _ _ Hal) in Hub.
    + right. split; [done|]. intros b. by apply first_free_None.
Qed.

(** ** A small file system: 20 blocks, the inodes in block 2, the map in block 3 *)

Definition small_sb : superblock := SuperBlock 20 16 8 0 2 2 3.
Definition small_view : gmap (Z * Z) block :=
  <[(1, 3) := 15 :: replicate 511 0]> (list_to_map ((fun b => ((1, b), replicate 512 0)) <$> seqZ 0 20)).
Definition small_fs : fs := FsState small_view [] small_sb [].

Lemma small_view_at b : 0 <= b < 20 -> b <> 3 -> small_view !! (1, b) = Some (replicate 512 0).
Proof.
  intros Hb Hne. unfold small_view. rewrite lookup_insert_ne by congruence. apply elem_of_list_to_map.
  - rewrite <- list_fmap_compose. apply NoDup_fmap_2; [intros x y; cbn; congruence|apply NoDup_seqZ].
  - apply list_elem_of_fmap. exists b. split; [done|]. apply elem_of_seqZ. lia.
Qed.

Lemma small_BBLOCK b : 0 <= b < 20 -> BBLOCK b small_sb = 3.
Proof. intros Hb. unfold BBLOCK, BPB. cbn. rewrite Z.div_small by lia. done. Qed.

Lemma small_IBLOCK i : 0 <= i < 8 -> IBLOCK i small_sb = 2.
Proof. intros Hb. unfold IBLOCK, IPB. cbn. rewrite Z.div_small by lia. done. Qed.

Lemma small_in_use b : 0 <= b < 20 -> in_use small_fs 1 b = (b <? 4).
Proof.
  intros Hb. unfold in_use. change (fsb small_fs) with small_sb. rewrite (small_BBLOCK b Hb).
  change (fview small_fs !! (1, 3)) with (small_view !! (1, 3)). unfold small_view. rewrite lookup_insert_eq.
  assert (Hall : forallb (fun b => Bool.eqb (bit_at (15 :: replicate 511 0) (b mod BPB)) (b <? 4)) (seqZ 0 20) = true) by reflexivity.
  rewrite forallb_forall in Hall. apply eqb_prop, Hall, list_elem_of_In, elem_of_seqZ. lia.
Qed.

Lemma small_map_ok : map_ok small_fs 1.
Proof.
  split; [done|done| | | |]; cbn [sb_size fsb small_fs small_sb sb_ninodes].
  - intros b Hb. destruct (decide (b = 3)) as [->|Hne].
    + eexists. split; [apply lookup_insert_eq|reflexivity].
    + exists (replicate 512 0). split; [by apply small_view_at|reflexivity].
  - intros b Hb. rewrite small_BBLOCK by done. lia.
  - intros i Hi. rewrite small_IBLOCK by done. split; [lia|]. intros b Hb. by rewrite small_BBLOCK.
  - intros b Hb Hu. rewrite small_in_use in Hu by done. apply Z.ltb_ge in Hu. split; [|lia].
    intros [(b' & Hb' & ->)|(i & Hi & ->)]; [rewrite small_BBLOCK in Hu by done|rewrite small_IBLOCK in Hu by done]; lia.
Qed.

Lemma small_run : exists s, rtc (astep 1) (small_fs, []) (s, [4]).
Proof.
  pose proof (balloc_ok small_fs 1 small_map_ok) as Hok.
  assert (E : first_free small_fs 1 (seqZ 0 20) = Some 4).
  { unfold first_free. change (seqZ 0 20) with (0 :: 1 :: 2 :: 3 :: 4 :: seqZ 5 15). cbn [List.find]. by rewrite !small_in_use by lia. }
  change (sb_size (fsb small_fs)) with 20 in Hok. rewrite E in Hok. destruct Hok as (s' & Hr & _).
  exists s'. apply rtc_once. by apply a_alloc.
Qed.

Lemma blocks_never_shared_witness :
  exists s, NoDup [4] /\ (forall b, b ∈ [4] -> ~ meta (fsb s) b /\ exists s', bfree 1 b s = Ret tt s' /\ in_use s' 1 b = false) /\
  ((exists b s', balloc 1 s = Ret b s' /\ b ∉ [4] /\ fview s' !! (1, b) = Some (replicate 512 0)) \/
   (balloc 1 s = Panic "balloc: out of blocks" /\ forall b, 0 <= b < sb_size (fsb s) -> in_use s 1 b = true)).
Proof.
  destruct small_run as [s Hr]. exists s. apply (blocks_never_shared 1 small_fs s [4] small_map_ok Hr).
Defined.
