(* ===== verification/FsFile.v ===== *)
(** * FsFile: files on blocks

    [bmap], [readi] and [writei] of fs.c against the file as a sequence of bytes.
    A file's blocks are its slots: the twelve direct addresses, the indirect
    block, and the 128 addresses in the indirect block.  The invariant is that
    no block is in two slots, and that every block of a file is in use and is
    not one of the map or of the inodes. *)

From S2P Require Import Prelude Mem Sleeplock Log Fs FsAlloc.

(** ** The blocks of an inode *)

Definition addr_at (i : inode) (k : Z) : Z := default 0 (aget (d_addrs (i_d i)) k).

(** Entry [j] of the indirect block. *)
Definition ind_at (s : fs) (i : inode) (j : Z) : Z :=
  if addr_at i NDIRECT =? 0 then 0
  else match fview s !! (i_dev i, addr_at i NDIRECT) with Some d => default 0 (word d (Z.to_nat j)) | None => 0 end.

(** Slots 0 to 12 are in the inode, slots 13 to 140 in the indirect block. *)
Definition slot (s : fs) (i : inode) (k : Z) : Z := if k <=? NDIRECT then addr_at i k else ind_at s i (k - 13).

(** The slot and the disk block of block [n] of the file; 0 if it has none yet. *)
Definition slot_of (n : Z) : Z := if n <? NDIRECT then n else n + 1.
Definition blockof (s : fs) (i : inode) (n : Z) : Z := slot s i (slot_of n).

Record file_ok (s : fs) (ip : nat) (i : inode) : Prop := {
  fo_get : icache s !! ip = Some i;
  fo_len : length (d_addrs (i_d i)) = 13%nat;
  fo_map : map_ok s (i_dev i);
  fo_inum : 0 <= i_inum i < sb_ninodes (fsb s);
  fo_slot : forall k, 0 <= k <= 140 -> slot s i k <> 0 ->
    0 <= slot s i k < sb_size (fsb s) /\ in_use s (i_dev i) (slot s i k) = true /\ ~ meta (fsb s) (slot s i k);
  fo_inj : forall k k', 0 <= k <= 140 -> 0 <= k' <= 140 -> slot s i k <> 0 -> slot s i k = slot s i k' -> k = k'
}.

(** The contents of block [n] of the file; a block that is not there yet counts
    as zeros. *)
Definition fblock (s : fs) (i : inode) (n : Z) : block :=
  if blockof s i n =? 0 then replicate 512 0 else default [] (fview s !! (i_dev i, blockof s i n)).

(** Byte [k] of the file. *)
Definition fbyte (s : fs) (i : inode) (k : Z) : Z := default 0 (fblock s i (k / 512) !! Z.to_nat (k mod 512)).

(** ** Lemmas *)

Lemma word_Some d j : length d = 512%nat -> (j < 128)%nat -> exists w, word d j = Some w.
Proof.
  intros Hd Hj. unfold word, get32.
  destruct (lookup_lt_is_Some_2 d (4 * j)) as [? ->]; [lia|]. destruct (lookup_lt_is_Some_2 d (4 * j + 1)) as [? ->]; [lia|].
  destruct (lookup_lt_is_Some_2 d (4 * j + 2)) as [? ->]; [lia|]. destruct (lookup_lt_is_Some_2 d (4 * j + 3)) as [? ->]; [lia|].
  cbn. eauto.
Qed.

Lemma word_zeros j : (j < 128)%nat -> word (replicate 512 0) j = Some 0.
Proof. intros Hj. unfold word, get32. rewrite !lookup_replicate_2 by lia. done. Qed.

Lemma word_put d j j' b : length d = 512%nat -> (j < 128)%nat -> (j' < 128)%nat -> 0 <= b < 2 ^ 32 ->
  word (put32 d (4 * j) b) j' = if decide (j' = j) then Some b else word d j'.
Proof.
  intros Hd Hj Hj' Hb. unfold word. destruct (decide (j' = j)) as [->|Hne].
  - rewrite get32_put32_eq by lia. by rewrite u32_small.
  - apply get32_put32_ne. lia.
Qed.

Lemma slot_block s ip i k : file_ok s ip i -> 0 <= k <= 140 -> slot s i k <> 0 ->
  exists d, fview s !! (i_dev i, slot s i k) = Some d /\ length d = 512%nat.
Proof. intros Hf Hk Hs. apply (mo_blocks _ _ (fo_map _ _ _ Hf)). by apply (fo_slot _ _ _ Hf). Qed.

Lemma slot_ind s i k : 12 < k -> slot s i k <> 0 -> addr_at i NDIRECT <> 0.
Proof. intros Hk. unfold slot, ind_at, NDIRECT. destruct (Z.leb_spec k 12); [lia|]. destruct (Z.eqb_spec (addr_at i 12) 0); done. Qed.

Lemma slot_12 s i : slot s i 12 = addr_at i NDIRECT.
Proof. done. Qed.

(** Slots depend on the addresses of the inode and on the indirect block. *)
Lemma slot_same s s' i i' k : d_addrs (i_d i') = d_addrs (i_d i) -> i_dev i' = i_dev i ->
  (addr_at i NDIRECT <> 0 -> fview s' !! (i_dev i, addr_at i NDIRECT) = fview s !! (i_dev i, addr_at i NDIRECT)) ->
  slot s' i' k = slot s i k.
Proof.
  intros Ha Hd Hv. unfold slot, ind_at, addr_at. rewrite Ha, Hd. destruct (k <=? NDIRECT); [done|].
  destruct (Z.eqb_spec (default 0 (aget (d_addrs (i_d i)) NDIRECT)) 0) as [|Hn]; [done|]. unfold addr_at in Hv. by rewrite Hv.
Qed.

(** A free block is in no slot. *)
Lemma free_not_slot s ip i b k : file_ok s ip i -> in_use s (i_dev i) b = false -> 0 <= k <= 140 -> slot s i k <> b \/ b = 0.
Proof.
  intros Hf Hu Hk. destruct (decide (b = 0)) as [->|Hn]; [by right|left]. intros <-.
  destruct (fo_slot _ _ _ Hf k Hk Hn) as (_ & H & _). congruence.
Qed.

(** ** Operations that may run out of blocks *)

Definition or_full {S A} (m : M S A) (s : S) (Q : A -> S -> Prop) : Prop :=
  (exists a s', m s = Ret a s' /\ Q a s') \/ m s = Panic "balloc: out of blocks".

Lemma or_full_bind {S A B} (m : M S A) (k : A -> M S B) s P Q :
  or_full m s P -> (forall a s', P a s' -> or_full (k a) s' Q) -> or_full (m ≫= k) s Q.
Proof.
  intros [(a & s' & Hm & HP)|Hm] Hk.
  - destruct (Hk a s' HP) as [(b & s2 & Hb & HQ)|Hb]; [left; exists b, s2|right]; by rewrite (bind_ret _ _ _ _ _ Hm).
  - right. unfold mbind, M_bind. by rewrite Hm.
Qed.

Lemma or_full_ret {S A} (m : M S A) s a s' Q : m s = Ret a s' -> Q a s' -> or_full m s Q.
Proof. intros Hm HQ. left. eauto. Qed.

Lemma or_full_step {S A B} (m : M S A) (k : A -> M S B) s a s' Q : m s = Ret a s' -> or_full (k a) s' Q -> or_full (m ≫= k) s Q.
Proof. intros Hm Hk. unfold or_full. by rewrite (bind_ret _ _ _ _ _ Hm). Qed.

Lemma or_full_mono {S A} (m : M S A) s (P Q : A -> S -> Prop) : or_full m s P -> (forall a s', P a s' -> Q a s') -> or_full m s Q.
Proof. intros [(a & s' & Hm & HP)|Hm] H; [left; eauto|by right]. Qed.

Lemma get_ip_ok s ip i : icache s !! ip = Some i -> get_ip ip s = Ret i s.
Proof. intros H. unfold get_ip. msimp. by rewrite H. Qed.

Lemma upd_ip_ok s ip i f : icache s !! ip = Some i -> upd_ip ip f s = Ret tt (s <| icache ::= alter f ip |>).
Proof. intros H. unfold upd_ip. by rewrite (bind_ret _ _ _ _ _ (get_ip_ok s ip i H)). Qed.

Lemma balloc_or_full s dev : map_ok s dev -> or_full (balloc dev) s (fun b s' => allocated s dev b s').
Proof.
  intros Hm. pose proof (balloc_ok s dev Hm) as H. destruct (first_free s dev (seqZ 0 (sb_size (fsb s)))); [left; eauto|by right].
Qed.

(** What was logged between two states: blocks of the map, and the file's blocks
    in slots of [K]. *)
Definition log_in (s s' : fs) (i' : inode) (K : Z -> Prop) : Prop := forall x, x ∈ flog s' -> x ∈ flog s \/
  x.1 = i_dev i' /\ ((exists b, 0 <= b < sb_size (fsb s) /\ x.2 = BBLOCK b (fsb s)) \/ exists k, K k /\ slot s' i' k <> 0 /\ x.2 = slot s' i' k).

Lemma log_in_same s s' i' K : flog s' = flog s -> log_in s s' i' K.
Proof. intros E x. rewrite E. by left. Qed.

Lemma log_in_mono s s' i' (K K' : Z -> Prop) : log_in s s' i' K -> (forall k, K k -> K' k) -> log_in s s' i' K'.
Proof. intros H HK x Hx. destruct (H x Hx) as [|(E & [Hb|(k & Hk & Hn & Ek)])]; [by left|right; split; [done|by left]|right; split; [done|right]; eauto]. Qed.

Lemma log_in_trans s s1 i1 s2 i2 (K1 K2 K : Z -> Prop) : log_in s s1 i1 K1 -> log_in s1 s2 i2 K2 -> fsb s1 = fsb s -> i_dev i2 = i_dev i1 ->
  (forall k, K1 k -> 0 <= k <= 140) -> (forall k, 0 <= k <= 140 -> slot s1 i1 k <> 0 -> slot s2 i2 k = slot s1 i1 k) ->
  (forall k, K1 k \/ K2 k -> K k) -> log_in s s2 i2 K.
Proof.
  intros H1 H2 Hs Hd Hr Hst HK x Hx. destruct (H2 x Hx) as [Hx1|(E & [(b & Hb & Eb)|(k & Hk & Hn & Ek)])].
  - destruct (H1 x Hx1) as [|(E & [Hb|(k & Hk & Hn & Ek)])]; [by left|right; rewrite Hd; split; [done|by left]|].
    right. rewrite Hd. split; [done|]. right. exists k. rewrite Hst by auto. split_and!; auto.
  - right. split; [done|]. left. exists b. by rewrite <- Hs.
  - right. split; [done|]. right. exists k. split_and!; auto.
Qed.

(** A new block in slot [k]; nothing else of the file or of the disk changes but
    the map and, for an entry of the indirect block, that block. *)
Record grew (s : fs) (ip : nat) (i : inode) (k b : Z) (s' : fs) (i' : inode) : Prop := {
  gr_ok : file_ok s' ip i';
  gr_i : i' = i <| i_d ::= fun d => d <| d_addrs := d_addrs (i_d i') |> |>;
  gr_old : slot s i k = 0;
  gr_new : b <> 0;
  gr_slot : forall k', 0 <= k' <= 140 -> slot s' i' k' = if k' =? k then b else slot s i k';
  gr_zero : fview s' !! (i_dev i, b) = Some (replicate 512 0);
  gr_rest : forall key, key <> (i_dev i, b) -> ~ (key.1 = i_dev i /\ meta (fsb s) key.2) ->
    (12 < k -> key <> (i_dev i, addr_at i NDIRECT)) -> fview s' !! key = fview s !! key;
  gr_sb : fsb s' = fsb s;
  gr_icache : forall ip', ip' <> ip -> icache s' !! ip' = icache s !! ip';
  gr_log : log_in s s' i' (fun k' => k' = k \/ 12 < k /\ k' = 12)
}.

Lemma in_use_view s s' dev b : fsb s' = fsb s -> fview s' !! (dev, BBLOCK b (fsb s)) = fview s !! (dev, BBLOCK b (fsb s)) ->
  in_use s' dev b = in_use s dev b.
Proof. intros Hs Hv. unfold in_use. by rewrite Hs, Hv. Qed.

(** Writing a block that is not of the map. *)
Lemma map_ok_write s s' dev a d : map_ok s dev -> fsb s' = fsb s -> fview s' = <[(dev, a) := d]> (fview s) -> length d = 512%nat ->
  (forall b, 0 <= b < sb_size (fsb s) -> a <> BBLOCK b (fsb s)) ->
  map_ok s' dev /\ forall b, 0 <= b < sb_size (fsb s) -> in_use s' dev b = in_use s dev b.
Proof.
  intros [M1 M2 M3 M4 M5 M6] Hs Hv Hl Hn.
  assert (Hu : forall b, 0 <= b < sb_size (fsb s) -> in_use s' dev b = in_use s dev b).
  { intros b Hb. apply in_use_view; [done|]. rewrite Hv. apply lookup_insert_ne. specialize (Hn b Hb). congruence. }
  split; [|done]. split; rewrite ?Hs; try done.
  - intros b Hb. rewrite Hv. destruct (decide (a = b)) as [->|]; [exists d; by rewrite lookup_insert_eq|].
    rewrite lookup_insert_ne by congruence. by apply M3.
  - intros b Hb Hf. apply M6; [done|]. by rewrite <- Hu.
Qed.

Lemma map_ok_view s s' dev : map_ok s dev -> fsb s' = fsb s -> fview s' = fview s -> map_ok s' dev.
Proof.
  intros [M1 M2 M3 M4 M5 M6] Hs Hv. assert (Hu : forall b, in_use s' dev b = in_use s dev b) by (intros; unfold in_use; by rewrite Hs, Hv).
  split; rewrite ?Hs, ?Hv; try done. intros b Hb Hf. apply M6; [done|]. by rewrite <- Hu.
Qed.

(** The slots of a file that got one more block. *)
Lemma grown_ok s ip i k b s' i' :
  file_ok s ip i -> icache s' !! ip = Some i' -> length (d_addrs (i_d i')) = 13%nat -> i_dev i' = i_dev i -> i_inum i' = i_inum i ->
  fsb s' = fsb s -> map_ok s' (i_dev i) -> in_use s (i_dev i) b = false -> 0 <= b < sb_size (fsb s) -> 0 <= k <= 140 ->
  (forall b', 0 <= b' < sb_size (fsb s) -> in_use s' (i_dev i) b' = (in_use s (i_dev i) b' || (b' =? b))) ->
  (forall k', 0 <= k' <= 140 -> slot s' i' k' = if k' =? k then b else slot s i k') -> file_ok s' ip i'.
Proof.
  intros Hf Hg Hl Hd Hin Hs Hm Hfree Hb Hk Hu Hsl.
  destruct (mo_meta _ _ (fo_map _ _ _ Hf) b Hb Hfree) as [Hnm Hn0].
  split; [done|done|by rewrite Hd|rewrite Hin, Hs; apply Hf| |].
  - intros k' Hk' Hne. rewrite Hsl in Hne |- * by done. rewrite Hs, Hd. destruct (Z.eqb_spec k' k).
    + split_and!; [lia|lia| |done]. rewrite Hu by done. by rewrite Z.eqb_refl, orb_true_r.
    + destruct (fo_slot _ _ _ Hf k' Hk' Hne) as (H1 & H2 & H3). split_and!; [lia|lia| |done]. rewrite Hu by done. by rewrite H2.
  - intros k1 k2 H1 H2 Hne E. rewrite !Hsl in E by done. rewrite Hsl in Hne by done.
    assert (Hno : forall k', 0 <= k' <= 140 -> slot s i k' <> b).
    { intros k' Hk'. by destruct (free_not_slot s ip i b k' Hf Hfree Hk'). }
    destruct (Z.eqb_spec k1 k), (Z.eqb_spec k2 k).
    + congruence.
    + exfalso. by apply (Hno k2 H2).
    + exfalso. by apply (Hno k1 H1).
    + by apply (fo_inj _ _ _ Hf).
Qed.

Lemma addr_at_set i i' k b : i' = i <| i_d ::= fun d => d <| d_addrs ::= fun l => aset l k b |> |> -> length (d_addrs (i_d i)) = 13%nat ->
  0 <= k <= 12 -> forall k', addr_at i' k' = if k' =? k then b else addr_at i k'.
Proof.
  intros -> Hl Hk k'. unfold addr_at. cbn. destruct (Z.eqb_spec k' k) as [->|].
  - by rewrite aget_aset_eq by (rewrite Hl; lia).
  - by rewrite aget_aset_ne by congruence.
Qed.

(** An address of the inode: the block that is there, or a new one. *)
Lemma grow_addr s ip i k : file_ok s ip i -> 0 <= k <= 12 -> addr_at i k = 0 ->
  or_full (addr_or_alloc ip k) s (fun b s' => exists i', grew s ip i k b s' i').
Proof.
  intros Hf Hk Ha. unfold addr_or_alloc. eapply or_full_step; [apply get_ip_ok, Hf|]. destruct (aget_is_Some (d_addrs (i_d i)) k) as [a Hak]; [rewrite (fo_len _ _ _ Hf); lia|].
  unfold addr_at in Ha. rewrite Hak in Ha. cbn in Ha. subst a. rewrite Hak. cbn [deref].
  eapply or_full_step; [reflexivity|].
  change (0 =? 0) with true. cbv iota. eapply or_full_bind; [apply balloc_or_full, Hf|]. intros b s0 Hal.
  assert (Hg0 : icache s0 !! ip = Some i) by (rewrite (al_icache _ _ _ _ Hal); apply Hf).
  unfold set_addr. eapply or_full_ret; [by rewrite (bind_ret _ _ _ _ _ (upd_ip_ok s0 ip i _ Hg0))|].
  set (f := fun i : inode => i <| i_d ::= fun d => d <| d_addrs ::= fun l => aset l k b |> |>). set (i' := f i). set (s1 := s0 <| icache ::= alter f ip |>). exists i'.
  assert (Hset : i' = i <| i_d ::= fun d => d <| d_addrs ::= fun l => aset l k b |> |>) by done.
  assert (Hadd := addr_at_set i i' k b Hset (fo_len _ _ _ Hf) Hk).
  destruct (mo_meta _ _ (fo_map _ _ _ Hf) b (al_range _ _ _ _ Hal) (al_free _ _ _ _ Hal)) as [Hnm Hn0].
  assert (Hind : addr_at i NDIRECT <> 0 -> fview s1 !! (i_dev i, addr_at i NDIRECT) = fview s !! (i_dev i, addr_at i NDIRECT)).
  { intros Hne. rewrite <- (slot_12 s i) in Hne |- *. destruct (fo_slot _ _ _ Hf 12 ltac:(lia) Hne) as (_ & H2 & H3).
    apply (al_rest _ _ _ _ Hal).
    - intros [= E]. rewrite E in H2. by rewrite (al_free _ _ _ _ Hal) in H2.
    - intros [= E]. apply H3. left. exists b. split; [apply Hal|done]. }
  assert (Hslot : forall k', 0 <= k' <= 140 -> slot s1 i' k' = if k' =? k then b else slot s i k').
  { intros k' Hk'. unfold slot. destruct (Z.leb_spec k' NDIRECT) as [|Hgt]; [apply Hadd|]. unfold NDIRECT in Hgt.
    destruct (Z.eqb_spec k' k); [lia|]. unfold ind_at. rewrite Hadd. change (i_dev i') with (i_dev i). destruct (Z.eqb_spec NDIRECT k) as [E|E].
    - assert (Ha0 : addr_at i NDIRECT = 0) by (unfold addr_at; rewrite E, Hak; done).
      rewrite Ha0. destruct (Z.eqb_spec b 0); [done|].
      change (fview s1) with (fview s0). rewrite (al_zero _ _ _ _ Hal), word_zeros by lia. done.
    - destruct (Z.eqb_spec (addr_at i NDIRECT) 0) as [|Hne]; [done|]. by rewrite (Hind Hne). }
  assert (Hm1 : map_ok s1 (i_dev i)) by (eapply map_ok_view; [apply Hal|done|done]).
  split; try done.
  - eapply (grown_ok s ip i k b s1 i' Hf); try done; try apply Hal; try lia.
    + cbn. rewrite list_lookup_alter_eq. by rewrite Hg0.
    + cbn. rewrite aset_length. apply Hf.
  - unfold slot. destruct (Z.leb_spec k NDIRECT); [|unfold NDIRECT in *; lia]. unfold addr_at. by rewrite Hak.
  - apply Hal.
  - intros [kd kb] H1 H2 _. change (fview s1) with (fview s0). apply (al_rest _ _ _ _ Hal); [done|]. intros [= -> ->]. apply H2. split; [done|].
    left. exists b. split; [apply Hal|done].
  - cbn. apply Hal.
  - intros ip' Hne. cbn. rewrite list_lookup_alter_ne by done. by rewrite (al_icache _ _ _ _ Hal).
  - intros x Hx. change (flog s1) with (flog s0) in Hx. rewrite (al_log _ _ _ _ Hal) in Hx. apply elem_of_app in Hx as [Hx|Hx]; [by left|right].
    apply elem_of_cons in Hx as [->|Hx%list_elem_of_singleton]; [|subst x]; (split; [done|]).
    + left. exists b. split; [apply Hal|done].
    + right. exists k. rewrite Hslot, Z.eqb_refl by lia. split_and!; [by left|done|done].
Qed.

(** An entry of the indirect block. *)
Lemma grow_ind s ip i j d : file_ok s ip i -> addr_at i NDIRECT <> 0 -> 0 <= j < 128 ->
  fview s !! (i_dev i, addr_at i NDIRECT) = Some d -> word d (Z.to_nat j) = Some 0 ->
  or_full (b ← balloc (i_dev i); log_write (i_dev i) (addr_at i NDIRECT) (put32 d (4 * Z.to_nat j) b);; mret b) s
    (fun b s' => grew s ip i (13 + j) b s' i).
Proof.
  intros Hf Ha Hj Hd Hw. set (a := addr_at i NDIRECT) in *.
  destruct (fo_slot _ _ _ Hf 12 ltac:(lia) Ha) as (Ha1 & Ha2 & Ha3). rewrite slot_12 in Ha1, Ha2, Ha3. fold a in Ha1, Ha2, Ha3.
  eapply or_full_bind; [apply balloc_or_full, Hf|]. intros b s0 Hal. eapply or_full_ret; [by rewrite (bind_ret _ _ _ _ _ (log_write_eq _ _ _ _))|].
  set (d' := put32 d (4 * Z.to_nat j) b). set (s1 := logged s0 (i_dev i) a d').
  destruct (mo_meta _ _ (fo_map _ _ _ Hf) b (al_range _ _ _ _ Hal) (al_free _ _ _ _ Hal)) as [Hnm Hn0].
  pose proof (al_range _ _ _ _ Hal) as Hbr. pose proof (mo_size _ _ (fo_map _ _ _ Hf)) as Hsz.
  assert (Hab : a <> b) by (intros E; rewrite E in Ha2; by rewrite (al_free _ _ _ _ Hal) in Ha2).
  assert (Hl : length d = 512%nat) by (destruct (mo_blocks _ _ (fo_map _ _ _ Hf) a Ha1) as (d0 & Hd0 & ?); congruence).
  destruct (map_ok_write s0 s1 (i_dev i) a d' (al_map _ _ _ _ Hal)) as [Hm1 Hu1]; [done|done|unfold d'; by rewrite put32_length| |].
  { rewrite (al_sb _ _ _ _ Hal). intros b' Hb' E. apply Ha3. left. by exists b'. }
  rewrite (al_sb _ _ _ _ Hal) in Hu1.
  assert (Hv1 : fview s1 !! (i_dev i, a) = Some d') by (unfold s1; cbn; apply lookup_insert_eq).
  assert (Hslot : forall k', 0 <= k' <= 140 -> slot s1 i k' = if k' =? 13 + j then b else slot s i k').
  { intros k' Hk'. unfold slot. destruct (Z.leb_spec k' NDIRECT) as [Hle|Hgt]; [unfold NDIRECT in Hle|unfold NDIRECT in Hgt].
    - destruct (Z.eqb_spec k' (13 + j)); [lia|done].
    - unfold ind_at. fold a. destruct (Z.eqb_spec a 0) as [E|_]; [done|]. rewrite Hv1, Hd.
      unfold d'. rewrite word_put by (lia || done). destruct (Z.eqb_spec k' (13 + j)) as [->|Hne].
      + by rewrite decide_True by lia.
      + by rewrite decide_False by lia. }
  split; try done.
  - eapply (grown_ok s ip i (13 + j) b s1 i Hf); try done; try apply Hf; try apply Hal; try lia.
    + cbn. rewrite (al_icache _ _ _ _ Hal). apply Hf.
    + intros b' Hb'. rewrite Hu1 by done. by apply Hal.
  - by destruct i as [? ? ? ? ? []].
  - unfold slot, ind_at. destruct (Z.leb_spec (13 + j) NDIRECT); [unfold NDIRECT in *; lia|]. fold a. destruct (Z.eqb_spec a 0); [done|].
    rewrite Hd. replace (13 + j - 13) with j by lia. by rewrite Hw.
  - unfold s1. cbn. rewrite lookup_insert_ne by congruence. apply Hal.
  - intros [kd kb] H1 H2 H3. unfold s1. cbn. rewrite lookup_insert_ne by (intros E; by apply (H3 ltac:(lia))).
    apply (al_rest _ _ _ _ Hal); [done|]. intros [= -> ->]. apply H2. split; [done|]. left. exists b. split; [apply Hal|done].
  - apply Hal.
  - intros ip' _. cbn. by rewrite (al_icache _ _ _ _ Hal).
  - intros x Hx. change (flog s1) with (flog s0 ++ [(i_dev i, a)]) in Hx. rewrite (al_log _ _ _ _ Hal) in Hx.
    apply elem_of_app in Hx as [Hx|Hx%list_elem_of_singleton]; [apply elem_of_app in Hx as [Hx|Hx]; [by left|right]|right; subst x].
    + apply elem_of_cons in Hx as [->|Hx%list_elem_of_singleton]; [|subst x]; (split; [done|]).
      * left. exists b. split; [apply Hal|done].
      * right. exists (13 + j). rewrite Hslot, Z.eqb_refl by lia. split_and!; [by left|done|done].
    + split; [done|]. right. exists 12. rewrite Hslot, slot_12 by lia. destruct (Z.eqb_spec 12 (13 + j)); [lia|]. fold a. split_and!; [right; lia|done|done].
Qed.

(** ** [bmap] *)

(** Nothing of the file changed but that some blocks that counted as zeros are
    there now. *)
Record extended (s : fs) (ip : nat) (i : inode) (s' : fs) (i' : inode) : Prop := {
  ex_ok : file_ok s' ip i';
  ex_i : i' = i <| i_d ::= fun d => d <| d_addrs := d_addrs (i_d i') |> |>;
  ex_slot : forall k, 0 <= k <= 140 -> slot s i k <> 0 -> slot s' i' k = slot s i k;
  ex_block : forall n, 0 <= n < MAXFILE -> fblock s' i' n = fblock s i n;
  ex_rest : forall key, ~ (key.1 = i_dev i /\ meta (fsb s) key.2) ->
    (forall k, 0 <= k <= 140 -> slot s' i' k <> 0 -> key <> (i_dev i, slot s' i' k)) -> fview s' !! key = fview s !! key;
  ex_sb : fsb s' = fsb s;
  ex_icache : forall ip', ip' <> ip -> icache s' !! ip' = icache s !! ip'
}.

Lemma extended_refl s ip i : file_ok s ip i -> extended s ip i s i.
Proof. intros Hf. split; try done. by destruct i as [? ? ? ? ? []]. Qed.

Lemma extended_fields s ip i s' i' : extended s ip i s' i' ->
  i_dev i' = i_dev i /\ i_inum i' = i_inum i /\ d_size (i_d i') = d_size (i_d i) /\ d_type (i_d i') = d_type (i_d i).
Proof. intros He. rewrite (ex_i _ _ _ _ _ He). done. Qed.

Lemma extended_trans s ip i s1 i1 s2 i2 : extended s ip i s1 i1 -> extended s1 ip i1 s2 i2 -> extended s ip i s2 i2.
Proof.
  intros E1 E2. destruct (extended_fields _ _ _ _ _ E1) as (Hd & _). destruct E1 as [A1 A2 A3 A4 A5 A6 A7], E2 as [B1 B2 B3 B4 B5 B6 B7].
  split; [done| | | | |congruence|].
  - rewrite B2. cbn. rewrite A2. done.
  - intros k Hk Hne. rewrite B3, A3; [done..|]. by rewrite A3.
  - intros n Hn. by rewrite B4, A4.
  - intros key H1 H2. rewrite B5, A5; try done.
    + intros k Hk Hne. rewrite <- (B3 k Hk Hne). apply H2; [done|]. by rewrite B3.
    + rewrite Hd, A6. done.
    + intros k Hk. rewrite Hd. by apply H2.
  - intros ip' Hne. by rewrite B7, A7.
Qed.

Lemma slot_of_range n : 0 <= n < MAXFILE -> 0 <= slot_of n <= 140 /\ slot_of n <> 12.
Proof. unfold slot_of, MAXFILE, NDIRECT. intros Hn. destruct (Z.ltb_spec n 12); lia. Qed.

Lemma slot_of_inj n m : slot_of n = slot_of m -> n = m.
Proof. unfold slot_of, NDIRECT. destruct (Z.ltb_spec n 12), (Z.ltb_spec m 12); lia. Qed.

Lemma grew_fields s ip i k b s' i' : grew s ip i k b s' i' -> i_dev i' = i_dev i.
Proof. intros Hg. by rewrite (gr_i _ _ _ _ _ _ _ Hg). Qed.

Lemma grew_extended s ip i k b s' i' : file_ok s ip i -> 0 <= k <= 140 -> grew s ip i k b s' i' -> extended s ip i s' i'.
Proof.
  intros Hf Hk Hg. pose proof (grew_fields _ _ _ _ _ _ _ Hg) as Hd. destruct Hg as [G1 G2 G3 G4 G5 G6 G7 G8 G9 _].
  assert (Hk' : slot s' i' k = b) by (rewrite G5 by done; by rewrite Z.eqb_refl).
  split; try done.
  - intros k' Hr Hne. rewrite G5 by done. destruct (Z.eqb_spec k' k); [congruence|done].
  - intros n Hn. destruct (slot_of_range n Hn) as [Hr Hn12]. unfold fblock, blockof. rewrite G5 by done. rewrite Hd.
    destruct (Z.eqb_spec (slot_of n) k) as [E|E].
    + rewrite E, G3, G6. destruct (Z.eqb_spec b 0); [done|]. done.
    + destruct (Z.eqb_spec (slot s i (slot_of n)) 0) as [|Hne]; [done|]. f_equal. apply G7.
      * intros [= Eb]. apply E. apply (fo_inj _ _ _ G1); [done|done| |]; rewrite ?Hk', G5 by done; destruct (Z.eqb_spec (slot_of n) k); congruence.
      * intros [_ Hm]. destruct (fo_slot _ _ _ Hf (slot_of n) Hr Hne) as (_ & _ & Hnm). done.
      * intros _ [= Eb]. apply Hn12. apply (fo_inj _ _ _ Hf); [done|lia|done|]. by rewrite slot_12.
  - intros key H1 H2. apply G7; [|done|].
    + rewrite <- Hk'. apply H2; [done|]. by rewrite Hk'.
    + intros Hgt. rewrite <- (slot_12 s i). assert (Hne : slot s i 12 <> 0).
      { assert (Hkne : slot s' i' k <> 0) by (by rewrite Hk'). apply (slot_ind _ _ _ Hgt) in Hkne.
        rewrite <- (slot_12 s' i'), G5 in Hkne by lia. destruct (Z.eqb_spec 12 k); [lia|done]. }
      assert (E12 : slot s' i' 12 = slot s i 12) by (rewrite G5 by lia; destruct (Z.eqb_spec 12 k); [lia|done]).
      rewrite <- E12. apply H2; [lia|]. by rewrite E12.
Qed.

Lemma addr_present s ip i k : file_ok s ip i -> 0 <= k <= 12 -> addr_at i k <> 0 -> addr_or_alloc ip k s = Ret (addr_at i k) s.
Proof.
  intros Hf Hk Ha. unfold addr_or_alloc. rewrite (bind_ret _ _ _ _ _ (get_ip_ok _ _ _ (fo_get _ _ _ Hf))).
  destruct (aget_is_Some (d_addrs (i_d i)) k) as [a Hak]; [rewrite (fo_len _ _ _ Hf); lia|].
  unfold addr_at in *. rewrite Hak in *. cbn [deref default] in *. rewrite ret_bind. destruct (Z.eqb_spec a 0); done.
Qed.

(** The second half of [bmap], with the indirect block there. *)
Lemma bmap_ind s ip i j : file_ok s ip i -> addr_at i NDIRECT <> 0 -> 0 <= j < 128 ->
  exists d a, fview s !! (i_dev i, addr_at i NDIRECT) = Some d /\ word d (Z.to_nat j) = Some a /\ slot s i (13 + j) = a.
Proof.
  intros Hf Ha Hj. destruct (slot_block s ip i 12 Hf ltac:(lia) Ha) as (d & Hd & Hl). rewrite slot_12 in Hd.
  destruct (word_Some d (Z.to_nat j) Hl ltac:(lia)) as [a Hw]. exists d, a. split_and!; [done|done|].
  unfold slot, ind_at. destruct (Z.leb_spec (13 + j) NDIRECT); [unfold NDIRECT in *; lia|].
  destruct (Z.eqb_spec (addr_at i NDIRECT) 0); [done|]. rewrite Hd. replace (13 + j - 13) with j by lia. by rewrite Hw.
Qed.

(** A block that is there is found, and nothing changes. *)
Lemma bmap_present s ip i n : file_ok s ip i -> 0 <= n < MAXFILE -> blockof s i n <> 0 -> bmap ip n s = Ret (blockof s i n) s.
Proof.
  intros Hf Hn Hb. unfold bmap, blockof, slot_of, MAXFILE in *. destruct (Z.ltb_spec n NDIRECT) as [Hlt|Hge].
  - unfold slot in *. unfold NDIRECT in *. destruct (Z.leb_spec n 12); [|lia]. apply addr_present; [done|lia|done].
  - unfold NDIRECT in Hge. cbv zeta. destruct (Z.ltb_spec (n - NDIRECT) NINDIRECT); [|unfold NDIRECT, NINDIRECT in *; lia].
    assert (Ha : addr_at i NDIRECT <> 0) by (eapply slot_ind, Hb; lia).
    rewrite (bind_ret _ _ _ _ _ (addr_present s ip i NDIRECT Hf ltac:(unfold NDIRECT; lia) Ha)).
    rewrite (bind_ret _ _ _ _ _ (get_ip_ok _ _ _ (fo_get _ _ _ Hf))).
    destruct (bmap_ind s ip i (n - NDIRECT) Hf Ha ltac:(unfold NDIRECT; lia)) as (d & a & Hd & Hw & Hs).
    rewrite (bind_ret _ _ _ _ _ (bread_ok _ _ _ _ Hd)), Hw. cbn [deref]. rewrite ret_bind.
    replace (n + 1) with (13 + (n - NDIRECT)) in * by (unfold NDIRECT; lia). rewrite Hs in *. destruct (Z.eqb_spec a 0); done.
Qed.

Lemma bmap_ok s ip i n : file_ok s ip i -> 0 <= n < MAXFILE ->
  or_full (bmap ip n) s (fun b s' => exists i', extended s ip i s' i' /\ blockof s' i' n = b /\ b <> 0 /\
    log_in s s' i' (fun k => k = 12 \/ k = slot_of n)).
Proof.
  intros Hf Hn. destruct (decide (blockof s i n = 0)) as [H0|Hne].
  2: { eapply or_full_ret; [by apply bmap_present|]. exists i. split_and!; [by apply extended_refl|done|done|by apply log_in_same]. }
  unfold bmap, blockof, slot_of, MAXFILE in *. destruct (Z.ltb_spec n NDIRECT) as [Hlt|Hge].
  { unfold NDIRECT in *. assert (Ha : addr_at i n = 0) by (unfold slot, NDIRECT in H0; destruct (Z.leb_spec n 12); [done|lia]).
    eapply or_full_mono; [apply (grow_addr s ip i n Hf ltac:(lia) Ha)|]. intros b s' [i' Hg]. exists i'.
    split_and!; [eapply grew_extended; [done| |done]; lia| |by apply (gr_new _ _ _ _ _ _ _ Hg)|].
    - rewrite (gr_slot _ _ _ _ _ _ _ Hg) by lia. by rewrite Z.eqb_refl.
    - eapply log_in_mono; [apply Hg|]. intros k [->|[? ?]]; [by right|lia]. }
  unfold NDIRECT in Hge. cbv zeta. destruct (Z.ltb_spec (n - NDIRECT) NINDIRECT); [|unfold NDIRECT, NINDIRECT in *; lia].
  assert (Hfirst : or_full (addr_or_alloc ip NDIRECT) s (fun a s1 => exists i1, extended s ip i s1 i1 /\ addr_at i1 NDIRECT = a /\ a <> 0 /\
    slot s1 i1 (n + 1) = 0 /\ log_in s s1 i1 (fun k => k = 12))).
  { destruct (decide (addr_at i NDIRECT = 0)) as [Ha|Ha].
    - eapply or_full_mono; [apply (grow_addr s ip i NDIRECT Hf ltac:(unfold NDIRECT; lia) Ha)|]. intros b s' [i' Hg]. exists i'.
      split_and!; [eapply grew_extended; [done| |done]; unfold NDIRECT; lia| |by apply (gr_new _ _ _ _ _ _ _ Hg)| |].
      + rewrite <- (slot_12 s' i'), (gr_slot _ _ _ _ _ _ _ Hg) by lia. done.
      + rewrite (gr_slot _ _ _ _ _ _ _ Hg) by lia. destruct (Z.eqb_spec (n + 1) NDIRECT); [unfold NDIRECT in *; lia|done].
      + eapply log_in_mono; [apply Hg|]. intros k [->|[? ?]]; done.
    - eapply or_full_ret; [by apply addr_present; [|unfold NDIRECT; lia|]|]. exists i. split_and!; [by apply extended_refl|done|done|done|by apply log_in_same]. }
  eapply or_full_bind; [exact Hfirst|]. intros a s1 (i1 & He1 & <- & Ha & Hs0 & Hlog1). pose proof (ex_ok _ _ _ _ _ He1) as Hf1.
  eapply or_full_step; [apply get_ip_ok, Hf1|].
  destruct (bmap_ind s1 ip i1 (n - NDIRECT) Hf1 Ha ltac:(unfold NDIRECT; lia)) as (d & w & Hd & Hw & Hs).
  replace (13 + (n - NDIRECT)) with (n + 1) in Hs by (unfold NDIRECT; lia). rewrite Hs0 in Hs. subst w.
  eapply or_full_step; [by apply bread_ok|]. rewrite Hw. eapply or_full_step; [reflexivity|]. change (0 =? 0) with true. cbv iota.
  eapply or_full_mono; [apply (grow_ind s1 ip i1 (n - NDIRECT) d Hf1 Ha ltac:(unfold NDIRECT; lia) Hd Hw)|].
  intros b s2 Hg. exists i1. assert (Hk : 13 + (n - NDIRECT) = n + 1) by (unfold NDIRECT; lia). rewrite Hk in Hg.
  assert (He2 : extended s1 ip i1 s2 i1) by (eapply grew_extended; [done| |exact Hg]; lia).
  split_and!; [by eapply extended_trans| |by apply (gr_new _ _ _ _ _ _ _ Hg)|].
  - rewrite (gr_slot _ _ _ _ _ _ _ Hg) by lia. by rewrite Z.eqb_refl.
  - eapply log_in_trans; [exact Hlog1|apply Hg|apply He1|done|intros k ->; lia|apply He2|]. cbn. lia.
Qed.

(** ** Reading *)

Lemma fblock_ok s ip i n : file_ok s ip i -> 0 <= n < MAXFILE -> length (fblock s i n) = 512%nat.
Proof.
  intros Hf Hn. unfold fblock. destruct (Z.eqb_spec (blockof s i n) 0) as [|Hne]; [done|].
  destruct (slot_of_range n Hn). destruct (slot_block s ip i (slot_of n) Hf) as (d & Hd & Hl); [done|done|].
  unfold blockof. by rewrite Hd.
Qed.

Lemma fblock_view s ip i n : file_ok s ip i -> 0 <= n < MAXFILE -> blockof s i n <> 0 ->
  fview s !! (i_dev i, blockof s i n) = Some (fblock s i n).
Proof.
  intros Hf Hn Hne. destruct (slot_of_range n Hn). destruct (slot_block s ip i (slot_of n) Hf) as (d & Hd & Hl); [done|done|].
  unfold fblock. destruct (Z.eqb_spec (blockof s i n) 0); [done|]. unfold blockof. by rewrite Hd.
Qed.

(** The bytes [off .. off+m) of a block are those of the file. *)
Lemma fbytes_chunk s ip i off m : file_ok s ip i -> 0 <= off < MAXFILE * 512 -> 0 <= m <= 512 - off mod 512 ->
  take (Z.to_nat m) (drop (Z.to_nat (off mod 512)) (fblock s i (off / 512))) = fbyte s i <$> seqZ off m.
Proof.
  intros Hf Ho Hm. assert (Hl : length (fblock s i (off / 512)) = 512%nat) by (eapply fblock_ok; [done|]; unfold MAXFILE in *; zlia).
  assert (Hr : 0 <= off mod 512 < 512) by (apply Z.mod_pos_bound; lia).
  eapply list_eq_same_length; [reflexivity|rewrite length_fmap, length_seqZ, length_take, length_drop; lia|].
  intros k x y Hk Hx Hy. rewrite length_fmap, length_seqZ in Hk. rewrite list_lookup_fmap, lookup_seqZ_lt in Hy by lia.
  cbn in Hy. injection Hy as <-. rewrite lookup_take_lt, lookup_drop in Hx by lia. unfold fbyte.
  replace ((off + Z.of_nat k) / 512) with (off / 512) by zlia.
  replace (Z.to_nat ((off + Z.of_nat k) mod 512)) with (Z.to_nat (off mod 512) + k)%nat by zlia. by rewrite Hx.
Qed.

Lemma extended_byte s ip i s' i' k : extended s ip i s' i' -> 0 <= k < MAXFILE * 512 -> fbyte s' i' k = fbyte s i k.
Proof. intros He Hk. unfold fbyte. rewrite (ex_block _ _ _ _ _ He); [done|]. unfold MAXFILE in *. zlia. Qed.

Lemma extended_bytes s ip i s' i' off m : extended s ip i s' i' -> 0 <= off -> off + m <= MAXFILE * 512 ->
  fbyte s' i' <$> seqZ off m = fbyte s i <$> seqZ off m.
Proof.
  intros He Ho Hm. apply list_fmap_ext. intros j k Hk. apply lookup_seqZ in Hk. eapply extended_byte; [done|]. lia.
Qed.

Lemma readi_loop_ok fuel : forall s ip i off todo, file_ok s ip i -> 0 <= off -> 0 <= todo <= Z.of_nat fuel -> off + todo <= MAXFILE * 512 ->
  or_full (readi_loop fuel ip off todo) s (fun bs s' => exists i', extended s ip i s' i' /\ bs = fbyte s i <$> seqZ off todo).
Proof.
  induction fuel as [|fuel IH]; intros s ip i off todo Hf Ho Ht Hm.
  - replace todo with 0 by lia. eapply or_full_ret; [done|]. exists i. split; [by apply extended_refl|done].
  - cbn [readi_loop]. destruct (Z.leb_spec todo 0) as [|Hpos].
    { replace todo with 0 by lia. eapply or_full_ret; [done|]. exists i. split; [by apply extended_refl|done]. }
    assert (Hn : 0 <= off / 512 < MAXFILE) by (unfold MAXFILE in *; zlia). assert (Hr : 0 <= off mod 512 < 512) by (apply Z.mod_pos_bound; lia).
    eapply or_full_step; [apply get_ip_ok, Hf|]. eapply or_full_bind; [by apply bmap_ok|]. intros b s1 (i1 & He & Hb & Hb0 & Hlog). subst b.
    destruct (extended_fields _ _ _ _ _ He) as (Hd & _). pose proof (ex_ok _ _ _ _ _ He) as Hf1.
    eapply or_full_step; [apply bread_ok; rewrite <- Hd; by apply (fblock_view s1 ip i1)|]. cbv zeta.
    set (m := Z.min todo (512 - off mod 512)). rewrite u32_small by (unfold MAXFILE in *; lia).
    eapply or_full_bind; [apply (IH s1 ip i1 (off + m) (todo - m) Hf1); lia|]. intros rest s2 (i2 & He2 & ->).
    eapply or_full_ret; [done|]. exists i2. split; [by eapply extended_trans|].
    rewrite (fbytes_chunk s1 ip i1 off m Hf1) by (unfold m; lia). rewrite !(extended_bytes _ _ _ _ _ _ _ He) by lia.
    rewrite <- fmap_app. f_equal. symmetry. replace todo with (m + (todo - m)) at 1 by lia. apply seqZ_app; lia.
Qed.

Section Devices.
Context (devread : Z -> option (nat -> Z -> M fs (Z * list Z))).
Context (devwrite : Z -> option (nat -> list Z -> M fs Z)).

(** The number of bytes [readi] delivers. *)
Definition read_count (size off n : Z) : Z := Z.min n (size - off).

Lemma readi_ok s ip i off n : file_ok s ip i -> d_type (i_d i) <> T_DEV -> 0 <= d_size (i_d i) <= MAXFILE * 512 ->
  0 <= off <= d_size (i_d i) -> 0 <= n -> off + n < 2 ^ 32 ->
  or_full (readi devread ip off n) s (fun r s' => exists i', extended s ip i s' i' /\
    r = (read_count (d_size (i_d i)) off n, fbyte s i <$> seqZ off (read_count (d_size (i_d i)) off n))).
Proof.
  intros Hf Ht Hsz Ho Hn Hof. unfold readi. eapply or_full_step; [apply get_ip_ok, Hf|].
  destruct (Z.eqb_spec (d_type (i_d i)) T_DEV); [done|]. cbv zeta. rewrite (u32_small (off + n)) by lia.
  destruct (Z.gtb_spec off (d_size (i_d i))); [lia|]. destruct (Z.ltb_spec (off + n) off); [lia|]. cbn [orb].
  assert (E : (if off + n >? d_size (i_d i) then u32 (d_size (i_d i) - off) else n) = read_count (d_size (i_d i)) off n).
  { unfold read_count. destruct (Z.gtb_spec (off + n) (d_size (i_d i))); [|lia]. rewrite u32_small by (unfold MAXFILE in *; lia). lia. }
  rewrite E. set (c := read_count (d_size (i_d i)) off n). assert (Hc : 0 <= c /\ off + c <= MAXFILE * 512) by (unfold c, read_count; lia).
  eapply or_full_bind; [apply (readi_loop_ok _ s ip i off c Hf); lia|]. intros bs s' (i' & He & ->).
  eapply or_full_ret; [done|]. exists i'. split; [done|]. by rewrite s32_small by (unfold MAXFILE in *; lia).
Qed.

(** ** Writing *)

(** The file's bytes [off ..] are [src]; its other bytes, the other blocks of the
    disk and the other inodes are what they were. *)
Record fwrote (s : fs) (ip : nat) (i : inode) (off : Z) (src : list Z) (s' : fs) (i' : inode) : Prop := {
  wr_ok : file_ok s' ip i';
  wr_i : i' = i <| i_d ::= fun d => d <| d_addrs := d_addrs (i_d i') |> |>;
  wr_slot : forall k, 0 <= k <= 140 -> slot s i k <> 0 -> slot s' i' k = slot s i k;
  wr_byte : forall k, 0 <= k < MAXFILE * 512 ->
    fbyte s' i' k = if decide (off <= k < off + Z.of_nat (length src)) then default 0 (src !! Z.to_nat (k - off)) else fbyte s i k;
  wr_there : forall k, off <= k < off + Z.of_nat (length src) -> blockof s' i' (k / 512) <> 0;
  wr_rest : forall key, ~ (key.1 = i_dev i /\ meta (fsb s) key.2) ->
    (forall k, 0 <= k <= 140 -> slot s' i' k <> 0 -> key <> (i_dev i, slot s' i' k)) -> fview s' !! key = fview s !! key;
  wr_sb : fsb s' = fsb s;
  wr_icache : forall ip', ip' <> ip -> icache s' !! ip' = icache s !! ip'
}.

(** Every block of the file up to its end is there. *)
Definition dense (s : fs) (i : inode) : Prop := forall n, 0 <= n < MAXFILE -> n * 512 < d_size (i_d i) -> blockof s i n <> 0.

Lemma fwrote_fields s ip i off src s' i' : fwrote s ip i off src s' i' ->
  i_dev i' = i_dev i /\ i_inum i' = i_inum i /\ d_size (i_d i') = d_size (i_d i) /\ d_type (i_d i') = d_type (i_d i).
Proof. intros Hw. rewrite (wr_i _ _ _ _ _ _ _ Hw). done. Qed.

Lemma fwrote_nil s ip i off : file_ok s ip i -> fwrote s ip i off [] s i.
Proof.
  intros Hf. split; try done; [by destruct i as [? ? ? ? ? []]| |].
  - intros k Hk. cbn [length]. by rewrite decide_False by lia.
  - cbn. lia.
Qed.

Lemma fwrote_app s ip i off l1 s1 i1 l2 s2 i2 :
  0 <= off -> off + Z.of_nat (length l1) <= MAXFILE * 512 -> fwrote s ip i off l1 s1 i1 -> fwrote s1 ip i1 (off + Z.of_nat (length l1)) l2 s2 i2 -> fwrote s ip i off (l1 ++ l2) s2 i2.
Proof.
  intros Ho Hmax E1 E2. destruct (fwrote_fields _ _ _ _ _ _ _ E1) as (Hd & _).
  destruct E1 as [A1 A2 A3 A4 A8 A5 A6 A7], E2 as [B1 B2 B3 B4 B8 B5 B6 B7].
  split; [done| | | | | |congruence|].
  - rewrite B2. cbn. rewrite A2. done.
  - intros k Hk Hne. rewrite B3, A3; [done..|]. by rewrite A3.
  - intros k Hk. rewrite B4, A4 by done. rewrite length_app. repeat case_decide; try lia; try done.
    + rewrite lookup_app_r by lia. do 2 f_equal. lia.
    + rewrite lookup_app_l by lia. done.
  - intros k Hk. rewrite length_app in Hk. destruct (decide (k < off + Z.of_nat (length l1))) as [Hlt|]; [|apply B8; lia].
    assert (Hkr : 0 <= k / 512 < MAXFILE) by (unfold MAXFILE in *; zlia). destruct (slot_of_range _ Hkr).
    unfold blockof. rewrite B3; [apply A8; lia|done|apply A8; lia].
  - intros key H1 H2. rewrite B5, A5; try done.
    + intros k Hk Hne. rewrite <- (B3 k Hk Hne). apply H2; [done|]. by rewrite B3.
    + rewrite Hd, A6. done.
    + intros k Hk. rewrite Hd. by apply H2.
  - intros ip' Hne. by rewrite B7, A7.
Qed.

(** A block of the file replaced. *)
Lemma set_block s ip i n d : file_ok s ip i -> 0 <= n < MAXFILE -> blockof s i n <> 0 -> length d = 512%nat ->
  let s' := logged s (i_dev i) (blockof s i n) d in
  file_ok s' ip i /\ (forall k, slot s' i k = slot s i k) /\
  (forall m, 0 <= m < MAXFILE -> fblock s' i m = if decide (m = n) then d else fblock s i m).
Proof.
  intros Hf Hn Hne Hl s'. destruct (slot_of_range n Hn) as [Hr Hn12]. set (b := blockof s i n) in *.
  assert (Hsl : forall k, slot s' i k = slot s i k).
  { intros k. apply slot_same; [done|done|]. intros Ha. unfold s'. cbn. apply lookup_insert_ne. intros [= E].
    apply Hn12. apply (fo_inj _ _ _ Hf); [done|lia|done|]. by rewrite slot_12. }
  destruct (fo_slot _ _ _ Hf (slot_of n) Hr Hne) as (_ & _ & Hnm).
  destruct (map_ok_write s s' (i_dev i) b d (fo_map _ _ _ Hf)) as [Hm Hu]; [done|done|done| |].
  { intros b' Hb' E. apply Hnm. left. by exists b'. }
  split_and!; [|done|].
  - split; [apply Hf|apply Hf|done|apply Hf| |].
    + intros k Hk. rewrite Hsl. intros Hk0. destruct (fo_slot _ _ _ Hf k Hk Hk0) as (H1 & H2 & H3). split_and!; [lia|apply H1| |done].
      by rewrite Hu.
    + intros k k' Hk Hk'. rewrite !Hsl. by apply (fo_inj _ _ _ Hf).
  - intros m Hm'. unfold fblock, blockof. rewrite Hsl. fold (blockof s i m). destruct (slot_of_range m Hm') as [Hrm _]. case_decide as E.
    + subst m. fold b. destruct (Z.eqb_spec b 0); [done|]. unfold s'. cbn. by rewrite lookup_insert_eq.
    + destruct (Z.eqb_spec (blockof s i m) 0); [done|]. unfold s'. cbn. rewrite lookup_insert_ne; [done|]. intros [= E2].
      apply E. apply slot_of_inj. apply (fo_inj _ _ _ Hf); [done|done|done|]. by symmetry.
Qed.

(** One turn of the loop of [writei]. *)
Lemma write_chunk s ip i off src s1 i1 : file_ok s ip i -> 0 <= off < MAXFILE * 512 -> Z.of_nat (length src) <= 512 - off mod 512 ->
  extended s ip i s1 i1 -> blockof s1 i1 (off / 512) <> 0 ->
  fwrote s ip i off src
    (logged s1 (i_dev i) (blockof s1 i1 (off / 512)) (list_inserts (Z.to_nat (off mod 512)) src (fblock s1 i1 (off / 512)))) i1.
Proof.
  intros Hf Ho Hlen He Hb. destruct (extended_fields _ _ _ _ _ He) as (Hd & _). pose proof (ex_ok _ _ _ _ _ He) as Hf1.
  assert (Hn : 0 <= off / 512 < MAXFILE) by (unfold MAXFILE in *; zlia). assert (Hr : 0 <= off mod 512 < 512) by (apply Z.mod_pos_bound; lia).
  pose proof (fblock_ok s1 ip i1 _ Hf1 Hn) as Hl. set (d := list_inserts _ _ _).
  assert (Hld : length d = 512%nat) by (unfold d; by rewrite length_inserts).
  destruct (set_block s1 ip i1 (off / 512) d Hf1 Hn Hb Hld) as (Hok & Hsl & Hblk). rewrite Hd in Hok, Hsl, Hblk.
  set (s' := logged s1 (i_dev i) (blockof s1 i1 (off / 512)) d) in *. split; [done|apply He| | | | |by rewrite <- (ex_sb _ _ _ _ _ He)|by apply (ex_icache _ _ _ _ _ He)].
  - intros k Hk Hne. rewrite Hsl. by apply (ex_slot _ _ _ _ _ He).
  - intros k Hk. rewrite <- (extended_byte _ _ _ _ _ _ He Hk). unfold fbyte. rewrite Hblk by (unfold MAXFILE in *; zlia).
    assert (Hkr : 0 <= k mod 512 < 512) by (apply Z.mod_pos_bound; lia). case_decide as E.
    + unfold d. case_decide as E2.
      * rewrite list_lookup_inserts by zlia. do 2 f_equal. zlia.
      * rewrite E. destruct (decide (k < off)).
        -- by rewrite list_lookup_inserts_lt by zlia.
        -- by rewrite list_lookup_inserts_ge by zlia.
    + rewrite decide_False; [done|]. intros Hko. apply E. zlia.
  - intros k Hk. unfold blockof. rewrite Hsl. by replace (k / 512) with (off / 512) by zlia.
  - intros key H1 H2. assert (Hsn : slot s1 i1 (slot_of (off / 512)) <> 0) by done.
    destruct (slot_of_range _ Hn) as [Hrn _]. unfold s'. cbn. rewrite lookup_insert_ne.
    + apply (ex_rest _ _ _ _ _ He); [done|]. intros k Hk Hk0. rewrite <- Hsl. apply H2; [done|]. by rewrite Hsl.
    + intros Ek. symmetry in Ek. revert Ek. unfold blockof. rewrite <- Hsl. apply H2; [done|]. by rewrite Hsl.
Qed.

(** The slots that a write of [n] bytes at [off] can change. *)
Definition touched (off n k : Z) : Prop := k = 12 \/ exists m, off / 512 <= m /\ m * 512 < off + n /\ k = slot_of m.

Lemma touched_range off n k : 0 <= off -> off + n <= MAXFILE * 512 -> touched off n k -> 0 <= k <= 140.
Proof. intros Ho Hm [->|(m & H1 & H2 & ->)]; [lia|]. apply slot_of_range. unfold MAXFILE in *. zlia. Qed.

(** One turn of the loop logs the block it writes. *)
Lemma write_chunk_log s s1 i1 n d (K : Z -> Prop) : blockof s1 i1 n <> 0 -> log_in s s1 i1 K -> K (slot_of n) ->
  (forall k, slot (logged s1 (i_dev i1) (blockof s1 i1 n) d) i1 k = slot s1 i1 k) -> log_in s (logged s1 (i_dev i1) (blockof s1 i1 n) d) i1 K.
Proof.
  intros Hb Hlog HK Hsl x Hx. cbn in Hx. apply elem_of_app in Hx as [Hx|Hx%list_elem_of_singleton].
  - destruct (Hlog x Hx) as [|(E & [Hbm|(k & Hk & Hn & Ek)])]; [by left|right; split; [done|by left]|].
    right. split; [done|]. right. exists k. by rewrite Hsl.
  - subst x. right. split; [done|]. right. exists (slot_of n). rewrite Hsl. done.
Qed.

Lemma writei_loop_ok fuel : forall s ip i off src, file_ok s ip i -> 0 <= off -> (length src <= fuel)%nat ->
  off + Z.of_nat (length src) <= MAXFILE * 512 ->
  or_full (writei_loop fuel ip off src) s (fun off' s' => off' = off + Z.of_nat (length src) /\ exists i', fwrote s ip i off src s' i' /\
    log_in s s' i' (touched off (Z.of_nat (length src)))).
Proof.
  induction fuel as [|fuel IH]; intros s ip i off src Hf Ho Hfu Hm.
  { destruct src; [|cbn in Hfu; lia]. eapply or_full_ret; [done|]. split; [cbn; lia|]. exists i. split; [by apply fwrote_nil|by apply log_in_same]. }
  destruct src as [|x src']; [eapply or_full_ret; [done|]; split; [cbn; lia|]; exists i; split; [by apply fwrote_nil|by apply log_in_same]|].
  cbn [writei_loop]. set (src := x :: src') in *.
  assert (Hpos : 0 < Z.of_nat (length src)) by (cbn; lia).
  assert (Hn : 0 <= off / 512 < MAXFILE) by (unfold MAXFILE in *; zlia). assert (Hr : 0 <= off mod 512 < 512) by (apply Z.mod_pos_bound; lia).
  eapply or_full_step; [apply get_ip_ok, Hf|]. eapply or_full_bind; [by apply bmap_ok|]. intros b s1 (i1 & He & Hb & Hb0 & Hlog). subst b.
  destruct (extended_fields _ _ _ _ _ He) as (Hd & _). pose proof (ex_ok _ _ _ _ _ He) as Hf1.
  eapply or_full_step; [apply bread_ok; rewrite <- Hd; by apply (fblock_view s1 ip i1)|]. cbv zeta.
  set (m := Z.min (Z.of_nat (length src)) (512 - off mod 512)). set (c := take (Z.to_nat m) src).
  assert (Hc : Z.of_nat (length c) = m) by (unfold c; rewrite length_take; lia).
  eapply or_full_step; [apply log_write_eq|]. rewrite u32_small by (unfold MAXFILE in *; lia).
  assert (Hw : fwrote s ip i off c (logged s1 (i_dev i) (blockof s1 i1 (off / 512)) (list_inserts (Z.to_nat (off mod 512)) c (fblock s1 i1 (off / 512)))) i1)
    by (apply write_chunk; try done; lia).
  assert (Hld : Z.of_nat (length (drop (Z.to_nat m) src)) = Z.of_nat (length src) - m) by (rewrite length_drop; lia).
  eapply or_full_mono; [apply (IH _ ip i1 (off + m) (drop (Z.to_nat m) src)); [apply Hw|lia|lia|lia]|].
  intros off' s2 (-> & i2 & Hw2 & Hlog2). destruct (fwrote_fields _ _ _ _ _ _ _ Hw2) as (Hd2 & _). split; [lia|]. exists i2. split.
  - rewrite <- (take_drop (Z.to_nat m) src). fold c. eapply fwrote_app; [done|lia|exact Hw|]. by rewrite Hc.
  - assert (Hl1 : length (list_inserts (Z.to_nat (off mod 512)) c (fblock s1 i1 (off / 512))) = 512%nat) by (rewrite length_inserts; by eapply fblock_ok).
    rewrite <- Hd in Hlog2, Hw2. destruct (set_block s1 ip i1 (off / 512) _ Hf1 Hn Hb0 Hl1) as (_ & Hsl & _).
    eapply log_in_trans; [eapply (write_chunk_log s s1 i1 (off / 512)); [exact Hb0|exact Hlog|by right|exact Hsl]|exact Hlog2|apply He|done| |apply Hw2|].
    + intros k [-> | ->]; [lia|]. by apply slot_of_range.
    + rewrite Hld. intros k [[-> | ->]|[->|(m' & H1 & H2 & ->)]]; [by left| |by left|]; right; [exists (off / 512)|exists m']; (split; [zlia|]; split; [zlia|done]).
Qed.

(** ** Storing the inode *)

Lemma put16_length d o v : length (put16 d o v) = length d.
Proof. apply length_inserts. Qed.

Lemma put_words_length ws : forall d o, length (put_words d o ws) = length d.
Proof. induction ws as [|w ws IH]; intros d o; [done|]. cbn. rewrite IH. apply put32_length. Qed.

Lemma put_dinode_length d p i : length (put_dinode d p i) = length d.
Proof. unfold put_dinode. by rewrite put_words_length, put32_length, !put16_length. Qed.

(** The inode after [writei] set its size and stored it. *)
Lemma iupdate_ok s ip i : file_ok s ip i ->
  exists d, length d = 512%nat /\ fview s !! (i_dev i, IBLOCK (i_inum i) (fsb s)) = Some d /\
    let s' := logged s (i_dev i) (IBLOCK (i_inum i) (fsb s)) (put_dinode d (dip (i_inum i)) (i_d i)) in
    iupdate ip s = Ret tt s' /\ file_ok s' ip i /\ (forall k, slot s' i k = slot s i k) /\ (forall n, 0 <= n < MAXFILE -> fblock s' i n = fblock s i n).
Proof.
  intros Hf. pose proof (fo_map _ _ _ Hf) as Hm. destruct (mo_inodes _ _ Hm _ (fo_inum _ _ _ Hf)) as [Hr Hni].
  destruct (mo_blocks _ _ Hm _ Hr) as (d & Hd & Hl). exists d. split_and!; [done|done|]. intros s'.
  assert (Hne : forall k, 0 <= k <= 140 -> slot s i k <> 0 -> slot s i k <> IBLOCK (i_inum i) (fsb s)).
  { intros k Hk Hk0 E. destruct (fo_slot _ _ _ Hf k Hk Hk0) as (_ & _ & Hnm). apply Hnm. right. exists (i_inum i). split; [apply Hf|done]. }
  assert (Hsl : forall k, slot s' i k = slot s i k).
  { intros k. apply slot_same; [done|done|]. intros Ha. unfold s'. cbn. apply lookup_insert_ne. intros [= E]. rewrite <- (slot_12 s i) in Ha, E.
    by apply (Hne 12 ltac:(lia) Ha). }
  destruct (map_ok_write s s' (i_dev i) (IBLOCK (i_inum i) (fsb s)) (put_dinode d (dip (i_inum i)) (i_d i)) Hm) as [Hm' Hu];
    [done|done|by rewrite put_dinode_length|done|].
  split_and!.
  - unfold iupdate. rewrite (bind_ret _ _ _ _ _ (get_ip_ok _ _ _ (fo_get _ _ _ Hf))). rewrite (bind_ret (gets fsb) _ s (fsb s) s eq_refl). by rewrite (bind_ret _ _ _ _ _ (bread_ok _ _ _ _ Hd)).
  - split; [apply Hf|apply Hf|done|apply Hf| |].
    + intros k Hk. rewrite Hsl. intros Hk0. destruct (fo_slot _ _ _ Hf k Hk Hk0) as (H1 & H2 & H3). split_and!; [lia|apply H1| |done]. by rewrite Hu.
    + intros k k' Hk Hk'. rewrite !Hsl. by apply (fo_inj _ _ _ Hf).
  - done.
  - intros n Hn. unfold fblock, blockof. rewrite Hsl. destruct (Z.eqb_spec (slot s i (slot_of n)) 0) as [|Hn0]; [done|].
    unfold s'. cbn. rewrite lookup_insert_ne; [done|]. intros [= E]. symmetry in E. revert E. apply Hne; [|done]. by apply slot_of_range.
Qed.

(** A change of the inode in the cache that leaves its place and its blocks. *)
Lemma file_ok_same s s' ip i i' : file_ok s ip i -> fview s' = fview s -> fsb s' = fsb s -> icache s' !! ip = Some i' ->
  d_addrs (i_d i') = d_addrs (i_d i) -> i_dev i' = i_dev i -> i_inum i' = i_inum i ->
  file_ok s' ip i' /\ (forall k, slot s' i' k = slot s i k) /\ (forall m, fblock s' i' m = fblock s i m).
Proof.
  intros Hf Hv Hs Hg Ha Hd Hn. assert (Hsl : forall k, slot s' i' k = slot s i k) by (intros k; apply slot_same; [done|done|by rewrite Hv]).
  assert (Hu : forall b, in_use s' (i_dev i) b = in_use s (i_dev i) b) by (intros b; unfold in_use; by rewrite Hs, Hv). split_and!; [|done|].
  - split; [done|rewrite Ha; apply Hf|rewrite Hd; eapply map_ok_view; [apply Hf|done|done]|rewrite Hn, Hs; apply Hf| |].
    + intros k Hk. rewrite Hsl, Hd, Hs, Hu. intros Hk0. by apply (fo_slot _ _ _ Hf k Hk Hk0).
    + intros k k' Hk Hk'. rewrite !Hsl. by apply (fo_inj _ _ _ Hf).
  - intros m. unfold fblock, blockof. by rewrite Hsl, Hd, Hv.
Qed.

Lemma set_size_ok s ip i n : file_ok s ip i ->
  let i' := i <| i_d ::= fun d => d <| d_size := n |> |> in
  let s' := s <| icache ::= alter (fun i => i <| i_d ::= fun d => d <| d_size := n |> |>) ip |> in
  file_ok s' ip i' /\ (forall k, slot s' i' k = slot s i k) /\ (forall m, fblock s' i' m = fblock s i m).
Proof. intros Hf. apply (file_ok_same s); try done. cbn. by rewrite list_lookup_alter_eq, (fo_get _ _ _ Hf). Qed.

(** The file after a write: the bytes, the size, and the inode and the disk ready
    for the next operation. *)
Record written (s : fs) (i : inode) (off : Z) (src : list Z) (s' : fs) (ip : nat) (i' : inode) : Prop := {
  wn_ok : file_ok s' ip i';
  wn_type : d_type (i_d i') = d_type (i_d i);
  wn_size : d_size (i_d i') = if decide (src = []) then d_size (i_d i) else Z.max (d_size (i_d i)) (off + Z.of_nat (length src));
  wn_byte : forall k, 0 <= k < MAXFILE * 512 ->
    fbyte s' i' k = if decide (off <= k < off + Z.of_nat (length src)) then default 0 (src !! Z.to_nat (k - off)) else fbyte s i k;
  wn_dense : dense s i -> dense s' i';
  wn_icache : forall ip', ip' <> ip -> icache s' !! ip' = icache s !! ip';
  wn_i : exists d, i' = i <| i_d := d |>;
  wn_sb : fsb s' = fsb s;
  wn_log : forall x, x ∈ flog s' -> x = (i_dev i, IBLOCK (i_inum i) (fsb s)) \/ x ∈ flog s \/
    x.1 = i_dev i /\ ((exists b, 0 <= b < sb_size (fsb s) /\ x.2 = BBLOCK b (fsb s)) \/
      exists k, touched off (Z.of_nat (length src)) k /\ x.2 = slot s' i' k)
}.

Lemma fwrote_dense s ip i off src s' i' size : fwrote s ip i off src s' i' -> 0 <= off <= d_size (i_d i) -> d_size (i_d i) <= size ->
  size <= Z.max (d_size (i_d i)) (off + Z.of_nat (length src)) ->
  dense s i -> forall n, 0 <= n < MAXFILE -> n * 512 < size -> blockof s' i' n <> 0.
Proof.
  intros Hw Ho Hs1 Hs2 Hd n Hn Hlt. destruct (slot_of_range n Hn). destruct (decide (n * 512 < d_size (i_d i))) as [Hin|Hout].
  - unfold blockof. rewrite (wr_slot _ _ _ _ _ _ _ Hw); [by apply Hd|done|by apply Hd].
  - replace n with (n * 512 / 512) by zlia. apply (wr_there _ _ _ _ _ _ _ Hw). lia.
Qed.

(** A write that does not change the size. *)
Lemma fwrote_written s ip i off src s' i' : fwrote s ip i off src s' i' -> log_in s s' i' (touched off (Z.of_nat (length src))) ->
  0 <= off <= d_size (i_d i) ->
  src = [] \/ src <> [] /\ off + Z.of_nat (length src) <= d_size (i_d i) -> written s i off src s' ip i'.
Proof.
  intros Hw Hlog Ho Hs. destruct (fwrote_fields _ _ _ _ _ _ _ Hw) as (Hd1 & _ & Hs1 & Ht1).
  split; [apply Hw|done| |by apply (wr_byte _ _ _ _ _ _ _ Hw)| |by apply Hw|eexists; apply Hw|apply Hw|].
  - rewrite Hs1. case_decide; [done|]. destruct Hs as [|[_ ?]]; [done|lia].
  - intros Hd n. rewrite Hs1. eapply fwrote_dense; [exact Hw|done|lia| |done].
    destruct Hs as [->|[_ ?]]; cbn; lia.
  - intros x Hx. right. rewrite <- Hd1. destruct (Hlog x Hx) as [|(E & [Hb|(k & Hk & _ & Ek)])]; [by left|right; split; [done|by left]|].
    right. split; [done|]. right. by exists k.
Qed.

Lemma writei_ok s ip i off src : file_ok s ip i -> d_type (i_d i) <> T_DEV -> 0 <= d_size (i_d i) ->
  0 <= off <= d_size (i_d i) -> off + Z.of_nat (length src) <= MAXFILE * 512 ->
  or_full (writei devwrite ip src off) s (fun r s' => r = Z.of_nat (length src) /\ exists i', written s i off src s' ip i').
Proof.
  intros Hf Ht Hsz Ho Hm. unfold writei. eapply or_full_step; [apply get_ip_ok, Hf|]. cbv zeta.
  destruct (Z.eqb_spec (d_type (i_d i)) T_DEV); [done|]. rewrite (u32_small (off + _)) by (unfold MAXFILE in *; lia).
  destruct (Z.gtb_spec off (d_size (i_d i))); [lia|]. destruct (Z.ltb_spec (off + Z.of_nat (length src)) off); [lia|]. cbn [orb].
  destruct (Z.gtb_spec (off + Z.of_nat (length src)) (MAXFILE * 512)); [lia|].
  eapply or_full_bind; [apply (writei_loop_ok _ s ip i off src Hf); lia|]. intros off' s1 (-> & i1 & Hw & Hlog).
  destruct (fwrote_fields _ _ _ _ _ _ _ Hw) as (Hd1 & Hin1 & Hs1 & Ht1). pose proof (wr_ok _ _ _ _ _ _ _ Hw) as Hf1.
  eapply or_full_step; [apply get_ip_ok, Hf1|]. rewrite Hs1. rewrite s32_small by (unfold MAXFILE in *; lia).
  destruct (Z.gtb_spec (Z.of_nat (length src)) 0) as [Hpos|Hz]; [destruct (Z.gtb_spec (off + Z.of_nat (length src)) (d_size (i_d i))) as [Hg|Hle]|]; cbn [andb].
  - set (n' := off + Z.of_nat (length src)) in *. destruct (set_size_ok s1 ip i1 n' Hf1) as (Hf2 & Hsl2 & Hb2).
    destruct (iupdate_ok _ _ _ Hf2) as (d & Hl & Hd & Hup & Hf3 & Hsl3 & Hb3).
    eapply or_full_step; [rewrite (bind_ret _ _ _ _ _ (upd_ip_ok s1 ip i1 _ (fo_get _ _ _ Hf1))); exact Hup|].
    eapply or_full_ret; [done|]. split; [done|]. eexists. split; [exact Hf3|done| | | | | |cbn; apply Hw|].
    + cbn. rewrite decide_False by (intros ->; cbn in Hpos; lia). lia.
    + intros k Hk. rewrite <- (wr_byte _ _ _ _ _ _ _ Hw k Hk). unfold fbyte. rewrite Hb3, Hb2; [done|]. unfold MAXFILE in *. zlia.
    + intros Hde m Hn Hlt. unfold blockof. rewrite Hsl3, Hsl2. eapply (fwrote_dense s ip i off src s1 i1 n' Hw); try done; cbn in Hlt; lia.
    + intros ip' Hne. cbn. rewrite list_lookup_alter_ne by done. by apply Hw.
    + rewrite (wr_i _ _ _ _ _ _ _ Hw). eexists. reflexivity.
    + intros x Hx. cbn in Hx. apply elem_of_app in Hx as [Hx|Hx%list_elem_of_singleton].
      * right. rewrite <- Hd1. destruct (Hlog x Hx) as [|(E & [Hb|(k & Hk & _ & Ek)])]; [by left|right; split; [done|by left]|].
        right. split; [done|]. right. exists k. by rewrite Hsl3, Hsl2.
      * left. subst x. by rewrite (wr_sb _ _ _ _ _ _ _ Hw), Hd1, Hin1.
  - eapply or_full_step; [done|]. eapply or_full_ret; [done|]. split; [done|]. exists i1. eapply fwrote_written; [done|done|done|].
    right. split; [|lia]. intros ->. cbn in Hpos. lia.
  - eapply or_full_step; [done|]. eapply or_full_ret; [done|]. split; [done|]. exists i1. eapply fwrote_written; [done|done|done|].
    left. destruct src; [done|cbn in Hz; lia].
Qed.

(** C3. [writei] then [readi]: unless the disk is full (then the kernel panics), the
    write takes all of its bytes, and any later read of the file delivers, up to
    the end of the file, the new bytes where they were written and the old ones
    elsewhere.  Neither loop runs out of fuel: the fuel is the number of bytes. *)
Theorem file_write_read s ip i off src :
  file_ok s ip i -> d_type (i_d i) <> T_DEV -> 0 <= off <= d_size (i_d i) -> d_size (i_d i) <= MAXFILE * 512 ->
  off + Z.of_nat (length src) <= MAXFILE * 512 ->
  or_full (writei devwrite ip src off) s (fun r s' =>
    r = Z.of_nat (length src) /\ exists i', file_ok s' ip i' /\
    d_size (i_d i') = (if decide (src = []) then d_size (i_d i) else Z.max (d_size (i_d i)) (off + Z.of_nat (length src))) /\
    forall off' n, 0 <= off' <= d_size (i_d i') -> 0 <= n -> off' + n < 2 ^ 32 ->
    or_full (readi devread ip off' n) s' (fun r s2 =>
      let c := Z.min n (d_size (i_d i') - off') in
      r = (c, (fun k => if decide (off <= k < off + Z.of_nat (length src)) then default 0 (src !! Z.to_nat (k - off)) else fbyte s i k)
                <$> seqZ off' c))).
Proof.
  intros Hf Ht Ho Hsz Hm. eapply or_full_mono; [by apply (writei_ok s ip i off src Hf); lia|].
  intros r s' [-> [i' [W1 W2 W3 W4 _ _ _ _ _]]]. split; [done|]. exists i'. split_and!; [done|done|]. intros off' n Ho' Hn Hon.
  assert (Hsz' : d_size (i_d i') <= MAXFILE * 512) by (rewrite W3; case_decide; lia).
  eapply or_full_mono; [apply (readi_ok s' ip i' off' n W1); [by rewrite W2|lia|lia|lia|lia]|].
  intros r s2 (i2 & _ & ->). cbv zeta. unfold read_count. f_equal. apply list_fmap_ext. intros j k Hk. apply lookup_seqZ in Hk.
  apply W4. lia.
Qed.

(** What [readi] and [writei] refuse, they refuse with -1 and without a change:
    a start beyond the end of the file, a length that makes the offset wrap
    around, and for a write an end beyond the largest file. *)
Theorem file_bounds_refused s ip i off n src :
  file_ok s ip i -> d_type (i_d i) <> T_DEV -> is_u32 off -> is_u32 n -> Z.of_nat (length src) < 2 ^ 32 ->
  (off > d_size (i_d i) \/ off + n >= 2 ^ 32 -> readi devread ip off n s = Ret (-1, []) s) /\
  (off > d_size (i_d i) \/ off + Z.of_nat (length src) > MAXFILE * 512 -> writei devwrite ip src off s = Ret (-1) s).
Proof.
  intros Hf Ht Ho Hn Hl. unfold is_u32 in *. pose proof (get_ip_ok _ _ _ (fo_get _ _ _ Hf)) as Hg. split; intros Hc.
  - unfold readi. rewrite (bind_ret _ _ _ _ _ Hg). destruct (Z.eqb_spec (d_type (i_d i)) T_DEV); [done|]. cbv zeta.
    destruct (Z.gtb_spec off (d_size (i_d i))); [done|]. destruct (Z.ltb_spec (u32 (off + n)) off) as [|Hge]; [done|]. exfalso.
    unfold u32 in Hge. zlia.
  - unfold writei. rewrite (bind_ret _ _ _ _ _ Hg). destruct (Z.eqb_spec (d_type (i_d i)) T_DEV); [done|]. cbv zeta.
    destruct (Z.gtb_spec off (d_size (i_d i))); [done|]. destruct (Z.ltb_spec (u32 (off + Z.of_nat (length src))) off) as [|Hge]; [done|].
    cbn [orb]. destruct (Z.gtb_spec (u32 (off + Z.of_nat (length src))) (MAXFILE * 512)) as [|Hle]; [done|]. exfalso.
    unfold u32, MAXFILE in *. zlia.
Qed.
End Devices.

(** ** Witnesses: an empty inode, number 1 of the small disk. *)

Definition small_inode (type : Z) : inode := Inode 1 1 1 (SleepLock 0 0 0) true (Dinode type 0 0 1 0 (replicate 13 0)).
Definition small_fs1 (type : Z) : fs := FsState small_view [] small_sb [small_inode type].

Lemma small_file_ok type : file_ok (small_fs1 type) 0 (small_inode type).
Proof.
  assert (Hs : forall k, slot (small_fs1 type) (small_inode type) k = 0).
  { intros k. unfold slot. destruct (k <=? NDIRECT); [|done]. unfold addr_at. destruct (aget _ k) as [a|] eqn:E; [|done].
    apply aget_Some_range in E as Hr. rewrite <- (Z2Nat.id k) in E by lia. rewrite aget_nat in E. by apply lookup_replicate in E as [-> _]. }
  split; [done|done|eapply map_ok_view; [apply small_map_ok|done|done]|done| |].
  - intros k _ Hk. by rewrite Hs in Hk.
  - intros k k' _ _ Hk. by rewrite Hs in Hk.
Qed.

Lemma file_write_read_witness :
  or_full (writei (fun _ => None) 0 [7; 8; 9] 0) (small_fs1 T_FILE) (fun r s' => r = 3 /\ exists i', d_size (i_d i') = 3 /\
    or_full (readi (fun _ => None) 0 1 100) s' (fun r _ => r = (2, [8; 9]))).
Proof.
  eapply or_full_mono; [apply (file_write_read (fun _ => None) (fun _ => None) (small_fs1 T_FILE) 0 (small_inode T_FILE) 0 [7; 8; 9] (small_file_ok T_FILE)); first [discriminate|cbn; unfold MAXFILE; lia]|].
  intros r s' (-> & i' & _ & Hsz & Hr). rewrite decide_False in Hsz by done. cbn in Hsz. split; [done|]. exists i'. split; [done|].
  eapply or_full_mono; [apply (Hr 1 100); lia|]. intros r s2 ->. rewrite Hsz. reflexivity.
Defined.

Lemma file_bounds_refused_witness :
  readi (fun _ => None) 0 1 10 (small_fs1 T_FILE) = Ret (-1, []) (small_fs1 T_FILE) /\ writei (fun _ => None) 0 [1] 1 (small_fs1 T_FILE) = Ret (-1) (small_fs1 T_FILE).
Proof.
  split.
  - apply (file_bounds_refused (fun _ => None) (fun _ => None) (small_fs1 T_FILE) 0 (small_inode T_FILE) 1 10 [] (small_file_ok T_FILE)); first [discriminate|cbn; unfold is_u32; lia].
  - apply (file_bounds_refused (fun _ => None) (fun _ => None) (small_fs1 T_FILE) 0 (small_inode T_FILE) 1 10 [1] (small_file_ok T_FILE)); first [discriminate|cbn; unfold is_u32; lia].
Defined.
