(* ===== verification/FsInode.v ===== *)
(** * FsInode: the inode cache and the inodes on disk

    The inode cache of fs.c under any sequence of [iget], [idup], [iput] and the
    operations on inodes that are in use: an inode has one entry, which stays its
    entry as long as someone holds a pointer to it, and the entry counts its
    holders.  And the inode on disk: what [iupdate] stores is what [ilock] loads. *)

From S2P Require Import Prelude Mem Sleeplock Log Fs FsAlloc FsFile.

(** ** The cache *)

(** What identifies an entry: its device and inode number, and its count. *)
Definition core (i : inode) : Z * Z * Z := (i_dev i, i_inum i, i_ref i).
Definition cores (s : fs) : list (Z * Z * Z) := core <$> icache s.
Definition same_cores (s s' : fs) : Prop := cores s' = cores s.

#[export] Instance same_cores_preorder : PreOrder same_cores.
Proof. split; [by intros s|]. intros s1 s2 s3 H1 H2. unfold same_cores in *. congruence. Qed.

(** A pointer to an inode: the entry, and the device and number it was got for. *)
Notation holder := (nat * (Z * Z))%type.
Definition holders_of (h : list holder) (ip : nat) : Z := occ ip (fst <$> h).

(** The count is an [int]; there are far fewer pointers than it can count. *)
Definition few (h : list holder) : Prop := Z.of_nat (length h) < 2 ^ 31 - 1.

(** What threads do with inodes: get one, copy a pointer, drop a pointer, and the
    operations on an inode that is held. *)
Inductive cstep : fs * list holder -> fs * list holder -> Prop :=
  | c_get dev inum s h ip s' : few h -> iget dev inum s = Ret ip s' -> cstep (s, h) (s', (ip, (dev, inum)) :: h)
  | c_dup x s h ip s' : few h -> x ∈ h -> idup x.1 s = Ret ip s' -> cstep (s, h) (s', (ip, x.2) :: h)
  | c_put pid x s h1 h2 s' : iput pid x.1 s = Ret tt s' -> cstep (s, h1 ++ x :: h2) (s', h1 ++ h2)
  | c_lock pid ip s h s' : ilock pid ip s = Ret tt s' -> cstep (s, h) (s', h)
  | c_unlock pid ip s h s' : iunlock pid ip s = Ret tt s' -> cstep (s, h) (s', h)
  | c_update ip s h s' : iupdate ip s = Ret tt s' -> cstep (s, h) (s', h)
  | c_trunc ip s h s' : itrunc ip s = Ret tt s' -> cstep (s, h) (s', h)
  | c_read ip off n s h bs s' : readi (fun _ => None) ip off n s = Ret bs s' -> cstep (s, h) (s', h)
  | c_write ip src off s h n s' : writei (fun _ => None) ip src off s = Ret n s' -> cstep (s, h) (s', h).

Record cinv (c : list (Z * Z * Z)) (h : list holder) : Prop := {
  ci_ref : forall ip d n r, c !! ip = Some (d, n, r) -> r = holders_of h ip;
  ci_held : forall x, x ∈ h -> exists r, c !! x.1 = Some (x.2.1, x.2.2, r);
  ci_one : forall ip ip' d n r r', c !! ip = Some (d, n, r) -> c !! ip' = Some (d, n, r') -> 0 < r -> 0 < r' -> ip = ip'
}.

(** Operations that leave the cores alone: known ones first, before they are
    taken apart. *)
Ltac cores_auto := repeat first [solve [eauto with keeps]|keeps_step]; try typeclasses eauto.

Lemma get_ip_keeps R `{!PreOrder R} ip : keeps R (get_ip ip).
Proof. unfold get_ip. keeps_auto. Qed.
#[export] Hint Resolve get_ip_keeps : keeps.

Lemma cores_alter s f g ip : (forall i, core (f i) = g (core i)) -> cores (s <| icache ::= alter f ip |>) = alter g ip (cores s).
Proof. intros H. unfold cores. cbn. apply list_fmap_alter. by apply Forall_true. Qed.

Lemma upd_ip_cores ip f : (forall i, core (f i) = core i) -> keeps same_cores (upd_ip ip f).
Proof.
  intros Hf. unfold upd_ip. apply keeps_bind; [typeclasses eauto|apply get_ip_keeps; typeclasses eauto|]. intros _.
  apply keeps_modify. intros s. unfold same_cores. rewrite (cores_alter s f id ip Hf). by apply list_alter_id.
Qed.

Lemma log_write_cores dev b d : keeps same_cores (log_write dev b d).
Proof. by apply keeps_modify. Qed.

Lemma bread_cores dev b : keeps same_cores (bread dev b).
Proof. unfold bread. keeps_auto. Qed.
#[export] Hint Resolve log_write_cores bread_cores : keeps.
#[export] Hint Extern 2 (keeps same_cores (upd_ip _ _)) => (apply upd_ip_cores; intros ?; reflexivity) : keeps.

Lemma balloc_bits_cores d bis : keeps same_cores (balloc_bits d bis).
Proof. induction bis; cbn; cores_auto. Qed.
#[export] Hint Resolve balloc_bits_cores : keeps.

Lemma balloc_cores dev : keeps same_cores (balloc dev).
Proof.
  unfold balloc. apply keeps_bind; [typeclasses eauto|apply keeps_gets; typeclasses eauto|]. intros sb.
  induction (map_steps (sb_size sb)); cbn; unfold bzero; cores_auto.
Qed.

Lemma bfree_cores dev b : keeps same_cores (bfree dev b).
Proof. unfold bfree. cores_auto. Qed.

Lemma iupdate_cores ip : keeps same_cores (iupdate ip).
Proof. unfold iupdate. cores_auto. Qed.

Lemma set_addr_cores ip k v : keeps same_cores (set_addr ip k v).
Proof. apply upd_ip_cores. done. Qed.
#[export] Hint Resolve balloc_cores bfree_cores iupdate_cores set_addr_cores : keeps.

Lemma addr_or_alloc_cores ip k : keeps same_cores (addr_or_alloc ip k).
Proof. unfold addr_or_alloc. cores_auto.
 Qed.
#[export] Hint Resolve addr_or_alloc_cores : keeps.

Lemma bmap_cores ip n : keeps same_cores (bmap ip n).
Proof. unfold bmap. cores_auto. Qed.
#[export] Hint Resolve bmap_cores : keeps.

Lemma itrunc_cores ip : keeps same_cores (itrunc ip).
Proof. unfold itrunc. cores_auto. Qed.

Lemma on_ilock_cores {A} ip (m : M sleeplock A) : keeps same_cores (on_ilock ip m).
Proof. unfold on_ilock. cores_auto. Qed.
#[export] Hint Resolve itrunc_cores on_ilock_cores : keeps.

Lemma take_ilock_cores pid ip : keeps same_cores (take_ilock pid ip).
Proof. unfold take_ilock. cores_auto. Qed.
#[export] Hint Resolve take_ilock_cores : keeps.

Lemma ilock_cores pid ip : keeps same_cores (ilock pid ip).
Proof. unfold ilock. cores_auto. Qed.

Lemma iunlock_cores pid ip : keeps same_cores (iunlock pid ip).
Proof. unfold iunlock. cores_auto. Qed.

Lemma readi_loop_cores fuel : forall ip off todo, keeps same_cores (readi_loop fuel ip off todo).
Proof. induction fuel as [|fuel IH]; intros ip off todo; cbn; cores_auto. Qed.

Lemma writei_loop_cores fuel : forall ip off src, keeps same_cores (writei_loop fuel ip off src).
Proof. induction fuel as [|fuel IH]; intros ip off [|x src]; cbn; cores_auto. Qed.
#[export] Hint Resolve readi_loop_cores writei_loop_cores : keeps.

Lemma readi_cores ip off n : keeps same_cores (readi (fun _ => None) ip off n).
Proof. unfold readi. cores_auto. Qed.

Lemma writei_cores ip src off : keeps same_cores (writei (fun _ => None) ip src off).
Proof. unfold writei. cores_auto. Qed.

(** The effect of the operations that count. *)
Lemma cores_lookup s ip : cores s !! ip = core <$> icache s !! ip.
Proof. apply list_lookup_fmap. Qed.

Lemma upd_ip_core s ip f g s' : (forall i, core (f i) = g (core i)) -> upd_ip ip f s = Ret tt s' ->
  exists x, cores s !! ip = Some x /\ cores s' = <[ip := g x]> (cores s).
Proof.
  intros Hg H. destruct (icache s !! ip) as [i|] eqn:Ei.
  - rewrite (upd_ip_ok s ip i f Ei) in H. injection H as <-. exists (core i). rewrite (cores_alter s f g ip Hg).
    assert (E : cores s !! ip = Some (core i)) by (by rewrite cores_lookup, Ei). split; [done|]. by apply list_alter_insert.
  - unfold upd_ip, get_ip in H. apply bind_inv in H as (i & s1 & H & _). apply bind_inv in H as (c & s2 & [= <- <-] & H). by rewrite Ei in H.
Qed.

Definition bump (x : Z * Z * Z) : Z * Z * Z := (x.1, s32 (x.2 + 1)).
Definition drop_ref (x : Z * Z * Z) : Z * Z * Z := (x.1, s32 (x.2 - 1)).

Lemma idup_core s ip ip' s' : idup ip s = Ret ip' s' -> ip' = ip /\ exists x, cores s !! ip = Some x /\ cores s' = <[ip := bump x]> (cores s).
Proof.
  intros H. unfold idup in H. apply bind_inv in H as ([] & s1 & H & [= <- <-]). split; [done|]. by eapply upd_ip_core in H.
Qed.

Lemma iput_core pid s ip s' : iput pid ip s = Ret tt s' -> exists x, cores s !! ip = Some x /\ cores s' = <[ip := drop_ref x]> (cores s).
Proof.
  intros H. unfold iput in H. apply bind_inv in H as ([] & s1 & H1 & H). apply bind_inv in H as (i & s2 & H2 & H).
  apply bind_inv in H as ([] & s3 & H3 & H). apply bind_inv in H as ([] & s4 & H4 & H).
  assert (E : same_cores s s4).
  { etrans; [exact (take_ilock_cores _ _ _ _ _ H1)|]. etrans; [exact (get_ip_keeps _ _ _ _ _ H2)|].
    etrans; [|exact (on_ilock_cores _ _ _ _ _ H4)].
    match type of H3 with ?m _ = _ => assert (K : keeps same_cores m) by cores_auto; exact (K _ _ _ H3) end. }
  unfold same_cores in E. rewrite <- E. by eapply upd_ip_core in H.
Qed.

Lemma iget_core dev inum s : match iget dev inum s with
  | Ret ip s' => exists x, cores s !! ip = Some x /\
      ((x.1 = (dev, inum) /\ 0 < x.2 /\ cores s' = <[ip := bump x]> (cores s)) \/
       (x.2 = 0 /\ (forall ip' r, cores s !! ip' = Some (dev, inum, r) -> r <= 0) /\ cores s' = <[ip := (dev, inum, 1)]> (cores s)))
  | Panic m => m = "iget: no inodes"%string /\ (forall ip' r, cores s !! ip' = Some (dev, inum, r) -> r <= 0) /\
      (forall ip' x, cores s !! ip' = Some x -> x.2 <> 0)
  | _ => False
  end.
Proof.
  unfold iget. rewrite (bind_ret (gets icache) _ s (icache s) s eq_refl).
  assert (Hno : findi (fun i => (i_ref i >? 0) && (i_dev i =? dev) && (i_inum i =? inum)) (icache s) = None ->
    forall ip' r, cores s !! ip' = Some (dev, inum, r) -> r <= 0).
  { intros Ef ip' r Hl. rewrite cores_lookup in Hl. destruct (icache s !! ip') as [i|] eqn:Ei; [|done]. cbn in Hl. injection Hl as H1 H2 <-.
    pose proof (proj1 (findi_None _ _) Ef ip' i Ei) as Hf. cbn in Hf. rewrite H1, H2, !Z.eqb_refl, !andb_true_r in Hf. destruct (Z.gtb_spec (i_ref i) 0); [done|lia]. }
  destruct (findi _ (icache s)) as [ip|] eqn:Ef.
  - apply findi_Some in Ef as [(i & Ei & Hi) _]. apply andb_true_iff in Hi as [Hi Hn]. apply andb_true_iff in Hi as [Hr Hd].
    apply Z.eqb_eq in Hn, Hd. destruct (Z.gtb_spec (i_ref i) 0) as [Hpos|]; [|done].
    rewrite (bind_ret _ _ _ _ _ (upd_ip_ok s ip i _ Ei)). exists (core i). rewrite cores_lookup, Ei. split; [done|]. left.
    split_and!; [by cbn; rewrite Hd, Hn|done|]. rewrite (cores_alter s _ bump ip) by done.
    apply list_alter_insert. by rewrite cores_lookup, Ei.
  - specialize (Hno eq_refl). destruct (findi (fun i => i_ref i =? 0) (icache s)) as [ip|] eqn:Ef0.
    + apply findi_Some in Ef0 as [(i & Ei & Hi) _]. apply Z.eqb_eq in Hi. rewrite (bind_ret _ _ _ _ _ (upd_ip_ok s ip i _ Ei)).
      exists (core i). rewrite cores_lookup, Ei. split; [done|]. right. split_and!; [done|done|].
      rewrite (cores_alter s _ (fun _ => (dev, inum, 1)) ip) by done. rewrite (list_alter_insert _ _ _ (core i)); [done|]. by rewrite cores_lookup, Ei.
    + cbn. split_and!; [done|done|]. intros ip' x Hl. rewrite cores_lookup in Hl. destruct (icache s !! ip') as [i|] eqn:Ei; [|done].
      injection Hl as <-. cbn. pose proof (proj1 (findi_None _ _) Ef0 ip' i Ei) as Hf. cbn in Hf. by apply Z.eqb_neq.
Qed.

Lemma holders_cons x h ip : holders_of (x :: h) ip = holders_of h ip + if decide (x.1 = ip) then 1 else 0.
Proof. apply occ_cons. Qed.

Lemma holders_mid x h1 h2 ip : holders_of (h1 ++ x :: h2) ip = holders_of (h1 ++ h2) ip + if decide (x.1 = ip) then 1 else 0.
Proof. unfold holders_of. rewrite !fmap_app. apply occ_mid. Qed.

Lemma holders_le h ip : 0 <= holders_of h ip <= Z.of_nat (length h).
Proof. unfold holders_of. rewrite <- (length_fmap fst h). apply occ_range. Qed.

Lemma holders_pos x h : x ∈ h -> 0 < holders_of h x.1.
Proof. intros Hx. apply occ_pos. by apply list_elem_of_fmap_2. Qed.

(** One more pointer to an entry that is in use. *)
Lemma cinv_bump c h ip d n r : cinv c h -> few h -> c !! ip = Some (d, n, r) -> 0 < r -> cinv (<[ip := (d, n, s32 (r + 1))]> c) ((ip, (d, n)) :: h).
Proof.
  intros [I1 I2 I3] Hfew Hip Hr. pose proof (I1 _ _ _ _ Hip) as Er. pose proof (holders_le h ip). unfold few in Hfew.
  assert (Hs : s32 (r + 1) = r + 1) by (apply s32_small; lia). rewrite Hs. split.
  - intros ip' d' n' r' Hl. rewrite holders_cons. cbn [fst]. apply list_lookup_insert_Some in Hl as [(<- & [= <- <- <-] & _)|[Hne Hl]].
    + rewrite decide_True by done. lia.
    + rewrite decide_False by done. apply I1 in Hl. lia.
  - intros x Hx. apply elem_of_cons in Hx as [->|Hx]; cbn [fst snd].
    + eexists. apply list_lookup_insert_eq. by eapply lookup_lt_Some.
    + destruct (I2 x Hx) as [rx Hlx]. destruct (decide (ip = x.1)) as [->|Hne].
      * rewrite Hip in Hlx. injection Hlx as -> -> ->. eexists. apply list_lookup_insert_eq. by eapply lookup_lt_Some.
      * exists rx. by rewrite list_lookup_insert_ne.
  - intros i1 i2 d' n' r1 r2 H1 H2 P1 P2.
    apply list_lookup_insert_Some in H1 as [(<- & [= <- <- <-] & _)|[N1 H1]], H2 as [(<- & E & _)|[N2 H2]].
    + done.
    + eapply I3; [exact Hip|exact H2|lia|lia].
    + injection E as <- <- <-. eapply I3; [exact H1|exact Hip|lia|lia].
    + eapply I3; eauto.
Qed.

(** An unused entry taken for an inode that has none. *)
Lemma cinv_fresh c h ip d n x : cinv c h -> c !! ip = Some x -> x.2 = 0 -> (forall ip' r, c !! ip' = Some (d, n, r) -> r <= 0) ->
  cinv (<[ip := (d, n, 1)]> c) ((ip, (d, n)) :: h).
Proof.
  intros [I1 I2 I3] Hip Hx Hno. destruct x as [[dx nx] rx]. cbn in Hx. subst rx. pose proof (I1 _ _ _ _ Hip) as Er. split.
  - intros ip' d' n' r' Hl. rewrite holders_cons. cbn [fst]. apply list_lookup_insert_Some in Hl as [(<- & [= <- <- <-] & _)|[Hne Hl]].
    + rewrite decide_True by done. lia.
    + rewrite decide_False by done. apply I1 in Hl. lia.
  - intros x Hx. apply elem_of_cons in Hx as [->|Hx]; cbn [fst snd].
    + eexists. apply list_lookup_insert_eq. by eapply lookup_lt_Some.
    + destruct (I2 x Hx) as [rx Hlx]. exists rx. rewrite list_lookup_insert_ne; [done|]. intros ->. pose proof (holders_pos x h Hx). lia.
  - intros i1 i2 d' n' r1 r2 H1 H2 P1 P2.
    apply list_lookup_insert_Some in H1 as [(<- & [= <- <- <-] & _)|[N1 H1]], H2 as [(<- & E & _)|[N2 H2]].
    + done.
    + apply Hno in H2. lia.
    + injection E as <- <- <-. apply Hno in H1. lia.
    + eapply I3; eauto.
Qed.

(** A pointer dropped. *)
Lemma cinv_put c h1 x h2 y : cinv c (h1 ++ x :: h2) -> few (h1 ++ h2) -> c !! x.1 = Some y -> cinv (<[x.1 := drop_ref y]> c) (h1 ++ h2).
Proof.
  intros [I1 I2 I3] Hfew Hip. destruct y as [[d n] r]. pose proof (I1 _ _ _ _ Hip) as Er. rewrite holders_mid, decide_True in Er by done.
  pose proof (holders_le (h1 ++ h2) x.1). unfold few in Hfew. unfold drop_ref. cbn [fst snd]. rewrite s32_small by lia.
  assert (Hin : forall z, z ∈ h1 ++ h2 -> z ∈ h1 ++ x :: h2) by (intros z; rewrite !elem_of_app, elem_of_cons; tauto). split.
  - intros ip' d' n' r' Hl. apply list_lookup_insert_Some in Hl as [(<- & [= <- <- <-] & _)|[Hne Hl]]; [lia|].
    apply I1 in Hl. rewrite holders_mid, decide_False in Hl by done. lia.
  - intros z Hz. destruct (I2 z (Hin z Hz)) as [rz Hlz]. destruct (decide (x.1 = z.1)) as [E|Hne].
    + rewrite E in Hip |- *. rewrite Hip in Hlz. injection Hlz as -> -> ->. eexists. apply list_lookup_insert_eq. by eapply lookup_lt_Some.
    + exists rz. by rewrite list_lookup_insert_ne.
  - intros i1 i2 d' n' r1 r2 H1 H2 P1 P2.
    apply list_lookup_insert_Some in H1 as [(<- & [= <- <- <-] & _)|[N1 H1]], H2 as [(<- & E & _)|[N2 H2]].
    + done.
    + eapply I3; [exact Hip|exact H2|lia|lia].
    + injection E as <- <- <-. eapply I3; [exact H1|exact Hip|lia|lia].
    + eapply I3; eauto.
Qed.

Lemma cstep_inv s h s' h' : cinv (cores s) h -> Z.of_nat (length h) <= 2 ^ 31 - 1 -> cstep (s, h) (s', h') ->
  cinv (cores s') h' /\ Z.of_nat (length h') <= 2 ^ 31 - 1.
Proof.
  intros Hi Hfew Hst. inversion Hst as [dev inum ? ? ip ? Hf H|x ? ? ip ? Hf Hx H|pid x ? g1 g2 ? H|pid ip ? ? ? H|pid ip ? ? ? H|ip ? ? ? H|ip ? ? ? H
    |ip off n ? ? bs ? H|ip src off ? ? n ? H]; subst;
    (split; [|unfold few in *; rewrite ?length_app in *; cbn [length] in *; lia]).
  - pose proof (iget_core dev inum s) as Hg. rewrite H in Hg. destruct Hg as (y & Hy & [(E & Hp & ->)|(E & Hno & ->)]).
    + destruct y as [[d n] r]. cbn in E, Hp. injection E as -> ->. by apply cinv_bump.
    + by eapply cinv_fresh.
  - apply idup_core in H as (-> & y & Hy & ->). destruct (ci_held _ _ Hi x Hx) as [r Hr]. rewrite Hr in Hy. injection Hy as <-.
    destruct x as [ip [d n]]. apply cinv_bump; try done. rewrite (ci_ref _ _ Hi _ _ _ _ Hr). by apply (holders_pos (ip, (d, n))).
  - apply iput_core in H as (y & Hy & ->). apply cinv_put; try done. unfold few in *. rewrite length_app in *. cbn [length] in Hfew. lia.
  - rewrite (ilock_cores _ _ _ _ _ H). done.
  - rewrite (iunlock_cores _ _ _ _ _ H). done.
  - rewrite (iupdate_cores _ _ _ _ H). done.
  - rewrite (itrunc_cores _ _ _ _ H). done.
  - rewrite (readi_cores _ _ _ _ _ _ H). done.
  - rewrite (writei_cores _ _ _ _ _ _ H). done.
Qed.

Lemma cinv_boot c : (forall ip x, c !! ip = Some x -> x.2 = 0) -> cinv c [].
Proof.
  intros H. split.
  - intros ip d n r Hl. by apply H in Hl.
  - intros x Hx. by apply elem_of_nil in Hx.
  - intros ip ip' d n r r' Hl _ Hp. apply H in Hl. cbn in Hl. lia.
Qed.

Lemma reach_cinv s0 s h : (forall ip x, cores s0 !! ip = Some x -> x.2 = 0) -> rtc cstep (s0, []) (s, h) ->
  cinv (cores s) h /\ Z.of_nat (length h) <= 2 ^ 31 - 1.
Proof.
  intros H0 Hr. cut (forall p q, rtc cstep p q -> cinv (cores p.1) p.2 -> Z.of_nat (length p.2) <= 2 ^ 31 - 1 ->
    cinv (cores q.1) q.2 /\ Z.of_nat (length q.2) <= 2 ^ 31 - 1).
  { intros H. apply (H _ _ Hr); [by apply cinv_boot|cbn; lia]. }
  clear. induction 1 as [p|[s h] [s' h'] q Hst _ IH]; [done|]. intros Hi Hl. cbn [fst snd] in *.
  destruct (cstep_inv s h s' h' Hi Hl Hst). by apply IH.
Qed.

(** C20. The inode cache, after any sequence of the operations of fs.c on it: two
    pointers are to the same entry exactly if they are to the same inode; the
    entry of a pointer is still that of its inode, and its [ref] is the number of
    pointers to it; and [iget] gives the entry that others hold, if there is one,
    and panics only when all entries are held. *)
Theorem inode_cache_one_entry s0 s h :
  (forall ip x, cores s0 !! ip = Some x -> x.2 = 0) -> rtc cstep (s0, []) (s, h) ->
  (forall x y, x ∈ h -> y ∈ h -> x.1 = y.1 <-> x.2 = y.2) /\
  (forall x, x ∈ h -> exists i, icache s !! x.1 = Some i /\ (i_dev i, i_inum i) = x.2 /\ i_ref i = holders_of h x.1) /\
  (forall dev inum, (exists ip s', iget dev inum s = Ret ip s' /\ forall x, x ∈ h -> x.2 = (dev, inum) -> ip = x.1) \/
    (iget dev inum s = Panic "iget: no inodes" /\ (forall x, x ∈ h -> x.2 <> (dev, inum)) /\
     forall ip i, icache s !! ip = Some i -> 0 < holders_of h ip)).
Proof.
  intros H0 Hr. destruct (reach_cinv s0 s h H0 Hr) as [[I1 I2 I3] _].
  assert (Hpos : forall x, x ∈ h -> exists r, cores s !! x.1 = Some (x.2.1, x.2.2, r) /\ 0 < r).
  { intros x Hx. destruct (I2 x Hx) as [r Hl]. exists r. split; [done|]. rewrite (I1 _ _ _ _ Hl). by apply holders_pos. }
  split_and!.
  - intros [ix [dx nx]] [iy [dy ny]] Hx Hy. destruct (Hpos _ Hx) as (rx & Hlx & Px), (Hpos _ Hy) as (ry & Hly & Py). cbn in *. split.
    + intros ->. rewrite Hlx in Hly. by injection Hly as -> -> _.
    + intros [= -> ->]. by eapply I3.
  - intros x Hx. destruct (I2 x Hx) as [r Hl]. pose proof (I1 _ _ _ _ Hl) as Er. rewrite cores_lookup in Hl.
    destruct (icache s !! x.1) as [i|]; [|done]. cbn in Hl. injection Hl as E1 E2 E3. exists i. destruct x as [ip [d n]]. cbn in *. split_and!; congruence.
  - intros dev inum. pose proof (iget_core dev inum s) as Hg. destruct (iget dev inum s) as [ip s'|m| |]; [| |done|done].
    + left. exists ip, s'. split; [done|]. destruct Hg as ([[d n] r] & Hl & [(E & Hp & _)|(E & Hno & _)]); intros x Hx Ex;
        destruct (Hpos x Hx) as (rx & Hlx & Prx); destruct x as [ix [dx nx]]; cbn in *; injection Ex as -> ->.
      * injection E as -> ->. by eapply I3.
      * apply Hno in Hlx. lia.
    + right. destruct Hg as (-> & Hno & Hall). split_and!; [done| |].
      * intros x Hx Ex. destruct (Hpos x Hx) as (r & Hl & Hp). destruct x as [ix [dx nx]]. cbn in *. injection Ex as -> ->. apply Hno in Hl. lia.
      * intros ip i Hi. assert (Hl : cores s !! ip = Some (core i)) by (by rewrite cores_lookup, Hi). pose proof (Hall _ _ Hl) as Hnz. cbn in Hnz.
        unfold core in Hl. pose proof (I1 _ _ _ _ Hl) as Er. pose proof (holders_le h ip). lia.
Qed.

(** A cache of two entries, in which inodes 5 and 6 are got and 5 is copied. *)
Definition free_inode : inode := Inode 0 0 0 (SleepLock 0 0 0) false (Dinode 0 0 0 0 0 (replicate 13 0)).
Definition small_cache : fs := FsState small_view [] small_sb [free_inode; free_inode].

Lemma small_cache_run : exists s, rtc cstep (small_cache, []) (s, [(0%nat, (1, 5)); (1%nat, (1, 6)); (0%nat, (1, 5))]).
Proof.
  eexists. eapply rtc_l; [apply (c_get 1 5); [by cbv|reflexivity]|]. eapply rtc_l; [apply (c_get 1 6); [by cbv|reflexivity]|].
  eapply rtc_l; [eapply (c_dup (0%nat, (1, 5))); [by cbv|apply list_elem_of_further, list_elem_of_here|reflexivity]|]. apply rtc_refl.
Qed.

Lemma inode_cache_one_entry_witness :
  exists s h, rtc cstep (small_cache, []) (s, h) /\ (forall x y, x ∈ h -> y ∈ h -> x.1 = y.1 <-> x.2 = y.2) /\
    exists i, icache s !! 0%nat = Some i /\ i_ref i = 2.
Proof.
  destruct small_cache_run as [s Hr]. exists s, [(0%nat, (1, 5)); (1%nat, (1, 6)); (0%nat, (1, 5))].
  assert (H0 : forall ip x, cores small_cache !! ip = Some x -> x.2 = 0) by (intros [|[|ip]] x; cbn; [intros [= <-]|intros [= <-]|]; done).
  destruct (inode_cache_one_entry small_cache s _ H0 Hr) as (H1 & H2 & _). split_and!; [done|exact H1|].
  destruct (H2 (0%nat, (1, 5)) (list_elem_of_here _ _)) as (i & Hi & _ & Hn). exists i. split; [done|]. by rewrite Hn.
Defined.

(** ** Inodes on disk *)

(** The fields of an inode in their ranges. *)
Record dinode_ok (i : dinode) : Prop := {
  dk_type : - 2 ^ 15 <= d_type i < 2 ^ 15;
  dk_major : - 2 ^ 15 <= d_major i < 2 ^ 15;
  dk_minor : - 2 ^ 15 <= d_minor i < 2 ^ 15;
  dk_nlink : - 2 ^ 15 <= d_nlink i < 2 ^ 15;
  dk_size : is_u32 (d_size i);
  dk_len : length (d_addrs i) = 13%nat;
  dk_addrs : Forall is_u32 (d_addrs i)
}.

(** Two blocks that agree on [n] bytes from [off]. *)
Definition agree (d d' : block) (off n : nat) : Prop := forall k, (off <= k < off + n)%nat -> d' !! k = d !! k.

Lemma get16_agree d d' off : agree d d' off 2 -> get16 d' off = get16 d off.
Proof. intros H. unfold get16. by rewrite !H by lia. Qed.

Lemma get32_agree d d' off : agree d d' off 4 -> get32 d' off = get32 d off.
Proof. intros H. unfold get32. by rewrite !H by lia. Qed.

Lemma get_words_agree n : forall d d' off, agree d d' off (4 * n) -> get_words d' off n = get_words d off n.
Proof.
  induction n as [|n IH]; intros d d' off H; [done|]. cbn. rewrite (get32_agree d d') by (intros k Hk; apply H; lia).
  by rewrite (IH d d') by (intros k Hk; apply H; lia).
Qed.

Lemma agree_trans d1 d2 d3 off n : agree d1 d2 off n -> agree d2 d3 off n -> agree d1 d3 off n.
Proof. intros H1 H2 k Hk. by rewrite H2, H1. Qed.

Lemma agree_inserts d o l off n : (o + length l <= off \/ off + n <= o)%nat -> agree d (list_inserts o l d) off n.
Proof. intros H k Hk. destruct (decide (k < o)%nat); [by apply list_lookup_inserts_lt|apply list_lookup_inserts_ge; lia]. Qed.

Lemma agree_words ws : forall d o off n, (o + 4 * length ws <= off \/ off + n <= o)%nat -> agree d (put_words d o ws) off n.
Proof.
  induction ws as [|w ws IH]; intros d o off n H; [by intros k|]. cbn [put_words length] in *.
  eapply agree_trans; [|apply IH; lia]. apply agree_inserts. cbn. lia.
Qed.

Lemma get16_put16 d off v : (off + 2 <= length d)%nat -> get16 (put16 d off v) off = Some (v mod 2 ^ 16).
Proof.
  intros H. unfold get16, put16. rewrite !list_lookup_inserts by (cbn; lia).
  replace (off - off)%nat with 0%nat by lia. replace (off + 1 - off)%nat with 1%nat by lia. cbn [lookup list_lookup mbind option_bind]. f_equal.
  unfold u8. rewrite Z.shiftr_div_pow2 by lia. zlia.
Qed.

Lemma s16_mod v : - 2 ^ 15 <= v < 2 ^ 15 -> s16 (v mod 2 ^ 16) = v.
Proof. intros H. unfold s16. zlia. Qed.

Lemma get_put_words ws : forall d off, (off + 4 * length ws <= length d)%nat -> Forall is_u32 ws -> get_words (put_words d off ws) off (length ws) = Some ws.
Proof.
  induction ws as [|w ws IH]; intros d off Hl Hu; [done|]. apply Forall_cons in Hu as [Hw Hu]. cbn [put_words get_words length] in *.
  rewrite (get32_agree (put32 d off w)) by (apply agree_words; lia). rewrite get32_put32_eq by lia. cbn [mbind option_bind].
 
  rewrite IH by (rewrite ?put32_length; lia || done). cbn [mbind option_bind]. by rewrite u32_small by (unfold is_u32 in Hw; lia).
Qed.

(** The bytes outside of an inode stay. *)
Lemma agree_dinode d p i off n : length (d_addrs i) = 13%nat -> (p + 64 <= off \/ off + n <= p)%nat -> agree d (put_dinode d p i) off n.
Proof.
  intros Hl H. unfold put_dinode. eapply agree_trans; [|apply agree_words; rewrite Hl; lia].
  do 4 (eapply agree_trans; [|apply agree_inserts; cbn; lia]). apply agree_inserts. cbn. lia.
Qed.

Ltac outside := repeat (eapply agree_trans; [|first [apply agree_words; cbn; lia|apply agree_inserts; cbn; lia]]); by intros k.

Lemma get_put_dinode d p i : dinode_ok i -> (p + 64 <= length d)%nat -> get_dinode (put_dinode d p i) p = Some i.
Proof.
  intros [H1 H2 H3 H4 H5 H6 H7] Hl. unfold get_dinode, put_dinode.
  rewrite (get16_agree (put16 d p (d_type i)) _ p), get16_put16 by (outside || lia). cbn [mbind option_bind].
  set (d1 := put16 d p (d_type i)). assert (L1 : length d1 = length d) by apply put16_length.
  rewrite (get16_agree (put16 d1 (p + 2) (d_major i)) _ (p + 2)), get16_put16 by (outside || lia). cbn [mbind option_bind].
  set (d2 := put16 d1 (p + 2) (d_major i)). assert (L2 : length d2 = length d) by (unfold d2; by rewrite put16_length).
  rewrite (get16_agree (put16 d2 (p + 4) (d_minor i)) _ (p + 4)), get16_put16 by (outside || lia). cbn [mbind option_bind].
  set (d3 := put16 d2 (p + 4) (d_minor i)). assert (L3 : length d3 = length d) by (unfold d3; by rewrite put16_length).
  rewrite (get16_agree (put16 d3 (p + 6) (d_nlink i)) _ (p + 6)), get16_put16 by (outside || lia). cbn [mbind option_bind].
  set (d4 := put16 d3 (p + 6) (d_nlink i)). assert (L4 : length d4 = length d) by (unfold d4; by rewrite put16_length).
  rewrite (get32_agree (put32 d4 (p + 8) (d_size i)) _ (p + 8)), get32_put32_eq by (outside || lia). cbn [mbind option_bind].
  rewrite <- H6. rewrite get_put_words by (rewrite ?put32_length, ?L4, ?H6; lia || done). cbn [mbind option_bind].
  rewrite !s16_mod, u32_small by (done || lia). by destruct i.
Qed.

Lemma get_dinode_agree d d' p : agree d d' p 64 -> get_dinode d' p = get_dinode d p.
Proof.
  intros H. unfold get_dinode. rewrite !(get16_agree d d') by (intros k Hk; apply H; lia).
  rewrite (get32_agree d d') by (intros k Hk; apply H; lia). by rewrite (get_words_agree _ d d') by (intros k Hk; apply H; lia).
Qed.

Lemma IBLOCK_inj sb n n' : is_u32 (sb_ninodes sb) -> 0 <= n < sb_ninodes sb -> 0 <= n' < sb_ninodes sb -> IBLOCK n sb = IBLOCK n' sb -> n / IPB = n' / IPB.
Proof. unfold IBLOCK, u32, is_u32, IPB. intros H H1 H2 E. zlia. Qed.

(** The inode with its lock taken, and given back. *)
Definition locked_by (pid : Z) (i : inode) : inode := i <| i_lock ::= fun l => l <| sl_locked := 1 |> <| sl_pid := pid |> |>.
Definition unlocked (i : inode) : inode := i <| i_lock ::= fun l => l <| sl_locked := 0 |> <| sl_pid := 0 |> <| slwakes ::= S |> |>.

Lemma on_ilock_ok {A} s ip j (m : M sleeplock A) a l : icache s !! ip = Some j -> m (i_lock j) = Ret a l ->
  on_ilock ip m s = Ret a (s <| icache ::= <[ip := j <| i_lock := l |>]> |>).
Proof.
  intros Hj Hm. unfold on_ilock. rewrite (bind_ret _ _ _ _ _ (get_ip_ok _ _ _ Hj)), Hm, (bind_ret _ _ _ _ _ (upd_ip_ok s ip j _ Hj)).
  destruct s as [v g sb c]. cbn in Hj.
  change (Ret a (FsState v g sb (alter (fun i : inode => i <| i_lock := l |>) ip c)) = Ret a (FsState v g sb (<[ip := j <| i_lock := l |>]> c))).
  by rewrite (list_alter_insert _ c ip j Hj).
Qed.

Lemma take_ilock_ok pid s ip j : icache s !! ip = Some j -> sl_locked (i_lock j) = 0 ->
  take_ilock pid ip s = Ret tt (s <| icache ::= <[ip := locked_by pid j]> |>).
Proof.
  intros Hj Hl. unfold take_ilock. erewrite bind_ret; [|eapply (on_ilock_ok s ip j _ true); [done|unfold acquiresleep; msimp; rewrite Hl; reflexivity]].
  done.
Qed.

(** [ilock] and [iunlock] of an inode that is in the cache. *)
Lemma ilock_valid pid s ip j : icache s !! ip = Some j -> 1 <= i_ref j -> i_valid j = true -> sl_locked (i_lock j) = 0 ->
  ilock pid ip s = Ret tt (s <| icache ::= <[ip := locked_by pid j]> |>).
Proof.
  intros Hj Hr Hv Hl. unfold ilock. rewrite (bind_ret _ _ _ _ _ (get_ip_ok _ _ _ Hj)). destruct (Z.ltb_spec (i_ref j) 1); [lia|].
  rewrite (bind_ret _ _ _ _ _ (take_ilock_ok pid s ip j Hj Hl)). erewrite bind_ret; [|apply get_ip_ok; cbn; apply list_lookup_insert_eq; by eapply lookup_lt_Some].
  cbn. by rewrite Hv.
Qed.

Lemma iunlock_ok pid s ip j : icache s !! ip = Some j -> 1 <= i_ref j -> sl_locked (i_lock j) = 1 -> sl_pid (i_lock j) = pid ->
  iunlock pid ip s = Ret tt (s <| icache ::= <[ip := unlocked j]> |>).
Proof.
  intros Hj Hr Hl Hp. unfold iunlock. erewrite bind_ret; [|eapply (on_ilock_ok s ip j _ true); [done|unfold holdingsleep; msimp; by rewrite Hl, Hp, Z.eqb_refl]].
  set (s1 := s <| icache ::= _ |>). assert (Hs1 : s1 = s).
  { destruct s as [v g sb c]. unfold s1, setf. cbn in *. f_equal. destruct j as [? ? ? [] ? ?]. by apply list_insert_id. }
  rewrite Hs1. rewrite (bind_ret _ _ _ _ _ (get_ip_ok _ _ _ Hj)). destruct (Z.ltb_spec (i_ref j) 1); [lia|]. cbn [negb orb].
  eapply (on_ilock_ok s ip j _ tt); [done|reflexivity].
Qed.

(** [ilock] on an entry that is not valid and not locked. *)
Lemma ilock_load pid s ip j d di : icache s !! ip = Some j -> 1 <= i_ref j -> i_valid j = false -> sl_locked (i_lock j) = 0 ->
  fview s !! (i_dev j, IBLOCK (i_inum j) (fsb s)) = Some d -> get_dinode d (dip (i_inum j)) = Some di -> d_type di <> 0 ->
  exists s' j', ilock pid ip s = Ret tt s' /\ icache s' !! ip = Some j' /\ i_d j' = di /\ i_valid j' = true /\ sl_locked (i_lock j') = 1 /\ sl_pid (i_lock j') = pid.
Proof.
  intros Hj Hr Hv Hl Hd Hg Ht. unfold ilock. rewrite (bind_ret _ _ _ _ _ (get_ip_ok _ _ _ Hj)). destruct (Z.ltb_spec (i_ref j) 1); [lia|].
  rewrite (bind_ret _ _ _ _ _ (take_ilock_ok pid s ip j Hj Hl)). set (s1 := s <| icache ::= _ |>). set (j1 := locked_by pid j).
  assert (Hj1 : icache s1 !! ip = Some j1) by (unfold s1; cbn; apply list_lookup_insert_eq; by eapply lookup_lt_Some).
  rewrite (bind_ret _ _ _ _ _ (get_ip_ok _ _ _ Hj1)). change (i_valid j1) with (i_valid j). rewrite Hv.
  rewrite (bind_ret (gets fsb) _ s1 (fsb s) s1 eq_refl), (bind_ret _ _ _ _ _ (bread_ok s1 (i_dev j) _ _ Hd)).
  change (i_inum j1) with (i_inum j). rewrite Hg. cbn [deref]. rewrite ret_bind, (bind_ret _ _ _ _ _ (upd_ip_ok s1 ip j1 _ Hj1)).
  destruct (Z.eqb_spec (d_type di) 0); [done|]. eexists _, _. split; [done|]. split; [etrans; [apply (list_lookup_alter_eq _ (icache s1) ip)|rewrite Hj1; reflexivity]|done].
Qed.

(** [iupdate] and [ilock]: whoever later loads the inode, into whatever entry of
    the cache, gets the fields that were stored; and storing an inode does not
    change the others, also not those in the same block. *)
Theorem inode_store_load pid s ip i :
  file_ok s ip i -> dinode_ok (i_d i) -> d_type (i_d i) <> 0 -> is_u32 (sb_ninodes (fsb s)) ->
  exists s', iupdate ip s = Ret tt s' /\
  (forall s2 ip2 j, fview s2 = fview s' -> fsb s2 = fsb s' -> icache s2 !! ip2 = Some j -> i_dev j = i_dev i -> i_inum j = i_inum i ->
     1 <= i_ref j -> i_valid j = false -> sl_locked (i_lock j) = 0 ->
     exists s3 j', ilock pid ip2 s2 = Ret tt s3 /\ icache s3 !! ip2 = Some j' /\ i_d j' = i_d i /\ i_valid j' = true) /\
  (forall n, 0 <= n < sb_ninodes (fsb s) -> n <> i_inum i -> exists d d', fview s !! (i_dev i, IBLOCK n (fsb s)) = Some d /\
     fview s' !! (i_dev i, IBLOCK n (fsb s)) = Some d' /\ get_dinode d' (dip n) = get_dinode d (dip n)).
Proof.
  intros Hf Hok Ht Hu. destruct (iupdate_ok s ip i Hf) as (d & Hl & Hd & Hup & _ & _). eexists. split; [exact Hup|].
  set (s' := logged s _ _ _). assert (Hp : (dip (i_inum i) + 64 <= 512)%nat) by (unfold dip, IPB; zlia).
  assert (Hs' : fview s' !! (i_dev i, IBLOCK (i_inum i) (fsb s)) = Some (put_dinode d (dip (i_inum i)) (i_d i))) by (unfold s'; cbn; apply lookup_insert_eq).
  split.
  - intros s2 ip2 j Hv Hsb Hj E1 E2 Hr Hva Hlk. destruct (ilock_load pid s2 ip2 j (put_dinode d (dip (i_inum i)) (i_d i)) (i_d i)) as (s3 & j' & H1 & H2 & H3 & H4 & _); try done.
    + rewrite Hv, Hsb, E1, E2. exact Hs'.
    + rewrite E2. apply get_put_dinode; [done|lia].
    + exists s3, j'. done.
  - intros n Hn Hne. destruct (mo_inodes _ _ (fo_map _ _ _ Hf) n Hn) as [Hr _]. destruct (mo_blocks _ _ (fo_map _ _ _ Hf) _ Hr) as (dn & Hdn & _).
    exists dn. destruct (decide (IBLOCK n (fsb s) = IBLOCK (i_inum i) (fsb s))) as [E|E].
    + rewrite E in Hdn |- *. rewrite Hd in Hdn. injection Hdn as <-. eexists. split_and!; [done|exact Hs'|]. apply get_dinode_agree, agree_dinode; [apply Hok|].
      apply (IBLOCK_inj (fsb s)) in E; [|done|done|apply Hf]. pose proof (fo_inum _ _ _ Hf). unfold dip, IPB in *. zlia.
    + exists dn. split_and!; [done| |done]. unfold s'. cbn. rewrite lookup_insert_ne by congruence. done.
Qed.

Lemma inode_store_load_witness :
  exists s', iupdate 0 (small_fs1 T_FILE) = Ret tt s' /\
  (forall s2 ip2 j, fview s2 = fview s' -> fsb s2 = fsb s' -> icache s2 !! ip2 = Some j -> i_dev j = 1 -> i_inum j = 1 ->
     1 <= i_ref j -> i_valid j = false -> sl_locked (i_lock j) = 0 ->
     exists s3 j', ilock 7 ip2 s2 = Ret tt s3 /\ icache s3 !! ip2 = Some j' /\ i_d j' = Dinode T_FILE 0 0 1 0 (replicate 13 0) /\ i_valid j' = true).
Proof.
  destruct (inode_store_load 7 (small_fs1 T_FILE) 0 (small_inode T_FILE)) as (s' & H1 & H2 & _).
  - apply small_file_ok.
  - split; try (cbn; unfold T_FILE, is_u32; lia). apply Forall_replicate. unfold is_u32. lia.
  - done.
  - cbn. unfold is_u32. lia.
  - exists s'. split; [exact H1|exact H2].
Defined.
