(* ===== verification/FsDir.v ===== *)
(** * FsDir: names

    The directory layer of fs.c over the files of [FsFile]: [dirlookup] and
    [dirlink] against a directory as a list of entries, and path names.  [namex]
    is shown equal to a walk along the list of the path's elements. *)

From S2P Require Import Prelude Mem Sleeplock Log Fs FsAlloc FsFile.

(** ** Paths *)

(** The elements of a path, [cur] being what was read of the one at hand. *)
Fixpoint elems_from (cur path : list Z) : list (list Z) :=
  match path with
  | [] => match cur with [] => [] | _ => [cur] end
  | c :: p => if c =? SLASH then match cur with [] => elems_from [] p | _ => cur :: elems_from [] p end else elems_from (cur ++ [c]) p
  end.
Definition path_elems (path : list Z) : list (list Z) := elems_from [] path.

Lemma elements_skip path : path_elems (skip_slashes path) = path_elems path.
Proof. unfold path_elems. induction path as [|c p IH]; [done|]. cbn. destruct (Z.eqb_spec c SLASH) as [->|Hne]; [done|]. cbn. by destruct (Z.eqb_spec c SLASH). Qed.

Lemma elements_elem path : forall cur, elems_from cur path = (match cur ++ (elem path).1 with [] => [] | e => [e] end) ++ path_elems (elem path).2.
Proof.
  induction path as [|c p IH]; intros cur; cbn.
  - rewrite !app_nil_r. by destruct cur.
  - destruct (Z.eqb_spec c SLASH) as [->|Hne]; cbn.
    + rewrite app_nil_r. by destruct cur.
    + by rewrite IH, <- app_assoc.
Qed.

Lemma skip_slashes_head path c p : skip_slashes path = c :: p -> c <> SLASH.
Proof. induction path as [|x q IH]; cbn; [done|]. destruct (Z.eqb_spec x SLASH); [done|]. congruence. Qed.

Lemma skip_slashes_length path : (length (skip_slashes path) <= length path)%nat.
Proof. induction path as [|c p IH]; cbn; [done|]. destruct (c =? SLASH); cbn; lia. Qed.

Lemma elem_length path : (length (elem path).2 <= length path)%nat.
Proof. induction path as [|c p IH]; cbn; [done|]. destruct (c =? SLASH); cbn; lia. Qed.

(** [skipelem] takes the first element, cut to [DIRSIZ], and what it leaves holds
    the others; it has none left exactly when it is empty. *)
Lemma skipelem_ok path :
  match skipelem path with
  | None => path_elems path = []
  | Some (name, rest) => exists e, path_elems path = e :: path_elems rest /\ name = take DIRSIZ e /\
      (length rest < length path)%nat /\ (rest = [] <-> path_elems rest = [])
  end.
Proof.
  unfold skipelem. pose proof (skip_slashes_length path) as Hl. destruct (skip_slashes path) as [|c p] eqn:E.
  - rewrite <- elements_skip, E. done.
  - pose proof (skip_slashes_head _ _ _ E) as Hc. destruct (elem (c :: p)) as [e rest] eqn:Ee.
    assert (He : path_elems path = e :: path_elems rest /\ (length rest <= length p)%nat).
    { rewrite <- elements_skip, E. unfold path_elems at 1. rewrite elements_elem, Ee. cbn in Ee |- *.
      destruct (Z.eqb_spec c SLASH); [done|]. injection Ee as <- <-. split; [done|apply elem_length]. }
    destruct He as [He Hr]. exists e. rewrite elements_skip. pose proof (skip_slashes_length rest). cbn in Hl. split_and!; [done|done|lia|].
    split.
    + intros H0. rewrite <- elements_skip, H0. done.
    + intros H0. rewrite <- elements_skip in H0. destruct (skip_slashes rest) as [|x q] eqn:Ex; [done|].
      apply skip_slashes_head in Ex. unfold path_elems in H0. rewrite elements_elem in H0. cbn in H0. destruct (Z.eqb_spec x SLASH); done.
Qed.

Section Walk.
Context (mypid : Z) (cwd : nat) (devread : Z -> option (nat -> Z -> M fs (Z * list Z))).

(** The walk along the elements of a path: each names an entry of the directory
    that the one before it names. *)
Fixpoint walk (parent : bool) (ip : nat) (es : list (list Z)) (name : list Z) : M fs (option nat * list Z) :=
  match es with
  | [] => if parent then iput mypid ip;; mret (None, name) else mret (Some ip, name)
  | e :: es' =>
      let name := take DIRSIZ e in
      ilock mypid ip;;
      i ← get_ip ip;
      if negb (d_type (i_d i) =? T_DIR) then iunlockput mypid ip;; mret (None, name)
      else if parent && bool_decide (es' = []) then iunlock mypid ip;; mret (Some ip, name)
      else
        r ← dirlookup devread ip name;
        match r with
        | None => iunlockput mypid ip;; mret (None, name)
        | Some (next, _) => iunlockput mypid ip;; walk parent next es' name
        end
  end.

Lemma namex_loop_walk fuel : forall parent ip path name s, (length path <= fuel)%nat ->
  namex_loop mypid devread fuel parent ip path name s = walk parent ip (path_elems path) name s.
Proof.
  induction fuel as [|fuel IH]; intros parent ip path name s Hl; cbn [namex_loop]; pose proof (skipelem_ok path) as Hs.
  { destruct path; [done|cbn in Hl; lia]. }
  destruct (skipelem path) as [[nm rest]|]; [|by rewrite Hs]. destruct Hs as (e & -> & -> & Hlt & Hnil). cbn [walk]. cbv zeta.
  apply bind_ext. intros [] s1 _. apply bind_ext. intros i s2 _. destruct (negb (d_type (i_d i) =? T_DIR)); [done|].
  assert (Eb : (match rest with [] => true | _ => false end) = bool_decide (path_elems rest = [])).
  { destruct rest; [done|]. rewrite bool_decide_eq_false_2; [done|]. intros H. by apply Hnil in H. }
  rewrite Eb. destruct (parent && bool_decide (path_elems rest = [])); [done|].
  apply bind_ext. intros [[next off]|] s3 _; [|done]. apply bind_ext. intros [] s4 _. apply IH. lia.
Qed.

(** C34. [namex] follows the elements of the path one by one, from the root if the path
    starts with a slash and from the working directory otherwise.  Repeated and
    trailing slashes do not matter, each element counts up to [DIRSIZ] bytes, and
    the loop ends: the length of the path is fuel enough. *)
Theorem namex_walks path parent s :
  namex mypid cwd devread path parent s =
  (ip ← (if hd 0 path =? SLASH then iget ROOTDEV ROOTINO else idup cwd); walk parent ip (path_elems path) []) s.
Proof. unfold namex. apply bind_ext. intros ip s1 _. by apply namex_loop_walk. Qed.
End Walk.

(** ** Directories *)

(** A name in its field: what [strncpy] leaves. *)
Notation field := (strncpy_name DIRSIZ).

Lemma strncpy_name_zeros n : strncpy_name n [] = replicate n 0.
Proof. by destruct n. Qed.

Lemma strncmp_field n : forall p q, (strncmp_name n p q =? 0) = bool_decide (strncpy_name n p = strncpy_name n q).
Proof.
  induction n as [|n IH]; intros p q; [done|]. cbn [strncmp_name strncpy_name].
  destruct (Z.eqb_spec (hd 0 p) 0) as [Hp|Hp]; cbn [negb andb].
  - rewrite Hp. destruct (Z.eqb_spec (hd 0 q) 0) as [Hq|Hq].
    + rewrite Hq. by rewrite bool_decide_eq_true_2.
    + rewrite bool_decide_eq_false_2; [by apply Z.eqb_neq; lia|]. cbn. congruence.
  - destruct (Z.eqb_spec (hd 0 p) (hd 0 q)) as [E|E].
    + rewrite <- E. destruct (Z.eqb_spec (hd 0 p) 0); [done|]. rewrite IH. apply bool_decide_ext. split; congruence.
    + assert (Hne : hd 0 p - hd 0 q <> 0) by lia. apply Z.eqb_neq in Hne. rewrite Hne.
      rewrite bool_decide_eq_false_2; [done|]. destruct (Z.eqb_spec (hd 0 q) 0); cbn; congruence.
Qed.

Lemma strncpy_name_length n : forall t, length (strncpy_name n t) = n.
Proof. induction n as [|n IH]; intros t; [done|]. cbn. destruct (hd 0 t =? 0); cbn; [by rewrite length_replicate|by rewrite IH]. Qed.

Lemma strncpy_name_idem n : forall t, strncpy_name n (strncpy_name n t) = strncpy_name n t.
Proof.
  induction n as [|n IH]; intros t; [done|]. cbn. destruct (Z.eqb_spec (hd 0 t) 0) as [|Hne]; [done|]. cbn.
  destruct (Z.eqb_spec (hd 0 t) 0); [done|]. by rewrite IH.
Qed.

(** The bytes of the entry at [off], its inode number and its name. *)
Definition ent (s : fs) (i : inode) (off : Z) : list Z := fbyte s i <$> seqZ off 16.
Definition ent_inum (s : fs) (i : inode) (off : Z) : Z := fbyte s i off + 2 ^ 8 * fbyte s i (off + 1).
Definition ent_name (s : fs) (i : inode) (off : Z) : list Z := field (drop 2 (ent s i off)).

(** The offset of the entry that has a name. *)
Definition lookup_name (s : fs) (i : inode) (name : list Z) (offs : list Z) : option Z :=
  List.find (fun off => negb (ent_inum s i off =? 0) && bool_decide (ent_name s i off = field name)) offs.

(** A directory: a file of whole entries with no block missing. *)
Record dir_ok (s : fs) (dp : nat) (i : inode) : Prop := {
  do_file : file_ok s dp i;
  do_type : d_type (i_d i) = T_DIR;
  do_size : 0 <= d_size (i_d i) <= MAXFILE * 512;
  do_whole : d_size (i_d i) mod 16 = 0;
  do_dense : dense s i
}.

Lemma dir_steps_in size off : 0 <= size -> size mod 16 = 0 -> off ∈ dir_steps size <-> 0 <= off < size /\ off mod 16 = 0.
Proof.
  intros Hs Hm. unfold dir_steps. rewrite list_elem_of_fmap. split.
  - intros (k & -> & Hk). apply elem_of_seqZ in Hk. zlia.
  - intros [Ho Hm2]. exists (off / 16). split; [zlia|]. apply elem_of_seqZ. zlia.
Qed.

Lemma readi_loop_dense fuel : forall s ip i off todo, file_ok s ip i -> dense s i -> 0 <= off -> 0 <= todo <= Z.of_nat fuel ->
  off + todo <= d_size (i_d i) -> d_size (i_d i) <= MAXFILE * 512 -> readi_loop fuel ip off todo s = Ret (fbyte s i <$> seqZ off todo) s.
Proof.
  induction fuel as [|fuel IH]; intros s ip i off todo Hf Hde Ho Ht Hm Hmax.
  { replace todo with 0 by lia. done. }
  cbn [readi_loop]. destruct (Z.leb_spec todo 0) as [|Hpos]; [by replace todo with 0 by lia|].
  assert (Hn : 0 <= off / 512 < MAXFILE) by (unfold MAXFILE in *; zlia). assert (Hr : 0 <= off mod 512 < 512) by (apply Z.mod_pos_bound; lia).
  assert (Hb : blockof s i (off / 512) <> 0) by (apply Hde; [done|]; zlia).
  rewrite (bind_ret _ _ _ _ _ (get_ip_ok _ _ _ (fo_get _ _ _ Hf))), (bind_ret _ _ _ _ _ (bmap_present _ _ _ _ Hf Hn Hb)).
  rewrite (bind_ret _ _ _ _ _ (bread_ok _ _ _ _ (fblock_view _ _ _ _ Hf Hn Hb))). cbv zeta.
  set (m := Z.min todo (512 - off mod 512)). rewrite u32_small by (unfold MAXFILE in *; lia).
  rewrite (bind_ret _ _ _ _ _ (IH s ip i (off + m) (todo - m) Hf Hde ltac:(lia) ltac:(lia) ltac:(lia) Hmax)).
  rewrite (fbytes_chunk s ip i off m Hf) by (unfold m; lia).
  rewrite <- fmap_app. unfold mret, M_ret. f_equal. f_equal. symmetry. replace todo with (m + (todo - m)) at 1 by lia. apply seqZ_app; lia.
Qed.

Section Dir.
Context (mypid : Z) (devread : Z -> option (nat -> Z -> M fs (Z * list Z))) (devwrite : Z -> option (nat -> list Z -> M fs Z)).

Lemma read_entry s dp i off : dir_ok s dp i -> off ∈ dir_steps (d_size (i_d i)) -> readi devread dp off 16 s = Ret (16, ent s i off) s.
Proof.
  intros [Hf Ht Hsz Hw Hd] Ho. apply dir_steps_in in Ho as [Ho Hm]; [|lia|done]. unfold readi, ent.
  assert (Hfit : off + 16 <= d_size (i_d i)) by zlia.
  rewrite (bind_ret _ _ _ _ _ (get_ip_ok _ _ _ (fo_get _ _ _ Hf))), Ht. change (T_DIR =? T_DEV) with false. cbv zeta iota.
  rewrite (u32_small (off + 16)) by (unfold MAXFILE in *; lia).
  destruct (Z.gtb_spec off (d_size (i_d i))); [lia|]. destruct (Z.ltb_spec (off + 16) off); [lia|]. cbn [orb].
  destruct (Z.gtb_spec (off + 16) (d_size (i_d i))); [lia|].
  by rewrite (bind_ret _ _ _ _ _ (readi_loop_dense (Z.to_nat 16) s dp i off 16 Hf Hd ltac:(lia) ltac:(lia) ltac:(lia) ltac:(lia))).
Qed.

Lemma ent_cons s i off : ent s i off = fbyte s i off :: fbyte s i (off + 1) :: (fbyte s i <$> seqZ (off + 2) 14).
Proof.
  unfold ent. rewrite (seqZ_cons off 16), (seqZ_cons (Z.succ off)) by lia. cbn [fmap list_fmap].
  by replace (Z.succ off) with (off + 1) by lia; replace (Z.succ (off + 1)) with (off + 2) by lia.
Qed.

Lemma de_inum_ent s i off : de_inum (ent s i off) = Some (ent_inum s i off).
Proof. by rewrite ent_cons. Qed.

Lemma dirlookup_from_ok s dp i name offs : dir_ok s dp i -> (forall off, off ∈ offs -> off ∈ dir_steps (d_size (i_d i))) ->
  dirlookup_from devread dp name offs s =
  match lookup_name s i name offs with
  | None => Ret None s
  | Some off => (ip ← iget (i_dev i) (ent_inum s i off); mret (Some (ip, off))) s
  end.
Proof.
  intros Hd. induction offs as [|off offs IH]; intros Ho; [done|]. cbn [dirlookup_from lookup_name List.find].
  rewrite (bind_ret _ _ _ _ _ (read_entry s dp i off Hd (Ho off (list_elem_of_here _ _)))). cbn [fst snd].
  change (16 =? 16) with true. cbn [negb]; cbv iota. rewrite de_inum_ent. cbn [deref]. rewrite ret_bind.
  destruct (ent_inum s i off =? 0); cbn [negb andb]; [by apply IH; intros; apply Ho; right|].
  unfold namecmp. rewrite strncmp_field. unfold ent_name, de_name.
  rewrite (bool_decide_ext (field name = _) (field (drop 2 (ent s i off)) = field name)) by (split; congruence).
  case_bool_decide; [|by apply IH; intros; apply Ho; right]. by rewrite (bind_ret _ _ _ _ _ (get_ip_ok _ _ _ (fo_get _ _ _ (do_file _ _ _ Hd)))).
Qed.

Lemma dirlookup_ok s dp i name : dir_ok s dp i ->
  dirlookup devread dp name s =
  match lookup_name s i name (dir_steps (d_size (i_d i))) with
  | None => Ret None s
  | Some off => (ip ← iget (i_dev i) (ent_inum s i off); mret (Some (ip, off))) s
  end.
Proof.
  intros Hd. unfold dirlookup. rewrite (bind_ret _ _ _ _ _ (get_ip_ok _ _ _ (fo_get _ _ _ (do_file _ _ _ Hd)))), (do_type _ _ _ Hd).
  by apply dirlookup_from_ok.
Qed.

(** The offset where [dirlink] puts an entry. *)
Definition free_entry (s : fs) (i : inode) : Z :=
  default (d_size (i_d i)) (List.find (fun off => ent_inum s i off =? 0) (dir_steps (d_size (i_d i)))).

Lemma dirlink_from_ok s dp i : dir_ok s dp i -> forall n k, (forall j, k <= j < k + Z.of_nat n -> j * 16 ∈ dir_steps (d_size (i_d i))) ->
  let offs := (fun i => i * 16) <$> seqZ k (Z.of_nat n) in
  dirlink_from devread dp offs (k * 16) s = Ret (default ((k + Z.of_nat n) * 16) (List.find (fun off => ent_inum s i off =? 0) offs)) s.
Proof.
  intros Hd. induction n as [|n IH]; intros k Ho offs; [unfold offs; rewrite seqZ_nil by lia; cbn; f_equal; lia|].
  unfold offs. rewrite (seqZ_cons k) by lia. cbn [fmap list_fmap dirlink_from List.find].
  assert (Hk : k * 16 ∈ dir_steps (d_size (i_d i))) by (apply Ho; lia).
  rewrite (bind_ret _ _ _ _ _ (read_entry s dp i (k * 16) Hd Hk)). cbn [fst snd].
  change (16 =? 16) with true. cbn [negb]; cbv iota. rewrite de_inum_ent. cbn [deref]. rewrite ret_bind.
  destruct (ent_inum s i (k * 16) =? 0); [done|]. specialize (IH (Z.succ k)). cbv zeta in IH.
  replace (Z.pred (Z.of_nat (S n))) with (Z.of_nat n) by lia. replace (k * 16 + 16) with (Z.succ k * 16) by lia.
  rewrite IH by (intros; apply Ho; lia). by replace (Z.succ k + Z.of_nat n) with (k + Z.of_nat (S n)) by lia.
Qed.

Lemma find_ext {A} (f g : A -> bool) l : (forall x, x ∈ l -> f x = g x) -> List.find f l = List.find g l.
Proof.
  induction l as [|x l IH]; intros H; [done|]. cbn. rewrite (H x) by apply list_elem_of_here.
  destruct (g x); [done|]. apply IH. intros y Hy. apply H. by right.
Qed.

Lemma find_only (f : Z -> bool) l x : x ∈ l -> f x = true -> (forall y, y ∈ l -> y <> x -> f y = false) -> List.find f l = Some x.
Proof.
  induction l as [|y l IH]; intros Hx Hf Ho; [by apply elem_of_nil in Hx|]. cbn. destruct (decide (y = x)) as [->|Hne]; [by rewrite Hf|].
  rewrite (Ho y (list_elem_of_here _ _) Hne). apply elem_of_cons in Hx as [?|Hx]; [congruence|].
  apply IH; [done|done|]. intros z Hz. apply Ho. by right.
Qed.

Lemma find_false {A} (f : A -> bool) l x : List.find f l = None -> x ∈ l -> f x = false.
Proof. intros H Hx. eapply List.find_none; [done|]. by apply list_elem_of_In. Qed.

Lemma free_entry_ok s dp i : dir_ok s dp i -> let off := free_entry s i in
  off mod 16 = 0 /\ 0 <= off <= d_size (i_d i) /\ (off = d_size (i_d i) \/ off ∈ dir_steps (d_size (i_d i)) /\ ent_inum s i off = 0).
Proof.
  intros Hd. pose proof (do_size _ _ _ Hd). pose proof (do_whole _ _ _ Hd). unfold free_entry. destruct (List.find _ _) as [off|] eqn:E; cbn.
  - apply List.find_some in E as [Hin Hz]. apply list_elem_of_In in Hin. apply Z.eqb_eq in Hz.
    pose proof Hin as Hin'. apply dir_steps_in in Hin' as [Ho Hm]; [|lia|done]. split_and!; [done|lia|lia|by right].
  - split_and!; [done|lia|lia|by left].
Qed.

(** The bytes of an entry as [dirlink] writes them. *)
Definition entry_bytes (name : list Z) (inum : Z) : list Z := [u8 inum; u8 (Z.shiftr inum 8)] ++ field name.

Lemma entry_bytes_length name inum : length (entry_bytes name inum) = 16%nat.
Proof. unfold entry_bytes. cbn [app length]. by rewrite strncpy_name_length. Qed.

(** A directory in which one entry was written. *)
Record linked_in (s : fs) (i : inode) (off : Z) (name : list Z) (inum : Z) (s' : fs) (i' : inode) : Prop := {
  li_new : ent_inum s' i' off = inum /\ ent_name s' i' off = field name;
  li_old : forall off', 0 <= off' <= MAXFILE * 512 - 16 -> off' mod 16 = 0 -> off' <> off ->
    ent_inum s' i' off' = ent_inum s i off' /\ ent_name s' i' off' = ent_name s i off';
  li_size : d_size (i_d i') = Z.max (d_size (i_d i)) (off + 16)
}.

Lemma written_linked s dp i off name inum s' i' : written s i off (entry_bytes name inum) s' dp i' ->
  0 <= off -> off mod 16 = 0 -> off + 16 <= MAXFILE * 512 -> 0 < inum < 2 ^ 16 -> linked_in s i off name inum s' i'.
Proof.
  intros [W1 W2 W3 W4 W5 W6 W7] Ho Hm Hfit Hin. rewrite entry_bytes_length in *. change (Z.of_nat 16) with 16 in *.
  assert (Hent : ent s' i' off = entry_bytes name inum).
  { unfold ent. eapply list_eq_same_length; [reflexivity|by rewrite length_fmap, length_seqZ, entry_bytes_length|].
    intros k x y Hk Hx Hy. rewrite entry_bytes_length in Hk. rewrite list_lookup_fmap, lookup_seqZ_lt in Hx by lia. cbn in Hx. injection Hx as <-.
    rewrite W4 by lia. rewrite decide_True by lia. replace (Z.to_nat (off + Z.of_nat k - off)) with k by lia. by rewrite Hy. }
  split.
  - split; [|unfold ent_name; rewrite Hent; apply strncpy_name_idem].
    rewrite ent_cons in Hent. unfold entry_bytes in Hent. cbn [app] in Hent. injection Hent as H0 H1 _. unfold ent_inum. rewrite H0, H1.
    unfold u8. rewrite Z.shiftr_div_pow2 by lia. zlia.
  - intros off' Ho' Hm' Hne.
    assert (Hb : forall k, off' <= k < off' + 16 -> fbyte s' i' k = fbyte s i k) by (intros k Hk; rewrite W4 by lia; rewrite decide_False; [done|]; zlia).
    unfold ent_inum, ent_name, ent. rewrite !Hb by lia. split; [done|]. do 2 f_equal. apply list_fmap_ext. intros j k Hk. apply lookup_seqZ in Hk. apply Hb. lia.
  - rewrite W3. by rewrite decide_False.
Qed.

Lemma dir_steps_snoc size : 0 <= size -> size mod 16 = 0 -> dir_steps (size + 16) = dir_steps size ++ [size].
Proof.
  intros Hs Hm. unfold dir_steps. replace ((size + 16 + 15) / 16) with ((size + 15) / 16 + 1) by zlia.
  rewrite seqZ_app by zlia. rewrite fmap_app. f_equal. rewrite (seqZ_cons (0 + _) 1) by lia. rewrite seqZ_nil by lia. cbn. f_equal. zlia.
Qed.

(** A lookup after [dirlink] finds the new entry under its name, and under any
    other name what it found before. *)
Lemma lookup_linked s dp i off name inum s' i' name' : dir_ok s dp i -> off = free_entry s i -> off + 16 <= MAXFILE * 512 -> 0 < inum ->
  linked_in s i off name inum s' i' -> lookup_name s i name (dir_steps (d_size (i_d i))) = None ->
  lookup_name s' i' name' (dir_steps (d_size (i_d i'))) =
  if decide (field name' = field name) then Some off else lookup_name s i name' (dir_steps (d_size (i_d i))).
Proof.
  intros Hd Eoff Hfit Hin [[N1 N2] L2 L3] Hnone. pose proof (do_size _ _ _ Hd) as Hsz. pose proof (do_whole _ _ _ Hd) as Hwh.
  destruct (free_entry_ok s dp i Hd) as (Hm & Hr & Hwhere). rewrite <- Eoff in Hm, Hr, Hwhere.
  assert (Hsz' : d_size (i_d i') = d_size (i_d i) \/ off = d_size (i_d i) /\ d_size (i_d i') = d_size (i_d i) + 16).
  { rewrite L3. destruct Hwhere as [->|[Ho _]]; [right; lia|left]. apply dir_steps_in in Ho as [Ho _]; [zlia|lia|done]. }
  assert (Hold : forall o, o ∈ dir_steps (d_size (i_d i')) -> o <> off -> o ∈ dir_steps (d_size (i_d i)) /\
    ent_inum s' i' o = ent_inum s i o /\ ent_name s' i' o = ent_name s i o).
  { intros o Ho Hne. apply dir_steps_in in Ho as [Ho Hmo]; [|lia|destruct Hsz' as [->|[_ ->]]; zlia].
    assert (Hlt : o < d_size (i_d i)) by (destruct Hsz' as [<-|[-> E]]; [lia|zlia]).
    split; [apply dir_steps_in; [lia|done|]; lia|]. apply L2; [zlia|done|done]. }
  unfold lookup_name in *. case_decide as En.
  - apply find_only.
    + destruct Hsz' as [Es|[-> ->]]; [rewrite Es|apply dir_steps_in; [lia|zlia|lia]].
      destruct Hwhere as [E|[Ho _]]; [lia|done].
    + rewrite N1, N2, bool_decide_eq_true_2 by done. destruct (Z.eqb_spec inum 0); [lia|done].
    + intros o Ho Hne. destruct (Hold o Ho Hne) as (Hin' & -> & ->). rewrite En. by apply (find_false _ _ o Hnone).
  - assert (Hnew : (negb (ent_inum s' i' off =? 0) && bool_decide (ent_name s' i' off = field name')) = false)
      by (rewrite N2, bool_decide_eq_false_2 by congruence; apply andb_false_r).
    assert (Hsame : forall o, o ∈ dir_steps (d_size (i_d i)) -> o ∈ dir_steps (d_size (i_d i')) ->
      (negb (ent_inum s' i' o =? 0) && bool_decide (ent_name s' i' o = field name')) = (negb (ent_inum s i o =? 0) && bool_decide (ent_name s i o = field name'))).
    { intros o Ho Ho'. destruct (decide (o = off)) as [->|Hne]; [|by destruct (Hold o Ho' Hne) as (_ & -> & ->)].
      rewrite Hnew. destruct Hwhere as [E|[_ ->]]; [|reflexivity]. apply dir_steps_in in Ho as [? _]; [lia|lia|done]. }
    destruct Hsz' as [Es|[Eo Es]]; rewrite Es in Hsame |- *.
    + apply find_ext. intros o Ho. apply Hsame; exact Ho.
    + rewrite dir_steps_snoc in Hsame |- * by (lia || assumption). rewrite find_app. rewrite (find_ext _ _ _ (fun o H => Hsame o H (proj2 (elem_of_app _ _ _) (or_introl H)))).
      cbn [List.find]. rewrite <- Eo, Hnew. set (r := List.find _ _) at 1. change (match r with Some x => Some x | None => None end = r). by destruct r.
Qed.

Lemma linked_dir_ok s dp i off name inum s' i' : dir_ok s dp i -> off = free_entry s i -> off + 16 <= MAXFILE * 512 ->
  linked_in s i off name inum s' i' -> written s i off (entry_bytes name inum) s' dp i' -> dir_ok s' dp i'.
Proof.
  intros Hd Eo Hfit [_ _ L3] W. destruct (free_entry_ok s dp i Hd) as (Hm & Hr & _). rewrite <- Eo in Hm, Hr. pose proof (do_size _ _ _ Hd).
  pose proof (do_whole _ _ _ Hd). split; [apply W|by rewrite (wn_type _ _ _ _ _ _ _ W), (do_type _ _ _ Hd)|lia| |apply (wn_dense _ _ _ _ _ _ _ W), Hd].
  rewrite L3. destruct (Z.max_spec (d_size (i_d i)) (off + 16)) as [[_ ->]|[_ ->]]; zlia.
Qed.

(** C12. [dirlink] then [dirlookup]: unless the disk is full, a name that was not in
    the directory is entered, the directory stays well formed, and from then on a
    lookup of the name gives the inode that was entered and a lookup of any other
    name what it gave before.  Names count up to [DIRSIZ] bytes. *)
Theorem dirlink_dirlookup s dp i name inum :
  dir_ok s dp i -> 0 < inum < 2 ^ 16 -> lookup_name s i name (dir_steps (d_size (i_d i))) = None -> free_entry s i + 16 <= MAXFILE * 512 ->
  or_full (dirlink mypid devread devwrite dp name inum) s (fun r s' => r = 0 /\ (exists i', dir_ok s' dp i') /\
    forall name', dirlookup devread dp name' s' =
      if decide (field name' = field name) then (ip ← iget (i_dev i) inum; mret (Some (ip, free_entry s i))) s'
      else match lookup_name s i name' (dir_steps (d_size (i_d i))) with
           | None => Ret None s'
           | Some off => (ip ← iget (i_dev i) (ent_inum s i off); mret (Some (ip, off))) s'
           end).
Proof.
  intros Hd Hin Hnone Hfit. pose proof (do_file _ _ _ Hd) as Hf. pose proof (do_size _ _ _ Hd) as Hsz. pose proof (do_whole _ _ _ Hd) as Hwh.
  destruct (free_entry_ok s dp i Hd) as (Hm & Hr & Hwhere). set (off := free_entry s i) in *.
  unfold dirlink. eapply or_full_step; [rewrite (dirlookup_ok s dp i name Hd), Hnone; reflexivity|]. cbv iota.
  eapply or_full_step; [apply get_ip_ok, Hf|].
  assert (Hfrom : dirlink_from devread dp (dir_steps (d_size (i_d i))) 0 s = Ret off s).
  { unfold off, free_entry. set (n := Z.to_nat ((d_size (i_d i) + 15) / 16)).
    assert (En : Z.of_nat n = (d_size (i_d i) + 15) / 16) by (unfold n; zlia).
    pose proof (dirlink_from_ok s dp i Hd n 0) as H. cbv zeta in H. rewrite En in H. fold (dir_steps (d_size (i_d i))) in H.
    change (0 * 16) with 0 in H. rewrite H; [f_equal; f_equal; zlia|]. intros j Hj. apply dir_steps_in; [lia|done|]. zlia. }
  eapply or_full_step; [exact Hfrom|]. fold (entry_bytes name inum).
  eapply or_full_bind; [apply (writei_ok devread devwrite s dp i off (entry_bytes name inum) Hf); [by rewrite (do_type _ _ _ Hd)|lia|lia|rewrite entry_bytes_length; lia]|].
  intros r s' [-> [i' W]]. rewrite entry_bytes_length. eapply or_full_ret; [reflexivity|]. split; [done|].
  pose proof (written_linked s dp i off name inum s' i' W ltac:(lia) Hm Hfit Hin) as Hli.
  pose proof (linked_dir_ok s dp i off name inum s' i' Hd eq_refl Hfit Hli W) as Hd'. split; [by exists i'|]. intros name'.
  assert (Hdev : i_dev i' = i_dev i) by (destruct (wn_i _ _ _ _ _ _ _ W) as [d ->]; done).
  rewrite (dirlookup_ok s' dp i' name' Hd'), (lookup_linked s dp i off name inum s' i' name' Hd eq_refl Hfit ltac:(lia) Hli Hnone), Hdev.
  case_decide as En; [by rewrite (proj1 (li_new _ _ _ _ _ _ _ Hli))|].
  destruct (lookup_name s i name' _) as [o|] eqn:El; [|done]. apply List.find_some in El as [Ho Hp]. apply list_elem_of_In in Ho.
  assert (Hne : o <> off).
  { intros ->. apply andb_true_iff in Hp as [Hp _]. destruct Hwhere as [E|[_ E]]; [|by rewrite E in Hp].
    apply dir_steps_in in Ho as [Ho _]; [lia|lia|done]. }
  apply dir_steps_in in Ho as [Ho Hmo]; [|lia|done]. destruct (li_old _ _ _ _ _ _ _ Hli o ltac:(zlia) Hmo Hne) as [-> _]. done.
Qed.
End Dir.

Lemma dirlink_dirlookup_witness :
  or_full (dirlink 1 (fun _ => None) (fun _ => None) 0 [97; 98] 5) (small_fs1 T_DIR) (fun r s' => r = 0 /\
    dirlookup (fun _ => None) 0 [97; 98] s' = (ip ← iget 1 5; mret (Some (ip, 0))) s' /\ dirlookup (fun _ => None) 0 [97] s' = Ret None s').
Proof.
  eapply or_full_mono; [apply (dirlink_dirlookup 1 (fun _ => None) (fun _ => None) (small_fs1 T_DIR) 0 (small_inode T_DIR) [97; 98] 5)|].
  - split; [apply small_file_ok|done|cbn; unfold MAXFILE; lia|done|]. intros n Hn H. cbn in H. lia.
  - lia.
  - done.
  - change (free_entry (small_fs1 T_DIR) (small_inode T_DIR)) with 0. unfold MAXFILE. lia.
  - intros r s' (Hr & _ & H). split_and!; [done|by rewrite H|by rewrite H].
Defined.
