(* ===== verification/File.v ===== *)
(** * File: file.c

    The table of open files over the file system of Fs.v and the pipes of Pipe.v,
    with [pipealloc] of pipe.c.  A file pointer is an index into the table.
    [begin_op] and [end_op] delimit an operation on the log: [begin_op] starts a
    new list of logged blocks in the file system's state, [end_op] appends it to
    [txs], the operations so far.  Waiting for a pipe is the end of a leg, as in
    Pipe.v: the result says so. *)

From S2P Require Import Prelude Mem Sleeplock Log Fs FsAlloc FsFile Ring Pipe.

Definition NFILE : Z := 100.

Inductive ftype := FD_NONE | FD_PIPE | FD_INODE.
#[export] Instance ftype_eq : EqDecision ftype.
Proof. solve_decision. Defined.

Record file := File {
  f_type : ftype; f_ref : Z; f_readable : bool; f_writable : bool; f_pipe : nat; f_ip : nat; f_off : Z
}.
#[export] Instance eta_file : Eta file := fun r =>
  File (f_type r) (f_ref r) (f_readable r) (f_writable r) (f_pipe r) (f_ip r) (f_off r).

Record files := Files { ffs : fs; ftable : list file; fpipes : list pipe; txs : list (list (Z * Z)) }.
#[export] Instance eta_files : Eta files := fun r => Files (ffs r) (ftable r) (fpipes r) (txs r).

Definition on_fs {A} (m : M fs A) : M files A := zoom ffs (fun t s => s <| ffs := t |>) m.

Definition on_pipe {A} (p : nat) (m : M pipe A) : M files A :=
  ps ← gets fpipes;
  x ← deref (ps !! p);
  match m x with
  | Ret a y => modify (fun s => s <| fpipes ::= <[p := y]> |>);; mret a
  | Panic msg => panic msg | Undef => undef | Spin => spin
  end.

Definition get_file (f : nat) : M files file := s ← gets ftable; deref (s !! f).
Definition upd_file (f : nat) (g : file -> file) : M files unit :=
  _ ← get_file f; modify (fun s => s <| ftable ::= alter g f |>).

Definition begin_op : M files unit := modify (fun s => s <| ffs ::= fun t => t <| flog := [] |> |>).
Definition end_op : M files unit := modify (fun s => s <| txs ::= fun l => l ++ [flog (ffs s)] |>).

Definition filealloc : M files (option nat) :=
  s ← gets ftable;
  match findi (fun f => f_ref f =? 0) s with
  | Some f => upd_file f (fun x => x <| f_ref := 1 |>);; mret (Some f)
  | None => mret None
  end.

Definition filedup (f : nat) : M files nat :=
  x ← get_file f;
  if f_ref x <? 1 then panic "filedup"
  else upd_file f (fun x => x <| f_ref ::= fun n => s32 (n + 1) |>);; mret f.

Section Process.
Context (mypid : Z) (killed : bool).
Context (devread : Z -> option (nat -> Z -> M fs (Z * list Z))) (devwrite : Z -> option (nat -> list Z -> M fs Z)).

Definition fileclose (f : nat) : M files unit :=
  x ← get_file f;
  if f_ref x <? 1 then panic "fileclose"
  else
    upd_file f (fun x => x <| f_ref ::= fun n => s32 (n - 1) |>);;
    x ← get_file f;
    if f_ref x >? 0 then mret tt
    else
      let ff := x in
      upd_file f (fun x => x <| f_ref := 0 |> <| f_type := FD_NONE |>);;
      match f_type ff with
      | FD_PIPE => on_pipe (f_pipe ff) (pipeclose (f_writable ff))
      | FD_INODE => begin_op;; on_fs (iput mypid (f_ip ff));; end_op
      | FD_NONE => mret tt
      end.

(** The result and what is stored in [*st]. *)
Definition filestat (f : nat) : M files (Z * option stat) :=
  x ← get_file f;
  if decide (f_type x = FD_INODE) then
    on_fs (ilock mypid (f_ip x));;
    st ← on_fs (stati (f_ip x));
    on_fs (iunlock mypid (f_ip x));;
    mret (0, Some st)
  else mret (-1, None).

(** A read or write returns, or waits for the pipe: a write with these bytes
    left. *)
Inductive io (A : Type) := Returned (r : Z) (a : A) | Waits (rest : list Z).
#[global] Arguments Returned {A}.
#[global] Arguments Waits {A}.

Definition fileread (f : nat) (n : Z) : M files (io (list Z)) :=
  x ← get_file f;
  if negb (f_readable x) then mret (Returned (-1) [])
  else
    match f_type x with
    | FD_PIPE =>
        r ← on_pipe (f_pipe x) (piperead n killed);
        mret (match r with ReadBytes l => Returned (Z.of_nat (length l)) l | ReadFailed => Returned (-1) [] | ReadSleeps => Waits [] end)
    | FD_INODE =>
        on_fs (ilock mypid (f_ip x));;
        x ← get_file f;
        r ← on_fs (readi devread (f_ip x) (f_off x) n);
        (if r.1 >? 0 then upd_file f (fun x => x <| f_off ::= fun o => u32 (o + r.1) |>) else mret tt);;
        on_fs (iunlock mypid (f_ip x));;
        mret (Returned r.1 r.2)
    | FD_NONE => panic "fileread"
    end.

(** The most bytes in one operation on the log. *)
Definition MAXOPBLOCKS : Z := 10.
Definition maxwrite : Z := (MAXOPBLOCKS - 1 - 1 - 2) / 2 * 512.

(** One turn of the loop of [filewrite]: an operation on the log that writes the
    bytes [chunk] at the offset of the file. *)
Definition filewrite_op (f : nat) (chunk : list Z) : M files Z :=
  begin_op;;
  x ← get_file f;
  on_fs (ilock mypid (f_ip x));;
  x ← get_file f;
  r ← on_fs (writei devwrite (f_ip x) chunk (f_off x));
  (if r >? 0 then upd_file f (fun x => x <| f_off ::= fun o => u32 (o + r) |>) else mret tt);;
  on_fs (iunlock mypid (f_ip x));;
  end_op;;
  mret r.

(** The loop: [i] bytes are written, [rest] is left. *)
Fixpoint filewrite_loop (fuel : nat) (f : nat) (i : Z) (rest : list Z) : M files Z :=
  match rest with
  | [] => mret i
  | _ =>
    match fuel with
    | O => spin
    | S fuel =>
        let n1 := Z.min (Z.of_nat (length rest)) maxwrite in
        r ← filewrite_op f (take (Z.to_nat n1) rest);
        if r <? 0 then mret i
        else if negb (r =? n1) then panic "short filewrite"
        else filewrite_loop fuel f (i + r) (drop (Z.to_nat r) rest)
    end
  end.

(** [filewrite] of the bytes [src]; [n] is their number. *)
Definition filewrite (f : nat) (src : list Z) : M files (io unit) :=
  x ← get_file f;
  if negb (f_writable x) then mret (Returned (-1) tt)
  else
    match f_type x with
    | FD_PIPE =>
        r ← on_pipe (f_pipe x) (pipewrite src killed);
        mret (match r with WroteAll => Returned (Z.of_nat (length src)) tt | WriteFailed => Returned (-1) tt | WriteSleeps rest => Waits rest end)
    | FD_INODE =>
        i ← filewrite_loop (length src) f 0 src;
        mret (Returned (if i =? Z.of_nat (length src) then Z.of_nat (length src) else -1) tt)
    | FD_NONE => panic "filewrite"
    end.

(** [pipealloc]; [page] is what [kalloc] returns: nothing, or a page, of which the
    first bytes are the data of the pipe.  A new pipe is one more in [fpipes].
    The result is that of the call and the two files. *)
Definition pipealloc (page : option (list Z)) : M files (Z * option (nat * nat)) :=
  f0 ← filealloc;
  f1 ← match f0 with None => mret None | Some _ => filealloc end;
  match f0, f1, page with
  | Some r, Some w, Some data =>
      ps ← gets fpipes;
      let p := length ps in
      modify (fun s => s <| fpipes := ps ++ [Pipe data 0 0 true true []] |>);;
      upd_file r (fun x => x <| f_type := FD_PIPE |> <| f_readable := true |> <| f_writable := false |> <| f_pipe := p |>);;
      upd_file w (fun x => x <| f_type := FD_PIPE |> <| f_readable := false |> <| f_writable := true |> <| f_pipe := p |>);;
      mret (0, Some (r, w))
  | _, _, _ =>
      (match f0 with Some f => fileclose f | None => mret tt end);;
      (match f1 with Some f => fileclose f | None => mret tt end);;
      mret (-1, None)
  end.
End Process.
