(* ===== verification/FileSpec.v ===== *)
(** * FileSpec: open files

    The theorems about file.c and [pipealloc].  An open file is a position in a
    sequence of bytes; [fileread] and [filewrite] read and write at the position
    and advance it.  [filewrite] splits a large write into operations on the log,
    none of which logs more blocks than [begin_op] reserves for it. *)

From S2P Require Import Prelude Mem Sleeplock Log Fs FsAlloc FsFile FsInode Ring Pipe File.

(** ** Lifting *)

Lemma on_fs_ok {A} (m : M fs A) s a t : m (ffs s) = Ret a t -> on_fs m s = Ret a (s <| ffs := t |>).
Proof. intros H. unfold on_fs, zoom. by rewrite H. Qed.

Lemma or_full_fs {A} (m : M fs A) s Q : or_full m (ffs s) Q -> or_full (on_fs m) s (fun a s' => exists t, s' = s <| ffs := t |> /\ Q a t).
Proof.
  intros [(a & t & Hm & HQ)|Hm]; [left|right].
  - exists a, (s <| ffs := t |>). split; [by apply on_fs_ok|]. by exists t.
  - unfold on_fs, zoom. by rewrite Hm.
Qed.

Lemma get_file_ok s f x : ftable s !! f = Some x -> get_file f s = Ret x s.
Proof. intros H. unfold get_file. msimp. by rewrite H. Qed.

Lemma upd_file_ok s f x g : ftable s !! f = Some x -> upd_file f g s = Ret tt (s <| ftable ::= alter g f |>).
Proof. intros H. unfold upd_file. by rewrite (bind_ret _ _ _ _ _ (get_file_ok s f x H)). Qed.

(** ** Open files *)

(** File [f] is open on a file with these bytes and this size, at offset [off]; its
    inode is in the cache and no one has locked it. *)
Record open_at (s : files) (f : nat) (x : file) (i : inode) (bytes : Z -> Z) (size off : Z) : Prop := {
  oa_file : ftable s !! f = Some x;
  oa_type : f_type x = FD_INODE;
  oa_off : f_off x = off;
  oa_ok : file_ok (ffs s) (f_ip x) i;
  oa_lock : sl_locked (i_lock i) = 0;
  oa_valid : i_valid i = true;
  oa_ref : 1 <= i_ref i;
  oa_dtype : d_type (i_d i) <> T_DEV;
  oa_size : d_size (i_d i) = size;
  oa_bytes : forall k, 0 <= k < MAXFILE * 512 -> fbyte (ffs s) i k = bytes k
}.

(** The bytes after a write. *)
Definition put_bytes (bytes : Z -> Z) (off : Z) (src : list Z) (k : Z) : Z :=
  if decide (off <= k < off + Z.of_nat (length src)) then default 0 (src !! Z.to_nat (k - off)) else bytes k.

Lemma put_bytes_app bytes off l1 l2 k : put_bytes (put_bytes bytes off l1) (off + Z.of_nat (length l1)) l2 k = put_bytes bytes off (l1 ++ l2) k.
Proof.
  unfold put_bytes. rewrite length_app. repeat case_decide; try lia; try done.
  - rewrite lookup_app_r by lia. do 2 f_equal. lia.
  - rewrite lookup_app_l by lia. done.
Qed.

(** The number of different blocks that an operation logs. *)
Definition tx_size (l : list (Z * Z)) : Z := Z.of_nat (length (remove_dups l)).

Lemma tx_size_le l l' : (forall x, x ∈ l -> x ∈ l') -> tx_size l <= Z.of_nat (length l').
Proof.
  intros H. unfold tx_size. enough (length (remove_dups l) <= length l')%nat by lia.
  apply submseteq_length, NoDup_submseteq; [apply NoDup_remove_dups|]. intros x Hx. apply H. by apply elem_of_remove_dups.
Qed.

Lemma BBLOCK_small b sb : 0 <= b < sb_size sb -> sb_size sb <= BPB -> BBLOCK b sb = BBLOCK 0 sb.
Proof. intros Hb Hs. unfold BBLOCK, BPB in *. by rewrite Z.div_small by lia. Qed.

(** A write of at most [maxwrite] bytes to a file logs at most the inode, the map's
    block, the indirect block and four blocks of data. *)
Lemma write_fits s i off src s' ip i' : written s i off src s' ip i' -> flog s = [] -> sb_size (fsb s) <= BPB ->
  0 <= off -> Z.of_nat (length src) <= maxwrite -> tx_size (flog s') <= 7.
Proof.
  intros W Hl Hsz Ho Hlen. change maxwrite with 1536 in Hlen.
  set (d := i_dev i). set (q := off / 512).
  set (l' := [(d, IBLOCK (i_inum i) (fsb s)); (d, BBLOCK 0 (fsb s)); (d, slot s' i' 12); (d, slot s' i' (slot_of q));
              (d, slot s' i' (slot_of (q + 1))); (d, slot s' i' (slot_of (q + 2))); (d, slot s' i' (slot_of (q + 3)))]).
  change 7 with (Z.of_nat (length l')). apply tx_size_le. intros x Hx. unfold l'. rewrite !elem_of_cons.
  destruct (wn_log _ _ _ _ _ _ _ W x Hx) as [->|[Hin|(Ed & [(b & Hb & Eb)|(k & Hk & Ek)])]]; [by left|rewrite Hl in Hin; by apply elem_of_nil in Hin| |];
    destruct x as [x1 x2]; cbn [fst snd] in *; subst x1 x2; fold d.
  - right; left. by rewrite BBLOCK_small.
  - destruct Hk as [->|(m & H1 & H2 & ->)]; [tauto|]. fold q in H1.
    assert (Hm : m = q \/ m = q + 1 \/ m = q + 2 \/ m = q + 3) by (unfold q in *; zlia). destruct Hm as [->|[->|[->| ->]]]; tauto.
Qed.

Section Process.
Context (mypid : Z) (killed : bool).
Context (devread : Z -> option (nat -> Z -> M fs (Z * list Z))) (devwrite : Z -> option (nat -> list Z -> M fs Z)).

(** The size after a write. *)
Definition grown (size off : Z) (src : list Z) : Z := if decide (src = []) then size else Z.max size (off + Z.of_nat (length src)).

(** The state in which [writei] and [readi] run: the inode is locked. *)
Lemma lock_open s f x i bytes size off : open_at s f x i bytes size off ->
  exists t, on_fs (ilock mypid (f_ip x)) s = Ret tt (s <| ffs := t |>) /\ file_ok t (f_ip x) (locked_by mypid i) /\
    flog t = flog (ffs s) /\ fsb t = fsb (ffs s) /\ forall k, fbyte t (locked_by mypid i) k = fbyte (ffs s) i k.
Proof.
  intros [O1 O2 O3 O4 O5 O6 O7 O8 O9 O10]. eexists. split; [apply on_fs_ok, (ilock_valid mypid _ _ i); [apply O4|done|done|done]|].
  destruct (file_ok_same (ffs s) ((ffs s) <| icache ::= <[f_ip x := locked_by mypid i]> |>) (f_ip x) i (locked_by mypid i) O4) as (H1 & H2 & H3);
    [done|done|cbn; apply list_lookup_insert_eq; eapply lookup_lt_Some, O4|done|done|done|].
  split_and!; [exact H1|done|done|]. intros k. unfold fbyte. by rewrite H3.
Qed.

Lemma unlock_open (t : fs) ip i : file_ok t ip i -> 1 <= i_ref i -> sl_locked (i_lock i) = 1 -> sl_pid (i_lock i) = mypid ->
  exists t', iunlock mypid ip t = Ret tt t' /\ file_ok t' ip (unlocked i) /\ flog t' = flog t /\ fsb t' = fsb t /\
    forall k, fbyte t' (unlocked i) k = fbyte t i k.
Proof.
  intros Hf Hr Hl Hp. eexists. split; [apply (iunlock_ok mypid t ip i); [apply Hf|done|done|done]|].
  destruct (file_ok_same t (t <| icache ::= <[ip := unlocked i]> |>) ip i (unlocked i) Hf) as (H1 & H2 & H3);
    [done|done|cbn; apply list_lookup_insert_eq; eapply lookup_lt_Some, Hf|done|done|done|].
  split_and!; [exact H1|done|done|]. intros k. unfold fbyte. by rewrite H3.
Qed.

(** [if(r > 0) f->off += r;] *)
Lemma move_off s t t' f x n : ftable s !! f = Some x -> 0 <= n /\ 0 <= f_off x /\ f_off x + n < 2 ^ 32 ->
  (if n >? 0 then upd_file f (fun x => x <| f_off ::= fun o => u32 (o + n) |>) else mret tt) (s <| ffs := t |> <| ffs := t' |>) =
  Ret tt (s <| ffs := t' |> <| ftable ::= <[f := x <| f_off := f_off x + n |>]> |>).
Proof.
  intros Hx Hn. destruct s as [t0 tab ps ls]. cbn in Hx. destruct (Z.gtb_spec n 0) as [Hpos|Hz].
  - rewrite (upd_file_ok _ f x) by done.
    change (Ret tt (Files t' (alter (fun x : file => x <| f_off ::= fun o => u32 (o + n) |>) f tab) ps ls) =
      Ret tt (Files t' (<[f := x <| f_off := f_off x + n |>]> tab) ps ls)).
    rewrite (list_alter_insert _ _ _ x Hx). do 3 f_equal. rewrite <- (u32_small (f_off x + n)) by lia. by destruct x.
  - change (Ret tt (Files t' tab ps ls) = Ret tt (Files t' (<[f := x <| f_off := f_off x + n |>]> tab) ps ls)).
    rewrite list_insert_id; [done|]. rewrite Hx. f_equal. replace (f_off x + n) with (f_off x) by lia. by destruct x.
Qed.

Lemma filewrite_op_ok s f x i bytes size off src : open_at s f x i bytes size off -> 0 <= off <= size -> off + Z.of_nat (length src) <= MAXFILE * 512 ->
  or_full (filewrite_op mypid devwrite f src) s (fun r s' => r = Z.of_nat (length src) /\
    exists x' i' l, open_at s' f x' i' (put_bytes bytes off src) (grown size off src) (off + Z.of_nat (length src)) /\
      fsb (ffs s') = fsb (ffs s) /\ txs s' = txs s ++ [l] /\
      (sb_size (fsb (ffs s)) <= BPB -> Z.of_nat (length src) <= maxwrite -> tx_size l <= 7)).
Proof.
  intros Ho Hoff Hfit. unfold filewrite_op. set (s0 := s <| ffs ::= fun t => t <| flog := [] |> |>). eapply (or_full_step begin_op _ s tt s0); [done|].
  assert (Ho0 : open_at s0 f x i bytes size off).
  { destruct Ho as [O1 O2 O3 O4 O5 O6 O7 O8 O9 O10]. destruct (file_ok_same (ffs s) (ffs s0) (f_ip x) i i O4) as (H1 & H2 & H3); [done|done|apply O4|done|done|done|].
    by split. }
  clear Ho. destruct (lock_open s0 f x i bytes size off Ho0) as (t1 & Hlk & Hf1 & Hlog1 & Hsb1 & Hb1). destruct Ho0 as [O1 O2 O3 O4 O5 O6 O7 O8 O9 O10].
  eapply or_full_step; [by apply get_file_ok|]. eapply or_full_step; [exact Hlk|]. eapply (or_full_step _ _ _ x); [by apply get_file_ok|].
  eapply or_full_bind; [apply or_full_fs; rewrite O3; apply (writei_ok devread devwrite t1 (f_ip x) (locked_by mypid i) off src Hf1); cbn; rewrite ?O9; [done|lia|lia|lia]|].
  intros r s2 (t2 & -> & -> & i2 & W). set (n := Z.of_nat (length src)) in *.
  assert (Hi2 : exists d, i2 = (locked_by mypid i) <| i_d := d |>) by apply W. destruct Hi2 as [d2 Ei2].
  set (x' := x <| f_off := f_off x + n |>). set (s3 := s0 <| ffs := t2 |> <| ftable ::= <[f := x']> |>).
  eapply (or_full_step _ _ _ tt s3); [exact (move_off s0 t1 t2 f x n O1 ltac:(rewrite O3; unfold MAXFILE in *; lia))|].
  destruct (unlock_open t2 (f_ip x) i2 (wn_ok _ _ _ _ _ _ _ W)) as (t3 & Hun & Hf3 & Hlog3 & Hsb3 & Hb3); [by rewrite Ei2|by rewrite Ei2|by rewrite Ei2|].
  eapply or_full_step; [by apply on_fs_ok|]. eapply or_full_step; [reflexivity|]. eapply or_full_ret; [reflexivity|]. split; [done|].
  exists x', (unlocked i2), (flog t3). split_and!.
  - split; try done; [cbn; apply list_lookup_insert_eq; by eapply lookup_lt_Some|by cbn; rewrite O3|by rewrite Ei2|by rewrite Ei2| | |].
    + cbn. by rewrite (wn_type _ _ _ _ _ _ _ W).
    + cbn. rewrite (wn_size _ _ _ _ _ _ _ W). cbn. by rewrite O9.
    + intros k Hk. cbn [ffs]. rewrite Hb3, (wn_byte _ _ _ _ _ _ _ W k Hk). unfold put_bytes. by rewrite Hb1, O10.
  - cbn. by rewrite Hsb3, (wn_sb _ _ _ _ _ _ _ W), Hsb1.
  - done.
  - intros Hsz Hmax. rewrite Hlog3. eapply (write_fits _ _ _ _ _ _ _ W); [by rewrite Hlog1|by rewrite Hsb1|lia|done].
Qed.

Lemma grown_app size off l1 l2 : 0 <= off <= size -> grown (grown size off l1) (off + Z.of_nat (length l1)) l2 = grown size off (l1 ++ l2).
Proof.
  intros Ho. unfold grown. destruct l1 as [|a l1]; [by rewrite app_nil_l, Z.add_0_r|]. rewrite (decide_False (P := a :: l1 = [])), (decide_False (P := (a :: l1) ++ l2 = [])) by done.
  rewrite length_app. case_decide; [subst l2; cbn; lia|lia].
Qed.

Lemma open_at_ext s f x i bytes bytes' size off : open_at s f x i bytes size off -> (forall k, bytes k = bytes' k) -> open_at s f x i bytes' size off.
Proof. intros [O1 O2 O3 O4 O5 O6 O7 O8 O9 O10] H. split; try done. intros k Hk. by rewrite O10, H. Qed.

Lemma filewrite_loop_ok fuel : forall s f x i bytes size off done src,
  open_at s f x i bytes size off -> 0 <= off <= size -> off + Z.of_nat (length src) <= MAXFILE * 512 -> (length src <= fuel)%nat ->
  or_full (filewrite_loop mypid devwrite fuel f done src) s (fun r s' => r = done + Z.of_nat (length src) /\
    exists x' i' ls, open_at s' f x' i' (put_bytes bytes off src) (grown size off src) (off + Z.of_nat (length src)) /\
      txs s' = txs s ++ ls /\ (sb_size (fsb (ffs s)) <= BPB -> Forall (fun l => tx_size l <= 7) ls)).
Proof.
  induction fuel as [|fuel IH]; intros s f x i bytes size off n src Ho Hoff Hfit Hfu.
  { destruct src; [|cbn in Hfu; lia]. eapply or_full_ret; [reflexivity|]. split; [cbn; lia|]. exists x, i, []. cbn [length]. rewrite app_nil_r, Z.add_0_r.
    split_and!; [|done|done]. eapply open_at_ext; [exact Ho|]. intros k. unfold put_bytes. cbn. by rewrite decide_False by lia. }
  destruct src as [|b src'].
  { eapply or_full_ret; [reflexivity|]. split; [cbn; lia|]. exists x, i, []. cbn [length]. rewrite app_nil_r, Z.add_0_r.
    split_and!; [|done|done]. eapply open_at_ext; [exact Ho|]. intros k. unfold put_bytes. cbn. by rewrite decide_False by lia. }
  cbn [filewrite_loop]. set (src := b :: src') in *. assert (Hpos : 0 < Z.of_nat (length src)) by (cbn; lia). cbv zeta.
  set (n1 := Z.min (Z.of_nat (length src)) maxwrite). assert (Hmw : maxwrite = 1536) by done. set (c := take (Z.to_nat n1) src).
  assert (Hc : Z.of_nat (length c) = n1) by (unfold c; rewrite length_take; lia).
  eapply or_full_bind; [apply (filewrite_op_ok s f x i bytes size off c Ho Hoff); lia|].
  intros r s1 (-> & x1 & i1 & l & Ho1 & Hsb1 & Htx1 & Hl). rewrite Hc. destruct (Z.ltb_spec n1 0); [lia|]. rewrite Z.eqb_refl. cbn [negb].
  set (rest := drop (Z.to_nat n1) src). assert (Hr : Z.of_nat (length rest) = Z.of_nat (length src) - n1) by (unfold rest; rewrite length_drop; lia).
  assert (Hcr : c ++ rest = src) by apply take_drop.
  eapply or_full_mono; [apply (IH s1 f x1 i1 _ _ _ (n + n1) rest Ho1); [unfold grown; rewrite decide_False by (intros E; rewrite E in Hc; cbn in Hc; lia); lia|lia|lia]|].
  intros r s2 (-> & x2 & i2 & ls & Ho2 & Htx2 & Hls). split; [lia|]. exists x2, i2, (l :: ls). split_and!.
  - rewrite grown_app, Hcr in Ho2 by lia. rewrite Hc in Ho2. replace (off + Z.of_nat (length src)) with (off + n1 + Z.of_nat (length rest)) by lia.
    eapply open_at_ext; [exact Ho2|]. intros k. rewrite <- Hc, put_bytes_app. by rewrite Hcr.
  - rewrite Htx2, Htx1, <- app_assoc. done.
  - intros Hsz. constructor; [apply Hl; lia|]. apply Hls. by rewrite Hsb1.
Qed.

(** A write to an open file: unless the disk is full, all bytes are written at the
    offset of the file, which moves behind them; and each of the operations on the
    log into which the write is split logs fewer different blocks than
    [MAXOPBLOCKS], if the map of the disk is one block (a disk of up to 4096
    blocks). *)
Theorem filewrite_writes s f x i bytes size off src :
  open_at s f x i bytes size off -> f_writable x = true -> 0 <= off <= size -> off + Z.of_nat (length src) <= MAXFILE * 512 ->
  or_full (filewrite mypid killed devwrite f src) s (fun r s' => r = Returned (Z.of_nat (length src)) tt /\
    exists x' i' ls, open_at s' f x' i' (put_bytes bytes off src) (grown size off src) (off + Z.of_nat (length src)) /\
      txs s' = txs s ++ ls /\ (sb_size (fsb (ffs s)) <= BPB -> Forall (fun l => tx_size l < MAXOPBLOCKS) ls)).
Proof.
  intros Ho Hw Hoff Hfit. unfold filewrite. eapply or_full_step; [apply get_file_ok, Ho|]. rewrite Hw, (oa_type _ _ _ _ _ _ _ Ho). cbn [negb]. cbv iota.
  eapply or_full_bind; [apply (filewrite_loop_ok _ s f x i bytes size off 0 src Ho Hoff Hfit); lia|].
  intros r s' (-> & x' & i' & ls & Ho' & Htx & Hls). eapply or_full_ret; [reflexivity|]. rewrite Z.add_0_l, Z.eqb_refl. split; [done|].
  exists x', i', ls. split_and!; [done|done|]. intros Hsz. eapply Forall_impl; [by apply Hls|]. intros l. unfold MAXOPBLOCKS. lia.
Qed.

(** A read of an open file: the bytes from its offset, up to [n] of them and to the
    end of the file; the offset moves behind them and the file stays as it is. *)
Theorem fileread_reads s f x i bytes size off n :
  open_at s f x i bytes size off -> f_readable x = true -> 0 <= off <= size -> size <= MAXFILE * 512 -> 0 <= n -> off + n < 2 ^ 32 ->
  or_full (fileread mypid killed devread f n) s (fun r s' =>
    let c := Z.min n (size - off) in r = Returned c (bytes <$> seqZ off c) /\
    exists x' i', open_at s' f x' i' bytes size (off + c) /\ txs s' = txs s).
Proof.
  intros Ho Hr Hoff Hsz Hn Hon. destruct (lock_open s f x i bytes size off Ho) as (t1 & Hlk & Hf1 & Hlog1 & Hsb1 & Hb1).
  destruct Ho as [O1 O2 O3 O4 O5 O6 O7 O8 O9 O10]. unfold fileread. eapply or_full_step; [by apply get_file_ok|]. rewrite Hr, O2. cbn [negb]. cbv iota.
  eapply or_full_step; [exact Hlk|]. eapply (or_full_step _ _ _ x); [by apply get_file_ok|].
  eapply or_full_bind; [apply or_full_fs; rewrite O3; apply (readi_ok devread t1 (f_ip x) (locked_by mypid i) off n Hf1); cbn; rewrite ?O9; [done|lia|lia|lia|lia]|].
  intros r s2 (t2 & -> & i2 & He & ->). cbn [fst snd]. change (d_size (i_d (locked_by mypid i))) with (d_size (i_d i)). rewrite O9. unfold read_count.
  set (c := Z.min n (size - off)). assert (Hc : 0 <= c /\ off + c <= size) by lia. pose proof (ex_i _ _ _ _ _ He) as Ei2.
  set (x' := x <| f_off := f_off x + c |>). set (s3 := s <| ffs := t2 |> <| ftable ::= <[f := x']> |>).
  eapply (or_full_step _ _ _ tt s3); [exact (move_off s t1 t2 f x c O1 ltac:(rewrite O3; unfold MAXFILE in *; lia))|].
  destruct (unlock_open t2 (f_ip x) i2 (ex_ok _ _ _ _ _ He)) as (t3 & Hun & Hf3 & Hlog3 & Hsb3 & Hb3); [by rewrite Ei2|by rewrite Ei2|by rewrite Ei2|].
  eapply or_full_step; [by apply on_fs_ok|]. eapply or_full_ret; [reflexivity|].
  assert (Hby : forall k, 0 <= k < MAXFILE * 512 -> fbyte t1 (locked_by mypid i) k = bytes k) by (intros k Hk; by rewrite Hb1, O10).
  split; [f_equal; apply list_fmap_ext; intros j k Hk; apply lookup_seqZ in Hk; apply Hby; lia|]. exists x', (unlocked i2). split; [|done].
  split; try done; [cbn; apply list_lookup_insert_eq; by eapply lookup_lt_Some|by cbn; rewrite O3|by rewrite Ei2|by rewrite Ei2|by rewrite Ei2|by rewrite Ei2|].
  intros k Hk. cbn [ffs]. rewrite Hb3, (extended_byte _ _ _ _ _ _ He Hk). by apply Hby.
Qed.

(** ** The file table *)

(** What a closed file held is released. *)
Definition close_object (x : file) : M files unit :=
  match f_type x with
  | FD_PIPE => on_pipe (f_pipe x) (pipeclose (f_writable x))
  | FD_INODE => begin_op;; on_fs (iput mypid (f_ip x));; end_op
  | FD_NONE => mret tt
  end.

(** What threads do with open files; [h] is the list of the pointers they hold. *)
Inductive fstep : files * list nat -> files * list nat -> Prop :=
  | f_alloc s h f s' : filealloc s = Ret (Some f) s' -> fstep (s, h) (s', f :: h)
  | f_dup s h f f' s' : f ∈ h -> Z.of_nat (length h) < 2 ^ 31 - 1 -> filedup f s = Ret f' s' -> fstep (s, h) (s', f' :: h)
  | f_close s h1 f h2 s' : fileclose mypid f s = Ret tt s' -> fstep (s, h1 ++ f :: h2) (s', h1 ++ h2)
  | f_read s h f n r s' : f ∈ h -> fileread mypid killed devread f n s = Ret r s' -> fstep (s, h) (s', h)
  | f_write s h f src r s' : f ∈ h -> filewrite mypid killed devwrite f src s = Ret r s' -> fstep (s, h) (s', h)
  | f_stat s h f r s' : f ∈ h -> filestat mypid f s = Ret r s' -> fstep (s, h) (s', h)
  (** an open file that [sys_open] sets up *)
  | f_set s h f ip r w s' : f ∈ h ->
      upd_file f (fun x => x <| f_type := FD_INODE |> <| f_ip := ip |> <| f_off := 0 |> <| f_readable := r |> <| f_writable := w |>) s = Ret tt s' ->
      fstep (s, h) (s', h).

(** Every count is the number of pointers, and a free entry is of no type. *)
Definition finv (tab : list file) (h : list nat) : Prop :=
  forall f x, tab !! f = Some x -> f_ref x = occ f h /\ (f_ref x = 0 -> f_type x = FD_NONE).

(** The counts and types of the table. *)
Definition same_tab (s s' : files) : Prop := (fun x => (f_ref x, f_type x)) <$> ftable s' = (fun x => (f_ref x, f_type x)) <$> ftable s.

#[local] Instance same_tab_preorder : PreOrder same_tab.
Proof. split; [by intros s|]. intros s1 s2 s3 H1 H2. unfold same_tab in *. congruence. Qed.

Lemma same_tab_inv s s' h : same_tab s s' -> finv (ftable s) h -> finv (ftable s') h.
Proof.
  intros Hs Hi f x Hx. assert (H : ((fun x => (f_ref x, f_type x)) <$> ftable s') !! f = Some (f_ref x, f_type x)) by (by rewrite list_lookup_fmap, Hx).
  rewrite Hs, list_lookup_fmap in H. destruct (ftable s !! f) as [y|] eqn:Ey; [|done]. injection H as <- <-. by apply Hi.
Qed.

Lemma on_fs_tab {A} (m : M fs A) : keeps same_tab (on_fs m).
Proof. intros s a s'. unfold on_fs, zoom. destruct (m (ffs s)); try done. intros [= <- <-]. done. Qed.

Lemma get_file_tab f : keeps same_tab (get_file f).
Proof. unfold get_file. keeps_auto. Qed.

Lemma on_pipe_tab {A} p (m : M pipe A) : keeps same_tab (on_pipe p m).
Proof. unfold on_pipe. repeat keeps_step; try typeclasses eauto. by apply keeps_modify. Qed.

Lemma begin_op_tab : keeps same_tab begin_op.
Proof. by apply keeps_modify. Qed.

Lemma end_op_tab : keeps same_tab end_op.
Proof. by apply keeps_modify. Qed.

Lemma upd_off_tab f r : keeps same_tab (upd_file f (fun x => x <| f_off ::= fun o => u32 (o + r) |>)).
Proof.
  unfold upd_file. apply keeps_bind; [typeclasses eauto|apply get_file_tab|]. intros _. apply keeps_modify. intros s. unfold same_tab. cbn.
  rewrite (list_fmap_alter _ _ id) by (by apply Forall_true). by apply list_alter_id.
Qed.
Hint Resolve on_fs_tab get_file_tab on_pipe_tab begin_op_tab end_op_tab upd_off_tab : keeps.

Ltac tab_auto := repeat first [solve [eauto with keeps]|keeps_step]; try typeclasses eauto.

Lemma fileread_tab f n : keeps same_tab (fileread mypid killed devread f n).
Proof. unfold fileread. tab_auto. Qed.

Lemma filewrite_op_tab f c : keeps same_tab (filewrite_op mypid devwrite f c).
Proof. unfold filewrite_op. tab_auto. Qed.
Hint Resolve filewrite_op_tab : keeps.

Lemma filewrite_loop_tab fuel : forall f i rest, keeps same_tab (filewrite_loop mypid devwrite fuel f i rest).
Proof. induction fuel as [|fuel IH]; intros f i [|b rest]; cbn [filewrite_loop]; tab_auto. Qed.
Hint Resolve filewrite_loop_tab : keeps.

Lemma filewrite_tab f src : keeps same_tab (filewrite mypid killed devwrite f src).
Proof. unfold filewrite. tab_auto. Qed.

Lemma filestat_tab f : keeps same_tab (filestat mypid f).
Proof. unfold filestat. tab_auto. Qed.

Lemma close_object_tab x : keeps same_tab (close_object x).
Proof. unfold close_object. tab_auto. Qed.

Lemma upd_file_insert s f x g : ftable s !! f = Some x -> upd_file f g s = Ret tt (s <| ftable ::= <[f := g x]> |>).
Proof.
  intros H. rewrite (upd_file_ok s f x g H). destruct s as [t tab ps ls]. cbn in H.
  change (Ret tt (Files t (alter g f tab) ps ls) = Ret tt (Files t (<[f := g x]> tab) ps ls)). by rewrite (list_alter_insert g tab f x H).
Qed.

Lemma finv_insert tab h f x y h' : finv tab h -> tab !! f = Some x -> f_ref y = occ f h' -> (f_ref y = 0 -> f_type y = FD_NONE) ->
  (forall g, g <> f -> occ g h' = occ g h) -> finv (<[f := y]> tab) h'.
Proof.
  intros Hi Hx Hr Ht Ho g z Hz. apply list_lookup_insert_Some in Hz as [(<- & <- & _)|[Hne Hz]]; [done|].
  rewrite Ho by congruence. by apply Hi.
Qed.

(** [filealloc] takes an entry that no one holds, if there is one. *)
Lemma filealloc_ok s h : finv (ftable s) h ->
  (exists f x, ftable s !! f = Some x /\ f ∉ h /\ f_type x = FD_NONE /\ filealloc s = Ret (Some f) (s <| ftable ::= <[f := x <| f_ref := 1 |>]> |>)) \/
  (filealloc s = Ret None s /\ forall f x, ftable s !! f = Some x -> f ∈ h).
Proof.
  intros Hi. unfold filealloc. rewrite (bind_ret (gets ftable) _ s (ftable s) s eq_refl). destruct (findi _ (ftable s)) as [f|] eqn:E; [left|right].
  - apply findi_Some in E as [(x & Hx & Hr) _]. apply Z.eqb_eq in Hr. exists f, x. destruct (Hi f x Hx) as [Ho Ht]. split_and!; [done| |by apply Ht|].
    + rewrite occ_pos. lia.
    + by rewrite (bind_ret _ _ _ _ _ (upd_file_insert s f x _ Hx)).
  - split; [done|]. intros f x Hx. pose proof (proj1 (findi_None _ _) E f x Hx) as Hn. cbn in Hn. apply Z.eqb_neq in Hn.
    apply occ_pos. destruct (Hi f x Hx) as [Ho _]. pose proof (occ_range f h). lia.
Qed.

Lemma filedup_ok s f x : ftable s !! f = Some x -> 1 <= f_ref x < 2 ^ 31 - 1 -> filedup f s = Ret f (s <| ftable ::= <[f := x <| f_ref := f_ref x + 1 |>]> |>).
Proof.
  intros Hx Hr. unfold filedup. rewrite (bind_ret _ _ _ _ _ (get_file_ok s f x Hx)). destruct (Z.ltb_spec (f_ref x) 1); [lia|].
  rewrite (bind_ret _ _ _ _ _ (upd_file_insert s f x _ Hx)). rewrite <- (s32_small (f_ref x + 1)) by lia. by destruct x.
Qed.

Lemma insert_twice (s : files) f y z : s <| ftable ::= <[f := y]> |> <| ftable ::= <[f := z]> |> = s <| ftable ::= <[f := z]> |>.
Proof. destruct s as [t tab ps ls]. change (Files t (<[f := z]> (<[f := y]> tab)) ps ls = Files t (<[f := z]> tab) ps ls). by rewrite list_insert_insert_eq. Qed.

(** Closing a file that others hold, and closing it for good. *)
Lemma fileclose_ok s f x : ftable s !! f = Some x -> 1 <= f_ref x <= 2 ^ 31 - 1 -> fileclose mypid f s =
  if f_ref x =? 1 then close_object x (s <| ftable ::= <[f := x <| f_ref := 0 |> <| f_type := FD_NONE |>]> |>)
  else Ret tt (s <| ftable ::= <[f := x <| f_ref := f_ref x - 1 |>]> |>).
Proof.
  intros Hx Hr. unfold fileclose. rewrite (bind_ret _ _ _ _ _ (get_file_ok s f x Hx)). destruct (Z.ltb_spec (f_ref x) 1); [lia|].
  rewrite (bind_ret _ _ _ _ _ (upd_file_insert s f x _ Hx)). set (x1 := x <| f_ref ::= fun n => s32 (n - 1) |>).
  assert (E1 : f_ref x1 = f_ref x - 1) by (unfold x1; cbn; apply s32_small; lia).
  assert (H1 : ftable (s <| ftable ::= <[f := x1]> |>) !! f = Some x1) by (cbn; apply list_lookup_insert_eq; by eapply lookup_lt_Some).
  rewrite (bind_ret _ _ _ _ _ (get_file_ok _ f x1 H1)), E1. destruct (Z.gtb_spec (f_ref x - 1) 0), (Z.eqb_spec (f_ref x) 1); try lia.
  - unfold mret, M_ret. do 3 f_equal. unfold x1. rewrite <- E1. by destruct x.
  - rewrite (bind_ret _ _ _ _ _ (upd_file_insert _ f x1 _ H1)), insert_twice. by destruct x.
Qed.

Lemma upd_file_inv s f g s' : upd_file f g s = Ret tt s' -> exists x, ftable s !! f = Some x /\ s' = s <| ftable ::= <[f := g x]> |>.
Proof.
  intros H. destruct (ftable s !! f) as [x|] eqn:E.
  - rewrite (upd_file_insert s f x g E) in H. injection H as <-. by exists x.
  - unfold upd_file, get_file in H. apply bind_inv in H as (i & s1 & H & _). apply bind_inv in H as (c & s2 & [= <- <-] & H). by rewrite E in H.
Qed.

Lemma fileclose_inv s f s' : fileclose mypid f s = Ret tt s' -> exists x, ftable s !! f = Some x /\ 1 <= f_ref x.
Proof.
  unfold fileclose. intros H. apply bind_inv in H as (x & s1 & H & H2). unfold get_file in H. apply bind_inv in H as (c & s2 & [= <- <-] & H).
  destruct (ftable s !! f) as [y|]; [|done]. injection H as -> ->. exists x. split; [done|]. destruct (Z.ltb_spec (f_ref x) 1); [done|lia].
Qed.

Definition finv' (s : files) (h : list nat) : Prop := finv (ftable s) h /\ forall f, occ f h <= 2 ^ 31 - 1.

Lemma fstep_inv s h s' h' : finv' s h -> fstep (s, h) (s', h') -> finv' s' h'.
Proof.
  intros [Hi Hb] Hst. inversion Hst as [? ? f ? H|? ? f f' ? Hf Hl H|? h1 f h2 ? H|? ? f n r ? Hf H|? ? f src r ? Hf H|? ? f r ? Hf H|? ? f ip r w ? Hf H]; subst.
  - destruct (filealloc_ok s h Hi) as [(f0 & x & Hx & Hn & Ht & E)|[E _]]; rewrite E in H; [injection H as <- <-|done].
    assert (Hz : occ f0 h = 0) by (rewrite occ_pos in Hn; pose proof (occ_range f0 h); lia). split.
    + eapply finv_insert; [exact Hi|exact Hx| |done|]; cbn; [rewrite occ_cons, decide_True by done; lia|].
      intros g Hg. rewrite occ_cons, decide_False by congruence. lia.
    + intros g. rewrite occ_cons. case_decide; [subst g; lia|]. specialize (Hb g). lia.
  - assert (Hx : exists x, ftable s !! f = Some x).
    { unfold filedup in H. apply bind_inv in H as (x & s1 & H & _). unfold get_file in H. apply bind_inv in H as (c & s2 & [= <- <-] & H).
      destruct (ftable s !! f); [by eexists|done]. }
    destruct Hx as [x Hx]. destruct (Hi f x Hx) as [Ho _]. pose proof (proj1 (occ_pos f h) Hf). pose proof (occ_range f h).
    rewrite (filedup_ok s f x Hx) in H by lia. injection H as <- <-. split.
    + eapply finv_insert; [exact Hi|exact Hx| | |]; cbn; [rewrite occ_cons, decide_True by done; lia|lia|].
      intros g Hg. rewrite occ_cons, decide_False by congruence. lia.
    + intros g. rewrite occ_cons. pose proof (occ_range g h). case_decide; [lia|]. specialize (Hb g). lia.
  - destruct (fileclose_inv _ _ _ H) as (x & Hx & Hr). destruct (Hi f x Hx) as [Ho _]. pose proof (Hb f). rewrite (fileclose_ok s f x Hx) in H by lia.
    rewrite occ_mid, decide_True in Ho by done.
    assert (Hb' : forall g, occ g (h1 ++ h2) <= 2 ^ 31 - 1) by (intros g; specialize (Hb g); rewrite occ_mid in Hb; case_decide; lia).
    assert (Hne : forall g, g <> f -> occ g (h1 ++ h2) = occ g (h1 ++ f :: h2)) by (intros g Hg; rewrite occ_mid, decide_False by congruence; lia).
    split; [|done]. destruct (Z.eqb_spec (f_ref x) 1) as [E|E].
    + eapply same_tab_inv; [exact (close_object_tab x _ _ _ H)|]. cbn. eapply finv_insert; [exact Hi|exact Hx|cbn; lia|done|done].
    + injection H as <-. cbn. eapply finv_insert; [exact Hi|exact Hx|cbn; lia|cbn; lia|done].
  - split; [|done]. eapply same_tab_inv; [exact (fileread_tab _ _ _ _ _ H)|done].
  - split; [|done]. eapply same_tab_inv; [exact (filewrite_tab _ _ _ _ _ H)|done].
  - split; [|done]. eapply same_tab_inv; [exact (filestat_tab _ _ _ _ H)|done].
  - apply upd_file_inv in H as (x & Hx & ->). split; [|done]. destruct (Hi f x Hx) as [Ho _]. pose proof (proj1 (occ_pos f h') Hf).
    cbn. eapply finv_insert; [exact Hi|exact Hx|done|cbn; lia|done].
Qed.

Lemma reach_finv s0 s h : (forall f x, ftable s0 !! f = Some x -> f_ref x = 0 /\ f_type x = FD_NONE) -> rtc fstep (s0, []) (s, h) -> finv' s h.
Proof.
  intros H0 Hr. cut (forall p q, rtc fstep p q -> finv' p.1 p.2 -> finv' q.1 q.2).
  { intros H. apply (H _ _ Hr). split; [|intros f; unfold occ; cbn; lia]. intros f x Hx. by destruct (H0 f x Hx). }
  clear. induction 1 as [p|[s h] [s' h'] q Hst _ IH]; [done|]. intros Hi. apply IH. by eapply fstep_inv.
Qed.

(** The table of open files, after any sequence of the operations on it: the count
    of an entry is the number of pointers to it; [filealloc] gives an entry to
    which there is no pointer, and fails only if there is none; [fileclose] of a
    file with other pointers only counts down; and the last [fileclose] frees the
    entry and then releases the pipe end or the inode. *)
Theorem file_table_counts s0 s h :
  (forall f x, ftable s0 !! f = Some x -> f_ref x = 0 /\ f_type x = FD_NONE) -> rtc fstep (s0, []) (s, h) ->
  (forall f x, ftable s !! f = Some x -> f_ref x = occ f h) /\
  ((exists f s', filealloc s = Ret (Some f) s' /\ f ∉ h) \/ (filealloc s = Ret None s /\ forall f x, ftable s !! f = Some x -> f ∈ h)) /\
  (forall f x, f ∈ h -> ftable s !! f = Some x -> fileclose mypid f s =
     if occ f h =? 1 then close_object x (s <| ftable ::= <[f := x <| f_ref := 0 |> <| f_type := FD_NONE |>]> |>)
     else Ret tt (s <| ftable ::= <[f := x <| f_ref := occ f h - 1 |>]> |>)).
Proof.
  intros H0 Hr. destruct (reach_finv s0 s h H0 Hr) as [Hi Hb]. split_and!.
  - intros f x Hx. by apply Hi.
  - destruct (filealloc_ok s h Hi) as [(f & x & _ & Hn & _ & E)|[E Ha]]; [left; eauto|by right].
  - intros f x Hf Hx. destruct (Hi f x Hx) as [Ho _]. apply occ_pos in Hf. specialize (Hb f). rewrite (fileclose_ok s f x Hx) by lia. by rewrite Ho.
Qed.

(** Closing an entry that was only just allocated gives it back. *)
Lemma fileclose_fresh s f x : ftable s !! f = Some (x <| f_ref := 1 |>) -> f_ref x = 0 -> f_type x = FD_NONE ->
  fileclose mypid f s = Ret tt (s <| ftable ::= <[f := x]> |>).
Proof.
  intros Hx Hr Ht. rewrite (fileclose_ok s f _ Hx) by (cbn; lia). cbn. unfold close_object. cbn. rewrite Ht. unfold mret, M_ret. do 3 f_equal.
  destruct x. cbn in *. by subst.
Qed.

Lemma insert_back (s : files) f x y : ftable s !! f = Some x -> s <| ftable ::= <[f := y]> |> <| ftable ::= <[f := x]> |> = s.
Proof.
  intros Hx. rewrite insert_twice. destruct s as [t tab ps ls]. cbn in Hx. change (Files t (<[f := x]> tab) ps ls = Files t tab ps ls). by rewrite list_insert_id.
Qed.

Lemma insert_commute (s : files) f g x y : f <> g ->
  s <| ftable ::= <[f := x]> |> <| ftable ::= <[g := y]> |> = s <| ftable ::= <[g := y]> |> <| ftable ::= <[f := x]> |>.
Proof.
  intros Hne. destruct s as [t tab ps ls]. change (Files t (<[g := y]> (<[f := x]> tab)) ps ls = Files t (<[f := x]> (<[g := y]> tab)) ps ls).
  by rewrite list_insert_insert_ne by congruence.
Qed.

(** [pipealloc]: it gives two different free entries, the ends of one new pipe that
    is open at both ends and empty; if there are not two entries or no page, it
    fails and nothing has changed. *)
Theorem pipealloc_all_or_nothing page s h :
  finv (ftable s) h ->
  (exists f0 f1 x0 x1 data, page = Some data /\ f0 <> f1 /\ f0 ∉ h /\ f1 ∉ h /\ ftable s !! f0 = Some x0 /\ ftable s !! f1 = Some x1 /\
    pipealloc mypid page s = Ret (0, Some (f0, f1))
      (Files (ffs s)
         (<[f1 := File FD_PIPE 1 false true (length (fpipes s)) (f_ip x1) (f_off x1)]>
           (<[f0 := File FD_PIPE 1 true false (length (fpipes s)) (f_ip x0) (f_off x0)]> (ftable s)))
         (fpipes s ++ [Pipe data 0 0 true true []]) (txs s))) \/
  pipealloc mypid page s = Ret (-1, None) s.
Proof.
  intros Hi. unfold pipealloc. destruct (filealloc_ok s h Hi) as [(f0 & x0 & Hx0 & Hn0 & Ht0 & E0)|[E0 _]]; [|right; by rewrite (bind_ret _ _ _ _ _ E0)].
  rewrite (bind_ret _ _ _ _ _ E0). set (y0 := x0 <| f_ref := 1 |>) in *. set (s1 := s <| ftable ::= <[f0 := y0]> |>) in *.
  assert (Hr0 : f_ref x0 = 0) by (destruct (Hi f0 x0 Hx0) as [-> _]; rewrite occ_pos in Hn0; pose proof (occ_range f0 h); lia).
  assert (Hl0 : (f0 < length (ftable s))%nat) by (by eapply lookup_lt_Some).
  assert (Hi1 : finv (ftable s1) (f0 :: h)).
  { cbn. eapply finv_insert; [exact Hi|exact Hx0| |done|]; cbn; [rewrite occ_cons, decide_True by done; destruct (Hi f0 x0 Hx0); lia|].
    intros g Hg. rewrite occ_cons, decide_False by congruence. lia. }
  assert (Hy0 : ftable s1 !! f0 = Some y0) by (cbn; by apply list_lookup_insert_eq).
  destruct (filealloc_ok s1 (f0 :: h) Hi1) as [(f1 & x1 & Hx1 & Hn1 & Ht1 & E1)|[E1 _]]; rewrite (bind_ret _ _ _ _ _ E1).
  2: { right. rewrite (bind_ret _ _ _ _ _ (fileclose_fresh s1 f0 x0 Hy0 Hr0 Ht0)). unfold s1. rewrite (insert_back s f0 x0 y0 Hx0). done. }
  apply not_elem_of_cons in Hn1 as [Hne Hn1]. cbn in Hx1. rewrite list_lookup_insert_ne in Hx1 by done.
  set (y1 := x1 <| f_ref := 1 |>) in *. set (s2 := s1 <| ftable ::= <[f1 := y1]> |>) in *.
  assert (Hr1 : f_ref x1 = 0) by (destruct (Hi f1 x1 Hx1) as [-> _]; rewrite occ_pos in Hn1; pose proof (occ_range f1 h); lia).
  assert (Hl1 : (f1 < length (ftable s))%nat) by (by eapply lookup_lt_Some).
  assert (Hy0' : ftable s2 !! f0 = Some y0) by (cbn; rewrite list_lookup_insert_ne by done; by apply list_lookup_insert_eq).
  assert (Hy1' : ftable s2 !! f1 = Some y1) by (cbn; apply list_lookup_insert_eq; by rewrite length_insert).
  destruct page as [data|].
  - left. exists f0, f1, x0, x1, data. split_and!; [done|congruence|done|done|done|done|].
    rewrite (bind_ret (gets fpipes) _ s2 (fpipes s) s2 eq_refl). cbv zeta. erewrite bind_ret; [|reflexivity].
    erewrite bind_ret; [|apply (upd_file_insert _ f0 y0); exact Hy0']. erewrite bind_ret; [|apply (upd_file_insert _ f1 y1); cbn; rewrite list_lookup_insert_ne by done; exact Hy1'].
    unfold mret, M_ret. f_equal. unfold s2, s1. destruct s as [t tab ps ls]. cbn [ffs ftable fpipes txs].
    match goal with |- _ = Files t (<[f1 := ?a]> (<[f0 := ?b]> tab)) ?p ls =>
      change (Files t (<[f1 := a]> (<[f0 := b]> (<[f1 := y1]> (<[f0 := y0]> tab)))) p ls = Files t (<[f1 := a]> (<[f0 := b]> tab)) p ls) end.
    rewrite (list_insert_insert_ne _ f0 f1) by congruence. by rewrite !list_insert_insert_eq.
  - right. rewrite (bind_ret _ _ _ _ _ (fileclose_fresh s2 f0 x0 Hy0' Hr0 Ht0)).
    assert (E : s2 <| ftable ::= <[f0 := x0]> |> = s <| ftable ::= <[f1 := y1]> |>).
    { unfold s2, s1. rewrite (insert_commute _ f1 f0 y1 x0 Hne). by rewrite (insert_back s f0 x0 y0 Hx0). }
    rewrite E. erewrite bind_ret; [|apply (fileclose_fresh _ f1 x1); [cbn; by apply list_lookup_insert_eq|done|done]].
    by rewrite (insert_back s f1 x1 y1 Hx1).
Qed.
End Process.

(** ** Witnesses *)

Definition small_file : file := File FD_INODE 1 true true 0 0 0.
Definition small_files : files := Files (small_fs1 T_FILE) [small_file] [] [].

Lemma small_open : open_at small_files 0 small_file (small_inode T_FILE) (fbyte (small_fs1 T_FILE) (small_inode T_FILE)) 0 0.
Proof. split; [reflexivity|reflexivity|reflexivity|apply small_file_ok|reflexivity|reflexivity|cbn; lia|done|reflexivity|]. intros k _. reflexivity. Qed.

Lemma filewrite_writes_witness :
  or_full (filewrite 1 false (fun _ => None) 0 [7; 8; 9]) small_files (fun r s' => r = Returned 3 tt /\
    exists x' i' ls, open_at s' 0 x' i' (put_bytes (fbyte (small_fs1 T_FILE) (small_inode T_FILE)) 0 [7; 8; 9]) 3 3 /\
      txs s' = ls /\ Forall (fun l => tx_size l < MAXOPBLOCKS) ls).
Proof.
  eapply or_full_mono; [apply (filewrite_writes 1 false (fun _ => None) (fun _ => None) small_files 0 small_file (small_inode T_FILE) _ 0 0 [7; 8; 9] small_open);
    [done|lia|cbn; unfold MAXFILE; lia]|].
  intros r s' (-> & x' & i' & ls & H1 & H2 & H3). split; [done|]. exists x', i', ls. split_and!; [exact H1|exact H2|]. apply H3. by cbv.
Defined.

Lemma fileread_reads_witness :
  or_full (fileread 1 false (fun _ => None) 0 10) small_files (fun r _ => r = Returned 0 []).
Proof.
  eapply or_full_mono; [apply (fileread_reads 1 false (fun _ => None) small_files 0 small_file (small_inode T_FILE) _ 0 0 10 small_open);
    [done|lia|unfold MAXFILE; lia|lia|lia]|].
  intros r s' (-> & _). done.
Defined.

(** Two entries; a file is allocated, copied and closed once. *)
Definition no_file : file := File FD_NONE 0 false false 0 0 0.
Definition two_files : files := Files (small_fs1 T_FILE) [no_file; no_file] [] [].

Lemma two_files_run : exists s, rtc (fstep 1 false (fun _ => None) (fun _ => None)) (two_files, []) (s, [0%nat]) /\ exists x, ftable s !! 1%nat = Some x.
Proof.
  eexists. split. { eapply rtc_l; [eapply f_alloc; reflexivity|]. eapply rtc_l; [eapply f_dup; [apply list_elem_of_here|cbn; lia|reflexivity]|].
  eapply rtc_l; [apply (f_close _ _ _ _ _ [] 0%nat [0%nat]); reflexivity|]. apply rtc_refl. }
  eexists. reflexivity.
Qed.

Lemma file_table_counts_witness :
  exists s, (forall f x, ftable s !! f = Some x -> f_ref x = occ f [0%nat]) /\ exists f s', filealloc s = Ret (Some f) s' /\ f ∉ [0%nat].
Proof.
  destruct two_files_run as (s & Hr & Hn). exists s.
  assert (H0 : forall f x, ftable two_files !! f = Some x -> f_ref x = 0 /\ f_type x = FD_NONE) by (intros [|[|f]] x; cbn; [intros [= <-]|intros [= <-]|]; done).
  destruct (file_table_counts 1 false (fun _ => None) (fun _ => None) two_files s [0%nat] H0 Hr) as (H1 & [(f & s' & E)|[E Ha]] & _).
  - split; [exact H1|]. by exists f, s'.
  - exfalso. destruct Hn as [x Hx]. pose proof (Ha 1%nat x Hx) as Hin. apply list_elem_of_singleton in Hin. done.
Defined.

Lemma pipealloc_all_or_nothing_witness :
  (match pipealloc 1 (Some [1; 2]) two_files with Ret r _ => r = (0, Some (0%nat, 1%nat)) | _ => False end) /\ pipealloc 1 None two_files = Ret (-1, None) two_files.
Proof.
  assert (Hi : finv (ftable two_files) []) by (intros [|[|f]] x; cbn; [intros [= <-]|intros [= <-]|]; done).
  split; [reflexivity|]. destruct (pipealloc_all_or_nothing 1 None two_files [] Hi) as [(f0 & f1 & x0 & x1 & data & E & _)|E]; [done|exact E].
Defined.
