(* ===== verification/Vm.v ===== *)
(** * Vm: vm.c

    Page directories and page tables.  A page is the list of its 4096 bytes, and
    the state has the pages that are allocated, by their kernel address, and the
    free list of kalloc.c.  What kalloc.c promises (Kalloc.v) is all that is used
    of it: [kalloc] takes the first free page, whose contents are arbitrary
    ([junk]), and [kfree] gives a page back, after which it cannot be accessed.  An
    access to a page that is not allocated is undefined behaviour, so that a
    theorem that an operation returns says that it does not use a page after it
    was freed, nor frees one twice.

    [kend] and [kdata] are the linker's [end] and [data]. *)

From S2P Require Import Prelude Mem Log Kalloc.

(** ** mmu.h and memlayout.h *)

Definition PTXSHIFT : Z := 12.
Definition PDXSHIFT : Z := 22.
Definition NPDENTRIES : Z := 1024.
Definition PDX (va : Z) : Z := Z.land (Z.shiftr va PDXSHIFT) 0x3FF.
Definition PTX (va : Z) : Z := Z.land (Z.shiftr va PTXSHIFT) 0x3FF.
Definition PGADDR (d t o : Z) : Z := u32 (Z.lor (Z.lor (Z.shiftl d PDXSHIFT) (Z.shiftl t PTXSHIFT)) o).
Definition PGROUNDDOWN (a : Z) : Z := Z.land a (Z.lnot (PGSIZE - 1)).
Definition PTE_P : Z := 1.
Definition PTE_W : Z := 2.
Definition PTE_U : Z := 4.
Definition PTE_ADDR (pte : Z) : Z := Z.land pte (Z.lnot 0xFFF).
Definition PTE_FLAGS (pte : Z) : Z := Z.land pte 0xFFF.
Definition EXTMEM : Z := 0x100000.
Definition DEVSPACE : Z := 0xFE000000.
Definition KERNLINK : Z := KERNBASE + EXTMEM.
Definition P2V (a : Z) : Z := u32 (a + KERNBASE).

Notation pagedata := (list Z).

(** [vlog] is what cprintf printed. *)
Record vm := Vm { vpages : gmap Z pagedata; vfree : list Z; cr3 : Z; vlog : list string }.
#[export] Instance eta_vm : Eta vm := fun r => Vm (vpages r) (vfree r) (cr3 r) (vlog r).

Section Vm.
Context (kend kdata : Z) (junk : Z -> pagedata).

(** ** Memory *)

Definition kalloc : M vm Z :=
  l ← gets vfree;
  match l with
  | [] => mret 0
  | p :: l' => modify (fun s => s <| vfree := l' |> <| vpages ::= <[p := junk p]> |>);; mret p
  end.

Definition kfree (v : Z) : M vm unit :=
  if negb (v mod PGSIZE =? 0) || (v <? kend) || (V2P v >=? PHYSTOP) then panic "kfree"
  else
    s ← gets vpages;
    _ ← deref (s !! v);
    modify (fun s => s <| vpages ::= delete v |> <| vfree ::= cons v |>).

Definition get_page (p : Z) : M vm pagedata := s ← gets vpages; deref (s !! p).
Definition set_page (p : Z) (d : pagedata) : M vm unit := _ ← get_page p; modify (fun s => s <| vpages ::= <[p := d]> |>).

(** The word at an address, and bytes moved into a page. *)
Definition ldw (a : Z) : M vm Z := d ← get_page (PGROUNDDOWN a); deref (get32 d (Z.to_nat (a mod PGSIZE))).
Definition stw (a v : Z) : M vm unit :=
  d ← get_page (PGROUNDDOWN a); set_page (PGROUNDDOWN a) (put32 d (Z.to_nat (a mod PGSIZE)) v).
Definition zero_page (p : Z) : M vm unit := set_page p (replicate (Z.to_nat PGSIZE) 0).
Definition st_bytes (a : Z) (bs : list Z) : M vm unit :=
  d ← get_page (PGROUNDDOWN a); set_page (PGROUNDDOWN a) (list_inserts (Z.to_nat (a mod PGSIZE)) bs d).

(** ** Page tables *)

(** The address of the entry for [va], or 0. *)
Definition walkpgdir (pgdir va : Z) (alloc : bool) : M vm Z :=
  let pde := pgdir + 4 * PDX va in
  e ← ldw pde;
  if negb (Z.land e PTE_P =? 0) then mret (P2V (PTE_ADDR e) + 4 * PTX va)
  else if negb alloc then mret 0
  else
    pgtab ← kalloc;
    if pgtab =? 0 then mret 0
    else
      zero_page pgtab;;
      stw pde (Z.lor (Z.lor (Z.lor (V2P pgtab) PTE_P) PTE_W) PTE_U);;
      mret (pgtab + 4 * PTX va).

(** The loop of [mappages]. *)
Fixpoint mappages_loop (fuel : nat) (pgdir a last pa perm : Z) : M vm Z :=
  match fuel with
  | O => spin
  | S fuel =>
      pte ← walkpgdir pgdir a true;
      if pte =? 0 then mret (-1)
      else
        e ← ldw pte;
        if negb (Z.land e PTE_P =? 0) then panic "remap"
        else
          stw pte (Z.lor (Z.lor pa perm) PTE_P);;
          if a =? last then mret 0
          else mappages_loop fuel pgdir (u32 (a + PGSIZE)) last (u32 (pa + PGSIZE)) perm
  end.

(** There are 2^20 pages of addresses: more turns than that would be a remap. *)
Definition mappages (pgdir va size pa perm : Z) : M vm Z :=
  let a := PGROUNDDOWN va in
  let last := PGROUNDDOWN (u32 (va + size - 1)) in
  mappages_loop (Z.to_nat (2 ^ 20 + 1)) pgdir a last pa perm.

(** The loop of [deallocuvm]. *)
Fixpoint deallocuvm_loop (fuel : nat) (pgdir a oldsz : Z) : M vm unit :=
  if a <? oldsz then
    match fuel with
    | O => spin
    | S fuel =>
        pte ← walkpgdir pgdir a false;
        if pte =? 0 then deallocuvm_loop fuel pgdir (u32 (u32 (PGADDR (PDX a + 1) 0 0 - PGSIZE) + PGSIZE)) oldsz
        else
          e ← ldw pte;
          (if negb (Z.land e PTE_P =? 0) then
             let pa := PTE_ADDR e in
             if pa =? 0 then panic "kfree" else kfree (P2V pa);; stw pte 0
           else mret tt);;
          deallocuvm_loop fuel pgdir (u32 (a + PGSIZE)) oldsz
    end
  else mret tt.

Definition deallocuvm (pgdir oldsz newsz : Z) : M vm Z :=
  if newsz >=? oldsz then mret (s32 oldsz)
  else deallocuvm_loop (Z.to_nat (2 ^ 20)) pgdir (PGROUNDUP newsz) oldsz;; mret (s32 newsz).

Definition freevm (pgdir : Z) : M vm unit :=
  if pgdir =? 0 then panic "freevm: no pgdir"
  else
    deallocuvm pgdir KERNBASE 0;;
    for_each (seqZ 0 NPDENTRIES) (fun i =>
      e ← ldw (pgdir + 4 * i);
      if negb (Z.land e PTE_P =? 0) then kfree (P2V (PTE_ADDR e)) else mret tt);;
    kfree pgdir.

(** [kmap]: virtual address, physical start and end, permissions. *)
Definition kmap : list (Z * Z * Z * Z) :=
  [ (KERNBASE, 0, EXTMEM, PTE_W);
    (KERNLINK, V2P KERNLINK, V2P kdata, 0);
    (kdata, V2P kdata, PHYSTOP, PTE_W);
    (DEVSPACE, DEVSPACE, 0, PTE_W) ].

Fixpoint setupkvm_loop (pgdir : Z) (ks : list (Z * Z * Z * Z)) : M vm Z :=
  match ks with
  | [] => mret pgdir
  | (virt, phys_start, phys_end, perm) :: ks' =>
      r ← mappages pgdir virt (u32 (phys_end - phys_start)) phys_start perm;
      if r <? 0 then freevm pgdir;; mret 0 else setupkvm_loop pgdir ks'
  end.

Definition setupkvm : M vm Z :=
  pgdir ← kalloc;
  if pgdir =? 0 then mret 0
  else
    zero_page pgdir;;
    if P2V PHYSTOP >? DEVSPACE then panic "PHYSTOP too high" else setupkvm_loop pgdir kmap.

Definition switchkvm (kpgdir : Z) : M vm unit := modify (fun s => s <| cr3 := V2P kpgdir |>).

(** [kvmalloc]; the result is the new value of [kpgdir]. *)
Definition kvmalloc : M vm Z := kpgdir ← setupkvm; switchkvm kpgdir;; mret kpgdir.

(** ** User memory *)

Definition inituvm (pgdir : Z) (init : list Z) : M vm unit :=
  if Z.of_nat (length init) >=? PGSIZE then panic "inituvm: more than a page"
  else
    mem ← kalloc;
    zero_page mem;;
    mappages pgdir 0 PGSIZE (V2P mem) (Z.lor PTE_W PTE_U);;
    st_bytes mem init.

(** The loop of [loaduvm]; [readi off n] are the bytes that [readi] delivers. *)
Fixpoint loaduvm_loop (readi : Z -> Z -> list Z) (fuel : nat) (pgdir addr offset sz i : Z) : M vm Z :=
  if i <? sz then
    match fuel with
    | O => spin
    | S fuel =>
        pte ← walkpgdir pgdir (u32 (addr + i)) false;
        if pte =? 0 then panic "loaduvm: address should exist"
        else
          e ← ldw pte;
          let pa := PTE_ADDR e in
          let n := if sz - i <? PGSIZE then sz - i else PGSIZE in
          let bs := readi (u32 (offset + i)) n in
          st_bytes (P2V pa) bs;;
          if negb (Z.of_nat (length bs) =? n) then mret (-1) else loaduvm_loop readi fuel pgdir addr offset sz (u32 (i + PGSIZE))
    end
  else mret 0.
Definition loaduvm (readi : Z -> Z -> list Z) (pgdir addr offset sz : Z) : M vm Z :=
  if negb (addr mod PGSIZE =? 0) then panic "loaduvm: addr must be page aligned"
  else loaduvm_loop readi (Z.to_nat (2 ^ 20)) pgdir addr offset sz 0.

(** The loop of [allocuvm]. *)
Fixpoint allocuvm_loop (fuel : nat) (pgdir oldsz newsz a : Z) : M vm Z :=
  if a <? newsz then
    match fuel with
    | O => spin
    | S fuel =>
        mem ← kalloc;
        if mem =? 0 then
          modify (fun s => s <| vlog ::= fun l => l ++ ["allocuvm out of memory"%string] |>);;
          deallocuvm pgdir newsz oldsz;;
          mret 0
        else
          zero_page mem;;
          r ← mappages pgdir a PGSIZE (V2P mem) (Z.lor PTE_W PTE_U);
          if r <? 0 then
            modify (fun s => s <| vlog ::= fun l => l ++ ["allocuvm out of memory (2)"%string] |>);;
            deallocuvm pgdir newsz oldsz;;
            kfree mem;;
            mret 0
          else allocuvm_loop fuel pgdir oldsz newsz (u32 (a + PGSIZE))
    end
  else mret (s32 newsz).
Definition allocuvm (pgdir oldsz newsz : Z) : M vm Z :=
  if newsz >=? KERNBASE then mret 0
  else if newsz <? oldsz then mret (s32 oldsz)
  else allocuvm_loop (Z.to_nat (2 ^ 20)) pgdir oldsz newsz (PGROUNDUP oldsz).

Definition clearpteu (pgdir uva : Z) : M vm unit :=
  pte ← walkpgdir pgdir uva false;
  if pte =? 0 then panic "clearpteu"
  else e ← ldw pte; stw pte (Z.land e (Z.lnot PTE_U)).

(** The loop of [copyuvm], copying into [d]. *)
Fixpoint copyuvm_loop (fuel : nat) (pgdir d sz i : Z) : M vm Z :=
  if i <? sz then
    match fuel with
    | O => spin
    | S fuel =>
        pte ← walkpgdir pgdir i false;
        if pte =? 0 then panic "copyuvm: pte should exist"
        else
          e ← ldw pte;
          if Z.land e PTE_P =? 0 then panic "copyuvm: page not present"
          else
            let pa := PTE_ADDR e in
            let flags := PTE_FLAGS e in
            mem ← kalloc;
            if mem =? 0 then freevm d;; mret 0
            else
              src ← get_page (P2V pa);
              set_page mem src;;
              r ← mappages d i PGSIZE (V2P mem) flags;
              if r <? 0 then kfree mem;; freevm d;; mret 0
              else copyuvm_loop fuel pgdir d sz (u32 (i + PGSIZE))
    end
  else mret d.
Definition copyuvm (pgdir sz : Z) : M vm Z :=
  d ← setupkvm;
  if d =? 0 then mret 0 else copyuvm_loop (Z.to_nat (2 ^ 20)) pgdir d sz 0.

(** [walkpgdir] can return 0, which is dereferenced here. *)
Definition uva2ka (pgdir uva : Z) : M vm Z :=
  pte ← walkpgdir pgdir uva false;
  if pte =? 0 then undef
  else
    e ← ldw pte;
    if Z.land e PTE_P =? 0 then mret 0
    else if Z.land e PTE_U =? 0 then mret 0
    else mret (P2V (PTE_ADDR e)).

(** [copyout] of the bytes [buf]. *)
Fixpoint copyout_loop (fuel : nat) (pgdir va : Z) (buf : list Z) : M vm Z :=
  match buf with
  | [] => mret 0
  | _ =>
    match fuel with
    | O => spin
    | S fuel =>
        let va0 := PGROUNDDOWN va in
        pa0 ← uva2ka pgdir va0;
        if pa0 =? 0 then mret (-1)
        else
          let n := Z.min (PGSIZE - (va - va0)) (Z.of_nat (length buf)) in
          st_bytes (pa0 + (va - va0)) (take (Z.to_nat n) buf);;
          copyout_loop fuel pgdir (u32 (va0 + PGSIZE)) (drop (Z.to_nat n) buf)
    end
  end.
Definition copyout (pgdir va : Z) (p : list Z) : M vm Z := copyout_loop (length p) pgdir va p.
End Vm.
