(* ===== verification/VmSpec.v ===== *)
(** * VmSpec: address spaces

    A page directory is described by [tab], the page table (if any) of each of its
    1024 entries, and by [ent], the page table entry of each of the 2^20 pages of
    addresses.  The operations of vm.c are functions on these. *)

From S2P Require Import Prelude Mem Log Kalloc Vm.

(** ** Addresses and entries as numbers *)

Lemma land_low a n : 0 <= n -> Z.land a (2 ^ n - 1) = a mod 2 ^ n.
Proof. intros Hn. rewrite <- Z.land_ones by done. by rewrite Z.ones_equiv, Z.sub_1_r. Qed.

Lemma land_high a n : 0 <= n -> Z.land a (Z.lnot (2 ^ n - 1)) = a - a mod 2 ^ n.
Proof.
  intros Hn. rewrite <- Z.ldiff_land. rewrite Z.sub_1_r, <- Z.ones_equiv, Z.ldiff_ones_r by done.
  rewrite Z.shiftl_mul_pow2, Z.shiftr_div_pow2 by done. pose proof (Z.div_mod a (2 ^ n)). pose proof (Z.pow_pos_nonneg 2 n). lia.
Qed.

Lemma lor_low a f n : 0 <= n -> a mod 2 ^ n = 0 -> 0 <= f < 2 ^ n -> Z.lor a f = a + f.
Proof.
  intros Hn Ha Hf. rewrite <- (Z.lxor_lor a f).
  - symmetry. apply Z.add_nocarry_lxor. apply Z.bits_inj'. intros k Hk. rewrite Z.land_spec, Z.bits_0.
    destruct (decide (k < n)) as [Hlt|Hge].
    + rewrite <- (Z.mod_pow2_bits_low a n k) by lia. rewrite Ha, Z.bits_0. done.
    + rewrite <- (Z.mod_small f (2 ^ n)), Z.mod_pow2_bits_high by lia. apply andb_false_r.
  - apply Z.bits_inj'. intros k Hk. rewrite Z.land_spec, Z.bits_0.
    destruct (decide (k < n)) as [Hlt|Hge].
    + rewrite <- (Z.mod_pow2_bits_low a n k) by lia. rewrite Ha, Z.bits_0. done.
    + rewrite <- (Z.mod_small f (2 ^ n)), Z.mod_pow2_bits_high by lia. apply andb_false_r.
Qed.

Lemma PGROUNDDOWN_eq a : PGROUNDDOWN a = a - a mod 4096.
Proof. apply (land_high a 12). lia. Qed.

Lemma PTE_ADDR_eq a : PTE_ADDR a = a - a mod 4096.
Proof. apply (land_high a 12). lia. Qed.

Lemma PTE_FLAGS_eq a : PTE_FLAGS a = a mod 4096.
Proof. apply (land_low a 12). lia. Qed.

Lemma PDX_eq va : PDX va = va / 2 ^ 22 mod 1024.
Proof. unfold PDX, PDXSHIFT. rewrite Z.shiftr_div_pow2 by lia. apply (land_low _ 10). lia. Qed.

Lemma PTX_eq va : PTX va = va / 2 ^ 12 mod 1024.
Proof. unfold PTX, PTXSHIFT. rewrite Z.shiftr_div_pow2 by lia. apply (land_low _ 10). lia. Qed.

Lemma PGADDR_eq d : 0 <= d <= 1024 -> PGADDR d 0 0 = d * 2 ^ 22 mod 2 ^ 32.
Proof. intros Hd. unfold PGADDR, PDXSHIFT, PTXSHIFT. rewrite Z.shiftl_0_l, !Z.lor_0_r, Z.shiftl_mul_pow2 by lia. done. Qed.

(** An entry is present. *)
Definition present (e : Z) : bool := Z.odd e.

Lemma land_P e : (Z.land e PTE_P =? 0) = negb (present e).
Proof.
  unfold PTE_P, present. change 1 with (2 ^ 1 - 1). rewrite land_low by lia. change (2 ^ 1) with 2. rewrite Zmod_odd. by destruct (Z.odd e).
Qed.

(** A page of memory: its kernel address, and a table entry for it. *)
(** Decides comparisons. *)
Ltac zdecide :=
  repeat match goal with
  | |- context [?a <=? ?b] => first [rewrite (proj2 (Z.leb_le a b)) by lia|rewrite (proj2 (Z.leb_gt a b)) by lia]
  | |- context [?a <? ?b] => first [rewrite (proj2 (Z.ltb_lt a b)) by lia|rewrite (proj2 (Z.ltb_ge a b)) by lia]
  end; cbn [andb].

Section Pages.
Context (kend : Z).
Hypothesis Hkend : KERNBASE < kend.

Notation vpage := (page kend).

Lemma vpage_range p : vpage p -> p mod 4096 = 0 /\ KERNBASE < p < KERNBASE + PHYSTOP.
Proof using Hkend. intros (H1 & H2 & H3 & H4). unfold V2P, u32, KERNBASE, PHYSTOP, PGSIZE in *. split; [done|]. zlia. Qed.

Lemma vpage_V2P p : vpage p -> V2P p = p - KERNBASE /\ 0 < V2P p < PHYSTOP /\ V2P p mod 4096 = 0.
Proof using Hkend.
  intros Hp. destruct (vpage_range p Hp) as [H1 H2]. unfold V2P, KERNBASE, PHYSTOP in *. rewrite u32_small by lia. split_and!; [done|lia|lia|zlia].
Qed.

Lemma P2V_V2P p : vpage p -> P2V (V2P p) = p.
Proof using Hkend. intros Hp. destruct (vpage_V2P p Hp) as (-> & _). destruct (vpage_range p Hp) as [_ H]. unfold P2V, KERNBASE, PHYSTOP in *. rewrite u32_small by lia. lia. Qed.

(** The entry for page [p] with flags [f]. *)
Lemma entry_of p f : vpage p -> 0 <= f < 4096 ->
  Z.lor (V2P p) f = V2P p + f /\ PTE_ADDR (V2P p + f) = V2P p /\ PTE_FLAGS (V2P p + f) = f /\ present (V2P p + f) = Z.odd f /\ is_u32 (V2P p + f).
Proof using Hkend.
  intros Hp Hf. destruct (vpage_V2P p Hp) as (_ & H1 & H2). split_and!.
  - apply (lor_low _ _ 12); [lia|done|done].
  - rewrite PTE_ADDR_eq. zlia.
  - rewrite PTE_FLAGS_eq. zlia.
  - unfold present. rewrite Z.odd_add. replace (Z.odd (V2P p)) with false; [done|]. symmetry. rewrite <- Z.negb_even. apply negb_false_iff, Z.even_spec. exists (V2P p / 4096 * 2048). zlia.
  - unfold is_u32, PHYSTOP in *. lia.
Qed.

(** ** Words of pages *)

Context (junk : Z -> pagedata).
Hypothesis Hjunk : forall p, length (junk p) = 4096%nat.

Definition entw (d : pagedata) (i : Z) : Z := default 0 (get32 d (Z.to_nat (4 * i))).

Lemma entw_get d i : length d = 4096%nat -> 0 <= i < 1024 -> get32 d (Z.to_nat (4 * i)) = Some (entw d i).
Proof. intros Hl Hi. unfold entw. destruct (get32_Some d (Z.to_nat (4 * i))) as [v ->]; [lia|done]. Qed.

Lemma entw_put d i j v : length d = 4096%nat -> 0 <= i < 1024 -> 0 <= j < 1024 -> is_u32 v ->
  entw (put32 d (Z.to_nat (4 * i)) v) j = if j =? i then v else entw d j.
Proof.
  intros Hl Hi Hj Hv. unfold entw. destruct (Z.eqb_spec j i) as [->|Hne].
  - rewrite get32_put32_eq by lia. cbn. apply u32_small. unfold is_u32 in Hv. lia.
  - by rewrite get32_put32_ne by lia.
Qed.

Lemma entw_zero i : 0 <= i < 1024 -> entw (replicate 4096 0) i = 0.
Proof. intros Hi. unfold entw, get32. rewrite !lookup_replicate_2 by lia. done. Qed.

Lemma word_addr p i : p mod 4096 = 0 -> 0 <= i < 1024 -> PGROUNDDOWN (p + 4 * i) = p /\ (p + 4 * i) mod PGSIZE = 4 * i.
Proof. intros Hp Hi. rewrite PGROUNDDOWN_eq. unfold PGSIZE. split; zlia. Qed.

Lemma get_page_ok s p d : vpages s !! p = Some d -> get_page p s = Ret d s.
Proof. intros H. unfold get_page. msimp. by rewrite H. Qed.

Lemma set_page_ok s p d d' : vpages s !! p = Some d -> set_page p d' s = Ret tt (s <| vpages ::= <[p := d']> |>).
Proof. intros H. unfold set_page. by rewrite (bind_ret _ _ _ _ _ (get_page_ok s p d H)). Qed.

Lemma ldw_ok s p d i : vpages s !! p = Some d -> length d = 4096%nat -> p mod 4096 = 0 -> 0 <= i < 1024 -> ldw (p + 4 * i) s = Ret (entw d i) s.
Proof.
  intros Hd Hl Hp Hi. unfold ldw. destruct (word_addr p i Hp Hi) as [-> ->]. rewrite (bind_ret _ _ _ _ _ (get_page_ok s p d Hd)).
  by rewrite entw_get.
Qed.

Lemma stw_ok s p d i v : vpages s !! p = Some d -> p mod 4096 = 0 -> 0 <= i < 1024 ->
  stw (p + 4 * i) v s = Ret tt (s <| vpages ::= <[p := put32 d (Z.to_nat (4 * i)) v]> |>).
Proof.
  intros Hd Hp Hi. unfold stw. destruct (word_addr p i Hp Hi) as [-> ->]. rewrite (bind_ret _ _ _ _ _ (get_page_ok s p d Hd)). by eapply set_page_ok.
Qed.

(** ** Page directories *)

(** The page table for entry [i] of a page directory, and the entry for page [k] of
    the addresses. *)
Definition tab (s : vm) (pgdir i : Z) : option Z :=
  match vpages s !! pgdir with
  | Some d => let e := entw d i in if present e then Some (P2V (PTE_ADDR e)) else None
  | None => None
  end.

Definition ent (s : vm) (pgdir k : Z) : Z :=
  match tab s pgdir (k / 1024) with
  | Some t => match vpages s !! t with Some d => entw d (k mod 1024) | None => 0 end
  | None => 0
  end.

Record dir_ok (s : vm) (pgdir : Z) : Prop := {
  dk_page : vpage pgdir;
  dk_data : exists d, vpages s !! pgdir = Some d /\ length d = 4096%nat;
  dk_tab : forall i t, 0 <= i < 1024 -> tab s pgdir i = Some t -> vpage t /\ t <> pgdir /\ exists d, vpages s !! t = Some d /\ length d = 4096%nat;
  dk_inj : forall i j t, 0 <= i < 1024 -> 0 <= j < 1024 -> tab s pgdir i = Some t -> tab s pgdir j = Some t -> i = j
}.

(** The free pages. *)
Record free_ok (s : vm) : Prop := {
  fr_nodup : NoDup (vfree s);
  fr_page : forall p, p ∈ vfree s -> vpage p /\ vpages s !! p = None
}.

Lemma PDX_range va : 0 <= PDX va < 1024.
Proof. rewrite PDX_eq. apply Z.mod_pos_bound. lia. Qed.

Lemma PTX_range va : 0 <= PTX va < 1024.
Proof. rewrite PTX_eq. apply Z.mod_pos_bound. lia. Qed.

(** Page [k] of the addresses. *)
Lemma vpn_index k : 0 <= k < 2 ^ 20 -> PDX (k * 4096) = k / 1024 /\ PTX (k * 4096) = k mod 1024.
Proof. intros Hk. rewrite PDX_eq, PTX_eq. split; zlia. Qed.

Lemma tab_word s pgdir i : dir_ok s pgdir -> 0 <= i < 1024 ->
  exists d, vpages s !! pgdir = Some d /\ length d = 4096%nat /\ tab s pgdir i = if present (entw d i) then Some (P2V (PTE_ADDR (entw d i))) else None.
Proof. intros Hd Hi. destruct (dk_data _ _ Hd) as (d & Hp & Hl). exists d. unfold tab. by rewrite Hp. Qed.

(** [walkpgdir] without allocation finds the entry. *)
Lemma walk_ok s pgdir va : dir_ok s pgdir ->
  walkpgdir junk pgdir va false s = Ret (match tab s pgdir (PDX va) with Some t => t + 4 * PTX va | None => 0 end) s.
Proof using Hkend.
  intros Hd. pose proof (PDX_range va) as Hr. destruct (tab_word s pgdir (PDX va) Hd Hr) as (d & Hp & Hl & ->).
  destruct (vpage_range _ (dk_page _ _ Hd)) as [Ha _].
  unfold walkpgdir. cbv zeta. rewrite (bind_ret _ _ _ _ _ (ldw_ok s pgdir d (PDX va) Hp Hl Ha Hr)), land_P, negb_involutive.
  by destruct (present (entw d (PDX va))).
Qed.

(** An entry of a page table that is there. *)
Lemma ent_word s pgdir k t : dir_ok s pgdir -> 0 <= k < 2 ^ 20 -> tab s pgdir (k / 1024) = Some t ->
  exists d, vpages s !! t = Some d /\ length d = 4096%nat /\ ent s pgdir k = entw d (k mod 1024) /\ vpage t /\ t <> pgdir /\
    ldw (t + 4 * (k mod 1024)) s = Ret (ent s pgdir k) s.
Proof using Hkend.
  intros Hd Hk Ht. destruct (dk_tab _ _ Hd (k / 1024) t ltac:(zlia) Ht) as (Hv & Hne & d & Hp & Hl). exists d.
  assert (He : ent s pgdir k = entw d (k mod 1024)) by (unfold ent; by rewrite Ht, Hp). split_and!; try done.
  rewrite He. apply ldw_ok; [done|done|by destruct (vpage_range t Hv)|zlia].
Qed.

(** ** How a page directory changes

    [evolves s pgdir s' new]: between [s] and [s'] only the page directory and its
    page tables changed, and the free pages [new] became page tables of it. *)
Record evolves (s : vm) (pgdir : Z) (s' : vm) (new : list Z) : Prop := {
  ev_dir : dir_ok s' pgdir;
  ev_free : free_ok s';
  ev_list : vfree s = new ++ vfree s';
  ev_keep : forall i t, 0 <= i < 1024 -> tab s pgdir i = Some t -> tab s' pgdir i = Some t;
  ev_new : forall i t, 0 <= i < 1024 -> tab s' pgdir i = Some t -> tab s pgdir i = Some t \/ t ∈ new;
  ev_used : forall t, t ∈ new -> exists i, 0 <= i < 1024 /\ tab s' pgdir i = Some t;
  ev_frame : forall q, q <> pgdir -> q ∉ new -> (forall i, 0 <= i < 1024 -> tab s pgdir i <> Some q) -> vpages s' !! q = vpages s !! q;
  ev_misc : vlog s' = vlog s /\ cr3 s' = cr3 s
}.

Lemma evolves_refl s pgdir : dir_ok s pgdir -> free_ok s -> evolves s pgdir s [].
Proof. intros Hd Hf. split; try done; [by left|]. intros t Ht. by apply elem_of_nil in Ht. Qed.

Lemma evolves_trans s pgdir s1 s2 n1 n2 : evolves s pgdir s1 n1 -> evolves s1 pgdir s2 n2 -> evolves s pgdir s2 (n1 ++ n2).
Proof.
  intros [A1 A2 A3 A4 A5 A6 A7 [A8 A9]] [B1 B2 B3 B4 B5 B6 B7 [B8 B9]]. split; try done.
  - by rewrite A3, B3, app_assoc.
  - intros i t Hi Ht. by apply B4, A4.
  - intros i t Hi Ht. rewrite elem_of_app. destruct (B5 i t Hi Ht) as [H|H]; [|by right; right]. destruct (A5 i t Hi H); [by left|by right; left].
  - intros t Ht. apply elem_of_app in Ht as [Ht|Ht]; [|by apply B6]. destruct (A6 t Ht) as (i & Hi & E). exists i. split; [done|by apply B4].
  - intros q Hq Hn Ht. apply not_elem_of_app in Hn as [Hn1 Hn2]. rewrite B7, A7; [done..|].
    intros i Hi E. destruct (A5 i q Hi E) as [E'|E']; [by apply (Ht i Hi)|done].
  - split; congruence.
Qed.

(** The state with one page changed. *)
Definition with_page (s : vm) (p : Z) (d : pagedata) : vm := s <| vpages ::= <[p := d]> |>.

Lemma with_page_lookup s p d q : vpages (with_page s p d) !! q = if decide (q = p) then Some d else vpages s !! q.
Proof. cbn. case_decide as E; [subst; by rewrite lookup_insert_eq|by rewrite lookup_insert_ne]. Qed.

Lemma tab_with_page s pgdir p d i : p <> pgdir -> tab (with_page s p d) pgdir i = tab s pgdir i.
Proof. intros Hne. unfold tab. rewrite with_page_lookup. by rewrite decide_False by congruence. Qed.

Lemma free_with_page s p d : free_ok s -> p ∉ vfree s -> free_ok (with_page s p d).
Proof.
  intros [F1 F2] Hp. split; [done|]. intros q Hq. destruct (F2 q Hq) as [H1 H2]. split; [done|]. rewrite with_page_lookup. rewrite decide_False; [done|]. by intros ->.
Qed.

Lemma alloc_not_free s p d : free_ok s -> vpages s !! p = Some d -> p ∉ vfree s.
Proof. intros Hf Hp Hin. destruct (fr_page _ Hf p Hin) as [_ E]. congruence. Qed.

(** Storing an entry of a page table. *)
Lemma set_ent s pgdir k t v : dir_ok s pgdir -> free_ok s -> 0 <= k < 2 ^ 20 -> is_u32 v -> tab s pgdir (k / 1024) = Some t ->
  exists s', stw (t + 4 * (k mod 1024)) v s = Ret tt s' /\ evolves s pgdir s' [] /\ (forall i, tab s' pgdir i = tab s pgdir i) /\
    forall j, 0 <= j < 2 ^ 20 -> ent s' pgdir j = if j =? k then v else ent s pgdir j.
Proof using Hkend.
  intros Hd Hf Hk Hv Ht. destruct (ent_word s pgdir k t Hd Hk Ht) as (d & Hp & Hl & He & Hvt & Hne & _).
  destruct (vpage_range t Hvt) as [Ha _]. exists (with_page s t (put32 d (Z.to_nat (4 * (k mod 1024))) v)). set (s' := with_page _ _ _).
  assert (Htab : forall i, tab s' pgdir i = tab s pgdir i) by (intros i; by apply tab_with_page).
  assert (Hl' : length (put32 d (Z.to_nat (4 * (k mod 1024))) v) = 4096%nat) by (by rewrite put32_length).
  split; [apply stw_ok; [done|done|zlia]|]. split; [|split; [done|]].
  - split; try done.
    + split; [apply Hd| | |].
      * destruct (dk_data _ _ Hd) as (d0 & H0 & L0). exists d0. unfold s'. rewrite with_page_lookup. by rewrite decide_False by congruence.
      * intros i t' Hi. rewrite Htab. intros Ht'. destruct (dk_tab _ _ Hd i t' Hi Ht') as (H1 & H2 & d1 & H3 & H4). split_and!; try done.
        unfold s'. rewrite with_page_lookup. case_decide; [by eexists|by exists d1].
      * intros i j t' Hi Hj. rewrite !Htab. by apply (dk_inj _ _ Hd).
    + apply free_with_page; [done|]. by eapply alloc_not_free.
    + intros i t' Hi. by rewrite Htab.
    + intros i t' Hi. rewrite Htab. by left.
    + intros t' Ht'. by apply elem_of_nil in Ht'.
    + intros q Hq _ Hnt. unfold s'. rewrite with_page_lookup. rewrite decide_False; [done|]. intros ->. by apply (Hnt (k / 1024) ltac:(zlia)).
  - intros j Hj. unfold ent at 1. rewrite Htab. destruct (tab s pgdir (j / 1024)) as [tj|] eqn:Ej.
    + unfold s'. rewrite with_page_lookup. case_decide as Et.
      * subst tj. assert (Ejk : j / 1024 = k / 1024) by (apply (dk_inj _ _ Hd _ _ t); [zlia|zlia|done|done]).
        rewrite entw_put by (done || zlia). unfold ent. rewrite Ej, Hp. destruct (Z.eqb_spec (j mod 1024) (k mod 1024)), (Z.eqb_spec j k); try done; zlia.
      * unfold ent. rewrite Ej. destruct (Z.eqb_spec j k) as [->|]; [congruence|done].
    + unfold ent. rewrite Ej. destruct (Z.eqb_spec j k) as [->|]; [congruence|done].
Qed.

(** The state in which a free page became the page table for entry [i]. *)
Definition new_tab (s : vm) (pgdir : Z) (d : pagedata) (i p : Z) (l : list Z) : vm :=
  with_page (with_page (s <| vfree := l |>) p (replicate 4096 0)) pgdir (put32 d (Z.to_nat (4 * i)) (V2P p + 7)).

Section Newtab.
Context (s : vm) (pgdir i p : Z) (d : pagedata) (l : list Z).
Hypothesis (Hd : dir_ok s pgdir) (Hf : free_ok s) (Hi : 0 <= i < 1024) (Hp : vpages s !! pgdir = Some d) (Hl : length d = 4096%nat)
  (Hfree : vfree s = p :: l) (Hnone : tab s pgdir i = None).
Let s' := new_tab s pgdir d i p l.

Lemma new_page : vpage p /\ vpages s !! p = None /\ p <> pgdir /\ p ∉ l.
Proof using Hf Hfree Hp.
  destruct (fr_page _ Hf p) as [H1 H2]; [rewrite Hfree; apply list_elem_of_here|]. split_and!; [done|done|congruence|].
  pose proof (fr_nodup _ Hf) as Hn. rewrite Hfree in Hn. by apply NoDup_cons in Hn as [? _].
Qed.

Lemma new_tab_page q : vpages s' !! q = if decide (q = pgdir) then Some (put32 d (Z.to_nat (4 * i)) (V2P p + 7)) else if decide (q = p) then Some (replicate 4096 0) else vpages s !! q.
Proof. unfold s', new_tab. rewrite with_page_lookup. case_decide; [done|]. by rewrite with_page_lookup. Qed.

Lemma new_tab_tab j : 0 <= j < 1024 -> tab s' pgdir j = if j =? i then Some p else tab s pgdir j.
Proof using Hkend Hf Hfree Hp Hl Hi.
  intros Hj. destruct new_page as (Hv & _). destruct (entry_of p 7 Hv ltac:(lia)) as (_ & Ha & _ & Hpr & Hu).
  unfold tab. rewrite new_tab_page, decide_True, entw_put, Hp by done. cbv zeta. destruct (j =? i); [|done]. by rewrite Hpr, Ha, P2V_V2P.
Qed.

Lemma new_tab_evolves : evolves s pgdir s' [p].
Proof using Hkend Hd Hf Hi Hp Hl Hfree Hnone.
  destruct new_page as (Hv & Hfr & Hne & Hpl). 
  assert (Hold : forall j t, 0 <= j < 1024 -> tab s pgdir j = Some t -> t <> p /\ vpages s' !! t = vpages s !! t).
  { intros j t Hj Ht. destruct (dk_tab _ _ Hd j t Hj Ht) as (_ & Hn & d1 & H1 & _). assert (t <> p) by congruence. split; [done|].
    rewrite new_tab_page, !decide_False by done. done. }
  split.
  - split; [apply Hd| | |].
    + exists (put32 d (Z.to_nat (4 * i)) (V2P p + 7)). by rewrite new_tab_page, decide_True, put32_length.
    + intros j t Hj. rewrite new_tab_tab by done. destruct (j =? i).
      * intros [= <-]. split_and!; [done|done|]. exists (replicate 4096 0). by rewrite new_tab_page, decide_False, decide_True.
      * intros Ht. rewrite (proj2 (Hold j t Hj Ht)). by apply (dk_tab _ _ Hd j).
    + intros j k t Hj Hk. rewrite !new_tab_tab by done. destruct (Z.eqb_spec j i) as [->|], (Z.eqb_spec k i) as [->|]; [done| | |by apply (dk_inj _ _ Hd)].
      * intros [= <-] H. by destruct (Hold k p Hk H).
      * intros H [= <-]. by destruct (Hold j p Hj H).
  - split.
    + pose proof (fr_nodup _ Hf) as Hn. rewrite Hfree in Hn. by apply NoDup_cons in Hn as [_ ?].
    + intros q Hq. assert (Hq' : q ∈ vfree s) by (rewrite Hfree; by apply list_elem_of_further). destruct (fr_page _ Hf q Hq') as [H1 H2]. split; [done|].
      rewrite new_tab_page, !decide_False; [done|by intros ->|congruence].
  - done.
  - intros j t Hj Ht. rewrite new_tab_tab by done. destruct (Z.eqb_spec j i) as [->|]; [congruence|done].
  - intros j t Hj. rewrite new_tab_tab by done. destruct (j =? i); [intros [= <-]; right; apply list_elem_of_here|by left].
  - intros t Ht. apply list_elem_of_singleton in Ht as ->. exists i. split; [done|]. by rewrite new_tab_tab, Z.eqb_refl.
  - intros q Hq Hn _. apply not_elem_of_cons in Hn as [Hn _]. by rewrite new_tab_page, !decide_False.
  - done.
Qed.

Lemma new_tab_ent k : 0 <= k < 2 ^ 20 -> ent s' pgdir k = ent s pgdir k.
Proof using Hkend Hd Hf Hi Hp Hl Hfree Hnone.
  intros Hk. destruct new_page as (Hv & Hfr & Hne & Hpl). unfold ent. rewrite new_tab_tab by zlia. destruct (Z.eqb_spec (k / 1024) i) as [->|].
  - rewrite Hnone, new_tab_page, decide_False, decide_True by done. apply entw_zero. zlia.
  - destruct (tab s pgdir (k / 1024)) as [t|] eqn:Et; [|done]. destruct (dk_tab _ _ Hd (k / 1024) t ltac:(zlia) Et) as (_ & Hn & d1 & H1 & _).
    rewrite new_tab_page, !decide_False by congruence. done.
Qed.
End Newtab.
(** [walkpgdir] with allocation returns the entry, adding a page table when there is
    none, or 0 when there is no free page for it. *)
Lemma vkalloc_ok s p l : vfree s = p :: l -> Vm.kalloc junk s = Ret p (with_page (s <| vfree := l |>) p (junk p)).
Proof. intros H. unfold Vm.kalloc. msimp. by rewrite H. Qed.

Lemma kalloc_empty s : vfree s = [] -> Vm.kalloc junk s = Ret 0 s.
Proof. intros H. unfold Vm.kalloc. msimp. by rewrite H. Qed.

Lemma with_page_twice s p d d' : with_page (with_page s p d) p d' = with_page s p d'.
Proof. unfold with_page, setf. cbn. f_equal. apply insert_insert_eq. Qed.

Lemma walk_alloc s pgdir va : dir_ok s pgdir -> free_ok s ->
  (exists t s' new, walkpgdir junk pgdir va true s = Ret (t + 4 * PTX va) s' /\ evolves s pgdir s' new /\ tab s' pgdir (PDX va) = Some t /\
     forall k, 0 <= k < 2 ^ 20 -> ent s' pgdir k = ent s pgdir k) \/
  (walkpgdir junk pgdir va true s = Ret 0 s /\ vfree s = []).
Proof using Hkend.
  intros Hd Hf. pose proof (PDX_range va) as Hr. destruct (tab_word s pgdir (PDX va) Hd Hr) as (d & Hp & Hl & Ht).
  destruct (vpage_range _ (dk_page _ _ Hd)) as [Ha _].
  unfold walkpgdir. cbv zeta. rewrite (bind_ret _ _ _ _ _ (ldw_ok s pgdir d (PDX va) Hp Hl Ha Hr)), land_P, negb_involutive.
  destruct (present (entw d (PDX va))).
  { left. exists (P2V (PTE_ADDR (entw d (PDX va)))), s, []. split; [done|]. split; [by apply evolves_refl|done]. }
  cbn [negb]. destruct (vfree s) as [|p l] eqn:Efree.
  { right. split; [|done]. by rewrite (bind_ret _ _ _ _ _ (kalloc_empty s Efree)). }
  left. destruct (new_page s pgdir p d l Hf Hp Efree) as (Hv & Hfr & Hne & _). destruct (vpage_range p Hv) as [_ Hpos].
  destruct (entry_of p 7 Hv ltac:(lia)) as (Elor & _).
  exists p, (new_tab s pgdir d (PDX va) p l), [p]. split.
  - rewrite (bind_ret _ _ _ _ _ (vkalloc_ok s p l Efree)). replace (p =? 0) with false by (unfold KERNBASE in *; lia).
    unfold zero_page. change (Z.to_nat PGSIZE) with 4096%nat. set (s1 := with_page _ _ _).
    assert (E1 : set_page p (replicate 4096 0) s1 = Ret tt (with_page (s <| vfree := l |>) p (replicate 4096 0))).
    { rewrite (set_page_ok s1 p (junk p)) by (unfold s1; by rewrite with_page_lookup, decide_True). f_equal. apply with_page_twice. }
    rewrite (bind_ret _ _ _ _ _ E1). rewrite <- !Z.lor_assoc. change (Z.lor PTE_P (Z.lor PTE_W PTE_U)) with 7. rewrite Elor.
    erewrite bind_ret; [|apply (stw_ok _ pgdir d); [rewrite with_page_lookup, decide_False by congruence; done|done|done]]. done.
  - split; [by apply new_tab_evolves|]. split; [by erewrite new_tab_tab, Z.eqb_refl by done|]. intros k Hk. by apply new_tab_ent.
Qed.

(** ** mappages *)

Lemma lor_perm pa perm : pa mod 4096 = 0 -> 0 <= pa -> 0 <= perm < 4096 -> Z.lor (Z.lor pa perm) PTE_P = pa + Z.lor perm 1 /\ 0 <= Z.lor perm 1 < 4096 /\ present (pa + Z.lor perm 1) = true.
Proof.
  intros H1 H2 H3. assert (Hb : 0 <= Z.lor perm 1 < 4096).
  { split; [apply Z.lor_nonneg; lia|]. destruct (Z.eq_dec perm 0) as [->|]; [done|]. apply Z.log2_lt_pow2 with (b := 12); [|rewrite Z.log2_lor by lia; apply Z.max_lub_lt; [apply Z.log2_lt_pow2; lia|done]].
    destruct (Z.eq_dec (Z.lor perm 1) 0) as [E|]; [apply Z.lor_eq_0_iff in E as [_ ?]; done|]. assert (0 <= Z.lor perm 1) by (apply Z.lor_nonneg; lia). lia. }
  split; [|split; [done|]].
  - rewrite <- Z.lor_assoc. apply (lor_low _ _ 12); [lia|done|done].
  - unfold present. rewrite Z.odd_add. replace (Z.odd pa) with false.
    + rewrite <- Z.bit0_odd, Z.lor_spec. cbn. by rewrite orb_true_r.
    + symmetry. rewrite <- Z.negb_even. apply negb_false_iff, Z.even_spec. exists (pa / 4096 * 2048). zlia.
Qed.

(** What [mappages] leaves in the entries: page [j] of the range that starts at page
    [k] is mapped to [pa + (j - k) * 4096]. *)
Definition mapped (k n pa perm : Z) (old : Z -> Z) (j : Z) : Z :=
  if (k <=? j) && (j <? k + n) then pa + (j - k) * 4096 + Z.lor perm 1 else old j.

Lemma mapped_first k n pa perm old v j : 0 <= n -> v = pa + Z.lor perm 1 ->
  mapped (k + 1) n (pa + 4096) perm (fun j => if j =? k then v else old j) j = mapped k (n + 1) pa perm old j.
Proof.
  intros Hn ->. unfold mapped. destruct (Z.leb_spec (k + 1) j), (Z.leb_spec k j), (Z.ltb_spec j (k + 1 + n)), (Z.ltb_spec j (k + (n + 1))); cbn; try lia;
  destruct (Z.eqb_spec j k) as [->|]; lia.
Qed.

Lemma mapped_out k n pa perm old j : ~ (k <= j < k + n) -> mapped k n pa perm old j = old j.
Proof. intros H. unfold mapped. by replace ((k <=? j) && (j <? k + n)) with false by lia. Qed.

Lemma mapped_in k n pa perm old j : k <= j < k + n -> mapped k n pa perm old j = pa + (j - k) * 4096 + Z.lor perm 1.
Proof. intros H. unfold mapped. by replace ((k <=? j) && (j <? k + n)) with true by lia. Qed.

Lemma mapped_ext k n pa perm f g j : f j = g j -> mapped k n pa perm f j = mapped k n pa perm g j.
Proof. intros H. unfold mapped. by destruct (_ && _). Qed.

Lemma mappages_loop_ok n fuel s pgdir k pa perm : dir_ok s pgdir -> free_ok s ->
  (n < fuel)%nat -> 0 <= k -> k + Z.of_nat n < 2 ^ 20 -> pa mod 4096 = 0 -> 0 <= pa -> pa + Z.of_nat n * 4096 < 2 ^ 32 -> 0 <= perm < 4096 ->
  (forall j, k <= j <= k + Z.of_nat n -> present (ent s pgdir j) = false) ->
  exists r m s' new, mappages_loop junk fuel pgdir (k * 4096) ((k + Z.of_nat n) * 4096) pa perm s = Ret r s' /\ evolves s pgdir s' new /\
    0 <= m <= Z.of_nat n + 1 /\ (forall j, 0 <= j < 2 ^ 20 -> ent s' pgdir j = mapped k m pa perm (ent s pgdir) j) /\
    (r = 0 /\ m = Z.of_nat n + 1 \/ r = -1 /\ m <= Z.of_nat n /\ vfree s' = []).
Proof using Hkend.
  revert fuel s k pa. induction n as [|n IH]; intros [|fuel] s k pa Hd Hf Hfu Hk Hkn Hpa Hpa0 Hpan Hperm Hfresh; try lia; cbn [mappages_loop].
  all: destruct (vpn_index k ltac:(lia)) as [EX ET]; destruct (walk_alloc s pgdir (k * 4096) Hd Hf) as [(t & s1 & new & Hw & Hev & Ht & Hent)|[Hw Hnil]];
    [rewrite (bind_ret _ _ _ _ _ Hw)|exists (-1), 0, s, []; rewrite (bind_ret _ _ _ _ _ Hw); split; [done|]; split; [by apply evolves_refl|]; split; [lia|];
      split; [|right; split; [done|split; [lia|done]]]; intros j Hj; unfold mapped; replace ((k <=? j) && (j <? k + 0)) with false by lia; done].
  all: rewrite EX in Ht; rewrite ET; destruct (ent_word s1 pgdir k t (ev_dir _ _ _ _ Hev) ltac:(lia) Ht) as (dd & Hdd & Hldd & Hee & Hvt & Hnt & Hldw);
    destruct (vpage_range t Hvt) as [_ Hpos]; replace (t + 4 * (k mod 1024) =? 0) with false by (unfold KERNBASE in *; zlia);
    rewrite (bind_ret _ _ _ _ _ Hldw), land_P, negb_involutive, Hent, Hfresh by lia;
    destruct (lor_perm pa perm Hpa Hpa0 Hperm) as (-> & Hpl & Hpr);
    destruct (set_ent s1 pgdir k t (pa + Z.lor perm 1) (ev_dir _ _ _ _ Hev) (ev_free _ _ _ _ Hev) ltac:(lia)) as (s2 & Hst & Hev2 & Htab2 & Hent2); [unfold is_u32; zlia|done|];
    rewrite (bind_ret _ _ _ _ _ Hst).
  - change (Z.of_nat 0) with 0. rewrite Z.add_0_r, Z.eqb_refl. exists 0, 1, s2, (new ++ []). split; [done|]. split; [by eapply evolves_trans|]. split; [lia|].
    split; [|left; lia]. intros j Hj. rewrite Hent2, Hent by done. rewrite <- (mapped_first k 0 pa perm _ (pa + Z.lor perm 1)) by (done || lia).
    unfold mapped. by replace ((k + 1 <=? j) && (j <? k + 1 + 0)) with false by lia.
  - rewrite (proj2 (Z.eqb_neq (k * 4096) _)) by lia. rewrite !u32_small by (unfold PGSIZE; lia). unfold PGSIZE.
    replace (k * 4096 + 4096) with ((k + 1) * 4096) by lia. replace (k + Z.of_nat (S n)) with (k + 1 + Z.of_nat n) by lia.
    destruct (IH fuel s2 (k + 1) (pa + 4096) (ev_dir _ _ _ _ Hev2) (ev_free _ _ _ _ Hev2)) as (r & m & s3 & new3 & Hr & Hev3 & Hm & Hent3 & Hres); try lia; [zlia| |].
    { intros j Hj. rewrite Hent2, Hent by lia. replace (j =? k) with false by lia. apply Hfresh. lia. }
    exists r, (m + 1), s3, ((new ++ []) ++ new3). split; [done|]. split; [by eapply evolves_trans; [eapply evolves_trans|]|]. split; [lia|].
    split; [|destruct Hres as [[-> ->]|(-> & ? & ?)]; [left; lia|right; split; [done|split; [lia|done]]]]. intros j Hj. rewrite Hent3 by done.
    rewrite <- (mapped_first k m pa perm _ (pa + Z.lor perm 1)) by (done || lia). apply mapped_ext. rewrite Hent2, Hent by done. done.
Qed.

Lemma mappages_ok s pgdir k n pa perm : dir_ok s pgdir -> free_ok s ->
  1 <= n -> 0 <= k -> k + n <= 2 ^ 20 -> pa mod 4096 = 0 -> 0 <= pa -> pa + n * 4096 <= 2 ^ 32 -> 0 <= perm < 4096 ->
  (forall j, k <= j < k + n -> present (ent s pgdir j) = false) ->
  exists r m s' new, mappages junk pgdir (k * 4096) (n * 4096) pa perm s = Ret r s' /\ evolves s pgdir s' new /\
    0 <= m <= n /\ (forall j, 0 <= j < 2 ^ 20 -> ent s' pgdir j = mapped k m pa perm (ent s pgdir) j) /\
    (r = 0 /\ m = n \/ r = -1 /\ m < n /\ vfree s' = []).
Proof using Hkend.
  intros Hd Hf Hn Hk Hkn Hpa Hpa0 Hpan Hperm Hfresh. unfold mappages. cbv zeta. rewrite !PGROUNDDOWN_eq, u32_small by lia.
  replace (k * 4096 - (k * 4096) mod 4096) with (k * 4096) by zlia.
  replace (k * 4096 + n * 4096 - 1 - (k * 4096 + n * 4096 - 1) mod 4096) with ((k + Z.of_nat (Z.to_nat (n - 1))) * 4096) by zlia.
  destruct (mappages_loop_ok (Z.to_nat (n - 1)) (Z.to_nat (2 ^ 20 + 1)) s pgdir k pa perm) as (r & m & s' & new & H1 & H2 & H3 & H4 & H5); try done; try lia.
  { intros j Hj. apply Hfresh. lia. }
  exists r, m, s', new. split; [done|]. split; [done|]. split; [lia|]. split; [done|]. destruct H5 as [[-> ->]|(-> & ? & ?)]; [left; lia|right; split; [done|split; [lia|done]]].
Qed.

(** ** Address spaces *)

Definition upage (s : vm) (pgdir k : Z) : Z := P2V (PTE_ADDR (ent s pgdir k)).

(** The pages of the user part of an address space are its own. *)
Record space_ok (s : vm) (pgdir : Z) : Prop := {
  sp_dir : dir_ok s pgdir;
  sp_page : forall k, 0 <= k < 2 ^ 19 -> present (ent s pgdir k) = true ->
    vpage (upage s pgdir k) /\ PTE_ADDR (ent s pgdir k) = V2P (upage s pgdir k) /\ upage s pgdir k <> pgdir /\ (forall i, 0 <= i < 1024 -> tab s pgdir i <> Some (upage s pgdir k)) /\
    exists d, vpages s !! upage s pgdir k = Some d /\ length d = 4096%nat;
  sp_inj : forall j k, 0 <= j < 2 ^ 19 -> 0 <= k < 2 ^ 19 -> present (ent s pgdir j) = true -> present (ent s pgdir k) = true ->
    upage s pgdir j = upage s pgdir k -> j = k
}.

Lemma vkfree_ok s p d : vpage p -> vpages s !! p = Some d -> Vm.kfree kend p s = Ret tt (s <| vpages ::= delete p |> <| vfree ::= cons p |>).
Proof using Hkend.
  intros Hv Hp. destruct Hv as (H1 & H2 & H3 & H4). unfold Vm.kfree. replace (p mod PGSIZE =? 0) with true by lia. replace (p <? kend) with false by lia.
  replace (V2P p >=? PHYSTOP) with false by lia. cbn [negb orb]. msimp. by rewrite Hp.
Qed.

Lemma kfree_free s p d : free_ok s -> vpage p -> vpages s !! p = Some d -> free_ok (s <| vpages ::= delete p |> <| vfree ::= cons p |>).
Proof.
  intros Hf Hv Hp. split; cbn.
  - apply NoDup_cons. split; [by eapply alloc_not_free|apply Hf].
  - intros q Hq. apply elem_of_cons in Hq as [-> |Hq]; [split; [done|apply lookup_delete_eq]|].
    destruct (fr_page _ Hf q Hq). split; [done|]. rewrite lookup_delete_ne; [done|congruence].
Qed.

(** A page directory depends on its own page and on the pages of its page tables. *)
Lemma dir_agree s s' pgdir : dir_ok s pgdir -> vpages s' !! pgdir = vpages s !! pgdir ->
  (forall i t, 0 <= i < 1024 -> tab s pgdir i = Some t -> vpages s' !! t = vpages s !! t) ->
  dir_ok s' pgdir /\ (forall i, tab s' pgdir i = tab s pgdir i) /\ (forall k, 0 <= k < 2 ^ 20 -> ent s' pgdir k = ent s pgdir k).
Proof using.
  intros Hd Hp Ht. assert (Htab : forall i, tab s' pgdir i = tab s pgdir i) by (intros i; unfold tab; by rewrite Hp). split_and!; [|done|].
  - split; [apply Hd|rewrite Hp; apply Hd| |].
    + intros i t Hi. rewrite Htab. intros E. rewrite (Ht i t Hi E). by apply (dk_tab _ _ Hd i).
    + intros i j t Hi Hj. rewrite !Htab. by apply (dk_inj _ _ Hd).
  - intros k Hk. unfold ent. rewrite Htab. destruct (tab s pgdir (k / 1024)) as [t|] eqn:E; [|done]. by rewrite (Ht (k / 1024) t ltac:(zlia) E).
Qed.

(** [dropped s pgdir s' l]: the pages [l] were unmapped and freed. *)
Record dropped (s : vm) (pgdir : Z) (s' : vm) (l : list Z) : Prop := {
  dr_space : space_ok s' pgdir;
  dr_free : free_ok s';
  dr_tab : forall i, tab s' pgdir i = tab s pgdir i;
  dr_list : vfree s' = l ++ vfree s;
  dr_frame : forall q, q <> pgdir -> (forall i, 0 <= i < 1024 -> tab s pgdir i <> Some q) -> vpages s' !! q = if decide (q ∈ l) then None else vpages s !! q;
  dr_misc : vlog s' = vlog s /\ cr3 s' = cr3 s
}.

Lemma dropped_refl s pgdir : space_ok s pgdir -> free_ok s -> dropped s pgdir s [].
Proof using. intros Hs Hf. split; try done. Qed.

Lemma dropped_trans s pgdir s1 s2 l1 l2 : dropped s pgdir s1 l1 -> dropped s1 pgdir s2 l2 -> dropped s pgdir s2 (l2 ++ l1).
Proof using.
  intros [A1 A2 A3 A4 A5 [A6 A7]] [B1 B2 B3 B4 B5 [B6 B7]]. split; [done|done| | | |split; congruence].
  - intros i. by rewrite B3.
  - by rewrite B4, A4, app_assoc.
  - intros q Hqd Hq. rewrite B5, A5 by (done || intros i; rewrite ?A3; apply Hq). destruct (decide (q ∈ l2)); [by rewrite decide_True by (apply elem_of_app; by left)|].
    destruct (decide (q ∈ l1)); [by rewrite decide_True by (apply elem_of_app; by right)|]. by rewrite decide_False by (rewrite elem_of_app; tauto).
Qed.

(** Unmapping and freeing one page. *)
Lemma drop_page s pgdir k t : space_ok s pgdir -> free_ok s -> 0 <= k < 2 ^ 19 -> present (ent s pgdir k) = true -> tab s pgdir (k / 1024) = Some t ->
  exists s', (Vm.kfree kend (upage s pgdir k);; stw (t + 4 * (k mod 1024)) 0) s = Ret tt s' /\ dropped s pgdir s' [upage s pgdir k] /\
    forall j, 0 <= j < 2 ^ 20 -> ent s' pgdir j = if j =? k then 0 else ent s pgdir j.
Proof using Hkend.
  intros Hs Hf Hk Hpr Ht. destruct (sp_page _ _ Hs k Hk Hpr) as (Hv & Ha & Hnd & Hnt & d & Hp & Hl). set (p := upage s pgdir k) in *.
  rewrite (bind_ret _ _ _ _ _ (vkfree_ok s p d Hv Hp)). set (s1 := s <| vpages ::= delete p |> <| vfree ::= cons p |>).
  assert (Hs1 : forall q, vpages s1 !! q = if decide (q = p) then None else vpages s !! q).
  { intros q. cbn. case_decide as E; [subst q; apply lookup_delete_eq|by rewrite lookup_delete_ne]. }
  destruct (dir_agree s s1 pgdir (sp_dir _ _ Hs)) as (Hd1 & Ht1 & He1).
  { by rewrite Hs1, decide_False. }
  { intros i t' Hi E. rewrite Hs1, decide_False; [done|]. intros ->. by apply (Hnt i). }
  destruct (set_ent s1 pgdir k t 0 Hd1 (kfree_free s p d Hf Hv Hp)) as (s2 & Hst & Hev & Ht2 & He2); [lia|unfold is_u32; lia|by rewrite Ht1|].
  exists s2. split; [done|]. 
  assert (He : forall j, 0 <= j < 2 ^ 20 -> ent s2 pgdir j = if j =? k then 0 else ent s pgdir j) by (intros j Hj; by rewrite He2, He1).
  assert (Hfr : forall q, (forall i, 0 <= i < 1024 -> tab s pgdir i <> Some q) -> q <> pgdir -> vpages s2 !! q = if decide (q = p) then None else vpages s !! q).
  { intros q Hq Hqd. rewrite <- Hs1. apply (ev_frame _ _ _ _ Hev); [done|apply not_elem_of_nil|]. intros i Hi. rewrite Ht1. by apply Hq. }
  assert (Hu : forall j, 0 <= j < 2 ^ 19 -> present (ent s2 pgdir j) = true -> j <> k /\ ent s2 pgdir j = ent s pgdir j).
  { intros j Hj. rewrite He by lia. destruct (Z.eqb_spec j k); [done|]. done. }
  assert (Htt : forall i, tab s2 pgdir i = tab s pgdir i) by (intros i; by rewrite Ht2, Ht1).
  split; [|done]. split; [|apply Hev|done| | |].
  - split; [apply Hev| |].
    + intros j Hj Hprj. destruct (Hu j Hj Hprj) as [Hjk Ej]. unfold upage. rewrite Ej in *. change (P2V (PTE_ADDR (ent s pgdir j))) with (upage s pgdir j).
      destruct (sp_page _ _ Hs j Hj Hprj) as (Q1 & Q2 & Q3 & Q4 & Q5). split_and!; [done|done|done|by intros i Hi; rewrite Htt; apply Q4|].
      rewrite Hfr, decide_False by (done || intros E; apply Hjk; by eapply sp_inj). done.
    + intros j j' Hj Hj' H1 H2. destruct (Hu j Hj H1) as [_ E1], (Hu j' Hj' H2) as [_ E2]. unfold upage. rewrite E1, E2 in *. by apply (sp_inj _ _ Hs).
  - symmetry. exact (ev_list _ _ _ _ Hev).
  - intros q Hqd Hq. rewrite Hfr by done. destruct (decide (q = p)) as [->|]; [by rewrite decide_True by apply list_elem_of_here|]. by rewrite decide_False by (by rewrite list_elem_of_singleton).
  - apply (ev_misc _ _ _ _ Hev).
Qed.

(** ** deallocuvm and freevm *)

Definition unmapped (k N : Z) (old : Z -> Z) (j : Z) : Z := if (k <=? j) && (j <? N) && present (old j) then 0 else old j.

(** The pages of the entries from [k] to [N]. *)
Definition upages (s : vm) (pgdir k N q : Z) : Prop := exists j, k <= j < N /\ present (ent s pgdir j) = true /\ upage s pgdir j = q.

Definition dealloc_ok (s : vm) (pgdir k N : Z) (s' : vm) : Prop :=
  exists l, dropped s pgdir s' l /\ (forall j, 0 <= j < 2 ^ 20 -> ent s' pgdir j = unmapped k N (ent s pgdir) j) /\ forall q, q ∈ l <-> upages s pgdir k N q.

Lemma dealloc_none s pgdir k N : space_ok s pgdir -> free_ok s -> (forall j, k <= j < N -> present (ent s pgdir j) = false) -> dealloc_ok s pgdir k N s.
Proof using.
  intros Hs Hf Hn. exists []. split; [by apply dropped_refl|]. split.
  - intros j Hj. unfold unmapped. destruct (Z.leb_spec k j), (Z.ltb_spec j N); cbn; try done. by rewrite Hn by lia.
  - intros q. split; [intros Hq; by apply elem_of_nil in Hq|]. intros (j & Hj & Hp & _). by rewrite Hn in Hp.
Qed.

(** Entries that are not present make no difference. *)
Lemma dealloc_skip s pgdir k k' N s' : k <= k' -> (forall j, k <= j < k' -> j < N -> present (ent s pgdir j) = false) -> dealloc_ok s pgdir k' N s' -> dealloc_ok s pgdir k N s'.
Proof using.
  intros Hk Hn (l & Hd & He & Hl). exists l. split; [done|]. split.
  - intros j Hj. rewrite He by done. unfold unmapped. destruct (Z.leb_spec k' j), (Z.leb_spec k j), (Z.ltb_spec j N); cbn; try lia; by rewrite Hn by lia.
  - intros q. rewrite Hl. split; intros (j & Hj & Hp & Hq); exists j; [split; [lia|done]|]. destruct (Z.lt_ge_cases j k'); [|split; [lia|done]]. by rewrite Hn in Hp by lia.
Qed.

Lemma dealloc_step s pgdir k N s1 s2 : 0 <= k < N -> N <= 2 ^ 20 -> present (ent s pgdir k) = true -> dropped s pgdir s1 [upage s pgdir k] ->
  (forall j, 0 <= j < 2 ^ 20 -> ent s1 pgdir j = if j =? k then 0 else ent s pgdir j) -> dealloc_ok s1 pgdir (k + 1) N s2 -> dealloc_ok s pgdir k N s2.
Proof using.
  intros Hk HN Hp Hd He (l & Hd2 & He2 & Hl). exists (l ++ [upage s pgdir k]). split; [by eapply dropped_trans|]. split.
  - intros j Hj. rewrite He2 by done. unfold unmapped. rewrite He by done. destruct (Z.eqb_spec j k) as [->|].
    + replace (k + 1 <=? k) with false by lia. replace (k <=? k) with true by lia. replace (k <? N) with true by lia. cbn. by rewrite Hp.
    + replace (k + 1 <=? j) with (k <=? j) by lia. done.
  - intros q. rewrite elem_of_app, list_elem_of_singleton, Hl. split.
    + intros [(j & Hj & Hpj & Hq)| ->]; [|exists k; split; [lia|done]]. unfold upage in Hq. rewrite He in Hpj, Hq by lia. replace (j =? k) with false in * by lia. exists j. split; [lia|done].
    + intros (j & Hj & Hpj & Hq). destruct (Z.eq_dec j k) as [->|]; [by right|]. left. exists j. unfold upage. rewrite He by lia. replace (j =? k) with false by lia.
      split; [lia|done].
Qed.

Lemma dealloc_loop_ok fuel s pgdir k oldsz N : space_ok s pgdir -> free_ok s -> 0 <= k -> 0 <= oldsz <= KERNBASE -> N = (oldsz + 4095) / 4096 -> k <= 2 ^ 19 -> N - k <= Z.of_nat fuel ->
  exists s', deallocuvm_loop kend junk fuel pgdir (k * 4096) oldsz s = Ret tt s' /\ dealloc_ok s pgdir k N s'.
Proof using Hkend.
  revert s k. induction fuel as [|fuel IH]; intros s k Hs Hf Hk Hsz HN Hk2 Hfu; cbn [deallocuvm_loop]; destruct (Z.ltb_spec (k * 4096) oldsz) as [Hlt|Hge].
  1: exfalso; zlia.
  1, 3: exists s; split; [done|]; apply dealloc_none; [done|done|]; intros j Hj; exfalso; zlia.
  assert (HkN : k < N) by zlia. unfold KERNBASE in Hsz. destruct (vpn_index k ltac:(lia)) as [EX ET].
  rewrite (bind_ret _ _ _ _ _ (walk_ok s pgdir (k * 4096) (sp_dir _ _ Hs))), EX, ET. destruct (tab s pgdir (k / 1024)) as [t|] eqn:Et.
  - destruct (ent_word s pgdir k t (sp_dir _ _ Hs) ltac:(lia) Et) as (dd & Hdd & Hldd & Hee & Hvt & Hnt & Hldw). destruct (vpage_range t Hvt) as [_ Hpos].
    replace (t + 4 * (k mod 1024) =? 0) with false by (unfold KERNBASE in *; zlia). rewrite (bind_ret _ _ _ _ _ Hldw), land_P, negb_involutive.
    rewrite u32_small by (unfold PGSIZE; lia). unfold PGSIZE. replace (k * 4096 + 4096) with ((k + 1) * 4096) by lia.
    destruct (present (ent s pgdir k)) eqn:Hpr.
    + destruct (sp_page _ _ Hs k ltac:(lia) Hpr) as (Hv & Ha & _). destruct (vpage_V2P _ Hv) as (_ & Hvp & _). cbv zeta. replace (PTE_ADDR (ent s pgdir k) =? 0) with false by lia.
      change (P2V (PTE_ADDR (ent s pgdir k))) with (upage s pgdir k).
      destruct (drop_page s pgdir k t Hs Hf ltac:(lia) Hpr Et) as (s1 & E1 & Hd1 & He1). rewrite (bind_ret _ _ _ _ _ E1).
      destruct (IH s1 (k + 1)) as (s2 & E2 & H2); [apply Hd1|apply Hd1|lia|unfold KERNBASE; lia|done|lia|lia|]. exists s2. split; [done|]. eapply dealloc_step; try done; zlia.
    + msimp. destruct (IH s (k + 1)) as (s2 & E2 & H2); [done|done|lia|unfold KERNBASE; lia|done|lia|lia|]. exists s2. split; [done|].
      apply (dealloc_skip s pgdir k (k + 1)); [lia| |done]. intros j Hj _. by replace j with k by lia.
  - cbn [Z.eqb]. rewrite PGADDR_eq by zlia. unfold PGSIZE. rewrite (u32_small (_ - 4096)), u32_small by zlia.
    replace (_ - 4096 + 4096) with ((k / 1024 + 1) * 1024 * 4096) by zlia.
    destruct (IH s ((k / 1024 + 1) * 1024)) as (s2 & E2 & H2); [done|done|zlia|unfold KERNBASE; lia|done|zlia|zlia|]. exists s2. split; [done|].
    apply (dealloc_skip s pgdir k ((k / 1024 + 1) * 1024)); [zlia| |done]. intros j Hj _. unfold ent. replace (j / 1024) with (k / 1024) by zlia. by rewrite Et.
Qed.

Lemma deallocuvm_ok s pgdir oldsz newsz : space_ok s pgdir -> free_ok s -> 0 <= newsz -> 0 <= oldsz <= KERNBASE -> newsz < oldsz ->
  exists s', deallocuvm kend junk pgdir oldsz newsz s = Ret newsz s' /\ dealloc_ok s pgdir ((newsz + 4095) / 4096) ((oldsz + 4095) / 4096) s'.
Proof using Hkend.
  intros Hs Hf Hn Ho Hlt. unfold deallocuvm. replace (newsz >=? oldsz) with false by lia. unfold KERNBASE in *.
  rewrite PGROUNDUP_eq by (unfold PGSIZE; lia). unfold PGSIZE. replace (newsz + 4096 - 1) with (newsz + 4095) by lia.
  destruct (dealloc_loop_ok (Z.to_nat (2 ^ 20)) s pgdir ((newsz + 4095) / 4096) oldsz ((oldsz + 4095) / 4096)) as (s' & E & H); [done|done|zlia|unfold KERNBASE; lia|done|zlia|zlia|].
  exists s'. rewrite (bind_ret _ _ _ _ _ E). rewrite s32_small by lia. done.
Qed.

(** [freed s s' l]: the pages [l] were freed, and nothing else changed. *)
Record freed (s s' : vm) (l : list Z) : Prop := {
  fd_free : free_ok s';
  fd_list : vfree s' = l ++ vfree s;
  fd_frame : forall q, vpages s' !! q = if decide (q ∈ l) then None else vpages s !! q;
  fd_misc : vlog s' = vlog s /\ cr3 s' = cr3 s
}.

Lemma freed_refl s : free_ok s -> freed s s [].
Proof using. intros Hf. by split. Qed.

Lemma freed_trans s s1 s2 l1 l2 : freed s s1 l1 -> freed s1 s2 l2 -> freed s s2 (l2 ++ l1).
Proof using.
  intros [A1 A2 A3 [A4 A5]] [B1 B2 B3 [B4 B5]]. split; [done| | |split; congruence].
  - by rewrite B2, A2, app_assoc.
  - intros q. rewrite B3, A3. destruct (decide (q ∈ l2)); [by rewrite decide_True by (apply elem_of_app; by left)|].
    destruct (decide (q ∈ l1)); [by rewrite decide_True by (apply elem_of_app; by right)|]. by rewrite decide_False by (rewrite elem_of_app; tauto).
Qed.

Lemma kfree_freed s p d : free_ok s -> vpage p -> vpages s !! p = Some d -> exists s', Vm.kfree kend p s = Ret tt s' /\ freed s s' [p].
Proof using Hkend.
  intros Hf Hv Hp. eexists. split; [by eapply vkfree_ok|]. split; [by eapply kfree_free|done| |done].
  intros q. cbn. destruct (decide (q = p)) as [->|].
  - rewrite decide_True by apply list_elem_of_here. apply lookup_delete_eq.
  - rewrite decide_False by (by rewrite list_elem_of_singleton). by apply lookup_delete_ne.
Qed.

(** The loop of [freevm] over the page directory. *)
Definition free_tab (pgdir i : Z) : M vm unit := e ← ldw (pgdir + 4 * i); if negb (Z.land e PTE_P =? 0) then Vm.kfree kend (P2V (PTE_ADDR e)) else mret tt.

Lemma free_tabs n s pgdir d i : vpages s !! pgdir = Some d -> length d = 4096%nat -> vpage pgdir -> free_ok s -> 0 <= i -> i + Z.of_nat n = 1024 ->
  (forall j t, i <= j < 1024 -> tab s pgdir j = Some t -> vpage t /\ t <> pgdir /\ exists d, vpages s !! t = Some d) ->
  (forall j k t, i <= j < 1024 -> i <= k < 1024 -> tab s pgdir j = Some t -> tab s pgdir k = Some t -> j = k) ->
  exists s' l, for_each (seqZ i (Z.of_nat n)) (free_tab pgdir) s = Ret tt s' /\ freed s s' l /\ forall q, q ∈ l <-> exists j, i <= j < 1024 /\ tab s pgdir j = Some q.
Proof using Hkend.
  revert s i. induction n as [|n IH]; intros s i Hp Hl Hv Hf Hi Hin Ht Hinj.
  { exists s, []. split; [done|]. split; [by apply freed_refl|]. intros q. rewrite elem_of_nil. split; [done|]. intros (j & ? & _). lia. }
  rewrite seqZ_cons by lia. replace (Z.pred (Z.of_nat (S n))) with (Z.of_nat n) by lia. cbn [for_each].
  destruct (vpage_range pgdir Hv) as [Ha _].
  assert (Etab : tab s pgdir i = if present (entw d i) then Some (P2V (PTE_ADDR (entw d i))) else None) by (unfold tab; by rewrite Hp).
  assert (Hnext : exists s1 l1, free_tab pgdir i s = Ret tt s1 /\ freed s s1 l1 /\ forall q, q ∈ l1 <-> tab s pgdir i = Some q).
  { unfold free_tab. rewrite (bind_ret _ _ _ _ _ (ldw_ok s pgdir d i Hp Hl Ha ltac:(lia))), land_P, negb_involutive. destruct (present (entw d i)).
    - destruct (Ht i _ ltac:(lia) Etab) as (H1 & _ & d1 & H3). destruct (kfree_freed s _ d1 Hf H1 H3) as (s1 & E1 & Hd1). exists s1, [P2V (PTE_ADDR (entw d i))].
      split; [done|]. split; [done|]. intros q. rewrite list_elem_of_singleton, Etab. split; [by intros ->|by intros [= ->]].
    - exists s, []. split; [done|]. split; [by apply freed_refl|]. intros q. rewrite elem_of_nil, Etab. done. }
  destruct Hnext as (s1 & l1 & E1 & Hd1 & Hl1). rewrite (bind_ret _ _ _ _ _ E1).
  assert (Hp1 : vpages s1 !! pgdir = Some d).
  { rewrite (fd_frame _ _ _ Hd1), decide_False; [done|]. rewrite Hl1. intros E. by destruct (Ht i pgdir ltac:(lia) E) as (_ & ? & _). }
  assert (Htab : forall j, tab s1 pgdir j = tab s pgdir j) by (intros j; unfold tab; by rewrite Hp1, Hp).
  destruct (IH s1 (Z.succ i)) as (s2 & l2 & E2 & Hd2 & Hl2); [done|done|done|apply Hd1|lia|lia| | |].
  - intros j t Hj. rewrite Htab. intros Hjt. destruct (Ht j t ltac:(lia) Hjt) as (H1 & H2 & d2 & H3). split_and!; [done|done|]. exists d2.
    rewrite (fd_frame _ _ _ Hd1), decide_False; [done|]. rewrite Hl1. intros E. pose proof (Hinj i j t ltac:(lia) ltac:(lia) E Hjt). lia.
  - intros j k t Hj Hk. rewrite !Htab. apply Hinj; lia.
  - exists s2, (l2 ++ l1). split; [done|]. split; [by eapply freed_trans|]. intros q. rewrite elem_of_app, Hl1, Hl2. split.
    + intros [(j & Hj & E)|E]; [exists j; rewrite <- Htab; split; [lia|done]|exists i; split; [lia|done]].
    + intros (j & Hj & E). destruct (Z.eq_dec j i) as [->|]; [by right|]. left. exists j. rewrite Htab. split; [lia|done].
Qed.

(** The pages of an address space. *)
Definition owned (s : vm) (pgdir q : Z) : Prop := q = pgdir \/ (exists i, 0 <= i < 1024 /\ tab s pgdir i = Some q) \/ upages s pgdir 0 (2 ^ 19) q.

(** [freevm] frees all pages of an address space, each once. *)
Lemma freevm_ok s pgdir : space_ok s pgdir -> free_ok s -> exists s' l, freevm kend junk pgdir s = Ret tt s' /\ freed s s' l /\ forall q, q ∈ l <-> owned s pgdir q.
Proof using Hkend.
  intros Hs Hf. pose proof (sp_dir _ _ Hs) as Hd. destruct (vpage_range _ (dk_page _ _ Hd)) as [_ Hpos]. unfold freevm. replace (pgdir =? 0) with false by (unfold KERNBASE in *; lia).
  destruct (deallocuvm_ok s pgdir KERNBASE 0 Hs Hf) as (s1 & E1 & l & Hdr & He & Hl); [lia|done|done|]. rewrite (bind_ret _ _ _ _ _ E1).
  change ((0 + 4095) / 4096) with 0 in *. change ((KERNBASE + 4095) / 4096) with (2 ^ 19) in *.
  pose proof (sp_dir _ _ (dr_space _ _ _ _ Hdr)) as Hd1. destruct (dk_data _ _ Hd1) as (d & Hp & Hld).
  destruct (free_tabs 1024 s1 pgdir d 0 Hp Hld (dk_page _ _ Hd1) (dr_free _ _ _ _ Hdr)) as (s2 & l2 & E2 & Hd2 & Hl2); [lia|done| | |].
  { intros j t Hj E. destruct (dk_tab _ _ Hd1 j t Hj E) as (H1 & H2 & d' & H3 & _). eauto. }
  { intros j k t. apply (dk_inj _ _ Hd1). }
  unfold NPDENTRIES. unfold free_tab in E2. change (Z.of_nat 1024) with 1024 in E2. rewrite (bind_ret _ _ _ _ _ E2).
  assert (Hp2 : vpages s2 !! pgdir = Some d).
  { rewrite (fd_frame _ _ _ Hd2), decide_False; [done|]. rewrite Hl2. intros (j & Hj & E). by destruct (dk_tab _ _ Hd1 j pgdir Hj E) as (_ & ? & _). }
  destruct (kfree_freed s2 pgdir d (fd_free _ _ _ Hd2) (dk_page _ _ Hd) Hp2) as (s3 & E3 & Hd3). exists s3, ([pgdir] ++ l2 ++ l). split; [done|].
  assert (Hown : forall q, q ∈ [pgdir] ++ l2 ++ l <-> owned s pgdir q).
  { intros q. rewrite !elem_of_app, list_elem_of_singleton, Hl2, Hl. unfold owned. by setoid_rewrite (dr_tab _ _ _ _ Hdr). }
  split; [|done]. pose proof (freed_trans _ _ _ _ _ Hd2 Hd3) as [F1 F2 F3 F4]. split; [done| | |].
  - by rewrite F2, (dr_list _ _ _ _ Hdr), <- !app_assoc.
  - intros q. rewrite F3. destruct (decide (q ∈ [pgdir] ++ l2)) as [Hq|Hq]; rewrite elem_of_app, list_elem_of_singleton in Hq.
    + rewrite decide_True; [done|]. rewrite !elem_of_app, list_elem_of_singleton. tauto.
    + rewrite (dr_frame _ _ _ _ Hdr); [|tauto|].
      * destruct (decide (q ∈ l)); [rewrite decide_True by (rewrite !elem_of_app; tauto); done|]. rewrite decide_False by (rewrite !elem_of_app, list_elem_of_singleton; tauto). done.
      * intros i Hi E. apply Hq. right. apply Hl2. exists i. by rewrite (dr_tab _ _ _ _ Hdr).
  - destruct F4, (dr_misc _ _ _ _ Hdr). split; congruence.
Qed.

(** ** Building an address space

    An address space depends on its own pages only. *)
Lemma owned_tab s pgdir i t : 0 <= i < 1024 -> tab s pgdir i = Some t -> owned s pgdir t.
Proof using. intros Hi H. right. left. eauto. Qed.

Lemma owned_user s pgdir k : 0 <= k < 2 ^ 19 -> present (ent s pgdir k) = true -> owned s pgdir (upage s pgdir k).
Proof using. intros Hk H. right. right. exists k. done. Qed.

Lemma owned_data s pgdir q : space_ok s pgdir -> owned s pgdir q -> vpage q /\ exists d, vpages s !! q = Some d /\ length d = 4096%nat.
Proof using.
  intros Hs [-> |[(i & Hi & H)|(k & Hk & Hp & <-)]].
  - split; [apply Hs|apply (sp_dir _ _ Hs)].
  - by destruct (dk_tab _ _ (sp_dir _ _ Hs) i q Hi H) as (? & _ & ?).
  - by destruct (sp_page _ _ Hs k ltac:(lia) Hp) as (? & _ & _ & _ & ?).
Qed.

Lemma space_agree s s' pgdir : space_ok s pgdir -> (forall q, owned s pgdir q -> vpages s' !! q = vpages s !! q) ->
  space_ok s' pgdir /\ (forall i, tab s' pgdir i = tab s pgdir i) /\ (forall k, 0 <= k < 2 ^ 20 -> ent s' pgdir k = ent s pgdir k) /\ (forall q, owned s' pgdir q <-> owned s pgdir q).
Proof using.
  intros Hs Ha. destruct (dir_agree s s' pgdir (sp_dir _ _ Hs)) as (Hd & Ht & He); [apply Ha; by left|intros i t Hi Hti; apply Ha; by eapply owned_tab|].
  assert (Hu : forall k, 0 <= k < 2 ^ 19 -> upage s' pgdir k = upage s pgdir k) by (intros k Hk; unfold upage; by rewrite He by lia).
  split_and!; [|done|done|].
  - split; [done| |].
    + intros k Hk. rewrite Hu, He by lia. intros Hp. destruct (sp_page _ _ Hs k Hk Hp) as (H1 & H2 & H3 & H4 & H5). rewrite Ha by (by apply owned_user).
      split_and!; try done. intros i Hi. rewrite Ht. by apply H4.
    + intros j k Hj Hk. rewrite !Hu, !He by lia. by apply (sp_inj _ _ Hs).
  - intros q. unfold owned, upages. setoid_rewrite Ht. split; (intros [H|[H|(k & Hk & Hp & Hq)]]; [by left|by right; left|right; right; exists k]).
    + rewrite He in Hp by lia. rewrite Hu in Hq by lia. done.
    + rewrite He, Hu by lia. done.
Qed.

(** [grown s pgdir s' pend]: in [s'] the free pages of [s] are those that still are
    free, those of the new address space [pgdir], and [pend]. *)
Record grown (s : vm) (pgdir : Z) (s' : vm) (pend : list Z) : Prop := {
  gr_space : space_ok s' pgdir;
  gr_free : free_ok s';
  gr_own : forall q, q ∈ vfree s <-> q ∈ vfree s' \/ owned s' pgdir q \/ q ∈ pend;
  gr_pend : forall q, q ∈ pend -> vpage q /\ ~ owned s' pgdir q /\ exists d, vpages s' !! q = Some d /\ length d = 4096%nat;
  gr_frame : forall q, q ∉ vfree s -> vpages s' !! q = vpages s !! q;
  gr_misc : vlog s' = vlog s /\ cr3 s' = cr3 s
}.

(** Nothing but the order of the free list changed. *)
Record restored (s s' : vm) : Prop := {
  rs_pages : vpages s' = vpages s;
  rs_free : vfree s' ≡ₚ vfree s;
  rs_misc : vlog s' = vlog s /\ cr3 s' = cr3 s
}.

Lemma restored_refl s : restored s s.
Proof using. by split. Qed.

Lemma grown_freevm s pgdir s1 : free_ok s -> grown s pgdir s1 [] -> exists s2, freevm kend junk pgdir s1 = Ret tt s2 /\ restored s s2.
Proof using Hkend.
  intros Hf [G1 G2 G3 G4 G5 [G6 G7]]. destruct (freevm_ok s1 pgdir G1 G2) as (s2 & l & E & [F1 F2 F3 [F4 F5]] & Hl). exists s2. split; [done|].
  assert (Hin : forall q, q ∈ vfree s2 <-> q ∈ vfree s).
  { intros q. rewrite F2, elem_of_app, Hl, G3, elem_of_nil. tauto. }
  split; [| |split; congruence].
  - apply map_eq. intros q. rewrite F3. destruct (decide (q ∈ l)) as [Hq|Hq].
    + symmetry. apply (fr_page _ Hf). apply G3. right. left. by apply Hl.
    + destruct (decide (q ∈ vfree s)) as [Hq'|Hq']; [|by apply G5]. rewrite (proj2 (fr_page _ Hf q Hq')). apply (fr_page _ G2). apply G3 in Hq' as [?|[Ho|Ho]]; [done| |by apply elem_of_nil in Ho].
      exfalso. by apply Hq, Hl.
  - apply NoDup_Permutation; [apply F1|apply Hf|done].
Qed.

Lemma grown_kalloc s pgdir s1 p l d : grown s pgdir s1 [] -> vfree s1 = p :: l -> length d = 4096%nat -> grown s pgdir (with_page (s1 <| vfree := l |>) p d) [p].
Proof using.
  intros [G1 G2 G3 G4 G5 [G6 G7]] Hl Hd. set (s2 := with_page _ _ _).
  assert (Hp : p ∈ vfree s1) by (rewrite Hl; apply list_elem_of_here). destruct (fr_page _ G2 p Hp) as [Hv Hn].
  assert (Hpo : ~ owned s1 pgdir p). { intros Ho. destruct (owned_data _ _ _ G1 Ho) as (_ & d' & H & _). congruence. }
  assert (Hs2 : forall q, vpages s2 !! q = if decide (q = p) then Some d else vpages s1 !! q) by (intros q; unfold s2; by rewrite with_page_lookup).
  destruct (space_agree s1 s2 pgdir G1) as (H1 & _ & _ & H4). { intros q Hq. rewrite Hs2, decide_False; [done|congruence]. }
  pose proof (fr_nodup _ G2) as Hnd. rewrite Hl in Hnd. apply NoDup_cons in Hnd as [Hpl Hnd]. split; [done| | | | |done].
  - split; [done|]. intros q Hq. destruct (fr_page _ G2 q) as [Q1 Q2]; [rewrite Hl; by apply list_elem_of_further|]. split; [done|]. rewrite Hs2, decide_False; [done|by intros ->].
  - intros q. rewrite G3, Hl, H4, elem_of_cons, list_elem_of_singleton, elem_of_nil. cbn. tauto.
  - intros q Hq. apply list_elem_of_singleton in Hq as ->. split; [done|]. rewrite H4. split; [done|]. exists d. by rewrite Hs2, decide_True.
  - intros q Hq. rewrite Hs2, decide_False; [by apply G5|]. intros ->. apply Hq, G3. by left.
Qed.

Lemma grown_kfree s pgdir s1 p : grown s pgdir s1 [p] -> exists s2, Vm.kfree kend p s1 = Ret tt s2 /\ grown s pgdir s2 [].
Proof using Hkend.
  intros [G1 G2 G3 G4 G5 [G6 G7]]. destruct (G4 p (list_elem_of_here _ _)) as (Hv & Ho & d & Hd & _).
  destruct (kfree_freed s1 p d G2 Hv Hd) as (s2 & E & [F1 F2 F3 [F4 F5]]). exists s2. split; [done|].
  assert (Hs2 : forall q, vpages s2 !! q = if decide (q = p) then None else vpages s1 !! q).
  { intros q. rewrite F3. destruct (decide (q = p)) as [->|]; [by rewrite decide_True by apply list_elem_of_here|]. by rewrite decide_False by (by rewrite list_elem_of_singleton). }
  destruct (space_agree s1 s2 pgdir G1) as (H1 & _ & _ & H4). { intros q Hq. rewrite Hs2, decide_False; [done|congruence]. }
  split; [done|done| | | |split; congruence].
  - intros q. rewrite G3, F2, elem_of_app, H4, !list_elem_of_singleton, elem_of_nil. tauto.
  - intros q Hq. by apply elem_of_nil in Hq.
  - intros q Hq. rewrite Hs2, decide_False; [by apply G5|]. intros ->. apply Hq, G3. right. right. apply list_elem_of_here.
Qed.

(** A page that is not part of the page directory is kept. *)
Lemma evolves_keeps s pgdir s' new q d : free_ok s -> evolves s pgdir s' new -> vpages s !! q = Some d -> q <> pgdir -> (forall i, 0 <= i < 1024 -> tab s pgdir i <> Some q) ->
  vpages s' !! q = Some d /\ forall i, 0 <= i < 1024 -> tab s' pgdir i <> Some q.
Proof using.
  intros Hf Hev Hq Hd Ht. assert (Hn : q ∉ new). { intros Hn. apply (alloc_not_free s q d Hf Hq). rewrite (ev_list _ _ _ _ Hev). apply elem_of_app. by left. }
  split; [by rewrite (ev_frame _ _ _ _ Hev)|]. intros i Hi E. destruct (ev_new _ _ _ _ Hev i q Hi E); [by apply (Ht i)|done].
Qed.

(** The page directory changed, and at most the pages [pend] were mapped. *)
Lemma grown_evolves s pgdir s1 s2 new pend pend' :
  grown s pgdir s1 pend -> evolves s1 pgdir s2 new ->
  (forall k, 0 <= k < 2 ^ 19 -> present (ent s1 pgdir k) = true -> ent s2 pgdir k = ent s1 pgdir k) ->
  (forall k, 0 <= k < 2 ^ 19 -> present (ent s2 pgdir k) = true ->
     ent s2 pgdir k = ent s1 pgdir k \/ upage s2 pgdir k ∈ pend /\ PTE_ADDR (ent s2 pgdir k) = V2P (upage s2 pgdir k) /\ 
       (forall j, 0 <= j < 2 ^ 19 -> present (ent s2 pgdir j) = true -> upage s2 pgdir j = upage s2 pgdir k -> j = k)) ->
  (forall q, q ∈ pend <-> q ∈ pend' \/ q ∈ pend /\ upages s2 pgdir 0 (2 ^ 19) q) -> (forall q, q ∈ pend' -> ~ upages s2 pgdir 0 (2 ^ 19) q) ->
  grown s pgdir s2 pend'.
Proof using.
  intros [G1 G2 G3 G4 G5 [G6 G7]] Hev Hold Hnew Hpend Hpend'. pose proof Hev as [E1 E2 E3 E4 E5 E6 E7 [E8 E9]].
  assert (Hsub : forall q, q ∈ pend' -> q ∈ pend) by (intros q Hq; apply Hpend; by left).
  assert (Hkeep : forall q d, vpages s1 !! q = Some d -> q <> pgdir -> (forall i, 0 <= i < 1024 -> tab s1 pgdir i <> Some q) -> vpages s2 !! q = Some d /\ forall i, 0 <= i < 1024 -> tab s2 pgdir i <> Some q).
  { intros q d. by apply evolves_keeps with (new := new). }
  assert (Hpk : forall q, q ∈ pend -> vpage q /\ q <> pgdir /\ (forall i, 0 <= i < 1024 -> tab s2 pgdir i <> Some q) /\ exists d, vpages s2 !! q = Some d /\ length d = 4096%nat).
  { intros q Hq. destruct (G4 q Hq) as (H1 & H2 & d & H3 & H4). destruct (Hkeep q d H3) as [K1 K2]; [intros ->; apply H2; by left|intros i Hi E; apply H2; by eapply owned_tab|].
    split_and!; [done|intros ->; apply H2; by left|done|by exists d]. }
  assert (Htab : forall q, (exists i, 0 <= i < 1024 /\ tab s2 pgdir i = Some q) <-> (exists i, 0 <= i < 1024 /\ tab s1 pgdir i = Some q) \/ q ∈ new).
  { intros q. split; [intros (i & Hi & E); destruct (E5 i q Hi E); [left; eauto|by right]|intros [(i & Hi & E)|Hq]; [exists i; split; [done|by apply E4]|by apply E6]]. }
  assert (Husr : forall q, upages s2 pgdir 0 (2 ^ 19) q <-> upages s1 pgdir 0 (2 ^ 19) q \/ q ∈ pend /\ upages s2 pgdir 0 (2 ^ 19) q).
  { intros q. split.
    - intros (k & Hk & Hp & Hq). destruct (Hnew k Hk Hp) as [He|(Hin & _)]; [left; exists k; unfold upage in *; by rewrite He in *|right; subst q; split; [done|by exists k]].
    - intros [(k & Hk & Hp & Hq)|[_ ?]]; [|done]. exists k. unfold upage in *. by rewrite Hold. }
  split; [split; [done| |]|done| | | |split; congruence].
  - intros k Hk Hp. destruct (Hnew k Hk Hp) as [He|(Hin & Ha & _)].
    + unfold upage. rewrite He in *. destruct (sp_page _ _ G1 k Hk Hp) as (H1 & H2 & H3 & H4 & d & H5 & H6). destruct (Hkeep _ d H5 H3 H4) as [K1 K2]. split_and!; eauto.
    + destruct (Hpk _ Hin) as (P1 & P2 & P3 & P4). split_and!; done.
  - intros j k Hj Hk Hpj Hpk' E. destruct (Hnew k Hk Hpk') as [Hek|(_ & _ & Hi)]; [|by apply Hi]. destruct (Hnew j Hj Hpj) as [Hej|(_ & _ & Hi)]; [|symmetry; by apply Hi].
    unfold upage in E. rewrite Hek in Hpk'. rewrite Hej in Hpj. rewrite Hek, Hej in E. by apply (sp_inj _ _ G1).
  - intros q. rewrite G3, E3, elem_of_app. unfold owned. rewrite Htab, (Husr q), (Hpend q). tauto.
  - intros q Hq. destruct (Hpk q (Hsub q Hq)) as (P1 & P2 & P3 & P4). split; [done|]. split; [|done]. intros [->|[(i & Hi & E)|Hu]]; [done|by apply (P3 i)|by apply (Hpend' q)].
  - intros q Hq. rewrite E7; [by apply G5|intros ->; apply Hq, G3; right; left; by left| |intros i Hi E; apply Hq, G3; right; left; by eapply owned_tab].
    intros Hn. apply Hq, G3. left. rewrite E3. apply elem_of_app. by left.
Qed.

(** ** Running out of memory *)

(** How many pages the page directory, its tables and the user pages from [K] to [N] are. *)
Lemma page_count s d K N pend X : K <= N -> NoDup X ->
  (forall q, q ∈ X -> q = d \/ (exists i, 0 <= i < 1024 /\ tab s d i = Some q) \/ upages s d K N q \/ q ∈ pend) -> Z.of_nat (length X) <= 1025 + (N - K) + Z.of_nat (length pend).
Proof using.
  intros HKN Hn Hin. set (L := d :: omap (tab s d) (seqZ 0 1024) ++ (upage s d <$> seqZ K (N - K)) ++ pend).
  assert (Hsub : X ⊆+ L).
  { apply NoDup_submseteq; [done|]. intros q Hq. unfold L. rewrite elem_of_cons, !elem_of_app. destruct (Hin q Hq) as [->|[(i & Hi & E)|[(j & Hj & _ & E)|Hp]]]; [by left|right; left|right; right; left|by right; right; right].
    - apply list_elem_of_omap. exists i. split; [apply elem_of_seqZ; lia|done].
    - apply list_elem_of_fmap. exists j. split; [done|]. apply elem_of_seqZ. lia. }
  apply submseteq_length in Hsub. unfold L in Hsub. cbn [length] in Hsub. rewrite !length_app, length_fmap, length_seqZ in Hsub.
  assert (Ho : forall l, (length (omap (tab s d) l) <= length l)%nat) by (intros l; induction l as [|x l IH]; cbn; [lia|]; destruct (tab s d x); cbn; lia).
  specialize (Ho (seqZ 0 1024)). rewrite length_seqZ in Ho. lia.
Qed.

(** When no page is left, the new address space has them all. *)
Lemma grown_starved s d s1 pend n : free_ok s -> grown s d s1 pend -> vfree s1 = [] -> (length pend <= 1)%nat -> 0 <= n ->
  (forall j, n <= j < 2 ^ 19 -> present (ent s1 d j) = false) -> Z.of_nat (length (vfree s)) <= 1026 + n.
Proof using.
  intros Hf Hg Hnil Hp Hn Hno. assert (Hc : Z.of_nat (length (vfree s)) <= 1025 + (n - 0) + Z.of_nat (length pend)); [|lia].
  apply (page_count s1 d); [done|apply Hf|]. intros q Hq. apply (gr_own _ _ _ _ Hg) in Hq as [Hq|[[->|[Ht|(j & Hj & Hpj & E)]]|Hq]]; [rewrite Hnil in Hq; by apply elem_of_nil in Hq|by left|by right; left| |by right; right; right].
  right; right; left. exists j. split; [|done]. destruct (Z.lt_ge_cases j n); [lia|]. rewrite Hno in Hpj by lia. done.
Qed.

(** ** Adding a page to an address space *)

Lemma grown_add s d s1 k perm p l data : grown s d s1 [] -> 0 <= k < 2 ^ 19 -> present (ent s1 d k) = false -> 0 <= perm < 4096 ->
  vfree s1 = p :: l -> length data = 4096%nat ->
  exists r s2, mappages junk d (k * 4096) PGSIZE (V2P p) perm (with_page (s1 <| vfree := l |>) p data) = Ret r s2 /\
    (forall j, 0 <= j < 2 ^ 19 -> present (ent s1 d j) = true -> vpages s2 !! upage s1 d j = vpages s1 !! upage s1 d j) /\
    (r = 0 /\ grown s d s2 [] /\ vpages s2 !! p = Some data /\ (forall j, 0 <= j < 2 ^ 20 -> ent s2 d j = if j =? k then V2P p + Z.lor perm 1 else ent s1 d j) \/
     r = -1 /\ grown s d s2 [p] /\ (forall j, 0 <= j < 2 ^ 20 -> ent s2 d j = ent s1 d j) /\ vfree s2 = []).
Proof using Hkend.
  intros Hg Hk Hpr Hperm Hl Hdata. destruct (fr_page _ (gr_free _ _ _ _ Hg) p) as [Hv Hnone]; [rewrite Hl; apply list_elem_of_here|].
  destruct (vpage_V2P p Hv) as (_ & Hvp & Hvm). pose proof (grown_kalloc s d s1 p l data Hg Hl Hdata) as Hg1. set (s1' := with_page _ _ _) in *.
  assert (Hs1 : forall q, vpages s1' !! q = if decide (q = p) then Some data else vpages s1 !! q) by (intros q; unfold s1'; by rewrite with_page_lookup).
  destruct (space_agree s1 s1' d (gr_space _ _ _ _ Hg)) as (_ & _ & He1 & Ho1).
  { intros q Hq. rewrite Hs1, decide_False; [done|]. intros ->. destruct (owned_data _ _ _ (gr_space _ _ _ _ Hg) Hq) as (_ & d' & H & _). congruence. }
  destruct (mappages_ok s1' d k 1 (V2P p) perm (sp_dir _ _ (gr_space _ _ _ _ Hg1)) (gr_free _ _ _ _ Hg1)) as (r & m & s2 & new & Hr & Hev & Hm & He2 & Hres); [lia|lia|lia|done|lia| |done| |].
  { unfold PHYSTOP in Hvp. lia. }
  { intros j Hj. replace j with k by lia. by rewrite He1 by lia. }
  exists r, s2. split; [done|].
  assert (Hpnd : forall q dq, vpages s1' !! q = Some dq -> q <> d -> (forall i, 0 <= i < 1024 -> tab s1' d i <> Some q) -> vpages s2 !! q = Some dq).
  { intros q dq H1 H2 H3. by apply (evolves_keeps s1' d s2 new q dq (gr_free _ _ _ _ Hg1) Hev). }
  destruct (gr_pend _ _ _ _ Hg1 p (list_elem_of_here _ _)) as (_ & Hpo & _).
  split.
  { intros j Hj Hprj. destruct (sp_page _ _ (gr_space _ _ _ _ Hg1) j Hj) as (_ & _ & H3 & H4 & dj & H5 & _); [by rewrite He1 by lia|].
    unfold upage in *. rewrite He1 in H3, H4, H5 by lia. rewrite (Hpnd _ dj H5 H3 H4). rewrite Hs1 in H5. case_decide as E; [|done].
    exfalso. apply Hpo. rewrite Ho1, <- E. by apply owned_user. }
  assert (Hnu : forall j, 0 <= j < 2 ^ 19 -> present (ent s1 d j) = true -> upage s1 d j <> p).
  { intros j Hj H E. apply Hpo. rewrite Ho1, <- E. by apply owned_user. }
  destruct Hres as [[-> ->]|(-> & Hm1 & Hnil)]; [left|right].
  - assert (He : forall j, 0 <= j < 2 ^ 20 -> ent s2 d j = if j =? k then V2P p + Z.lor perm 1 else ent s1 d j).
    { intros j Hj. rewrite He2 by done. destruct (Z.eqb_spec j k) as [->|]; [rewrite mapped_in by lia; lia|rewrite mapped_out by lia; by apply He1]. }
    destruct (lor_perm (V2P p) perm Hvm ltac:(lia) Hperm) as (_ & Hpl & Hodd). destruct (entry_of p (Z.lor perm 1) Hv Hpl) as (_ & Ha & _).
    assert (Huk : upage s2 d k = p) by (unfold upage; rewrite He, Z.eqb_refl, Ha by lia; by apply P2V_V2P).
    assert (Huo : forall j, 0 <= j < 2 ^ 19 -> j <> k -> ent s2 d j = ent s1 d j) by (intros j Hj Hjk; rewrite He by lia; by replace (j =? k) with false by lia).
    split; [done|]. split; [|split; [|done]].
    + apply (grown_evolves s d s1' s2 new [p] []); [done|done| | | |intros q Hq; by apply elem_of_nil in Hq].
      * intros j Hj. rewrite He1 by lia. intros Hj1. apply Huo; [done|]. intros ->. congruence.
      * intros j Hj Hj2. destruct (Z.eq_dec j k) as [->|Hjk]; [|left; rewrite He1 by lia; by apply Huo]. right. rewrite Huk. split; [apply list_elem_of_here|].
        split; [by rewrite He, Z.eqb_refl, Ha by lia|]. intros i Hi Hpi E. destruct (Z.eq_dec i k) as [|Hik]; [done|]. exfalso. rewrite Huo in Hpi by done.
        apply (Hnu i Hi Hpi). unfold upage in *. by rewrite Huo in E.
      * intros q. rewrite elem_of_nil, list_elem_of_singleton. split; [intros ->; right; split; [done|]; exists k; rewrite He, Z.eqb_refl by lia; split; [lia|done]|tauto].
    + apply Hpnd; [by rewrite Hs1, decide_True|intros ->; apply Hpo; by left|intros i Hi E; apply Hpo; by eapply owned_tab].
  - assert (He : forall j, 0 <= j < 2 ^ 20 -> ent s2 d j = ent s1 d j) by (intros j Hj; rewrite He2, mapped_out by lia; by apply He1).
    split; [done|]. split; [|done]. apply (grown_evolves s d s1' s2 new [p] [p]); [done|done| | |intros q; tauto|].
    + intros j Hj _. by rewrite He, He1 by lia.
    + intros j Hj _. left. by rewrite He, He1 by lia.
    + intros q Hq (j & Hj & Hpj & E). apply list_elem_of_singleton in Hq as ->. unfold upage in E. rewrite He in Hpj, E by lia. by apply (Hnu j Hj Hpj).
Qed.

(** ** setupkvm *)

Lemma grown_start s p l : free_ok s -> vfree s = p :: l ->
  let s1 := with_page (s <| vfree := l |>) p (replicate 4096 0) in grown s p s1 [] /\ forall k, 0 <= k < 2 ^ 20 -> ent s1 p k = 0.
Proof using.
  intros Hf Hl s1. assert (Hs1 : forall q, vpages s1 !! q = if decide (q = p) then Some (replicate 4096 0) else vpages s !! q) by (intros q; unfold s1; by rewrite with_page_lookup).
  destruct (fr_page _ Hf p) as [Hv Hn]; [rewrite Hl; apply list_elem_of_here|]. pose proof (fr_nodup _ Hf) as Hnd. rewrite Hl in Hnd. apply NoDup_cons in Hnd as [Hpl Hnd].
  assert (Htab : forall i, 0 <= i < 1024 -> tab s1 p i = None) by (intros i Hi; unfold tab; rewrite Hs1, decide_True by done; by rewrite entw_zero).
  assert (He : forall k, 0 <= k < 2 ^ 20 -> ent s1 p k = 0) by (intros k Hk; unfold ent; by rewrite Htab by zlia).
  assert (Hd1 : vpages s1 !! p = Some (replicate 4096 0)) by (by rewrite Hs1, decide_True).
  assert (Hown : forall q, owned s1 p q <-> q = p).
  { intros q. split; [|by left]. intros [->|[(i & Hi & E)|(k & Hk & E & _)]]; [done|by rewrite Htab in E|by rewrite He in E by lia]. }
  split; [|done]. split; [split| | | | |done].
  - split; [done|by eexists|intros i t Hi E; by rewrite Htab in E|intros i j t Hi Hj E; by rewrite Htab in E].
  - intros k Hk. rewrite He by lia. done.
  - intros j k Hj Hk. rewrite He by lia. done.
  - split; [done|]. intros q Hq. destruct (fr_page _ Hf q) as [Q1 Q2]; [rewrite Hl; by apply list_elem_of_further|]. split; [done|]. rewrite Hs1, decide_False; [done|by intros ->].
  - intros q. rewrite Hl, Hown, elem_of_cons, elem_of_nil. cbn. tauto.
  - intros q Hq. by apply elem_of_nil in Hq.
  - intros q Hq. rewrite Hs1, decide_False; [done|]. intros ->. apply Hq. rewrite Hl. apply list_elem_of_here.
Qed.

(** A segment of the kernel: its first page, its pages, physical address, permissions. *)
Notation seg := (Z * Z * Z * Z)%type.

Definition seg_ok (g : seg) : Prop :=
  let '(k, n, pa, perm) := g in 2 ^ 19 <= k /\ 1 <= n /\ k + n <= 2 ^ 20 /\ pa mod 4096 = 0 /\ 0 <= pa /\ pa + n * 4096 <= 2 ^ 32 /\ 0 <= perm < 4096.

Definition seg_entry (g : seg) : Z * Z * Z * Z := let '(k, n, pa, perm) := g in (k * 4096, pa, u32 (pa + n * 4096), perm).

Definition seg_map (g : seg) (old : Z -> Z) : Z -> Z := let '(k, n, pa, perm) := g in mapped k n pa perm old.

Fixpoint segs_free (gs : list seg) (old : Z -> Z) : Prop :=
  match gs with
  | [] => True
  | g :: gs => (forall j, g.1.1.1 <= j < g.1.1.1 + g.1.1.2 -> present (old j) = false) /\ segs_free gs (seg_map g old)
  end.

Lemma setup_loop_ok gs old s d s1 : free_ok s -> grown s d s1 [] -> Forall seg_ok gs -> segs_free gs old -> (forall j, 0 <= j < 2 ^ 20 -> ent s1 d j = old j) ->
  (forall j, 0 <= j < 2 ^ 19 -> present (old j) = false) ->
  exists r s2, setupkvm_loop kend junk d (seg_entry <$> gs) s1 = Ret r s2 /\
    (r = d /\ grown s d s2 [] /\ (forall j, 0 <= j < 2 ^ 20 -> ent s2 d j = foldl (fun f g => seg_map g f) old gs j) \/
     r = 0 /\ restored s s2 /\ Z.of_nat (length (vfree s)) <= 1026).
Proof using Hkend.
  intros Hf. revert s1 old. induction gs as [|[[[k n] pa] perm] gs IH]; intros s1 old Hg Hok Hfr He Hus.
  { exists d, s1. split; [done|]. by left. }
  apply Forall_cons in Hok as [(K1 & K2 & K3 & K4 & K5 & K6 & K7) Hok]. destruct Hfr as [Hfr Hfrs]. cbn in Hfr. cbn [fmap list_fmap seg_entry setupkvm_loop].
  replace (u32 (u32 (pa + n * 4096) - pa)) with (n * 4096) by (unfold u32; zlia).
  destruct (mappages_ok s1 d k n pa perm (sp_dir _ _ (gr_space _ _ _ _ Hg)) (gr_free _ _ _ _ Hg)) as (r & m & s2 & new & Hr & Hev & Hm & He2 & Hres); try lia.
  { intros j Hj. rewrite He by lia. by apply Hfr. }
  assert (Hu : forall j, 0 <= j < 2 ^ 19 -> ent s2 d j = ent s1 d j).
  { intros j Hj. rewrite He2 by lia. unfold mapped. by replace (k <=? j) with false by lia. }
  assert (Hg2 : grown s d s2 []).
  { apply (grown_evolves s d s1 s2 new [] []); [done|done|by intros j Hj _; apply Hu|by intros j Hj _; left; apply Hu|intros q; rewrite elem_of_nil; tauto|intros q Hq; by apply elem_of_nil in Hq]. }
  rewrite (bind_ret _ _ _ _ _ Hr). destruct Hres as [[-> ->]|(-> & _ & Hnil)]; cbn [Z.ltb Z.compare].
  - apply (IH s2 (mapped k n pa perm old)); [done|done|done| |intros j Hj; rewrite mapped_out by lia; by apply Hus]. intros j Hj. rewrite He2 by done. by apply mapped_ext, He.
  - destruct (grown_freevm s d s2 Hf Hg2) as (s3 & E3 & H3). rewrite (bind_ret _ _ _ _ _ E3). exists 0, s3. split; [done|]. right. split; [done|]. split; [done|].
    assert (Hle : Z.of_nat (length (vfree s)) <= 1026 + 0); [|lia]. apply (grown_starved s d s2 []); [done|done|done|cbn; lia|done|]. intros j Hj. rewrite Hu, He by lia. by apply Hus.
Qed.

(** The linker script places [data] on a page boundary after the kernel's text. *)
Context (kdata : Z).
Hypothesis Hkdata : kdata mod 4096 = 0 /\ KERNLINK < kdata < KERNBASE + PHYSTOP.

(** The kernel's part of every address space. *)
Definition kentry (j : Z) : Z :=
  let a := j * 4096 in
  if (KERNBASE <=? a) && (a <? KERNBASE + PHYSTOP) then a - KERNBASE + (if (KERNLINK <=? a) && (a <? kdata) then PTE_P else Z.lor PTE_W PTE_P)
  else if DEVSPACE <=? a then a + Z.lor PTE_W PTE_P else 0.

Definition ksegs : list seg :=
  [ (0x80000, 0x100, 0, PTE_W); (0x80100, kdata / 4096 - 0x80100, EXTMEM, 0); (kdata / 4096, 0x8E000 - kdata / 4096, kdata - KERNBASE, PTE_W);
    (0xFE000, 0x2000, DEVSPACE, PTE_W) ].

(** The page of [data]. *)
Lemma kdata_page : exists c, kdata / 4096 = c /\ kdata = c * 4096 /\ 0x80100 < c < 0x8E000.
Proof using Hkdata. exists (kdata / 4096). unfold KERNLINK, EXTMEM, KERNBASE, PHYSTOP in Hkdata. zlia. Qed.

Ltac ksegs_arith := unfold ksegs, kentry, KERNLINK, EXTMEM, KERNBASE, PHYSTOP, DEVSPACE, PTE_W, PTE_P; destruct kdata_page as (c & -> & -> & Hc).

Lemma kmap_ksegs : kmap kdata = seg_entry <$> ksegs.
Proof using Hkdata.
  unfold kmap, V2P. ksegs_arith. cbn [fmap list_fmap seg_entry].
  rewrite (u32_small (c * 4096 - 0x80000000)), (u32_small (0x100000 + _)), (u32_small (c * 4096 - 0x80000000 + _)) by lia.
  replace (0x100000 + (c - 0x80100) * 4096) with (c * 4096 - 0x80000000) by lia. replace (c * 4096 - 0x80000000 + (0x8E000 - c) * 4096) with 0xE000000 by lia. reflexivity.
Qed.

Lemma ksegs_seg_ok : Forall seg_ok ksegs.
Proof using Hkdata.
  ksegs_arith. repeat apply Forall_cons_2; [..|apply Forall_nil_2]; cbn [seg_ok]; split_and!; try lia; try done.
  replace (c * 4096 - 0x80000000) with ((c - 0x80000) * 4096) by lia. by rewrite Z.mod_mul.
Qed.

Lemma ksegs_free : segs_free ksegs (fun _ => 0).
Proof using Hkdata.
  ksegs_arith. cbn [segs_free seg_map fst snd].
  split_and!; [| | | |done]; intros j Hj; rewrite ?mapped_out by lia; reflexivity.
Qed.

Lemma ksegs_entry j : 0 <= j < 2 ^ 20 -> foldl (fun f g => seg_map g f) (fun _ => 0) ksegs j = kentry j.
Proof using Hkdata.
  intros Hj. ksegs_arith. cbn [foldl seg_map]. change (Z.lor 2 1) with 3. cbv zeta.
  destruct (Z.lt_ge_cases j 0x80000); [|destruct (Z.lt_ge_cases j 0x80100); [|destruct (Z.lt_ge_cases j c); [|destruct (Z.lt_ge_cases j 0x8E000); [|destruct (Z.lt_ge_cases j 0xFE000)]]]].
  all: repeat first [rewrite mapped_out by lia|rewrite mapped_in by lia]; zdecide; change (Z.lor 2 1) with 3; change (Z.lor 0 1) with 1; lia.
Qed.

Lemma setupkvm_ok s : free_ok s ->
  exists r s', setupkvm kend kdata junk s = Ret r s' /\ (r = 0 /\ restored s s' /\ Z.of_nat (length (vfree s)) <= 1026 \/ r <> 0 /\ grown s r s' [] /\ forall j, 0 <= j < 2 ^ 20 -> ent s' r j = kentry j).
Proof using Hkend Hkdata.
  intros Hf. unfold setupkvm. assert (Hc : vfree s = [] \/ exists p l, vfree s = p :: l) by (destruct (vfree s); eauto). destruct Hc as [El|(p & l & El)].
  { exists 0, s. rewrite (bind_ret _ _ _ _ _ (kalloc_empty s El)). split; [done|]. left. split; [done|]. split; [apply restored_refl|rewrite El; cbn; lia]. }
  rewrite (bind_ret _ _ _ _ _ (vkalloc_ok s p l El)). destruct (fr_page _ Hf p) as [Hv _]; [rewrite El; apply list_elem_of_here|]. destruct (vpage_range p Hv) as [_ Hpos].
  replace (p =? 0) with false by (unfold KERNBASE in *; lia). destruct (grown_start s p l Hf El) as [Hg He]. set (s1 := with_page _ _ (replicate _ _)) in *.
  assert (E1 : zero_page p (with_page (s <| vfree := l |>) p (junk p)) = Ret tt s1).
  { unfold zero_page. rewrite (set_page_ok _ p (junk p)) by (by rewrite with_page_lookup, decide_True). f_equal. apply with_page_twice. }
  rewrite (bind_ret _ _ _ _ _ E1). change (P2V PHYSTOP >? DEVSPACE) with false. cbn match. rewrite kmap_ksegs.
  destruct (setup_loop_ok ksegs (fun _ => 0) s p s1 Hf Hg ksegs_seg_ok ksegs_free He) as (r & s2 & E2 & [(-> & H2 & H3)|[-> H2]]); [done|eexists _, s2; (split; [done|])..].
  - right. split; [unfold KERNBASE in *; lia|]. split; [done|]. intros j Hj. rewrite H3 by done. by apply ksegs_entry.
  - by left.
Qed.

End Pages.
