(* ===== verification/VmUser.v ===== *)
(** * VmUser: what vm.c promises of user memory

    [copyuvm] gives a child its own copy of the parent's pages or leaves everything
    as it was, [allocuvm] adds zeroed pages or takes them all back, [freevm] returns
    every page of an address space once, and [copyout] writes user addresses. *)

From S2P Require Import Prelude Mem Log Kalloc Vm VmSpec.

Lemma flags_odd e : present e = true -> Z.lor (PTE_FLAGS e) 1 = PTE_FLAGS e /\ 0 <= PTE_FLAGS e < 4096 /\ present (PTE_FLAGS e) = true.
Proof.
  intros H. assert (Hp : present (PTE_FLAGS e) = true).
  { unfold present in *. rewrite <- Z.bit0_odd in *. unfold PTE_FLAGS. rewrite Z.land_spec, H. done. }
  split_and!; [|rewrite PTE_FLAGS_eq; zlia..|done].
  apply Z.bits_inj'. intros n Hn. rewrite Z.lor_spec. destruct (Z.eq_dec n 0) as [->|].
  - unfold present in Hp. rewrite Z.bit0_odd, Hp. done.
  - replace (Z.testbit 1 n) with false; [apply orb_false_r|]. symmetry. apply (Z.bits_above_log2 1); [lia|]. change (Z.log2 1) with 0. lia.
Qed.

Section User.
Context (kend : Z).
Hypothesis Hkend : KERNBASE < kend.
Context (junk : Z -> pagedata).

Notation space_ok := (space_ok kend).
Notation free_ok := (free_ok kend).
Notation grown := (grown kend).

(** The pages of [sz] bytes. *)
Definition npages (sz : Z) : Z := (sz + 4095) / 4096.

(** ** copyuvm *)

(** Page [k] of [d] in [s1] is a copy of page [k] of [pgdir] in [s]. *)
Definition copied (s : vm) (pgdir : Z) (s1 : vm) (d k : Z) : Prop :=
  present (ent s1 d k) = true /\ PTE_FLAGS (ent s1 d k) = PTE_FLAGS (ent s pgdir k) /\ vpages s1 !! upage s1 d k = vpages s !! upage s pgdir k.

(** Of the address space [d], pages [0] to [k] are copied and the user pages that
    follow are not mapped yet; [kern] is the kernel's part. *)
Record copying (s : vm) (pgdir : Z) (s1 : vm) (d k : Z) (kern : Z -> Z) : Prop := {
  cp_grown : grown s d s1 [];
  cp_done : forall j, 0 <= j < k -> copied s pgdir s1 d j;
  cp_todo : forall j, k <= j < 2 ^ 19 -> ent s1 d j = 0;
  cp_kern : forall j, 2 ^ 19 <= j < 2 ^ 20 -> ent s1 d j = kern j
}.

(** One page is copied. *)
Lemma copying_step s pgdir s1 d k kern p l data : space_ok s pgdir -> free_ok s -> copying s pgdir s1 d k kern -> 0 <= k < 2 ^ 19 -> present (ent s pgdir k) = true ->
  vfree s1 = p :: l -> vpages s !! upage s pgdir k = Some data ->
  exists r s2, mappages junk d (k * 4096) PGSIZE (V2P p) (PTE_FLAGS (ent s pgdir k)) (with_page (s1 <| vfree := l |>) p data) = Ret r s2 /\
    (r = 0 /\ copying s pgdir s2 d (k + 1) kern \/ r = -1 /\ grown s d s2 [p] /\ vfree s2 = [] /\ forall j, 0 <= j < 2 ^ 20 -> ent s2 d j = ent s1 d j).
Proof using Hkend.
  intros Hs Hf [C1 C2 C3 C4] Hk Hpr Hl Hdata. destruct (flags_odd _ Hpr) as (Hfl & Hfr & Hfo).
  destruct (sp_page _ _ _ Hs k Hk Hpr) as (_ & _ & _ & _ & d0 & Hd0 & Hlen). rewrite Hdata in Hd0. injection Hd0 as <-.
  destruct (grown_add kend Hkend junk s d s1 k (PTE_FLAGS (ent s pgdir k)) p l data C1) as (r & s2 & E & Hold & Hres); [done|by rewrite C3 by lia|done|done|done|].
  exists r, s2. split; [done|]. destruct Hres as [(-> & Hg & Hp & He)|(-> & Hg & He & Hnil)]; [left|by right]. split; [done|]. rewrite Hfl in He.
  destruct (fr_page _ _ (gr_free _ _ _ _ _ C1) p) as [Hv _]; [rewrite Hl; apply list_elem_of_here|]. destruct (entry_of kend Hkend p _ Hv Hfr) as (_ & Ha & Hff & Hpp & _).
  split; [done| | |].
  - intros j Hj. destruct (Z.eq_dec j k) as [->|Hjk].
    + unfold copied, upage. rewrite He, Z.eqb_refl by lia. rewrite Ha, Hff, (P2V_V2P kend Hkend p Hv), Hp. split_and!; [|done|done]. rewrite Hpp. exact Hfo.
    + destruct (C2 j ltac:(lia)) as (D1 & D2 & D3). pose proof (Hold j ltac:(lia) D1) as HH. unfold copied, upage in *. rewrite He by lia. replace (j =? k) with false by lia. rewrite HH. done.
  - intros j Hj. rewrite He by lia. replace (j =? k) with false by lia. apply C3. lia.
  - intros j Hj. rewrite He by lia. replace (j =? k) with false by lia. apply C4. lia.
Qed.

Lemma copyuvm_loop_ok fuel s pgdir s1 d sz k kern : space_ok s pgdir -> free_ok s -> copying s pgdir s1 d k kern -> 0 <= k -> 0 <= sz <= KERNBASE -> k <= npages sz -> npages sz - k <= Z.of_nat fuel ->
  (forall j, 0 <= j < npages sz -> present (ent s pgdir j) = true) ->
  exists r s2, copyuvm_loop kend junk fuel pgdir d sz (k * 4096) s1 = Ret r s2 /\ (r = d /\ copying s pgdir s2 d (npages sz) kern \/ r = 0 /\ restored s s2 /\ Z.of_nat (length (vfree s)) <= 1026 + npages sz).
Proof using Hkend.
  intros Hs Hf. revert s1 k. induction fuel as [|fuel IH]; intros s1 k Hc Hk Hsz Hkn Hfu Hpr; cbn [copyuvm_loop]; unfold npages in *; destruct (Z.ltb_spec (k * 4096) sz) as [Hlt|Hge].
  1: exfalso; zlia.
  1, 3: exists d, s1; split; [done|]; left; split; [done|]; replace ((sz + 4095) / 4096) with k by zlia; done.
  unfold KERNBASE in Hsz. assert (Hk2 : 0 <= k < 2 ^ 19) by zlia. pose proof (Hpr k ltac:(zlia)) as Hp. pose proof (cp_grown _ _ _ _ _ _ Hc) as Hg.
  destruct (space_agree kend s s1 pgdir Hs) as (Hs1 & Ht1 & He1 & Ho1).
  { intros q Hq. destruct (owned_data _ _ _ _ Hs Hq) as (_ & dq & Hdq & _). apply (gr_frame _ _ _ _ _ Hg). by eapply alloc_not_free. }
  destruct (vpn_index k ltac:(lia)) as [EX ET]. rewrite (bind_ret _ _ _ _ _ (walk_ok kend Hkend junk s1 pgdir (k * 4096) (sp_dir _ _ _ Hs1))), EX, ET.
  destruct (tab s1 pgdir (k / 1024)) as [t|] eqn:Et; [|unfold ent in Hp; rewrite Ht1 in Et; by rewrite Et in Hp].
  destruct (ent_word kend Hkend s1 pgdir k t (sp_dir _ _ _ Hs1) ltac:(lia) Et) as (_ & _ & _ & _ & Hvt & _ & Hldw). destruct (vpage_range kend Hkend t Hvt) as [_ Hpos].
  replace (t + 4 * (k mod 1024) =? 0) with false by (unfold KERNBASE in *; zlia). rewrite (bind_ret _ _ _ _ _ Hldw), land_P, He1, Hp by lia. cbn [negb]. cbv zeta.
  change (P2V (PTE_ADDR (ent s pgdir k))) with (upage s pgdir k).
  destruct (vfree s1) as [|p l] eqn:El.
  { rewrite (bind_ret _ _ _ _ _ (kalloc_empty junk s1 El)). destruct (grown_freevm kend Hkend junk s d s1 Hf Hg) as (s2 & E2 & H2).
    cbn [Z.eqb]. rewrite (bind_ret _ _ _ _ _ E2). exists 0, s2. split; [done|]. right. split; [done|]. split; [done|].
    apply (grown_starved kend s d s1 []); [done|done|done|cbn; lia|zlia|]. intros j Hj. rewrite (cp_todo _ _ _ _ _ _ Hc) by zlia. done. }
  rewrite (bind_ret _ _ _ _ _ (vkalloc_ok junk s1 p l El)). 
  destruct (fr_page _ _ (gr_free _ _ _ _ _ Hg) p) as [Hv Hnp]; [rewrite El; apply list_elem_of_here|]. destruct (vpage_range kend Hkend p Hv) as [_ Hposp].
  replace (p =? 0) with false by (unfold KERNBASE in *; lia).
  destruct (sp_page _ _ _ Hs k Hk2 Hp) as (_ & _ & _ & _ & data & Hdata & _). pose proof (owned_user s pgdir k Hk2 Hp) as Hown.
  assert (Hd1 : vpages s1 !! upage s pgdir k = Some data) by (rewrite (gr_frame _ _ _ _ _ Hg); [done|by eapply alloc_not_free]).
  assert (Hg1 : get_page (upage s pgdir k) (with_page (s1 <| vfree := l |>) p (junk p)) = Ret data (with_page (s1 <| vfree := l |>) p (junk p))).
  { apply get_page_ok. rewrite with_page_lookup. rewrite decide_False; [done|congruence]. }
  assert (Hs2 : set_page p data (with_page (s1 <| vfree := l |>) p (junk p)) = Ret tt (with_page (s1 <| vfree := l |>) p data)).
  { rewrite (set_page_ok _ p (junk p)) by (by rewrite with_page_lookup, decide_True). f_equal. apply with_page_twice. }
  rewrite (bind_ret _ _ _ _ _ Hg1), (bind_ret _ _ _ _ _ Hs2).
  destruct (copying_step s pgdir s1 d k kern p l data Hs Hf Hc Hk2 Hp El Hdata) as (r & s2 & Hr & [[-> Hc2]|(-> & Hg2 & Hnil & He2)]); rewrite (bind_ret _ _ _ _ _ Hr); cbn [Z.ltb Z.compare].
  - rewrite u32_small by (unfold PGSIZE; lia). unfold PGSIZE. replace (k * 4096 + 4096) with ((k + 1) * 4096) by lia. apply IH; try done; try (unfold KERNBASE; zlia).
  - destruct (grown_kfree kend Hkend s d s2 p Hg2) as (s3 & E3 & Hg3). rewrite (bind_ret _ _ _ _ _ E3).
    destruct (grown_freevm kend Hkend junk s d s3 Hf Hg3) as (s4 & E4 & H4). rewrite (bind_ret _ _ _ _ _ E4). exists 0, s4. split; [done|]. right. split; [done|]. split; [done|].
    apply (grown_starved kend s d s2 [p]); [done|done|done|cbn; lia|zlia|]. intros j Hj. rewrite He2, (cp_todo _ _ _ _ _ _ Hc) by zlia. done.
Qed.

(** ** allocuvm *)

(** Every address space is grown from the state in which it is freed. *)
Lemma grown_of_space s d : space_ok s d -> free_ok s -> exists s0 l, grown s0 d s [] /\ vfree s0 = l ++ vfree s /\ forall q, q ∈ l <-> owned s d q.
Proof using Hkend junk.
  intros Hs Hf. destruct (freevm_ok kend Hkend junk s d Hs Hf) as (s0 & l & _ & [F1 F2 F3 [F4 F5]] & Hl). exists s0, l. split; [|done].
  split; [done|done| | | |split; congruence].
  - intros q. rewrite F2, elem_of_app, Hl, elem_of_nil. tauto.
  - intros q Hq. by apply elem_of_nil in Hq.
  - intros q Hq. rewrite F2, not_elem_of_app in Hq. rewrite F3, decide_False; [done|apply Hq].
Qed.

Definition logged (s : vm) (msg : string) : vm := s <| vlog ::= fun l => l ++ [msg] |>.

Lemma grown_logged s d s1 pend msg : grown s d s1 pend -> grown (logged s msg) d (logged s1 msg) pend.
Proof using.
  intros [G1 G2 G3 G4 G5 [G6 G7]]. destruct (space_agree kend s1 (logged s1 msg) d G1) as (H1 & _ & _ & H4); [done|].
  split; [done| | | |done|split; cbn; congruence].
  - split; [apply G2|]. intros p Hp. by apply (fr_page _ _ G2).
  - intros q. rewrite H4. apply G3.
  - intros q Hq. rewrite H4. by apply G4.
Qed.

(** Unmapping gives pages back. *)
Lemma grown_dealloc s d s1 pend oldsz newsz : grown s d s1 pend -> 0 <= newsz < oldsz -> oldsz <= KERNBASE ->
  exists s2, deallocuvm kend junk d oldsz newsz s1 = Ret newsz s2 /\ grown s d s2 pend /\ dealloc_ok kend s1 d (npages newsz) (npages oldsz) s2.
Proof using Hkend.
  intros [G1 G2 G3 G4 G5 [G6 G7]] Hsz Ho. destruct (deallocuvm_ok kend Hkend junk s1 d oldsz newsz G1 G2) as (s2 & E & Hd); [lia|lia|lia|]. exists s2. split; [done|]. split; [|done].
  destruct Hd as (l & [D1 D2 D3 D4 D5 [D6 D7]] & He & Hl). fold (npages newsz) (npages oldsz) in He, Hl.
  assert (HN : 0 <= npages newsz /\ npages oldsz <= 2 ^ 19) by (unfold npages, KERNBASE in *; zlia).
  assert (Hu : forall q, upages s1 d 0 (2 ^ 19) q <-> upages s2 d 0 (2 ^ 19) q \/ q ∈ l).
  { intros q. rewrite Hl. split.
    - intros (j & Hj & Hp & Hq). destruct (decide (npages newsz <= j < npages oldsz)) as [|Hn]; [right; by exists j|]. left. exists j. unfold upage.
      replace (ent s2 d j) with (ent s1 d j); [done|]. rewrite He by lia. unfold unmapped. by replace ((npages newsz <=? j) && (j <? npages oldsz)) with false by lia.
    - intros [(j & Hj & Hp & Hq)|(j & Hj & Hp & Hq)]; exists j; [|split; [lia|done]]. unfold upage in Hq. rewrite He in Hp, Hq by lia. unfold unmapped in *. destruct (_ && _); done. }
  assert (Hown : forall q, owned s1 d q <-> owned s2 d q \/ q ∈ l) by (intros q; unfold owned; setoid_rewrite D3; rewrite Hu; tauto).
  split; [done|done| | | |split; congruence].
  - intros q. rewrite G3, D4, elem_of_app, Hown. tauto.
  - intros q Hq. destruct (G4 q Hq) as (H1 & H2 & H3). rewrite Hown in H2. split; [done|]. split; [tauto|]. rewrite D5, decide_False; [done|tauto|intros ->; apply H2; left; by left|].
    intros i Hi E'. apply H2. left. eapply owned_tab; [done|by rewrite D3].
  - intros q Hq. assert (Hno : ~ owned s1 d q) by (rewrite G3 in Hq; tauto). rewrite D5, decide_False; [by apply G5|rewrite Hown in Hno; tauto|intros ->; apply Hno; by left|].
    intros i Hi E'. apply Hno. by eapply owned_tab.
Qed.

(** Between [K] and [k] zeroed pages were added to the address space [d] of [s]. *)
Record growing (s s0 : vm) (d : Z) (s1 : vm) (K k : Z) : Prop := {
  gw_grown : grown s0 d s1 [];
  gw_new : forall j, K <= j < k -> present (ent s1 d j) = true /\ PTE_FLAGS (ent s1 d j) = Z.lor PTE_P (Z.lor PTE_W PTE_U) /\ vpages s1 !! upage s1 d j = Some (replicate 4096 0);
  gw_old : forall j, 0 <= j < 2 ^ 20 -> ~ (K <= j < k) -> ent s1 d j = ent s d j;
  gw_data : forall j, 0 <= j < 2 ^ 19 -> ~ (K <= j < k) -> present (ent s d j) = true -> vpages s1 !! upage s d j = vpages s !! upage s d j
}.

Lemma growing_step s s0 d s1 K k p l : growing s s0 d s1 K k -> 0 <= K <= k -> k < 2 ^ 19 -> present (ent s d k) = false -> vfree s1 = p :: l ->
  exists r s2, mappages junk d (k * 4096) PGSIZE (V2P p) (Z.lor PTE_W PTE_U) (with_page (s1 <| vfree := l |>) p (replicate 4096 0)) = Ret r s2 /\
    (r = 0 /\ growing s s0 d s2 K (k + 1) \/
     r = -1 /\ grown s0 d s2 [p] /\ vfree s2 = [] /\ (forall j, 0 <= j < 2 ^ 20 -> ent s2 d j = ent s1 d j) /\
       forall j, 0 <= j < 2 ^ 19 -> ~ (K <= j < k) -> present (ent s d j) = true -> vpages s2 !! upage s d j = vpages s !! upage s d j).
Proof using Hkend.
  intros [C1 C2 C3 C4] Hk Hk2 Hpr Hl. change (Z.lor PTE_W PTE_U) with 6 in *.
  destruct (grown_add kend Hkend junk s0 d s1 k 6 p l (replicate 4096 0) C1) as (r & s2 & E & Hold & Hres); [lia|by rewrite C3 by lia|lia|done|apply length_replicate|].
  assert (Hdata : forall j, 0 <= j < 2 ^ 19 -> ~ (K <= j < k) -> present (ent s d j) = true -> vpages s2 !! upage s d j = vpages s !! upage s d j).
  { intros j Hj Hn Hp. rewrite <- C4 by done. specialize (Hold j Hj). unfold upage in *. rewrite C3 in Hold by lia. by apply Hold. }
  exists r, s2. split; [done|]. destruct Hres as [(-> & Hg & Hp & He)|(-> & Hg & He & Hnil)]; [left|by right]. split; [done|].
  destruct (fr_page _ _ (gr_free _ _ _ _ _ C1) p) as [Hv _]; [rewrite Hl; apply list_elem_of_here|]. destruct (entry_of kend Hkend p 7 Hv ltac:(lia)) as (_ & Ha & Hff & Hpp & _).
  change (Z.lor 6 1) with 7 in He. split; [done| | |].
  - intros j Hj. destruct (Z.eq_dec j k) as [->|Hjk].
    + unfold upage. rewrite He, Z.eqb_refl by lia. by rewrite Ha, Hff, Hpp, (P2V_V2P kend Hkend p Hv), Hp.
    + destruct (C2 j ltac:(lia)) as (D1 & D2 & D3). pose proof (Hold j ltac:(lia) D1) as HH. unfold upage in *. rewrite He by lia. replace (j =? k) with false by lia. rewrite HH. done.
  - intros j Hj Hn. rewrite He by lia. replace (j =? k) with false by lia. apply C3; lia.
  - intros j Hj Hn. apply Hdata; lia.
Qed.

(** Only the pages from [K] to [N] of the address space changed. *)
Record alloc_frame (s : vm) (d : Z) (s' : vm) (K N : Z) : Prop := {
  af_space : space_ok s' d;
  af_free : free_ok s';
  af_old : forall j, 0 <= j < 2 ^ 20 -> ~ (K <= j < N) -> ent s' d j = ent s d j;
  af_data : forall j, 0 <= j < 2 ^ 19 -> ~ (K <= j < N) -> present (ent s d j) = true -> vpages s' !! upage s d j = vpages s !! upage s d j;
  af_rest : forall q, ~ owned s d q -> q ∉ vfree s -> vpages s' !! q = vpages s !! q
}.

(** None of them is mapped, and what was free is free or a page table. *)
Record alloc_undone (s : vm) (d : Z) (s' : vm) (K N : Z) : Prop := {
  au_none : forall j, K <= j < N -> present (ent s' d j) = false;
  au_free : forall q, q ∈ vfree s -> q ∈ vfree s' \/ exists i, 0 <= i < 1024 /\ tab s' d i = Some q
}.

Lemma alloc_frame_intro s0 s d s' l K N : free_ok s -> grown s0 d s [] -> vfree s0 = l ++ vfree s -> (forall q, q ∈ l <-> owned s d q) ->
  (exists s0', vfree s0' = vfree s0 /\ vpages s0' = vpages s0 /\ grown s0' d s' []) ->
  (forall j, 0 <= j < 2 ^ 20 -> ~ (K <= j < N) -> ent s' d j = ent s d j) ->
  (forall j, 0 <= j < 2 ^ 19 -> ~ (K <= j < N) -> present (ent s d j) = true -> vpages s' !! upage s d j = vpages s !! upage s d j) ->
  alloc_frame s d s' K N /\ ((forall j, K <= j < N -> present (ent s' d j) = false) -> 0 <= K -> N <= 2 ^ 19 -> alloc_undone s d s' K N).
Proof using.
  intros Hf Hg Hl0 Hl (s0' & Ef & Ep & G) He Hd. split.
  - split; [apply G|apply G|done|done|]. intros q Hno Hq. assert (Hq0 : q ∉ vfree s0) by (rewrite Hl0, not_elem_of_app, Hl; done).
    rewrite (gr_frame _ _ _ _ _ G) by (by rewrite Ef). rewrite Ep. symmetry. by apply (gr_frame _ _ _ _ _ Hg).
  - intros Hn HK HN. split; [done|]. intros q Hq. assert (Hq0 : q ∈ vfree s0') by (rewrite Ef, Hl0; apply elem_of_app; by right).
    apply (gr_own _ _ _ _ _ G) in Hq0 as [?|[[->|[?|(j & Hj & Hp & Hjq)]]|Hin]]; [by left| |by right| |by apply elem_of_nil in Hin].
    + exfalso. destruct (dk_data _ _ _ (sp_dir _ _ _ (gr_space _ _ _ _ _ Hg))) as (dd & Hdd & _). by apply (alloc_not_free _ s d dd Hf Hdd).
    + exfalso. destruct (decide (K <= j < N)) as [Hin|Hout]; [by rewrite Hn in Hp|]. unfold upage in Hjq. rewrite He in Hp, Hjq by lia.
      destruct (owned_data _ s d q (gr_space _ _ _ _ _ Hg)) as (_ & dq & Hdq & _); [right; right; by exists j|]. by apply (alloc_not_free _ s q dq Hf Hdq).
Qed.

(** The failing branch of [allocuvm]. *)
Lemma alloc_undo s s0 d s2 pend oldsz newsz k msg : grown s0 d s2 pend -> 0 <= oldsz < newsz -> newsz <= KERNBASE -> k <= npages newsz ->
  (forall j, npages oldsz <= j < npages newsz -> present (ent s d j) = false) ->
  (forall j, 0 <= j < 2 ^ 20 -> ~ (npages oldsz <= j < k) -> ent s2 d j = ent s d j) ->
  (forall j, 0 <= j < 2 ^ 19 -> ~ (npages oldsz <= j < k) -> present (ent s d j) = true -> vpages s2 !! upage s d j = vpages s !! upage s d j) ->
  exists s3, deallocuvm kend junk d newsz oldsz (logged s2 msg) = Ret oldsz s3 /\ grown (logged s0 msg) d s3 pend /\
    (forall j, npages oldsz <= j < npages newsz -> present (ent s3 d j) = false) /\
    (forall j, 0 <= j < 2 ^ 20 -> ~ (npages oldsz <= j < npages newsz) -> ent s3 d j = ent s d j) /\
    (forall j, 0 <= j < 2 ^ 19 -> ~ (npages oldsz <= j < npages newsz) -> present (ent s d j) = true -> vpages s3 !! upage s d j = vpages s !! upage s d j).
Proof using Hkend.
  intros Hg Hsz Hn Hk Hfresh He Hd. assert (HN : 0 <= npages oldsz /\ npages newsz <= 2 ^ 19) by (unfold npages, KERNBASE in *; zlia).
  destruct (grown_dealloc _ _ _ _ newsz oldsz (grown_logged _ _ _ _ msg Hg) Hsz Hn) as (s3 & E & Hg3 & l & Hdr & Hu & Hl). exists s3. split; [done|]. split; [done|].
  assert (Hu' : forall j, 0 <= j < 2 ^ 20 -> ent s3 d j = unmapped (npages oldsz) (npages newsz) (ent s2 d) j) by (intros j Hj; by rewrite Hu).
  split_and!.
  - intros j Hj. rewrite Hu' by lia. unfold unmapped. replace ((npages oldsz <=? j) && (j <? npages newsz)) with true by lia. cbn [andb].
    by destruct (present (ent s2 d j)) eqn:?.
  - intros j Hj Ho. rewrite Hu' by lia. unfold unmapped. replace ((npages oldsz <=? j) && (j <? npages newsz)) with false by lia. cbn [andb]. apply He; lia.
  - intros j Hj Ho Hp. rewrite <- Hd by lia || done. assert (Ej : ent s2 d j = ent s d j) by (apply He; lia).
    destruct (sp_page _ _ _ (gr_space _ _ _ _ _ (grown_logged _ _ _ _ msg Hg)) j Hj) as (_ & _ & H3 & H4 & _); [change (present (ent s2 d j) = true); by rewrite Ej|].
    change (upage (logged s2 msg) d j) with (upage s2 d j) in *. unfold upage in *. rewrite Ej in *. rewrite (dr_frame _ _ _ _ _ Hdr) by done.
    rewrite decide_False; [done|]. rewrite Hl. intros (i & Hi & Hpi & Hqi). 
    assert (i = j); [|lia]. apply (sp_inj _ _ _ (gr_space _ _ _ _ _ (grown_logged _ _ _ _ msg Hg))); [lia|done|done|change (present (ent s2 d j) = true); by rewrite Ej|].
    rewrite Hqi. unfold upage. change (ent (logged s2 msg) d j) with (ent s2 d j). by rewrite Ej.
Qed.

(** The pages from [K] to [N] are zeroed user pages. *)
Definition zeroed (s' : vm) (d K N : Z) : Prop :=
  forall j, K <= j < N -> present (ent s' d j) = true /\ PTE_FLAGS (ent s' d j) = Z.lor PTE_P (Z.lor PTE_W PTE_U) /\ vpages s' !! upage s' d j = Some (replicate 4096 0).

(** No page was left, when the pages from [K] on were added. *)
Definition exhausted (s s0 : vm) (d K N : Z) : Prop := exists s1 pend, grown s0 d s1 pend /\ vfree s1 = [] /\ (length pend <= 1)%nat /\
  forall j, 0 <= j < 2 ^ 20 -> ~ (K <= j < N) -> ent s1 d j = ent s d j.

(** What [allocuvm] does to an address space that was made since [s0]. *)
Record alloc_result (s s0 : vm) (d : Z) (s' : vm) (K N r newsz : Z) : Prop := {
  ar_grown : exists s0', vfree s0' = vfree s0 /\ vpages s0' = vpages s0 /\ cr3 s0' = cr3 s0 /\ grown s0' d s' [];
  ar_old : forall j, 0 <= j < 2 ^ 20 -> ~ (K <= j < N) -> ent s' d j = ent s d j;
  ar_data : forall j, 0 <= j < 2 ^ 19 -> ~ (K <= j < N) -> present (ent s d j) = true -> vpages s' !! upage s d j = vpages s !! upage s d j;
  ar_res : r = newsz /\ zeroed s' d K N \/ r = 0 /\ (forall j, K <= j < N -> present (ent s' d j) = false) /\ exhausted s s0 d K N
}.

Lemma allocuvm_loop_grown fuel s s0 d s1 oldsz newsz k :
  growing s s0 d s1 (npages oldsz) k -> 0 <= oldsz -> newsz < KERNBASE -> npages oldsz <= k -> k <= Z.max (npages oldsz) (npages newsz) -> npages newsz - k <= Z.of_nat fuel ->
  (forall j, npages oldsz <= j < npages newsz -> present (ent s d j) = false) -> 0 <= newsz ->
  exists r s', allocuvm_loop kend junk fuel d oldsz newsz (k * 4096) s1 = Ret r s' /\ alloc_result s s0 d s' (npages oldsz) (npages newsz) r newsz.
Proof using Hkend.
  revert s1 k. induction fuel as [|fuel IH]; intros s1 k Hw Ho Hn Hk Hkn Hfu Hfresh Hn0; cbn [allocuvm_loop];
    assert (HN : 0 <= npages oldsz /\ npages newsz <= 2 ^ 19) by (unfold npages, KERNBASE in *; zlia); destruct (Z.ltb_spec (k * 4096) newsz) as [Hlt|Hge].
  1: exfalso; unfold npages in *; zlia.
  1, 3: assert (HkN : npages newsz <= k) by (unfold npages; zlia); exists newsz, s1; split; [rewrite s32_small by (unfold KERNBASE in *; lia); done|];
    destruct Hw as [W1 W2 W3 W4]; split; [by exists s0|intros j Hj Hx; apply W3; lia|intros j Hj Hx; apply W4; lia|left; split; [done|]; intros j Hj; apply W2; lia].
  assert (HkN : k < npages newsz) by (unfold npages; zlia). assert (Holt : oldsz < newsz) by (unfold npages in *; zlia). pose proof Hw as [W1 W2 W3 W4].
  destruct (vfree s1) as [|p l1] eqn:El.
  { rewrite (bind_ret _ _ _ _ _ (kalloc_empty junk s1 El)). cbn [Z.eqb].
    destruct (alloc_undo s s0 d s1 [] oldsz newsz k "allocuvm out of memory" W1) as (s3 & E3 & G3 & N3 & O3 & D3); [lia|lia|lia|done|done|done|].
    erewrite bind_ret; [|reflexivity]. fold (logged s1 "allocuvm out of memory"). rewrite (bind_ret _ _ _ _ _ E3). exists 0, s3. split; [done|].
    split; [by exists (logged s0 "allocuvm out of memory")|done|done|right]. split; [done|]. split; [done|].
    exists s1, []. split_and!; [done|done|cbn; lia|]. intros j Hj Hx. apply W3; lia. }
  rewrite (bind_ret _ _ _ _ _ (vkalloc_ok junk s1 p l1 El)). destruct (fr_page _ _ (gr_free _ _ _ _ _ W1) p) as [Hv _]; [rewrite El; apply list_elem_of_here|].
  destruct (vpage_range kend Hkend p Hv) as [_ Hpos]. replace (p =? 0) with false by (unfold KERNBASE in *; lia).
  assert (E1 : zero_page p (with_page (s1 <| vfree := l1 |>) p (junk p)) = Ret tt (with_page (s1 <| vfree := l1 |>) p (replicate 4096 0))).
  { unfold zero_page. rewrite (set_page_ok _ p (junk p)) by (by rewrite with_page_lookup, decide_True). f_equal. apply with_page_twice. }
  rewrite (bind_ret _ _ _ _ _ E1). destruct (growing_step s s0 d s1 (npages oldsz) k p l1 Hw) as (r & s2 & Hr & Hres); [lia|lia|apply Hfresh; lia|done|].
  rewrite (bind_ret _ _ _ _ _ Hr). destruct Hres as [[-> Hw2]|(-> & Hg2 & Hnil & He2 & Hd2)]; cbn [Z.ltb Z.compare].
  - rewrite u32_small by (unfold PGSIZE, KERNBASE in *; lia). unfold PGSIZE. replace (k * 4096 + 4096) with ((k + 1) * 4096) by lia. apply IH; try done; lia.
  - destruct (alloc_undo s s0 d s2 [p] oldsz newsz k "allocuvm out of memory (2)" Hg2) as (s3 & E3 & G3 & N3 & O3 & D3); [lia|lia|lia|done|intros j Hj Hx; by rewrite He2, W3|done|].
    erewrite bind_ret; [|reflexivity]. fold (logged s2 "allocuvm out of memory (2)"). rewrite (bind_ret _ _ _ _ _ E3).
    destruct (gr_pend _ _ _ _ _ G3 p (list_elem_of_here _ _)) as (_ & Hpo & dp & Hdp & _). 
    destruct (grown_kfree kend Hkend _ d s3 p G3) as (s4 & E4 & G4). rewrite (bind_ret _ _ _ _ _ E4). exists 0, s4. split; [done|].
    assert (Hs4 : forall q, q <> p -> vpages s4 !! q = vpages s3 !! q).
    { destruct (kfree_freed kend Hkend s3 p dp (gr_free _ _ _ _ _ G3) Hv Hdp) as (s4' & E4' & [_ _ F3 _]). rewrite E4 in E4'. injection E4' as <-. intros q Hq. rewrite F3, decide_False; [done|by rewrite list_elem_of_singleton]. }
    destruct (space_agree kend s3 s4 d (gr_space _ _ _ _ _ G3)) as (_ & _ & He4 & _). { intros q Hq. apply Hs4. intros ->. done. }
    split; [by exists (logged s0 "allocuvm out of memory (2)")|intros j Hj Hx; by rewrite He4, O3| |right; split; [done|]; split; [intros j Hj; rewrite He4 by lia; by apply N3|]].
    2: { exists s2, [p]. split_and!; [done|done|cbn; lia|]. intros j Hj Hx. rewrite He2 by lia. apply W3; lia. }
    intros j Hj Hx Hp. rewrite Hs4; [by apply D3|]. intros E. apply Hpo. rewrite <- E. replace (upage s d j) with (upage s3 d j) by (unfold upage; by rewrite O3 by lia).
    apply owned_user; [done|]. by rewrite O3 by lia.
Qed.

Lemma allocuvm_grown s s0 d oldsz newsz : grown s0 d s [] -> 0 <= oldsz <= newsz -> newsz < KERNBASE ->
  (forall j, npages oldsz <= j < npages newsz -> present (ent s d j) = false) ->
  exists r s', allocuvm kend junk d oldsz newsz s = Ret r s' /\ alloc_result s s0 d s' (npages oldsz) (npages newsz) r newsz.
Proof using Hkend.
  intros Hg Hsz Hn Hfr. unfold allocuvm. replace (newsz >=? KERNBASE) with false by lia. replace (newsz <? oldsz) with false by lia.
  rewrite PGROUNDUP_eq by (unfold PGSIZE, KERNBASE in *; lia). unfold PGSIZE. replace (oldsz + 4096 - 1) with (oldsz + 4095) by lia. fold (npages oldsz).
  apply allocuvm_loop_grown; try done; try (unfold npages, KERNBASE in *; zlia). split; [done|intros j Hj; lia|done|done].
Qed.

(** The new pages and page tables were all that was free. *)
Lemma exhausted_count s s0 d l K N : space_ok s d -> free_ok s -> vfree s0 = l ++ vfree s -> 0 <= K <= N -> N <= 2 ^ 19 -> exhausted s s0 d K N ->
  Z.of_nat (length (vfree s)) <= 1026 + (N - K).
Proof using.
  intros Hs Hf Hl HK HN (s1 & pend & G & Hnil & Hp & He). assert (Hc : Z.of_nat (length (vfree s)) <= 1025 + (N - K) + Z.of_nat (length pend)); [|lia].
  apply (page_count s1 d); [lia|apply Hf|]. intros q Hq. assert (Hq0 : q ∈ vfree s0) by (rewrite Hl; apply elem_of_app; by right).
  apply (gr_own _ _ _ _ _ G) in Hq0 as [H|[[->|[Ht|(j & Hj & Hpj & E)]]|H]]; [rewrite Hnil in H; by apply elem_of_nil in H|by left|by right; left| |by right; right; right].
  right; right; left. exists j. split; [|done]. destruct (decide (K <= j < N)) as [|Hout]; [done|]. exfalso. unfold upage in E. rewrite He in Hpj, E by lia.
  destruct (owned_data _ _ _ q Hs) as (_ & x & Hx & _); [right; right; exists j; by unfold upage|]. by apply (alloc_not_free _ s q x Hf Hx).
Qed.

(** ** copyout *)

(** The byte at user address [a]. *)
Definition ubyte (s : vm) (d a : Z) : option Z :=
  if present (ent s d (a / 4096)) then vpages s !! upage s d (a / 4096) ≫= fun pg => pg !! Z.to_nat (a mod 4096) else None.

(** The page is mapped for the user. *)
Definition access (e : Z) : bool := present e && negb (Z.land e PTE_U =? 0).

(** [uwrote s d s' va bs]: the bytes [bs] were written at [va], and nothing else. *)
Record uwrote (s : vm) (d : Z) (s' : vm) (va : Z) (bs : list Z) : Prop := {
  uw_space : space_ok s' d;
  uw_tab : forall i, tab s' d i = tab s d i;
  uw_ent : forall k, 0 <= k < 2 ^ 20 -> ent s' d k = ent s d k;
  uw_free : vfree s' = vfree s;
  uw_byte : forall a, 0 <= a < KERNBASE -> ubyte s' d a = if (va <=? a) && (a <? va + Z.of_nat (length bs)) then bs !! Z.to_nat (a - va) else ubyte s d a;
  uw_rest : forall q, ~ upages s d 0 (2 ^ 19) q -> vpages s' !! q = vpages s !! q;
  uw_misc : vlog s' = vlog s /\ cr3 s' = cr3 s
}.

Lemma uwrote_nil s d va : space_ok s d -> uwrote s d s va [].
Proof using.
  intros Hs. split; try done.
  intros a Ha. cbn [length].
  destruct (Z.leb_spec va a), (Z.ltb_spec a (va + Z.of_nat 0)); try done; lia.
Qed.

Lemma uwrote_app s d s1 s2 va bs1 bs2 : uwrote s d s1 va bs1 -> uwrote s1 d s2 (va + Z.of_nat (length bs1)) bs2 -> uwrote s d s2 va (bs1 ++ bs2).
Proof using.
  intros [A1 A2 A3 A4 A5 A6 [A7 A8]] [B1 B2 B3 B4 B5 B6 [B7 B8]]. split; [done|intros i; by rewrite B2|intros k Hk; by rewrite B3, A3|congruence| | |split; congruence].
  - intros a Ha. rewrite B5, A5, length_app by done. set (n1 := length bs1) in *. set (n2 := length bs2) in *.
    destruct (Z.leb_spec va a), (Z.ltb_spec a (va + Z.of_nat n1)), (Z.leb_spec (va + Z.of_nat n1) a), (Z.ltb_spec a (va + Z.of_nat n1 + Z.of_nat n2)), (Z.ltb_spec a (va + Z.of_nat (n1 + n2)));
      try lia; cbn [andb]; try done.
    + rewrite lookup_app_l; [done|]. fold n1. lia.
    + rewrite lookup_app_r; fold n1; [f_equal; lia|lia].
  - intros q Hq. rewrite B6, A6; [done|done|]. intros (k & Hk & Hp & Hkq). apply Hq. exists k. unfold upage in *. by rewrite A3 in Hp, Hkq by lia.
Qed.

(** Writing inside one page. *)
Lemma write_page s d k pg o bs : space_ok s d -> 0 <= k < 2 ^ 19 -> present (ent s d k) = true -> vpages s !! upage s d k = Some pg -> 0 <= o -> o + Z.of_nat (length bs) <= 4096 ->
  uwrote s d (with_page s (upage s d k) (list_inserts (Z.to_nat o) bs pg)) (k * 4096 + o) bs.
Proof using junk.
  intros Hs Hk Hp Hpg Ho Hlen. set (q := upage s d k) in *. set (s' := with_page _ _ _).
  assert (Hs' : forall x, vpages s' !! x = if decide (x = q) then Some (list_inserts (Z.to_nat o) bs pg) else vpages s !! x) by (intros x; unfold s'; by rewrite with_page_lookup).
  destruct (sp_page _ _ _ Hs k Hk Hp) as (H1 & H2 & H3 & H4 & pg' & H5 & H6). fold q in H1, H2, H3, H4, H5. rewrite Hpg in H5. injection H5 as <-.
  destruct (dir_agree kend s s' d (sp_dir _ _ _ Hs)) as (Hd & Ht & He).
  { by rewrite Hs', decide_False by congruence. }
  { intros i t Hi E. rewrite Hs', decide_False; [done|]. intros ->. by apply (H4 i). }
  assert (Hu : forall j, 0 <= j < 2 ^ 19 -> upage s' d j = upage s d j) by (intros j Hj; unfold upage; by rewrite He by lia).
  split; [|done|done|done| | |done].
  - split; [done| |].
    + intros j Hj. rewrite He, Hu by lia. intros Hpj. destruct (sp_page _ _ _ Hs j Hj Hpj) as (Q1 & Q2 & Q3 & Q4 & Q5). split_and!; [done|done|done|by intros i Hi; rewrite Ht; apply Q4|].
      rewrite Hs'. case_decide; [|done]. eexists. split; [done|]. by rewrite length_inserts.
    + intros i j Hi Hj. rewrite !He, !Hu by lia. by apply (sp_inj _ _ _ Hs).
  - intros a Ha. unfold KERNBASE in Ha. unfold ubyte. rewrite He, Hu by zlia. destruct (Z.eq_dec (a / 4096) k) as [Eak|Hne].
    + rewrite Eak, Hp. fold q. rewrite Hs', decide_True, Hpg by done. cbn. destruct (decide (o <= a mod 4096 < o + Z.of_nat (length bs))) as [Hin|Hout].
      * replace ((k * 4096 + o <=? a) && (a <? k * 4096 + o + Z.of_nat (length bs))) with true by zlia. rewrite list_lookup_inserts by lia. f_equal. zlia.
      * replace ((k * 4096 + o <=? a) && (a <? k * 4096 + o + Z.of_nat (length bs))) with false by zlia. destruct (Z.lt_ge_cases (a mod 4096) o).
        -- by rewrite list_lookup_inserts_lt by zlia.
        -- by rewrite list_lookup_inserts_ge by zlia.
    + replace ((k * 4096 + o <=? a) && (a <? k * 4096 + o + Z.of_nat (length bs))) with false by zlia. destruct (present (ent s d (a / 4096))) eqn:Hpa; [|done].
      rewrite Hs', decide_False; [done|]. intros E. apply Hne. apply (sp_inj _ _ _ Hs); [zlia|done|done|done|done].
  - intros x Hx. rewrite Hs', decide_False; [done|]. intros ->. apply Hx. by exists k.
Qed.

Lemma uva2ka_ok s d k : space_ok s d -> 0 <= k < 2 ^ 19 -> tab s d (k / 1024) <> None ->
  uva2ka junk d (k * 4096) s = Ret (if access (ent s d k) then upage s d k else 0) s.
Proof using Hkend.
  intros Hs Hk Ht. unfold uva2ka, access. destruct (vpn_index k ltac:(lia)) as [EX ET]. rewrite (bind_ret _ _ _ _ _ (walk_ok kend Hkend junk s d (k * 4096) (sp_dir _ _ _ Hs))), EX, ET.
  destruct (tab s d (k / 1024)) as [t|] eqn:Et; [|done]. destruct (ent_word kend Hkend s d k t (sp_dir _ _ _ Hs) ltac:(lia) Et) as (_ & _ & _ & _ & Hvt & _ & Hldw).
  destruct (vpage_range kend Hkend t Hvt) as [_ Hpos]. replace (t + 4 * (k mod 1024) =? 0) with false by (unfold KERNBASE in *; zlia).
  rewrite (bind_ret _ _ _ _ _ Hldw), land_P. destruct (present (ent s d k)); [|done]. cbn [negb andb]. by destruct (Z.land (ent s d k) PTE_U =? 0).
Qed.

(** A page table that is missing is dereferenced. *)
Lemma uva2ka_null s d k : space_ok s d -> 0 <= k < 2 ^ 20 -> tab s d (k / 1024) = None -> uva2ka junk d (k * 4096) s = Undef.
Proof using Hkend.
  intros Hs Hk Ht. unfold uva2ka. destruct (vpn_index k Hk) as [EX ET]. by rewrite (bind_ret _ _ _ _ _ (walk_ok kend Hkend junk s d (k * 4096) (sp_dir _ _ _ Hs))), EX, Ht.
Qed.

Lemma copyout_loop_ok fuel s d va buf : space_ok s d -> 0 <= va -> va + Z.of_nat (length buf) <= KERNBASE -> (length buf <= fuel)%nat ->
  (forall a, va <= a < va + Z.of_nat (length buf) -> tab s d (a / 4096 / 1024) <> None) ->
  exists r n s', copyout_loop junk fuel d va buf s = Ret r s' /\ uwrote s d s' va (take n buf) /\ (n <= length buf)%nat /\
    (forall a, va <= a < va + Z.of_nat n -> access (ent s d (a / 4096)) = true) /\
    (r = 0 /\ n = length buf \/ r = -1 /\ (n < length buf)%nat /\ access (ent s d ((va + Z.of_nat n) / 4096)) = false).
Proof using Hkend.
  revert s va buf. induction fuel as [|fuel IH]; intros s va buf Hs Hva Hend Hfu Ht; destruct buf as [|b buf'].
  1, 3: exists 0, 0%nat, s; split; [done|]; split; [by apply uwrote_nil|]; split; [done|]; split; [intros a Ha; lia|by left].
  1: cbn in Hfu; lia.
  set (buf := b :: buf') in *. assert (Hlen : (1 <= length buf)%nat) by (cbn; lia). unfold KERNBASE in Hend. set (k := va / 4096).
  assert (Hk : 0 <= k < 2 ^ 19) by (unfold k; zlia). assert (Hkva : k * 4096 <= va < (k + 1) * 4096) by (unfold k; zlia).
  unfold buf at 1. cbn [copyout_loop]. fold buf. cbv zeta. rewrite PGROUNDDOWN_eq. replace (va - va mod 4096) with (k * 4096) by (unfold k; zlia).
  assert (Htk : tab s d (k / 1024) <> None) by (apply Ht; lia).
  rewrite (bind_ret _ _ _ _ _ (uva2ka_ok s d k Hs Hk Htk)). destruct (access (ent s d k)) eqn:Hacc.
  2: { exists (-1), 0%nat, s. split; [done|]. split; [by apply uwrote_nil|]. split; [lia|]. split; [intros a Ha; lia|]. right. split; [done|]. split; [lia|]. by rewrite Z.add_0_r. }
  assert (Hpr : present (ent s d k) = true) by (unfold access in Hacc; by apply andb_true_iff in Hacc as [? _]).
  destruct (sp_page _ _ _ Hs k Hk Hpr) as (Hv & _ & _ & _ & pg & Hpg & Hlpg). destruct (vpage_range kend Hkend _ Hv) as [Hal Hpos].
  replace (upage s d k =? 0) with false by (unfold KERNBASE in *; lia). unfold PGSIZE. set (n := Z.to_nat (Z.min (4096 - (va - k * 4096)) (Z.of_nat (length buf)))).
  assert (Hn : Z.of_nat n = Z.min (4096 - (va - k * 4096)) (Z.of_nat (length buf))) by (unfold n; lia).
  assert (Hst : st_bytes (upage s d k + (va - k * 4096)) (take n buf) s = Ret tt (with_page s (upage s d k) (list_inserts (Z.to_nat (va - k * 4096)) (take n buf) pg))).
  { unfold st_bytes. rewrite PGROUNDDOWN_eq. replace (upage s d k + (va - k * 4096) - _ mod _) with (upage s d k) by zlia. rewrite (bind_ret _ _ _ _ _ (get_page_ok s _ pg Hpg)).
    replace ((upage s d k + (va - k * 4096)) mod PGSIZE) with (va - k * 4096) by (unfold PGSIZE; zlia). by eapply set_page_ok. }
  rewrite (bind_ret _ _ _ _ _ Hst). set (s1 := with_page _ _ _).
  assert (Hln : length (take n buf) = n) by (rewrite length_take; lia).
  assert (Hw : uwrote s d s1 va (take n buf)). { pose proof (write_page s d k pg (va - k * 4096) (take n buf) Hs Hk Hpr Hpg ltac:(lia)) as W. replace (k * 4096 + (va - k * 4096)) with va in W by lia. apply W. rewrite Hln. lia. }
  assert (Hacc1 : forall a, va <= a < va + Z.of_nat n -> access (ent s d (a / 4096)) = true) by (intros a Ha; by replace (a / 4096) with k by (unfold k in *; zlia)).
  destruct (decide (n = length buf)) as [En|Hne].
  { replace (drop n buf) with (@nil Z) by (rewrite drop_ge by lia; done). exists 0, n, s1. split; [by destruct fuel|]. split; [done|]. split; [lia|]. split; [done|]. by left. }
  rewrite u32_small by lia. replace (k * 4096 + 4096) with (va + Z.of_nat n) by lia.
  destruct (IH s1 (va + Z.of_nat n) (drop n buf)) as (r & m & s2 & E2 & Hw2 & Hm & Hac2 & Hres); [apply Hw|lia|rewrite length_drop; unfold KERNBASE; lia|rewrite length_drop; lia| |].
  { intros a. rewrite length_drop, (uw_tab _ _ _ _ _ Hw). intros Ha. apply Ht. lia. }
  rewrite length_drop in *. exists r, (n + m)%nat, s2. split; [done|].
  assert (Ebuf : take (n + m) buf = take n buf ++ take m (drop n buf)).
  { rewrite <- (take_drop n buf) at 1. rewrite take_app_ge by (rewrite Hln; lia). do 2 f_equal. rewrite Hln. lia. }
  split; [rewrite Ebuf; eapply uwrote_app; [done|by rewrite Hln]|]. split; [lia|]. split.
  - intros a Ha. destruct (Z.lt_ge_cases a (va + Z.of_nat n)); [apply Hacc1; lia|]. rewrite <- (uw_ent _ _ _ _ _ Hw) by zlia. apply Hac2. lia.
  - destruct Hres as [[-> ->]|(-> & Hm2 & Hf2)]; [left; lia|right]. split; [done|]. split; [lia|]. rewrite (uw_ent _ _ _ _ _ Hw) in Hf2 by zlia. by replace (va + Z.of_nat (n + m)) with (va + Z.of_nat n + Z.of_nat m) by lia.
Qed.

(** ** The theorems *)

(** C15. [copyuvm], which fork uses: when the pages of the parent below [sz] are mapped,
    it returns a new address space in which each of them is mapped with the same
    flags to a page with the same contents, the rest of user memory is not mapped
    and the kernel is mapped as [setupkvm] does; all pages of the new address space
    were free, so that parent and child share none, and no page that was in use has
    changed.  It returns 0 only when not more than 1026 pages besides those of the parent
    are free, and then every page it had taken is free again. *)
Theorem copyuvm_copies kdata s pgdir sz :
  kdata mod 4096 = 0 -> KERNLINK < kdata < KERNBASE + PHYSTOP -> space_ok s pgdir -> free_ok s -> 0 <= sz <= KERNBASE ->
  (forall k, 0 <= k < npages sz -> present (ent s pgdir k) = true) ->
  exists r s', copyuvm kend kdata junk pgdir sz s = Ret r s' /\
    (r = 0 /\ restored s s' /\ Z.of_nat (length (vfree s)) <= 1026 + npages sz \/
     r <> 0 /\ space_ok s' r /\ (forall q, q ∉ vfree s -> vpages s' !! q = vpages s !! q) /\ (forall q, q ∈ vfree s <-> q ∈ vfree s' \/ owned s' r q) /\
     (forall k, 0 <= k < npages sz -> copied s pgdir s' r k) /\ (forall k, npages sz <= k < 2 ^ 19 -> ent s' r k = 0) /\
     (forall k, 2 ^ 19 <= k < 2 ^ 20 -> ent s' r k = kentry kdata k)).
Proof using Hkend.
  intros Hk1 Hk2 Hs Hf Hsz Hpr. unfold copyuvm. destruct (setupkvm_ok kend Hkend junk kdata (conj Hk1 Hk2) s Hf) as (d & s1 & E1 & [[-> Hr]|(Hd & Hg & He)]); rewrite (bind_ret _ _ _ _ _ E1).
  { exists 0, s1. split; [done|]. left. split; [done|]. split; [apply Hr|]. unfold npages in *. zlia. }
  rewrite (proj2 (Z.eqb_neq d 0) Hd). destruct (copyuvm_loop_ok (Z.to_nat (2 ^ 20)) s pgdir s1 d sz 0 (kentry kdata) Hs Hf) as (r & s2 & E2 & [[-> [C1 C2 C3 C4]]|[-> Hr]]);
    [|lia|done|unfold npages, KERNBASE in *; zlia|unfold npages, KERNBASE in *; zlia|done| |].
  - split; [done|intros j Hj; lia| |].
    + intros j Hj. rewrite He by lia. unfold kentry, KERNBASE, DEVSPACE, PHYSTOP. zdecide. done.
    + intros j Hj. by rewrite He by lia.
  - exists d, s2. split; [done|]. right. destruct C1 as [G1 G2 G3 G4 G5 G6]. split_and!; try done. intros q. rewrite G3, elem_of_nil. tauto.
  - exists 0, s2. split; [done|]. by left.
Qed.

(** C29. [allocuvm]: growing a process from [oldsz] to [newsz] bytes maps a page of zeros,
    writable by the user, at each page between and returns [newsz]; or, when
    not more than 1026 pages besides the new ones are free, it may return 0, with all the
    new pages unmapped and free again, only page tables being kept.  Either way the pages outside the range keep their entries and
    contents, and no page of anyone else changes. *)
Theorem allocuvm_grows s d oldsz newsz : space_ok s d -> free_ok s -> 0 <= oldsz <= newsz -> newsz < KERNBASE ->
  (forall k, npages oldsz <= k < npages newsz -> present (ent s d k) = false) ->
  exists r s', allocuvm kend junk d oldsz newsz s = Ret r s' /\ alloc_frame s d s' (npages oldsz) (npages newsz) /\
    (r = newsz /\ zeroed s' d (npages oldsz) (npages newsz) \/
     r = 0 /\ alloc_undone s d s' (npages oldsz) (npages newsz) /\ Z.of_nat (length (vfree s)) <= 1026 + (npages newsz - npages oldsz)).
Proof using Hkend.
  intros Hs Hf Hsz Hn Hfr. destruct (grown_of_space s d Hs Hf) as (s0 & l & Hg & Hl0 & Hl).
  destruct (allocuvm_grown s s0 d oldsz newsz Hg Hsz Hn Hfr) as (r & s' & E & [(s0' & A1 & A2 & _ & A3) B C D]). exists r, s'. split; [done|].
  destruct (alloc_frame_intro s0 s d s' l (npages oldsz) (npages newsz) Hf Hg Hl0 Hl) as [F1 F2]; [by exists s0'|done|done|]. split; [done|].
  destruct D as [D|(-> & D & Hex)]; [by left|right]. split; [done|]. assert (HN : 0 <= npages oldsz <= npages newsz /\ npages newsz <= 2 ^ 19) by (unfold npages, KERNBASE in *; zlia).
  split; [apply F2; [done|lia|lia]|]. apply (exhausted_count s s0 d l); [done|done|done|lia|lia|done].
Qed.

(** [freevm] gives back the page directory, its page tables and the user pages, each
    exactly once: it does not panic, and no other page changes. *)
Theorem freevm_frees_all s d : space_ok s d -> free_ok s ->
  exists s' l, freevm kend junk d s = Ret tt s' /\ NoDup l /\ (forall q, q ∈ l <-> owned s d q) /\ vfree s' = l ++ vfree s /\
    (forall q, owned s d q -> vpages s' !! q = None) /\ (forall q, ~ owned s d q -> vpages s' !! q = vpages s !! q).
Proof using Hkend.
  intros Hs Hf. destruct (freevm_ok kend Hkend junk s d Hs Hf) as (s' & l & E & [F1 F2 F3 F4] & Hl). exists s', l. split; [done|]. split_and!; [|done|done| |].
  - pose proof (fr_nodup _ _ F1) as Hn. rewrite F2 in Hn. by apply NoDup_app in Hn as [? _].
  - intros q Hq. rewrite F3, decide_True; [done|by apply Hl].
  - intros q Hq. rewrite F3, decide_False; [done|by rewrite Hl].
Qed.

(** [copyout] (used by exec for the arguments): when the page tables of the range
    are there, it writes the bytes in order up to the first page that the user cannot
    access, and nothing else; it returns 0 when all bytes are written and -1 when it
    met such a page. *)
Theorem copyout_writes s d va buf : space_ok s d -> 0 <= va -> va + Z.of_nat (length buf) <= KERNBASE ->
  (forall a, va <= a < va + Z.of_nat (length buf) -> tab s d (a / 4096 / 1024) <> None) ->
  exists r n s', copyout junk d va buf s = Ret r s' /\ uwrote s d s' va (take n buf) /\
    (forall a, va <= a < va + Z.of_nat n -> access (ent s d (a / 4096)) = true) /\
    (r = 0 /\ n = length buf \/ r = -1 /\ (n < length buf)%nat /\ access (ent s d ((va + Z.of_nat n) / 4096)) = false).
Proof using Hkend.
  intros Hs Hva Hend Ht. destruct (copyout_loop_ok (length buf) s d va buf Hs Hva Hend ltac:(lia) Ht) as (r & n & s' & E & Hw & _ & Ha & Hr). by exists r, n, s'.
Qed.
End User.

(** ** A small machine

    Ten free pages, and an address space with one user page made of them. *)
Definition demo_kend : Z := 0x80110000.
Definition demo_kdata : Z := 0x80108000.
Definition demo_vm : vm := Vm ∅ ((fun i => 0x80400000 + i * 4096) <$> seqZ 0 2000) 0 [].
Definition demo_junk (p : Z) : pagedata := replicate 4096 5.

Lemma demo_kend_ok : KERNBASE < demo_kend.
Proof. done. Qed.

Lemma demo_free : VmSpec.free_ok demo_kend demo_vm.
Proof.
  split.
  - apply NoDup_fmap_2; [intros i j H; lia|apply NoDup_seqZ].
  - intros p Hp. apply list_elem_of_fmap in Hp as (i & -> & Hi). apply elem_of_seqZ in Hi. split; [|done]. unfold page, V2P, u32, PGSIZE, demo_kend, KERNBASE, PHYSTOP. split_and!; zlia.
Qed.

Lemma demo_space : exists s d, VmSpec.space_ok demo_kend s d /\ VmSpec.free_ok demo_kend s /\ access (ent s d 0) = true /\
  (forall k, 1 <= k < 2 ^ 19 -> present (ent s d k) = false) /\ tab s d 0 <> None /\ Z.of_nat (length (vfree s)) = 1997.
Proof.
  set (d := 0x80400000). set (p := 0x80401000). set (l := (fun i => 0x80400000 + i * 4096) <$> seqZ 2 1998).
  assert (Hl : vfree demo_vm = d :: p :: l) by (vm_compute; reflexivity). assert (Hl1 : vfree (with_page (demo_vm <| vfree := p :: l |>) d (replicate 4096 0)) = p :: l) by reflexivity.
  destruct (grown_start demo_kend demo_vm d (p :: l) demo_free Hl) as [Hg He]. set (s1 := with_page _ _ _) in *.
  destruct (grown_add demo_kend demo_kend_ok demo_junk demo_vm d s1 0 6 p l (replicate 4096 0) Hg) as (r & s2 & E & _ & Hres); [lia|by rewrite He by lia|lia|done|done|].
  assert (Hr : (r, Z.of_nat (length (vfree s2))) = (0, 1997)).
  { assert (Hm : match mappages demo_junk d (0 * 4096) PGSIZE (V2P p) 6 (with_page (s1 <| vfree := l |>) p (replicate 4096 0)) with Ret r s2 => (r, Z.of_nat (length (vfree s2))) = (0, 1997) | _ => False end) by (vm_compute; reflexivity).
    by rewrite E in Hm. }
  injection Hr as -> Hlen. destruct Hres as [(_ & Hg2 & _ & He2)|(? & _)]; [|done]. exists s2, d.
  assert (E0 : ent s2 d 0 = 0x401007) by (rewrite He2 by lia; reflexivity).
  split_and!; [apply Hg2|apply Hg2|by rewrite E0| | |done].
  - intros k Hk. rewrite He2 by lia. replace (k =? 0) with false by lia. by rewrite He by lia.
  - intros Ht. unfold ent in E0. change (0 / 1024) with 0 in E0. by rewrite Ht in E0.
Qed.

Lemma copyuvm_copies_witness : exists s d, VmSpec.space_ok demo_kend s d /\ exists r s', copyuvm demo_kend demo_kdata demo_junk d 4096 s = Ret r s' /\ copied s d s' r 0.
Proof.
  destruct demo_space as (s & d & Hs & Hf & Ha & Hn & Ht & Hlen). exists s, d. split; [exact Hs|].
  destruct (copyuvm_copies demo_kend demo_kend_ok demo_junk demo_kdata s d 4096) as (r & s' & E & H); [done|done|exact Hs|exact Hf|done| |].
  - intros k Hk. change (npages 4096) with 1 in Hk. replace k with 0 by lia. unfold access in Ha. apply andb_true_iff in Ha as [Ha _]. exact Ha.
  - exists r, s'. split; [exact E|]. destruct H as [(_ & _ & H)|(_ & _ & _ & _ & H & _)]; [exfalso; rewrite Hlen in H; apply H; reflexivity|apply H; done].
Defined.

Lemma allocuvm_grows_witness : exists s d, VmSpec.space_ok demo_kend s d /\ exists r s', allocuvm demo_kend demo_junk d 4096 9000 s = Ret r s' /\ r = 9000.
Proof.
  destruct demo_space as (s & d & Hs & Hf & Ha & Hn & Ht & Hlen). exists s, d. split; [exact Hs|].
  destruct (allocuvm_grows demo_kend demo_kend_ok demo_junk s d 4096 9000) as (r & s' & E & _ & H); [exact Hs|exact Hf|done|done| |].
  - intros k Hk. change (npages 4096) with 1 in Hk. change (npages 9000) with 3 in Hk. apply Hn. lia.
  - exists r, s'. split; [exact E|]. destruct H as [[H _]|(_ & _ & H)]; [exact H|exfalso; rewrite Hlen in H; apply H; reflexivity].
Defined.

Lemma freevm_frees_all_witness : exists s d, VmSpec.space_ok demo_kend s d /\ exists s', freevm demo_kend demo_junk d s = Ret tt s'.
Proof.
  destruct demo_space as (s & d & Hs & Hf & Ha & Hn & Ht & Hlen). exists s, d. split; [exact Hs|].
  destruct (freevm_frees_all demo_kend demo_kend_ok demo_junk s d Hs Hf) as (s' & l & E & _). exists s'. exact E.
Defined.

Lemma copyout_writes_witness : exists s d, VmSpec.space_ok demo_kend s d /\ exists r n s', copyout demo_junk d 100 [1; 2; 3] s = Ret r s' /\ uwrote demo_kend s d s' 100 (take n [1; 2; 3]).
Proof.
  destruct demo_space as (s & d & Hs & Hf & Ha & Hn & Ht & Hlen). exists s, d. split; [exact Hs|].
  destruct (copyout_writes demo_kend demo_kend_ok demo_junk s d 100 [1; 2; 3] Hs) as (r & n & s' & E & Hw & _); [done|done| |].
  - intros a Hlt. cbn in Hlt. replace (a / 4096 / 1024) with 0 by zlia. exact Ht.
  - exists r, n, s'. split; [exact E|exact Hw].
Defined.
