(* ===== verification/Umalloc.v ===== *)
(** * Umalloc: umalloc.c

    The allocator of user programs: a circular list of free blocks in the order of
    their addresses, threaded through headers in the heap.  Memory is a map from the
    addresses of words to words; a header at [p] is the word [p] (the pointer) and the
    word [p + 4] (the size, in headers of 8 bytes).  [base] is the address of the
    static header, [grants old n] says whether the kernel has memory to grow the
    process from [old] by [n] bytes.  The theorem is that the blocks the program holds
    never overlap, that their contents are kept and that no byte of the heap is lost. *)

From S2P Require Import Prelude Kalloc.

Record heap := Heap { hwords : gmap Z Z; freep : Z; brk : Z }.
#[export] Instance eta_heap : Eta heap := fun r => Heap (hwords r) (freep r) (brk r).

Section Umalloc.
Context (base : Z) (grants : Z -> Z -> bool).

(** ** The code *)

Definition ld (a : Z) : M heap Z := w ← gets hwords; deref (w !! a).
Definition st (a v : Z) : M heap unit := _ ← ld a; modify (fun s => s <| hwords ::= <[a := v]> |>).

(** The fields of a header, and pointer arithmetic on headers. *)
Definition get_ptr (p : Z) : M heap Z := ld p.
Definition set_ptr (p v : Z) : M heap unit := st p v.
Definition get_size (p : Z) : M heap Z := ld (p + 4).
Definition set_size (p v : Z) : M heap unit := st (p + 4) v.
Definition hplus (p n : Z) : Z := u32 (p + 8 * n).

(** The loop of [free]: the free block after which [bp] belongs. *)
Fixpoint free_loop (fuel : nat) (bp p : Z) : M heap Z :=
  match fuel with
  | O => spin
  | S fuel =>
      next ← get_ptr p;
      if (p <? bp) && (bp <? next) then mret p
      else if (next <=? p) && ((p <? bp) || (bp <? next)) then mret p
      else free_loop fuel bp next
  end.

(** Joining the block with the one above it, and with the one below it. *)
Definition free_up (bp p : Z) : M heap unit :=
  bsize ← get_size bp;
  next ← get_ptr p;
  if hplus bp bsize =? next then
    nsize ← get_size next;
    set_size bp (u32 (bsize + nsize));;
    nn ← get_ptr next;
    set_ptr bp nn
  else set_ptr bp next.

Definition free_down (bp p : Z) : M heap unit :=
  psize ← get_size p;
  if hplus p psize =? bp then
    bsize' ← get_size bp;
    set_size p (u32 (psize + bsize'));;
    bnext ← get_ptr bp;
    set_ptr p bnext
  else set_ptr p bp.

Definition free (ap : Z) : M heap unit :=
  let bp := hplus ap (-1) in
  fuel ← gets brk;
  p0 ← gets freep;
  p ← free_loop (Z.to_nat fuel) bp p0;
  free_up bp p;;
  free_down bp p;;
  modify (fun s => s <| freep := p |>).

(** The system call ([sys_sbrk], [growproc]): the process has memory up to [brk], all of
    it words of 0 when it is new.  A negative [n] shrinks the process, unless the sum
    wraps around, and frees its pages from [PGROUNDUP new] on; a new size of 0 is
    reported as an error. *)
Definition zero_words (a n : Z) : gmap Z Z := list_to_map ((fun i => (a + 4 * i, 0)) <$> seqZ 0 (n / 4)).

Definition sbrk (n : Z) : M heap Z :=
  old ← gets brk;
  let new := u32 (old + n) in
  if 0 <? s32 n then
    if (new >=? KERNBASE) || negb (grants old n) then mret (2 ^ 32 - 1)
    else modify (fun s => s <| brk := new |> <| hwords ::= fun w => zero_words old n ∪ w |>);; mret old
  else if new >=? old then mret old
  else
    modify (fun s => s <| hwords ::= filter (fun x => x.1 < PGROUNDUP new) |>);;
    if new =? 0 then mret (2 ^ 32 - 1) else modify (fun s => s <| brk := new |>);; mret old.

Definition morecore (nu : Z) : M heap Z :=
  let nu := if nu <? 4096 then 4096 else nu in
  p ← sbrk (u32 (nu * 8));
  if p =? 2 ^ 32 - 1 then mret 0
  else
    set_size p nu;;
    free (hplus p 1);;
    gets freep.

(** A block that is large enough is taken, or the end of it. *)
Definition malloc_take (nunits prevp p size : Z) : M heap Z :=
  p' ← (if size =? nunits then
          next ← get_ptr p;
          set_ptr prevp next;;
          mret p
        else
          set_size p (u32 (size - nunits));;
          let p' := hplus p (u32 (size - nunits)) in
          set_size p' nunits;;
          mret p');
  modify (fun s => s <| freep := prevp |>);;
  mret (hplus p' 1).

(** The loop of [malloc]. *)
Fixpoint malloc_loop (fuel : nat) (nunits prevp p : Z) : M heap Z :=
  match fuel with
  | O => spin
  | S fuel =>
      size ← get_size p;
      if size >=? nunits then
        malloc_take nunits prevp p size
      else
        fp ← gets freep;
        if p =? fp then
          q ← morecore nunits;
          if q =? 0 then mret 0 else next ← get_ptr q; malloc_loop fuel nunits q next
        else
          next ← get_ptr p;
          malloc_loop fuel nunits p next
  end.

Definition malloc (nbytes : Z) : M heap Z :=
  let nunits := u32 (u32 (nbytes + 8 - 1) / 8 + 1) in
  fp ← gets freep;
  prevp ← (if fp =? 0 then
             set_ptr base base;; modify (fun s => s <| freep := base |>);; set_size base 0;; mret base
           else mret fp);
  fuel ← gets brk;
  p ← get_ptr prevp;
  malloc_loop (Z.to_nat fuel) nunits prevp p.
End Umalloc.

(** ** The free list *)

Notation block := (Z * Z)%type.

(** The address the last block points to is [e]. *)
Definition hd_addr (l : list block) (e : Z) : Z := match l with [] => e | (a, _) :: _ => a end.

Fixpoint nodes (w : gmap Z Z) (l : list block) (e : Z) : Prop :=
  match l with
  | [] => True
  | (a, n) :: r => w !! a = Some (hd_addr r e) /\ w !! (a + 4) = Some n /\ nodes w r e
  end.

(** Ascending, with room between the blocks. *)
Fixpoint sorted (lo : Z) (l : list block) : Prop :=
  match l with
  | [] => True
  | (a, n) :: r => lo < a /\ 0 <= n /\ sorted (a + 8 * n) r
  end.

Definition cov (a n x : Z) : Prop := a <= x < a + 8 * n.
Definition covf (l : list block) (x : Z) : Prop := exists a n, (a, n) ∈ l /\ cov a n x.

Lemma hd_addr_app l1 l2 e : hd_addr (l1 ++ l2) e = hd_addr l1 (hd_addr l2 e).
Proof. by destruct l1 as [|[a n] l1]. Qed.

Lemma nodes_app w l1 l2 e : nodes w (l1 ++ l2) e <-> nodes w l1 (hd_addr l2 e) /\ nodes w l2 e.
Proof. induction l1 as [|[a n] l1 IH]; cbn; [tauto|]. rewrite IH, hd_addr_app. tauto. Qed.

Lemma nodes_frame w w' l e : nodes w l e -> (forall a n, (a, n) ∈ l -> w' !! a = w !! a /\ w' !! (a + 4) = w !! (a + 4)) -> nodes w' l e.
Proof.
  induction l as [|[a n] l IH]; [done|]. intros (H1 & H2 & H3) Hf. destruct (Hf a n (list_elem_of_here _ _)) as [E1 E2]. cbn. rewrite E1, E2. split_and!; [done|done|].
  apply IH; [done|]. intros b m Hb. apply (Hf b m). by apply list_elem_of_further.
Qed.

Lemma nodes_lookup w l e a n : nodes w l e -> (a, n) ∈ l -> w !! (a + 4) = Some n.
Proof. intros H (l1 & l2 & ->)%list_elem_of_split. apply nodes_app in H as [_ (_ & H & _)]. done. Qed.

(** The list can be entered anywhere. *)
Lemma nodes_rotate w l1 l2 d : nodes w (l1 ++ l2) (hd_addr (l1 ++ l2) d) -> nodes w (l2 ++ l1) (hd_addr (l2 ++ l1) d).
Proof.
  rewrite !nodes_app, !hd_addr_app. intros [H1 H2]. destruct l1 as [|[a n] l1], l2 as [|[b m] l2]; cbn [hd_addr app] in *; done.
Qed.

(** The end of the last block. *)
Fixpoint top (lo : Z) (l : list block) : Z := match l with [] => lo | (a, n) :: r => top (a + 8 * n) r end.

Lemma sorted_app lo l1 l2 : sorted lo (l1 ++ l2) <-> sorted lo l1 /\ sorted (top lo l1) l2.
Proof. revert lo. induction l1 as [|[a n] l1 IH]; intros lo; cbn [app sorted top]; [tauto|]. rewrite IH. tauto. Qed.

Lemma sorted_weaken lo lo' l : lo' <= lo -> sorted lo l -> sorted lo' l.
Proof. destruct l as [|[a n] l]; [done|]. cbn. intros ? (? & ? & ?). split_and!; [lia|done|done]. Qed.

Lemma sorted_above lo l a n : sorted lo l -> (a, n) ∈ l -> lo < a /\ 0 <= n.
Proof.
  revert lo. induction l as [|[b m] l IH]; intros lo Hs Hin; [by apply elem_of_nil in Hin|]. destruct Hs as (H1 & H2 & H3).
  apply elem_of_cons in Hin as [[= -> ->]|Hin]; [done|]. destruct (IH _ H3 Hin). split; lia.
Qed.

Lemma sorted_split lo l1 a n l2 : sorted lo (l1 ++ (a, n) :: l2) ->
  lo < a /\ 0 <= n /\ (forall b m, (b, m) ∈ l1 -> 0 <= m /\ b + 8 * m < a) /\ (forall b m, (b, m) ∈ l2 -> 0 <= m /\ a + 8 * n < b).
Proof.
  revert lo. induction l1 as [|[c k] l1 IH]; intros lo Hs; cbn [app sorted] in Hs; destruct Hs as (H1 & H2 & H3).
  - split_and!; [done|done|intros b m Hb; by apply elem_of_nil in Hb|]. intros b m Hb. destruct (sorted_above _ _ _ _ H3 Hb). split; lia.
  - destruct (IH _ H3) as (K1 & K2 & K3 & K4). split_and!; [lia|done| |done]. intros b m Hb. apply elem_of_cons in Hb as [[= -> ->]|Hb]; [split; lia|by apply K3].
Qed.

(** ** Loads and stores *)

Lemma ld_ok s a v : hwords s !! a = Some v -> ld a s = Ret v s.
Proof. intros H. unfold ld. msimp. by rewrite H. Qed.

Definition put (s : heap) (a v : Z) : heap := s <| hwords ::= <[a := v]> |>.

Lemma st_ok s a v : is_Some (hwords s !! a) -> st a v s = Ret tt (put s a v).
Proof. intros [x H]. unfold st. by rewrite (bind_ret _ _ _ _ _ (ld_ok s a x H)). Qed.

Lemma put_lookup s a v x : hwords (put s a v) !! x = if decide (x = a) then Some v else hwords s !! x.
Proof. cbn. case_decide; [subst; by rewrite lookup_insert_eq|by rewrite lookup_insert_ne]. Qed.

(** ** The loop of [free] *)

Lemma free_loop_up s base bp lo p pn l fuel : nodes (hwords s) ((p, pn) :: l) base -> sorted lo ((p, pn) :: l) -> base <= p -> p < bp ->
  (forall a n, (a, n) ∈ l -> a <> bp) -> (length l < fuel)%nat ->
  exists l1 q qn l2, (p, pn) :: l = l1 ++ (q, qn) :: l2 /\ free_loop fuel bp p s = Ret q s /\ q < bp /\ (forall a n, (a, n) ∈ l2 -> bp < a).
Proof.
  revert lo p pn fuel. induction l as [|[c m] l IH]; intros lo p pn fuel Hn Hs Hb Hp Hne Hf; destruct fuel as [|fuel]; try (cbn in Hf; lia); cbn [free_loop];
    unfold get_ptr; rewrite (bind_ret _ _ _ _ _ (ld_ok s p _ (proj1 Hn))); cbn [hd_addr].
  - exists [], p, pn, []. split; [done|]. split; [|split; [done|intros a n H; by apply elem_of_nil in H]].
    replace ((p <? bp) && (bp <? base)) with false by lia. by replace ((base <=? p) && ((p <? bp) || (bp <? base))) with true by lia.
  - destruct Hs as (H1 & H2 & Hs). pose proof Hs as (H3 & H4 & H5). pose proof (Hne c m (list_elem_of_here _ _)) as Hcb.
    destruct (Z.lt_ge_cases bp c) as [Hlt|Hge].
    + exists [], p, pn, ((c, m) :: l). split; [done|]. split; [by replace ((p <? bp) && (bp <? c)) with true by lia|]. split; [done|].
      intros a n Ha. apply elem_of_cons in Ha as [[= -> ->]|Ha]; [done|]. destruct (sorted_above _ _ _ _ H5 Ha). lia.
    + replace ((p <? bp) && (bp <? c)) with false by lia. replace ((c <=? p) && ((p <? bp) || (bp <? c))) with false by lia.
      destruct (IH (p + 8 * pn) c m fuel (proj2 (proj2 Hn)) Hs) as (l1 & q & qn & l2 & E & Hr & Hq & Hl2); [lia|lia|intros a n Ha; apply (Hne a n); by apply list_elem_of_further|cbn in Hf; lia|].
      exists ((p, pn) :: l1), q, qn, l2. split; [by rewrite E|done].
Qed.

Lemma free_loop_down s base bp lo p pn l fuel : nodes (hwords s) ((p, pn) :: l) base -> sorted lo ((p, pn) :: l) -> base <= p -> base < bp -> bp < p -> (length l < fuel)%nat ->
  free_loop fuel bp p s = free_loop (fuel - S (length l)) bp base s.
Proof.
  revert lo p pn fuel. induction l as [|[c m] l IH]; intros lo p pn fuel Hn Hs Hb Hbb Hp Hf; destruct fuel as [|fuel]; try (cbn in Hf; lia); cbn [free_loop];
    unfold get_ptr; rewrite (bind_ret _ _ _ _ _ (ld_ok s p _ (proj1 Hn))); cbn [hd_addr].
  - replace ((p <? bp) && (bp <? base)) with false by lia. replace ((base <=? p) && ((p <? bp) || (bp <? base))) with false by lia. cbn [length]. f_equal. lia.
  - destruct Hs as (H1 & H2 & Hs). pose proof Hs as (H3 & H4 & H5). replace ((p <? bp) && (bp <? c)) with false by lia. replace ((c <=? p) && ((p <? bp) || (bp <? c))) with false by lia.
    rewrite (IH (p + 8 * pn) c m fuel (proj2 (proj2 Hn)) Hs) by (cbn in Hf; lia). cbn [length]. f_equal. 
Qed.

(** The cycle that starts at the static header. *)
Definition cyc (base : Z) (fl : list block) : list block := (base, 0) :: fl.

Lemma free_loop_ok s base bp fl p fuel : nodes (hwords s) (cyc base fl) base -> sorted 0 (cyc base fl) -> base < bp -> (forall a n, (a, n) ∈ fl -> a <> bp) ->
  (exists n, (p, n) ∈ cyc base fl) -> (2 * length (cyc base fl) <= fuel)%nat ->
  exists l1 q qn l2, cyc base fl = l1 ++ (q, qn) :: l2 /\ free_loop fuel bp p s = Ret q s /\ q < bp /\ (forall a n, (a, n) ∈ l2 -> bp < a).
Proof.
  intros Hn Hs Hb Hne [n Hin] Hf.
  assert (Hup : forall fuel', (length fl < fuel')%nat -> exists l1 q qn l2, cyc base fl = l1 ++ (q, qn) :: l2 /\ free_loop fuel' bp base s = Ret q s /\ q < bp /\ (forall a n, (a, n) ∈ l2 -> bp < a)).
  { intros fuel' Hf'. by apply (free_loop_up s base bp 0 base 0 fl fuel'). }
  apply list_elem_of_split in Hin as (c1 & c2 & E). assert (Hge : base <= p).
  { destruct c1 as [|[a0 n0] c1]; injection E as E1; subst; [lia|]. destruct (sorted_above _ _ p n (proj2 (proj2 Hs))) as [? _]; [apply elem_of_app; right; apply list_elem_of_here|lia]. }
  rewrite E in Hn, Hs, Hf. apply nodes_app in Hn as [_ Hn]. apply sorted_app in Hs as [_ Hs]. rewrite length_app in Hf. cbn [length] in Hf.
  assert (Hlen : length fl = (length c1 + length c2)%nat) by (apply (f_equal length) in E; rewrite length_app in E; cbn in E; lia).
  destruct (Z.lt_trichotomy p bp) as [Hlt|[->|Hgt]].
  - destruct (free_loop_up s base bp _ p n c2 fuel Hn Hs Hge Hlt) as (l1 & q & qn & l2 & E2 & Hr & Hq & Hl2); [|lia|].
    + intros a m Ha Hab. destruct c1 as [|[a0 n0] c1]; injection E as E1; subst; (eapply Hne; [|reflexivity]); [exact Ha|]. apply elem_of_app. right. apply list_elem_of_further. exact Ha.
    + exists (c1 ++ l1), q, qn, l2. split; [by rewrite E, E2, app_assoc|done].
  - exfalso. destruct c1 as [|[a0 n0] c1]; injection E as E1; subst; [lia|]. eapply Hne; [|reflexivity]. apply elem_of_app. right. apply list_elem_of_here.
  - rewrite (free_loop_down s base bp _ p n c2 fuel Hn Hs Hge Hb Hgt) by lia. apply Hup. lia.
Qed.

(** ** Coalescing *)

Definition join_up (bp n : Z) (l : list block) : list block :=
  match l with
  | (c, m) :: l' => if bp + 8 * n =? c then (bp, n + m) :: l' else (bp, n) :: l
  | [] => [(bp, n)]
  end.

Definition join_down (p pn : Z) (l : list block) : list block :=
  match l with
  | (b, n) :: l' => if p + 8 * pn =? b then (p, pn + n) :: l' else (p, pn) :: l
  | [] => [(p, pn)]
  end.

(** Only the header at [b] changed. *)
Definition only_header (w w' : gmap Z Z) (b : Z) : Prop := forall x, x <> b -> x <> b + 4 -> w' !! x = w !! x.

Ltac words := repeat first [rewrite put_lookup|rewrite decide_True by lia|rewrite decide_False by lia].

Lemma free_up_ok s base bp n p l : hwords s !! p = Some (hd_addr l base) -> nodes (hwords s) l base -> hwords s !! (bp + 4) = Some n -> is_Some (hwords s !! bp) ->
  0 <= base < bp -> 1 <= n -> bp + 8 * n < 2 ^ 32 -> p + 8 <= bp \/ bp + 8 <= p -> (forall a m, (a, m) ∈ l -> bp + 8 * n <= a /\ 1 <= m /\ a + 8 * m < 2 ^ 32) ->
  exists s', free_up bp p s = Ret tt s' /\ nodes (hwords s') (join_up bp n l) base /\ only_header (hwords s) (hwords s') bp /\ freep s' = freep s /\ brk s' = brk s.
Proof.
  intros Hp Hl Hn [v Hv] Hb H1 Hmax Hpb Habove. unfold free_up, get_size, get_ptr, set_size, set_ptr. rewrite (bind_ret _ _ _ _ _ (ld_ok s _ _ Hn)), (bind_ret _ _ _ _ _ (ld_ok s _ _ Hp)).
  unfold hplus. rewrite u32_small by lia. destruct l as [|[c m] l]; cbn [hd_addr join_up].
  - replace (bp + 8 * n =? base) with false by lia. exists (put s bp base). rewrite st_ok by done. split; [done|]. split; [|split; [|done]].
    + cbn [nodes hd_addr]. words. done.
    + intros x Hx1 Hx2. by words.
  - destruct Hl as (L1 & L2 & L3). destruct (Habove c m (list_elem_of_here _ _)) as (A1 & A2 & A3). destruct (Z.eqb_spec (bp + 8 * n) c) as [Hc|Hc].
    + rewrite (bind_ret _ _ _ _ _ (ld_ok s _ _ L2)), (bind_ret _ _ _ _ _ (st_ok s (bp + 4) _ ltac:(eauto))). set (s1 := put s (bp + 4) _).
      assert (Ec : hwords s1 !! c = Some (hd_addr l base)) by (unfold s1; words; done). rewrite (bind_ret _ _ _ _ _ (ld_ok s1 _ _ Ec)).
      rewrite st_ok by (unfold s1; words; eauto). eexists. split; [done|]. split; [|split; [|done]].
      * cbn [nodes]. unfold s1. words. rewrite u32_small by lia. split_and!; [done|done|]. eapply nodes_frame; [exact L3|]. intros a k Ha.
        destruct (Habove a k) as (B1 & B2 & B3); [by apply list_elem_of_further|]. words. done.
      * intros x Hx1 Hx2. unfold s1. by words.
    + rewrite st_ok by eauto. eexists. split; [done|]. split; [|split; [|done]].
      * split; [cbn [hd_addr]; by words|]. split; [by words|]. apply (nodes_frame (hwords s)); [done|]. intros a k Ha. destruct (Habove a k Ha) as (B1 & B2 & B3). words. done.
      * intros x Hx1 Hx2. by words.
Qed.

Lemma free_down_ok s base bp n p pn l : hwords s !! (p + 4) = Some pn -> is_Some (hwords s !! p) -> nodes (hwords s) ((bp, n) :: l) base -> p + 8 <= bp -> 0 <= p ->
  0 <= pn -> 1 <= n -> p + 8 * pn <= bp -> bp + 8 * n < 2 ^ 32 -> (forall a m, (a, m) ∈ l -> bp + 8 <= a) ->
  exists s', free_down bp p s = Ret tt s' /\ nodes (hwords s') (join_down p pn ((bp, n) :: l)) base /\ only_header (hwords s) (hwords s') p /\ freep s' = freep s /\ brk s' = brk s.
Proof.
  intros Hpn [v Hv] Hl Hpb H0 Hpn0 H1 Hle Hmax Habove. unfold free_down, get_size, get_ptr, set_size, set_ptr. rewrite (bind_ret _ _ _ _ _ (ld_ok s _ _ Hpn)).
  unfold hplus. rewrite u32_small by lia. cbn [join_down]. pose proof Hl as (L1 & L2 & L3). destruct (Z.eqb_spec (p + 8 * pn) bp) as [Hc|Hc].
  - rewrite (bind_ret _ _ _ _ _ (ld_ok s _ _ L2)), (bind_ret _ _ _ _ _ (st_ok s (p + 4) _ ltac:(eauto))). set (s1 := put s (p + 4) _).
    assert (Ec : hwords s1 !! bp = Some (hd_addr l base)) by (unfold s1; words; done). rewrite (bind_ret _ _ _ _ _ (ld_ok s1 _ _ Ec)).
    rewrite st_ok by (unfold s1; words; eauto). eexists. split; [done|]. split; [|split; [|done]].
    + cbn [nodes]. unfold s1. words. rewrite u32_small by lia. split_and!; [done|done|]. eapply nodes_frame; [exact L3|]. intros a k Ha. pose proof (Habove a k Ha). words. done.
    + intros x Hx1 Hx2. unfold s1. by words.
  - rewrite st_ok by eauto. eexists. split; [done|]. split; [|split; [|done]].
    + split; [cbn [hd_addr]; by words|]. split; [by words|]. apply (nodes_frame (hwords s)); [done|]. intros a k Ha.
      apply elem_of_cons in Ha as [[= -> ->]|Ha]; [|pose proof (Habove a k Ha)]; words; done.
    + intros x Hx1 Hx2. by words.
Qed.

(** ** What coalescing does to the blocks *)

Lemma covf_nil x : ~ covf [] x.
Proof. intros (a & n & H & _). by apply elem_of_nil in H. Qed.

Lemma covf_cons a n l x : covf ((a, n) :: l) x <-> cov a n x \/ covf l x.
Proof.
  unfold covf. split.
  - intros (b & m & H & Hx). apply elem_of_cons in H as [[= -> ->]|H]; [by left|right; by exists b, m].
  - intros [H|(b & m & H & Hx)]; [exists a, n; split; [apply list_elem_of_here|done]|exists b, m; split; [by apply list_elem_of_further|done]].
Qed.

Lemma covf_app l1 l2 x : covf (l1 ++ l2) x <-> covf l1 x \/ covf l2 x.
Proof. induction l1 as [|[a n] l1 IH]; cbn [app]; [pose proof (covf_nil x); tauto|]. rewrite !covf_cons, IH. tauto. Qed.

Lemma cov_join a n m x : 0 <= n -> 0 <= m -> cov a (n + m) x <-> cov a n x \/ cov (a + 8 * n) m x.
Proof. unfold cov. lia. Qed.

(** A block put between a block and the list above it. *)
Record joined (p pn bp n : Z) (l l' : list block) : Prop := {
  jn_head : exists pn' r, l' = (p, pn') :: r /\ (forall b m, (b, m) ∈ r -> (b, m) ∈ l \/ b = bp /\ 1 <= m) /\ pn <= pn' /\ (p + 8 * pn < bp -> pn' = pn);
  jn_sorted : forall lo, lo < p -> sorted lo l';
  jn_cov : forall x, covf l' x <-> covf ((p, pn) :: l) x \/ cov bp n x;
  jn_big : exists a m, (a, m) ∈ l' /\ n <= m;
  jn_length : (length l' <= length l + 2)%nat
}.

Lemma join_ok p pn bp n l : 0 <= pn -> 1 <= n -> p + 8 * pn <= bp -> sorted (p + 8 * pn) l -> (forall a m, (a, m) ∈ l -> bp + 8 * n <= a /\ 1 <= m) ->
  joined p pn bp n l (join_down p pn (join_up bp n l)).
Proof.
  intros H0 H1 Hle Hs Habove.
  assert (Hup : exists n' r, join_up bp n l = (bp, n') :: r /\ (forall b m, (b, m) ∈ r -> (b, m) ∈ l) /\ n <= n' /\ sorted (bp + 8 * n') r /\
    (forall x, covf ((bp, n') :: r) x <-> covf l x \/ cov bp n x) /\ (length r <= length l)%nat).
  { destruct l as [|[c m] l]; cbn [join_up].
    - exists n, []. split_and!; try done. intros x. rewrite covf_cons. tauto.
    - destruct (Habove c m (list_elem_of_here _ _)) as [A1 A2]. destruct Hs as (S1 & S2 & S3). destruct (Z.eqb_spec (bp + 8 * n) c) as [Hc|Hc].
      + exists (n + m), l. split_and!; [done|intros b k Hb; by apply list_elem_of_further|lia| | |cbn; lia].
        * by replace (bp + 8 * (n + m)) with (c + 8 * m) by lia.
        * intros x. rewrite !covf_cons, cov_join, Hc by lia. tauto.
      + exists n, ((c, m) :: l). split_and!; [done|done|lia|cbn; split_and!; [lia|lia|done]| |done]. intros x. rewrite !covf_cons. tauto. }
  destruct Hup as (n' & r & -> & Hr & Hn' & Hsr & Hcov & Hlr). cbn [join_down]. destruct (Z.eqb_spec (p + 8 * pn) bp) as [Hc|Hc]; split.
  - exists (pn + n'), r. split_and!; [done|intros b m Hb; left; by apply Hr|lia|lia].
  - intros lo Hlo. cbn [sorted]. split_and!; [done|lia|]. by replace (p + 8 * (pn + n')) with (bp + 8 * n') by lia.
  - intros x. specialize (Hcov x). rewrite !covf_cons in *. rewrite cov_join, Hc by lia. tauto.
  - exists p, (pn + n'). split; [apply list_elem_of_here|lia].
  - cbn. lia.
  - exists pn, ((bp, n') :: r). split_and!; [done| |lia|done]. intros b m Hb. apply elem_of_cons in Hb as [[= -> ->]|Hb]; [right; split; [done|lia]|left; by apply Hr].
  - intros lo Hlo. cbn [sorted]. split_and!; [done|lia|lia|lia|done].
  - intros x. specialize (Hcov x). rewrite !covf_cons in *. tauto.
  - exists bp, n'. split; [apply list_elem_of_further, list_elem_of_here|done].
  - cbn. lia.
Qed.

(** ** The invariant *)

Section Spec.
Context (base heap0 : Z) (grants : Z -> Z -> bool).

(** [fl] are the free blocks, [al] the blocks of the program with their sizes, and the
    heap is the memory from [heap0] on. *)
Record heap_ok (s : heap) (fl : list block) (al : gmap Z Z) : Prop := {
  hk_nodes : nodes (hwords s) (cyc base fl) base;
  hk_sorted : sorted 0 (cyc base fl);
  hk_pos : forall a n, (a, n) ∈ fl -> 1 <= n;
  hk_freep : exists n, (freep s, n) ∈ cyc base fl;
  hk_size : forall a n, al !! a = Some n -> hwords s !! (a + 4) = Some n /\ 1 <= n;
  hk_disj : forall a n x, al !! a = Some n -> cov a n x -> ~ covf fl x;
  hk_apart : forall a n b m x, al !! a = Some n -> al !! b = Some m -> cov a n x -> cov b m x -> a = b;
  hk_cover : forall x, heap0 <= x < brk s <-> covf fl x \/ exists a n, al !! a = Some n /\ cov a n x;
  hk_align : forall a n, (a, n) ∈ fl \/ al !! a = Some n -> (a - heap0) mod 8 = 0;
  hk_mem : forall x, heap0 <= x < brk s -> (x - heap0) mod 4 = 0 -> is_Some (hwords s !! x);
  hk_brk : base + 8 <= heap0 <= brk s /\ brk s < KERNBASE /\ (brk s - heap0) mod 8 = 0
}.

Lemma cov_first a n : 1 <= n -> cov a n a.
Proof. unfold cov. lia. Qed.

Lemma fl_range s fl al a n : heap_ok s fl al -> (a, n) ∈ fl -> heap0 <= a /\ a + 8 * n <= brk s /\ 1 <= n.
Proof.
  intros H Hin. pose proof (hk_pos _ _ _ H a n Hin) as Hn. assert (H1 : heap0 <= a < brk s) by (apply (hk_cover _ _ _ H); left; exists a, n; split; [done|by apply cov_first]).
  assert (H2 : heap0 <= a + 8 * n - 1 < brk s) by (apply (hk_cover _ _ _ H); left; exists a, n; split; [done|unfold cov; lia]). lia.
Qed.

Lemma al_range s fl al a n : heap_ok s fl al -> al !! a = Some n -> heap0 <= a /\ a + 8 * n <= brk s /\ 1 <= n.
Proof.
  intros H Hin. destruct (hk_size _ _ _ H a n Hin) as [_ Hn]. assert (H1 : heap0 <= a < brk s) by (apply (hk_cover _ _ _ H); right; exists a, n; split; [done|by apply cov_first]).
  assert (H2 : heap0 <= a + 8 * n - 1 < brk s) by (apply (hk_cover _ _ _ H); right; exists a, n; split; [done|unfold cov; lia]). lia.
Qed.

Lemma top_length lo l hi : sorted lo l -> (forall a n, (a, n) ∈ l -> 1 <= n /\ a + 8 * n <= hi) -> lo <= hi -> lo + 8 * Z.of_nat (length l) <= hi.
Proof.
  revert lo. induction l as [|[a n] l IH]; intros lo Hs Hl Hlo; cbn [length]; [lia|]. destruct Hs as (H1 & H2 & H3). destruct (Hl a n (list_elem_of_here _ _)) as [L1 L2].
  assert (a + 8 * n + 8 * Z.of_nat (length l) <= hi) by (apply IH; [done|intros b m Hb; apply Hl; by apply list_elem_of_further|lia]). lia.
Qed.

Lemma fl_length s fl al : heap_ok s fl al -> 2 * Z.of_nat (length (cyc base fl)) + 4 <= brk s /\ 0 < base.
Proof.
  intros H. destruct (hk_sorted _ _ _ H) as (Hb & _ & Hs). destruct (hk_brk _ _ _ H) as (Hr & _). cbn [length cyc].
  assert (base + 8 * 0 + 8 * Z.of_nat (length fl) <= brk s); [|split; lia].
  apply top_length; [done| |lia]. intros a n Ha. destruct (fl_range _ _ _ _ _ H Ha). lia.
Qed.

(** ** free *)

(** The words of the program's blocks are kept. *)
Definition kept (al : gmap Z Z) (s s' : heap) : Prop := forall a n x, al !! a = Some n -> cov a n x -> hwords s' !! x = hwords s !! x.

Lemma cyc_split fl p pn l1 l2 : cyc base fl = l1 ++ (p, pn) :: l2 -> l1 = [] /\ p = base /\ pn = 0 /\ l2 = fl \/ exists l1', l1 = (base, 0) :: l1' /\ fl = l1' ++ (p, pn) :: l2.
Proof. destruct l1 as [|[a n] l1]; intros [= E]; [left|right]; subst; [done|]. by exists l1. Qed.

(** The place of a block of the program in the free list. *)
Lemma block_place s fl al a n p pn l1 l2 : heap_ok s fl al -> al !! a = Some n -> cyc base fl = l1 ++ (p, pn) :: l2 -> p < a -> (forall b m, (b, m) ∈ l2 -> a < b) ->
  p + 8 <= a /\ p + 8 * pn <= a /\ 0 <= pn /\ 0 <= p /\ (forall b m, (b, m) ∈ l2 -> a + 8 * n <= b /\ 1 <= m /\ b + 8 * m < 2 ^ 32) /\ (forall b m, (b, m) ∈ l1 -> b + 8 <= p).
Proof.
  intros H Ha E Hp Hl2. destruct (al_range _ _ _ _ _ H Ha) as (A1 & A2 & A3). destruct (hk_brk _ _ _ H) as (B1 & B2 & _). unfold KERNBASE in B2.
  assert (Hfl : forall b m, (b, m) ∈ fl -> b < a -> b + 8 * m <= a).
  { intros b m Hb Hlt. destruct (Z.lt_ge_cases a (b + 8 * m)); [|lia]. exfalso. apply (hk_disj _ _ _ H a n a Ha); [by apply cov_first|]. exists b, m. split; [done|]. unfold cov. lia. }
  assert (Habove : forall b m, (b, m) ∈ fl -> a < b -> a + 8 * n <= b /\ 1 <= m /\ b + 8 * m < 2 ^ 32).
  { intros b m Hb Hlt. destruct (fl_range _ _ _ _ _ H Hb) as (R1 & R2 & R3). split_and!; [|done|lia]. destruct (Z.lt_ge_cases b (a + 8 * n)); [|lia]. exfalso.
    apply (hk_disj _ _ _ H a n b Ha); [unfold cov; lia|]. exists b, m. split; [done|by apply cov_first]. }
  assert (H0 : 0 < base) by (destruct (hk_sorted _ _ _ H) as [? _]; lia).
  destruct (cyc_split _ _ _ _ _ E) as [(-> & -> & -> & ->)|(l1' & -> & ->)].
  - split_and!; try lia; [intros b m Hb; apply Habove; [done|by apply (Hl2 b m)]|intros b m Hb; by apply elem_of_nil in Hb].
  - assert (Hpin : (p, pn) ∈ l1' ++ (p, pn) :: l2) by (apply elem_of_app; right; apply list_elem_of_here). destruct (fl_range _ _ _ _ _ H Hpin) as (R1 & R2 & R3).
    pose proof (Hfl p pn Hpin Hp). split_and!; try lia.
    + intros b m Hb. apply Habove; [|by apply (Hl2 b m)]. apply elem_of_app. right. by apply list_elem_of_further.
    + intros b m Hb. apply elem_of_cons in Hb as [[= -> ->]|Hb]; [lia|].
      destruct (hk_sorted _ _ _ H) as (_ & _ & Hs). destruct (sorted_split _ _ _ _ _ Hs) as (_ & _ & Hl & _). destruct (Hl b m Hb).
      pose proof (hk_pos _ _ _ H b m). assert ((b, m) ∈ l1' ++ (p, pn) :: l2) by (apply elem_of_app; by left). intuition lia.
Qed.

Lemma join_up_form bp n l : 1 <= n -> (forall b m, (b, m) ∈ l -> bp + 8 * n <= b /\ 1 <= m /\ b + 8 * m < 2 ^ 32) -> bp + 8 * n < 2 ^ 32 ->
  exists n' r, join_up bp n l = (bp, n') :: r /\ n <= n' /\ bp + 8 * n' < 2 ^ 32 /\ forall b m, (b, m) ∈ r -> bp + 8 <= b.
Proof.
  intros Hn Hl Hmax. destruct l as [|[c m] l]; cbn [join_up].
  - exists n, []. split_and!; [done|lia|lia|]. intros b m Hb. by apply elem_of_nil in Hb.
  - destruct (Hl c m (list_elem_of_here _ _)) as (L1 & L2 & L3). destruct (Z.eqb_spec (bp + 8 * n) c).
    + exists (n + m), l. split_and!; [done|lia|lia|]. intros b k Hb. destruct (Hl b k); [by apply list_elem_of_further|lia].
    + exists n, ((c, m) :: l). split_and!; [done|lia|lia|]. intros b k Hb. destruct (Hl b k Hb). lia.
Qed.

(** The words that [free] leaves. *)
Lemma free_words s fl al a n : heap_ok s fl al -> al !! a = Some n ->
  exists s' p pn l1 l2, free (a + 8) s = Ret tt s' /\ cyc base fl = l1 ++ (p, pn) :: l2 /\ p < a /\ (forall b m, (b, m) ∈ l2 -> a < b) /\
    nodes (hwords s') (l1 ++ join_down p pn (join_up a n l2)) base /\ (forall x, x <> a -> x <> a + 4 -> x <> p -> x <> p + 4 -> hwords s' !! x = hwords s !! x) /\
    (forall x, is_Some (hwords s !! x) -> is_Some (hwords s' !! x)) /\ freep s' = p /\ brk s' = brk s.
Proof.
  intros H Ha. destruct (al_range _ _ _ _ _ H Ha) as (A1 & A2 & A3). destruct (hk_brk _ _ _ H) as (B1 & B2 & _). unfold KERNBASE in B2. destruct (fl_length _ _ _ H) as [Hlen Hb0].
  unfold free, hplus. replace (u32 (a + 8 + 8 * -1)) with a by (rewrite u32_small; lia). cbv zeta. erewrite bind_ret; [|reflexivity]. erewrite bind_ret; [|reflexivity].
  destruct (free_loop_ok s base a fl (freep s) (Z.to_nat (brk s)) (hk_nodes _ _ _ H) (hk_sorted _ _ _ H)) as (l1 & p & pn & l2 & E & Hr & Hp & Hl2); [lia| |apply H|lia|].
  { intros b m Hb ->. apply (hk_disj _ _ _ H a n a Ha); [by apply cov_first|]. exists a, m. split; [done|]. apply cov_first. by apply (hk_pos _ _ _ H a). }
  rewrite (bind_ret _ _ _ _ _ Hr). destruct (block_place _ _ _ _ _ _ _ _ _ H Ha E Hp Hl2) as (P1 & P2 & P3 & P4 & P5 & P6).
  pose proof (hk_nodes _ _ _ H) as Hn. rewrite E in Hn. apply nodes_app in Hn as [Hn1 (Hnp & Hnpn & Hn2)]. destruct (hk_size _ _ _ H a n Ha) as [Hsz _].
  assert (Hmem : is_Some (hwords s !! a)) by (apply (hk_mem _ _ _ H); [lia|]; pose proof (hk_align _ _ _ H a n (or_intror Ha)); zlia).
  destruct (free_up_ok s base a n p l2 Hnp Hn2 Hsz Hmem) as (s1 & E1 & N1 & O1 & F1 & K1); [lia|lia|lia|lia|done|]. rewrite (bind_ret _ _ _ _ _ E1).
  destruct (join_up_form a n l2 A3 P5 ltac:(lia)) as (n' & r & Ej & J1 & J2 & J3). rewrite Ej in N1.
  destruct (free_down_ok s1 base a n' p pn r) as (s2 & E2 & N2 & O2 & F2 & K2); [rewrite O1 by lia; done|rewrite O1 by lia; by eexists|done|lia|lia|lia|lia|lia|lia|done|].
  rewrite (bind_ret _ _ _ _ _ E2), <- Ej in *. exists (s2 <| freep := p |>), p, pn, l1, l2. split; [done|]. split; [done|]. split; [done|]. split; [done|].
  assert (Hfr : forall x, x <> a -> x <> a + 4 -> x <> p -> x <> p + 4 -> hwords s2 !! x = hwords s !! x) by (intros x X1 X2 X3 X4; by rewrite O2, O1).
  assert (Hdom : forall x, is_Some (hwords s !! x) -> is_Some (hwords s2 !! x)).
  { rewrite Ej in N1, N2. intros x Hx. destruct (decide (x = p \/ x = p + 4)) as [Hxp|Hxp].
    - cbn [join_down] in N2. destruct (p + 8 * pn =? a); cbn [nodes] in N2; destruct N2 as (Q1 & Q2 & _), Hxp as [-> | ->]; eauto.
    - destruct N1 as (Q1 & Q2 & _). rewrite O2 by lia. destruct (decide (x = a)) as [->|]; [eauto|]. destruct (decide (x = a + 4)) as [->|]; [eauto|]. by rewrite O1. }
  split; [|split; [done|split; [done|split; [done|cbn; congruence]]]]. cbn [hwords freep setf]. apply nodes_app. split; [|done]. rewrite Ej. 
  replace (hd_addr (join_down p pn ((a, n') :: r)) base) with p by (cbn; by destruct (_ =? _)). eapply nodes_frame; [exact Hn1|]. intros b m Hb. pose proof (P6 b m Hb). split; apply Hfr; lia.
Qed.

Lemma covf_cyc fl x : covf (cyc base fl) x <-> covf fl x.
Proof. unfold cyc. rewrite covf_cons. unfold cov. intuition lia. Qed.

(** The free list of which the cycle is made. *)
Lemma joined_cyc s fl al a n p pn l1 l2 : heap_ok s fl al -> al !! a = Some n -> cyc base fl = l1 ++ (p, pn) :: l2 -> p < a -> (forall b m, (b, m) ∈ l2 -> a < b) ->
  exists fl', cyc base fl' = l1 ++ join_down p pn (join_up a n l2) /\ sorted 0 (cyc base fl') /\ (exists n, (p, n) ∈ cyc base fl') /\ (forall x, covf fl' x <-> covf fl x \/ cov a n x) /\
    (forall b m, (b, m) ∈ fl' -> 1 <= m /\ ((exists m', (b, m') ∈ fl) \/ b = a)) /\ (exists b m, (b, m) ∈ fl' /\ n <= m) /\ (length fl' <= length fl + 1)%nat.
Proof.
  intros H Ha E Hp Hl2. destruct (al_range _ _ _ _ _ H Ha) as (A1 & A2 & A3). destruct (block_place _ _ _ _ _ _ _ _ _ H Ha E Hp Hl2) as (P1 & P2 & P3 & P4 & P5 & P6).
  pose proof (hk_sorted _ _ _ H) as Hs. rewrite E in Hs. apply sorted_app in Hs as [Hs1 (Hs2 & Hs3 & Hs4)].
  destruct (join_ok p pn a n l2 P3 A3 P2 Hs4) as [(pn' & r & EJ & Hr & Hpn & Hpn') Jsorted Jcov (ba & bm & Hbin & Hbm) Jlen]; [intros b m Hb; destruct (P5 b m Hb); intuition lia|].
  set (J := join_down p pn (join_up a n l2)) in *. specialize (Jsorted (top 0 l1) Hs2).
  assert (Hfl : exists fl', cyc base fl' = l1 ++ J /\ (forall b m, (b, m) ∈ fl' -> 1 <= m /\ ((exists m', (b, m') ∈ fl) \/ b = a))).
  { destruct (cyc_split _ _ _ _ _ E) as [(-> & -> & -> & ->)|(l1' & -> & ->)].
    - exists r. rewrite EJ, Hpn' by lia. split; [done|]. intros b m Hb. destruct (Hr b m Hb) as [Hin|[-> ?]]; [split; [by apply (hk_pos _ _ _ H b)|left; eauto]|by split; [|right]].
    - exists (l1' ++ J). split; [done|]. assert (Hin' : forall b m, (b, m) ∈ l1' \/ (b, m) ∈ l2 \/ (b, m) = (p, pn) -> (b, m) ∈ l1' ++ (p, pn) :: l2).
      { intros b m Hb. rewrite elem_of_app, elem_of_cons. tauto. }
      pose proof (hk_pos _ _ _ H p pn (Hin' p pn ltac:(tauto))). intros b m Hb. apply elem_of_app in Hb as [Hb|Hb].
      + split; [apply (hk_pos _ _ _ H b), Hin'; tauto|]. left. exists m. apply Hin'. tauto.
      + rewrite EJ in Hb. apply elem_of_cons in Hb as [[= -> ->]|Hb]; [split; [lia|left; exists pn; apply Hin'; tauto]|].
        destruct (Hr b m Hb) as [Hin|[-> ?]]; [split; [apply (hk_pos _ _ _ H b), Hin'; tauto|left; exists m; apply Hin'; tauto]|by split; [|right]]. }
  destruct Hfl as (fl' & Ecyc & Hfl). exists fl'. rewrite Ecyc. split_and!; [done| | | |done| |].
  - apply sorted_app. done.
  - exists pn'. rewrite EJ. apply elem_of_app. right. apply list_elem_of_here.
  - intros x. rewrite <- (covf_cyc fl'), <- (covf_cyc fl), Ecyc, E, !covf_app, Jcov. tauto.
  - exists ba, bm. split; [|done]. assert (Hb : (ba, bm) ∈ cyc base fl') by (rewrite Ecyc; apply elem_of_app; by right). apply elem_of_cons in Hb as [[= -> ->]|Hb]; [lia|done].
  - apply (f_equal length) in Ecyc, E. rewrite length_app in *. cbn [length cyc] in *. lia.
Qed.

Lemma free_ok s fl al a n : heap_ok s fl al -> al !! a = Some n ->
  exists s' fl', free (a + 8) s = Ret tt s' /\ heap_ok s' fl' (delete a al) /\ brk s' = brk s /\ kept (delete a al) s s' /\
    (exists b m, (b, m) ∈ fl' /\ n <= m) /\ (length fl' <= length fl + 1)%nat.
Proof.
  intros H Ha. destruct (free_words s fl al a n H Ha) as (s' & p & pn & l1 & l2 & Er & E & Hp & Hl2 & Hn & Hfr & Hdom & Hfp & Hbrk).
  destruct (joined_cyc _ _ _ _ _ _ _ _ _ H Ha E Hp Hl2) as (fl' & Ec & Hs & Hpin & Hcov & Hfl & Hbig & Hlen). destruct (hk_size _ _ _ H a n Ha) as [_ Hn1]. exists s', fl'.
  assert (Hpcov : forall b m x, delete a al !! b = Some m -> cov b m x -> x <> a /\ x <> a + 4 /\ x <> p /\ x <> p + 4).
  { intros b m x Hb Hx. apply lookup_delete_Some in Hb as [Hne Hb]. destruct (al_range _ _ _ _ _ H Hb) as (R1 & _). destruct (hk_brk _ _ _ H) as (K1 & _).
    assert (Hax : ~ cov a n x) by (intros Hax; apply Hne; by apply (hk_apart _ _ _ H a n b m x)). unfold cov in Hax, Hx. split; [lia|]. split; [lia|].
    destruct (cyc_split _ _ _ _ _ E) as [(_ & -> & _)|(l1' & _ & Efl)]; [lia|]. assert (Hpf : (p, pn) ∈ fl) by (rewrite Efl; apply elem_of_app; right; apply list_elem_of_here).
    pose proof (hk_pos _ _ _ H p pn Hpf). assert (Hd : ~ covf fl x) by (by apply (hk_disj _ _ _ H b m)).
    split; intros ->; apply Hd; exists p, pn; (split; [done|unfold cov; lia]). }
  assert (Hkept : kept (delete a al) s s') by (intros b m x Hb Hx; destruct (Hpcov b m x Hb Hx) as (X1 & X2 & X3 & X4); by apply Hfr).
  split; [done|]. split; [|done]. split.
  - by rewrite Ec.
  - done.
  - intros b m Hb. by apply (Hfl b).
  - by rewrite Hfp.
  - intros b m Hb. pose proof Hb as Hb'. apply lookup_delete_Some in Hb' as [_ Hb']. destruct (hk_size _ _ _ H b m Hb') as [S1 S2]. split; [|done]. rewrite (Hkept b m); [done|done|unfold cov; lia].
  - intros b m x Hb Hx. rewrite Hcov. apply lookup_delete_Some in Hb as [Hne Hb]. intros [Hf|Hf]; [by apply (hk_disj _ _ _ H b m x)|]. apply Hne. by apply (hk_apart _ _ _ H a n b m x).
  - intros b m c k x Hb Hc. apply lookup_delete_Some in Hb as [_ Hb], Hc as [_ Hc]. by apply (hk_apart _ _ _ H).
  - intros x. rewrite Hbrk, Hcov, (hk_cover _ _ _ H). split.
    + intros [?|(b & m & Hb & Hx)]; [tauto|]. destruct (decide (b = a)) as [->|Hne]; [left; right; congruence|]. right. exists b, m. split; [by rewrite lookup_delete_ne|done].
    + intros [[?|?]|(b & m & Hb & Hx)]; [tauto|right; by exists a, n|]. apply lookup_delete_Some in Hb as [_ Hb]. right. by exists b, m.
  - intros b m [Hb|Hb]; [|apply lookup_delete_Some in Hb as [_ Hb]; apply (hk_align _ _ _ H b m); by right]. destruct (Hfl b m Hb) as [_ [[m' Hm]| ->]]; [apply (hk_align _ _ _ H b m'); by left|apply (hk_align _ _ _ H a n); by right].
  - intros x. rewrite Hbrk. intros Hx Hm. by apply Hdom, (hk_mem _ _ _ H).
  - rewrite Hbrk. apply H.
Qed.

(** ** sbrk and morecore *)

Lemma zero_words_lookup a n x : 0 <= n -> n mod 4 = 0 -> zero_words a n !! x = if decide (a <= x < a + n /\ (x - a) mod 4 = 0) then Some 0 else None.
Proof.
  intros Hn Hm. unfold zero_words. case_decide as Hd.
  - apply elem_of_list_to_map_1.
    + rewrite <- list_fmap_compose. apply NoDup_fmap_2; [intros i j E; cbn in E; lia|apply NoDup_seqZ].
    + apply list_elem_of_fmap. exists ((x - a) / 4). split; [f_equal; zlia|]. apply elem_of_seqZ. zlia.
  - apply not_elem_of_list_to_map_1. intros Hin. apply Hd. apply list_elem_of_fmap in Hin as ([y v] & -> & Hin). apply list_elem_of_fmap in Hin as (i & [= -> ->] & Hi).
    apply elem_of_seqZ in Hi. cbn. split; zlia.
Qed.

(** More memory is a new block of the program's. *)
Definition more (s : heap) (nu : Z) : heap := Heap (<[brk s + 4 := nu]> (zero_words (brk s) (8 * nu) ∪ hwords s)) (freep s) (brk s + 8 * nu).

Lemma more_ok s fl al nu : heap_ok s fl al -> 1 <= nu -> brk s + 8 * nu < KERNBASE -> al !! brk s = None /\ heap_ok (more s nu) fl (<[brk s := nu]> al) /\ kept al s (more s nu).
Proof.
  intros H Hnu Hmax. unfold more.
  set (b := brk s) in *. destruct (hk_brk _ _ _ H) as (K1 & K2 & K3). fold b in K1, K2, K3.
  assert (Hlow : forall x, x < b -> (<[b + 4 := nu]> (zero_words b (8 * nu) ∪ hwords s)) !! x = hwords s !! x).
  { intros x Hx. rewrite lookup_insert_ne by lia. rewrite lookup_union_r; [done|]. rewrite zero_words_lookup, decide_False; [done|lia|lia|zlia]. }
  assert (Hnone : al !! b = None).
  { destruct (al !! b) as [m|] eqn:Eb; [|done]. exfalso. destruct (al_range _ _ _ _ _ H Eb) as (R1 & R2 & R3). fold b in R2. lia. }
  assert (Halr : forall a n x, al !! a = Some n -> cov a n x -> heap0 <= x < b).
  { intros a n x Ha Hx. apply (hk_cover _ _ _ H). right. by exists a, n. }
  split; [done|]. split; [|intros a n x Ha Hx; cbn; apply Hlow; destruct (Halr a n x Ha Hx); lia]. split; cbn [hwords freep brk].
  - eapply nodes_frame; [apply H|]. intros a n Ha. assert (a + 4 < b); [|split; apply Hlow; lia]. apply elem_of_cons in Ha as [[= -> ->]|Ha]; [lia|]. destruct (fl_range _ _ _ _ _ H Ha) as (R1 & R2 & R3). fold b in R2. lia.
  - apply H.
  - apply H.
  - apply H.
  - intros a n Ha. apply lookup_insert_Some in Ha as [[<- <-]|[Hne Ha]]; [split; [apply lookup_insert_eq|done]|]. destruct (hk_size _ _ _ H a n Ha) as [S1 S2]. split; [|done].
    destruct (al_range _ _ _ _ _ H Ha) as (R1 & R2 & R3). fold b in R2. rewrite Hlow by lia. done.
  - intros a n x Ha Hx Hf. assert (Hr : heap0 <= x < b) by (apply (hk_cover _ _ _ H); by left). apply lookup_insert_Some in Ha as [[<- <-]|[Hne Ha]]; [unfold cov in Hx; lia|]. by apply (hk_disj _ _ _ H a n x).
  - intros a n c m x Ha Hc Hx1 Hx2. apply lookup_insert_Some in Ha as [[<- <-]|[Hne Ha]], Hc as [[<- <-]|[Hne' Hc]]; [done| | |by apply (hk_apart _ _ _ H a n c m x)].
    + destruct (Halr c m x Hc Hx2). unfold cov in Hx1. lia.
    + destruct (Halr a n x Ha Hx1). unfold cov in Hx2. lia.
  - intros x. split.
    + intros Hx. destruct (Z.lt_ge_cases x b).
      * destruct (proj1 (hk_cover _ _ _ H x)) as [?|(a & n & Ha & Hc)]; [fold b; lia|by left|]. right. exists a, n. split; [|done]. rewrite lookup_insert_ne; [done|congruence].
      * right. exists b, nu. split; [apply lookup_insert_eq|unfold cov; lia].
    + intros [Hf|(a & n & Ha & Hc)]; [assert (heap0 <= x < b) by (apply (hk_cover _ _ _ H); by left); lia|].
      apply lookup_insert_Some in Ha as [[<- <-]|[_ Ha]]; [unfold cov in Hc; lia|]. destruct (Halr a n x Ha Hc). lia.
  - intros a n [Ha|Ha]; [apply (hk_align _ _ _ H a n); by left|]. apply lookup_insert_Some in Ha as [[<- <-]|[_ Ha]]; [done|]. apply (hk_align _ _ _ H a n). by right.
  - intros x Hx Hm. destruct (Z.lt_ge_cases x b); [rewrite Hlow by done; apply (hk_mem _ _ _ H); fold b; [lia|done]|].
    destruct (decide (x = b + 4)) as [->|]; [rewrite lookup_insert_eq; by eexists|]. rewrite lookup_insert_ne by done.
    erewrite lookup_union_Some_l; [by eexists|]. rewrite zero_words_lookup, decide_True; [done|split; [lia|zlia]|lia|zlia].
  - split; [lia|]. split; [done|zlia].
Qed.

Lemma freep_pos s fl al : heap_ok s fl al -> freep s <> 0.
Proof.
  intros H. destruct (hk_freep _ _ _ H) as [n Hn]. pose proof (hk_sorted _ _ _ H) as Hs. destruct (sorted_above _ _ _ _ Hs Hn) as [Hp _]. lia.
Qed.

(** The kernel does not let the heap grow by the memory that [morecore] asks for. *)
Definition refuses (s : heap) (nunits : Z) : Prop :=
  let n := Z.max 4096 nunits * 8 in KERNBASE <= brk s + n \/ grants (brk s) n = false.

Lemma morecore_ok s fl al nunits : heap_ok s fl al -> 1 <= nunits -> 8 * nunits < 2 ^ 31 ->
  exists r s', morecore grants nunits s = Ret r s' /\
    (r = 0 /\ s' = s /\ refuses s nunits \/ exists fl', r = freep s' /\ r <> 0 /\ heap_ok s' fl' al /\ kept al s s' /\ (exists b m, (b, m) ∈ fl' /\ nunits <= m) /\ (length fl' <= length fl + 1)%nat).
Proof.
  intros H Hn Hmax. unfold morecore. set (nu := if nunits <? 4096 then 4096 else nunits). assert (Hnu : nunits <= nu /\ 1 <= nu /\ 8 * nu < 2 ^ 31) by (unfold nu; destruct (nunits <? 4096) eqn:?; lia).
  destruct (hk_brk _ _ _ H) as (K1 & K2 & K3). destruct (fl_length _ _ _ H) as [_ K0]. unfold KERNBASE in K2. unfold sbrk. rewrite !bind_assoc. erewrite bind_ret; [|reflexivity]. cbv zeta.
  rewrite (u32_small (nu * 8)) by lia. rewrite s32_small by lia. replace (0 <? nu * 8) with true by lia. rewrite u32_small by lia.
  destruct ((brk s + nu * 8 >=? KERNBASE) || negb (grants (brk s) (nu * 8))) eqn:Eg.
  { exists 0, s. split; [done|]. left. split_and!; [done|done|]. unfold refuses. replace (Z.max 4096 nunits) with nu by (unfold nu; destruct (nunits <? 4096) eqn:?; lia).
    apply orb_true_iff in Eg as [Eg|Eg]; [left; lia|right; by apply negb_true_iff]. }
  apply orb_false_iff in Eg as [Eg _]. assert (Hk : brk s + 8 * nu < KERNBASE) by lia. destruct (more_ok s fl al nu H ltac:(lia) Hk) as (Hnone & Hm & Hkm).
  rewrite bind_assoc. erewrite bind_ret; [|reflexivity]. rewrite ret_bind. replace (brk s =? 2 ^ 32 - 1) with false by lia.
  unfold set_size. erewrite bind_ret; [|apply st_ok; cbn; erewrite lookup_union_Some_l; [by eexists|rewrite zero_words_lookup, decide_True; [done|split; [lia|zlia]|lia|zlia]]].
  unfold put. cbn [hwords brk freep setf]. replace (nu * 8) with (8 * nu) by lia.
  match goal with |- context [(_ ≫= _) ?st] => change st with (more s nu) end.
  destruct (free_ok (more s nu) fl (<[brk s := nu]> al) (brk s) nu Hm) as (s' & fl' & Ef & Hok & Hbrk & Hkept & (b & m & Hb & Hbm) & Hlen); [apply lookup_insert_eq|].
  unfold hplus. replace (u32 (brk s + 8 * 1)) with (brk s + 8) by (rewrite u32_small; lia). rewrite (bind_ret _ _ _ _ _ Ef). exists (freep s'), s'. split; [done|]. right. exists fl'.
  rewrite delete_insert_id in Hok, Hkept by done. split_and!; [done|by eapply freep_pos|done| |exists b, m; split; [done|lia]|done].
  intros a n x Ha Hx. rewrite (Hkept a n x Ha Hx). by apply (Hkm a n).
Qed.

(** ** malloc *)

(** The last [k] units are cut off a block of [m]. *)
Definition carved (p m k : Z) : list block := if m =? k then [] else [(p, m - k)].

Lemma carve_ok lo u p m v k : sorted lo (u ++ (p, m) :: v) -> 1 <= k <= m ->
  let l' := u ++ carved p m k ++ v in
  sorted lo l' /\ (forall x, covf (u ++ (p, m) :: v) x <-> covf l' x \/ cov (p + 8 * (m - k)) k x) /\ (forall x, cov (p + 8 * (m - k)) k x -> ~ covf l' x) /\
  (forall b n, (b, n) ∈ l' -> (b, n) ∈ u ++ (p, m) :: v \/ b = p /\ 1 <= n).
Proof.
  intros Hs Hk l'. destruct (sorted_split _ _ _ _ _ Hs) as (_ & _ & Hu & Hv). pose proof Hs as Hs'. apply sorted_app in Hs' as [Hs1 (Hs2 & Hs3 & Hs4)]. unfold l', carved. destruct (Z.eqb_spec m k) as [->|Hne].
  - replace (p + 8 * (k - k)) with p by lia. cbn [app]. split_and!.
    + apply sorted_app. split; [done|]. eapply sorted_weaken; [|done]. lia.
    + intros x. rewrite !covf_app, covf_cons. tauto.
    + intros x Hx. rewrite covf_app. unfold cov in Hx. intros [(b & n & Hb & Hc)|(b & n & Hb & Hc)]; unfold cov in Hc; [destruct (Hu b n Hb)|destruct (Hv b n Hb)]; lia.
    + intros b n Hb. left. rewrite elem_of_app, elem_of_cons in *. tauto.
  - cbn [app]. split_and!.
    + apply sorted_app. split; [done|]. cbn. split_and!; [done|lia|]. eapply sorted_weaken; [|done]. lia.
    + intros x. rewrite !covf_app, !covf_cons. replace m with (m - k + k) at 1 by lia. rewrite cov_join by lia. tauto.
    + intros x Hx. rewrite covf_app, covf_cons. unfold cov in *. intros [(b & n & Hb & Hc)|[Hc|(b & n & Hb & Hc)]]; [destruct (Hu b n Hb)| |destruct (Hv b n Hb)]; unfold cov in *; lia.
    + intros b n Hb. rewrite elem_of_app, elem_of_cons in *. destruct Hb as [Hb|[[= -> ->]|Hb]]; [tauto|right; lia|tauto].
Qed.

(** The invariant after [k] units were cut off the block [p]: only words of free blocks
    and of the static header changed. *)
Lemma carve_heap s fl al s' u p m v k : heap_ok s fl al -> fl = u ++ (p, m) :: v -> 1 <= k <= m -> let a := p + 8 * (m - k) in
  nodes (hwords s') (cyc base (u ++ carved p m k ++ v)) base -> hwords s' !! (a + 4) = Some k -> (exists n, (freep s', n) ∈ cyc base (u ++ carved p m k ++ v)) -> brk s' = brk s ->
  (forall x, heap0 <= x -> ~ covf fl x -> hwords s' !! x = hwords s !! x) -> (forall x, is_Some (hwords s !! x) -> is_Some (hwords s' !! x)) ->
  al !! a = None /\ heap_ok s' (u ++ carved p m k ++ v) (<[a := k]> al) /\ kept al s s'.
Proof.
  intros H E Hk a Hn Ha Hfp Hbrk Hfr Hdom. destruct (hk_sorted _ _ _ H) as (S1 & S2 & S3). rewrite E in S3. destruct (carve_ok _ u p m v k S3 Hk) as (C1 & C2 & C3 & C4). fold a in C2, C3. rewrite <- E in C2, C4.
  set (fl' := u ++ carved p m k ++ v) in *.
  assert (Hpin : (p, m) ∈ fl) by (rewrite E; apply elem_of_app; right; apply list_elem_of_here).
  assert (Hacov : forall x, cov a k x -> covf fl x) by (intros x Hx; apply C2; by right).
  assert (Hnone : al !! a = None).
  { destruct (al !! a) as [n|] eqn:Ea; [|done]. exfalso. apply (hk_disj _ _ _ H a n a Ea); [apply cov_first; by apply (hk_size _ _ _ H a n)|apply Hacov, cov_first; lia]. }
  assert (Hkept : kept al s s').
  { intros b n x Hb Hx. apply Hfr; [|by apply (hk_disj _ _ _ H b n)]. assert (heap0 <= x < brk s) by (apply (hk_cover _ _ _ H); right; by exists b, n). lia. }
  split; [done|]. split; [|done]. split.
  - done.
  - split_and!; done.
  - intros b n Hb. destruct (C4 b n Hb) as [Hin|[_ ?]]; [by apply (hk_pos _ _ _ H b)|done].
  - done.
  - intros b n Hb. apply lookup_insert_Some in Hb as [[<- <-]|[_ Hb]]; [split; [done|lia]|]. destruct (hk_size _ _ _ H b n Hb) as [Z1 Z2]. split; [|done]. rewrite (Hkept b n); [done|done|unfold cov; lia].
  - intros b n x Hb Hx Hf. apply lookup_insert_Some in Hb as [[<- <-]|[_ Hb]]; [by apply (C3 x)|]. apply (hk_disj _ _ _ H b n x Hb Hx), C2. by left.
  - intros b n c j x Hb Hc Hx1 Hx2. apply lookup_insert_Some in Hb as [[<- <-]|[_ Hb]], Hc as [[<- <-]|[_ Hc]]; [done| | |by apply (hk_apart _ _ _ H b n c j x)]; exfalso.
    + apply (hk_disj _ _ _ H c j x Hc Hx2). by apply Hacov.
    + apply (hk_disj _ _ _ H b n x Hb Hx1). by apply Hacov.
  - intros x. rewrite Hbrk, (hk_cover _ _ _ H), C2. split.
    + intros [[?|Hx]|(b & n & Hb & Hx)]; [by left|right; exists a, k; split; [apply lookup_insert_eq|done]|]. right. exists b, n. split; [rewrite lookup_insert_ne; [done|congruence]|done].
    + intros [?|(b & n & Hb & Hx)]; [tauto|]. apply lookup_insert_Some in Hb as [[<- <-]|[_ Hb]]; [tauto|]. right. by exists b, n.
  - intros b n [Hb|Hb].
    + destruct (C4 b n Hb) as [Hin|[-> _]]; [apply (hk_align _ _ _ H b n); by left|apply (hk_align _ _ _ H p m); by left].
    + apply lookup_insert_Some in Hb as [[<- <-]|[_ Hb]]; [|apply (hk_align _ _ _ H b n); by right]. pose proof (hk_align _ _ _ H p m (or_introl Hpin)). unfold a. zlia.
  - intros x. rewrite Hbrk. intros Hx Hm. by apply Hdom, (hk_mem _ _ _ H).
  - rewrite Hbrk. apply H.
Qed.

Lemma cyc_far s fl al d1 q qn d2 : heap_ok s fl al -> cyc base fl = d1 ++ (q, qn) :: d2 -> (forall b n, (b, n) ∈ d1 -> b + 8 <= q) /\ (forall b n, (b, n) ∈ d2 -> q + 8 <= b /\ q + 8 * qn < b).
Proof.
  intros H E. destruct (hk_brk _ _ _ H) as (K1 & _). destruct (hk_sorted _ _ _ H) as (_ & _ & Hs). destruct (cyc_split _ _ _ _ _ E) as [(-> & -> & -> & ->)|(l1' & -> & Efl)].
  - split; [intros b n Hb; by apply elem_of_nil in Hb|]. intros b n Hb. destruct (fl_range _ _ _ _ _ H Hb). lia.
  - rewrite Efl in Hs. destruct (sorted_split _ _ _ _ _ Hs) as (_ & _ & Hl & Hr). assert (Hpos : forall b n, (b, n) ∈ l1' \/ (b, n) = (q, qn) -> heap0 <= b /\ 1 <= n).
    { intros b n Hb. assert (Hin : (b, n) ∈ fl) by (rewrite Efl, elem_of_app, elem_of_cons; tauto). destruct (fl_range _ _ _ _ _ H Hin). lia. }
    destruct (Hpos q qn ltac:(tauto)). split.
    + intros b n Hb. apply elem_of_cons in Hb as [[= -> ->]|Hb]; [lia|]. destruct (Hl b n Hb), (Hpos b n ltac:(tauto)). lia.
    + intros b n Hb. destruct (Hr b n Hb). lia.
Qed.

(** The block after which [p] comes. *)
Lemma pred_split s fl al pp pm p m : heap_ok s fl al -> (pp, pm) ∈ cyc base fl -> hwords s !! pp = Some p -> (p, m) ∈ fl ->
  exists d1 v, cyc base fl = d1 ++ (pp, pm) :: (p, m) :: v.
Proof.
  intros H Hpp Hw Hp. apply list_elem_of_split in Hpp as (d1 & d2 & E). pose proof (hk_nodes _ _ _ H) as Hn. rewrite E in Hn. apply nodes_app in Hn as [_ (N1 & N2 & N3)].
  rewrite Hw in N1. injection N1 as N1. destruct (fl_range _ _ _ _ _ H Hp) as (R1 & _). destruct (hk_brk _ _ _ H) as (K1 & _). destruct d2 as [|[c k] v]; cbn [hd_addr] in N1; [lia|]. subst c.
  exists d1, v. destruct N3 as (_ & N3 & _). pose proof (nodes_lookup _ _ _ p m (hk_nodes _ _ _ H) ltac:(by apply list_elem_of_further)) as Hm. congruence.
Qed.

Lemma malloc_take_ok s fl al pp pm p m k : heap_ok s fl al -> (pp, pm) ∈ cyc base fl -> hwords s !! pp = Some p -> (p, m) ∈ fl -> 1 <= k <= m ->
  exists s' fl' a, malloc_take k pp p m s = Ret (a + 8) s' /\ al !! a = None /\ heap_ok s' fl' (<[a := k]> al) /\ kept al s s'.
Proof.
  intros H Hpp Hw Hp Hk. destruct (pred_split _ _ _ _ _ _ _ H Hpp Hw Hp) as (d1 & v & E). destruct (fl_range _ _ _ _ _ H Hp) as (R1 & R2 & R3).
  destruct (hk_brk _ _ _ H) as (K1 & K2 & _). unfold KERNBASE in K2. destruct (fl_length _ _ _ H) as [_ K0].
  destruct (cyc_far _ _ _ _ _ _ _ H E) as [F1 F2]. assert (E' : cyc base fl = (d1 ++ [(pp, pm)]) ++ (p, m) :: v) by (by rewrite <- app_assoc). destruct (cyc_far _ _ _ _ _ _ _ H E') as [F3 F4].
  pose proof (hk_nodes _ _ _ H) as Hn. rewrite E in Hn. apply nodes_app in Hn as [N1 (N2 & N3 & N4 & N5 & N6)].
  assert (Hfl : exists u, fl = u ++ (p, m) :: v /\ forall l, cyc base (u ++ l) = d1 ++ (pp, pm) :: l).
  { destruct d1 as [|[b0 n0] d1]; injection E as E1; [subst; by exists []|]. exists (d1 ++ [(pp, pm)]). subst. split; [by rewrite <- app_assoc|]. intros l. by rewrite <- app_assoc. }
  destruct Hfl as (u & Efl & Hcyc). destruct (F2 p m (list_elem_of_here _ _)) as [F5 _].
  assert (Hpcov : forall x, cov p m x -> covf fl x) by (intros x Hx; by exists p, m).
  assert (Hppcov : heap0 <= pp -> covf fl pp).
  { intros Hle. apply elem_of_cons in Hpp as [[= -> ->]|Hpp]; [lia|]. exists pp, pm. split; [done|]. apply cov_first. by apply (hk_pos _ _ _ H pp). }
  exists (if m =? k then (put s pp (hd_addr v base)) <| freep := pp |> else (put (put s (p + 4) (m - k)) (p + 8 * (m - k) + 4) k) <| freep := pp |>), (u ++ carved p m k ++ v), (p + 8 * (m - k)).
  assert (Hset : forall h, hwords (h <| freep := pp |>) = hwords h) by done.
  unfold malloc_take, get_ptr, set_ptr, set_size, hplus. destruct (Z.eqb_spec m k) as [->|Hne].
  - replace (p + 8 * (k - k)) with p by lia. split.
    { rewrite !bind_assoc, (bind_ret _ _ _ _ _ (ld_ok s _ _ N4)), bind_assoc, (bind_ret _ _ _ _ _ (st_ok s pp _ ltac:(eauto))). rewrite ret_bind, u32_small by lia. erewrite bind_ret; [|reflexivity]. f_equal. }
    pose proof (carve_heap s fl al ((put s pp (hd_addr v base)) <| freep := pp |>) u p k v k H Efl ltac:(lia)) as C. replace (p + 8 * (k - k)) with p in C by lia. apply C; clear C.
    + unfold carved. rewrite Z.eqb_refl. cbn [app]. rewrite Hcyc, Hset. apply nodes_app. split; [eapply nodes_frame; [exact N1|]; intros b n Hb; pose proof (F1 b n Hb); rewrite ?Hset; words; done|].
      rewrite ?Hset. cbn [nodes]. words. split_and!; [done|done|]. eapply nodes_frame; [exact N6|]. intros b n Hb. pose proof (F4 b n Hb). words. done.
    + rewrite ?Hset. words. done.
    + exists pm. unfold carved. rewrite Z.eqb_refl. cbn [app]. rewrite Hcyc. apply elem_of_app. right. apply list_elem_of_here.
    + done.
    + intros x Hx Hnc. rewrite ?Hset. rewrite put_lookup, decide_False; [done|]. intros ->. by apply Hnc, Hppcov.
    + intros x Hx. rewrite ?Hset. rewrite put_lookup. case_decide; [by eexists|done].
  - set (a := p + 8 * (m - k)). assert (Ha4 : is_Some (hwords s !! (a + 4))) by (apply (hk_mem _ _ _ H); [lia|]; pose proof (hk_align _ _ _ H p m (or_introl Hp)); unfold a; zlia). split.
    { rewrite !bind_assoc, (bind_ret _ _ _ _ _ (st_ok s (p + 4) _ ltac:(eauto))). cbv zeta. rewrite !u32_small by (rewrite ?u32_small; lia). fold a. rewrite bind_assoc.
      erewrite bind_ret; [|apply st_ok; words; done]. rewrite ret_bind. erewrite bind_ret; [|reflexivity]. msimp. rewrite u32_small by lia. f_equal. }
    apply (carve_heap s fl); [done|done|lia|..]; fold a; cbn [freep brk setf].
    + unfold carved. rewrite (proj2 (Z.eqb_neq m k) Hne). cbn [app]. rewrite Hcyc. rewrite ?Hset. apply nodes_app. split.
      { eapply nodes_frame; [exact N1|]. intros b n Hb. pose proof (F1 b n Hb). words. done. }
      cbn [nodes hd_addr]. words. split_and!; [done|done|done|done|]. eapply nodes_frame; [exact N6|]. intros b n Hb. pose proof (F4 b n Hb). words. done.
    + rewrite ?Hset. words. done.
    + exists pm. rewrite Hcyc. apply elem_of_app. right. apply list_elem_of_here.
    + done.
    + intros x Hx Hnc. rewrite ?Hset. rewrite !put_lookup, !decide_False; [done| |]; intros ->; apply Hnc, Hpcov; unfold cov; lia.
    + intros x Hx. rewrite ?Hset. rewrite !put_lookup. repeat case_decide; [by eexists|by eexists|done].
Qed.

(** The loop of [malloc] after it went around once. *)
Definition again (fuel : nat) (k : Z) : M heap Z := q ← morecore grants k; if q =? 0 then mret 0 else next ← get_ptr q; malloc_loop grants fuel k q next.

(** The loop takes the first block that is large enough, or comes to [freep]. *)
Lemma malloc_walk s fl al k v q qn fn e fuel : heap_ok s fl al -> 1 <= k -> (q, qn) ∈ cyc base fl -> (forall a n, (a, n) ∈ v -> (a, n) ∈ cyc base fl /\ a <> freep s) -> (freep s, fn) ∈ cyc base fl ->
  nodes (hwords s) ((q, qn) :: v ++ [(freep s, fn)]) e -> (length v < fuel)%nat ->
  (exists pp pm p m, (pp, pm) ∈ cyc base fl /\ hwords s !! pp = Some p /\ (p, m) ∈ fl /\ k <= m /\ malloc_loop grants fuel k q (hd_addr (v ++ [(freep s, fn)]) e) s = malloc_take k pp p m s) \/
  (forall a n, (a, n) ∈ v \/ (a, n) = (freep s, fn) -> n < k) /\ malloc_loop grants fuel k q (hd_addr (v ++ [(freep s, fn)]) e) s = again (fuel - S (length v)) k s.
Proof.
  intros H Hk. revert q qn fuel. induction v as [|[a n] v IH]; intros q qn fuel Hq Hv Hfp Hn Hf; (destruct fuel as [|fuel]; [cbn in Hf; lia|]); cbn [app hd_addr malloc_loop]; unfold get_size.
  - destruct Hn as (N1 & N2 & N3 & N4 & _). cbn [app hd_addr] in N1. rewrite (bind_ret _ _ _ _ _ (ld_ok s _ _ N4)). destruct (Z.geb_spec fn k).
    + left. exists q, qn, (freep s), fn. split_and!; try done. apply elem_of_cons in Hfp as [[= _ ->]|?]; [lia|done].
    + right. split; [intros b m [Hb|[= -> ->]]; [by apply elem_of_nil in Hb|done]|]. erewrite bind_ret; [|reflexivity]. rewrite Z.eqb_refl. by rewrite Nat.sub_1_r.
  - destruct Hn as (N1 & N2 & N3 & N4 & N5). cbn [app hd_addr] in N1. destruct (Hv a n (list_elem_of_here _ _)) as [Ha Hne]. rewrite (bind_ret _ _ _ _ _ (ld_ok s _ _ N4)). destruct (Z.geb_spec n k).
    + left. exists q, qn, a, n. split_and!; try done. apply elem_of_cons in Ha as [[= _ ->]|?]; [lia|done].
    + erewrite bind_ret; [|reflexivity]. rewrite (proj2 (Z.eqb_neq _ _) Hne). unfold get_ptr. rewrite (bind_ret _ _ _ _ _ (ld_ok s _ _ N3)).
      destruct (IH a n fuel Ha) as [(pp & pm & p & m & Hres)|[Hsm Hres]]; [intros b m Hb; apply Hv; by apply list_elem_of_further|done|done|cbn in Hf; lia|left; by exists pp, pm, p, m|].
      right. split; [|exact Hres]. intros b m [Hb|Hb]; [|apply (Hsm b); by right]. apply elem_of_cons in Hb as [[= -> ->]|Hb]; [done|apply (Hsm b); by left].
Qed.

(** Once around the list. *)
Lemma malloc_around s fl al k fuel : heap_ok s fl al -> 1 <= k -> (length (cyc base fl) <= fuel)%nat ->
  exists next, hwords s !! freep s = Some next /\
  ((exists pp pm p m, (pp, pm) ∈ cyc base fl /\ hwords s !! pp = Some p /\ (p, m) ∈ fl /\ k <= m /\ malloc_loop grants fuel k (freep s) next s = malloc_take k pp p m s) \/
   (forall a n, (a, n) ∈ fl -> n < k) /\ malloc_loop grants fuel k (freep s) next s = again (fuel - length (cyc base fl)) k s).
Proof.
  intros H Hk Hf. destruct (hk_freep _ _ _ H) as [fn Hfp]. pose proof Hfp as Hfp'. apply list_elem_of_split in Hfp' as (c1 & c2 & E).
  pose proof (hk_nodes _ _ _ H) as Hn. destruct (cyc_far _ _ _ _ _ _ _ H E) as [F1 F2].
  assert (Hrot : nodes (hwords s) (((freep s, fn) :: c2) ++ c1) (freep s)).
  { pose proof (nodes_rotate (hwords s) c1 ((freep s, fn) :: c2) 0) as Hr. rewrite <- E in Hr. exact (Hr Hn). }
  set (v := c2 ++ c1). change (((freep s, fn) :: c2) ++ c1) with ((freep s, fn) :: v) in Hrot. pose proof Hrot as (N1 & N2 & N3).
  exists (hd_addr v (freep s)). split; [done|]. assert (Hlen : length (cyc base fl) = S (length v)) by (rewrite E; unfold v; rewrite !length_app; cbn; lia).
  destruct (malloc_walk s fl al k v (freep s) fn fn (hd_addr v (freep s)) fuel H Hk Hfp) as [(pp & pm & p & m & Hres)|[Hsm Hres]]; rewrite ?hd_addr_app in *; cbn [hd_addr] in *; [| | |lia| |].
  - intros a n Ha. unfold v in Ha. apply elem_of_app in Ha as [Ha|Ha]; (split; [rewrite E, elem_of_app, elem_of_cons; tauto|]); [destruct (F2 a n Ha)|pose proof (F1 a n Ha)]; lia.
  - done.
  - change ((freep s, fn) :: v ++ [(freep s, fn)]) with (((freep s, fn) :: v) ++ [(freep s, fn)]). apply nodes_app. split; [done|]. by split_and!.
  - left. by exists pp, pm, p, m.
  - right. rewrite Hlen. split; [|done]. intros a n Ha. apply (Hsm a n). assert (Hc : (a, n) ∈ cyc base fl) by (by apply list_elem_of_further).
    rewrite E in Hc. unfold v. rewrite elem_of_app, elem_of_cons in *. tauto.
Qed.

Lemma malloc_loop_ok s fl al k fuel : heap_ok s fl al -> 1 <= k -> 8 * k < 2 ^ 31 -> (2 * length (cyc base fl) + 1 <= fuel)%nat ->
  exists next r s', hwords s !! freep s = Some next /\ malloc_loop grants fuel k (freep s) next s = Ret r s' /\
    (r = 0 /\ s' = s /\ refuses s k \/ exists a fl', r = a + 8 /\ al !! a = None /\ heap_ok s' fl' (<[a := k]> al) /\ kept al s s').
Proof.
  intros H Hk Hmax Hf. destruct (malloc_around s fl al k fuel H Hk ltac:(lia)) as (next & Hnext & [(pp & pm & p & m & H1 & H2 & H3 & H4 & Em)|[_ Em]]); exists next; rewrite Em; clear Em.
  - destruct (malloc_take_ok s fl al pp pm p m k H H1 H2 H3 ltac:(lia)) as (s' & fl' & a & Hr & Ha & Hok & Hkept). exists (a + 8), s'. split; [done|]. split; [done|]. right. by exists a, fl'.
  - unfold again. destruct (morecore_ok s fl al k H Hk Hmax) as (r & s1 & Em & [(-> & -> & Hno)|(fl1 & -> & Hr0 & Hok1 & Hk1 & (b & bm & Hb & Hbm) & Hl1)]); rewrite (bind_ret _ _ _ _ _ Em).
    { exists 0, s. split; [done|]. split; [done|]. by left. }
    rewrite (proj2 (Z.eqb_neq _ _) Hr0). destruct (malloc_around s1 fl1 al k (fuel - length (cyc base fl)) Hok1 Hk) as (next1 & Hnext1 & Hres); [cbn [length cyc] in *; lia|].
    unfold get_ptr. rewrite (bind_ret _ _ _ _ _ (ld_ok s1 _ _ Hnext1)). destruct Hres as [(pp & pm & p & m & H1 & H2 & H3 & H4 & Et)|[Hsm _]]; [|exfalso; pose proof (Hsm b bm Hb); lia].
    rewrite Et. destruct (malloc_take_ok s1 fl1 al pp pm p m k Hok1 H1 H2 H3 ltac:(lia)) as (s' & fl' & a & Hr & Ha & Hok & Hkept). exists (a + 8), s'. split; [done|]. split; [done|]. right.
    exists a, fl'. split_and!; [done|done|done|]. intros c n x Hc Hx. rewrite (Hkept c n x Hc Hx). by apply (Hk1 c n).
Qed.

(** Before the first call the free list is not set up. *)
Record heap_init (s : heap) : Prop := {
  hi_freep : freep s = 0;
  hi_base : is_Some (hwords s !! base) /\ is_Some (hwords s !! (base + 4));
  hi_brk : brk s = heap0 /\ 0 < base /\ base + 8 <= heap0 /\ heap0 < KERNBASE
}.

Definition heap_st (s : heap) (al : gmap Z Z) : Prop := (exists fl, heap_ok s fl al) \/ heap_init s /\ al = ∅.

Definition units (nbytes : Z) : Z := (nbytes + 7) / 8 + 1.

Lemma malloc_ok s al nbytes : heap_st s al -> 0 <= nbytes <= 2 ^ 31 - 24 ->
  exists r s', malloc base grants nbytes s = Ret r s' /\
    (r = 0 /\ refuses s (units nbytes) /\ heap_st s' al /\ kept al s s' \/ exists a, r = a + 8 /\ al !! a = None /\ heap_st s' (<[a := units nbytes]> al) /\ kept al s s').
Proof.
  intros Hst Hn. unfold malloc. rewrite (u32_small (nbytes + 8 - 1)) by lia. replace (nbytes + 8 - 1) with (nbytes + 7) by lia. rewrite u32_small by zlia. fold (units nbytes). cbv zeta.
  assert (Hu : 1 <= units nbytes /\ 8 * units nbytes < 2 ^ 31) by (unfold units; zlia).
  assert (Hmain : forall s1 fl1, heap_ok s1 fl1 al -> kept al s s1 -> brk s1 = brk s -> exists r s', (fuel ← gets brk; p ← get_ptr (freep s1); malloc_loop grants (Z.to_nat fuel) (units nbytes) (freep s1) p) s1 = Ret r s' /\
    (r = 0 /\ refuses s (units nbytes) /\ heap_st s' al /\ kept al s s' \/ exists a, r = a + 8 /\ al !! a = None /\ heap_st s' (<[a := units nbytes]> al) /\ kept al s s')).
  { intros s1 fl1 H Hk1 Hb1. erewrite bind_ret; [|reflexivity]. destruct (fl_length _ _ _ H) as [Hlen _].
    destruct (malloc_loop_ok s1 fl1 al (units nbytes) (Z.to_nat (brk s1)) H) as (next & r & s' & Hnext & Hr & Hres); [lia|lia|lia|]. unfold get_ptr.
    rewrite (bind_ret _ _ _ _ _ (ld_ok s1 _ _ Hnext)). exists r, s'. split; [done|]. destruct Hres as [(-> & -> & Hno)|(a & fl' & -> & Ha & Hok & Hk)]; [left; split_and!; [done|unfold refuses in *; by rewrite Hb1 in Hno|left; by exists fl1|done]|right].
    exists a. split_and!; [done|done|left; by exists fl'|]. intros c n x Hc Hx. rewrite (Hk c n x Hc Hx). by apply (Hk1 c n). }
  destruct Hst as [[fl H]|[[I1 [I2 I3] (I4 & I5 & I6 & I7)] ->]].
  - erewrite bind_ret; [|reflexivity]. rewrite (proj2 (Z.eqb_neq _ _) (freep_pos _ _ _ H)). rewrite ret_bind. by apply (Hmain s fl).
  - erewrite bind_ret; [|reflexivity]. rewrite I1. cbn [Z.eqb]. unfold set_ptr, set_size. rewrite !bind_assoc, (bind_ret _ _ _ _ _ (st_ok s base base I2)). rewrite bind_assoc. erewrite bind_ret; [|reflexivity].
    rewrite bind_assoc. erewrite bind_ret; [|apply st_ok; change (hwords _) with (hwords (put s base base)); rewrite put_lookup, decide_False by lia; done]. rewrite ret_bind.
    set (s1 := put _ (base + 4) 0). change base with (freep s1). apply (Hmain s1 []); [|intros a n x Ha; by rewrite lookup_empty in Ha|done].
    assert (Hs1 : hwords s1 !! base = Some base /\ hwords s1 !! (base + 4) = Some 0).
    { unfold s1. rewrite !put_lookup. rewrite decide_False by lia. rewrite decide_True by lia. split; [|done]. change (hwords _) with (hwords (put s base base)). by rewrite put_lookup, decide_True. }
    split.
    + destruct Hs1 as [E1 E2]. split; [exact E1|]. split; [exact E2|done].
    + cbn. split_and!; [done|lia|done].
    + intros a n Ha. by apply elem_of_nil in Ha.
    + exists 0. apply list_elem_of_here.
    + intros a n Ha. by rewrite lookup_empty in Ha.
    + intros a n x Ha. by rewrite lookup_empty in Ha.
    + intros a n b m x Ha. by rewrite lookup_empty in Ha.
    + intros x. change (brk s1) with (brk s). rewrite I4. split; [lia|]. intros [Hx|(a & n & Ha & _)]; [by apply covf_nil in Hx|by rewrite lookup_empty in Ha].
    + intros a n [Ha|Ha]; [by apply elem_of_nil in Ha|by rewrite lookup_empty in Ha].
    + intros x. change (brk s1) with (brk s). lia.
    + change (brk s1) with (brk s). rewrite I4, Z.sub_diag. split_and!; [lia|lia|done|done].
Qed.

(** The program writes a word of a block of its own. *)
Lemma heap_store s al a k x v : heap_st s al -> al !! a = Some k -> a + 8 <= x < a + 8 * k -> is_Some (hwords s !! x) -> heap_st (put s x v) al.
Proof.
  intros [[fl H]|[_ ->]] Ha Hx Hm; [|by rewrite lookup_empty in Ha]. left. exists fl. destruct (al_range _ _ _ _ _ H Ha) as (R1 & R2 & R3). destruct (hk_brk _ _ _ H) as (K1 & _).
  assert (Hnf : ~ covf fl x) by (apply (hk_disj _ _ _ H a k x Ha); unfold cov; lia). destruct H as [H1 H2 H3 H4 H5 H6 H7 H8 H9 H10 H11]. split; try done.
  - eapply nodes_frame; [exact H1|]. intros b n Hb. assert (Hb' : x < b \/ b + 8 <= x).
    { apply elem_of_cons in Hb as [[= -> ->]|Hb]; [lia|]. pose proof (H3 b n Hb). destruct (decide (b <= x < b + 8)); [|lia]. exfalso. apply Hnf. exists b, n. split; [done|unfold cov; lia]. }
    destruct Hb'; words; done.
  - intros b n Hb. destruct (H5 b n Hb) as [Z1 Z2]. split; [|done]. rewrite put_lookup, decide_False; [done|]. intros E.
    assert (b = a) as -> by (apply (H7 b n a k x Hb Ha); unfold cov; lia). lia.
  - intros y Hy Hym. rewrite put_lookup. case_decide; [by eexists|by apply H10].
Qed.

(** ** A program and its heap

    [held] are the blocks the program has, by the pointers [malloc] returned, with
    the sizes it asked for.  It calls [malloc] and [free] and writes words of its
    blocks. *)
Inductive hstep : heap * gmap Z Z -> heap * gmap Z Z -> Prop :=
  | hs_malloc s held n r s' : 0 <= n <= 2 ^ 31 - 24 -> malloc base grants n s = Ret r s' -> hstep (s, held) (s', if r =? 0 then held else <[r := n]> held)
  | hs_free s held p n s' : held !! p = Some n -> free p s = Ret tt s' -> hstep (s, held) (s', delete p held)
  | hs_store s held p n x v : held !! p = Some n -> p <= x -> x + 4 <= p + n -> is_Some (hwords s !! x) -> hstep (s, held) (put s x v, held).

(** The allocator's blocks are those that are held. *)
Definition held_ok (held al : gmap Z Z) : Prop := forall a, al !! a = units <$> held !! (a + 8).

Lemma held_insert held al a n : held_ok held al -> held_ok (<[a + 8 := n]> held) (<[a := units n]> al).
Proof.
  intros H b. destruct (decide (a = b)) as [->|]; [by rewrite !lookup_insert_eq|]. rewrite !lookup_insert_ne by lia. apply H.
Qed.

Lemma held_delete held al a : held_ok held al -> held_ok (delete (a + 8) held) (delete a al).
Proof.
  intros H b. destruct (decide (a = b)) as [->|]; [by rewrite !lookup_delete_eq|]. rewrite !lookup_delete_ne by lia. apply H.
Qed.

Lemma held_lookup held al p n : held_ok held al -> held !! p = Some n -> al !! (p - 8) = Some (units n).
Proof. intros H Hp. rewrite H. replace (p - 8 + 8) with p by lia. by rewrite Hp. Qed.

Lemma malloc_not_null s al a k : heap_st s (<[a := k]> al) -> a + 8 <> 0.
Proof.
  intros [[fl H]|[_ E]].
  - destruct (al_range _ _ _ a k H (lookup_insert_eq _ _ _)) as (R1 & _). destruct (hk_brk _ _ _ H) as (K1 & _). destruct (hk_sorted _ _ _ H) as (K0 & _). lia.
  - exfalso. apply (f_equal (lookup a)) in E. rewrite lookup_insert_eq, lookup_empty in E. done.
Qed.

Lemma hstep_ok s held s' held' al : heap_st s al -> held_ok held al -> hstep (s, held) (s', held') -> exists al', heap_st s' al' /\ held_ok held' al'.
Proof.
  intros Hst Hh Hs. inversion Hs as [? ? n r ? Hn Hm|? ? p n ? Hp Hf|? ? p n x v Hp Hx1 Hx2 Hm]; subst.
  - destruct (malloc_ok s al n Hst Hn) as (r' & s1 & E & Hres). rewrite Hm in E. injection E as <- <-. destruct Hres as [(-> & _ & H1 & _)|(a & -> & Ha & H1 & _)]; [by exists al|].
    rewrite (proj2 (Z.eqb_neq _ _)) by (by eapply malloc_not_null). exists (<[a := units n]> al). split; [done|by apply held_insert].
  - pose proof (held_lookup _ _ _ _ Hh Hp) as Ha. destruct Hst as [[fl H]|[_ ->]]; [|by rewrite lookup_empty in Ha]. destruct (free_ok s fl al _ _ H Ha) as (s1 & fl' & E & Hok & _).
    replace (p - 8 + 8) with p in E by lia. rewrite Hf in E. injection E as <-. exists (delete (p - 8) al). split; [left; by exists fl'|]. replace p with (p - 8 + 8) at 1 by lia. by apply held_delete.
  - exists al. split; [|done]. apply (heap_store s al (p - 8) (units n)); [done|by eapply held_lookup|unfold units; zlia|done].
Qed.

Lemma hstep_reachable s0 s held : heap_init s0 -> rtc hstep (s0, ∅) (s, held) -> exists al, heap_st s al /\ held_ok held al.
Proof.
  intros H0 Hr. assert (Hgen : forall x y, rtc hstep x y -> (exists al, heap_st x.1 al /\ held_ok x.2 al) -> exists al, heap_st y.1 al /\ held_ok y.2 al).
  { induction 1 as [|[a b] [c d] z Hst _ IH]; [done|]. intros (al & H1 & H2). apply IH. by eapply hstep_ok. }
  apply (Hgen _ _ Hr). exists ∅. split; [right; by split|]. intros a. by rewrite !lookup_empty.
Qed.

(** The blocks that are held, in bytes, with their headers. *)
Lemma held_apart s al held p n q m : heap_st s al -> held_ok held al -> held !! p = Some n -> held !! q = Some m -> p <> q -> p + n <= q - 8 \/ q + m <= p - 8.
Proof.
  intros Hst Hh Hp Hq Hne. pose proof (held_lookup _ _ _ _ Hh Hp) as Ha. pose proof (held_lookup _ _ _ _ Hh Hq) as Hb. destruct Hst as [[fl H]|[_ ->]]; [|by rewrite lookup_empty in Ha].
  destruct (al_range _ _ _ _ _ H Ha) as (_ & _ & A3), (al_range _ _ _ _ _ H Hb) as (_ & _ & B3).
  destruct (Z.lt_ge_cases p q).
  - destruct (Z.lt_ge_cases (q - 8) (p - 8 + 8 * units n)); [|unfold units in *; zlia]. exfalso. apply Hne. assert (p - 8 = q - 8); [|lia].
    apply (hk_apart _ _ _ H _ _ _ _ (q - 8) Ha Hb); unfold cov; lia.
  - destruct (Z.lt_ge_cases (p - 8) (q - 8 + 8 * units m)); [|unfold units in *; zlia]. exfalso. apply Hne. assert (p - 8 = q - 8); [|lia].
    apply (hk_apart _ _ _ H _ _ _ _ (p - 8) Ha Hb); unfold cov; lia.
Qed.

(** C11. The blocks a program holds never overlap: after any sequence of [malloc], [free]
    and writes to blocks, the blocks that are held are apart from each other and lie
    in the heap.  The sizes asked for are at most 2^31 - 24 bytes: above that the argument
    of [sbrk] would be negative or the size would wrap around ([malloc_size_wraps]).
    From there [malloc] returns, and gives a block of the size asked for that
    overlaps none of them, or 0 if the kernel refuses to grow the heap; [free] of a block that is held returns; and
    neither changes the contents of the other blocks. *)
Theorem malloc_never_overlaps s0 s held : heap_init s0 -> rtc hstep (s0, ∅) (s, held) ->
  (forall p n, held !! p = Some n -> heap0 < p /\ p + n <= brk s) /\
  (forall p n q m, held !! p = Some n -> held !! q = Some m -> p <> q -> p + n <= q \/ q + m <= p) /\
  (forall n, 0 <= n <= 2 ^ 31 - 24 -> exists r s', malloc base grants n s = Ret r s' /\
     (r = 0 /\ refuses s (units n) \/ held !! r = None /\ heap0 < r /\ r + n <= brk s' /\ forall q m, held !! q = Some m -> r + n <= q \/ q + m <= r) /\
     forall q m x, held !! q = Some m -> q <= x < q + m -> hwords s' !! x = hwords s !! x) /\
  (forall p n, held !! p = Some n -> exists s', free p s = Ret tt s' /\
     forall q m x, held !! q = Some m -> q <> p -> q <= x < q + m -> hwords s' !! x = hwords s !! x).
Proof.
  intros H0 Hr. destruct (hstep_reachable s0 s held H0 Hr) as (al & Hst & Hh).
  assert (Hin : forall s al held p n, heap_st s al -> held_ok held al -> held !! p = Some n -> heap0 < p /\ p + n <= brk s).
  { clear. intros s al held p n Hst Hh Hp. pose proof (held_lookup _ _ _ _ Hh Hp) as Ha. destruct Hst as [[fl H]|[_ ->]]; [|by rewrite lookup_empty in Ha].
    destruct (al_range _ _ _ _ _ H Ha) as (R1 & R2 & R3). unfold units in *. zlia. }
  assert (Hcov : forall q m x, held !! q = Some m -> q <= x < q + m -> al !! (q - 8) = Some (units m) /\ cov (q - 8) (units m) x).
  { intros q m x Hq Hx. split; [by eapply held_lookup|]. unfold cov, units. zlia. }
  split_and!.
  - intros p n Hp. by apply (Hin s al held).
  - intros p n q m Hp Hq Hne. destruct (held_apart s al held p n q m Hst Hh Hp Hq Hne); lia.
  - intros n Hn. destruct (malloc_ok s al n Hst Hn) as (r & s' & E & Hres). exists r, s'. split; [done|].
    assert (Hk : kept al s s') by (destruct Hres as [(_ & _ & _ & ?)|(a & _ & _ & _ & ?)]; done). split; [|intros q m x Hq Hx; destruct (Hcov q m x Hq Hx); by eapply Hk].
    destruct Hres as [(-> & Hno & _)|(a & -> & Ha & Hst' & _)]; [by left|right]. pose proof (held_insert held al a n Hh) as Hh'.
    assert (Hnone : held !! (a + 8) = None) by (rewrite Hh in Ha; by apply fmap_None in Ha).
    destruct (Hin s' _ _ (a + 8) n Hst' Hh' (lookup_insert_eq _ _ _)) as [I1 I2]. split_and!; [done|done|done|]. intros q m Hq.
    assert (Hne : a + 8 <> q) by congruence. destruct (held_apart s' _ _ (a + 8) n q m Hst' Hh' (lookup_insert_eq _ _ _)); [by rewrite lookup_insert_ne|done|lia|lia].
  - intros p n Hp. pose proof (held_lookup _ _ _ _ Hh Hp) as Ha. destruct Hst as [[fl H]|[_ ->]]; [|by rewrite lookup_empty in Ha].
    destruct (free_ok s fl al _ _ H Ha) as (s' & fl' & E & _ & _ & Hk & _). replace (p - 8 + 8) with p in E by lia. exists s'. split; [done|]. intros q m x Hq Hne Hx.
    destruct (Hcov q m x Hq Hx) as [C1 C2]. apply (Hk (q - 8) (units m)); [|done]. by rewrite lookup_delete_ne by lia.
Qed.
End Spec.

(** ** A small heap

    The static header is at 0x900 and the heap starts at 0x3000. *)
Definition demo_heap : heap := Heap (<[0x904 := 0]> {[ 0x900 := 0 ]}) 0 0x3000.

Lemma demo_heap_init : heap_init 0x900 0x3000 demo_heap.
Proof. split; [done|by split; eexists|done]. Qed.

Lemma malloc_never_overlaps_witness : exists p s, malloc 0x900 (fun _ _ => true) 100 demo_heap = Ret p s /\ 0x3000 < p /\
  exists r s', malloc 0x900 (fun _ _ => true) 50 s = Ret r s' /\ (r = 0 \/ r + 50 <= p \/ p + 100 <= r).
Proof.
  destruct (malloc_never_overlaps 0x900 0x3000 (fun _ _ => true) demo_heap demo_heap ∅ demo_heap_init (rtc_refl _ _)) as (_ & _ & H1 & _).
  destruct (H1 100 ltac:(lia)) as (p & s & E & [[_ [Hk|Hg]]|(_ & Hp & _)] & _); [exfalso; revert Hk; vm_compute; congruence|done|].
  exists p, s. split; [exact E|]. split; [exact Hp|].
  destruct (malloc_never_overlaps 0x900 0x3000 (fun _ _ => true) demo_heap s (<[p := 100]> ∅) demo_heap_init) as (_ & _ & H2 & _).
  { eapply rtc_once. pose proof (hs_malloc _ _ demo_heap ∅ 100 p s ltac:(lia) E) as Hs. by rewrite (proj2 (Z.eqb_neq p 0)) in Hs by lia. }
  destruct (H2 50 ltac:(lia)) as (r & s' & E' & Hr & _). exists r, s'. split; [exact E'|]. destruct Hr as [[-> _]|(_ & _ & _ & Hr)]; [by left|right]. exact (Hr p 100 (lookup_insert_eq _ _ _)).
Defined.

(** A size close to 2^32 wraps around: a call that asks for 2^32 - 1 bytes is answered as
    one that asks for none, so that the block it returns is a header without room. *)
Lemma malloc_size_wraps base grants s : malloc base grants (2 ^ 32 - 1) s = malloc base grants 0 s.
Proof. done. Qed.
