(* ===== verification/Sysfile.v ===== *)
(** * Sysfile: syscall.c and sysfile.c

    The arguments of system calls and the system calls on files.  A process has its
    memory (the bytes of its address space, [sz] of them), the stack pointer of its
    trap frame, its table of open files and its current directory; the system calls
    work on these and on the open files of File.v.  Pointers into user memory are
    addresses.  A result of -1 for a failed fetch is [None].  [sys_read] and
    [sys_write] wait for a pipe as [fileread] and [filewrite] do. *)

From S2P Require Import Prelude Mem Sleeplock Log Fs FsAlloc FsFile Ring Pipe File.

Definition NOFILE : nat := 16.
Definition MAXARG : nat := 32.
Definition O_RDONLY : Z := 0x000.
Definition O_WRONLY : Z := 0x001.
Definition O_RDWR : Z := 0x002.
Definition O_CREATE : Z := 0x200.

Record usys := Usys { ufiles : files; umem : list Z; uesp : Z; ofile : list (option nat); ucwd : nat }.
#[export] Instance eta_usys : Eta usys := fun r => Usys (ufiles r) (umem r) (uesp r) (ofile r) (ucwd r).

Definition on_files {A} (m : M files A) : M usys A := zoom ufiles (fun t s => s <| ufiles := t |>) m.

Definition sz (s : usys) : Z := Z.of_nat (length (umem s)).

(** ** Arguments *)

Definition fetchint (addr : Z) : M usys (option Z) :=
  n ← gets sz;
  if (addr >=? n) || (u32 (addr + 4) >? n) then mret None
  else
    m ← gets umem;
    v ← deref (get32 m (Z.to_nat addr));
    mret (Some (s32 v)).

(** The loop of [fetchstr] over the memory from [s] to [ep]. *)
Fixpoint find_nul (m : list Z) : option Z :=
  match m with
  | [] => None
  | c :: m => if c =? 0 then Some 0 else n ← find_nul m; Some (n + 1)
  end.

(** The address and the length of the string. *)
Definition fetchstr (addr : Z) : M usys (option (Z * Z)) :=
  n ← gets sz;
  if addr >=? n then mret None
  else
    m ← gets umem;
    mret (match find_nul (drop (Z.to_nat addr) m) with Some len => Some (addr, len) | None => None end).

Definition argint (n : Z) : M usys (option Z) :=
  esp ← gets uesp; fetchint (u32 (esp + 4 + 4 * n)).

Definition argptr (n size : Z) : M usys (option Z) :=
  i ← argint n;
  match i with
  | None => mret None
  | Some i =>
      limit ← gets sz;
      if (size <? 0) || (u32 i >=? limit) || (u32 (u32 i + size) >? limit) then mret None else mret (Some (u32 i))
  end.

Definition argstr (n : Z) : M usys (option (Z * Z)) :=
  a ← argint n;
  match a with None => mret None | Some addr => fetchstr (u32 addr) end.

(** The bytes that a pointer and a length stand for, and storing bytes. *)
Definition user_bytes (p n : Z) : M usys (list Z) := m ← gets umem; mret (take (Z.to_nat n) (drop (Z.to_nat p) m)).
Definition put_user (p : Z) (bs : list Z) : M usys unit := modify (fun s => s <| umem ::= list_inserts (Z.to_nat p) bs |>).

(** The path that is an argument. *)
Definition argpath (n : Z) : M usys (option (list Z)) :=
  a ← argstr n;
  match a with None => mret None | Some (p, len) => b ← user_bytes p len; mret (Some b) end.

(** ** File descriptors *)

Definition argfd (n : Z) : M usys (option (nat * nat)) :=
  fd ← argint n;
  match fd with
  | None => mret None
  | Some fd =>
      if (fd <? 0) || (fd >=? Z.of_nat NOFILE) then mret None
      else
        t ← gets ofile;
        f ← deref (t !! Z.to_nat fd);
        mret (match f with None => None | Some f => Some (Z.to_nat fd, f) end)
  end.

Definition fdalloc (f : nat) : M usys (option nat) :=
  t ← gets ofile;
  match findi (fun x => match x with None => true | Some _ => false end) t with
  | Some fd => modify (fun s => s <| ofile ::= <[fd := Some f]> |>);; mret (Some fd)
  | None => mret None
  end.

Section Process.
Context (mypid : Z) (killed : bool).
Context (devread : Z -> option (nat -> Z -> M fs (Z * list Z))) (devwrite : Z -> option (nat -> list Z -> M fs Z)).

Definition sys_dup : M usys Z :=
  a ← argfd 0;
  match a with
  | None => mret (-1)
  | Some (_, f) =>
      fd ← fdalloc f;
      match fd with
      | None => mret (-1)
      | Some fd => on_files (filedup f);; mret (Z.of_nat fd)
      end
  end.

Definition sys_read : M usys (io unit) :=
  a ← argfd 0;
  match a with
  | None => mret (Returned (-1) tt)
  | Some (_, f) =>
      n ← argint 2;
      match n with
      | None => mret (Returned (-1) tt)
      | Some n =>
          p ← argptr 1 n;
          match p with
          | None => mret (Returned (-1) tt)
          | Some p =>
              r ← on_files (fileread mypid killed devread f n);
              match r with
              | Returned r bs => put_user p bs;; mret (Returned r tt)
              | Waits rest => mret (Waits rest)
              end
          end
      end
  end.

Definition sys_write : M usys (io unit) :=
  a ← argfd 0;
  match a with
  | None => mret (Returned (-1) tt)
  | Some (_, f) =>
      n ← argint 2;
      match n with
      | None => mret (Returned (-1) tt)
      | Some n =>
          p ← argptr 1 n;
          match p with
          | None => mret (Returned (-1) tt)
          | Some p => bs ← user_bytes p n; on_files (filewrite mypid killed devwrite f bs)
          end
      end
  end.

Definition sys_close : M usys Z :=
  a ← argfd 0;
  match a with
  | None => mret (-1)
  | Some (fd, f) =>
      modify (fun s => s <| ofile ::= <[fd := None]> |>);;
      on_files (fileclose mypid f);;
      mret 0
  end.

(** [struct stat] has 20 bytes, with two bytes of padding after each short. *)
Definition put_stat (p : nat) (st : stat) (m : list Z) : list Z :=
  put32 (put16 (put32 (put32 (put16 m p (st_type st)) (p + 4) (st_dev st)) (p + 8) (st_ino st)) (p + 12) (st_nlink st)) (p + 16) (st_size st).

Definition sys_fstat : M usys Z :=
  a ← argfd 0;
  match a with
  | None => mret (-1)
  | Some (_, f) =>
      p ← argptr 1 20;
      match p with
      | None => mret (-1)
      | Some p =>
          r ← on_files (filestat mypid f);
          (match r.2 with Some st => modify (fun s => s <| umem ::= put_stat (Z.to_nat p) st |>) | None => mret tt end);;
          mret r.1
      end
  end.

(** ** Paths *)

Definition onfs {A} (m : M fs A) : M usys A := on_files (on_fs m).
Definition begin : M usys unit := on_files begin_op.
Definition finish : M usys unit := on_files end_op.

Definition cwd_namei (path : list Z) : M usys (option nat) := cwd ← gets ucwd; onfs (namei mypid cwd devread path).
Definition cwd_nameiparent (path : list Z) : M usys (option nat * list Z) := cwd ← gets ucwd; onfs (nameiparent mypid cwd devread path).

(** [ip->nlink++] and [ip->nlink--]: a short. *)
Definition add_nlink (ip : nat) (n : Z) : M fs unit := upd_ip ip (fun i => i <| i_d ::= fun d => d <| d_nlink ::= fun k => s16 (k + n) |> |>).

(** The label [bad] of [sys_link]. *)
Definition link_bad (ip : nat) : M usys Z :=
  onfs (ilock mypid ip);;
  onfs (add_nlink ip (-1));;
  onfs (iupdate ip);;
  onfs (iunlockput mypid ip);;
  finish;;
  mret (-1).

Definition sys_link : M usys Z :=
  old ← argpath 0;
  match old with
  | None => mret (-1)
  | Some old =>
      new ← argpath 1;
      match new with
      | None => mret (-1)
      | Some new =>
          begin;;
          ip ← cwd_namei old;
          match ip with
          | None => finish;; mret (-1)
          | Some ip =>
              onfs (ilock mypid ip);;
              i ← onfs (get_ip ip);
              if d_type (i_d i) =? T_DIR then onfs (iunlockput mypid ip);; finish;; mret (-1)
              else
                onfs (add_nlink ip 1);;
                onfs (iupdate ip);;
                onfs (iunlock mypid ip);;
                r ← cwd_nameiparent new;
                match r.1 with
                | None => link_bad ip
                | Some dp =>
                    onfs (ilock mypid dp);;
                    d ← onfs (get_ip dp);
                    i ← onfs (get_ip ip);
                    l ← (if negb (i_dev d =? i_dev i) then mret (-1) else onfs (dirlink mypid devread devwrite dp r.2 (i_inum i)));
                    if l <? 0 then onfs (iunlockput mypid dp);; link_bad ip
                    else
                      onfs (iunlockput mypid dp);;
                      onfs (iput mypid ip);;
                      finish;;
                      mret 0
                end
          end
      end
  end.

(** The loop of [isdirempty], over the offsets. *)
Fixpoint isdirempty_from (dp : nat) (offs : list Z) : M fs bool :=
  match offs with
  | [] => mret true
  | off :: offs' =>
      r ← readi devread dp off 16;
      if negb (r.1 =? 16) then panic "isdirempty: readi"
      else
        inum ← deref (de_inum r.2);
        if negb (inum =? 0) then mret false else isdirempty_from dp offs'
  end.

(** The offsets from [2 * sizeof(de)] on. *)
Definition isdirempty (dp : nat) : M fs bool :=
  i ← get_ip dp; isdirempty_from dp (drop 2 (dir_steps (d_size (i_d i)))).

Definition DOT : list Z := [46].
Definition DOTDOT : list Z := [46; 46].

(** The label [bad] of [sys_unlink]. *)
Definition unlink_bad (dp : nat) : M usys Z := onfs (iunlockput mypid dp);; finish;; mret (-1).

Definition sys_unlink : M usys Z :=
  path ← argpath 0;
  match path with
  | None => mret (-1)
  | Some path =>
      begin;;
      r ← cwd_nameiparent path;
      match r.1 with
      | None => finish;; mret (-1)
      | Some dp =>
          onfs (ilock mypid dp);;
          if (namecmp r.2 DOT =? 0) || (namecmp r.2 DOTDOT =? 0) then unlink_bad dp
          else
            e ← onfs (dirlookup devread dp r.2);
            match e with
            | None => unlink_bad dp
            | Some (ip, off) =>
                onfs (ilock mypid ip);;
                i ← onfs (get_ip ip);
                if d_nlink (i_d i) <? 1 then panic "unlink: nlink < 1"
                else
                  empty ← (if d_type (i_d i) =? T_DIR then onfs (isdirempty ip) else mret true);
                  if negb empty then onfs (iunlockput mypid ip);; unlink_bad dp
                  else
                    w ← onfs (writei devwrite dp (replicate 16 0) off);
                    if negb (w =? 16) then panic "unlink: writei"
                    else
                      (if d_type (i_d i) =? T_DIR then onfs (add_nlink dp (-1));; onfs (iupdate dp) else mret tt);;
                      onfs (iunlockput mypid dp);;
                      onfs (add_nlink ip (-1));;
                      onfs (iupdate ip);;
                      onfs (iunlockput mypid ip);;
                      finish;;
                      mret 0
            end
      end
  end.

Definition create (path : list Z) (type major minor : Z) : M usys (option nat) :=
  r ← cwd_nameiparent path;
  match r.1 with
  | None => mret None
  | Some dp =>
      onfs (ilock mypid dp);;
      e ← onfs (dirlookup devread dp r.2);
      match e with
      | Some (ip, _) =>
          onfs (iunlockput mypid dp);;
          onfs (ilock mypid ip);;
          i ← onfs (get_ip ip);
          if (type =? T_FILE) && (d_type (i_d i) =? T_FILE) then mret (Some ip)
          else onfs (iunlockput mypid ip);; mret None
      | None =>
          d ← onfs (get_ip dp);
          ip ← onfs (ialloc (i_dev d) type);
          onfs (ilock mypid ip);;
          onfs (upd_ip ip (fun i => i <| i_d ::= fun d => d <| d_major := s16 major |> <| d_minor := s16 minor |> <| d_nlink := 1 |> |>));;
          onfs (iupdate ip);;
          (if type =? T_DIR then
             onfs (add_nlink dp 1);;
             onfs (iupdate dp);;
             i ← onfs (get_ip ip);
             l1 ← onfs (dirlink mypid devread devwrite ip DOT (i_inum i));
             if l1 <? 0 then panic "create dots"
             else
               d ← onfs (get_ip dp);
               l2 ← onfs (dirlink mypid devread devwrite ip DOTDOT (i_inum d));
               if l2 <? 0 then panic "create dots" else mret tt
           else mret tt);;
          i ← onfs (get_ip ip);
          l ← onfs (dirlink mypid devread devwrite dp r.2 (i_inum i));
          if l <? 0 then panic "create: dirlink"
          else onfs (iunlockput mypid dp);; mret (Some ip)
      end
  end.

(** The inode that [sys_open] opens, locked. *)
Definition open_inode (path : list Z) (omode : Z) : M usys (option nat) :=
  if negb (Z.land omode O_CREATE =? 0) then create path T_FILE 0 0
  else
    ip ← cwd_namei path;
    match ip with
    | None => mret None
    | Some ip =>
        onfs (ilock mypid ip);;
        i ← onfs (get_ip ip);
        if (d_type (i_d i) =? T_DIR) && negb (omode =? O_RDONLY) then onfs (iunlockput mypid ip);; mret None
        else mret (Some ip)
    end.

(** A file and a descriptor for it, or neither. *)
Definition open_fd : M usys (option (nat * nat)) :=
  f ← on_files filealloc;
  match f with
  | None => mret None
  | Some f =>
      fd ← fdalloc f;
      match fd with
      | None => on_files (fileclose mypid f);; mret None
      | Some fd => mret (Some (f, fd))
      end
  end.

Definition sys_open : M usys Z :=
  path ← argpath 0;
  match path with
  | None => mret (-1)
  | Some path =>
      omode ← argint 1;
      match omode with
      | None => mret (-1)
      | Some omode =>
          begin;;
          ip ← open_inode path omode;
          match ip with
          | None => finish;; mret (-1)
          | Some ip =>
              r ← open_fd;
              match r with
              | None => onfs (iunlockput mypid ip);; finish;; mret (-1)
              | Some (f, fd) =>
                  onfs (iunlock mypid ip);;
                  finish;;
                  on_files (upd_file f (fun x => x <| f_type := FD_INODE |> <| f_ip := ip |> <| f_off := 0 |>
                    <| f_readable := (Z.land omode O_WRONLY =? 0) |>
                    <| f_writable := negb (Z.land omode O_WRONLY =? 0) || negb (Z.land omode O_RDWR =? 0) |>));;
                  mret (Z.of_nat fd)
              end
          end
      end
  end.

(** [mkdir] and [mknod] after their arguments. *)
Definition make_node (path : list Z) (type major minor : Z) : M usys Z :=
  ip ← create path type major minor;
  match ip with
  | None => finish;; mret (-1)
  | Some ip => onfs (iunlockput mypid ip);; finish;; mret 0
  end.

Definition sys_mkdir : M usys Z :=
  begin;;
  path ← argpath 0;
  match path with
  | None => finish;; mret (-1)
  | Some path => make_node path T_DIR 0 0
  end.

Definition sys_mknod : M usys Z :=
  begin;;
  path ← argpath 0;
  match path with
  | None => finish;; mret (-1)
  | Some path =>
      major ← argint 1;
      match major with
      | None => finish;; mret (-1)
      | Some major =>
          minor ← argint 2;
          match minor with
          | None => finish;; mret (-1)
          | Some minor => make_node path T_DEV major minor
          end
      end
  end.

Definition sys_chdir : M usys Z :=
  begin;;
  path ← argpath 0;
  match path with
  | None => finish;; mret (-1)
  | Some path =>
      ip ← cwd_namei path;
      match ip with
      | None => finish;; mret (-1)
      | Some ip =>
          onfs (ilock mypid ip);;
          i ← onfs (get_ip ip);
          if negb (d_type (i_d i) =? T_DIR) then onfs (iunlockput mypid ip);; finish;; mret (-1)
          else
            onfs (iunlock mypid ip);;
            cwd ← gets ucwd;
            onfs (iput mypid cwd);;
            finish;;
            modify (fun s => s <| ucwd := ip |>);;
            mret 0
      end
  end.

(** The loop of [sys_exec]: the argument strings, by address and length. *)
Fixpoint exec_args (room : nat) (uargv : Z) : M usys (option (list (Z * Z))) :=
  match room with
  | O => mret None
  | S room =>
      uarg ← fetchint uargv;
      match uarg with
      | None => mret None
      | Some uarg =>
          if uarg =? 0 then mret (Some [])
          else
            a ← fetchstr (u32 uarg);
            match a with
            | None => mret None
            | Some a => rest ← exec_args room (u32 (uargv + 4)); mret (match rest with None => None | Some l => Some (a :: l) end)
            end
      end
  end.

(** [exec] is exec.c, given the path and the arguments. *)
Definition sys_exec (exec : list Z -> list (Z * Z) -> M usys Z) : M usys Z :=
  path ← argpath 0;
  match path with
  | None => mret (-1)
  | Some path =>
      uargv ← argint 1;
      match uargv with
      | None => mret (-1)
      | Some uargv =>
          argv ← exec_args MAXARG (u32 uargv);
          match argv with None => mret (-1) | Some argv => exec path argv end
      end
  end.

(** [page] is what [kalloc] returns in [pipealloc]. *)
Definition sys_pipe (page : option (list Z)) : M usys Z :=
  p ← argptr 0 8;
  match p with
  | None => mret (-1)
  | Some p =>
      r ← on_files (pipealloc mypid page);
      match r.2 with
      | None => mret (-1)
      | Some (rf, wf) =>
          fd0 ← fdalloc rf;
          fd1 ← match fd0 with None => mret None | Some _ => fdalloc wf end;
          match fd0, fd1 with
          | Some fd0, Some fd1 =>
              modify (fun s => s <| umem ::= fun m => put32 (put32 m (Z.to_nat p) (Z.of_nat fd0)) (Z.to_nat p + 4) (Z.of_nat fd1) |>);;
              mret 0
          | _, _ =>
              (match fd0 with Some fd0 => modify (fun s => s <| ofile ::= <[fd0 := None]> |>) | None => mret tt end);;
              on_files (fileclose mypid rf);;
              on_files (fileclose mypid wf);;
              mret (-1)
          end
      end
  end.
End Process.
