(* ===== verification/SysfileSpec.v ===== *)
(** * SysfileSpec: what the system calls on files promise

    Whatever a program passes to a system call, the kernel looks only at the
    program's own memory; reading and writing through descriptors reads and writes
    the bytes of the file and of the buffer; a failing [pipe] leaves nothing behind; and
    the counts of open files are the numbers of descriptors. *)

From S2P Require Import Prelude Mem Sleeplock Log Fs FsAlloc FsFile FsInode Ring Pipe File FileSpec Sysfile.

(** ** Arguments *)

(** A process is smaller than the user part of the address space. *)
Definition small_sz (s : usys) : Prop := sz s <= 2 ^ 31.

Lemma fetchint_total s addr : small_sz s -> 0 <= addr -> exists r, fetchint addr s = Ret r s.
Proof.
  intros Hs Ha. unfold fetchint. erewrite bind_ret; [|reflexivity]. destruct ((addr >=? sz s) || (u32 (addr + 4) >? sz s)) eqn:E; [by eexists|].
  unfold small_sz in Hs. apply orb_false_iff in E as [E1 E2]. rewrite u32_small in E2 by lia. erewrite bind_ret; [|reflexivity].
  destruct (get32_Some (umem s) (Z.to_nat addr)) as [v Hv]; [unfold sz in *; lia|]. unfold deref. rewrite Hv. by eexists.
Qed.

Lemma argint_total s n : small_sz s -> exists r, argint n s = Ret r s.
Proof. intros Hs. unfold argint. erewrite bind_ret; [|reflexivity]. apply fetchint_total; [done|]. unfold u32. apply Z.mod_pos_bound. lia. Qed.

(** The word at an address, if it is all in the memory of the process, and the
    [n]th argument word. *)
Definition word_at (s : usys) (addr : Z) : option Z :=
  if decide (addr + 4 <= sz s) then get32 (umem s) (Z.to_nat addr) else None.
Definition arg_word (s : usys) (n : Z) : option Z := word_at s (u32 (uesp s + 4 + 4 * n)).

Lemma word_at_Some s addr : 0 <= addr -> is_Some (word_at s addr) <-> addr + 4 <= sz s.
Proof.
  intros Ha. unfold word_at. destruct (decide (addr + 4 <= sz s)) as [H|H]; [|split; [by intros [? ?]|done]].
  split; [done|]. intros _. destruct (get32_Some (umem s) (Z.to_nat addr)) as [v ->]; [unfold sz in *; lia|done].
Qed.

Lemma fetchint_ok s addr : small_sz s -> 0 <= addr < 2 ^ 32 -> fetchint addr s = Ret (s32 <$> word_at s addr) s.
Proof.
  intros Hs Ha. unfold fetchint, small_sz in *. erewrite bind_ret; [|reflexivity]. unfold word_at.
  destruct (decide (addr + 4 <= sz s)) as [H|H].
  - destruct ((addr >=? sz s) || (u32 (addr + 4) >? sz s)) eqn:E.
    { apply orb_true_iff in E as [E|E]; [lia|]. rewrite u32_small in E by lia. lia. }
    erewrite bind_ret; [|reflexivity]. destruct (get32_Some (umem s) (Z.to_nat addr)) as [v Hv]; [unfold sz in *; lia|].
    unfold deref. by rewrite Hv.
  - destruct (Z.geb_spec addr (sz s)); [done|]. cbn [orb]. rewrite u32_small by lia.
    destruct (Z.gtb_spec (addr + 4) (sz s)); [done|lia].
Qed.

Lemma argint_ok s n : small_sz s -> argint n s = Ret (s32 <$> arg_word s n) s.
Proof.
  intros Hs. unfold argint. erewrite bind_ret; [|reflexivity]. apply fetchint_ok; [done|]. unfold u32. apply Z.mod_pos_bound. lia.
Qed.

Lemma u32_s32 v : u32 (s32 v) = u32 v.
Proof. unfold u32, s32. zlia. Qed.

Lemma find_nul_spec m : match find_nul m with
  | Some n => 0 <= n < Z.of_nat (length m) /\ m !! Z.to_nat n = Some 0 /\ forall k c, 0 <= k < n -> m !! Z.to_nat k = Some c -> c <> 0
  | None => 0 ∉ m
  end.
Proof.
  induction m as [|c m IH]; cbn [find_nul]; [apply not_elem_of_nil|]. destruct (Z.eqb_spec c 0) as [->|Hc].
  - cbn. split; [lia|]. split; [done|]. intros k d Hk. lia.
  - destruct (find_nul m) as [n|]; cbn [mbind option_bind].
    + destruct IH as (H1 & H2 & H3). split; [cbn; lia|]. replace (Z.to_nat (n + 1)) with (S (Z.to_nat n)) by lia. split; [done|]. intros k d Hk Hd.
      destruct (Z.to_nat k) as [|k'] eqn:Ek; cbn in Hd; [congruence|]. apply (H3 (Z.of_nat k')); [lia|]. by rewrite Nat2Z.id.
    + apply not_elem_of_cons. done.
Qed.

(** A string of the program: it starts at [p] and its [len] bytes are followed by the first NUL. *)
Definition is_string (s : usys) (p len : Z) : Prop :=
  0 <= p /\ 0 <= len /\ p + len < sz s /\ umem s !! Z.to_nat (p + len) = Some 0 /\ forall k c, p <= k < p + len -> umem s !! Z.to_nat k = Some c -> c <> 0.

Lemma fetchstr_total s addr : 0 <= addr -> exists r, fetchstr addr s = Ret r s /\ forall p len, r = Some (p, len) -> p = addr /\ is_string s p len.
Proof.
  intros Ha. unfold fetchstr. erewrite bind_ret; [|reflexivity]. destruct (Z.geb_spec addr (sz s)); [by eexists|]. erewrite bind_ret; [|reflexivity].
  pose proof (find_nul_spec (drop (Z.to_nat addr) (umem s))) as Hf. destruct (find_nul (drop (Z.to_nat addr) (umem s))) as [n|]; [|by eexists]. eexists. split; [done|].
  intros p len [= <- <-]. rewrite length_drop in Hf. unfold sz in *. destruct Hf as (H1 & H2 & H3). rewrite lookup_drop in H2. split; [done|]. split_and!; [done|lia|unfold sz; lia| |].
  - replace (Z.to_nat (addr + n)) with (Z.to_nat addr + Z.to_nat n)%nat by lia. done.
  - intros k c Hk Hc. apply (H3 (k - addr)); [lia|]. rewrite lookup_drop. by replace (Z.to_nat addr + Z.to_nat (k - addr))%nat with (Z.to_nat k) by lia.
Qed.

Lemma is_string_unique s p len len' : is_string s p len -> is_string s p len' -> len = len'.
Proof.
  intros (H1 & H2 & H3 & H4 & H5) (G1 & G2 & G3 & G4 & G5). destruct (Z.lt_trichotomy len len') as [H|[H|H]]; [|done|].
  - exfalso. by apply (G5 (p + len) 0); [lia| |].
  - exfalso. by apply (H5 (p + len') 0); [lia| |].
Qed.

Lemma fetchstr_ok s addr : 0 <= addr -> exists r, fetchstr addr s = Ret r s /\
  forall p len, r = Some (p, len) <-> p = addr /\ is_string s p len.
Proof.
  intros Ha. destruct (fetchstr_total s addr Ha) as (r & E & H). exists r. split; [done|]. intros p len. split; [by apply H|].
  intros [-> Hstr]. destruct r as [[p' len']|]; [destruct (H p' len' eq_refl) as [-> Hstr']; by rewrite (is_string_unique _ _ _ _ Hstr Hstr')|].
  exfalso. destruct Hstr as (_ & Hl & Hlt & Hnul & _). unfold fetchstr in E. erewrite bind_ret in E; [|reflexivity].
  destruct (Z.geb_spec addr (sz s)); [lia|]. erewrite bind_ret in E; [|reflexivity]. injection E as E.
  pose proof (find_nul_spec (drop (Z.to_nat addr) (umem s))) as Hf.
  destruct (find_nul (drop (Z.to_nat addr) (umem s))) as [k|]; [done|]. apply Hf, list_elem_of_lookup. exists (Z.to_nat len).
  rewrite lookup_drop. by replace (Z.to_nat addr + Z.to_nat len)%nat with (Z.to_nat (addr + len)) by lia.
Qed.

Lemma argptr_ok s n size : small_sz s -> size < 2 ^ 31 -> exists r, argptr n size s = Ret r s /\
  forall p, r = Some p <-> (u32 <$> arg_word s n = Some p) /\ 0 <= size /\ 0 <= p < sz s /\ p + size <= sz s.
Proof.
  intros Hs Hz. unfold argptr. rewrite (bind_ret _ _ _ _ _ (argint_ok s n Hs)).
  destruct (arg_word s n) as [w|]; cbn [fmap option_fmap option_map]; [|exists None; split; [done|]; naive_solver].
  erewrite bind_ret; [|reflexivity]. rewrite !u32_s32. unfold small_sz in Hs.
  assert (Hw : 0 <= u32 w < 2 ^ 32) by (unfold u32; apply Z.mod_pos_bound; lia).
  destruct ((size <? 0) || (u32 w >=? sz s) || (u32 (u32 w + size) >? sz s)) eqn:E.
  - exists None. split; [done|]. intros p. split; [done|]. intros ([= <-] & H1 & H2 & H3). exfalso.
    rewrite (u32_small (u32 w + size)) in E by lia. apply orb_true_iff in E as [[E|E]%orb_true_iff|E]; lia.
  - exists (Some (u32 w)). split; [done|]. intros p. split; [|by intros ([= <-] & _)]. intros [= <-].
    apply orb_false_iff in E as [[E1 E2]%orb_false_iff E3]. rewrite (u32_small (u32 w + size)) in E3 by lia. split_and!; [done|lia..].
Qed.

Lemma argstr_ok s n : small_sz s -> exists r, argstr n s = Ret r s /\
  forall p len, r = Some (p, len) <-> (u32 <$> arg_word s n = Some p) /\ is_string s p len.
Proof.
  intros Hs. unfold argstr. rewrite (bind_ret _ _ _ _ _ (argint_ok s n Hs)).
  destruct (arg_word s n) as [w|]; cbn [fmap option_fmap option_map]; [|exists None; split; [done|]; naive_solver].
  rewrite u32_s32. destruct (fetchstr_ok s (u32 w)) as (r & E & H); [unfold u32; apply Z.mod_pos_bound; lia|].
  exists r. split; [done|]. intros p len. rewrite (H p len). naive_solver.
Qed.

Lemma argptr_total s n size : small_sz s -> size < 2 ^ 31 -> exists r, argptr n size s = Ret r s /\ forall p, r = Some p -> 0 <= size /\ 0 <= p < sz s /\ p + size <= sz s.
Proof.
  intros Hs Hz. unfold argptr. destruct (argint_total s n Hs) as [r Hr]. rewrite (bind_ret _ _ _ _ _ Hr). destruct r as [i|]; [|by eexists]. erewrite bind_ret; [|reflexivity].
  destruct ((size <? 0) || (u32 i >=? sz s) || (u32 (u32 i + size) >? sz s)) eqn:E; [by eexists|]. eexists. split; [done|]. intros p [= <-].
  apply orb_false_iff in E as [E E3]. apply orb_false_iff in E as [E1 E2]. unfold small_sz in Hs. assert (0 <= u32 i) by (unfold u32; apply Z.mod_pos_bound; lia).
  rewrite (u32_small (u32 i + size)) in E3 by lia. lia.
Qed.

Lemma argstr_total s n : small_sz s -> exists r, argstr n s = Ret r s /\ forall p len, r = Some (p, len) -> is_string s p len.
Proof.
  intros Hs. unfold argstr. destruct (argint_total s n Hs) as [r Hr]. rewrite (bind_ret _ _ _ _ _ Hr). destruct r as [i|]; [|by eexists].
  destruct (fetchstr_total s (u32 i)) as (r & E & H); [unfold u32; apply Z.mod_pos_bound; lia|]. exists r. split; [done|]. intros p len Hp. by apply (H p len).
Qed.

Lemma exec_args_total s room uargv : small_sz s -> 0 <= uargv < 2 ^ 32 -> exists r, exec_args room uargv s = Ret r s /\
  forall l, r = Some l -> (length l < room)%nat /\ Forall (fun a => is_string s a.1 a.2) l.
Proof.
  intros Hs. revert uargv. induction room as [|room IH]; intros uargv Hu; cbn [exec_args]; [by eexists|]. destruct (fetchint_total s uargv Hs) as [r Hr]; [lia|]. rewrite (bind_ret _ _ _ _ _ Hr).
  destruct r as [v|]; [|by eexists]. destruct (v =? 0). { eexists. split; [done|]. intros l [= <-]. cbn. split; [lia|constructor]. }
  destruct (fetchstr_total s (u32 v)) as (r & E & H); [unfold u32; apply Z.mod_pos_bound; lia|]. rewrite (bind_ret _ _ _ _ _ E). destruct r as [[p len]|]; [|by eexists].
  destruct (IH (u32 (uargv + 4))) as (r & Er & Hl); [unfold u32; apply Z.mod_pos_bound; lia|]. rewrite (bind_ret _ _ _ _ _ Er). destruct r as [l|]; [|by eexists]. eexists. split; [done|].
  intros l' [= <-]. destruct (Hl l eq_refl) as [L1 L2]. cbn. split; [lia|]. constructor; [by apply (H p len)|done].
Qed.

(** C32. Whatever the registers and the memory, of at most 2^31 bytes, are, fetching arguments does not fault
    and changes nothing, and exactly what lies in the program's memory is accepted: an
    integer is the word of the stack at its place, if all four bytes of it are below
    [sz]; a pointer to [size] bytes is such a word, with all those bytes below [sz]; a
    string starts at such a word and ends with the first NUL before [sz], and so do the
    strings of [exec], of which there are fewer than MAXARG. *)
Theorem arguments_in_bounds s n size uargv : small_sz s -> size < 2 ^ 31 -> 0 <= uargv < 2 ^ 32 ->
  (argint n s = Ret (s32 <$> arg_word s n) s /\ (is_Some (arg_word s n) <-> u32 (uesp s + 4 + 4 * n) + 4 <= sz s)) /\
  (exists r, argptr n size s = Ret r s /\
     forall p, r = Some p <-> (u32 <$> arg_word s n = Some p) /\ 0 <= size /\ 0 <= p < sz s /\ p + size <= sz s) /\
  (exists r, argstr n s = Ret r s /\
     forall p len, r = Some (p, len) <-> (u32 <$> arg_word s n = Some p) /\ is_string s p len) /\
  (exists r, exec_args MAXARG uargv s = Ret r s /\ forall l, r = Some l -> (length l < MAXARG)%nat /\ Forall (fun a => is_string s a.1 a.2) l).
Proof.
  intros Hs Hz Hu. split; [split; [by apply argint_ok|]|split_and!; [by apply argptr_ok|by apply argstr_ok|by apply exec_args_total]].
  apply word_at_Some. unfold u32. apply Z.mod_pos_bound. lia.
Qed.

(** ** Lifting *)

Lemma on_files_ok {A} (m : M files A) s a t : m (ufiles s) = Ret a t -> on_files m s = Ret a (s <| ufiles := t |>).
Proof. intros H. unfold on_files, zoom. by rewrite H. Qed.

Lemma or_full_files {A} (m : M files A) s Q : or_full m (ufiles s) Q -> or_full (on_files m) s (fun a s' => exists t, s' = s <| ufiles := t |> /\ Q a t).
Proof.
  intros [(a & t & Hm & HQ)|Hm]; [left|right].
  - exists a, (s <| ufiles := t |>). split; [by apply on_files_ok|]. by exists t.
  - unfold on_files, zoom. by rewrite Hm.
Qed.

(** ** Reading and writing through descriptors *)

Section Process.
Context (mypid : Z) (killed : bool).
Context (devread : Z -> option (nat -> Z -> M fs (Z * list Z))) (devwrite : Z -> option (nat -> list Z -> M fs Z)).

(** The arguments of [read] and [write]: the file of the descriptor, a buffer, its length. *)
Record rw_args (s : usys) (f : nat) (p n : Z) : Prop := {
  rw_fd : exists fd, argfd 0 s = Ret (Some (fd, f)) s;
  rw_n : argint 2 s = Ret (Some n) s;
  rw_p : argptr 1 n s = Ret (Some p) s
}.

(** C14. [write]: the bytes of the buffer become those of the file at its offset, which
    advances, or the disk is full; the log operations into which the write is split
    each fit the log.  The program's memory and descriptors do not change. *)
Theorem sys_write_writes s f p n x i bytes size off :
  small_sz s -> n < 2 ^ 31 -> rw_args s f p n -> open_at (ufiles s) f x i bytes size off -> f_writable x = true -> 0 <= off <= size -> off + n <= MAXFILE * 512 ->
  let src := take (Z.to_nat n) (drop (Z.to_nat p) (umem s)) in
  or_full (sys_write mypid killed devwrite) s (fun r s' => r = Returned n tt /\ Z.of_nat (length src) = n /\ s' = s <| ufiles := ufiles s' |> /\
    exists x' i' ls, open_at (ufiles s') f x' i' (put_bytes bytes off src) (grown size off src) (off + n) /\
      txs (ufiles s') = txs (ufiles s) ++ ls /\ (sb_size (fsb (ffs (ufiles s))) <= BPB -> Forall (fun l => tx_size l < MAXOPBLOCKS) ls)).
Proof.
  intros Hs Hn31 [[fd A1] A2 A3] Ho Hw Hoff Hfit src. destruct (argptr_total s 1 n Hs Hn31) as (r & Er & Hp). rewrite A3 in Er. injection Er as <-.
  destruct (Hp p eq_refl) as (P1 & P2 & P3). assert (Hlen : Z.of_nat (length src) = n) by (unfold src; rewrite length_take, length_drop; unfold sz in *; lia).
  unfold sys_write. eapply or_full_step; [exact A1|]. eapply or_full_step; [exact A2|]. eapply or_full_step; [exact A3|]. eapply or_full_step; [reflexivity|]. fold src.
  eapply or_full_mono; [apply or_full_files, (filewrite_writes mypid killed devread devwrite (ufiles s) f x i bytes size off src Ho Hw Hoff); lia|].
  intros r s' (t & -> & -> & x' & i' & ls & Ho' & Htx & Hls). rewrite Hlen in *. split; [done|]. split; [done|]. split; [done|]. by exists x', i', ls.
Qed.

(** [read]: the buffer receives the bytes of the file from its offset on, [n] of them or
    as many as there are, and nothing else of the program's memory changes; the offset
    advances. *)
Theorem sys_read_reads s f p n x i bytes size off :
  small_sz s -> n < 2 ^ 31 -> rw_args s f p n -> open_at (ufiles s) f x i bytes size off -> f_readable x = true -> 0 <= off <= size -> size <= MAXFILE * 512 ->
  or_full (sys_read mypid killed devread) s (fun r s' => let c := Z.min n (size - off) in r = Returned c tt /\ ofile s' = ofile s /\
    (forall k, 0 <= k < sz s -> umem s' !! Z.to_nat k = if decide (p <= k < p + c) then Some (bytes (off + (k - p))) else umem s !! Z.to_nat k) /\
    exists x' i', open_at (ufiles s') f x' i' bytes size (off + c) /\ txs (ufiles s') = txs (ufiles s)).
Proof.
  intros Hs Hn31 [[fd A1] A2 A3] Ho Hr Hoff Hfit. destruct (argptr_total s 1 n Hs Hn31) as (r & Er & Hp). rewrite A3 in Er. injection Er as <-.
  destruct (Hp p eq_refl) as (P1 & P2 & P3).
  unfold sys_read. eapply or_full_step; [exact A1|]. eapply or_full_step; [exact A2|]. eapply or_full_step; [exact A3|].
  eapply or_full_bind; [apply or_full_files, (fileread_reads mypid killed devread (ufiles s) f x i bytes size off n Ho Hr Hoff Hfit P1); unfold MAXFILE in *; lia|].
  intros r s' (t & -> & -> & x' & i' & Ho' & Htx). eapply or_full_step; [reflexivity|]. eapply or_full_ret; [reflexivity|]. set (c := Z.min n (size - off)) in *.
  split; [done|]. split; [done|]. split; [|by exists x', i'].
  intros k Hk. cbn. unfold sz in *. assert (Hlc : length (bytes <$> seqZ off c) = Z.to_nat c) by (rewrite length_fmap, length_seqZ; lia). case_decide as Hin.
  - rewrite list_lookup_inserts by lia. rewrite list_lookup_fmap, lookup_seqZ_lt by lia. cbn. do 2 f_equal. lia.
  - destruct (Z.lt_ge_cases k p); [by rewrite list_lookup_inserts_lt by lia|by rewrite list_lookup_inserts_ge by lia].
Qed.

(** ** Descriptors *)

Lemma fdalloc_ok s f :
  (exists fd, ofile s !! fd = Some None /\ (forall j, (j < fd)%nat -> ofile s !! j <> Some None) /\ fdalloc f s = Ret (Some fd) (s <| ofile ::= <[fd := Some f]> |>)) \/
  (fdalloc f s = Ret None s /\ forall fd, ofile s !! fd <> Some None).
Proof.
  unfold fdalloc. erewrite bind_ret; [|reflexivity]. destruct (findi _ (ofile s)) as [fd|] eqn:E; [left|right].
  - apply findi_Some in E as [([x|] & Hx & Hf) Hlow]; [done|]. exists fd. split; [done|]. split; [|done]. intros j Hj Hn. by specialize (Hlow j None Hj Hn).
  - split; [done|]. intros fd Hn. by pose proof (proj1 (findi_None _ _) E fd None Hn).
Qed.

Lemma pipeclose_total w x : exists y, pipeclose w x = Ret tt y.
Proof. destruct x as [d nr nw ro wo cs]. destruct ro, wo, w; by eexists. Qed.

(** Closing the last reference to the end of a pipe. *)
Lemma fileclose_pipe s f x q : ftable s !! f = Some x -> f_ref x = 1 -> f_type x = FD_PIPE -> fpipes s !! f_pipe x = Some q ->
  exists q', fileclose mypid f s = Ret tt (s <| ftable ::= <[f := x <| f_ref := 0 |> <| f_type := FD_NONE |>]> |> <| fpipes ::= <[f_pipe x := q']> |>).
Proof.
  intros Hx Hr Ht Hq. rewrite (fileclose_ok mypid s f x Hx) by lia. rewrite Hr, Z.eqb_refl. unfold close_object. rewrite Ht. unfold on_pipe. erewrite bind_ret; [|reflexivity].
  cbn [fpipes setf]. erewrite bind_ret; [|unfold deref; rewrite Hq; reflexivity]. destruct (pipeclose_total (f_writable x) q) as [q' ->]. exists q'. done.
Qed.

(** A failed [pipe] may leave behind only a pipe with no ends, and data in free entries
    of the file table. *)
Record pipe_undone (s s' : usys) : Prop := {
  pu_ofile : ofile s' = ofile s;
  pu_mem : umem s' = umem s;
  pu_cwd : ucwd s' = ucwd s;
  pu_fs : ffs (ufiles s') = ffs (ufiles s);
  pu_tab : same_tab (ufiles s) (ufiles s');
  pu_pipes : forall i q, fpipes (ufiles s) !! i = Some q -> fpipes (ufiles s') !! i = Some q
}.

Record pipe_made (s s' : usys) (h : list nat) (p : Z) (data : list Z) : Prop := {
  pm_ends : exists fd0 fd1 rf wf, ofile s !! fd0 = Some None /\ ofile s !! fd1 = Some None /\ (fd0 < fd1)%nat /\ rf ∉ h /\ wf ∉ h /\ rf <> wf /\ finv (ftable (ufiles s')) (wf :: rf :: h) /\
    ofile s' = <[fd1 := Some wf]> (<[fd0 := Some rf]> (ofile s)) /\
    get32 (umem s') (Z.to_nat p) = Some (u32 (Z.of_nat fd0)) /\ get32 (umem s') (Z.to_nat p + 4) = Some (u32 (Z.of_nat fd1)) /\
    (exists x, ftable (ufiles s') !! rf = Some x /\ f_type x = FD_PIPE /\ f_ref x = 1 /\ f_readable x = true /\ f_writable x = false /\ f_pipe x = length (fpipes (ufiles s))) /\
    (exists x, ftable (ufiles s') !! wf = Some x /\ f_type x = FD_PIPE /\ f_ref x = 1 /\ f_readable x = false /\ f_writable x = true /\ f_pipe x = length (fpipes (ufiles s)));
  pm_pipe : fpipes (ufiles s') = fpipes (ufiles s) ++ [Pipe data 0 0 true true []];
  pm_fs : ffs (ufiles s') = ffs (ufiles s);
  pm_mem : forall k, (k < Z.to_nat p \/ Z.to_nat p + 8 <= k)%nat -> umem s' !! k = umem s !! k
}.

Lemma put32_other (d : list Z) o v k : (k < o \/ o + 4 <= k)%nat -> put32 d o v !! k = d !! k.
Proof. intros Hk. unfold put32, le32. destruct Hk; [by rewrite list_lookup_inserts_lt|rewrite list_lookup_inserts_ge; [done|cbn; lia]]. Qed.

(** Free entries of the table, whatever data are left in them. *)
Lemma same_tab_free s s' f0 f1 x0 x1 y0 y1 : f0 <> f1 -> ftable s !! f0 = Some x0 -> ftable s !! f1 = Some x1 -> f_ref y0 = f_ref x0 -> f_type y0 = f_type x0 ->
  f_ref y1 = f_ref x1 -> f_type y1 = f_type x1 -> ftable s' = <[f1 := y1]> (<[f0 := y0]> (ftable s)) -> same_tab s s'.
Proof.
  intros Hne H0 H1 R0 T0 R1 T1 E. unfold same_tab. rewrite E, !list_fmap_insert. rewrite R0, T0, R1, T1.
  rewrite (list_insert_id _ f0) by (rewrite list_lookup_fmap, H0; done). rewrite (list_insert_id _ f1) by (rewrite list_lookup_fmap, H1; done). done.
Qed.

(** Closing both ends of a new pipe. *)
Lemma close_both t f0 f1 x0 x1 data : f0 <> f1 -> ftable t !! f0 = Some x0 -> ftable t !! f1 = Some x1 -> f_ref x0 = 0 -> f_ref x1 = 0 -> f_type x0 = FD_NONE -> f_type x1 = FD_NONE ->
  let R := File FD_PIPE 1 true false (length (fpipes t)) (f_ip x0) (f_off x0) in let W := File FD_PIPE 1 false true (length (fpipes t)) (f_ip x1) (f_off x1) in
  let t1 := Files (ffs t) (<[f1 := W]> (<[f0 := R]> (ftable t))) (fpipes t ++ [Pipe data 0 0 true true []]) (txs t) in
  exists t2 t3, fileclose mypid f0 t1 = Ret tt t2 /\ fileclose mypid f1 t2 = Ret tt t3 /\ ffs t3 = ffs t /\ same_tab t t3 /\ forall i q, fpipes t !! i = Some q -> fpipes t3 !! i = Some q.
Proof.
  intros Hne H0 H1 Hr0 Hr1 Ht0 Ht1 R W t1. assert (Hl0 : (f0 < length (ftable t))%nat) by (by eapply lookup_lt_Some). assert (Hl1 : (f1 < length (ftable t))%nat) by (by eapply lookup_lt_Some).
  assert (E0 : ftable t1 !! f0 = Some R) by (cbn; rewrite list_lookup_insert_ne by congruence; by apply list_lookup_insert_eq).
  assert (Eq : fpipes t1 !! length (fpipes t) = Some (Pipe data 0 0 true true [])) by (cbn; rewrite lookup_app_r, Nat.sub_diag by lia; done).
  destruct (fileclose_pipe t1 f0 R _ E0 eq_refl eq_refl Eq) as [q' C0]. set (t2 := t1 <| ftable ::= _ |> <| fpipes ::= _ |>) in C0.
  assert (E1 : ftable t2 !! f1 = Some W) by (cbn; rewrite list_lookup_insert_ne by congruence; apply list_lookup_insert_eq; by rewrite length_insert).
  assert (Eq2 : fpipes t2 !! length (fpipes t) = Some q') by (cbn; apply list_lookup_insert_eq; rewrite length_app; cbn; lia).
  destruct (fileclose_pipe t2 f1 W q' E1 eq_refl eq_refl Eq2) as [q2 C1]. exists t2, (t2 <| ftable ::= <[f1 := W <| f_ref := 0 |> <| f_type := FD_NONE |>]> |> <| fpipes ::= <[f_pipe W := q2]> |>). split; [done|]. split; [done|]. split; [done|]. split.
  - apply (same_tab_free t _ f0 f1 x0 x1 (R <| f_ref := 0 |> <| f_type := FD_NONE |>) (W <| f_ref := 0 |> <| f_type := FD_NONE |>)); try done.
    unfold t2, t1. cbn. rewrite (list_insert_insert_ne _ f0 f1) by congruence. by rewrite !list_insert_insert_eq.
  - intros i q Hq. assert (i < length (fpipes t))%nat by (by eapply lookup_lt_Some). cbn. rewrite !list_lookup_insert_ne by lia. by rewrite lookup_app_l.
Qed.

(** [pipe] with a buffer for the descriptors makes a pipe with two new descriptors and
    stores them, or returns -1 and leaves the process, the file table's counts and types,
    the file system and the other pipes as they were: whether there is no file, no page
    or no descriptor left. *)
Lemma sys_pipe_ok page s h p : finv (ftable (ufiles s)) h -> small_sz s -> argptr 0 8 s = Ret (Some p) s ->
  exists r s', sys_pipe mypid page s = Ret r s' /\ (r = 0 /\ (exists data, page = Some data /\ pipe_made s s' h p data) \/ r = -1 /\ pipe_undone s s').
Proof.
  intros Hi Hs Hp. destruct (argptr_total s 0 8 Hs ltac:(lia)) as (r & Er & Hb). rewrite Hp in Er. injection Er as <-. destruct (Hb p eq_refl) as (_ & P1 & P2).
  unfold sys_pipe. rewrite (bind_ret _ _ _ _ _ Hp).
  destruct (pipealloc_all_or_nothing mypid page (ufiles s) h Hi) as [(f0 & f1 & x0 & x1 & data & Epg & Hne & Hn0 & Hn1 & Hx0 & Hx1 & E)|E]; rewrite (bind_ret _ _ _ _ _ (on_files_ok _ _ _ _ E)); cbn [fst snd].
  2: { exists (-1), s. split; [by destruct s|]. right. split; [done|]. by split. }
  destruct (Hi f0 x0 Hx0) as [Hr0 Ht0], (Hi f1 x1 Hx1) as [Hr1 Ht1]. rewrite occ_pos in Hn0, Hn1. pose proof (occ_range f0 h). pose proof (occ_range f1 h).
  assert (Z0 : f_ref x0 = 0) by lia. assert (Z1 : f_ref x1 = 0) by lia.
  destruct (close_both (ufiles s) f0 f1 x0 x1 data Hne Hx0 Hx1 Z0 Z1 (Ht0 Z0) (Ht1 Z1)) as (t2 & t3 & C0 & C1 & Cf & Ct & Cp). set (t1 := Files _ _ _ _) in *. set (s1 := s <| ufiles := t1 |>).
  assert (Hund : forall s2, ofile s2 = ofile s -> umem s2 = umem s -> ucwd s2 = ucwd s -> ufiles s2 = t1 -> exists s3, (on_files (fileclose mypid f0);; on_files (fileclose mypid f1);; mret (-1)) s2 = Ret (-1) s3 /\ pipe_undone s s3).
  { intros s2 U1 U2 U3 U4. rewrite <- U4 in C0. assert (C1' : fileclose mypid f1 (ufiles (s2 <| ufiles := t2 |>)) = Ret tt t3) by exact C1. rewrite (bind_ret _ _ _ _ _ (on_files_ok _ _ _ _ C0)). rewrite (bind_ret _ _ _ _ _ (on_files_ok _ _ _ _ C1')).
    eexists. split; [reflexivity|]. split; cbn; done. }
  destruct (fdalloc_ok s1 f0) as [(fd0 & O0 & Hmin & D0)|[D0 _]]; rewrite (bind_ret _ _ _ _ _ D0).
  2: { rewrite ret_bind. rewrite ret_bind. destruct (Hund s1) as (s3 & E3 & U3); try done. exists (-1), s3. split; [exact E3|]. by right. }
  set (s2 := s1 <| ofile ::= <[fd0 := Some f0]> |>). assert (Hl0 : (fd0 < length (ofile s))%nat) by (by eapply lookup_lt_Some).
  destruct (fdalloc_ok s2 f1) as [(fd1 & O1 & Hlow & D1)|[D1 _]]; rewrite (bind_ret _ _ _ _ _ D1).
  - exists 0. eexists. split; [reflexivity|]. left. split; [done|]. exists data. split; [done|]. cbn in O1. assert (Hne2 : fd0 <> fd1) by (intros ->; by rewrite list_lookup_insert_eq in O1).
    rewrite list_lookup_insert_ne in O1 by done.
    assert (Hlt : (fd0 < fd1)%nat). { destruct (Nat.lt_total fd0 fd1) as [?|[?|Hlt]]; [done|done|]. by destruct (Hmin fd1 Hlt). }
    assert (Hlm : (Z.to_nat p + 8 <= length (umem s))%nat) by (unfold sz in *; lia). split; [|done|done|].
    + exists fd0, fd1, f0, f1. rewrite !occ_pos. split_and!; try done; cbn [umem ofile ufiles setf s2 s1].
      * cbn. apply (finv_insert _ (f0 :: h) f1 x1); [apply (finv_insert _ h f0 x0); [exact Hi|exact Hx0| |done|]|rewrite list_lookup_insert_ne by done; exact Hx1| |done|]; cbn.
        -- rewrite occ_cons, decide_True by done. lia.
        -- intros g Hg. rewrite occ_cons, decide_False by congruence. lia.
        -- rewrite (occ_cons f1 f1), decide_True by done. rewrite occ_cons, decide_False by congruence. lia.
        -- intros g Hg. rewrite (occ_cons g f1), decide_False by congruence. lia.
      * rewrite get32_put32_ne by lia. apply get32_put32_eq. cbn. lia.
      * apply get32_put32_eq. rewrite put32_length. cbn. lia.
      * eexists. split; [cbn; rewrite list_lookup_insert_ne by congruence; apply list_lookup_insert_eq; by eapply lookup_lt_Some|done].
      * eexists. split; [cbn; apply list_lookup_insert_eq; rewrite length_insert; by eapply lookup_lt_Some|done].
    + intros k Hk. cbn [umem setf s2 s1]. rewrite !put32_other by lia. done.
  - erewrite bind_ret; [|reflexivity]. destruct (Hund (s2 <| ofile ::= <[fd0 := None]> |>)) as (s3 & E3 & U3); [|done|done|done|].
    + cbn. rewrite list_insert_insert_eq. by apply list_insert_id.
    + exists (-1), s3. split; [exact E3|]. by right.
Qed.

(** ** The counts of open files *)

(** The files of the process's descriptors. *)
Definition fds (s : usys) : list nat := omap id (ofile s).

(** The counts are those of the descriptors and of the pointers [h] of other processes. *)
Record uinv (s : usys) (h : list nat) : Prop := {
  ui_counts : finv (ftable (ufiles s)) (fds s ++ h);
  ui_length : length (ofile s) = NOFILE;
  ui_small : Z.of_nat (length h) < 2 ^ 31 - 20
}.

(** The descriptors and the file table's counts and types are kept. *)
Definition usame (s s' : usys) : Prop := same_tab (ufiles s) (ufiles s') /\ ofile s' = ofile s.

#[local] Instance usame_preorder : PreOrder usame.
Proof.
  split; [by intros s|]. intros s1 s2 s3 [H1 H2] [H3 H4]. split; [|congruence]. unfold same_tab in *. congruence.
Qed.

Lemma usame_inv s s' h : usame s s' -> uinv s h -> uinv s' h.
Proof. intros [H1 H2] [U1 U2 U3]. split; [|by rewrite H2|done]. unfold fds. rewrite H2. by eapply same_tab_inv. Qed.

Lemma files_same {A} (m : M files A) : keeps same_tab m -> keeps usame (on_files m).
Proof.
  intros Hm s a s'. unfold on_files, zoom. destruct (m (ufiles s)) as [b t| | |] eqn:E; try done. intros [= <- <-]. split; [by apply (Hm _ _ _ E)|done].
Qed.

Lemma onfs_same {A} (m : M fs A) : keeps usame (onfs m).
Proof. apply files_same. intros s a s'. unfold on_fs, zoom. destruct (m (ffs s)); try done. by intros [= <- <-]. Qed.

Lemma begin_same : keeps usame begin.
Proof. apply files_same. by apply keeps_modify. Qed.

Lemma finish_same : keeps usame finish.
Proof. apply files_same. by apply keeps_modify. Qed.

Lemma put_user_same p bs : keeps usame (put_user p bs).
Proof. by apply keeps_modify. Qed.
Hint Resolve onfs_same begin_same finish_same put_user_same : keeps.

Ltac same_auto := repeat first [solve [eauto with keeps]|keeps_step]; try typeclasses eauto.

Lemma fetchint_same a : keeps usame (fetchint a).
Proof. unfold fetchint. same_auto. Qed.
Hint Resolve fetchint_same : keeps.

Lemma fetchstr_same a : keeps usame (fetchstr a).
Proof. unfold fetchstr. same_auto. Qed.

Lemma argint_same n : keeps usame (argint n).
Proof. unfold argint. same_auto. Qed.
Hint Resolve fetchstr_same argint_same : keeps.

Lemma argptr_same n k : keeps usame (argptr n k).
Proof. unfold argptr. same_auto. Qed.

Lemma argpath_same n : keeps usame (argpath n).
Proof. unfold argpath, argstr, user_bytes. same_auto. Qed.

Lemma argfd_same n : keeps usame (argfd n).
Proof. unfold argfd. same_auto. Qed.

Lemma user_bytes_same p n : keeps usame (user_bytes p n).
Proof. unfold user_bytes. same_auto. Qed.

Lemma namei_same path : keeps usame (cwd_namei mypid devread path).
Proof. unfold cwd_namei. same_auto. Qed.

Lemma nameiparent_same path : keeps usame (cwd_nameiparent mypid devread path).
Proof. unfold cwd_nameiparent. same_auto. Qed.
Hint Resolve argptr_same argpath_same argfd_same user_bytes_same namei_same nameiparent_same : keeps.

Lemma link_bad_same ip : keeps usame (link_bad mypid ip).
Proof. unfold link_bad. same_auto. Qed.
Hint Resolve link_bad_same : keeps.

Lemma sys_link_same : keeps usame (sys_link mypid devread devwrite).
Proof. unfold sys_link. same_auto. Qed.

Lemma sys_unlink_same : keeps usame (sys_unlink mypid devread devwrite).
Proof. unfold sys_unlink, unlink_bad. same_auto. Qed.

Lemma create_same path t ma mi : keeps usame (create mypid devread devwrite path t ma mi).
Proof. unfold create. same_auto. Qed.
Hint Resolve create_same : keeps.

Lemma open_inode_same path m : keeps usame (open_inode mypid devread devwrite path m).
Proof. unfold open_inode. same_auto. Qed.

Lemma make_node_same path t ma mi : keeps usame (make_node mypid devread devwrite path t ma mi).
Proof. unfold make_node. same_auto. Qed.
Hint Resolve open_inode_same make_node_same : keeps.

Lemma sys_mkdir_same : keeps usame (sys_mkdir mypid devread devwrite).
Proof. unfold sys_mkdir. same_auto. Qed.

Lemma sys_mknod_same : keeps usame (sys_mknod mypid devread devwrite).
Proof. unfold sys_mknod. same_auto. Qed.

Lemma sys_chdir_same : keeps usame (sys_chdir mypid devread).
Proof. unfold sys_chdir. same_auto. by apply keeps_modify. Qed.

Lemma sys_read_same : keeps usame (sys_read mypid killed devread).
Proof. unfold sys_read. same_auto. apply files_same. by apply fileread_tab. Qed.

Lemma sys_write_same : keeps usame (sys_write mypid killed devwrite).
Proof. unfold sys_write. same_auto. apply files_same. by apply filewrite_tab. Qed.

Lemma sys_fstat_same : keeps usame (sys_fstat mypid).
Proof. unfold sys_fstat. same_auto; [apply files_same; by apply filestat_tab|by apply keeps_modify]. Qed.

Lemma occ_perm f l l' : l ≡ₚ l' -> occ f l = occ f l'.
Proof. intros H. unfold occ. by rewrite H. Qed.

Lemma finv_perm tab l l' : l ≡ₚ l' -> finv tab l -> finv tab l'.
Proof. intros Hp Hi f x Hx. rewrite <- (occ_perm f l l' Hp). by apply Hi. Qed.

Lemma omap_set (t : list (option nat)) i f : t !! i = Some None -> omap id (<[i := Some f]> t) ≡ₚ f :: omap id t.
Proof.
  revert i. induction t as [|o t IH]; intros [|i] H; cbn in H; [done|done|by injection H as ->|]. cbn. destruct o; cbn; rewrite (IH i H); [apply Permutation_swap|done].
Qed.

Lemma omap_clear (t : list (option nat)) i f : t !! i = Some (Some f) -> omap id t ≡ₚ f :: omap id (<[i := None]> t).
Proof.
  revert i. induction t as [|o t IH]; intros [|i] H; cbn in H; [done|done|by injection H as ->|]. cbn. destruct o; cbn; rewrite (IH i H); [apply Permutation_swap|done].
Qed.

Lemma omap_length (t : list (option nat)) : (length (omap id t) <= length t)%nat.
Proof. induction t as [|[x|] t IH]; cbn; lia. Qed.

Lemma uinv_finv s h : uinv s h -> finv' (ufiles s) (fds s ++ h).
Proof.
  intros [U1 U2 U3]. split; [done|]. intros f. pose proof (occ_range f (fds s ++ h)) as Hr. rewrite length_app in Hr. unfold fds in *. pose proof (omap_length (ofile s)) as Hl. rewrite U2 in Hl. unfold NOFILE in Hl. lia.
Qed.

Lemma argint_pure n : keeps eq (argint n).
Proof. unfold argint, fetchint. repeat keeps_step; typeclasses eauto. Qed.

Lemma argfd_inv n s r s' : argfd n s = Ret r s' -> s' = s /\ forall fd f, r = Some (fd, f) -> ofile s !! fd = Some (Some f).
Proof.
  intros H. unfold argfd in H. apply bind_inv in H as (o & s1 & H1 & H). 
  apply argint_pure in H1 as <-.
  destruct o as [fd|]; [|injection H as <- <-; by split]. destruct (_ || _); [injection H as <- <-; by split|]. msimp in H. destruct (ofile s !! Z.to_nat fd) as [[f|]|] eqn:E; try done; injection H as <- <-; (split; [done|]); [|done].
  intros fd' f' [= <- <-]. done.
Qed.

Lemma fd_in_fds s fd f : ofile s !! fd = Some (Some f) -> f ∈ fds s.
Proof. intros H. unfold fds. apply list_elem_of_omap. exists (Some f). split; [by apply list_elem_of_lookup_2 in H|done]. Qed.

(** A new descriptor for a file to which there is one pointer more. *)
Lemma fdalloc_inv s f h fd s' : length (ofile s) = NOFILE -> finv (ftable (ufiles s)) (fds s ++ f :: h) -> Z.of_nat (length h) < 2 ^ 31 - 20 -> fdalloc f s = Ret (Some fd) s' ->
  uinv s' h /\ ofile s' !! fd = Some (Some f).
Proof.
  intros Hlen Hi Hh Hf. destruct (fdalloc_ok s f) as [(fd' & Ho & _ & E)|[E _]]; rewrite Hf in E; [|done]. injection E as -> ->. split.
  - split; [|by cbn; rewrite length_insert|done]. cbn. unfold fds in *. cbn [ofile setf]. eapply finv_perm; [|exact Hi]. rewrite (omap_set _ _ _ Ho). symmetry. apply Permutation_middle.
  - cbn. apply list_lookup_insert_eq. by eapply lookup_lt_Some.
Qed.

Lemma on_files_inv {A} (m : M files A) s a s' : on_files m s = Ret a s' -> exists t, m (ufiles s) = Ret a t /\ s' = s <| ufiles := t |>.
Proof. unfold on_files, zoom. destruct (m (ufiles s)) as [b t| | |]; try done. intros [= <- <-]. by exists t. Qed.

(** The step of the file table, with the process's descriptors. *)
Lemma files_inv s h t l l' : uinv s h -> fds s ++ h ≡ₚ l -> fstep mypid killed devread devwrite (ufiles s, l) (t, l') -> finv (ftable t) l'.
Proof.
  intros Hu Hp Hst. destruct (uinv_finv s h Hu) as [F1 F2]. refine (proj1 (fstep_inv mypid killed devread devwrite (ufiles s) l t l' _ Hst)).
  split; [by eapply finv_perm|]. intros f. rewrite <- (occ_perm f _ _ Hp). apply F2.
Qed.

Lemma sys_dup_inv s h r s' : uinv s h -> sys_dup s = Ret r s' -> uinv s' h.
Proof.
  intros Hu H. unfold sys_dup in H. apply bind_inv in H as (a & s1 & Ha & H). apply argfd_inv in Ha as [-> Ha]. destruct a as [[fd f]|]; [|by injection H as <- <-].
  specialize (Ha fd f eq_refl). apply bind_inv in H as (fd' & s2 & Hfd & H). destruct (fdalloc_ok s f) as [(fd2 & Ho & _ & E)|[E _]]; rewrite Hfd in E; injection E as -> ->; [|by injection H as <- <-].
  apply bind_inv in H as (f' & s3 & Hd & H). injection H as _ <-. apply on_files_inv in Hd as (t & Hd & ->). cbn [ufiles setf] in Hd. destruct Hu as [U1 U2 U3].
  assert (f' = f) as ->. { unfold filedup in Hd. apply bind_inv in Hd as (x & t1 & _ & Hd). destruct (_ <? _); [done|]. apply bind_inv in Hd as (_ & t2 & _ & Hd). by injection Hd as ->. }
  assert (Hf : finv (ftable t) (f :: fds s ++ h)).
  { eapply (files_inv s h t (fds s ++ h)); [by split|done|]. apply f_dup with (f := f); [apply elem_of_app; left; by eapply fd_in_fds| |done].
    rewrite length_app. pose proof (omap_length (ofile s)). unfold fds, NOFILE in *. lia. }
  split; [|by cbn; rewrite length_insert|done]. cbn. unfold fds in *. cbn [ofile setf]. eapply finv_perm; [|exact Hf]. by rewrite (omap_set _ _ _ Ho).
Qed.

Lemma sys_close_inv s h r s' : uinv s h -> sys_close mypid s = Ret r s' -> uinv s' h.
Proof.
  intros Hu H. unfold sys_close in H. apply bind_inv in H as (a & s1 & Ha & H). apply argfd_inv in Ha as [-> Ha]. destruct a as [[fd f]|]; [|by injection H as <- <-].
  specialize (Ha fd f eq_refl). apply bind_inv in H as (u & s2 & Hm & H). injection Hm as _ <-. apply bind_inv in H as ([] & s3 & Hc & H). injection H as _ <-. apply on_files_inv in Hc as (t & Hc & ->). cbn [ufiles setf] in Hc.
  pose proof Hu as [U1 U2 U3]. split; [|by cbn; rewrite length_insert|done]. cbn. eapply (files_inv s h t (f :: fds (s <| ofile ::= <[fd := None]> |>) ++ h)); [done| |].
  - unfold fds. cbn. by rewrite (omap_clear _ _ _ Ha).
  - by apply (f_close _ _ _ _ (ufiles s) [] f).
Qed.

Lemma open_fd_inv s h r s' : uinv s h -> open_fd mypid s = Ret r s' -> uinv s' h /\ forall f fd, r = Some (f, fd) -> f ∈ fds s'.
Proof.
  intros Hu H. unfold open_fd in H. apply bind_inv in H as (o & s1 & Ho & H). apply on_files_inv in Ho as (t & Ho & ->). destruct o as [f|].
  2: { injection H as <- <-. split; [|done]. unfold filealloc in Ho. msimp in Ho. destruct (findi _ _) as [f|] eqn:Ef; [|injection Ho as <-; by destruct s]. destruct (upd_file _ _ _) in Ho; done. }
  assert (Hf : finv (ftable t) (f :: fds s ++ h)) by (eapply (files_inv s h t (fds s ++ h)); [done|done|by apply f_alloc]).
  pose proof Hu as [U1 U2 U3]. apply bind_inv in H as (fd & s2 & Hfd & H). destruct fd as [fd|].
  - injection H as <- <-. destruct (fdalloc_inv (s <| ufiles := t |>) f h fd s2) as [H1 H2]; [done| |done|done|].
    + cbn. eapply finv_perm; [|exact Hf]. apply Permutation_middle.
    + split; [done|]. intros f' fd' [= <- <-]. by eapply fd_in_fds.
  - destruct (fdalloc_ok (s <| ufiles := t |>) f) as [(fd' & _ & _ & E)|[E _]]; rewrite Hfd in E; [done|]. injection E as ->. apply bind_inv in H as ([] & s3 & Hc & H). injection H as <- <-.
    split; [|done]. apply on_files_inv in Hc as (t2 & Hc & ->). cbn [ufiles setf] in Hc. split; [|done|done]. cbn.
    destruct (uinv_finv s h Hu) as [F1 F2]. assert (Hl : forall g, occ g (f :: fds s ++ h) <= 2 ^ 31 - 1).
    { intros g. pose proof (occ_range g (f :: fds s ++ h)) as Hr. cbn in Hr. rewrite length_app in Hr. pose proof (omap_length (ofile s)). unfold fds, NOFILE in *. lia. }
    refine (proj1 (fstep_inv mypid killed devread devwrite t (f :: fds s ++ h) t2 (fds s ++ h) (conj Hf Hl) _)). by apply (f_close _ _ _ _ t [] f).
Qed.

Lemma sys_open_inv s h r s' : uinv s h -> sys_open mypid devread devwrite s = Ret r s' -> uinv s' h.
Proof.
  intros Hu H. unfold sys_open in H. apply bind_inv in H as (path & s1 & H1 & H). pose proof (usame_inv _ _ h (argpath_same _ _ _ _ H1) Hu) as Hu1. destruct path as [path|]; [|by injection H as <- <-].
  apply bind_inv in H as (om & s2 & H2 & H). pose proof (usame_inv _ _ h (argint_same _ _ _ _ H2) Hu1) as Hu2. destruct om as [om|]; [|by injection H as <- <-].
  apply bind_inv in H as (u & s3 & H3 & H). pose proof (usame_inv _ _ h (begin_same _ _ _ H3) Hu2) as Hu3.
  apply bind_inv in H as (ip & s4 & H4 & H). pose proof (usame_inv _ _ h (open_inode_same _ _ _ _ _ H4) Hu3) as Hu4. destruct ip as [ip|].
  2: { apply bind_inv in H as (u' & s5 & H5 & H). injection H as <- <-. by apply (usame_inv _ _ h (finish_same _ _ _ H5)). }
  apply bind_inv in H as (o & s5 & H5 & H). destruct (open_fd_inv s4 h o s5 Hu4 H5) as [Hu5 Hin]. destruct o as [[f fd]|].
  2: { apply bind_inv in H as (u1 & s6 & H6 & H). apply bind_inv in H as (u2 & s7 & H7 & H). injection H as <- <-.
       apply (usame_inv _ _ h (finish_same _ _ _ H7)), (usame_inv _ _ h (onfs_same _ _ _ _ H6)), Hu5. }
  apply bind_inv in H as (u1 & s6 & H6 & H). apply bind_inv in H as (u2 & s7 & H7 & H). pose proof (onfs_same _ _ _ _ H6) as Hs6. pose proof (finish_same _ _ _ H7) as Hs7.
  assert (Hs : usame s5 s7) by (by transitivity s6). pose proof (usame_inv _ _ h Hs Hu5) as Hu7. apply bind_inv in H as ([] & s8 & H8 & H). injection H as <- <-. apply on_files_inv in H8 as (t & H8 & ->).
  pose proof Hu7 as [U1 U2 U3]. split; [|done|done]. cbn. change (fds (s7 <| ufiles := t |>)) with (fds s7). eapply (files_inv s7 h t (fds s7 ++ h)); [done|done|].
  eapply f_set; [|exact H8]. apply elem_of_app. left. unfold fds. rewrite (proj2 Hs). by apply (Hin f fd).
Qed.

Lemma sys_pipe_inv page s h r s' : small_sz s -> uinv s h -> sys_pipe mypid page s = Ret r s' -> uinv s' h.
Proof.
  intros Hs Hu H. destruct (argptr_total s 0 8 Hs ltac:(lia)) as (o & Ep & _). destruct o as [p|].
  2: { unfold sys_pipe in H. rewrite (bind_ret _ _ _ _ _ Ep) in H. by injection H as <- <-. }
  destruct Hu as [U1 U2 U3]. destruct (sys_pipe_ok page s (fds s ++ h) p U1 Hs Ep) as (r' & s1 & E & [(_ & data & _ & Hm)|[_ Hn]]); rewrite H in E; injection E as <- <-.
  - destruct Hm as [(fd0 & fd1 & rf & wf & O0 & O1 & Hlt & _ & _ & _ & Hi & Eo & _) _ _ _]. split; [|by rewrite Eo, !length_insert|done]. eapply finv_perm; [|exact Hi].
    unfold fds. rewrite Eo, omap_set by (rewrite list_lookup_insert_ne by lia; done). rewrite (omap_set _ _ _ O0). done.
  - apply (usame_inv s); [|by split]. destruct Hn. by split.
Qed.

(** The process runs and makes system calls with any arguments. *)
Inductive ustep : usys -> usys -> Prop :=
  | us_user s m e : Z.of_nat (length m) <= 2 ^ 31 -> ustep s (s <| umem := m |> <| uesp := e |>)
  | us_dup s r s' : sys_dup s = Ret r s' -> ustep s s'
  | us_close s r s' : sys_close mypid s = Ret r s' -> ustep s s'
  | us_pipe page s r s' : small_sz s -> sys_pipe mypid page s = Ret r s' -> ustep s s'
  | us_open s r s' : sys_open mypid devread devwrite s = Ret r s' -> ustep s s'
  | us_read s r s' : sys_read mypid killed devread s = Ret r s' -> ustep s s'
  | us_write s r s' : sys_write mypid killed devwrite s = Ret r s' -> ustep s s'
  | us_fstat s r s' : sys_fstat mypid s = Ret r s' -> ustep s s'
  | us_link s r s' : sys_link mypid devread devwrite s = Ret r s' -> ustep s s'
  | us_unlink s r s' : sys_unlink mypid devread devwrite s = Ret r s' -> ustep s s'
  | us_mkdir s r s' : sys_mkdir mypid devread devwrite s = Ret r s' -> ustep s s'
  | us_mknod s r s' : sys_mknod mypid devread devwrite s = Ret r s' -> ustep s s'
  | us_chdir s r s' : sys_chdir mypid devread s = Ret r s' -> ustep s s'.

Lemma ustep_inv s s' h : uinv s h -> ustep s s' -> uinv s' h.
Proof.
  intros Hu Hst. destruct Hst; [by destruct Hu; split|by eapply sys_dup_inv|by eapply sys_close_inv|by eapply sys_pipe_inv|by eapply sys_open_inv|..]; (eapply usame_inv; [|exact Hu]).
  - by eapply sys_read_same.
  - by eapply sys_write_same.
  - by eapply sys_fstat_same.
  - by eapply sys_link_same.
  - by eapply sys_unlink_same.
  - by eapply sys_mkdir_same.
  - by eapply sys_mknod_same.
  - by eapply sys_chdir_same.
Qed.

Lemma ustep_reachable s0 s h : uinv s0 h -> rtc ustep s0 s -> uinv s h.
Proof. intros Hu Hr. induction Hr as [|x y z Hst _ IH]; [done|]. apply IH. by eapply ustep_inv. Qed.

(** [close] of the last pointer to [f], descriptor [fd]: the entry is free, and the end
    of the pipe is closed, or the inode is put. *)
Definition last_close (s : usys) (fd f : nat) (x : file) : Prop :=
  let closed (t : files) := Ret 0 (s <| ofile ::= <[fd := None]> |> <| ufiles := t |>) in
  let t := (ufiles s) <| ftable ::= <[f := x <| f_ref := 0 |> <| f_type := FD_NONE |>]> |> in
  match f_type x with
  | FD_NONE => sys_close mypid s = closed t
  | FD_PIPE => forall p, fpipes (ufiles s) !! f_pipe x = Some p ->
      exists p', sys_close mypid s = closed (t <| fpipes ::= <[f_pipe x := p']> |>) /\
        readopen p' = readopen p && f_writable x /\ writeopen p' = writeopen p && negb (f_writable x) /\
        pdata p' = pdata p /\ nread p' = nread p /\ nwrite p' = nwrite p
  | FD_INODE => forall fs', iput mypid (f_ip x) ((ffs (ufiles s)) <| flog := [] |>) = Ret tt fs' ->
      sys_close mypid s = closed (t <| ffs := fs' |> <| txs ::= fun l => l ++ [flog fs'] |>) /\
      exists c, cores (ffs (ufiles s)) !! f_ip x = Some c /\ cores fs' = <[f_ip x := drop_ref c]> (cores (ffs (ufiles s)))
  end.

Lemma pipeclose_ok w p : exists p', pipeclose w p = Ret tt p' /\ readopen p' = readopen p && w /\
  writeopen p' = writeopen p && negb w /\ pdata p' = pdata p /\ nread p' = nread p /\ nwrite p' = nwrite p.
Proof.
  unfold pipeclose, note_call. destruct w; msimp; match goal with |- context [if ?b then _ else _] => destruct b end;
    eexists; (split; [reflexivity|]); cbn; by rewrite ?andb_true_r, ?andb_false_r.
Qed.

Lemma sys_close_last s fd f x : argfd 0 s = Ret (Some (fd, f)) s -> ftable (ufiles s) !! f = Some x -> f_ref x = 1 ->
  last_close s fd f x.
Proof.
  intros Ha Hx Hr. unfold last_close. set (t := (ufiles s) <| ftable ::= _ |>).
  assert (Hclose : forall t', close_object mypid x t = Ret tt t' ->
    sys_close mypid s = Ret 0 (s <| ofile ::= <[fd := None]> |> <| ufiles := t' |>)).
  { intros t' Ht. unfold sys_close. rewrite (bind_ret _ _ _ _ _ Ha). erewrite bind_ret; [|reflexivity].
    erewrite bind_ret; [reflexivity|]. apply on_files_ok. cbn [ufiles setf].
    rewrite (fileclose_ok mypid (ufiles s) f x Hx) by lia. rewrite Hr. exact Ht. }
  unfold close_object in Hclose. destruct (f_type x).
  - by apply Hclose.
  - intros p Hp. destruct (pipeclose_ok (f_writable x) p) as (p' & Hrun & Hrest). exists p'. split; [|done].
    apply Hclose. unfold on_pipe. erewrite bind_ret; [|reflexivity]. change (fpipes t) with (fpipes (ufiles s)). rewrite Hp.
    cbn [deref]. rewrite ret_bind, Hrun. reflexivity.
  - intros fs' Hput. split.
    + apply Hclose. set (t1 := t <| ffs ::= fun t => t <| flog := [] |> |>). rewrite (bind_ret begin_op _ _ tt t1 eq_refl).
      rewrite (bind_ret (on_fs (iput mypid (f_ip x))) _ _ tt (t1 <| ffs := fs' |>)); [reflexivity|].
      unfold on_fs, zoom. change (ffs t1) with ((ffs (ufiles s)) <| flog := [] |>). by rewrite Hput.
    + destruct (iput_core _ _ _ _ Hput) as (c & Hc & Hcs). by exists c.
Qed.

(** C31. Descriptors are counted: after any system calls on files, with any arguments and
    any memory, the count of every open file is the number of the process's descriptors
    for it and of the pointers to it elsewhere.  From there [dup] of a descriptor that is
    open returns the lowest free descriptor or -1, and never panics.  [close] of one with
    other pointers to the file only counts down; [close] of the last frees the entry of
    the file and releases what it stands for: this end of the pipe is closed, or the
    inode is given to [iput], in an operation of the log, and has one reference less. *)
Theorem descriptors_counted s0 s h : uinv s0 h -> rtc ustep s0 s ->
  (forall f x, ftable (ufiles s) !! f = Some x -> f_ref x = occ f (fds s) + occ f h) /\
  (forall fd f x, argfd 0 s = Ret (Some (fd, f)) s -> ftable (ufiles s) !! f = Some x ->
     (exists fd', ofile s !! fd' = Some None /\ (forall j, (j < fd')%nat -> ofile s !! j <> Some None) /\
        sys_dup s = Ret (Z.of_nat fd') (s <| ofile ::= <[fd' := Some f]> |> <| ufiles ::= fun t => t <| ftable ::= <[f := x <| f_ref := f_ref x + 1 |>]> |> |>)) \/
     sys_dup s = Ret (-1) s /\ forall j, ofile s !! j <> Some None) /\
  (forall fd f x, argfd 0 s = Ret (Some (fd, f)) s -> ftable (ufiles s) !! f = Some x -> occ f (fds s) + occ f h <> 1 ->
     sys_close mypid s = Ret 0 (s <| ofile ::= <[fd := None]> |> <| ufiles ::= fun t => t <| ftable ::= <[f := x <| f_ref := f_ref x - 1 |>]> |> |>)) /\
  (forall fd f x, argfd 0 s = Ret (Some (fd, f)) s -> ftable (ufiles s) !! f = Some x -> occ f (fds s) + occ f h = 1 ->
     last_close s fd f x).
Proof.
  intros H0 Hr. pose proof (ustep_reachable s0 s h H0 Hr) as Hu. destruct (uinv_finv s h Hu) as [F1 F2]. assert (Happ : forall f, occ f (fds s ++ h) = occ f (fds s) + occ f h).
  { intros f. unfold occ. rewrite filter_app, length_app. lia. }
  assert (Hbound : forall fd f x, ofile s !! fd = Some (Some f) -> ftable (ufiles s) !! f = Some x -> 1 <= f_ref x < 2 ^ 31 - 1).
  { intros fd f x Hfd Hx. destruct (F1 f x Hx) as [-> _]. assert (Hin : f ∈ fds s ++ h) by (apply elem_of_app; left; by eapply fd_in_fds). apply occ_pos in Hin.
    pose proof (occ_range f (fds s ++ h)) as Hrg. rewrite length_app in Hrg. pose proof (omap_length (ofile s)) as Hol. destruct Hu as [_ U2 U3]. unfold fds, NOFILE in *. lia. }
  split_and!.
  - intros f x Hx. rewrite <- Happ. by apply F1.
  - intros fd f x Ha Hx. destruct (argfd_inv _ _ _ _ Ha) as [_ Hfd]. specialize (Hfd fd f eq_refl). unfold sys_dup. rewrite (bind_ret _ _ _ _ _ Ha).
    destruct (fdalloc_ok s f) as [(fd' & O1 & O2 & E)|[E O1]]; rewrite (bind_ret _ _ _ _ _ E); [left|right; by split]. exists fd'. split; [done|]. split; [done|].
    erewrite bind_ret; [|apply on_files_ok, filedup_ok; [exact Hx|by eapply Hbound]]. done.
  - intros fd f x Ha Hx Hne. destruct (argfd_inv _ _ _ _ Ha) as [_ Hfd]. specialize (Hfd fd f eq_refl). unfold sys_close. rewrite (bind_ret _ _ _ _ _ Ha). erewrite bind_ret; [|reflexivity].
    pose proof (Hbound fd f x Hfd Hx) as Hb. erewrite bind_ret; [|apply on_files_ok; cbn [ufiles setf]; rewrite (fileclose_ok mypid (ufiles s) f x Hx) by lia; rewrite (proj2 (Z.eqb_neq (f_ref x) 1)) by (destruct (F1 f x Hx) as [-> _]; rewrite Happ; done); reflexivity].
    done.
  - intros fd f x Ha Hx H1. apply (sys_close_last s fd f x Ha Hx). destruct (F1 f x Hx) as [-> _]. by rewrite Happ.
Qed.

(** C33. [pipe], after any system calls, with a buffer for the descriptors: it makes a pipe
    with two new descriptors and stores them, or returns -1 and leaves the process, the
    file table's counts and types, the file system and the other pipes as they were,
    whether there is no file, no page or no descriptor left. *)
Theorem sys_pipe_all_or_nothing s0 s h page p : uinv s0 h -> rtc ustep s0 s -> small_sz s -> argptr 0 8 s = Ret (Some p) s ->
  exists r s', sys_pipe mypid page s = Ret r s' /\ (r = 0 /\ (exists data, page = Some data /\ pipe_made s s' (fds s ++ h) p data) \/ r = -1 /\ pipe_undone s s').
Proof.
  intros H0 Hr Hs Hp. destruct (ustep_reachable s0 s h H0 Hr) as [U1 _ _]. by apply sys_pipe_ok.
Qed.
End Process.

(** ** A small process

    64 bytes of memory; the arguments on the stack are descriptor 0, address 20 and
    length 3, and the bytes at 20 are 7, 8, 9. *)
Definition demo_mem : list Z := [0; 0; 0; 0; 0; 0; 0; 0; 20; 0; 0; 0; 3; 0; 0; 0; 0; 0; 0; 0; 7; 8; 9] ++ replicate 41 0.
Definition demo_proc (t : files) (fd0 : option nat) : usys := Usys t demo_mem 0 (fd0 :: replicate 15 None) 0.

Lemma demo_small t o : small_sz (demo_proc t o).
Proof. done. Qed.

Lemma demo_args t : rw_args (demo_proc t (Some 0%nat)) 0 20 3.
Proof. split; [by exists 0%nat|done|done]. Qed.

Lemma arguments_in_bounds_witness : argint 1 (demo_proc two_files None) = Ret (Some 20) (demo_proc two_files None) /\
  argptr 1 3 (demo_proc two_files None) = Ret (Some 20) (demo_proc two_files None) /\
  argint 30 (demo_proc two_files None) = Ret None (demo_proc two_files None).
Proof.
  destruct (arguments_in_bounds (demo_proc two_files None) 1 3 0 (demo_small _ _)) as ((E1 & _) & (r & E & H) & _); [lia|lia|].
  destruct (arguments_in_bounds (demo_proc two_files None) 30 3 0 (demo_small _ _)) as ((E2 & _) & _); [lia|lia|].
  split; [exact E1|]. split; [|exact E2]. rewrite E. f_equal. apply H. split_and!; by vm_compute.
Defined.

Lemma sys_write_writes_witness :
  or_full (sys_write 1 false (fun _ => None)) (demo_proc small_files (Some 0%nat)) (fun r s' => r = Returned 3 tt).
Proof.
  eapply or_full_mono; [apply (sys_write_writes 1 false (fun _ => None) (fun _ => None) (demo_proc small_files (Some 0%nat)) 0 20 3 _ _ _ _ _ (demo_small _ _) ltac:(lia) (demo_args _) small_open); [done|lia|unfold MAXFILE, NDIRECT, NINDIRECT; lia]|].
  intros r s' [H _]. exact H.
Defined.

Lemma sys_read_reads_witness :
  or_full (sys_read 1 false (fun _ => None)) (demo_proc small_files (Some 0%nat)) (fun r s' => r = Returned 0 tt).
Proof.
  eapply or_full_mono; [apply (sys_read_reads 1 false (fun _ => None) (demo_proc small_files (Some 0%nat)) 0 20 3 _ _ _ _ _ (demo_small _ _) ltac:(lia) (demo_args _) small_open); [done|lia|unfold MAXFILE, NDIRECT, NINDIRECT; lia]|].
  intros r s' [H _]. exact H.
Defined.

Lemma demo_uinv : uinv (demo_proc two_files None) [].
Proof. split; [|done|done]. intros [|[|f]] x; cbn; [intros [= <-]|intros [= <-]|]; done. Qed.

Lemma demo_argptr : argptr 0 8 (demo_proc two_files None) = Ret (Some 0) (demo_proc two_files None).
Proof. reflexivity. Qed.

Lemma sys_pipe_all_or_nothing_witness : exists r s', sys_pipe 1 (Some (replicate 512 0)) (demo_proc two_files None) = Ret r s' /\ (r = 0 \/ r = -1).
Proof.
  destruct (sys_pipe_all_or_nothing 1 false (fun _ => None) (fun _ => None) _ _ _ (Some (replicate 512 0)) 0 demo_uinv (rtc_refl _ _) (demo_small _ _) demo_argptr) as (r & s' & E & H).
  exists r, s'. split; [exact E|]. destruct H as [[H _]|[H _]]; [left|right]; exact H.
Defined.

(** After [pipe] the argument is descriptor 1, the only pointer to the write end. *)
Definition piped : usys :=
  match sys_pipe 1 (Some (replicate 512 0)) (demo_proc two_files None) with Ret _ s => s | _ => demo_proc two_files None end.

Lemma piped_run : sys_pipe 1 (Some (replicate 512 0)) (demo_proc two_files None) = Ret 0 piped.
Proof. reflexivity. Qed.

Lemma descriptors_counted_witness : sys_pipe 1 (Some (replicate 512 0)) (demo_proc two_files None) = Ret 0 piped /\
  (forall f x, ftable (ufiles piped) !! f = Some x -> f_ref x = occ f (fds piped) + occ f []) /\
  exists s' p', sys_close 1 piped = Ret 0 s' /\ fpipes (ufiles s') = [p'] /\ readopen p' = true /\ writeopen p' = false.
Proof.
  split; [exact piped_run|].
  destruct (descriptors_counted 1 false (fun _ => None) (fun _ => None) (demo_proc two_files None) piped [] demo_uinv) as (H & _ & _ & Hlast).
  { apply rtc_once. exact (us_pipe 1 false (fun _ => None) (fun _ => None) _ _ 0 piped (demo_small _ _) piped_run). }
  split; [exact H|].
  destruct (Hlast 1%nat 1%nat (File FD_PIPE 1 false true 0 0 0)) with (p := Pipe (replicate 512 0) 0 0 true true [])
    as (p' & E & Hr & Hw & _); [reflexivity..|].
  eexists _, p'. split; [exact E|]. split; [reflexivity|]. split; [exact Hr|exact Hw].
Defined.
