(* ===== verification/Sh.v ===== *)
(** * Sh: sh.c

    The shell: reading the tree of a command off a line, and running it.  The line is
    a list of characters without NUL; a pointer into it is the list of the characters
    from there to [es], so that [s < es] says that the list is not empty and [*s] at
    [es] is the NUL that ends the line.  The state of the parser is the pointer [*ps].
    The theorems are in [ShSpec]. *)

From S2P Require Import Prelude Sysfile.

Notation str := (list Z).

(** ** Commands *)

Definition MAXARGS : nat := 10.

(** A token is given by the pointers to its first character and behind its last. *)
Notation token := (str * str)%type.

(** The tree of a command, with strings of type [T]. *)
Inductive command {T : Type} :=
  | EXEC (argv : list T)
  | REDIR (c : command) (file : T) (mode fd : Z)
  | PIPE (left right : command)
  | LIST (left right : command)
  | BACK (c : command).
Arguments command : clear implicits.
Notation cmd := (command token).

(** ** Tokens *)

Definition whitespace : str := [32; 9; 13; 10; 11].
Definition symbols : str := [60; 124; 62; 38; 59; 40; 41].

Definition strchr (l : str) (c : Z) : bool := existsb (Z.eqb c) l.
Arguments strchr : simpl never.

(** [while(s < es && strchr(whitespace, *s)) s++;] *)
Fixpoint skip_ws (s : str) : str :=
  match s with c :: s' => if strchr whitespace c then skip_ws s' else s | [] => [] end.

(** [while(s < es && !strchr(whitespace, *s) && !strchr(symbols, *s)) s++;] *)
Fixpoint skip_word (s : str) : str :=
  match s with c :: s' => if negb (strchr whitespace c) && negb (strchr symbols c) then skip_word s' else s | [] => [] end.

Definition LT : Z := 60.
Definition GT : Z := 62.
Definition BAR : Z := 124.
Definition AMP : Z := 38.
Definition SEMI : Z := 59.
Definition LPAR : Z := 40.
Definition RPAR : Z := 41.
Definition PLUS : Z := 43.
Definition WORD : Z := 97.

(** The switch of [gettoken]: the kind of the token at [s] and what is behind it. *)
Definition scan (s : str) : Z * str :=
  match s with
  | [] => (0, s)
  | c :: s' =>
      if c =? 0 then (c, s)
      else if (c =? BAR) || (c =? LPAR) || (c =? RPAR) || (c =? SEMI) || (c =? AMP) || (c =? LT) then (c, s')
      else if c =? GT then (if hd 0 s' =? GT then (PLUS, tl s') else (c, s'))
      else (WORD, skip_word s)
  end.

(** The kind of the token, its first character and what is behind it. *)
Definition gettoken : M str (Z * str * str) :=
  q ← gets skip_ws;
  let '(ret, eq) := scan q in
  modify (fun _ => skip_ws eq);;
  mret (ret, q, eq).

Definition peek (toks : str) : M str bool :=
  s ← gets skip_ws;
  modify (fun _ => s);;
  mret (negb (hd 0 s =? 0) && strchr toks (hd 0 s)).

(** ** Parsing *)

(** A redirection and its file, around a command. *)
Definition redircmd (tok : Z) (file : token) (c : cmd) : cmd :=
  if tok =? LT then REDIR c file O_RDONLY 0
  else if tok =? GT then REDIR c file (Z.lor O_WRONLY O_CREATE) 1
  else if tok =? PLUS then REDIR c file (Z.lor O_WRONLY O_CREATE) 1
  else c.

(** The loop of [parseredirs]; the redirections are a function of the command, to which
    [parseexec] still adds arguments. *)
Fixpoint parseredirs (fuel : nat) (wrap : cmd -> cmd) : M str (cmd -> cmd) :=
  b ← peek [LT; GT];
  if b : bool then
    match fuel with
    | O => spin
    | S fuel =>
        t ← gettoken;
        f ← gettoken;
        if negb (f.1.1 =? WORD) then panic "missing file for redirection"
        else parseredirs fuel (fun c => redircmd t.1.1 (f.1.2, f.2) (wrap c))
    end
  else mret wrap.

(** The loop of [parseexec]. *)
Fixpoint parseargs (fuel : nat) (argv : list token) (wrap : cmd -> cmd) : M str (list token * (cmd -> cmd)) :=
  b ← peek [BAR; RPAR; AMP; SEMI];
  if b : bool then mret (argv, wrap)
  else
    match fuel with
    | O => spin
    | S fuel =>
        t ← gettoken;
        if t.1.1 =? 0 then mret (argv, wrap)
        else if negb (t.1.1 =? WORD) then panic "syntax"
        else
          let argv := argv ++ [(t.1.2, t.2)] in
          if (MAXARGS <=? length argv)%nat then panic "too many args"
          else
            wrap ← parseredirs fuel wrap;
            parseargs fuel argv wrap
    end.

(** [while(peek(ps, es, "&"))] of [parseline]. *)
Fixpoint parseback (fuel : nat) (c : cmd) : M str cmd :=
  b ← peek [AMP];
  if b : bool then
    match fuel with
    | O => spin
    | S fuel => gettoken;; parseback fuel (BACK c)
    end
  else mret c.

(** [parseline], [parsepipe], [parseexec] and [parseblock] call each other; each call
    is on a shorter line or of the next of them, so that the length of the line bounds the depth. *)
Fixpoint parseline (fuel : nat) : M str cmd :=
  match fuel with
  | O => spin
  | S fuel =>
      c ← parsepipe fuel;
      n ← gets length;
      c ← parseback n c;
      b ← peek [SEMI];
      if b : bool then gettoken;; r ← parseline fuel; mret (LIST c r) else mret c
  end
with parsepipe (fuel : nat) : M str cmd :=
  match fuel with
  | O => spin
  | S fuel =>
      c ← parseexec fuel;
      b ← peek [BAR];
      if b : bool then gettoken;; r ← parsepipe fuel; mret (PIPE c r) else mret c
  end
with parseexec (fuel : nat) : M str cmd :=
  match fuel with
  | O => spin
  | S fuel =>
      b ← peek [LPAR];
      if b : bool then parseblock fuel
      else
        n ← gets length;
        wrap ← parseredirs n id;
        a ← parseargs (S n) [] wrap;
        mret (a.2 (EXEC a.1))
  end
with parseblock (fuel : nat) : M str cmd :=
  match fuel with
  | O => spin
  | S fuel =>
      b ← peek [LPAR];
      if negb b then panic "parseblock"
      else
        gettoken;;
        c ← parseline fuel;
        b ← peek [RPAR];
        if negb b then panic "syntax - missing )"
        else
          gettoken;;
          n ← gets length;
          wrap ← parseredirs n id;
          mret (wrap c)
  end.

Definition parse_fuel (s : str) : nat := 4 * length s + 4.

(** [parsecmd] up to [nulterminate]. *)
Definition parsecmd : M str cmd :=
  n ← gets parse_fuel;
  c ← parseline n;
  peek [];;
  s ← gets id;
  match s with [] => mret c | _ => panic "syntax" end.

(** [nulterminate]: a NUL is stored behind each token, in the buffer that holds the line;
    [s] is the whole line. *)
Fixpoint nulterminate (s : str) (c : cmd) (buf : list Z) : list Z :=
  let put_nul (eq : str) (buf : list Z) := <[(length s - length eq)%nat := 0]> buf in
  match c with
  | EXEC argv => foldl (fun buf t => put_nul t.2 buf) buf argv
  | REDIR c file _ _ => put_nul file.2 (nulterminate s c buf)
  | PIPE l r | LIST l r => nulterminate s r (nulterminate s l buf)
  | BACK c => nulterminate s c buf
  end.

(** The characters of a token. *)
Definition word (t : token) : str := take (length t.1 - length t.2) t.1.

(** The command with its strings in place of the pointers to them. *)
Fixpoint cmd_map {T U} (f : T -> U) (c : command T) : command U :=
  match c with
  | EXEC argv => EXEC (f <$> argv)
  | REDIR c file mode fd => REDIR (cmd_map f c) (f file) mode fd
  | PIPE l r => PIPE (cmd_map f l) (cmd_map f r)
  | LIST l r => LIST (cmd_map f l) (cmd_map f r)
  | BACK c => BACK (cmd_map f c)
  end.

(** ** Running a command *)

(** What a descriptor refers to: a file that the shell had open, one that the command
    opened, or an end of a pipe. *)
Inductive fobj :=
  | Inherited (n : nat)
  | Opened (path : str) (mode : Z)
  | ReadEnd (k : nat)
  | WriteEnd (k : nat).

Notation fdtable := (list (option fobj)).

(** How many times [fork] and [pipe] were called, and the programs that were executed,
    with their arguments and descriptors. *)
Record world := World { forks : nat; pipes : nat; execs : list (list str * fdtable) }.
#[export] Instance eta_world : Eta world := fun r => World (forks r) (pipes r) (execs r).

(** Whether the system calls that can fail for reasons outside of the shell succeed. *)
Class Kernel := {
  fork_ok : nat -> bool;
  pipe_ok : nat -> bool;
  open_ok : str -> Z -> bool;
}.

Section Run.
Context `{Kernel}.

(** The kernel gives out the lowest free descriptor. *)
Definition fdalloc (t : fdtable) (o : fobj) : option (nat * fdtable) :=
  '(i, _) ← list_find (fun x => x = None) t;
  Some (i, <[i := Some o]> t).

Definition close (fd : nat) (t : fdtable) : fdtable := <[fd := None]> t.

(** The result of [dup] is not looked at. *)
Definition dup (fd : nat) (t : fdtable) : fdtable :=
  match t !! fd with
  | Some (Some o) => match fdalloc t o with Some (_, t') => t' | None => t end
  | _ => t
  end.

Definition open (path : str) (mode : Z) (t : fdtable) : option fdtable :=
  if open_ok path mode then snd <$> fdalloc t (Opened path mode) else None.

Definition pipe (t : fdtable) : M world (option (nat * nat * fdtable)) :=
  k ← gets pipes;
  modify (fun w => w <| pipes := S k |>);;
  mret (if pipe_ok k then '(p0, t) ← fdalloc t (ReadEnd k); '(p1, t) ← fdalloc t (WriteEnd k); Some (p0, p1, t) else None).

(** [fork1], which ends the process when [fork] fails: whether it goes on. *)
Definition fork1 : M world bool :=
  k ← gets forks;
  modify (fun w => w <| forks := S k |>);;
  mret (fork_ok k).

(** [runcmd] in a process with the descriptors [t], to the [exit] or the [exec] at its
    end.  A child is run where it is forked: it has descriptors of its own. *)
Fixpoint runcmd (c : command str) (t : fdtable) : M world unit :=
  match c with
  | EXEC argv =>
      match argv with
      | [] => mret tt
      | _ => modify (fun w => w <| execs ::= fun l => l ++ [(argv, t)] |>)
      end
  | REDIR c file mode fd =>
      match open file mode (close (Z.to_nat fd) t) with
      | None => mret tt
      | Some t => runcmd c t
      end
  | LIST l r =>
      f ← fork1;
      if f : bool then runcmd l t;; runcmd r t else mret tt
  | PIPE l r =>
      p ← pipe t;
      match p with
      | None => mret tt
      | Some (p0, p1, t) =>
          f ← fork1;
          if f : bool then
            runcmd l (close p1 (close p0 (dup p1 (close 1 t))));;
            f ← fork1;
            if f : bool then runcmd r (close p1 (close p0 (dup p0 (close 0 t)))) else mret tt
          else mret tt
      end
  | BACK c =>
      f ← fork1;
      if f : bool then runcmd c t else mret tt
  end.
End Run.

(** What the loop of [main] does with the line that [gets] left in [buf]: it changes the
    directory itself or has a child run the command. *)
Inductive action :=
  | Chdir (path : str)
  | Run (line : str).

Definition main_step (line : str) : action :=
  match line with
  | 99 :: 100 :: 32 :: _ => Chdir (drop 3 (removelast line))
  | _ => Run line
  end.
