(* ===== verification/ShSpec.v ===== *)
(** * ShSpec: the shell

    The parser of [Sh] ends on every line and its tokens are the words of the line; what
    is printed with parentheses is parsed back; the programs of a command run with the
    descriptors that its redirections and pipes say. *)

From S2P Require Import Prelude Sysfile Sh.

(** ** What the tokens are *)

Definition wordchar (c : Z) : bool := negb (strchr whitespace c) && negb (strchr symbols c).

(** A token of the line [L]: a longest word. *)
Definition tok_ok (L : str) (t : token) : Prop :=
  t.1 `suffix_of` L /\
  exists w, t.1 = w ++ t.2 /\ w <> [] /\ Forall (fun c => wordchar c) w /\ ~ wordchar (hd 32 t.2).

Fixpoint cmd_ok (L : str) (c : cmd) : Prop :=
  match c with
  | EXEC argv => (length argv < MAXARGS)%nat /\ Forall (tok_ok L) argv
  | REDIR c file _ _ => cmd_ok L c /\ tok_ok L file
  | PIPE l r | LIST l r => cmd_ok L l /\ cmd_ok L r
  | BACK c => cmd_ok L c
  end.

Definition syntax_errors : list string :=
  ["missing file for redirection"; "syntax"; "too many args"; "parseblock"; "syntax - missing )"]%string.

(** [m] returns with [Q] or reports an error in the line; it does not run for ever. *)
Definition parses {A} (m : M str A) (s : str) (Q : A -> str -> Prop) : Prop :=
  match m s with Ret a s' => Q a s' | Panic msg => msg ∈ syntax_errors | _ => False end.

Lemma parses_bind {A B} (m : M str A) (k : A -> M str B) s P Q :
  parses m s P -> (forall a s', P a s' -> parses (k a) s' Q) -> parses (m ≫= k) s Q.
Proof.
  unfold parses, mbind, M_bind. intros H Hk. destruct (m s) as [a s'| | |]; try done. by apply Hk.
Qed.

Lemma parses_ret {A} (a : A) s (Q : A -> str -> Prop) : Q a s -> parses (mret a) s Q.
Proof. done. Qed.

Lemma parses_gets {A B} (f : str -> A) (k : A -> M str B) s Q : parses (k (f s)) s Q -> parses (gets f ≫= k) s Q.
Proof. done. Qed.

Lemma parses_panic {A} msg s (Q : A -> str -> Prop) : msg ∈ syntax_errors -> parses (panic msg) s Q.
Proof. done. Qed.

Lemma suffix_tl (s : str) : tl s `suffix_of` s.
Proof. destruct s as [|c s]; [reflexivity|]. by exists [c]. Qed.

Lemma skip_ws_suffix s : skip_ws s `suffix_of` s.
Proof.
  induction s as [|c s IH]; simpl; [reflexivity|]. destruct (strchr whitespace c); [|reflexivity].
  by apply suffix_cons_r.
Qed.

Lemma skip_word_split s :
  exists w, s = w ++ skip_word s /\ Forall (fun c => wordchar c) w /\ ~ wordchar (hd 32 (skip_word s)) /\ (wordchar (hd 32 s) -> w <> []).
Proof.
  induction s as [|c s (w & E & Hw & He & _)]; simpl; [exists []; split_and!; auto; by intros []|]. fold (wordchar c).
  destruct (wordchar c) eqn:Hc; [|exists []; simpl; rewrite Hc; split_and!; auto; by intros []].
  exists (c :: w). simpl. rewrite <- E. split_and!; auto.
Qed.

Lemma skip_ws_head s : skip_ws s = [] \/ strchr whitespace (hd 0 (skip_ws s)) = false.
Proof.
  induction s as [|c s IH]; simpl; [by left|]. destruct (strchr whitespace c) eqn:E; [done|]. by right.
Qed.

(** ** Every line is parsed or rejected *)

Section Line.
Context (L : str) (HL : 0 ∉ L).

Notation inl s := (s `suffix_of` L).

Lemma inl_hd s : inl s -> hd 0 s = 0 -> s = [].
Proof using HL.
  intros [k ->] H. destruct s as [|c s]; [done|]. simpl in H. subst c. destruct HL. apply elem_of_app. right. left.
Qed.

Lemma inl_skip s : inl s -> inl (skip_ws s).
Proof. intros H. etrans; [apply skip_ws_suffix|done]. Qed.

Lemma peek_ok toks s : inl s ->
  peek toks s = Ret (negb (hd 0 (skip_ws s) =? 0) && strchr toks (hd 0 (skip_ws s))) (skip_ws s).
Proof. done. Qed.

(** What [gettoken] consumes and returns. *)
Lemma scan_ok s : inl s -> s = [] \/ strchr whitespace (hd 0 s) = false ->
  let '(ret, eq) := scan s in
  inl eq /\ (ret = 0 <-> s = []) /\ (s <> [] -> (length eq < length s)%nat) /\ (ret = WORD -> tok_ok L (s, eq)).
Proof using HL.
  intros Hs Hh. destruct s as [|c s]; simpl; [done|]. destruct (Z.eqb_spec c 0) as [->|Hc]; [by apply inl_hd in Hs|].
  destruct Hh as [?|Hw]; [done|]. simpl in Hw.
  assert (Hsf : inl s) by (etrans; [|exact Hs]; by exists [c]).
  destruct ((c =? BAR) || (c =? LPAR) || (c =? RPAR) || (c =? SEMI) || (c =? AMP) || (c =? LT)) eqn:Hsym.
  { split_and!; try done; try lia. by intros ->. }
  destruct (Z.eqb_spec c GT) as [->|Hgt].
  { destruct s as [|d s]; simpl; [split_and!; try done; lia|]. destruct (d =? GT); split_and!; try done; simpl; try lia.
    etrans; [|exact Hsf]; by exists [d]. }
  assert (Hwc : wordchar c).
  { unfold wordchar. rewrite Hw. unfold strchr, symbols. simpl. unfold BAR, LPAR, RPAR, SEMI, AMP, LT, GT in *.
    repeat (apply orb_false_iff in Hsym as [Hsym ?]). apply Z.eqb_neq in Hgt.
    repeat match goal with H : (c =? _) = false |- _ => rewrite H; clear H end. done. }
  fold (wordchar c). destruct (skip_word_split (c :: s)) as (w & E & Hf & He & Hne). specialize (Hne Hwc).
  simpl in E, He. fold (wordchar c) in E, He. set (e := if wordchar c then _ else _) in *.
  assert (Hl : (length e < length (c :: s))%nat).
  { rewrite E. rewrite length_app. destruct w; [done|]. simpl. lia. }
  split_and!; try done; [etrans; [|exact Hs]; by exists w|]. intros _. by split; [|exists w].
Qed.

Lemma gettoken_ok s : inl s ->
  exists ret eq, gettoken s = Ret (ret, skip_ws s, eq) (skip_ws eq) /\ inl eq /\ (ret = 0 <-> skip_ws s = []) /\
    (skip_ws s <> [] -> (length (skip_ws eq) < length (skip_ws s))%nat) /\ (ret = WORD -> tok_ok L (skip_ws s, eq)).
Proof using HL.
  intros Hs. pose proof (scan_ok _ (inl_skip _ Hs) (skip_ws_head s)) as H. unfold gettoken.
  erewrite bind_ret by reflexivity. destruct (scan (skip_ws s)) as [ret eq]. exists ret, eq.
  destruct H as (? & ? & Hl & ?). split_and!; try done. intros Hn. specialize (Hl Hn).
  pose proof (suffix_length _ _ (skip_ws_suffix eq)). lia.
Qed.

Lemma skip_ws_idem s : skip_ws (skip_ws s) = skip_ws s.
Proof. clear HL. induction s as [|c s IH]; simpl; [done|]. destruct (strchr whitespace c) eqn:E; simpl; [done|by rewrite E]. Qed.

Lemma parses_peek {A} toks (k : bool -> M str A) s Q : inl s ->
  (forall b s', inl s' -> (length s' <= length s)%nat -> (b = true -> s' <> [] /\ skip_ws s' = s') -> parses (k b) s' Q) ->
  parses (peek toks ≫= k) s Q.
Proof.
  intros Hs Hk. unfold parses. erewrite bind_ret by reflexivity. apply Hk.
  - by apply inl_skip.
  - apply suffix_length, skip_ws_suffix.
  - intros Hb. split; [|apply skip_ws_idem]. intros E. by rewrite E in Hb.
Qed.

Lemma parses_gettoken {A} (k : Z * str * str -> M str A) s Q : inl s ->
  (forall t s', inl s' -> (length s' <= length s)%nat -> (skip_ws s <> [] -> (length s' < length s)%nat) ->
     (t.1.1 = 0 <-> skip_ws s = []) -> (t.1.1 = WORD -> tok_ok L (t.1.2, t.2)) -> parses (k t) s' Q) ->
  parses (gettoken ≫= k) s Q.
Proof using HL.
  intros Hs Hk. destruct (gettoken_ok s Hs) as (ret & eq & E & H1 & H0 & Hl & Hw). unfold parses. rewrite (bind_ret _ _ _ _ _ E).
  pose proof (suffix_length _ _ (skip_ws_suffix s)). apply Hk; simpl; auto; [by apply inl_skip| |intros Hn; specialize (Hl Hn); lia].
  destruct (decide (skip_ws s = [])) as [En|Hn]; [|specialize (Hl Hn); lia].
  rewrite En in H0, Hw, E. unfold gettoken in E. erewrite bind_ret in E by reflexivity. rewrite En in E. simpl in E.
  apply (f_equal (fun o => match o with Ret _ s => length s | _ => O end)) in E. simpl in E. lia.
Qed.

Lemma parses_mono {A} (m : M str A) s (P Q : A -> str -> Prop) : parses m s P -> (forall a s', P a s' -> Q a s') -> parses m s Q.
Proof. clear HL. unfold parses. destruct (m s); auto. Qed.

(** What is left of the line is a part of it that is not longer. *)
Definition leaves (s s' : str) : Prop := inl s' /\ (length s' <= length s)%nat.

Definition keeps_ok (w : cmd -> cmd) : Prop := forall c, cmd_ok L c -> cmd_ok L (w c).

Lemma redircmd_ok tok file w : keeps_ok w -> tok_ok L file -> keeps_ok (fun c => redircmd tok file (w c)).
Proof. intros Hw Hf c Hc. unfold redircmd. specialize (Hw c Hc). repeat case_match; done. Qed.

Lemma parseredirs_ok fuel w s : inl s -> (length s <= fuel)%nat -> keeps_ok w ->
  parses (parseredirs fuel w) s (fun w' s' => leaves s s' /\ keeps_ok w').
Proof using HL.
  revert w s. induction fuel as [|fuel IH]; intros w s Hs Hl Hw; simpl; apply parses_peek; auto; intros [] s1 Hs1 Hl1 Hb.
  - destruct Hb as [Hn _]; [done|]. destruct s1; simpl in *; [done|lia].
  - by apply parses_ret.
  - destruct Hb as [Hn Es]; [done|]. apply parses_gettoken; auto. intros t s2 Hs2 _ Hl2 _ _. rewrite Es in Hl2. specialize (Hl2 Hn).
    apply parses_gettoken; auto. intros f s3 Hs3 Hl3 _ _ Hf. destruct (Z.eqb_spec f.1.1 WORD) as [E|]; [|by apply parses_panic; simpl; set_solver].
    simpl. eapply parses_mono; [apply IH; auto; [lia|by apply redircmd_ok; auto]|].
    intros w' s4 ((? & ?) & ?). split; [split; [done|lia]|done].
  - by apply parses_ret.
Qed.

Lemma parseargs_ok fuel argv w s : inl s -> (length s < fuel)%nat -> keeps_ok w -> cmd_ok L (EXEC argv) ->
  parses (parseargs fuel argv w) s (fun a s' => leaves s s' /\ cmd_ok L (EXEC a.1) /\ keeps_ok a.2).
Proof using HL.
  revert argv w s. induction fuel as [|fuel IH]; intros argv w s Hs Hl Hw Ha; [lia|]. cbn [parseargs]. apply parses_peek; auto; intros [] s1 Hs1 Hl1 _.
  { by apply parses_ret. }
  apply parses_gettoken; auto. intros t s2 Hs2 Hl2 Hlt Ht0 Hw2. destruct (Z.eqb_spec t.1.1 0) as [|Hn0].
  { apply parses_ret. split; [split; [done|lia]|done]. }
  destruct (Z.eqb_spec t.1.1 WORD) as [E|]; cbn [negb]; [|by apply parses_panic; simpl; set_solver].
  destruct (Nat.leb_spec MAXARGS (length (argv ++ [(t.1.2, t.2)]))) as [|Hlen]; [by apply parses_panic; simpl; set_solver|].
  assert (Hs2l : (length s2 < length s1)%nat) by (apply Hlt; intros En; by apply Hn0, Ht0).
  eapply parses_bind; [apply parseredirs_ok; eauto; lia|]. intros w3 s3 ((? & ?) & Hw3).
  eapply parses_mono; [apply IH; auto; [lia|]|].
  - split; [done|]. apply Forall_app. split; [apply Ha|]. auto.
  - intros a s4 ((? & ?) & ?). split; [split; [done|lia]|done].
Qed.

Lemma parseback_ok fuel c s : inl s -> (length s <= fuel)%nat -> cmd_ok L c ->
  parses (parseback fuel c) s (fun c' s' => leaves s s' /\ cmd_ok L c').
Proof using HL.
  revert c s. induction fuel as [|fuel IH]; intros c s Hs Hl Hc; simpl; apply parses_peek; auto; intros [] s1 Hs1 Hl1 Hb.
  - destruct Hb as [Hn _]; [done|]. destruct s1; simpl in *; [done|lia].
  - by apply parses_ret.
  - destruct Hb as [Hn Es]; [done|]. apply parses_gettoken; auto. intros t s2 Hs2 _ Hl2 _ _. rewrite Es in Hl2. specialize (Hl2 Hn).
    eapply parses_mono; [apply IH; auto; lia|]. intros w' s4 ((? & ?) & ?). split; [split; [done|lia]|done].
  - by apply parses_ret.
Qed.

(** The fuel that the length of the line gives is enough for each of the functions. *)
Definition parser_ok (p : M str cmd) (s : str) : Prop := parses p s (fun c s' => leaves s s' /\ cmd_ok L c).

Lemma parser_bind {A} (p : M str cmd) (k : cmd -> M str A) s Q :
  parser_ok p s -> (forall c s', inl s' -> (length s' <= length s)%nat -> cmd_ok L c -> parses (k c) s' Q) -> parses (p ≫= k) s Q.
Proof. intros Hp Hk. eapply parses_bind; [exact Hp|]. intros c s' ((? & ?) & ?). auto. Qed.

Lemma parser_ret c s s' : inl s' -> (length s' <= length s)%nat -> cmd_ok L c -> parses (mret c) s' (fun c s' => leaves s s' /\ cmd_ok L c).
Proof. intros. by apply parses_ret. Qed.

Lemma parsers_ok n s : inl s ->
  ((4 * length s + 4 <= n)%nat -> parser_ok (parseline n) s) /\ ((4 * length s + 3 <= n)%nat -> parser_ok (parsepipe n) s) /\
  ((4 * length s + 2 <= n)%nat -> parser_ok (parseexec n) s) /\ ((4 * length s + 1 <= n)%nat -> parser_ok (parseblock n) s).
Proof using HL.
  revert s. induction n as [|n IH]; intros s Hs; [split_and!; lia|]. split_and!; intros Hf; unfold parser_ok; cbn [parseline parsepipe parseexec parseblock].
  - apply parser_bind; [apply IH; [done|lia]|]. intros c s1 Hs1 Hl1 Hc. apply parses_gets.
    apply parser_bind; [by apply parseback_ok|]. intros c2 s2 Hs2 Hl2 Hc2. apply parses_peek; auto. intros [] s3 Hs3 Hl3 Hb; [|apply parser_ret; [done|lia|simpl; auto]].
    destruct Hb as [Hn Es]; [done|]. apply parses_gettoken; auto. intros t s4 Hs4 _ Hl4 _ _. rewrite Es in Hl4. specialize (Hl4 Hn).
    apply parser_bind; [apply IH; [done|lia]|]. intros r s5 Hs5 Hl5 Hr. apply parser_ret; [done|lia|simpl; auto].
  - apply parser_bind; [apply IH; [done|lia]|]. intros c s1 Hs1 Hl1 Hc. apply parses_peek; auto. intros [] s3 Hs3 Hl3 Hb; [|apply parser_ret; [done|lia|simpl; auto]].
    destruct Hb as [Hn Es]; [done|]. apply parses_gettoken; auto. intros t s4 Hs4 _ Hl4 _ _. rewrite Es in Hl4. specialize (Hl4 Hn).
    apply parser_bind; [apply IH; [done|lia]|]. intros r s5 Hs5 Hl5 Hr. apply parser_ret; [done|lia|simpl; auto].
  - apply parses_peek; auto. intros [] s1 Hs1 Hl1 _.
    + eapply parses_mono; [apply IH; [done|lia]|]. intros c s2 ((? & ?) & ?). split; [split; [done|lia]|done].
    + apply parses_gets. eapply parses_bind; [apply parseredirs_ok; auto; by intros c Hc|]. intros w s2 ((Hs2 & Hl2) & Hw).
      eapply parses_bind; [apply parseargs_ok; auto; [lia|by split; [cbv; lia|]]|]. intros a s3 ((? & ?) & ? & Ha). apply parser_ret; [done|lia|simpl; auto].
  - apply parses_peek; auto. intros [] s1 Hs1 Hl1 Hb; simpl; [|by apply parses_panic; simpl; set_solver].
    destruct Hb as [Hn Es]; [done|]. apply parses_gettoken; auto. intros t s4 Hs4 _ Hl4 _ _. rewrite Es in Hl4. specialize (Hl4 Hn).
    apply parser_bind; [apply IH; [done|lia]|]. intros c s5 Hs5 Hl5 Hc. apply parses_peek; auto. intros [] s6 Hs6 Hl6 _; simpl; [|by apply parses_panic; simpl; set_solver].
    apply parses_gettoken; auto. intros t' s7 Hs7 Hl7 _ _ _. apply parses_gets.
    eapply parses_bind; [apply parseredirs_ok; auto; by intros c' Hc'|]. intros w s8 ((Hs8 & Hl8) & Hw). apply parser_ret; [done|lia|simpl; auto].
Qed.
End Line.

(** ** The strings of a command *)

Fixpoint tokens (c : cmd) : list token :=
  match c with
  | EXEC argv => argv
  | REDIR c file _ _ => tokens c ++ [file]
  | PIPE l r | LIST l r => tokens l ++ tokens r
  | BACK c => tokens c
  end.

(** The C string at offset [p] of a buffer. *)
Fixpoint cstring (buf : list Z) : str :=
  match buf with c :: buf => if c =? 0 then [] else c :: cstring buf | [] => [] end.

Definition string_at (buf : list Z) (p : nat) : str := cstring (drop p buf).

(** Where a pointer into the line [L] points to. *)
Definition offset (L s : str) : nat := length L - length s.

Definition put_nul (L : str) (buf : list Z) (t : token) : list Z := <[offset L t.2 := 0]> buf.

Lemma nulterminate_tokens L c buf : nulterminate L c buf = foldl (put_nul L) buf (tokens c).
Proof.
  revert buf. induction c as [argv|c IH file mode fd|l IHl r IHr|l IHl r IHr|c IH]; intros buf; simpl.
  - done.
  - by rewrite foldl_app, <- IH.
  - by rewrite foldl_app, <- IHl, <- IHr.
  - by rewrite foldl_app, <- IHl, <- IHr.
  - apply IH.
Qed.

Lemma cmd_ok_tokens L c : cmd_ok L c -> Forall (tok_ok L) (tokens c).
Proof. induction c; simpl; rewrite ?Forall_app, ?Forall_singleton; naive_solver. Qed.

Lemma put_nul_length L ts buf : length (foldl (put_nul L) buf ts) = length buf.
Proof. revert buf. induction ts as [|t ts IH]; intros buf; simpl; [done|]. rewrite IH. apply length_insert. Qed.

Lemma put_nul_other L ts buf i : (forall t, t ∈ ts -> offset L t.2 <> i) -> foldl (put_nul L) buf ts !! i = buf !! i.
Proof.
  revert buf. induction ts as [|t ts IH]; intros buf H; simpl; [done|]. rewrite IH; [|intros t' Ht'; apply H; by right].
  apply list_lookup_insert_ne. apply H. left.
Qed.

Lemma put_nul_end L ts buf t : t ∈ ts -> (offset L t.2 < length buf)%nat -> foldl (put_nul L) buf ts !! offset L t.2 = Some 0.
Proof.
  induction ts as [|u ts IH] using rev_ind; intros H Hl; [by apply elem_of_nil in H|]. rewrite foldl_app. simpl.
  unfold put_nul at 1. destruct (decide (offset L u.2 = offset L t.2)) as [E|E].
  - rewrite E. apply list_lookup_insert_eq. by rewrite put_nul_length.
  - rewrite list_lookup_insert_ne by done. apply IH; [|done]. apply elem_of_app in H as [H|H]; [done|].
    apply list_elem_of_singleton in H. congruence.
Qed.

Lemma cstring_word w buf : 0 ∉ w -> cstring (w ++ 0 :: buf) = w.
Proof.
  induction w as [|c w IH]; intros Hw; simpl; [done|]. apply not_elem_of_cons in Hw as [Hc Hw].
  destruct (Z.eqb_spec c 0); [congruence|]. by rewrite IH.
Qed.

(** No token ends inside of another. *)
Lemma end_not_inside L t u i : tok_ok L t -> tok_ok L u -> (i < length t.1 - length t.2)%nat -> offset L u.2 <> (offset L t.1 + i)%nat.
Proof.
  destruct t as [q eq], u as [q' eq']. intros ([k Hk] & w & Hw & _ & Hf & _) ([k' Hk'] & w' & Hw' & _ & _ & He') Hi E. simpl in *. subst q q'.
  unfold offset in E. rewrite Hk' in E at 1. rewrite Hk in E at 1. rewrite !length_app in E. rewrite length_app in Hi.
  destruct (lookup_lt_is_Some_2 w i) as [c Hc]; [lia|].
  assert (HLc : L !! (length k + i)%nat = Some c) by (rewrite Hk, lookup_app_r, lookup_app_l by lia; rewrite <- Hc; f_equal; lia).
  assert (Hi' : (length k + i = length k' + length w')%nat) by lia. rewrite Hi', Hk' in HLc.
  rewrite lookup_app_r, lookup_app_r in HLc by lia. replace (_ - _ - _)%nat with O in HLc by lia.
  destruct eq' as [|c' eq']; [done|]. simpl in HLc. injection HLc as ->. destruct He'. simpl. exact (Forall_lookup_1 _ _ _ _ Hf Hc).
Qed.

Lemma string_of_token L c rest t : 0 ∉ L -> cmd_ok L c -> t ∈ tokens c ->
  string_at (nulterminate L c (L ++ 0 :: rest)) (offset L t.1) = word t.
Proof.
  intros H0 Hc Ht. apply cmd_ok_tokens in Hc. rewrite nulterminate_tokens. pose proof (proj1 (Forall_forall _ _) Hc) as Hall.
  pose proof (Hall _ Ht) as Hok. destruct (Hok) as ([k Hk] & w & Hw & _).
  assert (Hlen : (length t.1 - length t.2 = length w)%nat) by (rewrite Hw, length_app; lia).
  assert (Hoff : offset L t.1 = length k) by (unfold offset; rewrite Hk, length_app; lia).
  assert (Hend : offset L t.2 = (length k + length w)%nat) by (unfold offset; rewrite Hk, Hw, !length_app; lia).
  assert (Hword : word t = w) by (unfold word; rewrite Hlen, Hw; apply take_app_length).
  unfold string_at. set (buf := foldl _ _ _). rewrite Hword, Hoff.
  assert (Hd : drop (length k) buf = w ++ 0 :: drop (length k + length w + 1) buf).
  { apply list_eq. intros i. rewrite lookup_drop. destruct (decide (i < length w)%nat) as [Hi|Hi].
    - rewrite lookup_app_l by done. unfold buf. rewrite put_nul_other.
      + rewrite Hk, Hw, <- !app_assoc, lookup_app_r, lookup_app_l by lia. f_equal. lia.
      + intros u Hu. rewrite <- Hoff. apply end_not_inside; auto. lia.
    - rewrite lookup_app_r by lia. destruct (decide (i = length w)) as [->|Hne].
      + rewrite Nat.sub_diag. simpl. unfold buf. rewrite <- Hend. apply put_nul_end; [done|]. rewrite length_app. unfold offset. simpl. lia.
      + replace (i - length w)%nat with (S (i - length w - 1)) by lia. simpl. rewrite lookup_drop. f_equal. lia. }
  rewrite Hd. apply cstring_word. intros Hin. apply H0. rewrite Hk, Hw. apply elem_of_app. right. apply elem_of_app. by left.
Qed.

(** C17. The shell's parser ends on every line: it reports one of its errors, or it returns a
    command with the line read to its end, at most nine arguments to a program, and each
    argument and file name a longest word of the line; and when [nulterminate] has stored its
    NULs in the buffer with the line, the C string at each of these pointers is that word. *)
Theorem parsecmd_total (L rest : str) : 0 ∉ L ->
  parses parsecmd L (fun c s' => s' = [] /\ cmd_ok L c /\
    forall t, t ∈ tokens c -> string_at (nulterminate L c (L ++ 0 :: rest)) (offset L t.1) = word t).
Proof.
  intros HL. apply parses_gets. apply (parser_bind L); [by apply parsers_ok|]. intros c s Hs Hl Hc.
  apply (parses_peek L); [done|]. intros _ s' Hs' _ _. apply parses_gets.
  destruct s' as [|x s']; simpl; [|by apply parses_panic; simpl; set_solver].
  apply parses_ret. split_and!; [done..|]. intros t Ht. by apply string_of_token.
Qed.

(** The line [ls|wc >o]. *)
Definition demo_line : str := [108; 115; 124; 119; 99; 32; 62; 111].

Lemma parsecmd_total_witness :
  match parsecmd demo_line with
  | Ret c _ => (fun t => string_at (nulterminate demo_line c (demo_line ++ [0])) (offset demo_line t.1)) <$> tokens c
  | _ => []
  end = [[108; 115]; [119; 99]; [111]] /\
  parses parsecmd demo_line (fun c s' => s' = [] /\ cmd_ok demo_line c /\
    forall t, t ∈ tokens c -> string_at (nulterminate demo_line c (demo_line ++ [0])) (offset demo_line t.1) = word t).
Proof. split; [vm_compute; reflexivity|]. apply parsecmd_total. unfold demo_line. set_solver. Defined.

(** ** Printing and parsing *)

Definition paren (s : str) : str := LPAR :: s ++ [RPAR].

(** A command as a line, with parentheses around the parts. *)
Fixpoint print (c : command str) : str :=
  match c with
  | EXEC argv => concat ((fun w => w ++ [32]) <$> argv)
  | REDIR c file _ fd => paren (print c) ++ (if fd =? 0 then LT else GT) :: file
  | PIPE l r => paren (print l) ++ BAR :: paren (print r)
  | LIST l r => paren (print l) ++ SEMI :: paren (print r)
  | BACK c => paren (print c) ++ [AMP]
  end.

Definition is_word (w : str) : Prop := w <> [] /\ 0 ∉ w /\ Forall (fun c => wordchar c) w.

Fixpoint printable (c : command str) : Prop :=
  match c with
  | EXEC argv => (length argv < MAXARGS)%nat /\ Forall is_word argv
  | REDIR c file mode fd =>
      printable c /\ is_word file /\ ((mode, fd) = (O_RDONLY, 0) \/ (mode, fd) = (Z.lor O_WRONLY O_CREATE, 1))
  | PIPE l r | LIST l r => printable l /\ printable r
  | BACK c => printable c
  end.

(** The characters at which a printed command ends. *)
Definition stop (rest : str) : Prop := rest = [] \/ exists r, rest = RPAR :: r.

Definition solid (s : str) : Prop := s = [] \/ strchr whitespace (hd 32 s) = false.

Lemma solid_skip s : solid s -> skip_ws s = s.
Proof. intros [->|H]; [done|]. destruct s as [|c s]; [done|]. simpl in *. by rewrite H. Qed.

Lemma peek_solid toks s : solid s -> peek toks s = Ret (negb (hd 0 s =? 0) && strchr toks (hd 0 s)) s.
Proof. intros H. unfold peek, mbind, M_bind, gets, modify. by rewrite (solid_skip _ H). Qed.

Lemma gettoken_sym c s : c ∈ [BAR; LPAR; RPAR; SEMI; AMP; LT] -> solid s -> gettoken (c :: s) = Ret (c, c :: s, s) s.
Proof.
  intros Hc Hs. unfold gettoken, mbind, M_bind, gets.
  assert (Hw : skip_ws (c :: s) = c :: s) by (simpl; repeat (apply elem_of_cons in Hc as [->|Hc]; [done|]); by apply elem_of_nil in Hc).
  assert (Hk : scan (c :: s) = (c, s)) by (simpl; repeat (apply elem_of_cons in Hc as [->|Hc]; [done|]); by apply elem_of_nil in Hc).
  rewrite Hw, Hk. unfold modify. by rewrite (solid_skip _ Hs).
Qed.

Lemma gettoken_gt s : solid s -> hd 0 s <> GT -> gettoken (GT :: s) = Ret (GT, GT :: s, s) s.
Proof.
  intros Hs Hn. apply Z.eqb_neq in Hn. unfold gettoken, mbind, M_bind, gets.
  assert (Hk : scan (GT :: s) = (GT, s)) by (simpl; by rewrite Hn).
  change (skip_ws (GT :: s)) with (GT :: s). rewrite Hk. unfold modify. by rewrite (solid_skip _ Hs).
Qed.

Lemma wordchar_not c toks : wordchar c -> Forall (fun x => strchr symbols x = true) toks -> strchr toks c = false.
Proof.
  intros Hc Ht. unfold strchr. apply not_true_iff_false. intros H. apply existsb_exists in H as (x & Hin & E).
  apply Z.eqb_eq in E. subst x. apply list_elem_of_In in Hin. rewrite Forall_forall in Ht. specialize (Ht _ Hin).
  unfold wordchar in Hc. rewrite Ht in Hc. by rewrite andb_false_r in Hc.
Qed.

Lemma word_solid w s : is_word w -> solid (w ++ s).
Proof.
  intros (Hn & _ & Hf). right. destruct w as [|c w]; [done|]. simpl. apply Forall_cons in Hf as [Hc _].
  unfold wordchar in Hc. by destruct (strchr whitespace c).
Qed.

Lemma skip_word_app w s : Forall (fun c => wordchar c) w -> ~ wordchar (hd 32 s) -> skip_word (w ++ s) = s.
Proof.
  intros Hf Hs. induction w as [|c w IH]; simpl.
  - destruct s as [|c s]; [done|]. simpl in *. fold (wordchar c). by destruct (wordchar c); [destruct Hs|].
  - apply Forall_cons in Hf as [Hc Hf]. fold (wordchar c). destruct (wordchar c); [by apply IH|done].
Qed.

Lemma gettoken_word w s : is_word w -> ~ wordchar (hd 32 s) -> gettoken (w ++ s) = Ret (WORD, w ++ s, s) (skip_ws s).
Proof.
  intros Hw Hs. pose proof (solid_skip _ (word_solid w s Hw)) as Hk. destruct Hw as (Hn & H0 & Hf).
  unfold gettoken, mbind, M_bind, gets. rewrite Hk.
  assert (E : scan (w ++ s) = (WORD, s)).
  { rewrite <- (skip_word_app w s Hf Hs) at 2. destruct w as [|c w]; [done|]. simpl app. cbn [scan].
    apply Forall_cons in Hf as [Hc _]. apply not_elem_of_cons in H0 as [H0 _]. destruct (Z.eqb_spec c 0); [congruence|].
    assert (Hx : forall x, strchr symbols x = true -> (c =? x) = false).
    { intros x Hx. apply Z.eqb_neq. intros ->. unfold wordchar in Hc. rewrite Hx in Hc. by rewrite andb_false_r in Hc. }
    rewrite !Hx by reflexivity. done. }
  rewrite E. done.
Qed.

Lemma stop_solid rest : stop rest -> solid rest.
Proof. intros [->|[r ->]]; [by left|by right]. Qed.

Lemma peek_stop toks rest : stop rest -> strchr toks RPAR = false -> peek toks rest = Ret false rest.
Proof. intros Hs Ht. rewrite peek_solid by by apply stop_solid. destruct Hs as [->|[r ->]]; [done|]. simpl. by rewrite Ht. Qed.

Lemma peek_word toks w s : is_word w -> Forall (fun x => strchr symbols x = true) toks -> peek toks (w ++ s) = Ret false (w ++ s).
Proof.
  intros Hw Ht. rewrite peek_solid by by apply word_solid. destruct Hw as (Hn & _ & Hf). destruct w as [|c w]; [done|]. simpl.
  apply Forall_cons in Hf as [Hc _]. by rewrite (wordchar_not _ _ Hc Ht), andb_false_r.
Qed.

Lemma parseredirs_none fuel w s : peek [LT; GT] s = Ret false s -> parseredirs fuel w s = Ret w s.
Proof. intros H. destruct fuel; simpl; by rewrite (bind_ret _ _ _ _ _ H). Qed.

Lemma parseredirs_one op f w rest fuel : op = LT \/ op = GT -> is_word f -> stop rest ->
  (0 < fuel)%nat -> parseredirs fuel w (op :: f ++ rest) = Ret (fun c => redircmd op (f ++ rest, rest) (w c)) rest.
Proof.
  intros Hop Hf Hr Hl. destruct fuel as [|fuel]; [lia|]. simpl.
  assert (Hp : peek [LT; GT] (op :: f ++ rest) = Ret true (op :: f ++ rest)) by (rewrite peek_solid; destruct Hop as [->| ->]; try done; by right).
  rewrite (bind_ret _ _ _ _ _ Hp).
  assert (Hg : gettoken (op :: f ++ rest) = Ret (op, op :: f ++ rest, f ++ rest) (f ++ rest)).
  { destruct Hop as [->| ->]; [apply gettoken_sym; [set_solver|by apply word_solid]|apply gettoken_gt; [by apply word_solid|]].
    destruct Hf as (Hn & _ & Hf). destruct f as [|c f]; [done|]. simpl. apply Forall_cons in Hf as [Hc _]. by intros ->. }
  rewrite (bind_ret _ _ _ _ _ Hg).
  assert (Hw : ~ wordchar (hd 32 rest)) by (destruct Hr as [->|[r ->]]; by intros []).
  rewrite (bind_ret _ _ _ _ _ (gettoken_word f rest Hf Hw)). simpl. rewrite (solid_skip _ (stop_solid _ Hr)).
  apply parseredirs_none, peek_stop; done.
Qed.

Definition words (argv : list str) : str := concat ((fun w => w ++ [32]) <$> argv).

Lemma words_cons a argv rest : words (a :: argv) ++ rest = a ++ 32 :: words argv ++ rest.
Proof. unfold words. simpl. by rewrite <- !app_assoc. Qed.

Lemma words_solid argv rest : Forall is_word argv -> stop rest -> solid (words argv ++ rest).
Proof.
  intros Ha Hr. destruct Ha as [|w argv Hw _]; [by apply stop_solid|]. rewrite words_cons. by apply word_solid.
Qed.

Lemma peek_words toks argv rest : Forall is_word argv -> stop rest -> Forall (fun x => strchr symbols x = true) toks ->
  strchr toks RPAR = false -> peek toks (words argv ++ rest) = Ret false (words argv ++ rest).
Proof.
  intros Ha Hr Ht Hp. destruct Ha as [|w argv Hw _]; [by apply peek_stop|]. rewrite words_cons. by apply peek_word.
Qed.

Lemma word_app w s : word (w ++ s, s) = w.
Proof. unfold word. simpl. rewrite length_app. replace (_ - _)%nat with (length w) by lia. apply take_app_length. Qed.

Lemma parseargs_words argv rest w : Forall is_word argv -> stop rest -> forall fuel pre,
  (length argv < fuel)%nat -> (length pre + length argv < MAXARGS)%nat ->
  exists toks, parseargs fuel pre w (words argv ++ rest) = Ret (pre ++ toks, w) rest /\ word <$> toks = argv.
Proof.
  intros Ha Hr. induction Ha as [|a argv Hw Ha IH]; intros [|fuel] pre Hl Hm; simpl in Hl; [lia| |lia|]; cbn [parseargs].
  - exists []. rewrite app_nil_r. split; [|done]. simpl app. destruct Hr as [->|[r ->]].
    + by rewrite (bind_ret _ _ _ _ _ (peek_solid [BAR; RPAR; AMP; SEMI] [] (or_introl eq_refl))).
    + by rewrite (bind_ret _ _ _ _ _ (peek_solid [BAR; RPAR; AMP; SEMI] (RPAR :: r) (or_intror eq_refl))).
  - rewrite words_cons.
    rewrite (bind_ret _ _ _ _ _ (peek_word [BAR; RPAR; AMP; SEMI] a _ Hw ltac:(by repeat constructor))).
    assert (Hns : ~ wordchar (hd 32 (32 :: words argv ++ rest))) by by intros [].
    rewrite (bind_ret _ _ _ _ _ (gettoken_word a _ Hw Hns)). cbn [fst snd]. change (WORD =? 0) with false. change (WORD =? WORD) with true.
    cbn [negb]. simpl length in Hm.
    match goal with |- context [(MAXARGS <=? ?n)%nat] => destruct (Nat.leb_spec MAXARGS n) as [Hx|_]; [rewrite length_app in Hx; simpl in Hx; lia|] end.
    assert (Hsk : skip_ws (32 :: words argv ++ rest) = words argv ++ rest) by (change (skip_ws (words argv ++ rest) = words argv ++ rest); apply solid_skip, words_solid; done).
    rewrite Hsk. rewrite (bind_ret _ _ _ _ _ (parseredirs_none fuel w _ (peek_words [LT; GT] argv rest Ha Hr ltac:(by repeat constructor) eq_refl))).
    destruct (IH fuel (pre ++ [(a ++ 32 :: words argv ++ rest, 32 :: words argv ++ rest)])) as (toks & E & Et); [lia|rewrite length_app; simpl; lia|].
    eexists. split; [rewrite <- app_assoc in E; apply E|]. rewrite fmap_app, Et. simpl. by rewrite word_app.
Qed.

Lemma print_solid c rest : printable c -> stop rest -> solid (print c ++ rest).
Proof. destruct c; simpl; intros Hc Hr; [by apply words_solid; [apply Hc|]|by right..]. Qed.

(** What [parseline] makes of a printed command. *)
Definition reads_back (c : command str) : Prop := forall n rest, stop rest -> (4 * length (print c ++ rest) + 4 <= n)%nat ->
  exists c', parseline n (print c ++ rest) = Ret c' rest /\ cmd_map word c' = c.

Lemma parsepipe_exec n s c rest : parseexec n s = Ret c rest -> peek [BAR] rest = Ret false rest -> parsepipe (S n) s = Ret c rest.
Proof. intros H Hb. cbn [parsepipe]. rewrite (bind_ret _ _ _ _ _ H). by rewrite (bind_ret _ _ _ _ _ Hb). Qed.

Lemma parseback_none n c s : peek [AMP] s = Ret false s -> parseback n c s = Ret c s.
Proof. intros Hb. destruct n; cbn [parseback]; by rewrite (bind_ret _ _ _ _ _ Hb). Qed.

Lemma parseline_pipe n s c rest : parsepipe n s = Ret c rest -> stop rest -> parseline (S n) s = Ret c rest.
Proof.
  intros H Hr. cbn [parseline]. rewrite (bind_ret _ _ _ _ _ H). erewrite bind_ret by reflexivity.
  rewrite (bind_ret _ _ _ _ _ (parseback_none _ _ _ (peek_stop [AMP] rest Hr eq_refl))).
  by rewrite (bind_ret _ _ _ _ _ (peek_stop [SEMI] rest Hr eq_refl)).
Qed.

Lemma parseline_exec n s c rest : parseexec n s = Ret c rest -> stop rest -> parseline (S (S n)) s = Ret c rest.
Proof. intros H Hr. apply parseline_pipe, Hr. apply parsepipe_exec; [done|]. by apply peek_stop. Qed.

Lemma paren_app s rest : paren s ++ rest = LPAR :: s ++ RPAR :: rest.
Proof. unfold paren. simpl. by rewrite <- app_assoc. Qed.

(** A block is the command in it, inside of the redirections behind it. *)
Lemma parseexec_paren c n rest : printable c -> reads_back c -> solid rest -> (4 * length (paren (print c) ++ rest) + 2 <= n)%nat ->
  exists c', cmd_map word c' = c /\ parseexec n (paren (print c) ++ rest) = (w ← parseredirs (length rest) id; mret (w c')) rest.
Proof.
  intros Hp Hc Hr Hn. rewrite paren_app in *. simpl in Hn.
  destruct n as [|[|n]]; [lia..|]. destruct (Hc n (RPAR :: rest)) as (c' & E & Ec); [by right; eexists|lia|].
  exists c'. split; [done|]. cbn [parseexec parseblock].
  assert (Hs : solid (LPAR :: print c ++ RPAR :: rest)) by by right.
  rewrite (bind_ret _ _ _ _ _ (peek_solid [LPAR] _ Hs)). cbn [hd andb negb].
  change (negb (LPAR =? 0) && strchr [LPAR] LPAR) with true. cbv iota.
  rewrite (bind_ret _ _ _ _ _ (peek_solid [LPAR] _ Hs)). cbn [hd]. change (negb (LPAR =? 0) && strchr [LPAR] LPAR) with true. cbn [negb].
  rewrite (bind_ret _ _ _ _ _ (gettoken_sym LPAR _ ltac:(set_solver) (print_solid c (RPAR :: rest) Hp ltac:(by right; eexists)))).
  rewrite (bind_ret _ _ _ _ _ E). assert (Hs' : solid (RPAR :: rest)) by by right.
  rewrite (bind_ret _ _ _ _ _ (peek_solid [RPAR] _ Hs')). cbn [hd]. change (negb (RPAR =? 0) && strchr [RPAR] RPAR) with true. cbn [negb].
  by rewrite (bind_ret _ _ _ _ _ (gettoken_sym RPAR _ ltac:(set_solver) Hr)).
Qed.

Lemma parseexec_block c n rest : printable c -> reads_back c -> solid rest -> peek [LT; GT] rest = Ret false rest ->
  (4 * length (paren (print c) ++ rest) + 2 <= n)%nat ->
  exists c', cmd_map word c' = c /\ parseexec n (paren (print c) ++ rest) = Ret c' rest.
Proof.
  intros Hp Hc Hr Hk Hn. destruct (parseexec_paren c n rest Hp Hc Hr Hn) as (c' & Ec & E). exists c'. split; [done|].
  rewrite E. by rewrite (bind_ret _ _ _ _ _ (parseredirs_none _ _ _ Hk)).
Qed.

Lemma exec_reads_back argv : printable (EXEC argv) -> reads_back (EXEC argv).
Proof.
  intros [Hl Ha] n rest Hr Hn. change (print (EXEC argv)) with (words argv) in *. destruct n as [|[|[|n]]]; [lia..|].
  assert (Hw : (length argv <= length (words argv ++ rest))%nat).
  { clear -argv. induction argv as [|a argv IH]; [simpl; lia|]. rewrite words_cons, length_app. simpl. lia. }
  destruct (parseargs_words argv rest id Ha Hr (S (length (words argv ++ rest))) []) as (toks & E & Et); [lia|done|].
  exists (EXEC toks). split; [|simpl; by rewrite Et]. apply parseline_exec; [|done]. cbn [parseexec].
  rewrite (bind_ret _ _ _ _ _ (peek_words [LPAR] argv rest Ha Hr ltac:(by repeat constructor) eq_refl)). erewrite bind_ret by reflexivity.
  rewrite (bind_ret _ _ _ _ _ (parseredirs_none _ _ _ (peek_words [LT; GT] argv rest Ha Hr ltac:(by repeat constructor) eq_refl))).
  by rewrite (bind_ret _ _ _ _ _ E).
Qed.

Lemma redir_reads_back c file mode fd : printable (REDIR c file mode fd) -> reads_back c -> reads_back (REDIR c file mode fd).
Proof.
  intros (Hp & Hf & Hm) Hc n rest Hr Hn. cbn [print] in *. set (op := if fd =? 0 then LT else GT) in *.
  rewrite <- app_assoc in *. cbn [app] in *. destruct n as [|[|n]]; [lia..|].
  assert (Hop : op = LT \/ op = GT) by (unfold op; case_match; auto).
  destruct (parseexec_paren c n (op :: file ++ rest)) as (c' & Ec & E); [done|done|by right; destruct Hop as [->| ->]|lia|].
  rewrite (bind_ret _ _ _ _ _ (parseredirs_one op file id rest (length (op :: file ++ rest)) Hop Hf Hr ltac:(simpl; lia))) in E.
  exists (redircmd op (file ++ rest, rest) c'). split; [apply parseline_exec; done|].
  destruct Hm as [[= -> ->]|[= -> ->]]; simpl; by rewrite word_app, Ec.
Qed.

Lemma block_next c op : op ∈ [BAR; SEMI; AMP] -> forall n s, printable c -> reads_back c ->
  (4 * length (paren (print c) ++ op :: s) + 2 <= n)%nat ->
  exists c', cmd_map word c' = c /\ parseexec n (paren (print c) ++ op :: s) = Ret c' (op :: s).
Proof.
  intros Ho n s Hp Hc Hn. assert (Hs : solid (op :: s)).
  { right. simpl. repeat (apply elem_of_cons in Ho as [->|Ho]; [done|]). by apply elem_of_nil in Ho. }
  apply parseexec_block; [done..| |done]. rewrite peek_solid by done. simpl.
  repeat (apply elem_of_cons in Ho as [->|Ho]; [done|]). by apply elem_of_nil in Ho.
Qed.

Lemma peek_head toks c s : strchr whitespace c = false -> c <> 0 -> peek toks (c :: s) = Ret (strchr toks c) (c :: s).
Proof. intros Hw Hc. rewrite peek_solid by by right. simpl. by apply Z.eqb_neq in Hc as ->. Qed.

Lemma paren_solid c s : solid (paren (print c) ++ s).
Proof. by right. Qed.

Lemma pipe_reads_back l r : printable l -> printable r -> reads_back l -> reads_back r -> reads_back (PIPE l r).
Proof.
  intros Hpl Hpr Hl Hr n rest Hs Hn. cbn [print] in *. rewrite <- app_assoc in *. cbn [app] in *. rewrite length_app in Hn. cbn [length] in Hn.
  destruct n as [|[|[|n]]]; [lia..|].
  destruct (block_next l BAR ltac:(set_solver) (S n) (paren (print r) ++ rest)) as (l' & El & Pl); [done|done|rewrite length_app; cbn [length]; lia|].
  destruct (parseexec_block r n rest Hpr Hr (stop_solid _ Hs) (peek_stop [LT; GT] rest Hs eq_refl)) as (r' & Er & Pr); [lia|].
  exists (PIPE l' r'). split; [|simpl; congruence]. apply parseline_pipe; [|done].
  remember (S n) as m. cbn [parsepipe]. rewrite (bind_ret _ _ _ _ _ Pl).
  rewrite (bind_ret _ _ _ _ _ (peek_head [BAR] BAR _ eq_refl ltac:(done))). change (strchr [BAR] BAR) with true. cbv iota.
  rewrite (bind_ret _ _ _ _ _ (gettoken_sym BAR _ ltac:(set_solver) (paren_solid r rest))). subst m.
  by rewrite (bind_ret _ _ _ _ _ (parsepipe_exec _ _ _ _ Pr (peek_stop [BAR] rest Hs eq_refl))).
Qed.

Lemma list_reads_back l r : printable l -> printable r -> reads_back l -> reads_back r -> reads_back (LIST l r).
Proof.
  intros Hpl Hpr Hl Hr n rest Hs Hn. cbn [print] in *. rewrite <- app_assoc in *. cbn [app] in *. rewrite length_app in Hn. cbn [length] in Hn.
  destruct n as [|[|[|n]]]; [lia..|].
  destruct (block_next l SEMI ltac:(set_solver) (S n) (paren (print r) ++ rest)) as (l' & El & Pl); [done|done|rewrite length_app; cbn [length]; lia|].
  destruct (parseexec_block r n rest Hpr Hr (stop_solid _ Hs) (peek_stop [LT; GT] rest Hs eq_refl)) as (r' & Er & Pr); [lia|].
  exists (LIST l' r'). split; [|simpl; congruence]. apply parsepipe_exec in Pl; [|by rewrite peek_head]. apply parseline_exec in Pr; [|done].
  remember (S (S n)) as m. cbn [parseline]. rewrite (bind_ret _ _ _ _ _ Pl). erewrite bind_ret by reflexivity.
  erewrite bind_ret; [|apply parseback_none; by rewrite peek_head].
  rewrite (bind_ret _ _ _ _ _ (peek_head [SEMI] SEMI _ eq_refl ltac:(done))). change (strchr [SEMI] SEMI) with true. cbv iota.
  rewrite (bind_ret _ _ _ _ _ (gettoken_sym SEMI _ ltac:(set_solver) (paren_solid r rest))).
  by rewrite (bind_ret _ _ _ _ _ Pr).
Qed.

Lemma back_reads_back c : printable c -> reads_back c -> reads_back (BACK c).
Proof.
  intros Hp Hc n rest Hs Hn. cbn [print] in *. rewrite <- app_assoc in *. cbn [app] in *. destruct n as [|[|n]]; [lia..|].
  destruct (block_next c AMP ltac:(set_solver) n rest) as (c' & Ec & Pc); [done|done|lia|].
  exists (BACK c'). split; [|simpl; congruence]. apply parsepipe_exec in Pc; [|by rewrite peek_head].
  remember (S n) as m. cbn [parseline]. rewrite (bind_ret _ _ _ _ _ Pc). erewrite bind_ret by reflexivity.
  assert (Hb : parseback (length (AMP :: rest)) c' (AMP :: rest) = Ret (BACK c') rest).
  { simpl length. cbn [parseback]. rewrite (bind_ret _ _ _ _ _ (peek_head [AMP] AMP _ eq_refl ltac:(done))). change (strchr [AMP] AMP) with true. cbv iota.
    rewrite (bind_ret _ _ _ _ _ (gettoken_sym AMP _ ltac:(set_solver) (stop_solid _ Hs))). by apply parseback_none, peek_stop. }
  rewrite (bind_ret _ _ _ _ _ Hb). by rewrite (bind_ret _ _ _ _ _ (peek_stop [SEMI] rest Hs eq_refl)).
Qed.

Lemma printable_reads_back c : printable c -> reads_back c.
Proof.
  induction c as [argv|c IH file mode fd|l IHl r IHr|l IHl r IHr|c IH]; intros H; [by apply exec_reads_back| | | |].
  - apply redir_reads_back; [done|]. apply IH, H.
  - destruct H. apply pipe_reads_back; auto.
  - destruct H. apply list_reads_back; auto.
  - apply back_reads_back; auto.
Qed.

(** C28. A command that is printed, with parentheses around its parts, is parsed to the same
    command. *)
Theorem parse_print_roundtrip (c : command str) : printable c ->
  exists c', parsecmd (print c) = Ret c' [] /\ cmd_map word c' = c.
Proof.
  intros Hc. destruct (printable_reads_back c Hc (parse_fuel (print c)) []) as (c' & E & Ec); [by left|by rewrite app_nil_r|].
  exists c'. split; [|done]. rewrite app_nil_r in E. unfold parsecmd. erewrite bind_ret by reflexivity. by rewrite (bind_ret _ _ _ _ _ E).
Qed.

(** [(a <i)|(b c);d&], in its parts. *)
Definition demo_cmd : command str :=
  LIST (PIPE (REDIR (EXEC [[97]]) [105] O_RDONLY 0) (EXEC [[98]; [99]])) (BACK (EXEC [[100]])).

Lemma parse_print_roundtrip_witness :
  printable demo_cmd /\ exists c', parsecmd (print demo_cmd) = Ret c' [] /\ cmd_map word c' = demo_cmd.
Proof.
  assert (H : printable demo_cmd).
  { unfold demo_cmd, MAXARGS, is_word. simpl. split_and!; try lia; try set_solver; by repeat constructor; try set_solver. }
  split; [exact H|]. apply (parse_print_roundtrip demo_cmd), H.
Defined.

(** ** The descriptors of the programs *)

(** The descriptors [t] with standard input and output replaced. *)
Definition rewire (t : fdtable) (i o : fobj) : fdtable := <[0%nat := Some i]> (<[1%nat := Some o]> t).

Section Wires.
Context `{Kernel}.

(** What a command means: each program runs with the descriptors of the shell but for
    its standard input and output. *)
Fixpoint denote (t : fdtable) (c : command str) (i o : fobj) : M world unit :=
  match c with
  | EXEC [] => mret tt
  | EXEC argv => modify (fun w => w <| execs ::= fun l => l ++ [(argv, rewire t i o)] |>)
  | REDIR c file mode fd =>
      if open_ok file mode then
        if fd =? 0 then denote t c (Opened file mode) o else denote t c i (Opened file mode)
      else mret tt
  | LIST l r => f ← fork1; if f : bool then denote t l i o;; denote t r i o else mret tt
  | PIPE l r =>
      k ← gets pipes;
      modify (fun w => w <| pipes := S k |>);;
      if pipe_ok k then
        f ← fork1;
        if f : bool then
          denote t l i (WriteEnd k);;
          f ← fork1;
          if f : bool then denote t r (ReadEnd k) o else mret tt
        else mret tt
      else mret tt
  | BACK c => f ← fork1; if f : bool then denote t c i o else mret tt
  end.

(** The redirections of the parser are of standard input or output. *)
Fixpoint std_redirs (c : command str) : Prop :=
  match c with
  | EXEC _ => True
  | REDIR c _ _ fd => std_redirs c /\ (fd = 0 \/ fd = 1)
  | PIPE l r | LIST l r => std_redirs l /\ std_redirs r
  | BACK c => std_redirs c
  end.

Lemma fdalloc_lowest t i o : t !! i = Some None -> (forall j, (j < i)%nat -> exists x, t !! j = Some (Some x)) ->
  fdalloc t o = Some (i, <[i := Some o]> t).
Proof.
  intros Hi Hj. unfold fdalloc. assert (E : list_find (fun x => x = None) t = Some (i, None)).
  { apply list_find_Some. split_and!; try done. intros j y Hy Hl ->. destruct (Hj j Hl) as [x Hx]. congruence. }
  by rewrite E.
Qed.

(** Two free descriptors besides the first two. *)
Definition two_free (t : fdtable) : Prop := exists a b, (2 <= a < b)%nat /\ t !! a = Some None /\ t !! b = Some None.

Lemma least_free (t : fdtable) m a : (m <= a)%nat -> t !! a = Some None ->
  exists p, (m <= p <= a)%nat /\ t !! p = Some None /\ forall j, (m <= j < p)%nat -> exists x, t !! j = Some (Some x).
Proof.
  intros Hm Ha. remember (a - m)%nat as d eqn:Ed. revert m Hm Ed. induction d as [|d IH]; intros m Hm Ed.
  { exists a. split_and!; auto; lia. }
  destruct (lookup_lt_is_Some_2 t m) as [[x|] Hx]; [apply lookup_lt_Some in Ha; lia| |].
  - destruct (IH (S m)) as (p & Hp & E & Hl); [lia|lia|]. exists p. split_and!; auto; try lia. intros j Hj.
    destruct (decide (j = m)) as [->|]; [by exists x|]. apply Hl. lia.
  - exists m. split_and!; auto; lia.
Qed.

(** The two descriptors that [pipe] gets. *)
Lemma two_lowest t : two_free t -> exists p0 p1, (2 <= p0 < p1)%nat /\ t !! p0 = Some None /\ t !! p1 = Some None /\
  forall j, (2 <= j < p1)%nat -> j <> p0 -> exists x, t !! j = Some (Some x).
Proof.
  intros (a & b & Hab & Ha & Hb). destruct (least_free t 2 a) as (p0 & Hp0 & E0 & H0); [lia|done|].
  destruct (least_free t (S p0) b) as (p1 & Hp1 & E1 & H1); [lia|done|]. exists p0, p1. split_and!; auto; try lia.
  intros j Hj Hn. destruct (decide (j < p0)%nat); [apply H0|apply H1]; lia.
Qed.

Lemma rewire_lookup t i o n : (2 <= length t)%nat ->
  rewire t i o !! n = match n with 0%nat => Some (Some i) | 1%nat => Some (Some o) | _ => t !! n end.
Proof.
  intros Hl. unfold rewire. destruct n as [|[|n]].
  - apply list_lookup_insert_eq. rewrite length_insert. lia.
  - rewrite list_lookup_insert_ne by lia. apply list_lookup_insert_eq. lia.
  - rewrite !list_lookup_insert_ne by lia. done.
Qed.

Lemma rewire_length t i o : length (rewire t i o) = length t.
Proof. unfold rewire. by rewrite !length_insert. Qed.

Lemma two_free_length t : two_free t -> (2 <= length t)%nat.
Proof. intros (a & b & Hab & Ha & _). apply lookup_lt_Some in Ha. lia. Qed.

(** The table of a process after [pipe]. *)
Definition piped (t : fdtable) (p0 p1 k : nat) : fdtable := <[p1 := Some (WriteEnd k)]> (<[p0 := Some (ReadEnd k)]> t).

Lemma fdalloc_pipe t i o k p0 p1 : (2 <= length t)%nat -> (2 <= p0 < p1)%nat -> t !! p0 = Some None -> t !! p1 = Some None ->
  (forall j, (2 <= j < p1)%nat -> j <> p0 -> exists x, t !! j = Some (Some x)) ->
  fdalloc (rewire t i o) (ReadEnd k) = Some (p0, <[p0 := Some (ReadEnd k)]> (rewire t i o)) /\
  fdalloc (<[p0 := Some (ReadEnd k)]> (rewire t i o)) (WriteEnd k) = Some (p1, piped (rewire t i o) p0 p1 k).
Proof.
  intros Hl Hp E0 E1 Hlow. pose proof (lookup_lt_Some _ _ _ E0) as Hl0.
  assert (Hr : forall j, (2 <= j)%nat -> rewire t i o !! j = t !! j) by (intros [|[|j]] Hj; [lia..|by rewrite rewire_lookup]).
  assert (Hlo : forall j, (j < 2)%nat -> exists x, rewire t i o !! j = Some (Some x)) by (intros [|[|j]] Hj; [| |lia]; rewrite rewire_lookup; eauto).
  split; apply fdalloc_lowest.
  - rewrite Hr; [done|lia].
  - intros j Hj. destruct (decide (j < 2)%nat); [by apply Hlo|]. rewrite Hr by lia. apply Hlow; lia.
  - rewrite list_lookup_insert_ne by lia. rewrite Hr; [done|lia].
  - intros j Hj. destruct (decide (j = p0)) as [->|]; [rewrite list_lookup_insert_eq by (rewrite rewire_length; lia); eauto|].
    rewrite list_lookup_insert_ne by lia. destruct (decide (j < 2)%nat); [by apply Hlo|]. rewrite Hr by lia. apply Hlow; lia.
Qed.

(** Descriptor 0 or 1 is the lowest free one when it was closed. *)
Lemma fdalloc_std t i o (fd : nat) f : (2 <= length t)%nat -> (fd < 2)%nat -> t !! 0%nat = Some (Some i) -> t !! 1%nat = Some (Some o) ->
  fdalloc (close fd t) f = Some (fd, <[fd := Some f]> t).
Proof.
  intros Hl Hfd H0 H1. erewrite (fdalloc_lowest _ fd).
  - unfold close. by rewrite list_insert_insert_eq.
  - unfold close. apply list_lookup_insert_eq. lia.
  - intros j Hj. unfold close. rewrite list_lookup_insert_ne by lia. destruct j as [|[|j]]; [eauto..|lia].
Qed.

Lemma open_std t i o fd file mode : (2 <= length t)%nat -> fd = 0 \/ fd = 1 -> open_ok file mode ->
  open file mode (close (Z.to_nat fd) (rewire t i o)) =
  Some (if fd =? 0 then rewire t (Opened file mode) o else rewire t i (Opened file mode)).
Proof.
  intros Hl Hfd Ho. unfold open. destruct (open_ok file mode); [|done].
  rewrite (fdalloc_std _ i o); [|by rewrite rewire_length|lia|by rewrite rewire_lookup|by rewrite rewire_lookup].
  simpl. f_equal. unfold rewire. destruct Hfd as [->| ->]; simpl.
  - by rewrite list_insert_insert_eq.
  - rewrite list_insert_insert_ne by lia. by rewrite list_insert_insert_eq.
Qed.

(** A child of a pipeline has one end of the pipe, as descriptor [fd], and nothing else of it. *)
Lemma dup_end t i o k p0 p1 p (fd : nat) f : (2 <= length t)%nat -> (2 <= p0 < p1)%nat -> t !! p0 = Some None -> t !! p1 = Some None ->
  (fd < 2)%nat -> (p, f) = (p0, ReadEnd k) \/ (p, f) = (p1, WriteEnd k) ->
  close p1 (close p0 (dup p (close fd (piped (rewire t i o) p0 p1 k)))) = <[fd := Some f]> (rewire t i o).
Proof.
  intros Hl Hp E0 E1 Hfd Hpf. pose proof (lookup_lt_Some _ _ _ E1) as Hl1. set (u := piped _ _ _ _).
  assert (Hlu : length u = length t) by (unfold u, piped; by rewrite !length_insert, rewire_length).
  assert (Hu : forall n, u !! n = if decide (n = p1) then Some (Some (WriteEnd k)) else if decide (n = p0) then Some (Some (ReadEnd k)) else rewire t i o !! n).
  { intros n. unfold u, piped. destruct (decide (n = p1)) as [->|]; [apply list_lookup_insert_eq; rewrite length_insert, rewire_length; lia|].
    rewrite list_lookup_insert_ne by lia. destruct (decide (n = p0)) as [->|]; [apply list_lookup_insert_eq; rewrite rewire_length; lia|].
    by rewrite list_lookup_insert_ne by lia. }
  assert (Hd : dup p (close fd u) = <[fd := Some f]> u).
  { unfold dup. assert (Hx : close fd u !! p = Some (Some f)).
    { unfold close. rewrite list_lookup_insert_ne by (destruct Hpf; simplify_eq; lia). rewrite Hu.
      destruct Hpf as [[= -> ->]|[= -> ->]]; repeat case_decide; try lia; done. }
    rewrite Hx. rewrite (fdalloc_std u i o); [done|lia|done| |]; rewrite Hu; repeat case_decide; try lia; by rewrite rewire_lookup. }
  rewrite Hd. unfold close. apply list_eq. intros n. rewrite !list_lookup_insert, !length_insert, Hlu, rewire_length, Hu.
  destruct (decide (n = p1)) as [->|]; [|destruct (decide (n = p0)) as [->|]]; repeat case_decide; try lia; try done.
  - rewrite rewire_lookup by done. destruct p1 as [|[|p1]]; [lia..|done].
  - rewrite rewire_lookup by done. destruct p0 as [|[|p0]]; [lia..|done].
Qed.

Lemma rewire_in t i o i' : <[0%nat := Some i']> (rewire t i o) = rewire t i' o.
Proof. unfold rewire. by rewrite list_insert_insert_eq. Qed.

Lemma rewire_out t i o o' : <[1%nat := Some o']> (rewire t i o) = rewire t i o'.
Proof. unfold rewire. rewrite list_insert_insert_ne by lia. by rewrite list_insert_insert_eq. Qed.

Lemma bind_eq {S A B} (m m' : M S A) (k k' : A -> M S B) s : m s = m' s -> (forall a s', k a s' = k' a s') -> (m ≫= k) s = (m' ≫= k') s.
Proof. intros Hm Hk. unfold mbind, M_bind. rewrite Hm. destruct (m' s); auto. Qed.

Lemma bind_same {S A B} (m : M S A) (k k' : A -> M S B) s : (forall a s', k a s' = k' a s') -> (m ≫= k) s = (m ≫= k') s.
Proof. by apply bind_eq. Qed.

(** C18. [runcmd] runs each program of a command with the descriptors of the shell but for
    standard input and output, which are the file that the command redirects them to, the
    one end of a pipe that connects it to its neighbour, or those of the shell: the other
    descriptors of a pipe are closed, so that a reader sees the end of its input.  This
    holds also when a [fork], a [pipe] or an [open] fails. *)
Theorem runcmd_wires (t : fdtable) (c : command str) (i o : fobj) (w : world) :
  two_free t -> std_redirs c -> runcmd c (rewire t i o) w = denote t c i o w.
Proof.
  intros Ht. pose proof (two_free_length t Ht) as Hl. destruct (two_lowest t Ht) as (p0 & p1 & Hp & E0 & E1 & Hlow).
  revert i o w. induction c as [argv|c IH file mode fd|l IHl r IHr|l IHl r IHr|c IH]; intros i o w Hc; cbn [runcmd denote].
  - by destruct argv.
  - destruct Hc as [Hc Hfd]. destruct (open_ok file mode) eqn:Ho.
    + rewrite open_std by (auto; by rewrite Ho). destruct (fd =? 0); by apply IH.
    + unfold open. by rewrite Ho.
  - destruct Hc as [Hcl Hcr]. destruct (fdalloc_pipe t i o (pipes w) p0 p1 Hl Hp E0 E1 Hlow) as [F0 F1].
    erewrite bind_ret by reflexivity. erewrite bind_ret by reflexivity. erewrite bind_ret by reflexivity.
    destruct (pipe_ok (pipes w)); [|done]. rewrite F0. simpl. rewrite F1. simpl.
    apply bind_same. intros [] w'; [|done].
    rewrite (dup_end t i o (pipes w) p0 p1 p1 1 (WriteEnd (pipes w))), (dup_end t i o (pipes w) p0 p1 p0 0 (ReadEnd (pipes w))) by (auto; lia).
    rewrite rewire_out, rewire_in. apply bind_eq; [by apply IHl|]. intros [] w2. apply bind_same. intros [] w3; [by apply IHr|done].
  - destruct Hc as [Hcl Hcr]. apply bind_same. intros [] w'; [|done]. apply bind_eq; [by apply IHl|]. intros [] w2. by apply IHr.
  - apply bind_same. intros [] w'; [by apply IH|done].
Qed.
End Wires.

Definition demo_kernel : Kernel := {| fork_ok := fun _ => true; pipe_ok := fun _ => true; open_ok := fun _ _ => true |}.
Definition demo_fds : fdtable := [Some (Inherited 0); Some (Inherited 1); Some (Inherited 2)] ++ replicate 13 None.

(** In [(a <i)|(b c);(d)&] the program [b] reads from the pipe and has the descriptors of the shell
    otherwise. *)
Lemma runcmd_wires_witness :
  (forall w, @runcmd demo_kernel demo_cmd (rewire demo_fds (Inherited 0) (Inherited 1)) w = @denote demo_kernel demo_fds demo_cmd (Inherited 0) (Inherited 1) w) /\
  match @runcmd demo_kernel demo_cmd demo_fds (World 0 0 []) with
  | Ret _ w => execs w !! 1%nat = Some ([[98]; [99]], <[0%nat := Some (ReadEnd 0)]> demo_fds)
  | _ => False
  end.
Proof.
  split; [|vm_compute; reflexivity]. intros w. apply (@runcmd_wires demo_kernel).
  - exists 3%nat, 4%nat. split; [lia|done].
  - simpl. tauto.
Defined.

(** [>>] opens its file like [>]: at its start. *)
Lemma append_is_output file c : redircmd PLUS file c = redircmd GT file c.
Proof. done. Qed.

(** A line of [cd] that does not end with a newline loses the last character of the path. *)
Lemma chdir_chops : main_step [99; 100; 32; 97; 98] = Chdir [97].
Proof. done. Qed.
