(* ===== verification/Exec.v ===== *)
(** * Exec: exec.c

    Replacing the image of a process.  The state has the pages of memory ([Vm]), the
    fields of the process that exec sets, and how many operations of the log exec has
    begun and how many inodes it holds locked.  A program file is the list of its bytes,
    as [readi] promises it (FsFile); [namei] is the lookup of a path. *)

From S2P Require Import Prelude Mem Log Kalloc Fs Vm VmSpec VmUser.

Definition ELF_MAGIC : Z := 0x464C457F.
Definition ELF_PROG_LOAD : Z := 1.
Definition MAXARG : Z := 32.

(** What exec uses of [struct elfhdr] and [struct proghdr]. *)
Record elfhdr := Elfhdr { e_magic : Z; e_entry : Z; e_phoff : Z; e_phnum : Z }.
Record proghdr := Proghdr { p_type : Z; p_off : Z; p_vaddr : Z; p_filesz : Z; p_memsz : Z }.

Definition field32 (d : list Z) (o : nat) : Z := u32 (default 0 (get32 d o)).
Definition get_elfhdr (d : list Z) : elfhdr := Elfhdr (field32 d 0) (field32 d 24) (field32 d 28) (u16 (default 0 (get16 d 44))).
Definition get_proghdr (d : list Z) : proghdr := Proghdr (field32 d 0) (field32 d 4) (field32 d 8) (field32 d 16) (field32 d 20).

(** [readi] on a file with the contents [f]: the bytes read, none when it returns -1. *)
Definition readi_file (f : list Z) (off n : Z) : list Z :=
  if (off >? Z.of_nat (length f)) || (u32 (off + n) <? off) then [] else take (Z.to_nat n) (drop (Z.to_nat off) f).

Record exec_st := ExecSt { xvm : vm; xops : Z; xlocked : Z; xpgdir : Z; xsz : Z; xeip : Z; xesp : Z; xname : list Z }.
#[export] Instance eta_exec_st : Eta exec_st :=
  fun r => ExecSt (xvm r) (xops r) (xlocked r) (xpgdir r) (xsz r) (xeip r) (xesp r) (xname r).

Section Exec.
Context (kend kdata : Z) (junk : Z -> pagedata).
Context (namei : list Z -> option (list Z)).

Definition on_vm {A} (m : M vm A) : M exec_st A := zoom xvm (fun v s => s <| xvm := v |>) m.

Definition begin_op : M exec_st unit := modify (fun s => s <| xops ::= Z.add 1 |>).
Definition end_op : M exec_st unit := modify (fun s => s <| xops ::= Z.add (-1) |>).
Definition ilock : M exec_st unit := modify (fun s => s <| xlocked ::= Z.add 1 |>).
Definition iunlockput : M exec_st unit := modify (fun s => s <| xlocked ::= Z.add (-1) |>).

(** The loop that loads the program; [None] is the jump to [bad]. *)
Fixpoint load_loop (f : list Z) (pgdir : Z) (n : nat) (off sz : Z) : M vm (option Z) :=
  match n with
  | O => mret (Some sz)
  | S n =>
      let d := readi_file f off 32 in
      if negb (Z.of_nat (length d) =? 32) then mret None
      else
        let ph := get_proghdr d in
        if negb (p_type ph =? ELF_PROG_LOAD) then load_loop f pgdir n (u32 (off + 32)) sz
        else if p_memsz ph <? p_filesz ph then mret None
        else if u32 (p_vaddr ph + p_memsz ph) <? p_vaddr ph then mret None
        else
          sz ← allocuvm kend junk pgdir sz (u32 (p_vaddr ph + p_memsz ph));
          if sz =? 0 then mret None
          else if negb (p_vaddr ph mod PGSIZE =? 0) then mret None
          else
            r ← loaduvm junk (readi_file f) pgdir (p_vaddr ph) (p_off ph) (p_filesz ph);
            if r <? 0 then mret None else load_loop f pgdir n (u32 (off + 32)) sz
  end.

(** The loop that pushes the argument strings; [ptrs] is [ustack] from 3. *)
Fixpoint push_args (pgdir : Z) (argv : list (list Z)) (sp : Z) (ptrs : list Z) : M vm (option (Z * list Z)) :=
  match argv with
  | [] => mret (Some (sp, ptrs))
  | a :: argv =>
      if Z.of_nat (length ptrs) >=? MAXARG then mret None
      else
        let sp := Z.land (u32 (sp - (Z.of_nat (length a) + 1))) (Z.lnot 3) in
        r ← copyout junk pgdir sp (a ++ [0]);
        if r <? 0 then mret None else push_args pgdir argv sp (ptrs ++ [sp])
  end.

Definition ustack (sp : Z) (ptrs : list Z) : list Z :=
  let argc := Z.of_nat (length ptrs) in
  [0xffffffff; argc; u32 (sp - (argc + 1) * 4)] ++ ptrs ++ [0].

(** The arguments and [ustack]; the stack pointer. *)
Definition push_stack (pgdir sz : Z) (argv : list (list Z)) : M vm (option Z) :=
  a ← push_args pgdir argv sz [];
  match a with
  | None => mret None
  | Some (sp, ptrs) =>
      let n := (3 + Z.of_nat (length ptrs) + 1) * 4 in
      r ← copyout junk pgdir (u32 (sp - n)) (concat (le32 <$> ustack sp ptrs));
      if r <? 0 then mret None else mret (Some (u32 (sp - n)))
  end.

(** [last] of the path, for the name of the process. *)
Fixpoint last_name (path last : list Z) : list Z :=
  match path with
  | [] => last
  | c :: path => last_name path (if c =? 47 then path else last)
  end.

(** The label [bad]; [locked] is [ip != 0]. *)
Definition bad (pgdir : Z) (locked : bool) : M exec_st Z :=
  (if negb (pgdir =? 0) then on_vm (freevm kend junk pgdir) else mret tt);;
  (if locked then iunlockput;; end_op else mret tt);;
  mret (-1).

(** Of [switchuvm] the page table register. *)
Definition switchuvm (pgdir : Z) : M vm unit :=
  if pgdir =? 0 then panic "switchuvm: no pgdir" else modify (fun s => s <| cr3 := V2P pgdir |>).

(** The image is complete: it becomes that of the process. *)
Definition commit_image (pgdir sz entry sp : Z) (path : list Z) : M exec_st Z :=
  modify (fun s => s <| xname := take 15 (last_name path path) |>);;
  oldpgdir ← gets xpgdir;
  modify (fun s => s <| xpgdir := pgdir |> <| xsz := sz |> <| xeip := entry |> <| xesp := sp |>);;
  on_vm (switchuvm pgdir);;
  on_vm (freevm kend junk oldpgdir);;
  mret 0.

(** From the allocation of the stack to the end. *)
Definition exec_stack (pgdir sz entry : Z) (path : list Z) (argv : list (list Z)) : M exec_st Z :=
  let sz := PGROUNDUP sz in
  sz ← on_vm (allocuvm kend junk pgdir sz (u32 (sz + 2 * PGSIZE)));
  if sz =? 0 then bad pgdir false
  else
    on_vm (clearpteu junk pgdir (sz - 2 * PGSIZE));;
    sp ← on_vm (push_stack pgdir sz argv);
    match sp with
    | None => bad pgdir false
    | Some sp => commit_image pgdir sz entry sp path
    end.

Definition exec (path : list Z) (argv : list (list Z)) : M exec_st Z :=
  begin_op;;
  match namei path with
  | None => end_op;; on_vm (modify (fun s => s <| vlog ::= fun l => l ++ ["exec: fail"%string] |>));; mret (-1)
  | Some f =>
      ilock;;
      let d := readi_file f 0 52 in
      let elf := get_elfhdr d in
      if negb (Z.of_nat (length d) =? 52) then bad 0 true
      else if negb (e_magic elf =? ELF_MAGIC) then bad 0 true
      else
        pgdir ← on_vm (setupkvm kend kdata junk);
        if pgdir =? 0 then bad 0 true
        else
          sz ← on_vm (load_loop f pgdir (Z.to_nat (e_phnum elf)) (e_phoff elf) 0);
          match sz with
          | None => bad pgdir true
          | Some sz =>
              iunlockput;;
              end_op;;
              exec_stack pgdir sz (e_entry elf) path argv
          end
  end.
End Exec.
