(* ===== verification/ExecSpec.v ===== *)
(** * ExecSpec: exec.c

    What [exec] does on every path: a failing exec leaves the process and the memory as
    they were, and a successful one gives the process an address space of its own, with
    the segments of the program, a guard page and a stack that holds the arguments. *)

From S2P Require Import Prelude Mem Log Kalloc Fs Vm VmSpec VmUser Exec.

(** ** Memory images *)

(** User memory as a function of the address, and storing bytes in it. *)
Notation umem := (Z -> Z).

Definition store (m : umem) (va : Z) (bs : list Z) : umem :=
  fun a => if (va <=? a) && (a <? va + Z.of_nat (length bs)) then default 0 (bs !! Z.to_nat (a - va)) else m a.

Definition holds (m : umem) (va : Z) (bs : list Z) : Prop := forall i b, bs !! i = Some b -> m (va + Z.of_nat i) = b.

Lemma store_out m va bs a : a < va \/ va + Z.of_nat (length bs) <= a -> store m va bs a = m a.
Proof. intros H. unfold store. by replace ((va <=? a) && (a <? va + Z.of_nat (length bs))) with false by lia. Qed.

Lemma store_holds m va bs : holds (store m va bs) va bs.
Proof.
  intros i b H. unfold store. pose proof (lookup_lt_Some _ _ _ H). replace ((va <=? va + Z.of_nat i) && (va + Z.of_nat i <? va + Z.of_nat (length bs))) with true by lia.
  replace (Z.to_nat (va + Z.of_nat i - va)) with i by lia. by rewrite H.
Qed.

Lemma holds_store m va bs va' bs' : holds m va bs -> va' + Z.of_nat (length bs') <= va \/ va + Z.of_nat (length bs) <= va' -> holds (store m va' bs') va bs.
Proof. intros H Hd i b Hi. pose proof (lookup_lt_Some _ _ _ Hi). rewrite store_out by lia. by apply H. Qed.

(** The memory that the segments of a program make: zeros, and the bytes of the file. *)
Definition seg_bytes (f : list Z) (ph : proghdr) : list Z := take (Z.to_nat (p_filesz ph)) (drop (Z.to_nat (p_off ph)) f).

Fixpoint program (f : list Z) (n : nat) (off : Z) (m : umem) : umem :=
  match n with
  | O => m
  | S n =>
      let ph := get_proghdr (readi_file f off 32) in
      program f n (u32 (off + 32)) (if p_type ph =? ELF_PROG_LOAD then store m (p_vaddr ph) (seg_bytes f ph) else m)
  end.

(** Whether a segment can be loaded: it lies in the file and below the kernel. *)
Definition seg_valid (f : list Z) (ph : proghdr) (sz : Z) : bool :=
  (p_filesz ph <=? p_memsz ph) && (p_vaddr ph + p_memsz ph <? KERNBASE) && (0 <? Z.max sz (p_vaddr ph + p_memsz ph)) && (p_vaddr ph mod 4096 =? 0) &&
  ((p_filesz ph =? 0) || (p_off ph + p_filesz ph <=? Z.of_nat (length f))).

(** The size of a program, when all its segments can be loaded. *)
Fixpoint program_size (f : list Z) (n : nat) (off sz : Z) : option Z :=
  match n with
  | O => Some sz
  | S n =>
      let d := readi_file f off 32 in
      let ph := get_proghdr d in
      if negb (Z.of_nat (length d) =? 32) then None
      else if negb (p_type ph =? ELF_PROG_LOAD) then program_size f n (u32 (off + 32)) sz
      else if seg_valid f ph sz then program_size f n (u32 (off + 32)) (Z.max sz (p_vaddr ph + p_memsz ph)) else None
  end.

(** The stack pointer below a string of [len] bytes, and below all the arguments, when they
    fit above [base]. *)
Definition below (sp len : Z) : Z := sp - len - (sp - len) mod 4.

Fixpoint args_sp (base : Z) (argv : list (list Z)) (k sp : Z) : option Z :=
  match argv with
  | [] => if base <=? sp - (4 + k) * 4 then Some sp else None
  | a :: argv =>
      let sp' := below sp (Z.of_nat (length a) + 1) in
      if (k <? MAXARG) && (base <=? sp') then args_sp base argv (k + 1) sp' else None
  end.

(** The number of pages of the new image, when the file and the arguments are good. *)
Definition exec_pages (namei : list Z -> option (list Z)) (path : list Z) (argv : list (list Z)) : option Z :=
  f ← namei path;
  let d := readi_file f 0 52 in
  let elf := get_elfhdr d in
  if (Z.of_nat (length d) =? 52) && (e_magic elf =? ELF_MAGIC) then
    sz ← program_size f (Z.to_nat (e_phnum elf)) (e_phoff elf) 0;
    let n := npages sz + 2 in
    if n * 4096 <? KERNBASE then
      _ ← args_sp ((n - 1) * 4096) argv 0 (n * 4096);
      Some n
    else None
  else None.

Lemma program_size_le f n : forall off sz sz', program_size f n off sz = Some sz' -> sz <= sz'.
Proof.
  induction n as [|n IH]; intros off sz sz' H; cbn [program_size] in H; [by injection H as ->|]. cbv zeta in H.
  repeat (case_match; try done); apply IH in H; lia.
Qed.

Lemma npages_mono a b : a <= b -> npages a <= npages b.
Proof. intros H. unfold npages. zlia. Qed.

Lemma field32_range d o : 0 <= field32 d o < 2 ^ 32.
Proof. unfold field32, u32. zlia. Qed.

Lemma land_not3 x : Z.land x (Z.lnot 3) = x - x mod 4.
Proof. change (Z.lnot 3) with (Z.lnot (2 ^ 2 - 1)). by rewrite land_high by lia. Qed.

Definition PWU : Z := Z.lor PTE_P (Z.lor PTE_W PTE_U).

Lemma clear_U e : PTE_FLAGS e = PWU -> 0 <= e -> PTE_ADDR (Z.land e (Z.lnot PTE_U)) = PTE_ADDR e /\ PTE_FLAGS (Z.land e (Z.lnot PTE_U)) = 3 /\ 0 <= Z.land e (Z.lnot PTE_U) <= e.
Proof.
  intros Hf He. rewrite PTE_FLAGS_eq in Hf. change PWU with 7 in Hf.
  assert (E : Z.land e (Z.lnot PTE_U) = e - 4).
  { change (Z.land e (Z.lnot PTE_U)) with (Z.ldiff e 4). symmetry. apply Z.sub_nocarry_ldiff. apply Z.bits_inj'. intros i Hi. rewrite Z.ldiff_spec, Z.bits_0.
    change 4 with (2 ^ 2). rewrite Z.pow2_bits_eqb by lia. destruct (Z.eqb_spec 2 i) as [<-|]; [|done].
    replace (Z.testbit e 2) with true; [done|]. symmetry. apply Z.testbit_true; [lia|]. zlia. }
  rewrite E. rewrite !PTE_ADDR_eq, PTE_FLAGS_eq. zlia.
Qed.

Lemma access_flags e : present e = true -> access e = negb (Z.land (PTE_FLAGS e) PTE_U =? 0).
Proof. intros Hp. unfold access. rewrite Hp. unfold PTE_FLAGS. rewrite <- Z.land_assoc. done. Qed.

Section Spec.
Context (kend : Z).
Hypothesis Hkend : KERNBASE < kend.
Context (kdata : Z).
Hypothesis Hkdata : kdata mod 4096 = 0 /\ KERNLINK < kdata < KERNBASE + PHYSTOP.
Context (junk : Z -> pagedata).

Notation space_ok := (space_ok kend).
Notation free_ok := (free_ok kend).
Notation grown := (grown kend).

(** Not more than 1026 pages are free besides those of an image of [n] pages. *)
Definition starved (v : vm) (n : Z) : Prop := Z.of_nat (length (vfree v)) <= 1026 + n.

Lemma starved_mono v n n' : n <= n' -> starved v n -> starved v n'.
Proof using. unfold starved. lia. Qed.

(** What the messages of cprintf leave alone. *)
Definition same_mem (s s' : vm) : Prop := vfree s' = vfree s /\ vpages s' = vpages s /\ cr3 s' = cr3 s.

(** The address space [d], made since [s0]: its pages below [n] are mapped with the flags
    [fl], and hold [m], and the kernel is mapped above. *)
Record image_ok (s0 s : vm) (d n : Z) (fl : Z -> Z) (m : umem) : Prop := {
  im_grown : exists s0', same_mem s0 s0' /\ grown s0' d s [];
  im_range : 0 <= n <= 2 ^ 19;
  im_in : forall j, 0 <= j < n -> present (ent s d j) = true /\ PTE_FLAGS (ent s d j) = fl j;
  im_out : forall j, n <= j < 2 ^ 19 -> present (ent s d j) = false;
  im_kern : forall j, 2 ^ 19 <= j < 2 ^ 20 -> ent s d j = kentry kdata j;
  im_byte : forall a, 0 <= a < n * 4096 -> ubyte s d a = Some (m a);
  im_zero : forall a, n * 4096 <= a -> m a = 0
}.

Lemma image_space s0 s d n fl m : image_ok s0 s d n fl m -> space_ok s d /\ free_ok s.
Proof using. intros [(s0' & _ & G) _ _ _ _ _ _]. split; apply G. Qed.

(** The kernel part of the address space is not for the user. *)
Lemma image_start s0 d s : grown s0 d s [] -> (forall j, 0 <= j < 2 ^ 20 -> ent s d j = kentry kdata j) -> image_ok s0 s d 0 (fun _ => PWU) (fun _ => 0).
Proof using Hkdata.
  intros Hg He. split; [by exists s0|lia|intros j Hj; lia| |intros j Hj; apply He; lia|intros a Ha; lia|done].
  intros j Hj. rewrite He by lia. destruct Hkdata as [_ Hk]. unfold KERNLINK, KERNBASE, EXTMEM, PHYSTOP in Hk. unfold kentry, KERNBASE, DEVSPACE, PHYSTOP. zdecide. done.
Qed.

Lemma free_same v v' : same_mem v v' -> free_ok v -> free_ok v'.
Proof using. intros (E1 & E2 & _) [F1 F2]. split; by rewrite E1, ?E2. Qed.

Lemma ubyte_eq s s' d a : 0 <= a < 2 ^ 31 -> ent s' d (a / 4096) = ent s d (a / 4096) ->
  (present (ent s d (a / 4096)) = true -> vpages s' !! upage s d (a / 4096) = vpages s !! upage s d (a / 4096)) -> ubyte s' d a = ubyte s d a.
Proof using.
  intros Ha He Hp. unfold ubyte, upage in *. rewrite He. destruct (present (ent s d (a / 4096))); [|done]. by rewrite Hp.
Qed.

(** Growing the image. *)
Lemma image_alloc s0 s d sz newsz m : free_ok s0 -> image_ok s0 s d (npages sz) (fun _ => PWU) m -> 0 <= sz < KERNBASE -> 0 <= newsz ->
  exists r s', allocuvm kend junk d sz newsz s = Ret r s' /\
    (r = 0 /\ (exists s0', same_mem s0 s0' /\ grown s0' d s' []) /\ (KERNBASE <= newsz \/ starved s0 (npages newsz)) \/ r = Z.max sz newsz /\ newsz < KERNBASE /\ image_ok s0 s' d (npages r) (fun _ => PWU) m).
Proof using Hkend.
  intros Hf0 Him Hsz Hn. destruct (Z.lt_ge_cases newsz KERNBASE) as [Hlt|Hge].
  2: { exists 0, s. unfold allocuvm. replace (newsz >=? KERNBASE) with true by lia. split; [done|]. left. split; [done|]. split; [apply Him|by left]. }
  destruct (Z.lt_ge_cases newsz sz) as [Hls|Hges].
  { exists sz, s. unfold allocuvm. replace (newsz >=? KERNBASE) with false by lia. replace (newsz <? sz) with true by lia.
    split; [by rewrite s32_small by (unfold KERNBASE in *; lia)|]. right. split; [lia|]. done. }
  destruct Him as [(s0' & (S1 & S2 & S3) & G) I0 I1 I2 I3 I4 I5].
  assert (Hnp : 0 <= npages sz <= npages newsz /\ npages newsz <= 2 ^ 19) by (unfold npages, KERNBASE in *; zlia).
  destruct (allocuvm_grown kend Hkend junk s s0' d sz newsz G) as (r & s' & E & [(s1 & A1 & A2 & A3 & A4) B C D]); [lia|done|intros j Hj; apply I2; lia|].
  assert (Hsm : same_mem s0 s1) by (split_and!; congruence).
  exists r, s'. split; [done|]. destruct D as [[-> Hz]|(-> & Hz & s2 & pend & G2 & Hnil & Hpl & He2)]; [right|left].
  2: { split; [done|]. split; [by exists s1|]. right. unfold starved. rewrite <- S1. apply (grown_starved kend s0' d s2 pend); [by eapply free_same|done|done|done|lia|].
       intros j Hj. rewrite He2 by lia. apply I2. lia. }
  split; [lia|]. split; [done|]. split; [by exists s1|lia| | | | |].
  - intros j Hj. destruct (decide (npages sz <= j < npages newsz)) as [Hin|Hout]; [destruct (Hz j Hin) as (? & ? & _); done|]. rewrite B by lia. apply I1. lia.
  - intros j Hj. rewrite B by lia. apply I2. lia.
  - intros j Hj. rewrite B by lia. by apply I3.
  - intros a Ha. destruct (decide (a < npages sz * 4096)) as [Hin|Hout].
    + rewrite <- I4 by lia. apply ubyte_eq; [lia|apply B; zlia|]. intros Hp. apply C; [zlia|zlia|done].
    + destruct (Hz (a / 4096)) as (Hp & _ & Hd); [zlia|]. unfold ubyte. rewrite Hp, Hd, I5 by lia. exact (lookup_replicate_2 4096 0 (Z.to_nat (a mod 4096)) ltac:(zlia)).
  - intros a Ha. apply I5. lia.
Qed.

(** Writing to user memory keeps the pages. *)
Lemma uwrote_owned s d s' va bs q : uwrote kend s d s' va bs -> owned s' d q <-> owned s d q.
Proof using.
  intros [_ U2 U3 _ _ _ _]. unfold owned, upages, upage. setoid_rewrite U2.
  split; (intros [H|[H|(k & Hk & Hp & Hq)]]; [by left|by right; left|right; right; exists k]); by rewrite U3 in * by lia.
Qed.

Lemma grown_uwrote s0 s d s' va bs : grown s0 d s [] -> uwrote kend s d s' va bs -> grown s0 d s' [].
Proof using.
  intros [G1 G2 G3 G4 G5 [G6 G7]] U. pose proof U as [U1 U2 U3 U4 U5 U6 [U7 U8]].
  assert (Hrest : forall q, ~ owned s d q -> vpages s' !! q = vpages s !! q) by (intros q Hq; apply U6; intros Hu; apply Hq; by right; right).
  split; [done| | |intros q Hq; by apply elem_of_nil in Hq| |split; congruence].
  - split; [rewrite U4; apply G2|]. intros p. rewrite U4. intros Hp. destruct (fr_page _ _ G2 p Hp) as [Hv Hn]. split; [done|].
    rewrite Hrest; [done|]. intros Ho. destruct (owned_data _ _ _ _ G1 Ho) as (_ & x & Hx & _). congruence.
  - intros q. rewrite G3, U4. by rewrite (uwrote_owned _ _ _ _ _ q U).
  - intros q Hq. rewrite Hrest; [by apply G5|]. intros Ho. apply Hq, G3. by right; left.
Qed.

Lemma image_write s0 s d n fl m s' va bs : image_ok s0 s d n fl m -> uwrote kend s d s' va bs -> 0 <= va -> va + Z.of_nat (length bs) <= n * 4096 ->
  image_ok s0 s' d n fl (store m va bs).
Proof using.
  intros [(s1 & S1 & G) I0 I1 I2 I3 I4 I5] U Hva Hend. pose proof U as [_ _ U3 _ U5 _ _].
  split; [exists s1; split; [done|by eapply grown_uwrote]|done| | | | |].
  - intros j Hj. rewrite U3 by lia. by apply I1.
  - intros j Hj. rewrite U3 by lia. by apply I2.
  - intros j Hj. rewrite U3 by lia. by apply I3.
  - intros a Ha. rewrite U5 by (unfold KERNBASE; lia). unfold store. destruct ((va <=? a) && (a <? va + Z.of_nat (length bs))) eqn:E; [|by apply I4].
    destruct (lookup_lt_is_Some_2 bs (Z.to_nat (a - va))) as [x ->]; [lia|done].
  - intros a Ha. rewrite store_out by lia. by apply I5.
Qed.

Lemma image_tab s0 s d n fl m k : image_ok s0 s d n fl m -> 0 <= k < n -> tab s d (k / 1024) <> None.
Proof using. intros I Hk E. destruct (im_in _ _ _ _ _ _ I k Hk) as [Hp _]. unfold ent in Hp. by rewrite E in Hp. Qed.

(** The page of an address of the image, as the kernel sees it. *)
Lemma image_page s0 s d n fl m k : image_ok s0 s d n fl m -> 0 <= k < n ->
  exists pg, vpages s !! upage s d k = Some pg /\ length pg = 4096%nat /\ page kend (upage s d k) /\ P2V (PTE_ADDR (ent s d k)) = upage s d k.
Proof using.
  intros I Hk. destruct (image_space _ _ _ _ _ _ I) as [Hs _]. destruct (im_in _ _ _ _ _ _ I k Hk) as [Hp _]. pose proof (im_range _ _ _ _ _ _ I).
  destruct (sp_page _ _ _ Hs k ltac:(lia) Hp) as (Hv & _ & _ & _ & pg & Hpg & Hl). by exists pg.
Qed.

(** ** Loading a segment *)

(** What can be read of the file from [off]. *)
Lemma readi_file_full f off n : 0 <= off -> 0 < n < 2 ^ 32 -> Z.of_nat (length f) < 2 ^ 31 -> Z.of_nat (length (readi_file f off n)) = n ->
  off + n <= Z.of_nat (length f) /\ readi_file f off n = take (Z.to_nat n) (drop (Z.to_nat off) f).
Proof using.
  intros Ho Hn Hf. unfold readi_file. destruct (Z.gtb_spec off (Z.of_nat (length f))); cbn [orb]; [cbn; lia|].
  destruct (Z.ltb_spec (u32 (off + n)) off); [cbn; lia|]. rewrite length_take, length_drop. intros. split; [lia|done].
Qed.

Lemma readi_file_short f off n : 0 <= off -> 0 < n -> Z.of_nat (length f) < 2 ^ 31 -> Z.of_nat (length (readi_file f off n)) <> n -> Z.of_nat (length f) < off + n.
Proof using.
  intros Ho Hn Hf. unfold readi_file. destruct (Z.gtb_spec off (Z.of_nat (length f))); cbn [orb]; [lia|].
  destruct (Z.ltb_spec (u32 (off + n)) off) as [Hw|]; [|rewrite length_take, length_drop; lia]. intros _.
  destruct (Z.lt_ge_cases (off + n) (2 ^ 32)); [|lia]. rewrite u32_small in Hw by lia. lia.
Qed.

Lemma readi_file_length f off n : 0 <= n -> Z.of_nat (length (readi_file f off n)) <= n.
Proof using. intros Hn. unfold readi_file. destruct (_ || _); [cbn; lia|]. rewrite length_take. lia. Qed.

Lemma walk_present s d k : space_ok s d -> 0 <= k < 2 ^ 20 -> tab s d (k / 1024) <> None ->
  exists t, tab s d (k / 1024) = Some t /\ walkpgdir junk d (k * 4096) false s = Ret (t + 4 * (k mod 1024)) s /\ t + 4 * (k mod 1024) <> 0 /\
    ldw (t + 4 * (k mod 1024)) s = Ret (ent s d k) s.
Proof using Hkend Hkdata junk.
  intros Hs Hk Ht. destruct (tab s d (k / 1024)) as [t|] eqn:Et; [|done]. exists t. split; [done|].
  destruct (vpn_index k ltac:(lia)) as [EX ET]. destruct (ent_word kend Hkend s d k t (sp_dir _ _ _ Hs) ltac:(lia) Et) as (pg & Hpg & Hl & He & Hv & _ & Hld).
  destruct (vpage_range kend Hkend t Hv) as [Hal Hpos]. split_and!; [|unfold KERNBASE in *; zlia|done].
  by rewrite (walk_ok kend Hkend junk s d (k * 4096) (sp_dir _ _ _ Hs)), EX, ET, Et.
Qed.

Lemma st_page s0 s d n fl m k bs : image_ok s0 s d n fl m -> 0 <= k < n -> Z.of_nat (length bs) <= 4096 ->
  exists s', st_bytes (upage s d k) bs s = Ret tt s' /\ uwrote kend s d s' (k * 4096) bs.
Proof using Hkend Hkdata junk.
  intros I Hk Hl. destruct (image_page _ _ _ _ _ _ k I Hk) as (pg & Hpg & Hlp & Hv & _). destruct (vpage_range kend Hkend _ Hv) as [Hal _].
  destruct (image_space _ _ _ _ _ _ I) as [Hs _]. destruct (im_in _ _ _ _ _ _ I k Hk) as [Hp _]. pose proof (im_range _ _ _ _ _ _ I).
  eexists. split; [|pose proof (write_page kend junk s d k pg 0 bs Hs ltac:(lia) Hp Hpg ltac:(lia) ltac:(lia)) as W; rewrite Z.add_0_r in W; exact W].
  unfold st_bytes. rewrite PGROUNDDOWN_eq, Hal, Z.sub_0_r. rewrite (bind_ret _ _ _ _ _ (get_page_ok s _ pg Hpg)). unfold PGSIZE. rewrite Hal. by eapply set_page_ok.
Qed.

Lemma loaduvm_loop_ok f fuel s0 s d n fl m v offset sz t : Z.of_nat (length f) < 2 ^ 31 -> image_ok s0 s d n fl m -> 0 <= v -> 0 <= t -> v * 4096 + sz <= n * 4096 ->
  0 <= offset -> offset + t * 4096 < 2 ^ 32 -> sz - t * 4096 <= Z.of_nat fuel * 4096 ->
  exists r bs s', loaduvm_loop junk (readi_file f) fuel d (v * 4096) offset sz (t * 4096) s = Ret r s' /\ uwrote kend s d s' ((v + t) * 4096) bs /\
    Z.of_nat (length bs) <= Z.max 0 (sz - t * 4096) /\ (r = -1 /\ t * 4096 < sz /\ Z.of_nat (length f) < offset + sz \/
     r = 0 /\ (t * 4096 < sz -> offset + sz <= Z.of_nat (length f)) /\ bs = take (Z.to_nat (sz - t * 4096)) (drop (Z.to_nat (offset + t * 4096)) f)).
Proof using Hkend Hkdata junk.
  intros Hf. revert s m t. induction fuel as [|fuel IH]; intros s m t I Hv Ht Hend Ho Hot Hfu; cbn [loaduvm_loop]; destruct (Z.ltb_spec (t * 4096) sz) as [Hlt|Hge]; [lia| | |].
  1, 3: exists 0, [], s; split; [done|]; split; [apply uwrote_nil; by apply (image_space _ _ _ _ _ _ I)|]; split; [cbn; lia|right; split; [done|split; [lia|]]]; by replace (Z.to_nat (sz - t * 4096)) with O by lia.
  pose proof (im_range _ _ _ _ _ _ I) as Hn. assert (Hk : 0 <= v + t < n) by lia. destruct (image_space _ _ _ _ _ _ I) as [Hs _].
  rewrite (u32_small (v * 4096 + t * 4096)) by lia. replace (v * 4096 + t * 4096) with ((v + t) * 4096) by lia.
  destruct (walk_present s d (v + t) Hs ltac:(lia) (image_tab _ _ _ _ _ _ _ I Hk)) as (tb & _ & E1 & Hnz & E2).
  rewrite (bind_ret _ _ _ _ _ E1). apply Z.eqb_neq in Hnz. rewrite Hnz. rewrite (bind_ret _ _ _ _ _ E2). cbv zeta. fold (upage s d (v + t)).
  set (k := if sz - t * 4096 <? PGSIZE then sz - t * 4096 else PGSIZE). assert (Hk2 : 0 < k <= 4096 /\ k <= sz - t * 4096) by (unfold k, PGSIZE; destruct (Z.ltb_spec (sz - t * 4096) 4096); lia).
  rewrite (u32_small (offset + t * 4096)) by lia. set (bs := readi_file f (offset + t * 4096) k). pose proof (readi_file_length f (offset + t * 4096) k ltac:(lia)) as Hlb. fold bs in Hlb.
  destruct (st_page _ _ _ _ _ _ (v + t) bs I Hk ltac:(lia)) as (s1 & E3 & U). rewrite (bind_ret _ _ _ _ _ E3).
  destruct (Z.eqb_spec (Z.of_nat (length bs)) k) as [Hfull|Hnf]; cbn [negb].
  2: { exists (-1), bs, s1. split; [done|]. split; [done|]. split; [lia|]. left. apply readi_file_short in Hnf; [|lia|lia|done]. lia. }
  destruct (readi_file_full f (offset + t * 4096) k ltac:(lia) ltac:(lia) Hf Hfull) as [Hav Ebs]. fold bs in Ebs.
  destruct (Z.le_gt_cases (sz - t * 4096) 4096) as [Hlast|Hmore].
  - assert (Ek : k = sz - t * 4096) by (unfold k, PGSIZE; destruct (Z.ltb_spec (sz - t * 4096) 4096); lia).
    exists 0, bs, s1. split; [|split; [done|split; [lia|right; split; [done|split; [lia|by rewrite Ebs, Ek]]]]]. unfold PGSIZE. rewrite u32_small by lia.
    destruct fuel; cbn [loaduvm_loop]; (replace (t * 4096 + 4096 <? sz) with false by lia); done.
  - assert (Ek : k = 4096) by (unfold k, PGSIZE; destruct (Z.ltb_spec (sz - t * 4096) 4096); lia).
    unfold PGSIZE. rewrite u32_small by lia. replace (t * 4096 + 4096) with ((t + 1) * 4096) by lia.
    destruct (IH s1 (store m ((v + t) * 4096) bs) (t + 1)) as (r & bs2 & s2 & E4 & U2 & Hl2 & Hr); [|lia|lia|lia|lia|lia|lia|].
    { apply (image_write _ s); [done|done|lia|lia]. }
    exists r, (bs ++ bs2), s2. split; [done|]. split; [eapply uwrote_app; [done|]; by replace ((v + t) * 4096 + Z.of_nat (length bs)) with ((v + (t + 1)) * 4096) by lia|].
    split; [rewrite length_app; lia|]. destruct Hr as [(-> & ? & ?)|(-> & Hfit & ->)]; [left; lia|right]. split; [done|]. split; [intros _; apply Hfit; lia|]. rewrite Ebs, Ek.
    replace (Z.to_nat (offset + (t + 1) * 4096)) with (Z.to_nat (offset + t * 4096) + 4096)%nat by lia. rewrite <- drop_drop.
    set (g := drop (Z.to_nat (offset + t * 4096)) f). replace (Z.to_nat (sz - t * 4096)) with (Z.to_nat 4096 + Z.to_nat (sz - (t + 1) * 4096))%nat by lia.
    apply take_take_drop.
Qed.

Definition undone (s0 s : vm) (d : Z) : Prop := exists s0', same_mem s0 s0' /\ grown s0' d s [].

Lemma image_undone s0 s d n fl m : image_ok s0 s d n fl m -> undone s0 s d.
Proof using. intros I. apply I. Qed.

Lemma uwrote_undone s0 s d s' n fl m va bs : image_ok s0 s d n fl m -> uwrote kend s d s' va bs -> undone s0 s' d.
Proof using. intros I U. destruct (im_grown _ _ _ _ _ _ I) as (s1 & S1 & G). exists s1. split; [done|]. by eapply grown_uwrote. Qed.

(** One segment of the program. *)
Lemma load_segment f s0 s d sz m ph : free_ok s0 -> Z.of_nat (length f) < 2 ^ 31 -> image_ok s0 s d (npages sz) (fun _ => PWU) m -> 0 <= sz < KERNBASE ->
  0 <= p_vaddr ph < 2 ^ 32 -> 0 <= p_memsz ph < 2 ^ 32 -> 0 <= p_filesz ph <= p_memsz ph -> 0 <= p_off ph < 2 ^ 32 -> p_vaddr ph <= u32 (p_vaddr ph + p_memsz ph) ->
  let new := p_vaddr ph + p_memsz ph in
  exists r s1, allocuvm kend junk d sz (u32 new) s = Ret r s1 /\ undone s0 s1 d /\
    (r = 0 -> KERNBASE <= new \/ Z.max sz new = 0 \/ starved s0 (npages new)) /\
    (r <> 0 -> r = Z.max sz new /\ new < KERNBASE /\
       (p_vaddr ph mod PGSIZE = 0 -> exists r2 s2, loaduvm junk (readi_file f) d (p_vaddr ph) (p_off ph) (p_filesz ph) s1 = Ret r2 s2 /\ undone s0 s2 d /\
         (r2 = -1 /\ 0 < p_filesz ph /\ Z.of_nat (length f) < p_off ph + p_filesz ph \/
          r2 = 0 /\ (0 < p_filesz ph -> p_off ph + p_filesz ph <= Z.of_nat (length f)) /\
            image_ok s0 s2 d (npages r) (fun _ => PWU) (store m (p_vaddr ph) (seg_bytes f ph))))).
Proof using Hkend Hkdata junk.
  intros Hf0 Hf I Hsz Hv Hm Hfs Ho Hnw new. assert (Enew : u32 new = new) by (unfold new, u32 in *; zlia). rewrite Enew.
  destruct (image_alloc s0 s d sz new m Hf0 I Hsz ltac:(unfold new; lia)) as (r & s1 & E & Hr). exists r, s1. split; [done|].
  destruct Hr as [(-> & Hu & Hwhy)|(Er & Hlt & I1)]; [split; [done|]; split; [tauto|done]|]. split; [by eapply image_undone|]. split; [lia|]. intros _. split; [done|]. split; [done|].
  intros Hal. unfold loaduvm. rewrite Hal. cbn [Z.eqb negb]. replace 0 with (0 * 4096) at 1 by lia. set (v := p_vaddr ph / 4096). assert (Ev : p_vaddr ph = v * 4096) by (unfold v, PGSIZE in *; zlia).
  rewrite Ev. destruct (loaduvm_loop_ok f (Z.to_nat (2 ^ 20)) s0 s1 d (npages r) (fun _ => PWU) m v (p_off ph) (p_filesz ph) 0 Hf I1) as (r2 & bs & s2 & E2 & U & Hl & Hres);
    [lia|lia| |lia|lia|lia|].
  { unfold npages. unfold new in *. zlia. }
  exists r2, s2. split; [done|]. split; [by eapply uwrote_undone|]. destruct Hres as [(-> & ? & ?)|(-> & Hfit & Hbs)]; [left; lia|right]. split; [done|]. split; [intros; apply Hfit; lia|].
  rewrite Z.add_0_r in U. rewrite Z.mul_0_l, Z.sub_0_r, Z.add_0_r in *. unfold seg_bytes. rewrite <- Hbs.
  apply (image_write _ s1); [done|done|lia|]. unfold npages. unfold new in *. zlia.
Qed.

Lemma load_loop_ok f s0 d n : free_ok s0 -> Z.of_nat (length f) < 2 ^ 31 -> forall off sz s m, image_ok s0 s d (npages sz) (fun _ => PWU) m -> 0 <= sz < KERNBASE ->
  exists r s', load_loop kend junk f d n off sz s = Ret r s' /\ undone s0 s' d /\
    match r with
    | None => forall szf, program_size f n off sz = Some szf -> starved s0 (npages szf)
    | Some sz' => program_size f n off sz = Some sz' /\ 0 <= sz' < KERNBASE /\ image_ok s0 s' d (npages sz') (fun _ => PWU) (program f n off m)
    end.
Proof using Hkend Hkdata junk.
  intros Hf0 Hf. induction n as [|n IH]; intros off sz s m I Hsz; cbn [load_loop program program_size].
  { exists (Some sz), s. split; [done|]. split; [by eapply image_undone|done]. }
  pose proof (image_undone _ _ _ _ _ _ I) as Hu. cbv zeta. set (ph := get_proghdr _).
  destruct (negb (Z.of_nat _ =? 32)); [by exists None, s|]. destruct (p_type ph =? ELF_PROG_LOAD); cbn [negb]; [|by apply IH].
  assert (Hrg : 0 <= p_vaddr ph < 2 ^ 32 /\ 0 <= p_memsz ph < 2 ^ 32 /\ 0 <= p_filesz ph < 2 ^ 32 /\ 0 <= p_off ph < 2 ^ 32) by (split_and!; apply field32_range).
  destruct Hrg as (Hg1 & Hg2 & Hg3 & Hg4). clearbody ph.
  destruct (Z.ltb_spec (p_memsz ph) (p_filesz ph)) as [Hx|Hms].
  { exists None, s. replace (seg_valid f ph sz) with false by (unfold seg_valid; lia). done. }
  destruct (Z.ltb_spec (u32 (p_vaddr ph + p_memsz ph)) (p_vaddr ph)) as [Hx|Hov].
  { exists None, s. assert (KERNBASE <= p_vaddr ph + p_memsz ph) by (unfold u32, KERNBASE in *; zlia). replace (seg_valid f ph sz) with false by (unfold seg_valid; lia). done. }
  destruct (load_segment f s0 s d sz m ph Hf0 Hf I Hsz Hg1 Hg2 ltac:(lia) Hg4 Hov) as (r & s1 & E1 & Hu1 & Hno & Hload).
  rewrite (bind_ret _ _ _ _ _ E1). destruct (Z.eqb_spec r 0) as [->|Hr].
  { exists None, s1. split; [done|]. split; [done|]. intros szf Hszf. destruct (seg_valid f ph sz) eqn:Hsv; [|done]. apply program_size_le in Hszf. unfold seg_valid in Hsv.
    destruct (Hno eq_refl) as [Hx|[Hx|Hx]]; [lia|lia|]. eapply starved_mono; [|exact Hx]. apply npages_mono. lia. }
  destruct (Hload Hr) as (-> & Hk & Hld). clear Hload Hno. destruct (Z.eqb_spec (p_vaddr ph mod PGSIZE) 0) as [Hal|Hal]; cbn [negb].
  2: { exists None, s1. unfold PGSIZE in Hal. replace (seg_valid f ph sz) with false by (unfold seg_valid; lia). done. }
  destruct (Hld Hal) as (r2 & s2 & E2 & Hu2 & Hres). rewrite (bind_ret _ _ _ _ _ E2). unfold PGSIZE in Hal. destruct Hres as [(-> & Hz & Hx)|(-> & Hfit & I2)].
  { exists None, s2. replace (seg_valid f ph sz) with false by (unfold seg_valid; lia). done. }
  cbn [Z.ltb Z.compare]. replace (seg_valid f ph sz) with true by (unfold seg_valid; lia). apply IH; [done|lia].
Qed.

(** ** The guard page *)

(** Only the flags of an entry changed. *)
Lemma grown_flags s0 d s s' k v : grown s0 d s [] -> evolves kend s d s' [] -> (forall i, tab s' d i = tab s d i) ->
  (forall j, 0 <= j < 2 ^ 20 -> ent s' d j = if j =? k then v else ent s d j) -> PTE_ADDR v = PTE_ADDR (ent s d k) -> present v = present (ent s d k) -> grown s0 d s' [].
Proof using.
  intros [G1 G2 G3 G4 G5 [G6 G7]] Hev Ht He Ha Hp. pose proof Hev as [E1 E2 E3 _ _ _ E7 [E8 E9]]. cbn [app] in E3.
  assert (Hpr : forall j, 0 <= j < 2 ^ 20 -> present (ent s' d j) = present (ent s d j)) by (intros j Hj; rewrite He by done; by destruct (Z.eqb_spec j k) as [->|]).
  assert (Hua : forall j, 0 <= j < 2 ^ 20 -> PTE_ADDR (ent s' d j) = PTE_ADDR (ent s d j)) by (intros j Hj; rewrite He by done; by destruct (Z.eqb_spec j k) as [->|]).
  assert (Hup : forall j, 0 <= j < 2 ^ 20 -> upage s' d j = upage s d j) by (intros j Hj; unfold upage; by rewrite Hua).
  assert (Hown : forall q, owned s' d q <-> owned s d q).
  { intros q. unfold owned, upages. setoid_rewrite Ht. split; (intros [H|[H|(j & Hj & Hp' & Hq)]]; [by left|by right; left|right; right; exists j]); rewrite Hpr, Hup in * by lia; done. }
  assert (Hfr : forall q, ~ owned s d q -> vpages s' !! q = vpages s !! q).
  { intros q Hq. apply E7; [intros ->; apply Hq; by left|apply not_elem_of_nil|intros i Hi E; apply Hq; by eapply owned_tab]. }
  split; [split; [done| |]|done|intros q; rewrite G3, <- E3, Hown; done|intros q Hq; by apply elem_of_nil in Hq| |split; congruence].
  - intros j Hj. rewrite Hpr, Hup, Hua by lia. intros Hpj. destruct (sp_page _ _ _ G1 j Hj Hpj) as (H1 & H2 & H3 & H4 & pg & H5 & H6). split_and!; [done|done|done|intros i Hi; by rewrite Ht; apply H4|].
    exists pg. split; [|done]. rewrite E7; [done|done|apply not_elem_of_nil|done].
  - intros i j Hi Hj. rewrite !Hpr, !Hup by lia. by apply (sp_inj _ _ _ G1).
  - intros q Hq. rewrite Hfr; [by apply G5|]. intros Ho. apply Hq, G3. by right; left.
Qed.

Definition guarded (g : Z) (j : Z) : Z := if j =? g then 3 else PWU.

Lemma image_guard s0 s d n m k : image_ok s0 s d n (fun _ => PWU) m -> 0 <= k < n ->
  exists s', clearpteu junk d (k * 4096) s = Ret tt s' /\ image_ok s0 s' d n (guarded k) m.
Proof using Hkend Hkdata junk.
  intros I Hk. pose proof (im_range _ _ _ _ _ _ I) as Hn. destruct (image_space _ _ _ _ _ _ I) as [Hs Hf].
  destruct (walk_present s d k Hs ltac:(lia) (image_tab _ _ _ _ _ _ _ I Hk)) as (tb & Ht & E1 & Hnz & E2).
  destruct (im_in _ _ _ _ _ _ I k Hk) as [Hp Hfl].
  destruct (sp_page _ _ _ Hs k ltac:(lia) Hp) as (Hv & Ha & _). destruct (vpage_V2P kend Hkend _ Hv) as (_ & Hr & _).
  assert (Hee : ent s d k = PTE_ADDR (ent s d k) + 7) by (rewrite PTE_ADDR_eq; rewrite PTE_FLAGS_eq in Hfl; change PWU with 7 in Hfl; lia).
  destruct (clear_U (ent s d k) Hfl) as (C1 & C2 & C3); [unfold PHYSTOP in *; lia|].
  destruct (set_ent kend Hkend s d k tb (Z.land (ent s d k) (Z.lnot PTE_U)) (sp_dir _ _ _ Hs) Hf ltac:(lia)) as (s' & E3 & Hev & Htab & He); [unfold is_u32, PHYSTOP in *; lia|done|].
  exists s'. split.
  { unfold clearpteu. rewrite (bind_ret _ _ _ _ _ E1). apply Z.eqb_neq in Hnz. rewrite Hnz. by rewrite (bind_ret _ _ _ _ _ E2). }
  assert (Hpr : present (Z.land (ent s d k) (Z.lnot PTE_U)) = present (ent s d k)).
  { rewrite Hp. unfold present. rewrite PTE_FLAGS_eq in C2. rewrite <- Z.bit0_odd. apply Z.testbit_true; [lia|]. rewrite Z.pow_0_r, Z.div_1_r. zlia. }
  destruct I as [(s1 & S1 & G) I0 I1 I2 I3 I4 I5]. split; [exists s1; split; [done|by eapply grown_flags]|done| | | | |done].
  - intros j Hj. rewrite He by lia. unfold guarded. destruct (Z.eqb_spec j k) as [->|]; [by rewrite Hpr|by apply I1].
  - intros j Hj. rewrite He by lia. replace (j =? k) with false by lia. by apply I2.
  - intros j Hj. rewrite He by lia. replace (j =? k) with false by lia. by apply I3.
  - intros a Ha'. rewrite <- I4 by done. unfold ubyte, upage. assert (Hj : 0 <= a / 4096 < 2 ^ 19) by zlia.
    assert (Hx : present (ent s' d (a / 4096)) = present (ent s d (a / 4096)) /\ PTE_ADDR (ent s' d (a / 4096)) = PTE_ADDR (ent s d (a / 4096))) by (rewrite He by lia; by destruct (Z.eqb_spec (a / 4096) k) as [->|]).
    destruct Hx as [-> ->]. destruct (present (ent s d (a / 4096))) eqn:Hpa; [|done]. destruct (sp_page _ _ _ Hs _ Hj Hpa) as (_ & _ & H3 & H4 & _).
    unfold upage in *. rewrite (ev_frame _ _ _ _ _ Hev); [done|done|apply not_elem_of_nil|done].
Qed.

(** ** Pushing on the stack *)

Lemma copyout_image s0 s d n g m va buf : image_ok s0 s d n (guarded g) m -> 0 <= va -> va + Z.of_nat (length buf) <= n * 4096 ->
  exists r s', copyout junk d va buf s = Ret r s' /\ undone s0 s' d /\
    (r = -1 /\ (exists a, va <= a < va + Z.of_nat (length buf) /\ a / 4096 = g) \/
     r = 0 /\ image_ok s0 s' d n (guarded g) (store m va buf) /\ forall a, va <= a < va + Z.of_nat (length buf) -> a / 4096 <> g).
Proof using Hkend Hkdata junk.
  intros I Hva Hend. pose proof (im_range _ _ _ _ _ _ I) as Hn. destruct (image_space _ _ _ _ _ _ I) as [Hs _].
  destruct (copyout_loop_ok kend Hkend junk (length buf) s d va buf Hs Hva) as (r & k & s' & E & U & Hk & Hacc & Hr); [unfold KERNBASE; lia|lia| |].
  { intros a Ha. eapply image_tab; [done|]. zlia. }
  exists r, s'. split; [done|]. split; [by eapply uwrote_undone|]. destruct Hr as [[-> ->]|(-> & Hkl & Hna)]; [right; rewrite firstn_all in U|left].
  2: { split; [done|]. exists (va + Z.of_nat k). split; [lia|]. destruct (im_in _ _ _ _ _ _ I ((va + Z.of_nat k) / 4096)) as [Hp Hf]; [zlia|].
       rewrite access_flags, Hf in Hna by done. unfold guarded in Hna. by destruct (Z.eqb_spec ((va + Z.of_nat k) / 4096) g). }
  split; [done|]. split; [by apply (image_write _ s)|]. intros a Ha Hg. specialize (Hacc a Ha). destruct (im_in _ _ _ _ _ _ I (a / 4096)) as [Hp Hf]; [zlia|].
  rewrite access_flags, Hf in Hacc by done. unfold guarded in Hacc. rewrite Hg, Z.eqb_refl in Hacc. done.
Qed.

(** Addresses of devices are not for the user. *)
Lemma copyout_device s0 s d n fl m va buf : image_ok s0 s d n fl m -> DEVSPACE <= va < 2 ^ 32 -> buf <> [] -> copyout junk d va buf s = Ret (-1) s.
Proof using Hkend Hkdata junk.
  intros I Hva Hb. destruct (image_space _ _ _ _ _ _ I) as [Hs _]. unfold DEVSPACE in Hva. set (k := va / 4096). assert (Hk : 0xFE000 <= k < 2 ^ 20) by (unfold k; zlia).
  assert (He : ent s d k = kentry kdata k) by (apply (im_kern _ _ _ _ _ _ I); lia).
  assert (Hke : kentry kdata k = k * 4096 + 3). { destruct Hkdata as [_ Hkd]. unfold KERNLINK, KERNBASE, EXTMEM, PHYSTOP in Hkd. unfold kentry, KERNBASE, DEVSPACE, PHYSTOP. zdecide. reflexivity. }
  assert (Hp : present (ent s d k) = true). { rewrite He, Hke. unfold present. replace (k * 4096 + 3) with (1 + 2 * (k * 2048 + 1)) by lia. by rewrite Z.odd_add_mul_2. }
  assert (Ht : tab s d (k / 1024) <> None) by (intros E; unfold ent in Hp; by rewrite E in Hp).
  destruct (walk_present s d k Hs ltac:(lia) Ht) as (tb & _ & E1 & Hnz & E2). apply Z.eqb_neq in Hnz.
  assert (Hu : uva2ka junk d (k * 4096) s = Ret 0 s).
  { unfold uva2ka. rewrite (bind_ret _ _ _ _ _ E1), Hnz, (bind_ret _ _ _ _ _ E2), land_P, Hp. cbn [negb].
    pose proof (access_flags _ Hp) as Ha. unfold access in Ha. rewrite Hp in Ha. cbn [andb] in Ha. apply (f_equal negb) in Ha. rewrite !negb_involutive in Ha. rewrite Ha.
    rewrite PTE_FLAGS_eq, He, Hke. replace ((k * 4096 + 3) mod 4096) with 3 by zlia. done. }
  unfold copyout. destruct buf as [|b buf]; [done|]. cbn [length copyout_loop]. cbv zeta. rewrite PGROUNDDOWN_eq. replace (va - va mod 4096) with (k * 4096) by (unfold k; zlia).
  by rewrite (bind_ret _ _ _ _ _ Hu).
Qed.

(** One push: the bytes are written below [sp], in the page of the stack. *)
Lemma push_ok s0 s d n m sp buf : image_ok s0 s d n (guarded (n - 2)) m -> 2 <= n -> (n - 1) * 4096 <= sp <= n * 4096 -> sp mod 4 = 0 -> buf <> [] -> Z.of_nat (length buf) <= 2 ^ 25 ->
  let sp' := Z.land (u32 (sp - Z.of_nat (length buf))) (Z.lnot 3) in
  exists r s', copyout junk d sp' buf s = Ret r s' /\ undone s0 s' d /\
    (r = -1 /\ below sp (Z.of_nat (length buf)) < (n - 1) * 4096 \/ r = 0 /\ sp' = below sp (Z.of_nat (length buf)) /\ (n - 1) * 4096 <= sp' /\ sp' + Z.of_nat (length buf) <= sp /\ sp' mod 4 = 0 /\ sp - Z.of_nat (length buf) - 3 <= sp' /\
       image_ok s0 s' d n (guarded (n - 2)) (store m sp' buf)).
Proof using Hkend Hkdata junk.
  intros I Hn Hsp Hal Hb Hl sp'. pose proof (im_range _ _ _ _ _ _ I) as Hn2. assert (Hlb : (0 < length buf)%nat) by (destruct buf; [done|cbn; lia]). unfold sp'. rewrite land_not3. clear sp'.
  destruct (Z.le_gt_cases (Z.of_nat (length buf)) sp) as [Hle|Hgt].
  - rewrite u32_small by lia. set (sp' := sp - Z.of_nat (length buf) - (sp - Z.of_nat (length buf)) mod 4). assert (Hs' : 0 <= sp' /\ sp - Z.of_nat (length buf) - 3 <= sp' <= sp - Z.of_nat (length buf) /\ sp' mod 4 = 0) by (unfold sp'; zlia).
    destruct (copyout_image s0 s d n (n - 2) m sp' buf I ltac:(lia) ltac:(lia)) as (r & s' & E & Hu & Hr). exists r, s'. split; [done|]. split; [done|].
    change (below sp (Z.of_nat (length buf))) with sp'. destruct Hr as [(-> & a & Ha & Hag)|(-> & I' & Hg)]; [left; split; [done|zlia]|right]. split; [done|]. split; [done|]. split; [|split; [lia|split; [lia|split; [lia|done]]]].
    destruct (Z.le_gt_cases ((n - 1) * 4096) sp') as [|Hlow]; [done|]. exfalso. apply (Hg (Z.max sp' ((n - 2) * 4096))); zlia.
  - assert (Hu : u32 (sp - Z.of_nat (length buf)) = 2 ^ 32 + sp - Z.of_nat (length buf)) by (unfold u32; zlia). rewrite Hu.
    exists (-1), s. split; [|split; [by eapply image_undone|left; split; [done|unfold below; zlia]]]. apply (copyout_device s0 s d n (guarded (n - 2)) m); [done|unfold DEVSPACE; zlia|done].
Qed.

Definition short (a : list Z) : Prop := Z.of_nat (length a) < 2 ^ 25.

(** The strings at the pointers [ptrs], none below [sp]. *)
Definition strings_at (m : umem) (sp : Z) (ptrs : list Z) (args : list (list Z)) : Prop := Forall2 (fun p a => sp <= p /\ holds m p (a ++ [0])) ptrs args.

Lemma strings_store m sp ptrs args sp' bs : strings_at m sp ptrs args -> sp' + Z.of_nat (length bs) <= sp -> strings_at (store m sp' bs) sp' ptrs args.
Proof using. intros H Hl. eapply Forall2_impl; [exact H|]. intros p a [Hp Ha]. cbv beta. split; [lia|]. apply holds_store; [done|lia]. Qed.

Lemma push_args_ok s0 d n argv : 2 <= n -> Forall short argv -> forall s m sp ptrs args,
  image_ok s0 s d n (guarded (n - 2)) m -> (n - 1) * 4096 <= sp <= n * 4096 -> sp mod 4 = 0 -> strings_at m sp ptrs args -> Z.of_nat (length ptrs) <= MAXARG ->
  exists r s', push_args junk d argv sp ptrs s = Ret r s' /\ undone s0 s' d /\
    match r with
    | None => args_sp ((n - 1) * 4096) argv (Z.of_nat (length ptrs)) sp = None
    | Some (sp', ptrs') => args_sp ((n - 1) * 4096) argv (Z.of_nat (length ptrs)) sp = args_sp ((n - 1) * 4096) [] (Z.of_nat (length ptrs')) sp' /\
        exists m', image_ok s0 s' d n (guarded (n - 2)) m' /\ (n - 1) * 4096 <= sp' <= sp /\ sp' mod 4 = 0 /\ strings_at m' sp' ptrs' (args ++ argv) /\
        Z.of_nat (length ptrs') <= MAXARG /\ forall a, a < (n - 1) * 4096 -> m' a = m a
    end.
Proof using Hkend Hkdata junk.
  intros Hn Hsh. induction Hsh as [|x argv Hx _ IH]; intros s m sp ptrs args I Hsp Hal Hst Hlen; cbn [push_args].
  { exists (Some (sp, ptrs)), s. split; [done|]. split; [by eapply image_undone|]. split; [done|]. exists m. rewrite app_nil_r. split_and!; try done; lia. }
  change (args_sp ((n - 1) * 4096) (x :: argv) (Z.of_nat (length ptrs)) sp) with (let sp' := below sp (Z.of_nat (length x) + 1) in
    if (Z.of_nat (length ptrs) <? MAXARG) && ((n - 1) * 4096 <=? sp') then args_sp ((n - 1) * 4096) argv (Z.of_nat (length ptrs) + 1) sp' else None). cbv zeta.
  destruct (Z.geb_spec (Z.of_nat (length ptrs)) MAXARG) as [|Hmax].
  { exists None, s. split; [done|]. split; [by eapply image_undone|]. by replace (Z.of_nat (length ptrs) <? MAXARG) with false by lia. }
  replace (Z.of_nat (length ptrs) <? MAXARG) with true by lia. cbn [andb].
  assert (Hlx : Z.of_nat (length x) + 1 = Z.of_nat (length (x ++ [0]))) by (rewrite length_app; cbn; lia). rewrite Hlx. unfold short in Hx.
  destruct (push_ok s0 s d n m sp (x ++ [0]) I Hn Hsp Hal) as (r & s1 & E & Hu & Hr); [by destruct x|lia|]. rewrite (bind_ret _ _ _ _ _ E).
  destruct Hr as [[-> Hlow]|(-> & Ebl & H1 & H2 & H3 & _ & I1)].
  { exists None, s1. by replace ((n - 1) * 4096 <=? below sp (Z.of_nat (length (x ++ [0])))) with false by lia. }
  cbn [Z.ltb Z.compare]. set (sp1 := Z.land _ _) in *. rewrite <- Ebl. replace ((n - 1) * 4096 <=? sp1) with true by lia.
  destruct (IH s1 (store m sp1 (x ++ [0])) sp1 (ptrs ++ [sp1]) (args ++ [x]) I1) as (r2 & s2 & E2 & Hu2 & Hres); [lia|done| |rewrite length_app; cbn; lia|].
  { apply Forall2_app; [by eapply strings_store|]. apply Forall2_cons. split; [|done]. split; [lia|]. apply store_holds. }
  replace (Z.of_nat (length (ptrs ++ [sp1]))) with (Z.of_nat (length ptrs) + 1) in Hres by (rewrite length_app; cbn; lia).
  exists r2, s2. split; [done|]. split; [done|]. destruct r2 as [[sp2 ptrs2]|]; [|done]. destruct Hres as (H0 & m' & I2 & H4 & H5 & H6 & H7 & H8). split; [done|].
  exists m'. rewrite <- app_assoc in H6. split_and!; try done; [lia|lia|]. intros a Ha. rewrite H8 by done. apply store_out. lia.
Qed.

Lemma length_le32s ws : length (concat (le32 <$> ws)) = (4 * length ws)%nat.
Proof using. induction ws as [|w ws IH]; [done|]. rewrite fmap_cons. cbn [concat]. rewrite length_app, IH. change (length (le32 w)) with 4%nat. cbn [length]. lia. Qed.

(** What [main] finds on its stack: the return address, argc, argv, the pointers of argv
    and a null pointer, and behind the pointers the strings. *)
Record stack_ok (m : umem) (sp : Z) (ptrs : list Z) (argv : list (list Z)) : Prop := {
  st_words : holds m sp (concat (le32 <$> ([0xffffffff; Z.of_nat (length argv); sp + 12] ++ ptrs ++ [0])));
  st_strings : Forall2 (fun p a => sp <= p /\ holds m p (a ++ [0])) ptrs argv
}.

Lemma push_stack_ok s0 s d n m argv : image_ok s0 s d n (guarded (n - 2)) m -> 2 <= n -> Forall short argv ->
  exists r s', push_stack junk d (n * 4096) argv s = Ret r s' /\ undone s0 s' d /\
    match r with
    | None => args_sp ((n - 1) * 4096) argv 0 (n * 4096) = None
    | Some sp => args_sp ((n - 1) * 4096) argv 0 (n * 4096) <> None /\ exists m' ptrs, image_ok s0 s' d n (guarded (n - 2)) m' /\ (n - 1) * 4096 <= sp <= n * 4096 /\ sp mod 4 = 0 /\ stack_ok m' sp ptrs argv /\
        forall a, a < (n - 1) * 4096 -> m' a = m a
    end.
Proof using Hkend Hkdata junk.
  intros I Hn Hsh. unfold push_stack. pose proof (im_range _ _ _ _ _ _ I) as Hn2.
  destruct (push_args_ok s0 d n argv Hn Hsh s m (n * 4096) [] [] I) as (r & s1 & E & Hu & Hr); [lia|zlia|constructor|cbv; done|]. rewrite (bind_ret _ _ _ _ _ E).
  destruct r as [[sp ptrs]|]; [|by exists None, s1]. destruct Hr as (H0 & m1 & I1 & H1 & H2 & H3 & H4 & H5).
  change (Z.of_nat (length (@nil Z))) with 0 in H0. rewrite H0. cbn [args_sp]. cbn [app] in H3. cbv zeta.
  set (buf := concat (le32 <$> ustack sp ptrs)). assert (Hlu : length (ustack sp ptrs) = (length ptrs + 4)%nat) by (unfold ustack; cbn; rewrite length_app; cbn; lia).
  assert (Hlb : Z.of_nat (length buf) = (3 + Z.of_nat (length ptrs) + 1) * 4) by (unfold buf; rewrite length_le32s, Hlu; lia). unfold MAXARG in *.
  destruct (push_ok s0 s1 d n m1 sp buf I1 Hn) as (r2 & s2 & E2 & Hu2 & Hr2); [lia|done|intros Eb; rewrite Eb in Hlb; cbn in Hlb; lia|lia|].
  assert (Esp : Z.land (u32 (sp - Z.of_nat (length buf))) (Z.lnot 3) = u32 (sp - Z.of_nat (length buf))) by (rewrite land_not3; unfold u32; zlia). rewrite Esp in *. rewrite <- Hlb.
  rewrite (bind_ret _ _ _ _ _ E2). assert (Eb : below sp (Z.of_nat (length buf)) = sp - (4 + Z.of_nat (length ptrs)) * 4) by (unfold below; rewrite Hlb; zlia).
  destruct Hr2 as [[-> Hlow]|(-> & Ebl & K1 & K2 & K3 & K4 & I2)].
  { exists None, s2. by replace ((n - 1) * 4096 <=? sp - (4 + Z.of_nat (length ptrs)) * 4) with false by lia. }
  cbn [Z.ltb Z.compare]. replace ((n - 1) * 4096 <=? sp - (4 + Z.of_nat (length ptrs)) * 4) with true by lia.
  set (sp' := u32 (sp - Z.of_nat (length buf))) in *. eexists (Some sp'), s2. split; [done|]. split; [done|]. split; [done|]. exists (store m1 sp' buf), ptrs.
  split; [done|]. split; [lia|]. split; [done|]. split; [|intros a Ha; rewrite store_out by lia; by apply H5].
  assert (Hsp' : sp' = sp - Z.of_nat (length buf)) by (unfold sp', u32; unfold sp', u32 in K1, K2; zlia).
  split.
  - assert (Eu : ustack sp ptrs = [0xffffffff; Z.of_nat (length argv); sp' + 12] ++ ptrs ++ [0]); [|rewrite <- Eu; apply store_holds].
    unfold ustack. rewrite <- (Forall2_length _ _ _ H3). cbv zeta. do 4 f_equal. rewrite u32_small by lia. lia.
  - by eapply strings_store.
Qed.

(** ** exec *)

(** The memory is as it was, up to the order of the free list. *)
Definition unchanged (v v' : vm) : Prop := vpages v' = vpages v /\ vfree v' ≡ₚ vfree v /\ cr3 v' = cr3 v.

(** The process has the image [m] of [n] pages, made of free pages and those of its old
    address space, and what it does not need of them is free. *)
Record new_image (v : vm) (old : Z) (v' : vm) (d n : Z) (m : umem) : Prop := {
  ni_space : space_ok v' d;
  ni_free : free_ok v';
  ni_pages : forall q, q ∈ vfree v' \/ owned v' d q <-> q ∈ vfree v \/ owned v old q;
  ni_rest : forall q, q ∉ vfree v -> ~ owned v old q -> vpages v' !! q = vpages v !! q;
  ni_in : forall j, 0 <= j < n -> present (ent v' d j) = true /\ PTE_FLAGS (ent v' d j) = guarded (n - 2) j;
  ni_out : forall j, n <= j < 2 ^ 19 -> present (ent v' d j) = false;
  ni_kern : forall j, 2 ^ 19 <= j < 2 ^ 20 -> ent v' d j = kentry kdata j;
  ni_byte : forall a, 0 <= a < n * 4096 -> ubyte v' d a = Some (m a);
  ni_cr3 : cr3 v' = V2P d
}.

Lemma undone_freevm v s d : free_ok v -> undone v s d -> exists s', freevm kend junk d s = Ret tt s' /\ unchanged v s'.
Proof using Hkend.
  intros Hf (v0 & Hsm & G). destruct (grown_freevm kend Hkend junk v0 d s (free_same _ _ Hsm Hf) G) as (s' & E & [R1 R2 [_ R3]]).
  exists s'. split; [done|]. destruct Hsm as (S1 & S2 & S3). split_and!; congruence.
Qed.

(** The process takes over the image, and its old address space is freed. *)
Lemma image_commit v s old d n m : free_ok v -> space_ok v old -> image_ok v s d n (guarded (n - 2)) m ->
  exists s', freevm kend junk old (s <| cr3 := V2P d |>) = Ret tt s' /\ new_image v old s' d n m.
Proof using Hkend Hkdata junk.
  intros Hf Hold I. pose proof I as [(v0 & (S1 & S2 & S3) & G) I0 I1 I2 I3 I4 I5]. pose proof G as [G1 G2 G3 _ G5 _]. set (s1 := s <| cr3 := V2P d |>).
  assert (Hnf : forall q, owned v old q -> q ∉ vfree v). { intros q Ho Hq. destruct (owned_data _ _ _ _ Hold Ho) as (_ & x & Hx & _). destruct (fr_page _ _ Hf q Hq) as [_ Hn]. congruence. }
  destruct (space_agree kend v s1 old Hold) as (Hs1 & _ & _ & Ho1); [intros q Ho; change (vpages s1) with (vpages s); rewrite G5, S2; [done|rewrite S1; by apply Hnf]|].
  assert (Hf1 : free_ok s1) by (split; apply G2).
  destruct (freevm_ok kend Hkend junk s1 old Hs1 Hf1) as (s' & l & E & [F1 F2 F3 [_ F5]] & Hl). exists s'. split; [done|].
  assert (Hown : forall q, owned s d q -> q ∈ vfree v) by (intros q Ho; rewrite <- S1; apply G3; by right; left).
  assert (Hnl : forall q, owned s d q -> vpages s' !! q = vpages s !! q).
  { intros q Ho. rewrite F3, decide_False; [done|]. rewrite Hl, Ho1. intros Hoo. by apply (Hnf q Hoo), Hown. }
  destruct (space_agree kend s s' d G1 Hnl) as (Hs' & _ & He & Ho').
  assert (Hu : forall j, 0 <= j < 2 ^ 19 -> upage s' d j = upage s d j) by (intros j Hj; unfold upage; by rewrite He by lia).
  split; [done|done| | | | | | |done].
  - intros q. rewrite F2, elem_of_app, Ho', Hl, Ho1. change (vfree s1) with (vfree s). pose proof (G3 q) as Hq. rewrite S1, elem_of_nil in Hq. tauto.
  - intros q Hq Hno. rewrite F3, decide_False by (by rewrite Hl, Ho1). change (vpages s1) with (vpages s). rewrite G5 by (by rewrite S1). by rewrite S2.
  - intros j Hj. rewrite He by lia. by apply I1.
  - intros j Hj. rewrite He by lia. by apply I2.
  - intros j Hj. rewrite He by lia. by apply I3.
  - intros a Ha. rewrite <- I4 by done. apply ubyte_eq; [lia|apply He; zlia|]. intros Hp. apply Hnl. apply owned_user; [zlia|done].
Qed.

Lemma on_vm_ret {A} (m : M vm A) s a v : m (xvm s) = Ret a v -> on_vm m s = Ret a (s <| xvm := v |>).
Proof using. intros H. unfold on_vm, zoom. by rewrite H. Qed.

Lemma on_vm_bind {A B} (m : M vm A) (k : A -> M exec_st B) s a v : m (xvm s) = Ret a v -> (on_vm m ≫= k) s = k a (s <| xvm := v |>).
Proof using. intros H. by rewrite (bind_ret _ _ _ _ _ (on_vm_ret _ _ _ _ H)). Qed.

(** The process is as it was. *)
Record exec_failed (v : vm) (s s' : exec_st) : Prop := {
  xf_mem : unchanged v (xvm s');
  xf_proc : xpgdir s' = xpgdir s /\ xsz s' = xsz s /\ xeip s' = xeip s /\ xesp s' = xesp s /\ xname s' = xname s
}.

(** The process has the image of the file [f], its arguments on the stack, and starts at
    the entry of the file. *)
Record exec_started (v : vm) (s s' : exec_st) (path : list Z) (m : umem) (entry : Z) (argv : list (list Z)) (n : Z) : Prop := {
  xs_image : exists m' ptrs, new_image v (xpgdir s) (xvm s') (xpgdir s') n m' /\ stack_ok m' (xesp s') ptrs argv /\ forall a, a < (n - 1) * 4096 -> m' a = m a;
  xs_stack : (n - 1) * 4096 <= xesp s' <= n * 4096 /\ xesp s' mod 4 = 0;
  xs_proc : xsz s' = n * 4096 /\ xeip s' = entry /\ xname s' = take 15 (last_name path path)
}.

Lemma bad_ok v s d (b : bool) : free_ok v -> undone v (xvm s) d -> d <> 0 ->
  exists s', bad kend junk d b s = Ret (-1) s' /\ exec_failed v s s' /\ xops s' = xops s - (if b then 1 else 0) /\ xlocked s' = xlocked s - (if b then 1 else 0).
Proof using Hkend.
  intros Hf Hu Hd. destruct (undone_freevm v (xvm s) d Hf Hu) as (v' & E & Hun). apply Z.eqb_neq in Hd. unfold bad. rewrite Hd. cbn [negb].
  rewrite (bind_ret _ _ _ _ _ (on_vm_ret _ s tt v' E)). destruct b; eexists; (split; [reflexivity|]); (split; [split; [done|done]|]); cbn; lia.
Qed.

(** The pages of an image whose program has [sz] bytes. *)
Definition stack_pages (sz : Z) (argv : list (list Z)) : option Z :=
  let n := npages sz + 2 in
  if n * 4096 <? KERNBASE then _ ← args_sp ((n - 1) * 4096) argv 0 (n * 4096); Some n else None.

Lemma exec_stack_ok v s d sz m entry path argv : free_ok v -> space_ok v (xpgdir s) -> image_ok v (xvm s) d (npages sz) (fun _ => PWU) m -> 0 <= sz < KERNBASE -> Forall short argv -> d <> 0 ->
  exists r s', exec_stack kend junk d sz entry path argv s = Ret r s' /\ xops s' = xops s /\ xlocked s' = xlocked s /\
    (r = -1 /\ exec_failed v s s' /\ (forall n, stack_pages sz argv = Some n -> starved v n) \/
     r = 0 /\ stack_pages sz argv = Some (npages sz + 2) /\ exec_started v s s' path m entry argv (npages sz + 2)).
Proof using Hkend Hkdata junk.
  intros Hf Hold I Hsz Hsh Hd. unfold stack_pages. set (N := npages sz). assert (HN : 0 <= N <= 2 ^ 19) by (unfold N, npages, KERNBASE in *; zlia).
  unfold exec_stack. cbv zeta. rewrite PGROUNDUP_eq by (unfold PGSIZE, KERNBASE in *; lia).
  replace ((sz + PGSIZE - 1) / PGSIZE * PGSIZE) with (N * 4096) by (unfold N, npages, PGSIZE; do 2 f_equal; lia). rewrite u32_small by (unfold PGSIZE; lia). unfold PGSIZE.
  assert (HNN : npages (N * 4096) = N) by (unfold npages; zlia).
  assert (Hfail : forall s1 r, undone v (xvm s1) d -> xops s1 = xops s -> xlocked s1 = xlocked s -> (xpgdir s1 = xpgdir s /\ xsz s1 = xsz s /\ xeip s1 = xeip s /\ xesp s1 = xesp s /\ xname s1 = xname s) ->
    (forall n, stack_pages sz argv = Some n -> starved v n) ->
    r = bad kend junk d false s1 -> exists r' s', r = Ret r' s' /\ xops s' = xops s /\ xlocked s' = xlocked s /\
      (r' = -1 /\ exec_failed v s s' /\ (forall n, stack_pages sz argv = Some n -> starved v n) \/ r' = 0 /\ stack_pages sz argv = Some (N + 2) /\ exec_started v s s' path m entry argv (N + 2))).
  { intros s1 r Hu Ho Hl (P1 & P2 & P3 & P4 & P5) Hst ->. destruct (bad_ok v s1 d false Hf Hu Hd) as (s' & E & [F1 (F2 & F3 & F4 & F5 & F6)] & E1 & E2). exists (-1), s'.
    split; [done|]. split; [lia|]. split; [lia|]. left. split; [done|]. split; [|done]. split; [done|]. split_and!; congruence. }
  unfold stack_pages in Hfail. fold N in Hfail. cbv zeta in *.
  assert (Halloc : exists r v1, allocuvm kend junk d (N * 4096) (N * 4096 + 2 * 4096) (xvm s) = Ret r v1 /\
    (r = 0 /\ undone v v1 d /\ (KERNBASE <= (N + 2) * 4096 \/ starved v (N + 2)) \/ r = (N + 2) * 4096 /\ (N + 2) * 4096 < KERNBASE /\ image_ok v v1 d (N + 2) (fun _ => PWU) m)).
  { destruct (Z.lt_ge_cases (N * 4096 + 2 * 4096) KERNBASE) as [Hlt|Hge].
    - destruct (image_alloc v (xvm s) d (N * 4096) (N * 4096 + 2 * 4096) m Hf) as (r & v1 & E & Hr); [by rewrite HNN|lia|lia|]. exists r, v1. split; [done|].
      assert (Enp2 : npages (N * 4096 + 2 * 4096) = N + 2) by (unfold npages; zlia). rewrite Enp2 in Hr.
      destruct Hr as [(-> & Hu & Hw)|(Er & _ & I1)]; [left; split; [done|]; split; [done|]; destruct Hw; [left; lia|by right]|right]. split; [lia|]. split; [lia|]. assert (Enp : npages r = N + 2) by (rewrite Er; unfold npages; zlia). by rewrite Enp in I1.
    - exists 0, (xvm s). unfold allocuvm. replace (N * 4096 + 2 * 4096 >=? KERNBASE) with true by lia. split; [done|]. left. split; [done|]. split; [by eapply image_undone|left; lia]. }
  destruct Halloc as (r & v1 & E1 & Hr). rewrite (on_vm_bind _ _ _ _ _ E1). destruct Hr as [(-> & Hu & Hw)|(-> & Hlt & I1)].
  { refine (Hfail _ _ _ _ _ _ _ eq_refl); [done..|]. intros n. destruct Hw as [Hk|Hs]; [by replace ((N + 2) * 4096 <? KERNBASE) with false by lia|].
    destruct ((N + 2) * 4096 <? KERNBASE); [|done]. destruct (args_sp _ _ _ _); [|done]. intros [= <-]. done. }
  replace ((N + 2) * 4096 <? KERNBASE) with true in * by lia.
  replace ((N + 2) * 4096 =? 0) with false by lia. replace ((N + 2) * 4096 - 2 * 4096) with (N * 4096) by lia.
  destruct (image_guard v v1 d (N + 2) m N I1 ltac:(lia)) as (v2 & E2 & I2). erewrite on_vm_bind; [|exact E2].
  replace (guarded N) with (guarded (N + 2 - 2)) in I2 by (f_equal; lia).
  destruct (push_stack_ok v v2 d (N + 2) m argv I2 ltac:(lia) Hsh) as (r3 & v3 & E3 & Hu3 & Hr3).
  erewrite on_vm_bind; [|exact E3]. destruct r3 as [sp|].
  2: { refine (Hfail _ _ _ _ _ _ _ eq_refl); [done..|]. intros n. by rewrite Hr3. }
  destruct Hr3 as (Hargs & m' & ptrs & I3 & Hsp & Hsa & Hst & Hlow). unfold commit_image. repeat (erewrite bind_ret by reflexivity).
  destruct (image_commit v v3 (xpgdir s) d (N + 2) m' Hf Hold I3) as (v4 & E4 & Hni). apply Z.eqb_neq in Hd.
  erewrite on_vm_bind; [|unfold switchuvm; rewrite Hd; reflexivity]. erewrite on_vm_bind; [|exact E4].
  eexists 0, _. split; [reflexivity|]. split; [done|]. split; [done|]. right. split; [done|]. split; [by destruct (args_sp _ _ _ _)|]. split; [|done|done].
  exists m', ptrs. split; [done|]. split; [done|]. done.
Qed.

(** Nothing has been built yet, or nothing is left of it. *)
Lemma bad_early s v s1 v1 : xvm s = v -> unchanged v v1 -> xops s1 = xops s + 1 -> xlocked s1 = xlocked s + 1 -> xvm s1 = v1 ->
  (xpgdir s1 = xpgdir s /\ xsz s1 = xsz s /\ xeip s1 = xeip s /\ xesp s1 = xesp s /\ xname s1 = xname s) ->
  exists s', bad kend junk 0 true s1 = Ret (-1) s' /\ xops s' = xops s /\ xlocked s' = xlocked s /\ exec_failed v s s'.
Proof using. intros <- Hv Ho Hl <- Hp. eexists. split; [reflexivity|]. cbn. split; [lia|]. split; [lia|]. by split. Qed.

(** C16. [exec], for a lookup of paths that finds files of less than 2^31 bytes and arguments of
    less than 2^25 bytes: it returns, with its operation of the log ended and the inode
    unlocked.  When it returns -1 the process and the memory are as they were; it does so
    only when there is no such file, it is not a program that can be loaded, the arguments
    do not fit into a page, or not more than 1026 pages are free besides those the image
    needs.  When it returns 0, the process has a new address space, made of free pages: the
    segments of the file over zeros, an inaccessible guard page, and a stack page with the
    arguments; it starts at the entry of the file, and the pages of its old address space
    are free. *)
Theorem exec_effect (namei : list Z -> option (list Z)) (path : list Z) (argv : list (list Z)) (s : exec_st) :
  (forall p f, namei p = Some f -> Z.of_nat (length f) < 2 ^ 31) -> Forall short argv -> space_ok (xvm s) (xpgdir s) -> free_ok (xvm s) ->
  exists r s', exec kend kdata junk namei path argv s = Ret r s' /\ xops s' = xops s /\ xlocked s' = xlocked s /\
    (r = -1 /\ exec_failed (xvm s) s s' /\ (forall n, exec_pages namei path argv = Some n -> starved (xvm s) n) \/
     r = 0 /\ exists f n, let elf := get_elfhdr (readi_file f 0 52) in
       namei path = Some f /\ exec_pages namei path argv = Some n /\
       exec_started (xvm s) s s' path (program f (Z.to_nat (e_phnum elf)) (e_phoff elf) (fun _ => 0)) (e_entry elf) argv n).
Proof using Hkend Hkdata.
  intros Hn Hsh Hold Hf. unfold exec, exec_pages. erewrite bind_ret by reflexivity. destruct (namei path) as [f|] eqn:Hp.
  2: { eexists (-1), _. split; [reflexivity|]. cbn. split; [lia|]. split; [done|]. by left. }
  erewrite bind_ret by reflexivity. cbn [mbind option_bind]. cbv zeta. set (elf := get_elfhdr _).
  destruct (Z.of_nat _ =? 52) eqn:E52; cbn [negb andb].
  2: { edestruct (bad_early s (xvm s)) as (s' & E & ? & ? & ?); [done|by split_and!|..|rewrite E; exists (-1), s'; split; [done|]; split; [done|]; split; [done|]; by left]; cbn; lia || done. }
  destruct (Z.eqb_spec (e_magic elf) ELF_MAGIC) as [Hmag|]; cbn [negb].
  2: { edestruct (bad_early s (xvm s)) as (s' & E & ? & ? & ?); [done|by split_and!|..|rewrite E; exists (-1), s'; split; [done|]; split; [done|]; split; [done|]; by left]; cbn; lia || done. }
  destruct (setupkvm_ok kend Hkend junk kdata Hkdata (xvm s) Hf) as (d & v1 & E1 & Hr). erewrite on_vm_bind; [|exact E1]. destruct Hr as [(-> & [R1 R2 [_ R3]] & Hfew)|(Hd & G & He)].
  { cbn [Z.eqb]. edestruct (bad_early s (xvm s)) as (s' & E & ? & ? & ?); [done|split_and!; [exact R1|exact R2|exact R3]|..|rewrite E; exists (-1), s'; split; [done|]; split; [done|]; split; [done|]; left; split; [done|]; split; [done|]]; [cbn; lia || done..|].
    intros n. destruct (program_size f _ _ 0) as [sz|] eqn:Esz; [|done]. cbn [mbind option_bind]. apply program_size_le in Esz. destruct (_ <? KERNBASE); [|done].
    destruct (args_sp _ _ _ _); [|done]. intros [= <-]. unfold starved, npages. zlia. }
  rewrite (proj2 (Z.eqb_neq d 0) Hd).
  destruct (load_loop_ok f (xvm s) d (Z.to_nat (e_phnum elf)) Hf (Hn _ _ Hp) (e_phoff elf) 0 v1 (fun _ => 0)) as (r2 & v2 & E2 & Hu2 & Hr2); [by apply image_start|by unfold KERNBASE|].
  erewrite on_vm_bind; [|exact E2]. destruct r2 as [sz|].
  - destruct Hr2 as (Esz & Hsz & I2). erewrite bind_ret by reflexivity. erewrite bind_ret by reflexivity. set (s2 := setf _ _).
    destruct (exec_stack_ok (xvm s) s2 d sz _ (e_entry elf) path argv Hf Hold I2 Hsz Hsh Hd) as (r3 & s3 & E3 & O3 & L3 & H3). exists r3, s3. split; [done|].
    split; [rewrite O3; cbn; lia|]. split; [rewrite L3; cbn; lia|]. rewrite Esz. destruct H3 as [(-> & [H4 H5] & H6)|(-> & H3 & [H4 H5 H6])]; [left|right].
    + split; [done|]. split; [by split|]. exact H6.
    + split; [done|]. exists f, (npages sz + 2). split; [done|]. split; [exact H3|]. by split.
  - match goal with |- context [bad kend junk d true ?x] => set (s2 := x) end. destruct (bad_ok (xvm s) s2 d true Hf Hu2 Hd) as (s3 & E3 & [F1 F2] & O3 & L3). exists (-1), s3. split; [exact E3|].
    split; [rewrite O3; cbn; lia|]. split; [rewrite L3; cbn; lia|]. left. split; [done|]. split; [by split|].
    intros n. destruct (program_size f _ _ 0) as [sz|] eqn:Esz; [|done]. cbn [mbind option_bind]. destruct (_ <? KERNBASE); [|done].
    destruct (args_sp _ _ _ _); [|done]. intros [= <-]. eapply starved_mono; [|apply Hr2; done]. lia.
Qed.
End Spec.

(** ** A small program *)

Definition word4 (v : Z) : list Z := le32 v.

(** A file with the headers, and one segment of four bytes at address 0. *)
Definition demo_elf : list Z :=
  word4 ELF_MAGIC ++ replicate 20 0 ++ word4 0 ++ word4 52 ++ replicate 12 0 ++ [1; 0] ++ replicate 6 0 ++
  word4 1 ++ word4 84 ++ word4 0 ++ word4 0 ++ word4 4 ++ word4 8 ++ word4 7 ++ word4 0 ++ [144; 144; 144; 235].

Definition demo_namei (p : list Z) : option (list Z) := if decide (p = [47; 105]) then Some demo_elf else None.

Lemma exec_effect_witness : exists s r s', exec demo_kend demo_kdata demo_junk demo_namei [47; 105] [[105]; [97; 98]] s = Ret r s' /\ r = 0 /\ xsz s' = 3 * 4096 /\ xname s' = [105].
Proof.
  destruct demo_space as (v & d & Hs & Hf & _ & _ & _ & Hlen). set (s := ExecSt v 0 0 d 4096 0 0 []).
  destruct (exec_effect demo_kend demo_kend_ok demo_kdata (conj eq_refl (conj eq_refl eq_refl)) demo_junk demo_namei [47; 105] [[105]; [97; 98]] s) as (r & s' & E & _ & _ & H).
  - intros p f. unfold demo_namei. destruct (decide _); [|intros Hx; discriminate Hx]. intros Hx. injection Hx as <-. reflexivity.
  - repeat constructor.
  - exact Hs.
  - exact Hf.
  - assert (Ep : exec_pages demo_namei [47; 105] [[105]; [97; 98]] = Some 3) by (vm_compute; reflexivity).
    exists s, r, s'. split; [exact E|]. destruct H as [(_ & _ & H)|(Hr & f & n & _ & Hn & [_ _ (H1 & _ & H3)])].
    + exfalso. specialize (H 3 Ep). unfold starved in H. change (xvm s) with v in H. rewrite Hlen in H. apply H. reflexivity.
    + rewrite Ep in Hn. injection Hn as <-. split; [exact Hr|]. split; [exact H1|exact H3].
Defined.
