(* ===== verification/Mkfs.v ===== *)
(** * Mkfs: the builder of the disk image (mkfs.c)

    mkfs runs on the host and writes the first file system: a super block, the inodes,
    the free map, and the files that its arguments name.  Its state are the sectors of
    the image and the two counters from which it takes inodes and blocks.  The host is
    little endian, as the one the kernel is built on.

    [seeks] and [writes] say whether the host can move to a sector of the image and
    write it.  A host file is the list of what [read] gives until it gives nothing more,
    or is not there.  [exit(1)] and a failed [assert] are [panic]. *)

From S2P Require Import Prelude Mem Sleeplock Log Fs.

Definition FSSIZE : Z := 1000.
Definition NINODES : Z := 200.

Definition nbitmap : Z := FSSIZE / (Z.of_nat BSIZE * 8) + 1.
Definition ninodeblocks : Z := NINODES / IPB + 1.
Definition nlog : Z := LOGSIZE.

(** The boot block, the super block, the log, the inodes and the free map. *)
Definition nmeta : Z := 2 + nlog + ninodeblocks + nbitmap.
Definition nblocks : Z := FSSIZE - nmeta.

(** Intel byte order: the bytes are stored one by one, and read by the host. *)
Definition xshort (x : Z) : Z := u8 x + 2 ^ 8 * u8 (Z.shiftr x 8).
Definition xint (x : Z) : Z :=
  u8 x + 2 ^ 8 * u8 (Z.shiftr x 8) + 2 ^ 16 * u8 (Z.shiftr x 16) + 2 ^ 24 * u8 (Z.shiftr x 24).

Record mkfs := MkFs { img : gmap Z block; freeinode : Z; freeblock : Z; msb : superblock }.
#[export] Instance eta_mkfs : Eta mkfs := fun r => MkFs (img r) (freeinode r) (freeblock r) (msb r).

(** An argument of [main]: a name, and what reading the file gives. *)
Record arg := Arg { a_name : list Z; a_reads : option (list block) }.

Section Mkfs.
Context (seeks writes : Z -> bool).

(** ** Sectors *)

Definition wsect (sec : Z) (buf : block) : M mkfs unit :=
  if negb (seeks sec) then panic "lseek"
  else if negb (writes sec) then panic "write"
  else modify (fun s => s <| img ::= <[sec := buf]> |>).

(** A sector beyond the end of the image cannot be read. *)
Definition rsect (sec : Z) : M mkfs block :=
  if negb (seeks sec) then panic "lseek"
  else m ← gets img; match m !! sec with Some buf => mret buf | None => panic "read" end.

(** ** Inodes *)

Definition winode (inum : Z) (ip : dinode) : M mkfs unit :=
  sb ← gets msb;
  let bn := IBLOCK inum sb in
  buf ← rsect bn;
  wsect bn (put_dinode buf (dip inum) ip).

Definition rinode (inum : Z) : M mkfs dinode :=
  sb ← gets msb;
  buf ← rsect (IBLOCK inum sb);
  deref (get_dinode buf (dip inum)).

Definition ialloc (type : Z) : M mkfs Z :=
  inum ← gets freeinode;
  modify (fun s => s <| freeinode := u32 (inum + 1) |>);;
  winode inum (Dinode (s16 (xshort type)) 0 0 (xshort 1) (xint 0) (replicate 13 0));;
  mret inum.

(** ** The free map *)

Definition balloc (used : Z) : M mkfs unit :=
  if negb (used <? Z.of_nat BSIZE * 8) then panic "assert"
  else
    let buf := foldl (fun buf i => aset buf (i / 8) (u8 (Z.lor (default 0 (aget buf (i / 8))) (Z.shiftl 1 (i mod 8)))))
                 (replicate BSIZE 0) (seqZ 0 used) in
    sb ← gets msb;
    wsect (sb_bmapstart sb) buf.

(** ** The contents of an inode *)

(** [freeblock++] *)
Definition newblock : M mkfs Z :=
  fb ← gets freeblock;
  modify (fun s => s <| freeblock := u32 (fb + 1) |>);;
  mret fb.

(** [if(xint(din.addrs[k]) == 0) din.addrs[k] = xint(freeblock++);], and the address. *)
Definition addr_or_new (din : dinode) (k : Z) : M mkfs (dinode * Z) :=
  a ← deref (aget (d_addrs din) k);
  din ← (if xint a =? 0 then fb ← newblock; mret (din <| d_addrs ::= fun l => aset l k (xint fb) |>) else mret din);
  a ← deref (aget (d_addrs din) k);
  mret (din, xint a).

(** The entry of the indirect block [a]. *)
Definition ind_or_new (a j : Z) : M mkfs Z :=
  indirect ← rsect a;
  w ← deref (word indirect (Z.to_nat j));
  indirect ← (if w =? 0 then
                fb ← newblock;
                let indirect := put32 indirect (4 * Z.to_nat j) (xint fb) in
                wsect a indirect;;
                mret indirect
              else mret indirect);
  w ← deref (word indirect (Z.to_nat j));
  mret (xint w).

(** The block of the file that holds the byte at [fbn * BSIZE]. *)
Definition block_for (din : dinode) (fbn : Z) : M mkfs (dinode * Z) :=
  if fbn <? NDIRECT then addr_or_new din fbn
  else
    r ← addr_or_new din NDIRECT;
    x ← ind_or_new r.2 (fbn - NDIRECT);
    mret (r.1, x).

(** The loop: [p] are the bytes that are left, [n] of them. *)
Fixpoint iappend_loop (fuel : nat) (din : dinode) (off : Z) (p : list Z) : M mkfs (dinode * Z) :=
  match p, fuel with
  | [], _ => mret (din, off)
  | _, O => spin
  | _, S fuel =>
      let fbn := off / Z.of_nat BSIZE in
      if negb (fbn <? MAXFILE) then panic "assert"
      else
        r ← block_for din fbn;
        let n1 := Z.min (Z.of_nat (length p)) ((fbn + 1) * Z.of_nat BSIZE - off) in
        buf ← rsect r.2;
        wsect r.2 (list_inserts (Z.to_nat (off - fbn * Z.of_nat BSIZE)) (take (Z.to_nat n1) p) buf);;
        iappend_loop fuel r.1 (u32 (off + n1)) (drop (Z.to_nat n1) p)
  end.

Definition iappend (inum : Z) (p : list Z) : M mkfs unit :=
  din ← rinode inum;
  r ← iappend_loop (length p) din (xint (d_size din)) p;
  winode inum (r.1 <| d_size := xint r.2 |>).

(** ** main *)

(** A directory entry, filled in after [bzero]. *)
Definition dirent (inum : Z) (name : list Z) : list Z :=
  let x := xshort inum in [u8 x; u8 (Z.shiftr x 8)] ++ strncpy_name DIRSIZ name.

(** [if(argv[i][0] == '_') ++argv[i];] *)
Definition skip_underscore (name : list Z) : list Z :=
  match name with c :: name' => if c =? 95 then name' else name | [] => [] end.

Definition add_file (rootino : Z) (a : arg) : M mkfs unit :=
  if existsb (Z.eqb SLASH) (a_name a) then panic "assert"
  else
    match a_reads a with
    | None => panic "open"
    | Some reads =>
        inum ← ialloc T_FILE;
        iappend rootino (dirent inum (skip_underscore (a_name a)));;
        for_each reads (iappend inum)
    end.

Definition the_sb : superblock :=
  SuperBlock (xint FSSIZE) (xint nblocks) (xint NINODES) (xint nlog) (xint 2) (xint (2 + nlog)) (xint (2 + nlog + ninodeblocks)).

Definition sb_words (sb : superblock) : list Z :=
  [sb_size sb; sb_nblocks sb; sb_ninodes sb; sb_nlog sb; sb_logstart sb; sb_inodestart sb; sb_bmapstart sb].

(** Fix the size of the root directory. *)
Definition fix_root (rootino : Z) : M mkfs unit :=
  din ← rinode rootino;
  let off := xint (d_size din) in
  let off := u32 (u32 (off / Z.of_nat BSIZE + 1) * Z.of_nat BSIZE) in
  winode rootino (din <| d_size := xint off |>).

(** The layout, sectors of zeros and the super block. *)
Definition write_super : M mkfs unit :=
  modify (fun s => s <| msb := the_sb |> <| freeblock := nmeta |>);;
  for_each (seqZ 0 FSSIZE) (fun i => wsect i (replicate BSIZE 0));;
  sb ← gets msb;
  wsect 1 (put_words (replicate BSIZE 0) 0 (sb_words sb)).

(** [main] after the image was opened: it is empty, and [freeinode] is 1. *)
Definition main (files : list arg) : M mkfs unit :=
  write_super;;
  rootino ← ialloc T_DIR;
  if negb (rootino =? ROOTINO) then panic "assert"
  else
    iappend rootino (dirent rootino [46]);;
    iappend rootino (dirent rootino [46; 46]);;
    for_each files (add_file rootino);;
    fix_root rootino;;
    fb ← gets freeblock;
    balloc fb.

Definition mkfs_init : mkfs := MkFs ∅ 1 0 (SuperBlock 0 0 0 0 0 0 0).
End Mkfs.

(** [ialloc] does not look at [NINODES]: inode 208 would be in the block of the free map. *)
Lemma inode_208_in_map : IBLOCK 208 the_sb = sb_bmapstart the_sb.
Proof. done. Qed.
