(* ===== verification/MkfsSpec.v ===== *)
(** * MkfsSpec: the image of mkfs is a file system for the kernel

    What [iappend] writes is what the kernel reads back, no block is used twice, and the
    free map marks the blocks that are in use.  The image is looked at through the
    definitions of the kernel's side ([slot], [fbyte], [file_ok], [dir_ok]). *)

From S2P Require Import Prelude Mem Sleeplock Log Fs FsAlloc FsFile FsInode FsDir Mkfs.

(** ** The image as the kernel sees it *)

Definition disk (m : gmap Z block) : fs := FsState (kmap (pair 1) m) [] the_sb [].
Definition ino (di : dinode) : inode := Inode 1 0 0 (SleepLock 0 0 0) true di.

Notation mslot m di k := (slot (disk m) (ino di) k).
Notation mblock m di n := (fblock (disk m) (ino di) n).
Notation mbyte m di n := (fbyte (disk m) (ino di) n).

Lemma disk_lookup m b : fview (disk m) !! (1, b) = m !! b.
Proof. cbn. apply lookup_kmap. intros x y [=]. done. Qed.

(** The blocks of the inodes [D]: those below [fb] are given out, to one slot each, and
    those from [fb] on are zeros. *)
Record laid (m : gmap Z block) (fb : Z) (D : gmap Z dinode) : Prop := {
  la_blocks : forall b, 0 <= b < FSSIZE -> exists d, m !! b = Some d /\ length d = 512%nat;
  la_zero : forall b, fb <= b < FSSIZE -> m !! b = Some (replicate 512 0);
  la_fb : nmeta <= fb <= FSSIZE;
  la_len : forall i di, D !! i = Some di -> length (d_addrs di) = 13%nat;
  la_slot : forall i di k, D !! i = Some di -> 0 <= k <= 140 -> mslot m di k <> 0 -> nmeta <= mslot m di k < fb;
  la_inj : forall i di j dj k k', D !! i = Some di -> D !! j = Some dj -> 0 <= k <= 140 -> 0 <= k' <= 140 ->
    mslot m di k <> 0 -> mslot m di k = mslot m dj k' -> i = j /\ k = k'
}.

(** ** Numbers *)

Lemma xint_u32 x : 0 <= x < 2 ^ 32 -> xint x = x.
Proof. intros Hx. unfold xint, u8. rewrite !Z.shiftr_div_pow2 by lia. zlia. Qed.

Lemma xshort_u16 x : 0 <= x < 2 ^ 16 -> xshort x = x.
Proof. intros Hx. unfold xshort, u8. rewrite !Z.shiftr_div_pow2 by lia. zlia. Qed.

(** ** Slots and blocks of the image *)

Lemma mslot_lo m di k : k <= 12 -> mslot m di k = default 0 (aget (d_addrs di) k).
Proof. intros Hk. unfold slot, NDIRECT. destruct (Z.leb_spec k 12); [done|lia]. Qed.

Lemma mslot_hi m di k : 12 < k -> mslot m di k =
  if mslot m di 12 =? 0 then 0 else match m !! mslot m di 12 with Some d => default 0 (word d (Z.to_nat (k - 13))) | None => 0 end.
Proof.
  intros Hk. rewrite slot_12. unfold slot, NDIRECT. destruct (Z.leb_spec k 12); [lia|]. unfold ind_at. fold NDIRECT. cbn [i_dev ino].
  by rewrite disk_lookup.
Qed.

Lemma mslot_keep m m' di k : (mslot m di 12 <> 0 -> m' !! mslot m di 12 = m !! mslot m di 12) -> mslot m' di k = mslot m di k.
Proof. intros H. apply slot_same; [done|done|]. cbn [i_dev ino]. rewrite !disk_lookup. exact H. Qed.

Lemma mblock_eq m di n : mblock m di n = if mslot m di (slot_of n) =? 0 then replicate 512 0 else default [] (m !! mslot m di (slot_of n)).
Proof. unfold fblock, blockof. cbn [i_dev ino]. by rewrite disk_lookup. Qed.

(** Two slots have two blocks. *)
Lemma apart m fb D i di k j dj k' : laid m fb D -> D !! i = Some di -> D !! j = Some dj -> 0 <= k <= 140 -> 0 <= k' <= 140 ->
  mslot m di k <> 0 -> i <> j \/ k <> k' -> mslot m dj k' <> mslot m di k.
Proof. intros H Hi Hj Hk Hk' Hs Hne E. destruct (la_inj _ _ _ H i di j dj k k'); try done. tauto. Qed.

(** A slot that changes to the next free block. *)
Lemma laid_grow m fb D i di k m' di' : laid m fb D -> D !! i = Some di -> fb < FSSIZE -> length (d_addrs di') = 13%nat ->
  (forall k', 0 <= k' <= 140 -> mslot m' di' k' = if k' =? k then fb else mslot m di k') ->
  (forall j dj k', j <> i -> D !! j = Some dj -> 0 <= k' <= 140 -> mslot m' dj k' = mslot m dj k') ->
  (forall b, 0 <= b < FSSIZE -> exists d, m' !! b = Some d /\ length d = 512%nat) ->
  (forall b, fb <= b < FSSIZE -> m' !! b = m !! b) ->
  laid m' (fb + 1) (<[i := di']> D).
Proof.
  intros H Hi Hfb Hl Hs Ho Hb Hz. pose proof (la_fb _ _ _ H) as Hm. change nmeta with 59 in *.
  assert (Hany : forall j dj k', <[i := di']> D !! j = Some dj -> 0 <= k' <= 140 -> exists dj0, D !! j = Some dj0 /\
    (mslot m' dj k' = mslot m dj0 k' \/ j = i /\ k' = k /\ mslot m' dj k' = fb)).
  { intros j dj k' Hj Hk'. apply lookup_insert_Some in Hj as [[<- <-]|[Hne Hj]]; [|exists dj; split; [done|left; by apply (Ho j)]].
    exists di. split; [done|]. rewrite Hs by done. destruct (Z.eqb_spec k' k); [by right|by left]. }
  split; change nmeta with 59 in *.
  - done.
  - intros b Hbb. rewrite Hz by lia. apply (la_zero _ _ _ H). lia.
  - lia.
  - intros j dj Hj. apply lookup_insert_Some in Hj as [[<- <-]|[_ Hj]]; [done|by apply (la_len _ _ _ H j)].
  - intros j dj k' Hj Hk' Hne. destruct (Hany j dj k' Hj Hk') as (dj0 & Hj0 & [E|(_ & _ & E)]); [|lia]. rewrite E in *.
    pose proof (la_slot _ _ _ H j dj0 k' Hj0 Hk' Hne). change nmeta with 59 in *. lia.
  - intros j dj l dl k1 k2 Hj Hl' H1 H2 Hne E. destruct (Hany j dj k1 Hj H1) as (dj0 & Hj0 & E1), (Hany l dl k2 Hl' H2) as (dl0 & Hl0 & E2).
    destruct E1 as [E1|(-> & -> & E1)], E2 as [E2|(-> & -> & E2)]; [| | |done].
    + apply (la_inj _ _ _ H j dj0 l dl0 k1 k2); congruence.
    + rewrite E1 in Hne. pose proof (la_slot _ _ _ H j dj0 k1 Hj0 H1 Hne). lia.
    + assert (Hne2 : mslot m dl0 k2 <> 0) by congruence. pose proof (la_slot _ _ _ H l dl0 k2 Hl0 H2 Hne2). lia.
Qed.

(** The contents do not change when a slot gets a block of zeros. *)
Lemma grow_block m fb D i di k m' di' n : laid m fb D -> D !! i = Some di -> fb < FSSIZE -> 0 <= n < MAXFILE ->
  (forall k', 0 <= k' <= 140 -> mslot m' di' k' = if k' =? k then fb else mslot m di k') -> mslot m di k = 0 -> m' !! fb = m !! fb ->
  (forall k', 0 <= k' <= 140 -> k' <> 12 -> mslot m di k' <> 0 -> m' !! mslot m di k' = m !! mslot m di k') ->
  mblock m' di' n = mblock m di n.
Proof.
  intros H Hi Hfb Hn Hs H0 Hz Hk. destruct (slot_of_range n Hn) as [Hr Hr12]. rewrite !mblock_eq, Hs by done. destruct (Z.eqb_spec (slot_of n) k) as [->|Hne].
  - rewrite H0. pose proof (la_fb _ _ _ H). change nmeta with 59 in *. destruct (Z.eqb_spec fb 0); [lia|]. by rewrite Hz, (la_zero _ _ _ H) by lia.
  - destruct (Z.eqb_spec (mslot m di (slot_of n)) 0); [done|]. by rewrite Hk.
Qed.

(** ** Getting a block *)

(** The files other than [i] are as before. *)
Definition kept_files (D : gmap Z dinode) (i : Z) (m m' : gmap Z block) : Prop := forall j dj, j <> i -> D !! j = Some dj ->
  (forall k, 0 <= k <= 140 -> mslot m' dj k = mslot m dj k) /\ (forall n, 0 <= n < MAXFILE -> mblock m' dj n = mblock m dj n).

(** Slot [k] of inode [i] has a block, a new one if it had none. *)
Record slotted (s : mkfs) (D : gmap Z dinode) (i : Z) (di : dinode) (k : Z) (s' : mkfs) (di' : dinode) : Prop := {
  st_laid : laid (img s') (freeblock s') (<[i := di']> D);
  st_slot : forall k', 0 <= k' <= 140 ->
    mslot (img s') di' k' = if (k' =? k) && (mslot (img s) di k =? 0) then freeblock s else mslot (img s) di k';
  st_fb : freeblock s' = freeblock s + if mslot (img s) di k =? 0 then 1 else 0;
  st_block : forall n, 0 <= n < MAXFILE -> mblock (img s') di' n = mblock (img s) di n;
  st_kept : kept_files D i (img s) (img s');
  st_fields : exists l, di' = di <| d_addrs := l |>;
  st_meta : forall b, b < nmeta -> img s' !! b = img s !! b;
  st_misc : freeinode s' = freeinode s /\ msb s' = msb s
}.

Lemma kept_refl D i m : kept_files D i m m.
Proof. by split. Qed.

Lemma kept_trans D i m1 m2 m3 : kept_files D i m1 m2 -> kept_files D i m2 m3 -> kept_files D i m1 m3.
Proof.
  intros H1 H2 j dj Hne Hj. destruct (H1 j dj Hne Hj) as [A1 B1], (H2 j dj Hne Hj) as [A2 B2].
  split; intros x Hx; [by rewrite A2, A1|by rewrite B2, B1].
Qed.

Lemma kept_insert D i di m m' : kept_files (<[i := di]> D) i m m' <-> kept_files D i m m'.
Proof. split; intros H j dj Hne Hj; apply (H j dj Hne); by rewrite lookup_insert_ne in * by done. Qed.

(** Writing a block of file [i]. *)
Lemma kept_set m fb D i di k d : laid m fb D -> D !! i = Some di -> 0 <= k <= 140 -> mslot m di k <> 0 -> kept_files D i m (<[mslot m di k := d]> m).
Proof.
  intros H Hi Hk Hs j dj Hne Hj. assert (Hother : forall k', 0 <= k' <= 140 -> <[mslot m di k := d]> m !! mslot m dj k' = m !! mslot m dj k').
  { intros k' Hk'. apply lookup_insert_ne. apply not_eq_sym. eapply (apart m fb D i di k j dj k'); try done. left. congruence. }
  assert (Hsl : forall k', mslot (<[mslot m di k := d]> m) dj k' = mslot m dj k') by (intros k'; apply mslot_keep; intros _; by apply Hother).
  split; [intros k' _; apply Hsl|]. intros n Hn. destruct (slot_of_range n Hn). rewrite !mblock_eq, Hsl. by rewrite Hother.
Qed.

Lemma slotted_refl s D i di k : laid (img s) (freeblock s) D -> D !! i = Some di -> mslot (img s) di k <> 0 -> slotted s D i di k s di.
Proof.
  intros H Hi Hs. apply Z.eqb_neq in Hs. split; rewrite ?Hs, ?andb_false_r; try done.
  - by rewrite insert_id.
  - intros k' _. by rewrite andb_false_r.
  - lia.
  - exists (d_addrs di). by destruct di.
Qed.

Lemma newblock_ok s : 0 <= freeblock s < FSSIZE -> newblock s = Ret (freeblock s) (s <| freeblock := freeblock s + 1 |>).
Proof. intros H. unfold newblock. msimp. rewrite u32_small; [done|]. unfold FSSIZE in H. lia. Qed.

(** A block for an address of the inode. *)
Lemma new_direct m fb D i di k : laid m fb D -> D !! i = Some di -> 0 <= k <= 12 -> mslot m di k = 0 -> fb < FSSIZE ->
  forall k', 0 <= k' <= 140 -> mslot m (di <| d_addrs ::= fun l => aset l k fb |>) k' = if k' =? k then fb else mslot m di k'.
Proof.
  intros H Hi Hk H0 Hfb. pose proof (la_len _ _ _ H i di Hi) as Hl. set (di' := di <| d_addrs ::= fun l => aset l k fb |>).
  assert (Hlo : forall k', k' <= 12 -> mslot m di' k' = if k' =? k then fb else mslot m di k').
  { intros k' Hk'. rewrite !mslot_lo by done. apply (addr_at_set (ino di) (ino di') k fb eq_refl Hl Hk). }
  intros k' Hk'. destruct (Z.le_gt_cases k' 12); [by apply Hlo|]. destruct (Z.eqb_spec k' k); [lia|].
  rewrite (mslot_hi m di'), Hlo by lia. destruct (Z.eqb_spec 12 k) as [<-|].
  - rewrite (mslot_hi m di), H0 by lia. cbn [Z.eqb]. destruct (Z.eqb_spec fb 0); [done|].
    rewrite (la_zero _ _ _ H), word_zeros by lia. done.
  - by rewrite <- mslot_hi by lia.
Qed.

Section Io.
Context (seeks writes : Z -> bool).
Hypothesis io_seeks : forall b, seeks b = true.
Hypothesis io_writes : forall b, writes b = true.

Lemma rsect_ok s b d : img s !! b = Some d -> rsect seeks b s = Ret d s.
Proof using io_seeks. intros H. unfold rsect. rewrite io_seeks. cbn [negb]. msimp. by rewrite H. Qed.

Lemma wsect_ok s b d : wsect seeks writes b d s = Ret tt (s <| img ::= <[b := d]> |>).
Proof using io_seeks io_writes. unfold wsect. by rewrite io_seeks, io_writes. Qed.

Lemma slot_u32 m fb D i di k : laid m fb D -> D !! i = Some di -> 0 <= k <= 140 -> 0 <= mslot m di k < 2 ^ 32.
Proof.
  intros H Hi Hk. destruct (decide (mslot m di k = 0)) as [->|Hne]; [lia|]. pose proof (la_slot _ _ _ H i di k Hi Hk Hne). pose proof (la_fb _ _ _ H).
  unfold FSSIZE in *. change nmeta with 59 in *. lia.
Qed.

Lemma addr_or_new_ok s D i di k : laid (img s) (freeblock s) D -> D !! i = Some di -> 0 <= k <= 12 ->
  (mslot (img s) di k = 0 -> freeblock s < FSSIZE) ->
  exists s' di', addr_or_new di k s = Ret (di', mslot (img s') di' k) s' /\ slotted s D i di k s' di' /\ img s' = img s /\ mslot (img s') di' k <> 0.
Proof.
  intros H Hi Hk Hfb. pose proof (la_len _ _ _ H i di Hi) as Hl. pose proof (la_fb _ _ _ H) as Hm. change nmeta with 59 in Hm.
  destruct (aget_is_Some (d_addrs di) k) as [a Ha]; [rewrite Hl; lia|].
  assert (Hs : mslot (img s) di k = a) by (by rewrite mslot_lo, Ha by lia). pose proof (slot_u32 _ _ _ i di k H Hi ltac:(lia)) as Hu.
  unfold addr_or_new. rewrite Ha. cbn [deref]. rewrite ret_bind, xint_u32 by lia. destruct (Z.eqb_spec a 0) as [->|Hne].
  - rewrite !bind_assoc, (bind_ret _ _ _ _ _ (newblock_ok s ltac:(lia))), ret_bind. rewrite xint_u32 by (unfold FSSIZE in *; lia).
    set (s' := s <| freeblock := freeblock s + 1 |>). set (di' := di <| d_addrs ::= fun l => aset l k (freeblock s) |>).
    pose proof (new_direct _ _ _ i di k H Hi Hk Hs (Hfb Hs)) as Hsl. fold di' in Hsl.
    change (d_addrs di') with (aset (d_addrs di) k (freeblock s)). rewrite aget_aset_eq by (rewrite Hl; lia). cbn [deref]. rewrite ret_bind, xint_u32 by (unfold FSSIZE in *; lia).
    exists s', di'. change (img s') with (img s). split; [by rewrite (Hsl k), Z.eqb_refl by lia|]. split; [|split; [done|rewrite (Hsl k), Z.eqb_refl by lia; lia]].
    split; change (img s') with (img s); rewrite ?Hs; try done.
    + apply (laid_grow (img s) (freeblock s) D i di k); try done; [by apply Hfb|by cbn; rewrite aset_length|apply H].
    + intros k' Hk'. rewrite Hsl by done. by rewrite andb_true_r.
    + intros n Hn. apply (grow_block (img s) (freeblock s) D i di k); try done. by apply Hfb.
    + by exists (aset (d_addrs di) k (freeblock s)).
  - rewrite ret_bind, Ha. cbn [deref]. rewrite ret_bind, xint_u32 by lia. exists s, di. rewrite Hs. split; [done|]. split; [|done]. apply slotted_refl; [done|done|congruence].
Qed.

(** A block for an entry of the indirect block. *)
Lemma new_indirect m fb D i di j d : laid m fb D -> D !! i = Some di -> 0 <= j < 128 -> mslot m di 12 <> 0 -> m !! mslot m di 12 = Some d -> fb < FSSIZE ->
  forall k', 0 <= k' <= 140 -> mslot (<[mslot m di 12 := put32 d (4 * Z.to_nat j) fb]> m) di k' = if k' =? 13 + j then fb else mslot m di k'.
Proof.
  intros H Hi Hj H12 Hd Hfb k' Hk'. set (m' := <[_ := _]> m). pose proof (la_fb _ _ _ H) as Hm. change nmeta with 59 in Hm. unfold FSSIZE in *.
  assert (Hl : length d = 512%nat).
  { pose proof (la_slot _ _ _ H i di 12 Hi ltac:(lia) H12). change nmeta with 59 in *. destruct (la_blocks _ _ _ H (mslot m di 12)) as (d0 & E & Hl); [unfold FSSIZE; lia|]. congruence. }
  assert (H12' : mslot m' di 12 = mslot m di 12) by (by rewrite !mslot_lo by lia).
  destruct (Z.le_gt_cases k' 12). { destruct (Z.eqb_spec k' (13 + j)); [lia|]. by rewrite !mslot_lo by done. }
  rewrite (mslot_hi m'), (mslot_hi m), H12' by lia. destruct (Z.eqb_spec (mslot m di 12) 0); [done|]. unfold m'. rewrite lookup_insert_eq, Hd, word_put by lia.
  destruct (decide (Z.to_nat (k' - 13) = Z.to_nat j)), (Z.eqb_spec k' (13 + j)); try lia; done.
Qed.

Lemma ind_or_new_ok s D i di j : laid (img s) (freeblock s) D -> D !! i = Some di -> 0 <= j < 128 -> mslot (img s) di 12 <> 0 ->
  (mslot (img s) di (13 + j) = 0 -> freeblock s < FSSIZE) ->
  exists s', ind_or_new seeks writes (mslot (img s) di 12) j s = Ret (mslot (img s') di (13 + j)) s' /\ slotted s D i di (13 + j) s' di /\ mslot (img s') di (13 + j) <> 0.
Proof using io_seeks io_writes.
  intros H Hi Hj H12 Hfb. pose proof (la_fb _ _ _ H) as Hm. change nmeta with 59 in Hm. pose proof (la_slot _ _ _ H i di 12 Hi ltac:(lia) H12) as Ha. change nmeta with 59 in Ha.
  destruct (la_blocks _ _ _ H (mslot (img s) di 12)) as (d & Hd & Hl); [unfold FSSIZE in *; lia|]. destruct (word_Some d (Z.to_nat j) Hl ltac:(lia)) as [w Hw].
  assert (Hs : mslot (img s) di (13 + j) = w). { rewrite mslot_hi by lia. apply Z.eqb_neq in H12. rewrite H12, Hd. replace (13 + j - 13) with j by lia. by rewrite Hw. }
  pose proof (slot_u32 _ _ _ i di (13 + j) H Hi ltac:(lia)) as Hu.
  unfold ind_or_new. rewrite (bind_ret _ _ _ _ _ (rsect_ok s _ _ Hd)), Hw. cbn [deref]. rewrite ret_bind. destruct (Z.eqb_spec w 0) as [->|Hne].
  - specialize (Hfb Hs). rewrite !bind_assoc, (bind_ret _ _ _ _ _ (newblock_ok s ltac:(lia))). cbv zeta. rewrite bind_assoc, (bind_ret _ _ _ _ _ (wsect_ok _ _ _)), ret_bind.
    rewrite xint_u32 by (unfold FSSIZE in *; lia). rewrite word_put, decide_True by (unfold FSSIZE in *; lia). cbn [deref]. rewrite ret_bind, xint_u32 by (unfold FSSIZE in *; lia).
    match goal with |- context [mret _ ?x] => set (s1 := x) end. exists s1.
    pose proof (new_indirect _ _ _ i di j d H Hi Hj H12 Hd Hfb) as Hsl. set (a := mslot (img s) di 12) in *. set (d' := put32 d (4 * Z.to_nat j) (freeblock s)) in *.
    change (img s1) with (<[a := d']> (img s)). split; [by rewrite (Hsl (13 + j)), Z.eqb_refl by lia|]. split; [|rewrite (Hsl (13 + j)), Z.eqb_refl by lia; lia].
    assert (Hk := kept_set _ _ _ i di 12 d' H Hi ltac:(lia) H12). fold a in Hk.
    split; change (img s1) with (<[a := d']> (img s)); change (freeblock s1) with (freeblock s + 1); rewrite ?Hs; try done.
    + apply (laid_grow (img s) _ D i di (13 + j)); try done; [by apply (la_len _ _ _ H i)| | |].
      * intros l dl k' Hne Hd' Hk'. by apply (Hk l dl).
      * intros b Hb. destruct (decide (a = b)) as [<-|]; [exists d'; rewrite lookup_insert_eq; split; [done|unfold d'; by rewrite put32_length]|].
        rewrite lookup_insert_ne by done. by apply H.
      * intros b Hb. apply lookup_insert_ne. lia.
    + intros k' Hk'. rewrite Hsl by done. by rewrite andb_true_r.
    + intros n Hn. apply (grow_block (img s) (freeblock s) D i di (13 + j)); try done; [apply lookup_insert_ne; lia|]. intros k' Hk' Hne12 Hne. apply lookup_insert_ne, not_eq_sym.
      eapply (apart _ _ _ i di 12 i di k'); try done. right. congruence.
    + exists (d_addrs di). by destruct di.
    + intros b Hb. change nmeta with 59 in Hb. apply lookup_insert_ne. lia.
  - rewrite ret_bind, Hw. cbn [deref]. rewrite ret_bind, xint_u32 by lia. exists s. rewrite Hs. split; [done|]. split; [|done]. apply slotted_refl; [done|done|congruence].
Qed.
(** ** Appending *)

(** Slot [k] has a block in a file of [len] bytes. *)
Definition needs (len k : Z) : Prop := (if k <=? 12 then k else k - 1) * 512 < len.

(** The number of blocks of a file of [len] bytes, the indirect block included. *)
Definition nblk (len : Z) : Z := let nb := (len + 511) / 512 in if 12 <? nb then nb + 1 else nb.

Lemma nblk_step off : 0 <= off -> nblk (off + 1) - nblk off = if off mod 512 =? 0 then if off =? 6144 then 2 else 1 else 0.
Proof. intros H. unfold nblk. destruct (Z.eqb_spec (off mod 512) 0), (Z.eqb_spec off 6144); repeat case_match; zlia. Qed.

(** The blocks that a file has, and its bytes. *)
Definition uses (m : gmap Z block) (di : dinode) (len : Z) : Prop := forall k, 0 <= k <= 140 -> mslot m di k <> 0 <-> needs len k.
Definition reads_as (m : gmap Z block) (di : dinode) (c : list Z) : Prop :=
  forall n, 0 <= n < MAXFILE * 512 -> mbyte m di n = default 0 (c !! Z.to_nat n).

(** Nothing changed but the blocks of file [i], which is a file of [len] bytes now. *)
Record sized (s : mkfs) (D : gmap Z dinode) (i : Z) (di : dinode) (len : Z) (s' : mkfs) (di' : dinode) (len' : Z) : Prop := {
  sz_laid : laid (img s') (freeblock s') (<[i := di']> D);
  sz_uses : uses (img s') di' len';
  sz_fb : freeblock s' = freeblock s + (nblk len' - nblk len);
  sz_kept : kept_files D i (img s) (img s');
  sz_fields : exists l, di' = di <| d_addrs := l |>;
  sz_meta : forall b, b < nmeta -> img s' !! b = img s !! b;
  sz_misc : freeinode s' = freeinode s /\ msb s' = msb s
}.

Lemma sized_trans s D i di l1 s1 di1 l2 s2 di2 l3 : sized s D i di l1 s1 di1 l2 -> sized s1 (<[i := di1]> D) i di1 l2 s2 di2 l3 -> sized s D i di l1 s2 di2 l3.
Proof.
  intros [A1 A2 A3 A4 [l A5] A6 [A7 A8]] [B1 B2 B3 B4 [l' B5] B6 [B7 B8]]. split.
  - by rewrite insert_insert_eq in B1.
  - done.
  - lia.
  - eapply kept_trans; [done|]. by eapply kept_insert.
  - exists l'. by rewrite B5, A5.
  - intros b Hb. by rewrite B6, A6.
  - split; congruence.
Qed.

(** One slot more. *)
Lemma uses_slotted s D i di k s' di' (P P' : Z -> Prop) : slotted s D i di k s' di' -> 0 <= freeblock s -> freeblock s <> 0 -> 0 <= k <= 140 ->
  (forall k', 0 <= k' <= 140 -> mslot (img s) di k' <> 0 <-> P k') -> (forall k', 0 <= k' <= 140 -> P' k' <-> P k' \/ k' = k) ->
  forall k', 0 <= k' <= 140 -> mslot (img s') di' k' <> 0 <-> P' k'.
Proof.
  intros H Hfb Hfb0 Hk HP HP' k' Hk'. rewrite (st_slot _ _ _ _ _ _ _ H), HP', <- HP by done.
  destruct (Z.eqb_spec k' k) as [->|], (Z.eqb_spec (mslot (img s) di k) 0); cbn [andb]; tauto.
Qed.

Lemma block_for_ok s D i di off : laid (img s) (freeblock s) D -> D !! i = Some di -> 0 <= off < MAXFILE * 512 -> uses (img s) di off ->
  freeblock s + (nblk (off + 1) - nblk off) <= FSSIZE ->
  exists s' di', block_for seeks writes di (off / 512) s = Ret (di', mslot (img s') di' (slot_of (off / 512))) s' /\
    sized s D i di off s' di' (off + 1) /\ (forall n, 0 <= n < MAXFILE -> mblock (img s') di' n = mblock (img s) di n).
Proof using io_seeks io_writes.
  intros H Hi Ho Hu Hcap. pose proof (la_fb _ _ _ H) as Hm. change nmeta with 59 in Hm. unfold MAXFILE in Ho. set (fbn := off / 512). assert (Hf : 0 <= fbn < 140) by (unfold fbn; zlia).
  assert (Hz : forall k, 0 <= k <= 140 -> mslot (img s) di k = 0 <-> ~ needs off k).
  { intros k Hk. rewrite <- (Hu k Hk). destruct (decide (mslot (img s) di k = 0)); tauto. }
  unfold block_for, slot_of, NDIRECT. destruct (Z.ltb_spec fbn 12).
  - destruct (addr_or_new_ok s D i di fbn H Hi ltac:(lia)) as (s' & di' & E & Hst & _ & Hne).
    { intros E. apply Hz in E; [|lia]. unfold needs, nblk in *. destruct (Z.leb_spec fbn 12); [|lia]. unfold fbn in *. repeat case_match; zlia. }
    exists s', di'. split; [exact E|]. split; [|apply Hst]. pose proof (uses_slotted _ _ _ _ _ _ _ (needs off) (needs (off + 1)) Hst ltac:(lia) ltac:(lia) ltac:(lia) Hu) as Hu'.
    destruct Hst as [S1 S2 S3 S4 S5 S6 S7 S8]. split; try done.
    + refine (Hu' _). intros k' Hk'. unfold needs, fbn in *. destruct (Z.leb_spec k' 12); zlia.
    + rewrite S3. destruct (Z.eqb_spec (mslot (img s) di fbn) 0) as [E0|E0]; [apply Hz in E0; [|lia]|apply Hu in E0; [|lia]];
        unfold needs, nblk, fbn in *; repeat case_match; zlia.
  - destruct (addr_or_new_ok s D i di 12 H Hi ltac:(lia)) as (s1 & di1 & E1 & Hst1 & Him1 & Hne1).
    { intros E. apply Hz in E; [|lia]. unfold needs, nblk in *. cbn in E. unfold fbn in *. repeat case_match; zlia. }
    assert (Hfb1 := st_fb _ _ _ _ _ _ _ Hst1). assert (Hu1 := uses_slotted _ _ _ _ _ _ _ (needs off) (fun k => needs off k \/ k = 12) Hst1 ltac:(lia) ltac:(lia) ltac:(lia) Hu ltac:(tauto)).
    assert (Hz1 : mslot (img s) di 12 = 0 \/ mslot (img s) di 12 <> 0) by lia.
    assert (Hs13 : mslot (img s1) di1 (13 + (fbn - 12)) = mslot (img s) di (fbn + 1)).
    { rewrite (st_slot _ _ _ _ _ _ _ Hst1) by lia. destruct (Z.eqb_spec (13 + (fbn - 12)) 12); [lia|]. cbn [andb]. f_equal. lia. }
    destruct (ind_or_new_ok s1 (<[i := di1]> D) i di1 (fbn - 12)) as (s' & E & Hst & Hne); [apply Hst1|apply lookup_insert_eq|lia|done| |].
    { rewrite Hs13. intros E. apply Hz in E; [|lia]. rewrite Hfb1. destruct (Z.eqb_spec (mslot (img s) di 12) 0) as [E0|E0]; [apply Hz in E0; [|lia]|apply Hu in E0; [|lia]];
        unfold needs, nblk, fbn in *; repeat case_match; zlia. }
    rewrite (bind_ret _ _ _ _ _ E1). cbn [fst snd]. rewrite (bind_ret _ _ _ _ _ E). exists s', di1. replace (13 + (fbn - 12)) with (fbn + 1) in * by lia. split; [done|].
    assert (Hu' := uses_slotted _ _ _ _ _ _ _ (fun k => needs off k \/ k = 12) (needs (off + 1)) Hst ltac:(rewrite Hfb1; case_match; lia) ltac:(rewrite Hfb1; case_match; lia) ltac:(lia) Hu1).
    pose proof Hst as [S1 S2 S3 S4 S5 S6 S7 S8]. pose proof Hst1 as [T1 T2 T3 T4 T5 T6 T7 T8]. split; [split|].
    + by rewrite insert_insert_eq in S1.
    + refine (Hu' _). intros k' Hk'. unfold needs, fbn in *. destruct (Z.leb_spec k' 12); zlia.
    + rewrite S3, Hs13, T3, nblk_step by lia. destruct (Z.eqb_spec (mslot (img s) di 12) 0) as [E0|E0]; [apply Hz in E0; [|lia]|apply Hu in E0; [|lia]];
        (destruct (Z.eqb_spec (mslot (img s) di (fbn + 1)) 0) as [E0'|E0']; [apply Hz in E0'; [|lia]|apply Hu in E0'; [|lia]]);
        unfold needs in E0, E0'; (destruct (Z.leb_spec (fbn + 1) 12); [lia|]); cbn [Z.leb Z.compare Pos.compare Pos.compare_cont] in E0;
        destruct (Z.eqb_spec (off mod 512) 0), (Z.eqb_spec off 6144); unfold fbn in *; zlia.
    + eapply kept_trans; [done|]. by eapply kept_insert.
    + done.
    + intros b Hb. by rewrite S7, T7.
    + destruct S8, T8. split; congruence.
    + intros n Hn. by rewrite S4, T4.
Qed.
(** Writing a block of the file. *)
Lemma write_block m fb D i di n d : laid m fb D -> D !! i = Some di -> 0 <= n < MAXFILE -> mslot m di (slot_of n) <> 0 -> length d = 512%nat ->
  let m' := <[mslot m di (slot_of n) := d]> m in
  laid m' fb D /\ (forall k, mslot m' di k = mslot m di k) /\ kept_files D i m m' /\
  (forall n', 0 <= n' < MAXFILE -> mblock m' di n' = if n' =? n then d else mblock m di n') /\ (forall b, b < nmeta -> m' !! b = m !! b).
Proof.
  intros H Hi Hn Hs Hl m'. destruct (slot_of_range n Hn) as [Hr Hr12]. pose proof (kept_set m fb D i di _ d H Hi Hr Hs) as Hk. fold m' in Hk.
  pose proof (la_slot _ _ _ H i di _ Hi Hr Hs) as Hx. pose proof (la_fb _ _ _ H) as Hm. change nmeta with 59 in *.
  assert (Hsl : forall k, mslot m' di k = mslot m di k).
  { intros k. apply mslot_keep. intros H12. apply lookup_insert_ne, not_eq_sym. apply (apart m fb D i di (slot_of n) i di 12); try done. by right. }
  assert (Hany : forall j dj k, D !! j = Some dj -> 0 <= k <= 140 -> mslot m' dj k = mslot m dj k).
  { intros j dj k Hj Hk'. destruct (decide (j = i)) as [->|Hne]; [|by apply (Hk j dj Hne Hj)]. rewrite Hi in Hj. injection Hj as <-. apply Hsl. }
  split_and!; [|done|done| |].
  - split; change nmeta with 59 in *.
    + intros b Hb. unfold m'. destruct (decide (mslot m di (slot_of n) = b)) as [->|]; [rewrite lookup_insert_eq; eauto|]. rewrite lookup_insert_ne by done. by apply H.
    + intros b Hb. unfold m'. rewrite lookup_insert_ne by lia. by apply H.
    + done.
    + apply H.
    + intros j dj k Hj Hk'. rewrite (Hany j) by done. by apply (la_slot _ _ _ H j).
    + intros j dj l dl k k' Hj Hl' K1 K2. rewrite (Hany j dj), (Hany l dl) by done. by apply (la_inj _ _ _ H).
  - intros n' Hn'. rewrite !mblock_eq, Hsl. destruct (Z.eqb_spec n' n) as [->|Hne]; [apply Z.eqb_neq in Hs; rewrite Hs; unfold m'; by rewrite lookup_insert_eq|].
    destruct (slot_of_range n' Hn') as [Hr' _]. unfold m'. rewrite lookup_insert_ne; [done|]. apply not_eq_sym. apply (apart m fb D i di (slot_of n) i di); try done. right. intros E. apply Hne. by apply slot_of_inj.
  - intros b Hb. apply lookup_insert_ne. lia.
Qed.

Lemma mblock_length m fb D i di n : laid m fb D -> D !! i = Some di -> 0 <= n < MAXFILE -> length (mblock m di n) = 512%nat.
Proof.
  intros H Hi Hn. rewrite mblock_eq. destruct (Z.eqb_spec (mslot m di (slot_of n)) 0) as [|Hne]; [done|]. destruct (slot_of_range n Hn) as [Hr _].
  pose proof (la_slot _ _ _ H i di _ Hi Hr Hne). pose proof (la_fb _ _ _ H). change nmeta with 59 in *. unfold FSSIZE in *.
  destruct (la_blocks _ _ _ H (mslot m di (slot_of n))) as (d & -> & Hl); [unfold FSSIZE; lia|done].
Qed.

(** The bytes after [src] was put behind the end. *)
Lemma reads_append m m' di di' c src off : off = Z.of_nat (length c) -> 0 <= off < MAXFILE * 512 -> Z.of_nat (length src) <= 512 - off mod 512 ->
  reads_as m di c -> (forall n, 0 <= n < MAXFILE -> length (mblock m di n) = 512%nat) ->
  (forall n, 0 <= n < MAXFILE -> mblock m' di' n = if n =? off / 512 then list_inserts (Z.to_nat (off mod 512)) src (mblock m di n) else mblock m di n) ->
  reads_as m' di' (c ++ src).
Proof.
  intros Eo Ho Hsrc Hr Hl Hb n Hn. unfold MAXFILE in *. unfold fbyte. rewrite Hb by zlia. specialize (Hr n Hn). unfold fbyte in Hr.
  destruct (Z.eqb_spec (n / 512) (off / 512)) as [E|E].
  - specialize (Hl (n / 512) ltac:(zlia)). destruct (decide (off <= n < off + Z.of_nat (length src))) as [Hin|Hout].
    + rewrite lookup_app_r by lia. destruct (lookup_lt_is_Some_2 src (Z.to_nat n - length c)) as [x Hx]; [lia|]. rewrite Hx.
      rewrite list_lookup_inserts by zlia. replace (Z.to_nat (n mod 512) - Z.to_nat (off mod 512))%nat with (Z.to_nat n - length c)%nat by zlia. by rewrite Hx.
    + assert (E' : list_inserts (Z.to_nat (off mod 512)) src (mblock m di (n / 512)) !! Z.to_nat (n mod 512) = mblock m di (n / 512) !! Z.to_nat (n mod 512)).
      { destruct (Z.lt_ge_cases n off); [apply list_lookup_inserts_lt|apply list_lookup_inserts_ge]; zlia. }
      rewrite E', Hr. destruct (Z.lt_ge_cases n off); [by rewrite lookup_app_l by lia|]. rewrite !lookup_ge_None_2; [done|rewrite length_app; lia|lia].
  - rewrite Hr. destruct (Z.lt_ge_cases n off); [by rewrite lookup_app_l by lia|]. rewrite !lookup_ge_None_2; [done|rewrite length_app; zlia|lia].
Qed.

Lemma needs_same off n k : 0 <= off -> 1 <= n <= 512 - off mod 512 -> needs (off + n) k <-> needs (off + 1) k.
Proof. intros Ho Hn. unfold needs. zlia. Qed.

Lemma nblk_same off n : 0 <= off -> 1 <= n <= 512 - off mod 512 -> nblk (off + n) = nblk (off + 1).
Proof. intros Ho Hn. unfold nblk. replace ((off + n + 511) / 512) with ((off + 1 + 511) / 512) by zlia. done. Qed.

Lemma nblk_mono a b : a <= b -> nblk a <= nblk b.
Proof. intros H. unfold nblk. repeat case_match; zlia. Qed.
(** One turn of the loop: the bytes [src] go behind the end, in one block. *)
Lemma append_chunk s D i di c src : let off := Z.of_nat (length c) in
  laid (img s) (freeblock s) D -> D !! i = Some di -> off < MAXFILE * 512 -> 1 <= Z.of_nat (length src) <= 512 - off mod 512 ->
  uses (img s) di off -> reads_as (img s) di c -> freeblock s + (nblk (off + Z.of_nat (length src)) - nblk off) <= FSSIZE ->
  exists s1 di1 x buf, block_for seeks writes di (off / 512) s = Ret (di1, x) s1 /\ img s1 !! x = Some buf /\
    let s' := s1 <| img ::= <[x := list_inserts (Z.to_nat (off mod 512)) src buf]> |> in
    sized s D i di off s' di1 (off + Z.of_nat (length src)) /\ reads_as (img s') di1 (c ++ src).
Proof using io_seeks io_writes.
  intros off H Hi Ho Hsrc Hu Hr Hcap. assert (Ho0 : 0 <= off < MAXFILE * 512) by lia. rewrite (nblk_same off) in Hcap by lia.
  destruct (block_for_ok s D i di off H Hi Ho0 Hu Hcap) as (s1 & di1 & E & Hsz & Hbl). set (fbn := off / 512) in *. assert (Hf : 0 <= fbn < MAXFILE) by (unfold fbn, MAXFILE in *; zlia).
  destruct (slot_of_range fbn Hf) as [Hsr _].
  assert (Hne : mslot (img s1) di1 (slot_of fbn) <> 0).
  { apply (sz_uses _ _ _ _ _ _ _ _ Hsz); [done|]. unfold needs, slot_of, fbn, NDIRECT. destruct (Z.ltb_spec (off / 512) 12); case_match; zlia. }
  pose proof (sz_laid _ _ _ _ _ _ _ _ Hsz) as H1. pose proof (mblock_length _ _ _ i di1 fbn H1 (lookup_insert_eq _ _ _) Hf) as Hlb.
  assert (Hbuf : img s1 !! mslot (img s1) di1 (slot_of fbn) = Some (mblock (img s1) di1 fbn)).
  { rewrite mblock_eq. apply Z.eqb_neq in Hne. rewrite Hne. rewrite mblock_eq, Hne in Hlb. destruct (img s1 !! _); [done|by cbn in Hlb]. }
  exists s1, di1, (mslot (img s1) di1 (slot_of fbn)), (mblock (img s1) di1 fbn). split; [exact E|]. split; [exact Hbuf|]. cbv zeta. set (d := list_inserts _ _ _).
  destruct (write_block _ _ _ i di1 fbn d H1 (lookup_insert_eq _ _ _) Hf Hne ltac:(unfold d; by rewrite length_inserts)) as (W1 & W2 & W3 & W4 & W5).
  match goal with |- sized _ _ _ _ _ ?x _ _ /\ _ => set (s2 := x) end. change (<[mslot (img s1) di1 (slot_of fbn) := d]> (img s1)) with (img s2) in *.
  destruct Hsz as [S1 S2 S3 S4 S5 S6 S7]. split.
  - split; [exact W1| | |eapply kept_trans; [exact S4|by eapply kept_insert]|exact S5| |exact S7].
    + intros k Hk. rewrite W2, (S2 k Hk). symmetry. apply needs_same; lia.
    + change (freeblock s2) with (freeblock s1). rewrite S3, (nblk_same off (Z.of_nat (length src))) by lia. done.
    + intros b Hb. by rewrite W5, S6.
  - eapply (reads_append (img s) _ di _ c src off); try done; [lia| |].
    + intros n Hn. by apply (mblock_length _ _ _ i di n H Hi).
    + intros n Hn. rewrite W4 by done. unfold d. rewrite !Hbl by done. fold fbn. destruct (Z.eqb_spec n fbn) as [->|]; done.
Qed.

Lemma iappend_loop_ok fuel : forall s D i di c p, let off := Z.of_nat (length c) in (length p <= fuel)%nat ->
  laid (img s) (freeblock s) D -> D !! i = Some di -> off + Z.of_nat (length p) <= MAXFILE * 512 -> uses (img s) di off -> reads_as (img s) di c ->
  freeblock s + (nblk (off + Z.of_nat (length p)) - nblk off) <= FSSIZE ->
  exists s' di', iappend_loop seeks writes fuel di off p s = Ret (di', off + Z.of_nat (length p)) s' /\
    sized s D i di off s' di' (off + Z.of_nat (length p)) /\ reads_as (img s') di' (c ++ p).
Proof using io_seeks io_writes.
  induction fuel as [|fuel IH]; intros s D i di c p off Hlen H Hi Ho Hu Hr Hcap; (destruct p as [|b p]; [|]).
  1,3: exists s, di; cbn [length]; rewrite Z.add_0_r, app_nil_r; split; [done|split; [|done]]; split; try done; [by rewrite insert_id|lia|exists (d_addrs di); by destruct di].
  { cbn in Hlen. lia. }
  set (q := b :: p) in *. assert (Hq : (1 <= length q)%nat) by (unfold q; cbn; lia). set (n1 := Z.min (Z.of_nat (length q)) ((off / 512 + 1) * 512 - off)).
  assert (Hn1 : 1 <= n1 <= 512 - off mod 512 /\ n1 <= Z.of_nat (length q)) by (unfold n1; zlia).
  assert (Hlt : Z.of_nat (length (take (Z.to_nat n1) q)) = n1) by (rewrite length_take; lia). assert (Hld : Z.of_nat (length (drop (Z.to_nat n1) q)) = Z.of_nat (length q) - n1) by (rewrite length_drop; lia).
  destruct (append_chunk s D i di c (take (Z.to_nat n1) q)) as (s1 & di1 & x & buf & Eb & Ebuf & Hsz & Hr'); try done; fold off; rewrite ?Hlt.
  1,2: unfold MAXFILE in *; lia.
  { pose proof (nblk_mono (off + n1) (off + Z.of_nat (length q)) ltac:(lia)). lia. }
  fold off in Eb, Hsz. rewrite Hlt in Hsz. match type of Hsz with sized _ _ _ _ _ ?x _ _ => set (s2 := x) in * end.
  unfold q at 1. cbn [iappend_loop]. fold q. change (Z.of_nat BSIZE) with 512. cbv zeta. fold n1. unfold MAXFILE in Ho |- *. destruct (Z.ltb_spec (off / 512) 140); [|exfalso; zlia]. cbn [negb].
  rewrite (bind_ret _ _ _ _ _ Eb). cbn [fst snd]. rewrite (bind_ret _ _ _ _ _ (rsect_ok s1 _ _ Ebuf)), (bind_ret _ _ _ _ _ (wsect_ok _ _ _)).
  replace (off - off / 512 * 512) with (off mod 512) by zlia. fold s2. rewrite u32_small by lia.
  assert (Ec : Z.of_nat (length (c ++ take (Z.to_nat n1) q)) = off + n1) by (rewrite length_app; lia).
  destruct (IH s2 (<[i := di1]> D) i di1 (c ++ take (Z.to_nat n1) q) (drop (Z.to_nat n1) q)) as (s' & di' & E & Hsz' & Hr2); rewrite ?Ec, ?Hld in *.
  - lia.
  - apply Hsz.
  - apply lookup_insert_eq.
  - unfold MAXFILE. lia.
  - apply Hsz.
  - done.
  - rewrite (sz_fb _ _ _ _ _ _ _ _ Hsz). replace (off + n1 + (Z.of_nat (length q) - n1)) with (off + Z.of_nat (length q)) by lia. lia.
  - replace (off + n1 + (Z.of_nat (length q) - n1)) with (off + Z.of_nat (length q)) in * by lia. exists s', di'. split; [exact E|]. split; [by eapply sized_trans|].
    by rewrite <- app_assoc, take_drop in Hr2.
Qed.
(** ** Inodes *)

Definition on_disk (m : gmap Z block) (i : Z) (di : dinode) : Prop :=
  exists d, m !! IBLOCK i the_sb = Some d /\ get_dinode d (dip i) = Some di.

Lemma IBLOCK_sb i : 0 <= i < NINODES -> IBLOCK i the_sb = i / 8 + 32.
Proof. intros Hi. unfold IBLOCK, IPB, NINODES in *. change (sb_inodestart the_sb) with 32. apply u32_small. zlia. Qed.

(** A block before the data changes nothing of the files. *)
Lemma laid_meta m fb D b d : laid m fb D -> 0 <= b < nmeta -> length d = 512%nat ->
  let m' := <[b := d]> m in
  laid m' fb D /\ forall i di, D !! i = Some di -> (forall k, 0 <= k <= 140 -> mslot m' di k = mslot m di k) /\ (forall n, 0 <= n < MAXFILE -> mblock m' di n = mblock m di n).
Proof.
  intros H Hb Hl m'. pose proof (la_fb _ _ _ H) as Hm. change nmeta with 59 in *.
  assert (Hlook : forall i di k, D !! i = Some di -> 0 <= k <= 140 -> mslot m di k <> 0 -> m' !! mslot m di k = m !! mslot m di k).
  { intros i di k Hi Hk Hne. pose proof (la_slot _ _ _ H i di k Hi Hk Hne). change nmeta with 59 in *. apply lookup_insert_ne. lia. }
  assert (Hsl : forall i di k, D !! i = Some di -> mslot m' di k = mslot m di k) by (intros i di k Hi; apply mslot_keep, (Hlook i); [done|lia]).
  split.
  - split; change nmeta with 59 in *.
    + intros x Hx. unfold m'. destruct (decide (b = x)) as [->|]; [rewrite lookup_insert_eq; eauto|]. rewrite lookup_insert_ne by done. by apply H.
    + intros x Hx. unfold m'. rewrite lookup_insert_ne by lia. by apply H.
    + done.
    + apply H.
    + intros i di k Hi Hk. rewrite (Hsl i) by done. by apply (la_slot _ _ _ H i).
    + intros i di j dj k k' Hi Hj K1 K2. rewrite (Hsl i di), (Hsl j dj) by done. by apply (la_inj _ _ _ H).
  - intros i di Hi. split; [intros k _; by apply (Hsl i)|]. intros n Hn. rewrite !mblock_eq, (Hsl i) by done. destruct (Z.eqb_spec (mslot m di (slot_of n)) 0); [done|].
    by rewrite (Hlook i) by (done || by apply slot_of_range).
Qed.

(** The files look at the addresses of an inode only. *)
Lemma mslot_addrs m di di' k : d_addrs di' = d_addrs di -> mslot m di' k = mslot m di k.
Proof. intros E. by apply slot_same. Qed.

Lemma laid_addrs m fb D i di di' : laid m fb (<[i := di]> D) -> d_addrs di' = d_addrs di -> laid m fb (<[i := di']> D).
Proof.
  intros H E. assert (Hany : forall j dj, <[i := di']> D !! j = Some dj -> exists dj0, <[i := di]> D !! j = Some dj0 /\ d_addrs dj = d_addrs dj0).
  { intros j dj Hj. apply lookup_insert_Some in Hj as [[<- <-]|[Hne Hj]]; [exists di; by rewrite lookup_insert_eq|exists dj; by rewrite lookup_insert_ne]. }
  split; try apply H.
  - intros j dj Hj. destruct (Hany j dj Hj) as (dj0 & Hj0 & ->). by apply (la_len _ _ _ H j).
  - intros j dj k Hj. destruct (Hany j dj Hj) as (dj0 & Hj0 & Ej). rewrite (mslot_addrs m dj0 dj k Ej). by apply (la_slot _ _ _ H j).
  - intros j dj l dl k k' Hj Hl. destruct (Hany j dj Hj) as (dj0 & Hj0 & Ej), (Hany l dl Hl) as (dl0 & Hl0 & El).
    rewrite (mslot_addrs m dj0 dj k Ej), (mslot_addrs m dl0 dl k' El). by apply (la_inj _ _ _ H).
Qed.

Lemma uses_addrs m di di' len : d_addrs di' = d_addrs di -> uses m di len -> uses m di' len.
Proof. intros E H k Hk. rewrite (mslot_addrs m di di' k E). by apply H. Qed.

Lemma mblock_addrs m di di' n : d_addrs di' = d_addrs di -> mblock m di' n = mblock m di n.
Proof. intros E. by rewrite !mblock_eq, (mslot_addrs m di di'). Qed.

Lemma reads_blocks m m' di di' c : (forall n, 0 <= n < MAXFILE -> mblock m' di' n = mblock m di n) -> reads_as m di c -> reads_as m' di' c.
Proof. intros H Hr n Hn. rewrite <- (Hr n Hn). unfold fbyte. rewrite H; [done|]. unfold MAXFILE in *. zlia. Qed.

Lemma uses_slots m m' di len : (forall k, 0 <= k <= 140 -> mslot m' di k = mslot m di k) -> uses m di len -> uses m' di len.
Proof. intros H Hu k Hk. rewrite H by done. by apply Hu. Qed.

(** Writing an inode. *)
Lemma winode_ok s i di : msb s = the_sb -> 0 <= i < NINODES -> (forall b, 0 <= b < FSSIZE -> exists d, img s !! b = Some d /\ length d = 512%nat) -> dinode_ok di ->
  exists d, length d = 512%nat /\ winode seeks writes i di s = Ret tt (s <| img ::= <[IBLOCK i the_sb := d]> |>) /\
    on_disk (<[IBLOCK i the_sb := d]> (img s)) i di /\
    forall j dj, 0 <= j < NINODES -> j <> i -> on_disk (img s) j dj -> on_disk (<[IBLOCK i the_sb := d]> (img s)) j dj.
Proof using io_seeks io_writes.
  intros Hsb Hi Hb Hdi. destruct (Hb (IBLOCK i the_sb)) as (buf & Hbuf & Hl); [rewrite IBLOCK_sb by done; unfold NINODES, FSSIZE in *; zlia|].
  assert (Hp : forall j, (dip j + 64 <= 512)%nat) by (intros j; unfold dip, IPB; zlia).
  exists (put_dinode buf (dip i) di). split_and!; [by rewrite put_dinode_length| | |].
  - unfold winode. erewrite bind_ret; [|reflexivity]. rewrite Hsb. cbv zeta. rewrite (bind_ret _ _ _ _ _ (rsect_ok s _ _ Hbuf)). apply wsect_ok.
  - exists (put_dinode buf (dip i) di). rewrite lookup_insert_eq. split; [done|]. apply get_put_dinode; [done|]. rewrite Hl. apply Hp.
  - intros j dj Hj Hne (d & Hd & Hg). unfold on_disk. destruct (decide (IBLOCK i the_sb = IBLOCK j the_sb)) as [E|E]; [|rewrite lookup_insert_ne by done; eauto].
    rewrite E, lookup_insert_eq. eexists. split; [done|]. rewrite E, Hd in Hbuf. injection Hbuf as <-. rewrite <- Hg. apply get_dinode_agree, agree_dinode; [apply Hdi|].
    rewrite !IBLOCK_sb in E by done. unfold dip, IPB. zlia.
Qed.
End Io.
