(* ===== verification/MkfsImage.v ===== *)
(** * MkfsImage: the image that mkfs leaves

    The invariant of [main] over the list of the files that it has made, and what the
    kernel finds in the image. *)

From S2P Require Import Prelude Mem Sleeplock Log Fs FsAlloc FsFile FsInode FsDir Mkfs MkfsSpec.

(** ** The files so far

    [L] are the types and the contents of the inodes 1, 2, ... *)

Notation len c := (Z.of_nat (length c)).

Definition total (L : list (Z * list Z)) : Z := foldr (fun x a => nblk (len x.2) + a) 0 L.

Definition the_dinode (t : Z) (c : list Z) (addrs : list Z) : dinode := Dinode t 0 0 1 (len c) addrs.

(** Inode [i] on the disk is a file of type [t] and contents [c]. *)
Definition is_file (m : gmap Z block) (D : gmap Z dinode) (i t : Z) (c : list Z) : Prop := exists addrs,
  let di := the_dinode t c addrs in
  D !! i = Some di /\ on_disk m i di /\ uses m di (len c) /\ reads_as m di c.

Record built (s : mkfs) (L : list (Z * list Z)) (D : gmap Z dinode) : Prop := {
  bu_sb : msb s = the_sb;
  bu_laid : laid (img s) (freeblock s) D;
  bu_dom : forall i di, D !! i = Some di -> 1 <= i <= len L;
  bu_file : forall j t c, L !! j = Some (t, c) -> is_file (img s) D (1 + Z.of_nat j) t c;
  bu_ok : forall j t c, L !! j = Some (t, c) -> 1 <= t <= 3 /\ len c <= MAXFILE * 512;
  bu_next : freeinode s = 1 + len L /\ len L < NINODES;
  bu_fb : freeblock s = nmeta + total L;
  bu_one : img s !! 1 = Some (put_words (replicate BSIZE 0) 0 (sb_words the_sb))
}.

Lemma nblk_pos n : 0 <= n -> 0 <= nblk n.
Proof. intros H. unfold nblk. case_match; zlia. Qed.

Lemma total_cons x L : total (x :: L) = nblk (len x.2) + total L.
Proof. done. Qed.

Lemma total_pos L : 0 <= total L.
Proof. induction L as [|x L IH]; [done|]. rewrite total_cons. pose proof (nblk_pos (len x.2) ltac:(lia)). lia. Qed.

Lemma total_app L1 L2 : total (L1 ++ L2) = total L1 + total L2.
Proof. induction L1 as [|x L1 IH]; [done|]. cbn [app]. rewrite !total_cons, IH. lia. Qed.

Lemma total_insert L j t c c' : L !! j = Some (t, c) -> total (<[j := (t, c')]> L) = total L + (nblk (len c') - nblk (len c)).
Proof.
  revert j. induction L as [|x L IH]; intros [|j]; [done|done|intros [= ->]; cbn [insert list_insert]; rewrite !total_cons; cbn [snd]; lia|].
  intros Hj. change (<[S j := (t, c')]> (x :: L)) with (x :: <[j := (t, c')]> L). rewrite !total_cons, (IH j Hj). lia.
Qed.

Lemma addrs_u32 m fb D i di : laid m fb D -> D !! i = Some di -> Forall is_u32 (d_addrs di).
Proof.
  intros H Hi. apply Forall_lookup. intros k a Ha. pose proof (la_len _ _ _ H i di Hi) as Hl. pose proof (lookup_lt_Some _ _ _ Ha) as Hk.
  pose proof (slot_u32 _ _ _ i di (Z.of_nat k) H Hi ltac:(lia)) as Hu. rewrite mslot_lo, aget_nat, Ha in Hu by lia. done.
Qed.

Lemma dinode_fields t c addrs : 1 <= t <= 3 -> len c <= MAXFILE * 512 -> length addrs = 13%nat -> Forall is_u32 addrs -> dinode_ok (the_dinode t c addrs).
Proof. intros Ht Hc Hl Ha. unfold MAXFILE in *. split; cbn; try lia; try done. unfold is_u32. lia. Qed.

(** A file keeps its contents when its slots and blocks do not change. *)
Lemma is_file_keep m m' D D' i t c : is_file m D i t c -> (forall di, D !! i = Some di -> D' !! i = Some di /\ (on_disk m i di -> on_disk m' i di) /\
  (forall k, 0 <= k <= 140 -> mslot m' di k = mslot m di k) /\ (forall n, 0 <= n < MAXFILE -> mblock m' di n = mblock m di n)) -> is_file m' D' i t c.
Proof.
  intros (addrs & H1 & H2 & H3 & H4) Hk. destruct (Hk _ H1) as (K1 & K2 & K3 & K4). exists addrs. split_and!; [done|by apply K2|by eapply uses_slots|by eapply reads_blocks].
Qed.

Section Image.
Context (seeks writes : Z -> bool).
Hypothesis io_seeks : forall b, seeks b = true.
Hypothesis io_writes : forall b, writes b = true.

Lemma rinode_ok s i di : msb s = the_sb -> on_disk (img s) i di -> rinode seeks i s = Ret di s.
Proof using io_seeks.
  intros Hsb (d & Hd & Hg). unfold rinode. erewrite bind_ret; [|reflexivity]. rewrite Hsb, (bind_ret _ _ _ _ _ (rsect_ok seeks io_seeks s _ _ Hd)). by rewrite Hg.
Qed.

(** Storing the inode of a file that was made or that grew. *)
Lemma store_built s0 s L D L' D' i t c addrs : built s0 L D -> msb s = the_sb -> freeinode s = 1 + len L' -> len L' < NINODES -> freeblock s = nmeta + total L' ->
  img s !! 1 = img s0 !! 1 -> 1 <= t <= 3 -> len c <= MAXFILE * 512 -> 1 <= i <= len L' ->
  laid (img s) (freeblock s) (<[i := the_dinode t c addrs]> D) -> (forall j dj, 0 <= j < NINODES -> on_disk (img s0) j dj -> on_disk (img s) j dj) -> kept_files D i (img s0) (img s) ->
  uses (img s) (the_dinode t c addrs) (len c) -> reads_as (img s) (the_dinode t c addrs) c -> len L <= len L' ->
  (forall j x, L' !! j = Some x -> 1 + Z.of_nat j = i /\ x = (t, c) \/ 1 + Z.of_nat j <> i /\ L !! j = Some x) ->
  D' = <[i := the_dinode t c addrs]> D ->
  exists s', winode seeks writes i (the_dinode t c addrs) s = Ret tt s' /\ built s' L' D'.
Proof using io_seeks io_writes.
  intros Hb0 Hsb Hfi Hn Hfb Hone Ht Hc Hi Hlaid Hdisk Hkept Hu Hr HLL HL ->. set (di := the_dinode t c addrs) in *.
  assert (Hdi : dinode_ok di).
  { apply dinode_fields; [done|done|apply (la_len _ _ _ Hlaid i di (lookup_insert_eq _ _ _))|apply (addrs_u32 _ _ _ i di Hlaid (lookup_insert_eq _ _ _))]. }
  destruct (winode_ok seeks writes io_seeks io_writes s i di Hsb ltac:(lia) (la_blocks _ _ _ Hlaid) Hdi) as (d & Hl & E & Hw & Hwo).
  set (b := IBLOCK i the_sb) in *. assert (Hbm : 32 <= b < nmeta) by (change nmeta with 59; unfold b; rewrite IBLOCK_sb by lia; unfold NINODES in *; zlia).
  destruct (laid_meta _ _ _ b d Hlaid ltac:(lia) Hl) as [Hlaid' Hk']. match type of E with _ = Ret _ ?x => set (s' := x) in * end. exists s'. split; [exact E|].
  change (<[b := d]> (img s)) with (img s') in *. split; try done.
  - intros l dl Hd. apply lookup_insert_Some in Hd as [[<- _]|[_ Hd]]; [done|]. pose proof (bu_dom _ _ _ Hb0 l dl Hd). lia.
  - intros j t' c' Hj. pose proof (lookup_lt_Some _ _ _ Hj) as Hjl. destruct (HL j _ Hj) as [[Ei [= -> ->]]|[Ei Hj0]].
    + rewrite Ei. exists addrs. fold di. destruct (Hk' i di (lookup_insert_eq _ _ _)) as [K1 K2].
      split_and!; [apply lookup_insert_eq|done|by eapply uses_slots|by eapply reads_blocks].
    + apply (is_file_keep (img s0) _ D); [by apply (bu_file _ _ _ Hb0)|]. intros dj Hdj. destruct (Hkept (1 + Z.of_nat j) dj Ei Hdj) as [A1 A2].
      destruct (Hk' (1 + Z.of_nat j) dj) as [K1 K2]; [by rewrite lookup_insert_ne by lia|]. split; [by rewrite lookup_insert_ne by lia|].
      split; [intros Ho; apply Hwo; [lia|lia|apply Hdisk; [lia|done]]|]. split; [intros k Hk; by rewrite K1, A1|intros n Hn'; by rewrite K2, A2].
  - intros j t' c' Hj. destruct (HL j _ Hj) as [[_ [= -> ->]]|[_ Hj0]]; [done|]. by apply (bu_ok _ _ _ Hb0 j).
  - unfold s'. cbn [img setf]. rewrite <- (bu_one _ _ _ Hb0), <- Hone. apply lookup_insert_ne. lia.
Qed.

Lemma iappend_ok s L D j t c p : built s L D -> L !! j = Some (t, c) -> len c + len p <= MAXFILE * 512 ->
  nmeta + total (<[j := (t, c ++ p)]> L) <= FSSIZE ->
  exists s' D', iappend seeks writes (1 + Z.of_nat j) p s = Ret tt s' /\ built s' (<[j := (t, c ++ p)]> L) D'.
Proof using io_seeks io_writes.
  intros Hb Hj Hc Hcap. rewrite (total_insert L j t c _ Hj), length_app, Nat2Z.inj_add in Hcap. set (i := 1 + Z.of_nat j). pose proof (lookup_lt_Some _ _ _ Hj) as Hjl.
  destruct (bu_file _ _ _ Hb j t c Hj) as (addrs & HD & Hod & Hu & Hr). set (di := the_dinode t c addrs) in *. fold i in HD, Hod. destruct (bu_ok _ _ _ Hb j t c Hj) as [Ht Hc0].
  unfold iappend. rewrite (bind_ret _ _ _ _ _ (rinode_ok s i di (bu_sb _ _ _ Hb) Hod)). change (d_size di) with (len c). rewrite xint_u32 by (unfold MAXFILE in *; lia).
  destruct (iappend_loop_ok seeks writes io_seeks io_writes (length p) s D i di c p) as (s1 & di1 & E & Hsz & Hr1); try done; [apply Hb|rewrite (bu_fb _ _ _ Hb); lia|].
  rewrite (bind_ret _ _ _ _ _ E). cbn [fst snd]. rewrite xint_u32 by (unfold MAXFILE in *; lia). destruct Hsz as [S1 S2 S3 S4 [l ->] S6 [S7 S8]].
  pose proof Hb as [B1 B2 B3 B4 B5 [B6 B6'] B7 B8]. set (di2 := the_dinode t (c ++ p) l). match goal with |- context [winode seeks writes i ?x] => replace x with di2 by (unfold di2, the_dinode; by rewrite length_app, Nat2Z.inj_add) end.
  destruct (store_built s s1 L D (<[j := (t, c ++ p)]> L) (<[i := di2]> D) i t (c ++ p) l) as (s' & E' & Hb'); rewrite ?length_insert; try done; try lia.
  - congruence.
  - rewrite S3, B7, (total_insert L j t c _ Hj), length_app, Nat2Z.inj_add. lia.
  - apply S6. done.
  - by rewrite length_app, Nat2Z.inj_add.
  - by eapply laid_addrs.
  - intros a da Ha (d & Hd & Hg). exists d. split; [|done]. rewrite S6; [done|]. rewrite IBLOCK_sb by done. change nmeta with 59. unfold NINODES in *. zlia.
  - eapply uses_addrs; [|rewrite length_app, Nat2Z.inj_add; exact S2]. done.
  - intros a x Ha. destruct (decide (a = j)) as [->|Hne]; [rewrite list_lookup_insert_eq in Ha by done; left; split; [done|congruence]|].
    rewrite list_lookup_insert_ne in Ha by done. right. split; [unfold i; lia|done].
  - exists s', (<[i := di2]> D). by split.
Qed.
(** ** A new inode *)

Lemma fresh_slot m di k : d_addrs di = replicate 13 0 -> mslot m di k = 0.
Proof using.
  intros E. assert (Hlo : forall k, k <= 12 -> mslot m di k = 0).
  { intros k' Hk. rewrite mslot_lo, E by done. unfold aget. destruct (0 <=? k'); [|done]. destruct (replicate 13 0 !! Z.to_nat k') eqn:Ek; [|done]. by apply lookup_replicate in Ek as [-> _]. }
  destruct (Z.le_gt_cases k 12); [by apply Hlo|]. rewrite mslot_hi by done. by rewrite Hlo.
Qed.

Lemma laid_fresh m fb D i di : laid m fb D -> d_addrs di = replicate 13 0 -> laid m fb (<[i := di]> D).
Proof using.
  intros H E. split; try apply H.
  - intros j dj Hj. apply lookup_insert_Some in Hj as [[<- <-]|[_ Hj]]; [by rewrite E|by apply (la_len _ _ _ H j)].
  - intros j dj k Hj Hk Hne. apply lookup_insert_Some in Hj as [[<- <-]|[_ Hj]]; [by rewrite fresh_slot in Hne|by apply (la_slot _ _ _ H j)].
  - intros j dj l dl k k' Hj Hl K1 K2 Hne Heq. apply lookup_insert_Some in Hj as [[<- <-]|[Hij Hj]]; [by rewrite fresh_slot in Hne|].
    apply lookup_insert_Some in Hl as [[<- <-]|[_ Hl]]; [rewrite (fresh_slot m di) in Heq by done; congruence|by apply (la_inj _ _ _ H j dj l dl)].
Qed.

Lemma ialloc_ok s L D t : built s L D -> len L < NINODES - 1 -> 1 <= t <= 3 ->
  exists s' D', ialloc seeks writes t s = Ret (1 + len L) s' /\ built s' (L ++ [(t, [])]) D'.
Proof using io_seeks io_writes.
  intros Hb Hn Ht. pose proof Hb as [B1 B2 B3 B4 B5 [B6 B6'] B7 B8]. unfold ialloc. erewrite bind_ret; [|reflexivity]. erewrite bind_ret; [|reflexivity]. rewrite B6.
  rewrite xshort_u16 by lia. replace (s16 t) with t by (unfold s16; zlia). change (xshort 1) with 1. change (xint 0) with 0.
  match goal with |- context [(winode _ _ _ _ ≫= _) ?x] => set (s1 := x) end. set (i := 1 + len L) in *. set (di := Dinode t 0 0 1 0 (replicate 13 0)).
  assert (Hnew : D !! i = None) by (destruct (D !! i) as [dj|] eqn:E; [pose proof (B3 i dj E); unfold i in *; lia|done]).
  assert (Hz : forall k, mslot (img s1) di k = 0) by (intros k; by apply fresh_slot).
  destruct (store_built s s1 L D (L ++ [(t, [])]) (<[i := di]> D) i t [] (replicate 13 0)) as (s' & E & Hb'); rewrite ?length_app; cbn [length]; unfold NINODES, MAXFILE in *; try done; try lia.
  - change (freeinode s1) with (u32 (i + 1)). rewrite u32_small by (unfold i; lia). unfold i. lia.
  - change (freeblock s1) with (freeblock s). rewrite total_app, B7. change (total [(t, [])]) with 0. lia.
  - by apply laid_fresh.
  - change (uses (img s1) di 0). intros k Hk. rewrite Hz. split; [done|]. unfold needs. case_match; lia.
  - change (reads_as (img s1) di []). intros n Hn'. unfold fbyte. rewrite mblock_eq, Hz, Z.eqb_refl, lookup_replicate_2 by zlia. done.
  - intros j x Hj. destruct (decide (j = length L)) as [->|Hne].
    + left. split; [done|]. rewrite lookup_app_r, Nat.sub_diag in Hj by lia. by injection Hj.
    + right. split; [unfold i; lia|]. assert (j < length L)%nat by (apply lookup_lt_Some in Hj; rewrite length_app in Hj; cbn in Hj; lia). by rewrite lookup_app_l in Hj by lia.
  - exists s', (<[i := di]> D). split; [|done]. change (Dinode t 0 0 1 0 (replicate 13 0)) with (the_dinode t [] (replicate 13 0)). by rewrite (bind_ret _ _ _ _ _ E).
Qed.

(** ** The empty image *)

Lemma zero_sectors l : forall s, for_each l (fun i => wsect seeks writes i (replicate BSIZE 0)) s =
  Ret tt (s <| img ::= fun m => foldl (fun m i => <[i := replicate BSIZE 0]> m) m l |>).
Proof using io_seeks io_writes.
  induction l as [|i l IH]; intros s; [by destruct s|]. cbn [for_each]. rewrite (bind_ret _ _ _ _ _ (wsect_ok seeks writes io_seeks io_writes _ _ _)), IH. done.
Qed.

Lemma zero_img l : forall (m : gmap Z block) b, foldl (fun m i => <[i := replicate BSIZE 0]> m) m l !! b = if decide (b ∈ l) then Some (replicate BSIZE 0) else m !! b.
Proof using.
  induction l as [|i l IH]; intros m b; [done|]. cbn [foldl]. rewrite IH. destruct (decide (b ∈ l)) as [Hin|Hin].
  - rewrite decide_True; [done|]. by apply list_elem_of_further.
  - destruct (decide (b = i)) as [->|Hne]; [rewrite decide_True by apply list_elem_of_here; apply lookup_insert_eq|].
    rewrite decide_False by (rewrite elem_of_cons; tauto). by apply lookup_insert_ne.
Qed.
(** ** The files of the arguments *)

Definition content (a : arg) : list Z := match a_reads a with Some reads => concat reads | None => [] end.

(** The root directory. *)
Definition dir_bytes (files : list arg) : list Z :=
  dirent 1 [46] ++ dirent 1 [46; 46] ++ concat (imap (fun j a => dirent (2 + Z.of_nat j) (skip_underscore (a_name a))) files).

Definition image_files (files : list arg) : list (Z * list Z) := (T_DIR, dir_bytes files) :: ((fun a => (T_FILE, content a)) <$> files).

(** An argument that names a file that is there and not too long. *)
Record good_arg (a : arg) : Prop := {
  ga_name : existsb (Z.eqb SLASH) (a_name a) = false;
  ga_reads : is_Some (a_reads a);
  ga_len : len (content a) <= MAXFILE * 512
}.

Lemma dirent_length i n : length (dirent i n) = 16%nat.
Proof using. unfold dirent. cbv zeta. rewrite length_app, strncpy_name_length. done. Qed.

Lemma dir_bytes_snoc files a : dir_bytes (files ++ [a]) = dir_bytes files ++ dirent (2 + len files) (skip_underscore (a_name a)).
Proof using. unfold dir_bytes. rewrite imap_app, concat_app, <- !app_assoc. cbn [imap concat]. by rewrite Nat.add_0_r, app_nil_r. Qed.

Lemma dir_bytes_length files : length (dir_bytes files) = (16 * (2 + length files))%nat.
Proof using.
  induction files as [|a files IH] using rev_ind; [unfold dir_bytes; rewrite !length_app, !dirent_length; done|].
  rewrite dir_bytes_snoc, !length_app, dirent_length, IH. cbn [length]. lia.
Qed.

Lemma image_snoc files a : image_files (files ++ [a]) = <[0%nat := (T_DIR, dir_bytes (files ++ [a]))]> (image_files files) ++ [(T_FILE, content a)].
Proof using. unfold image_files. by rewrite fmap_app. Qed.

Lemma image_length files : length (image_files files) = S (length files).
Proof using. unfold image_files. cbn [length]. by rewrite length_fmap. Qed.

Lemma image_total files : total (image_files files) = nblk (len (dir_bytes files)) + total ((fun a => (T_FILE, content a)) <$> files).
Proof using. done. Qed.

Lemma image_total_app files files' : total (image_files files) <= total (image_files (files ++ files')).
Proof using.
  rewrite !image_total, fmap_app, total_app. pose proof (total_pos ((fun a => (T_FILE, content a)) <$> files')).
  pose proof (nblk_mono (len (dir_bytes files)) (len (dir_bytes (files ++ files')))). rewrite !dir_bytes_length, length_app in *. lia.
Qed.

(** The loop that copies a file. *)
Lemma copy_ok reads : forall s L D j t c, built s L D -> L !! j = Some (t, c) -> len c + len (concat reads) <= MAXFILE * 512 ->
  nmeta + total (<[j := (t, c ++ concat reads)]> L) <= FSSIZE ->
  exists s' D', for_each reads (iappend seeks writes (1 + Z.of_nat j)) s = Ret tt s' /\ built s' (<[j := (t, c ++ concat reads)]> L) D'.
Proof using io_seeks io_writes.
  induction reads as [|r reads IH]; intros s L D j t c Hb Hj Hlen Hcap; cbn [concat] in *.
  { exists s, D. rewrite app_nil_r, list_insert_id by done. by split. }
  rewrite length_app in Hlen. rewrite (total_insert L j t c _ Hj), !length_app in Hcap. pose proof (lookup_lt_Some _ _ _ Hj) as Hjl.
  destruct (iappend_ok s L D j t c r Hb Hj ltac:(lia)) as (s1 & D1 & E1 & Hb1).
  { rewrite (total_insert L j t c _ Hj), length_app. pose proof (nblk_mono (len c + len r) (len c + (len r + len (concat reads))) ltac:(lia)). rewrite !Nat2Z.inj_add in Hcap. rewrite Nat2Z.inj_add. lia. }
  cbn [for_each]. rewrite (bind_ret _ _ _ _ _ E1). destruct (IH s1 _ D1 j t (c ++ r) Hb1) as (s' & D' & E & Hb').
  - by apply list_lookup_insert_eq.
  - rewrite length_app. lia.
  - rewrite list_insert_insert_eq, <- app_assoc, (total_insert L j t c _ Hj), !length_app. lia.
  - exists s', D'. rewrite list_insert_insert_eq, <- app_assoc in Hb'. by split.
Qed.

Lemma add_file_ok s D files a : built s (image_files files) D -> good_arg a -> len files + 2 < NINODES -> total (image_files (files ++ [a])) <= nblocks ->
  exists s' D', add_file seeks writes ROOTINO a s = Ret tt s' /\ built s' (image_files (files ++ [a])) D'.
Proof using io_seeks io_writes.
  intros Hb [Hn [reads Hr] Hl] Hf Hcap. unfold content in Hl. unfold nblocks in Hcap. unfold add_file. rewrite Hn, Hr in *.
  assert (HF : len (image_files files) = 1 + len files) by (rewrite image_length; lia).
  destruct (ialloc_ok s _ D T_FILE Hb) as (s1 & D1 & E1 & Hb1); [lia|unfold T_FILE; lia|]. rewrite (bind_ret _ _ _ _ _ E1), HF. clear E1.
  set (ent := dirent (1 + (1 + len files)) (skip_underscore (a_name a))).
  set (L1 := image_files files ++ [(T_FILE, [])]) in *. assert (H0 : L1 !! 0%nat = Some (T_DIR, dir_bytes files)) by done.
  assert (Ed : dir_bytes files ++ ent = dir_bytes (files ++ [a])) by (rewrite dir_bytes_snoc; unfold ent; do 2 f_equal; lia).
  assert (Hdl : len (dir_bytes (files ++ [a])) = 16 * (3 + len files)) by (rewrite dir_bytes_length, length_app; cbn; lia).
  assert (HT : total (image_files (files ++ [a])) = total (<[0%nat := (T_DIR, dir_bytes files ++ ent)]> L1) + nblk (len (concat reads))).
  { rewrite image_snoc, Ed. unfold L1. rewrite insert_app_l, !total_app by (rewrite image_length; lia). unfold content. rewrite Hr, !(total_cons (T_FILE, _)). cbn [snd length]. change (total []) with 0. change (nblk (Z.of_nat 0)) with 0. lia. }
  pose proof (nblk_pos (len (concat reads)) ltac:(lia)) as Hp.
  destruct (iappend_ok s1 L1 D1 0 T_DIR (dir_bytes files) ent Hb1 H0) as (s2 & D2 & E2 & Hb2); [|lia|].
  { assert (Hx : len (dir_bytes files) + len ent = len (dir_bytes (files ++ [a]))) by (rewrite <- Ed, length_app; lia). unfold NINODES, MAXFILE in *. lia. }
  change (1 + Z.of_nat 0) with ROOTINO in E2. rewrite (bind_ret _ _ _ _ _ E2). clear E2. rewrite Ed in *.
  assert (HL2 : <[0%nat := (T_DIR, dir_bytes (files ++ [a]))]> L1 !! S (length files) = Some (T_FILE, [])).
  { rewrite list_lookup_insert_ne by done. unfold L1. rewrite lookup_app_r by (rewrite image_length; lia). by rewrite image_length, Nat.sub_diag. }
  assert (Efin : <[S (length files) := (T_FILE, [] ++ concat reads)]> (<[0%nat := (T_DIR, dir_bytes (files ++ [a]))]> L1) = image_files (files ++ [a])).
  { rewrite image_snoc. unfold L1. rewrite insert_app_l by (rewrite image_length; lia). rewrite insert_app_r_alt by (rewrite length_insert, image_length; lia).
    rewrite length_insert, image_length, Nat.sub_diag. unfold content. by rewrite Hr. }
  destruct (copy_ok reads s2 _ D2 (S (length files)) T_FILE [] Hb2 HL2) as (s3 & D3 & E3 & Hb3); [cbn [length]; lia|rewrite Efin; lia|].
  exists s3, D3. rewrite Efin in Hb3. split; [|done]. rewrite <- E3. do 3 f_equal. lia.
Qed.

Lemma add_files_ok files : forall s D before, built s (image_files before) D -> Forall good_arg files -> len before + len files + 1 < NINODES ->
  total (image_files (before ++ files)) <= nblocks ->
  exists s' D', for_each files (add_file seeks writes ROOTINO) s = Ret tt s' /\ built s' (image_files (before ++ files)) D'.
Proof using io_seeks io_writes.
  induction files as [|a files IH]; intros s D before Hb Hg Hn Hcap; [exists s, D; rewrite app_nil_r; by split|]. apply Forall_cons in Hg as [Ha Hg]. cbn [length] in Hn.
  assert (Ea : before ++ a :: files = (before ++ [a]) ++ files) by (by rewrite <- app_assoc). rewrite Ea in *.
  destruct (add_file_ok s D before a Hb Ha ltac:(lia)) as (s1 & D1 & E1 & Hb1); [pose proof (image_total_app (before ++ [a]) files); lia|].
  cbn [for_each]. rewrite (bind_ret _ _ _ _ _ E1). apply (IH s1 D1); [done|done| |done]. rewrite length_app. cbn [length]. lia.
Qed.
(** ** The free map *)

Notation mark := (fun buf i => aset buf (i / 8) (u8 (Z.lor (default 0 (aget buf (i / 8))) (Z.shiftl 1 (i mod 8))))).

Lemma bit_at_u8 d i v b : bit_at (aset d i (u8 v)) b = bit_at (aset d i v) b.
Proof using.
  unfold bit_at. destruct (decide (b / 8 = i)) as [->|Hne]; [|by rewrite !aget_aset_ne by done].
  destruct (decide (0 <= i < len d)) as [Hi|Hi]; [|unfold aget, aset; destruct (Z.leb_spec 0 i); [|done]; rewrite !list_insert_ge by lia; done].
  rewrite !aget_aset_eq by done. unfold u8. change 256 with (2 ^ 8). apply Z.mod_pow2_bits_low. zlia.
Qed.

Lemma mark_bits l : forall d, (forall i, i ∈ l -> 0 <= i / 8 < len d) -> length (foldl mark d l) = length d /\
  forall b, bit_at (foldl mark d l) b = bit_at d b || bool_decide (b ∈ l).
Proof using.
  induction l as [|i l IH]; intros d Hl; [split; [done|]; intros b; cbn; by rewrite orb_false_r|]. cbn [foldl].
  destruct (aget_is_Some d (i / 8)) as [c Hc]; [apply Hl, list_elem_of_here|]. rewrite Hc. change (default 0 (Some c)) with c.
  destruct (IH (aset d (i / 8) (u8 (Z.lor c (Z.shiftl 1 (i mod 8)))))) as [I1 I2]; [intros j Hj; rewrite aset_length; apply Hl; by apply list_elem_of_further|].
  split; [by rewrite I1, aset_length|]. intros b. rewrite I2, bit_at_u8. change (Z.shiftl 1 (i mod 8)) with (bit_mask i). rewrite (bit_at_set d i b c Hc), <- orb_assoc. f_equal.
  destruct (Z.eqb_spec b i) as [->|Hne]; cbn [orb]; [by rewrite bool_decide_true by apply list_elem_of_here|]. apply bool_decide_ext. rewrite elem_of_cons. tauto.
Qed.

(** What [main] leaves: the root directory with its size rounded up, the files, and a map of the blocks before [fb]. *)
Definition root_size (files : list arg) : Z := (len (dir_bytes files) / 512 + 1) * 512.

Record finished (m : gmap Z block) (fb : Z) (D : gmap Z dinode) (files : list arg) : Prop := {
  fi_laid : laid m fb D;
  fi_fb : fb = nmeta + total (image_files files);
  fi_one : m !! 1 = Some (put_words (replicate BSIZE 0) 0 (sb_words the_sb));
  fi_root : exists addrs, let di := Dinode T_DIR 0 0 1 (root_size files) addrs in
    D !! ROOTINO = Some di /\ on_disk m ROOTINO di /\ uses m di (len (dir_bytes files)) /\ reads_as m di (dir_bytes files);
  fi_file : forall j a, files !! j = Some a -> is_file m D (2 + Z.of_nat j) T_FILE (content a);
  fi_map : exists d, m !! sb_bmapstart the_sb = Some d /\ length d = 512%nat /\ forall b, 0 <= b < BPB -> bit_at d b = (b <? fb)
}.

(** The last two steps of [main]. *)
Lemma finish_ok s D files : built s (image_files files) D -> total (image_files files) <= nblocks ->
  exists s' D', (fix_root seeks writes ROOTINO;; fb ← gets freeblock; balloc seeks writes fb) s = Ret tt s' /\ finished (img s') (freeblock s') D' files.
Proof using io_seeks io_writes.
  intros Hb Hcap. unfold nblocks in Hcap. destruct (bu_file _ _ _ Hb 0 T_DIR (dir_bytes files) eq_refl) as (addrs & HD & Hod & Hu & Hr). destruct (bu_ok _ _ _ Hb 0 T_DIR (dir_bytes files) eq_refl) as [_ Hlen].
  pose proof Hb as [B1 B2 B3 B4 B5 [B6 B6'] B7 B8]. change (1 + Z.of_nat 0) with ROOTINO in HD, Hod. set (c := dir_bytes files) in *. rewrite image_length in *. unfold MAXFILE in Hlen.
  unfold fix_root. rewrite bind_assoc, (bind_ret _ _ _ _ _ (rinode_ok s _ _ B1 Hod)). change (d_size (the_dinode T_DIR c addrs)) with (len c). rewrite (xint_u32 (len c)) by lia. change (Z.of_nat BSIZE) with 512.
  cbv zeta. rewrite (u32_small (len c / 512 + 1)) by zlia. rewrite u32_small by zlia. rewrite xint_u32 by zlia. fold (root_size files).
  match goal with |- context [winode seeks writes ROOTINO ?x] => replace x with (Dinode T_DIR 0 0 1 (root_size files) addrs) by done end. set (di := Dinode T_DIR 0 0 1 (root_size files) addrs).
  assert (Hdi : dinode_ok di).
  { assert (Hrs : is_u32 (root_size files)) by (unfold is_u32, root_size; fold c; zlia). split; cbn -[root_size]; unfold T_DIR; try lia; [done|apply (la_len _ _ _ B2 _ _ HD)|apply (addrs_u32 _ _ _ _ _ B2 HD)]. }
  destruct (winode_ok seeks writes io_seeks io_writes s ROOTINO di B1 ltac:(unfold ROOTINO, NINODES; lia) (la_blocks _ _ _ B2) Hdi) as (d & Hl & E & Hw & Hwo).
  rewrite (bind_ret _ _ _ _ _ E). clear E. change (IBLOCK ROOTINO the_sb) with 32 in *. match goal with |- context [(gets freeblock ≫= _) ?x] => set (s1 := x) end.
  erewrite bind_ret; [|reflexivity]. unfold balloc. change (freeblock s1) with (freeblock s). change (Z.of_nat BSIZE * 8) with 4096. unfold FSSIZE in *. change nmeta with 59 in *.
  pose proof (total_pos (image_files files)). destruct (Z.ltb_spec (freeblock s) 4096); [|lia]. cbn [negb]. cbv zeta. erewrite bind_ret; [|reflexivity]. change (msb s1) with (msb s). rewrite B1, (wsect_ok seeks writes io_seeks io_writes).
  destruct (mark_bits (seqZ 0 (freeblock s)) (replicate BSIZE 0)) as [Hml Hmb]; [intros b Hbl; apply elem_of_seqZ in Hbl; rewrite length_replicate; unfold BSIZE; zlia|]. rewrite length_replicate in Hml. set (bm := foldl _ _ _) in *.
  match goal with |- exists s' D', Ret tt ?x = _ /\ _ => set (s2 := x) end. set (D' := <[ROOTINO := di]> D).
  assert (Hlaid1 : laid (img s) (freeblock s) D') by (apply (laid_addrs _ _ _ _ (the_dinode T_DIR c addrs)); [by rewrite insert_id|done]).
  destruct (laid_meta _ _ _ 32 d Hlaid1 ltac:(change nmeta with 59; lia) Hl) as [Hlaid2 K1]. change (<[32 := d]> (img s)) with (img s1) in *.
  destruct (laid_meta _ _ _ (sb_bmapstart the_sb) bm Hlaid2 ltac:(change nmeta with 59; vm_compute; split; congruence) Hml) as [Hlaid3 K2]. change (<[sb_bmapstart the_sb := bm]> (img s1)) with (img s2) in *.
  assert (Hdisk : forall i di, 0 <= i < NINODES -> on_disk (img s1) i di -> on_disk (img s2) i di).
  { intros i dj Hi (x & Hx & Hg). exists x. split; [|done]. unfold s2. cbn [img setf]. rewrite lookup_insert_ne; [done|]. rewrite IBLOCK_sb by done. change (sb_bmapstart the_sb) with 58. unfold NINODES in *. zlia. }
  exists s2, D'. split; [done|]. split; change nmeta with 59.
  - done.
  - done.
  - rewrite <- B8. unfold s2, s1. cbn [img setf]. by rewrite !lookup_insert_ne by done.
  - exists addrs. fold di c. destruct (K1 _ di (lookup_insert_eq _ _ _)) as [A1 A2], (K2 _ di (lookup_insert_eq _ _ _)) as [C1 C2].
    split_and!; [apply lookup_insert_eq|apply Hdisk; [unfold ROOTINO, NINODES; lia|done]| |].
    + eapply uses_slots; [|exact Hu]. intros k Hk. by rewrite C1, A1 by done.
    + eapply reads_blocks; [|exact Hr]. intros n Hn. by rewrite C2, A2 by done.
  - intros j a Ha. pose proof (lookup_lt_Some _ _ _ Ha) as Hj. apply (is_file_keep (img s) _ D).
    + replace (2 + Z.of_nat j) with (1 + Z.of_nat (S j)) by lia. apply B4. change (((fun a => (T_FILE, content a)) <$> files) !! j = Some (T_FILE, content a)). by rewrite list_lookup_fmap, Ha.
    + intros dj Hdj. assert (HD' : D' !! (2 + Z.of_nat j) = Some dj) by (unfold D'; rewrite lookup_insert_ne; [done|unfold ROOTINO; lia]).
      destruct (K1 _ dj HD') as [A1 A2], (K2 _ dj HD') as [C1 C2]. split_and!; [done| |intros k Hk; by rewrite C1, A1|intros n Hn; by rewrite C2, A2].
      intros Ho. apply Hdisk; [lia|]. apply Hwo; [lia|unfold ROOTINO; lia|done].
  - exists bm. split; [apply lookup_insert_eq|]. split; [done|]. intros b Hbb. unfold BPB in Hbb. rewrite Hmb. change (freeblock s2) with (freeblock s).
    assert (E0 : bit_at (replicate BSIZE 0) b = false) by (unfold bit_at, aget; destruct (Z.leb_spec 0 (b / 8)); [|zlia]; rewrite lookup_replicate_2 by (unfold BSIZE; zlia); apply Z.bits_0).
    rewrite E0. cbn [orb]. destruct (Z.ltb_spec b (freeblock s)); [apply bool_decide_true|apply bool_decide_false]; rewrite elem_of_seqZ; lia.
Qed.
(** ** main *)

Lemma start_built : exists s, write_super seeks writes mkfs_init = Ret tt s /\ built s [] ∅.
Proof using io_seeks io_writes.
  unfold write_super. erewrite bind_ret; [|reflexivity]. rewrite (bind_ret _ _ _ _ _ (zero_sectors (seqZ 0 FSSIZE) _)). erewrite bind_ret; [|reflexivity]. rewrite (wsect_ok seeks writes io_seeks io_writes).
  match goal with |- exists s, Ret tt ?x = _ /\ _ => set (s1 := x) end. exists s1. split; [done|].
  assert (Him : forall b, 0 <= b < FSSIZE -> b <> 1 -> img s1 !! b = Some (replicate 512 0)).
  { intros b Hb Hne. unfold s1. cbn [img setf msb freeblock mkfs_init]. rewrite lookup_insert_ne by done. rewrite zero_img, decide_True; [done|]. apply elem_of_seqZ. lia. }
  assert (H1 : img s1 !! 1 = Some (put_words (replicate BSIZE 0) 0 (sb_words the_sb))) by apply lookup_insert_eq.
  assert (Hrest : msb s1 = the_sb /\ freeblock s1 = nmeta /\ freeinode s1 = 1) by (split_and!; reflexivity). clearbody s1. destruct Hrest as (R1 & R2 & R3).
  split; [done| |intros i di Hi; by rewrite lookup_empty in Hi|done|done|by rewrite R3|by rewrite R2|done]. rewrite R2. change nmeta with 59 in *. split; try (intros; by rewrite lookup_empty in *).
  - intros b Hb. destruct (decide (b = 1)) as [->|Hne]; [|eexists; split; [by apply Him|done]]. eexists. split; [exact H1|]. by rewrite put_words_length.
  - intros b Hb. apply Him; lia.
  - split; vm_compute; congruence.
Qed.

Lemma main_ok files : Forall good_arg files -> len files + 1 < NINODES -> total (image_files files) <= nblocks ->
  exists s D, main seeks writes files mkfs_init = Ret tt s /\ finished (img s) (freeblock s) D files.
Proof using io_seeks io_writes.
  intros Hg Hn Hcap. destruct start_built as (s0 & E0 & Hb0). unfold main. rewrite (bind_ret _ _ _ _ _ E0). clear E0.
  destruct (ialloc_ok s0 [] ∅ T_DIR Hb0) as (s1 & D1 & E1 & Hb1); [done|unfold T_DIR; lia|]. cbn [app length] in *.
  destruct (iappend_ok s1 _ D1 0 T_DIR [] (dirent 1 [46]) Hb1 eq_refl) as (s2 & D2 & E2 & Hb2); [done|vm_compute; congruence|].
  destruct (iappend_ok s2 _ D2 0 T_DIR _ (dirent 1 [46; 46]) Hb2 eq_refl) as (s3 & D3 & E3 & Hb3); [done|vm_compute; congruence|].
  destruct (add_files_ok files s3 D3 []) as (s4 & D4 & E4 & Hb4); [done|done|done|exact Hcap|].
  destruct (finish_ok s4 D4 files Hb4 Hcap) as (s5 & D5 & E5 & Hf). exists s5, D5. split; [|done].
  rewrite (bind_ret _ _ _ _ _ E1). change (1 + Z.of_nat 0 =? ROOTINO) with true. cbn [negb]. change (1 + Z.of_nat 0) with 1 in *.
  rewrite (bind_ret _ _ _ _ _ E2), (bind_ret _ _ _ _ _ E3), (bind_ret _ _ _ _ _ E4). exact E5.
Qed.
End Image.
