(* ===== verification/MkfsBoot.v ===== *)
(** * MkfsBoot: the kernel on the image of mkfs

    The image satisfies the invariants that the file system of the kernel starts from
    ([map_ok], [file_ok], [dir_ok]): every file reads back, the directory leads to it,
    and the free map marks the blocks that are used. *)

From S2P Require Import Prelude Mem Sleeplock Log Fs FsAlloc FsFile FsInode FsDir Mkfs MkfsSpec MkfsImage.

(** ** The kernel's view of the image *)

(** The kernel runs on a disk with the image [m], and has read its super block. *)
Record runs_on (k : fs) (dev : Z) (m : gmap Z block) : Prop := {
  ro_view : forall b, 0 <= b < FSSIZE -> fview k !! (dev, b) = m !! b;
  ro_sb : fsb k = the_sb
}.

(** Entry [ip] of the inode cache has inode [inum], as [ilock] reads it. *)
Record loaded (k : fs) (dev : Z) (ip : nat) (i : inode) (inum : Z) : Prop := {
  lo_get : icache k !! ip = Some i;
  lo_dev : i_dev i = dev;
  lo_inum : i_inum i = inum;
  lo_d : exists d, fview k !! (dev, IBLOCK inum (fsb k)) = Some d /\ get_dinode d (dip inum) = Some (i_d i)
}.

(** The names of the root directory and the inodes they stand for, by position. *)
Definition names (files : list arg) : list (list Z) := [46] :: [46; 46] :: ((fun a => skip_underscore (a_name a)) <$> files).
Definition inum_at (e : nat) : Z := if (e <? 2)%nat then ROOTINO else Z.of_nat e.

(** ** Lemmas *)

Section Boot.
Context (k : fs) (dev : Z) (m : gmap Z block) (fb : Z) (D : gmap Z dinode) (files : list arg).
Hypothesis Hon : runs_on k dev m.
Hypothesis Hfin : finished m fb D files.

Lemma sb_read : readsb dev k = Ret the_sb k.
Proof using Hon Hfin.
  unfold readsb. rewrite (bind_ret _ _ _ _ _ (bread_ok k dev 1 _ (eq_trans (ro_view _ _ _ Hon 1 ltac:(unfold FSSIZE; lia)) (fi_one _ _ _ _ Hfin)))).
  set (d := put_words _ _ _). assert (Hw : forall j, (j < 7)%nat -> word d j = sb_words the_sb !! j) by (intros j Hj; do 7 (destruct j; [vm_compute; reflexivity|]); lia).
  rewrite !Hw by lia. done.
Qed.

Lemma slot_range i di x : D !! i = Some di -> 0 <= x <= 140 -> mslot m di x <> 0 -> nmeta <= mslot m di x < FSSIZE /\ mslot m di x < fb.
Proof using Hfin. intros Hi Hx Hne. pose proof (la_slot _ _ _ (fi_laid _ _ _ _ Hfin) i di x Hi Hx Hne). pose proof (la_fb _ _ _ (fi_laid _ _ _ _ Hfin)). lia. Qed.

Lemma view_slot i inum x : i_dev i = dev -> D !! inum = Some (i_d i) -> slot k i x = mslot m (i_d i) x.
Proof using Hon Hfin.
  intros Hd HD. unfold slot. destruct (x <=? NDIRECT) eqn:E; [done|]. unfold ind_at. change (addr_at (ino (i_d i)) NDIRECT) with (addr_at i NDIRECT).
  destruct (Z.eqb_spec (addr_at i NDIRECT) 0) as [|Hne]; [done|]. cbn [i_dev ino]. rewrite disk_lookup, Hd.
  destruct (slot_range inum (i_d i) 12 HD ltac:(lia) Hne) as [Hr _]. change (mslot m (i_d i) 12) with (addr_at i NDIRECT) in Hr. change nmeta with 59 in *. by rewrite (ro_view _ _ _ Hon) by lia.
Qed.

Lemma view_block i inum n : i_dev i = dev -> D !! inum = Some (i_d i) -> 0 <= n < MAXFILE -> fblock k i n = mblock m (i_d i) n.
Proof using Hon Hfin.
  intros Hd HD Hn. destruct (slot_of_range n Hn) as [Hr _]. rewrite mblock_eq. unfold fblock, blockof. rewrite (view_slot i inum) by done.
  destruct (Z.eqb_spec (mslot m (i_d i) (slot_of n)) 0) as [|Hne]; [done|]. destruct (slot_range inum _ _ HD Hr Hne). change nmeta with 59 in *. by rewrite Hd, (ro_view _ _ _ Hon) by lia.
Qed.

Lemma view_byte i inum n c : i_dev i = dev -> D !! inum = Some (i_d i) -> reads_as m (i_d i) c -> 0 <= n < MAXFILE * 512 -> fbyte k i n = default 0 (c !! Z.to_nat n).
Proof using Hon Hfin. intros Hd HD Hr Hn. rewrite <- (Hr n Hn). unfold fbyte. rewrite (view_block i inum); [done|done|done|]. unfold MAXFILE in *. zlia. Qed.

Lemma BBLOCK_sb b : 0 <= b < FSSIZE -> BBLOCK b the_sb = 58.
Proof using. intros Hb. unfold BBLOCK, BPB, FSSIZE in *. change (sb_bmapstart the_sb) with 58. rewrite u32_small; zlia. Qed.

Lemma view_in_use b : 0 <= b < FSSIZE -> in_use k dev b = (b <? fb).
Proof using Hon Hfin.
  intros Hb. destruct (fi_map _ _ _ _ Hfin) as (d & Hd & _ & Hbit). change (sb_bmapstart the_sb) with 58 in Hd. unfold in_use.
  rewrite (ro_sb _ _ _ Hon), BBLOCK_sb, (ro_view _ _ _ Hon), Hd by (done || unfold FSSIZE; lia). unfold FSSIZE in Hb. rewrite Z.mod_small by (unfold BPB; lia). apply Hbit. unfold BPB. lia.
Qed.

Lemma meta_low b : meta the_sb b -> 0 <= b < nmeta.
Proof using.
  change nmeta with 59. intros [(b' & Hb & ->)|(i & Hi & ->)]; [rewrite BBLOCK_sb by done; lia|]. change (sb_ninodes the_sb) with NINODES in Hi. rewrite IBLOCK_sb by done. unfold NINODES in *. zlia.
Qed.

Lemma view_map_ok : map_ok k dev.
Proof using Hon Hfin.
  pose proof (la_fb _ _ _ (fi_laid _ _ _ _ Hfin)) as Hfb. split; rewrite (ro_sb _ _ _ Hon); change (sb_size the_sb) with FSSIZE; change (sb_ninodes the_sb) with NINODES; change (sb_bmapstart the_sb) with 58.
  - unfold FSSIZE. lia.
  - lia.
  - intros b Hb. rewrite (ro_view _ _ _ Hon) by done. by apply (la_blocks _ _ _ (fi_laid _ _ _ _ Hfin)).
  - intros b Hb. rewrite BBLOCK_sb by done. unfold FSSIZE. lia.
  - intros i Hi. rewrite IBLOCK_sb by done. unfold NINODES, FSSIZE in *. split; [zlia|]. intros b Hb. rewrite BBLOCK_sb by done. zlia.
  - intros b Hb Hu. rewrite view_in_use in Hu by done. apply Z.ltb_ge in Hu. change nmeta with 59 in *. split; [|lia]. intros Hm%meta_low. change nmeta with 59 in *. lia.
Qed.

(** A file of the image, in the inode cache. *)
Lemma view_file_ok ip i inum : icache k !! ip = Some i -> i_dev i = dev -> i_inum i = inum -> 0 <= inum < NINODES -> D !! inum = Some (i_d i) -> file_ok k ip i.
Proof using Hon Hfin.
  intros Hg Hd Hi Hn HD. pose proof (fi_laid _ _ _ _ Hfin) as Hl. split.
  - done.
  - by apply (la_len _ _ _ Hl inum).
  - rewrite Hd. apply view_map_ok.
  - rewrite (ro_sb _ _ _ Hon), Hi. exact Hn.
  - intros x Hx. rewrite (view_slot i inum) by done. intros Hne. destruct (slot_range inum _ x HD Hx Hne) as [H1 H2]. rewrite (ro_sb _ _ _ Hon). change (sb_size the_sb) with FSSIZE. change nmeta with 59 in *. unfold FSSIZE in *.
    split_and!; [lia|lia| |].
    + rewrite Hd, view_in_use by (unfold FSSIZE; lia). apply Z.ltb_lt. lia.
    + intros Hm%meta_low. change nmeta with 59 in *. lia.
  - intros x x' Hx Hx' Hne E. rewrite !(view_slot i inum) in * by done. by destruct (la_inj _ _ _ Hl inum _ inum _ x x' HD HD Hx Hx' Hne E).
Qed.

Lemma loaded_dinode ip i inum di : 0 <= inum < NINODES -> loaded k dev ip i inum -> on_disk m inum di -> i_d i = di.
Proof using Hon.
  intros Hn [_ _ _ (d & Hd & Hg)] (d' & Hd' & Hg'). rewrite (ro_sb _ _ _ Hon), (ro_view _ _ _ Hon) in Hd by (rewrite IBLOCK_sb by done; unfold NINODES, FSSIZE in *; zlia). congruence.
Qed.
(** ** Files *)

Lemma file_facts j a ip i : files !! j = Some a -> loaded k dev ip i (2 + Z.of_nat j) -> 2 + Z.of_nat j < NINODES ->
  file_ok k ip i /\ d_type (i_d i) = T_FILE /\ d_nlink (i_d i) = 1 /\ d_size (i_d i) = len (content a) /\ dense k i /\ D !! (2 + Z.of_nat j) = Some (i_d i) /\ reads_as m (i_d i) (content a).
Proof using Hon Hfin.
  intros Ha Hl Hn. destruct (fi_file _ _ _ _ Hfin j a Ha) as (addrs & HD & Hod & Hu & Hr). pose proof (loaded_dinode ip i (2 + Z.of_nat j) _ ltac:(lia) Hl Hod) as E. rewrite <- E in HD, Hu, Hr.
  destruct Hl as [L1 L2 L3 _]. split_and!; try done; try (rewrite E; done).
  - apply (view_file_ok ip i (2 + Z.of_nat j)); try done. lia.
  - intros n Hn'. rewrite E. change (d_size (the_dinode T_FILE (content a) addrs)) with (len (content a)). unfold blockof. rewrite (view_slot i (2 + Z.of_nat j)) by done. intros Hlt. destruct (slot_of_range n Hn') as [Hr' _].
    apply Hu; [done|]. unfold needs, slot_of, NDIRECT. destruct (Z.ltb_spec n 12); case_match; lia.
Qed.

Lemma bytes_content i inum c : i_dev i = dev -> D !! inum = Some (i_d i) -> reads_as m (i_d i) c -> len c <= MAXFILE * 512 -> fbyte k i <$> seqZ 0 (len c) = c.
Proof using Hon Hfin.
  intros Hd HD Hr Hc. apply (list_eq_same_length _ _ (length c)); [done|rewrite length_fmap, length_seqZ; lia|]. intros n x y Hn Hx Hy.
  rewrite list_lookup_fmap, lookup_seqZ_lt in Hx by lia. cbn in Hx. injection Hx as <-. rewrite (view_byte i inum _ c) by (done || lia). rewrite Z.add_0_l, Nat2Z.id. by rewrite Hy.
Qed.

(** Reading a file from the start gives all of it. *)
Lemma file_read devread j a ip i n : files !! j = Some a -> good_arg a -> loaded k dev ip i (2 + Z.of_nat j) -> 2 + Z.of_nat j < NINODES -> len (content a) <= n < 2 ^ 31 ->
  readi devread ip 0 n k = Ret (len (content a), content a) k.
Proof using Hon Hfin.
  intros Ha Hg Hl Hj Hn. destruct (file_facts j a ip i Ha Hl Hj) as (Hf & Ht & _ & Hs & Hde & HD & Hr). pose proof (ga_len _ Hg) as Hlen. unfold readi.
  rewrite (bind_ret _ _ _ _ _ (get_ip_ok _ _ _ (fo_get _ _ _ Hf))), Ht, Hs. change (T_FILE =? T_DEV) with false. cbv zeta iota. unfold MAXFILE in Hlen. rewrite !(u32_small (0 + n)) by lia.
  destruct (Z.gtb_spec 0 (len (content a))); [lia|]. destruct (Z.ltb_spec (0 + n) 0); [lia|]. cbn [orb].
  assert (E : (if 0 + n >? len (content a) then u32 (len (content a) - 0) else n) = len (content a)) by (destruct (Z.gtb_spec (0 + n) (len (content a))); [rewrite u32_small; lia|lia]).
  rewrite E, (bind_ret _ _ _ _ _ (readi_loop_dense (Z.to_nat (len (content a))) k ip i 0 (len (content a)) Hf Hde ltac:(lia) ltac:(lia) ltac:(lia) ltac:(unfold MAXFILE; lia))).
  rewrite (bytes_content i _ _ (lo_dev _ _ _ _ _ Hl) HD Hr) by (unfold MAXFILE; lia). by rewrite s32_small by lia.
Qed.

(** ** The root directory *)

Lemma dir_entries : dir_bytes files = concat (imap (fun e nm => dirent (inum_at e) nm) (names files)).
Proof using.
  unfold dir_bytes, names. cbn [imap concat]. do 3 f_equal. rewrite imap_fmap. apply imap_ext. intros j a _. cbn [compose]. f_equal. unfold inum_at. destruct (Nat.ltb_spec (S (S j)) 2); [lia|]. lia.
Qed.

Lemma concat_lookup (l : list (list Z)) w e x r : Forall (fun y => length y = w) l -> l !! e = Some x -> (r < w)%nat -> concat l !! (w * e + r)%nat = x !! r.
Proof using.
  intros Hl. revert e. induction Hl as [|y l Hy Hl IH]; intros e He Hr; [done|]. cbn [concat]. destruct e as [|e].
  - injection He as ->. rewrite Nat.mul_0_r. cbn [plus]. by rewrite lookup_app_l by lia.
  - rewrite lookup_app_r by lia. replace (w * S e + r - length y)%nat with (w * e + r)%nat by lia. by apply IH.
Qed.

Lemma names_length : length (names files) = (2 + length files)%nat.
Proof using. unfold names. cbn [length]. by rewrite length_fmap. Qed.

Lemma dir_byte e nm r : names files !! e = Some nm -> (r < 16)%nat -> dir_bytes files !! (16 * e + r)%nat = dirent (inum_at e) nm !! r.
Proof using.
  intros He Hr. rewrite dir_entries. apply concat_lookup; [|by rewrite list_lookup_imap, He|done]. apply Forall_lookup. intros n x Hx.
  rewrite list_lookup_imap in Hx. destruct (names files !! n); [|done]. injection Hx as <-. apply dirent_length.
Qed.

(** The entry at position [e] of the root directory, as the kernel reads it. *)
Lemma root_entry i e : i_dev i = dev -> D !! ROOTINO = Some (i_d i) -> reads_as m (i_d i) (dir_bytes files) -> Z.of_nat e * 16 + 16 <= MAXFILE * 512 ->
  ent k i (Z.of_nat e * 16) = match names files !! e with Some nm => dirent (inum_at e) nm | None => replicate 16 0 end.
Proof using Hon Hfin.
  intros Hd HD Hr He. unfold ent. apply (list_eq_same_length _ _ 16); [case_match; [apply dirent_length|done]|by rewrite length_fmap|]. intros n x y Hn Hx Hy.
  rewrite list_lookup_fmap, lookup_seqZ_lt in Hx by lia. cbn in Hx. injection Hx as <-. rewrite (view_byte i ROOTINO _ (dir_bytes files)) by (done || lia).
  replace (Z.to_nat (Z.of_nat e * 16 + Z.of_nat n)) with (16 * e + n)%nat by lia. destruct (names files !! e) as [nm|] eqn:En.
  - by rewrite (dir_byte e nm n En Hn), Hy.
  - apply lookup_replicate in Hy as [-> _]. apply lookup_ge_None in En. rewrite names_length in En. rewrite lookup_ge_None_2; [done|]. rewrite dir_bytes_length. lia.
Qed.
Lemma entry_fields i e : i_dev i = dev -> D !! ROOTINO = Some (i_d i) -> reads_as m (i_d i) (dir_bytes files) -> len files + 1 < NINODES -> Z.of_nat e * 16 + 16 <= MAXFILE * 512 ->
  match names files !! e with
  | Some nm => ent_inum k i (Z.of_nat e * 16) = inum_at e /\ ent_name k i (Z.of_nat e * 16) = field nm
  | None => ent_inum k i (Z.of_nat e * 16) = 0
  end.
Proof using Hon Hfin.
  intros Hd HD Hr Hn He. pose proof (root_entry i e Hd HD Hr He) as Hent. pose proof (de_inum_ent k i (Z.of_nat e * 16)) as Hde. unfold ent_name. rewrite Hent in *.
  destruct (names files !! e) as [nm|] eqn:En; [|change (de_inum (replicate 16 0)) with (Some 0) in Hde; congruence]. apply lookup_lt_Some in En. rewrite names_length in En.
  assert (Hi : 0 <= inum_at e < 2 ^ 8) by (unfold inum_at, ROOTINO, NINODES in *; case_match; lia). unfold dirent in *. cbv zeta in *. rewrite xshort_u16 in * by lia. split.
  - cbn in Hde. injection Hde as <-. unfold u8. rewrite Z.shiftr_div_pow2 by lia. zlia.
  - cbn [app drop]. apply strncpy_name_idem.
Qed.

Lemma root_facts ip i : loaded k dev ip i ROOTINO ->
  file_ok k ip i /\ d_type (i_d i) = T_DIR /\ d_size (i_d i) = root_size files /\ D !! ROOTINO = Some (i_d i) /\ uses m (i_d i) (len (dir_bytes files)) /\ reads_as m (i_d i) (dir_bytes files).
Proof using Hon Hfin.
  intros Hl. destruct (fi_root _ _ _ _ Hfin) as (addrs & HD & Hod & Hu & Hr). pose proof (loaded_dinode ip i ROOTINO _ ltac:(unfold ROOTINO, NINODES; lia) Hl Hod) as E. rewrite <- E in HD, Hu, Hr.
  destruct Hl as [L1 L2 L3 _]. split_and!; try done; try (by rewrite E). by apply (view_file_ok ip i ROOTINO).
Qed.

(** Block [n] of the root directory is there if the entries reach it. *)
Lemma root_block ip i n : loaded k dev ip i ROOTINO -> 0 <= n < MAXFILE -> blockof k i n <> 0 <-> n * 512 < 16 * (2 + len files).
Proof using Hon Hfin.
  intros Hl Hn. destruct (root_facts ip i Hl) as (_ & _ & _ & HD & Hu & _). destruct (slot_of_range n Hn) as [Hr _]. unfold blockof. rewrite (view_slot i ROOTINO) by (done || apply Hl). rewrite (Hu _ Hr).
  unfold needs, slot_of, NDIRECT. rewrite dir_bytes_length. destruct (Z.ltb_spec n 12); case_match; lia.
Qed.

Lemma root_dir_ok ip i : loaded k dev ip i ROOTINO -> len files + 1 < NINODES -> (2 + len files) mod 32 <> 0 -> dir_ok k ip i.
Proof using Hon Hfin.
  intros Hl Hn Hm. destruct (root_facts ip i Hl) as (Hf & Ht & Hs & _). pose proof (dir_bytes_length files) as Hlen. unfold NINODES in Hn. split; rewrite ?Hs; try done.
  - unfold root_size, MAXFILE. rewrite Hlen. zlia.
  - unfold root_size. zlia.
  - intros n Hn' Hlt. rewrite Hs in Hlt. unfold root_size in Hlt. rewrite Hlen in Hlt. apply (root_block ip i n Hl Hn'). zlia.
Qed.

Lemma root_lookup ip i nm : loaded k dev ip i ROOTINO -> len files + 1 < NINODES -> NoDup (field <$> names files) ->
  lookup_name k i nm (dir_steps (d_size (i_d i))) =
  (fun e => Z.of_nat e * 16) <$> findi (fun nm' => bool_decide (field nm' = field nm)) (names files).
Proof using Hon Hfin.
  intros Hl Hn Hnd. destruct (root_facts ip i Hl) as (Hf & Ht & Hs & HD & _ & Hr). pose proof (dir_bytes_length files) as Hlen. unfold lookup_name. unfold NINODES in Hn.
  set (f := fun off => _). assert (Hoff : forall off, off ∈ dir_steps (d_size (i_d i)) <-> exists e, off = Z.of_nat e * 16 /\ Z.of_nat e * 16 < root_size files).
  { intros off. rewrite Hs, dir_steps_in by (unfold root_size; zlia). split; [intros [H1 H2]; exists (Z.to_nat (off / 16)); zlia|intros (e & -> & He); zlia]. }
  assert (Hf' : forall e, Z.of_nat e * 16 < root_size files -> f (Z.of_nat e * 16) = match names files !! e with Some nm' => bool_decide (field nm' = field nm) | None => false end).
  { intros e He. pose proof (entry_fields i e (lo_dev _ _ _ _ _ Hl) HD Hr ltac:(unfold NINODES; lia)) as Hent. unfold f. destruct (names files !! e) as [nm'|] eqn:En.
    - destruct Hent as [-> ->]; [apply lookup_lt_Some in En; rewrite names_length in En; unfold MAXFILE; lia|]. unfold inum_at, ROOTINO. destruct (Nat.ltb_spec e 2); [done|]. destruct (Z.eqb_spec (Z.of_nat e) 0); [lia|done].
    - rewrite Hent; [done|]. unfold root_size in He. rewrite Hlen in He. unfold MAXFILE. zlia. }
  destruct (findi _ (names files)) as [e|] eqn:Efind.
  - apply findi_Some in Efind as [(nm' & He & Heq) _]. apply bool_decide_eq_true in Heq. assert (Hin : Z.of_nat e * 16 < root_size files).
    { apply lookup_lt_Some in He. rewrite names_length in He. unfold root_size. rewrite Hlen. zlia. }
    cbn. apply find_only; [apply Hoff; eauto|rewrite Hf', He by done; by apply bool_decide_eq_true|]. intros y Hy Hne. apply Hoff in Hy as (e' & -> & He'). rewrite Hf' by done.
    destruct (names files !! e') as [nm''|] eqn:En; [|done]. apply bool_decide_eq_false. intros Hq. apply Hne. f_equal. f_equal. eapply (NoDup_lookup _ _ _ (field nm) Hnd); rewrite list_lookup_fmap; [by rewrite En; cbn; f_equal|by rewrite He; cbn; f_equal].
  - cbn. destruct (List.find f _) as [off|] eqn:Eo; [|done]. exfalso. apply List.find_some in Eo as [Hin Hv]. apply list_elem_of_In, Hoff in Hin as (e & -> & He). rewrite Hf' in Hv by done.
    destruct (names files !! e) as [nm'|] eqn:En; [|done]. pose proof (proj1 (findi_None _ _) Efind _ _ En) as Hnone. cbv beta in Hnone. by rewrite Hv in Hnone.
Qed.
Lemma root_dirlookup devread ip i nm : loaded k dev ip i ROOTINO -> len files + 1 < NINODES -> NoDup (field <$> names files) -> (2 + len files) mod 32 <> 0 ->
  dirlookup devread ip nm k =
  match findi (fun nm' => bool_decide (field nm' = field nm)) (names files) with
  | Some e => (ip' ← iget dev (inum_at e); mret (Some (ip', Z.of_nat e * 16))) k
  | None => Ret None k
  end.
Proof using Hon Hfin.
  intros Hl Hn Hnd Hm. rewrite (dirlookup_ok devread (fun _ => None) k ip i nm (root_dir_ok ip i Hl Hn Hm)), (root_lookup ip i nm Hl Hn Hnd). destruct (findi _ (names files)) as [e|] eqn:E; [|done].
  cbn [fmap option_fmap option_map]. rewrite (lo_dev _ _ _ _ _ Hl). destruct (root_facts ip i Hl) as (_ & _ & _ & HD & _ & Hr). apply findi_Some in E as [(nm' & He & _) _].
  pose proof (entry_fields i e (lo_dev _ _ _ _ _ Hl) HD Hr Hn) as Hent. rewrite He in Hent. destruct Hent as [-> _]; [|done]. apply lookup_lt_Some in He. rewrite names_length in He. unfold NINODES, MAXFILE in *. lia.
Qed.

(** The size of the root directory is rounded up to a block that is not there when the
    entries fill their last block. *)
Lemma root_hole ip i : loaded k dev ip i ROOTINO -> len files + 1 < NINODES -> (2 + len files) mod 32 = 0 ->
  let n := (2 + len files) / 32 in n * 512 < d_size (i_d i) /\ blockof k i n = 0.
Proof using Hon Hfin.
  intros Hl Hn Hm n. destruct (root_facts ip i Hl) as (_ & _ & Hs & _). unfold NINODES in Hn. rewrite Hs. unfold root_size. rewrite dir_bytes_length. split; [unfold n; zlia|].
  destruct (decide (blockof k i n = 0)) as [|Hne]; [done|]. apply (root_block ip i n Hl) in Hne; unfold MAXFILE, n in *; zlia.
Qed.

(** No block belongs to two inodes. *)
Lemma files_apart ip i inum ip' i' inum' x x' : loaded k dev ip i inum -> loaded k dev ip' i' inum' -> 1 <= inum <= 1 + len files -> 1 <= inum' <= 1 + len files -> len files + 1 < NINODES ->
  inum <> inum' -> 0 <= x <= 140 -> 0 <= x' <= 140 -> slot k i x <> 0 -> slot k i x <> slot k i' x'.
Proof using Hon Hfin.
  intros Hl Hl' Hi Hi' Hn Hne Hx Hx'. assert (HD : forall ip i inum, loaded k dev ip i inum -> 1 <= inum <= 1 + len files -> D !! inum = Some (i_d i)).
  { clear - Hon Hfin Hn. intros ip i inum Hl Hi. destruct (decide (inum = 1)) as [->|Hne]; [by destruct (root_facts ip i Hl) as (_ & _ & _ & HD & _)|].
    destruct (lookup_lt_is_Some_2 files (Z.to_nat (inum - 2))) as [a Ha]; [lia|]. replace inum with (2 + Z.of_nat (Z.to_nat (inum - 2))) in Hl |- * by lia.
    destruct (file_facts _ a ip i Ha Hl ltac:(lia)) as (_ & _ & _ & _ & _ & HD & _). exact HD. }
  specialize (HD _ _ _ Hl Hi) as HD1. specialize (HD _ _ _ Hl' Hi') as HD2. rewrite (view_slot i inum), (view_slot i' inum') by (done || by eapply lo_dev). intros Hs E.
  by destruct (la_inj _ _ _ (fi_laid _ _ _ _ Hfin) inum _ inum' _ x x' HD1 HD2 Hx Hx' Hs E).
Qed.
End Boot.

(** C13. The image that mkfs makes is a file system for the kernel.  If the arguments are files
    that are not too long, fewer than 199 and together small enough for the image, with
    different names, then mkfs makes the image, and a kernel that runs on it finds the
    super block, a free map that marks just the blocks in use, every file with its
    contents, no block in two files, and in the root directory each name with its
    inode and no others.  The clause on the root directory is for a number of entries
    that is not a multiple of 32: for a multiple the size of the directory is one block
    too large ([root_hole]).  Seeks and writes of the host succeed. *)
Theorem mkfs_boots seeks writes files : (forall b, seeks b = true) -> (forall b, writes b = true) ->
  Forall good_arg files -> len files + 1 < NINODES -> total (image_files files) <= nblocks -> NoDup (field <$> names files) ->
  exists s, main seeks writes files mkfs_init = Ret tt s /\ forall k dev, runs_on k dev (img s) ->
    readsb dev k = Ret the_sb k /\ map_ok k dev /\ (forall b, 0 <= b < FSSIZE -> in_use k dev b = (b <? freeblock s)) /\
    (forall devread j a ip i n, files !! j = Some a -> loaded k dev ip i (2 + Z.of_nat j) -> len (content a) <= n < 2 ^ 31 ->
       file_ok k ip i /\ d_type (i_d i) = T_FILE /\ d_nlink (i_d i) = 1 /\ readi devread ip 0 n k = Ret (len (content a), content a) k) /\
    (forall ip i inum ip' i' inum' x x', loaded k dev ip i inum -> loaded k dev ip' i' inum' -> 1 <= inum <= 1 + len files -> 1 <= inum' <= 1 + len files ->
       inum <> inum' -> 0 <= x <= 140 -> 0 <= x' <= 140 -> slot k i x <> 0 -> slot k i x <> slot k i' x') /\
    (forall devread ip i nm, loaded k dev ip i ROOTINO -> (2 + len files) mod 32 <> 0 ->
       dir_ok k ip i /\ dirlookup devread ip nm k =
       match findi (fun nm' => bool_decide (field nm' = field nm)) (names files) with
       | Some e => (ip' ← iget dev (inum_at e); mret (Some (ip', Z.of_nat e * 16))) k
       | None => Ret None k
       end).
Proof.
  intros Hs Hw Hg Hn Hcap Hnd. destruct (main_ok seeks writes Hs Hw files Hg Hn Hcap) as (s & D & E & Hfin). exists s. split; [exact E|]. intros k dev Hon.
  split_and!; [by eapply sb_read|by eapply view_map_ok|by eapply view_in_use| | |].
  - intros devread j a ip i n Ha Hl Hlen. pose proof (lookup_lt_Some _ _ _ Ha) as Hj. destruct (file_facts k dev _ _ D files Hon Hfin j a ip i Ha Hl ltac:(lia)) as (F1 & F2 & F3 & _).
    split_and!; [done|done|done|]. eapply file_read; try done; [by eapply Forall_lookup_1|lia].
  - intros. by eapply files_apart.
  - intros devread ip i nm Hl Hm. split; [by eapply root_dir_ok|by eapply root_dirlookup].
Qed.

(** ** Two small files *)

Lemma get_dinode_Some d p : (p + 64 <= length d)%nat -> exists di, get_dinode d p = Some di.
Proof.
  intros H. assert (H16 : forall o, (o + 2 <= length d)%nat -> is_Some (get16 d o)).
  { intros o Ho. unfold get16. destruct (lookup_lt_is_Some_2 d o) as [? ->]; [lia|]. destruct (lookup_lt_is_Some_2 d (o + 1)) as [? ->]; [lia|]. by eexists. }
  assert (Hws : forall n o, (o + 4 * n <= length d)%nat -> is_Some (get_words d o n)).
  { induction n as [|n IH]; intros o Ho; [by eexists|]. cbn. destruct (get32_Some d o ltac:(lia)) as [w ->]. destruct (IH (o + 4)%nat ltac:(lia)) as [l ->]. by eexists. }
  unfold get_dinode. destruct (H16 p ltac:(lia)) as [? ->], (H16 (p + 2)%nat ltac:(lia)) as [? ->], (H16 (p + 4)%nat ltac:(lia)) as [? ->], (H16 (p + 6)%nat ltac:(lia)) as [? ->].
  destruct (get32_Some d (p + 8) ltac:(lia)) as [? ->], (Hws 13%nat (p + 12)%nat ltac:(lia)) as [? ->]. by eexists.
Qed.

(** The arguments README and _sh, of 600 and 3 bytes. *)
Definition demo_files : list arg :=
  [Arg [82; 69; 65; 68; 77; 69] (Some [replicate 512 97; replicate 88 98]); Arg [95; 115; 104] (Some [[1; 2; 3]])].

Lemma mkfs_boots_witness : exists s, main (fun _ => true) (fun _ => true) demo_files mkfs_init = Ret tt s /\
  exists k i, loaded k 1 0 i ROOTINO /\ dirlookup (fun _ => None) 0 [115; 104] k = (ip ← iget 1 3; mret (Some (ip, 48))) k.
Proof.
  destruct (mkfs_boots (fun _ => true) (fun _ => true) demo_files) as (s & E & H); [done|done| |vm_compute; congruence|vm_compute; congruence|by apply (bool_decide_unpack _); vm_compute|].
  { repeat constructor; try done; vm_compute; congruence. }
  exists s. split; [exact E|]. clear E. set (v := kmap (pair 1) (img s) : gmap (Z * Z) block). assert (Hon : forall c, runs_on (FsState v [] the_sb c) 1 (img s)) by (intros c; split; [intros b _; apply disk_lookup|done]).
  destruct (H _ 1 (Hon [])) as (_ & Hmap & _). destruct (mo_blocks _ _ Hmap 32) as (d & Hd & Hl); [change (0 <= 32 < 1000); lia|]. destruct (get_dinode_Some d (dip ROOTINO)) as [di Hdi]; [rewrite Hl; vm_compute; lia|].
  set (i := Inode 1 1 1 (SleepLock 0 0 0) true di). set (k := FsState v [] the_sb [i]). assert (Hload : loaded k 1 0 i ROOTINO) by (split; [done|done|done|by exists d]).
  exists k, i. split; [exact Hload|]. destruct (H k 1 (Hon [i])) as (_ & _ & _ & _ & _ & Hroot). exact (proj2 (Hroot (fun _ => None) 0%nat i [115; 104] Hload ltac:(done))).
Defined.
