(* ===== verification/Mp.v ===== *)
(** * Mp: finding the processors (mp.c)

    At boot the kernel searches memory for the tables in which the firmware describes the
    processors and the I/O APIC.  The state is byte memory, by virtual address, with the
    global variables that the tables fill; [inb] is what a port reads.  The theorem says
    that a table is read entry by entry as it is written. *)

From S2P Require Import Prelude Mem Kalloc Vm.

Definition NCPU : Z := 8.
Definition MPPROC : Z := 0.
Definition MPBUS : Z := 1.
Definition MPIOAPIC : Z := 2.
Definition MPIOINTR : Z := 3.
Definition MPLINTR : Z := 4.

(** [cpus[i].apicid], [ncpu], [ioapicid], [lapic], and the ports that were written. *)
Record mpst := MpSt { mmem : mem; apicids : list Z; ncpu : Z; ioapicid : Z; lapic : Z; outs : list (Z * Z) }.
#[export] Instance eta_mpst : Eta mpst := fun r => MpSt (mmem r) (apicids r) (ncpu r) (ioapicid r) (lapic r) (outs r).

Definition ldb (a : Z) : M mpst Z := m ← gets mmem; deref (m !! a).
Definition ldh (a : Z) : M mpst Z := b0 ← ldb a; b1 ← ldb (a + 1); mret (b0 + 2 ^ 8 * b1).
Definition ldl (a : Z) : M mpst Z :=
  b0 ← ldb a; b1 ← ldb (a + 1); b2 ← ldb (a + 2); b3 ← ldb (a + 3);
  mret (b0 + 2 ^ 8 * b1 + 2 ^ 16 * b2 + 2 ^ 24 * b3).

(** [memcmp(p, lit, n) == 0] with a literal of [n] bytes. *)
Fixpoint is_at (p : Z) (lit : list Z) : M mpst bool :=
  match lit with
  | [] => mret true
  | c :: lit' => b ← ldb p; if negb (b =? c) then mret false else is_at (p + 1) lit'
  end.

(** The sum is an [int], and is returned as a [uchar]. *)
Fixpoint sum_loop (addr : Z) (n : nat) (acc : Z) : M mpst Z :=
  match n with
  | O => mret (u8 acc)
  | S n => b ← ldb addr; sum_loop (addr + 1) n (s32 (acc + b))
  end.
Definition sum (addr len : Z) : M mpst Z := sum_loop addr (Z.to_nat len) 0.

Definition MP_sig : list Z := [95; 77; 80; 95].
Definition PCMP_sig : list Z := [80; 67; 77; 80].

(** The loop over [p]; [p = 0] is the null pointer. *)
Fixpoint mpsearch_loop (ps : list Z) : M mpst Z :=
  match ps with
  | [] => mret 0
  | p :: ps' =>
      g ← is_at p MP_sig;
      if negb g then mpsearch_loop ps'
      else
        x ← sum p 16;
        if x =? 0 then mret p else mpsearch_loop ps'
  end.

(** The values of [p] in [for(p = addr; p < e; p += sizeof(struct mp))]. *)
Definition places (a len : Z) : list Z := (fun i => P2V a + 16 * i) <$> seqZ 0 ((len + 15) / 16).

Definition mpsearch1 (a len : Z) : M mpst Z := mpsearch_loop (places a len).

Definition mpsearch : M mpst Z :=
  let bda := P2V 0x400 in
  b0 ← ldb (bda + 0x0F); b1 ← ldb (bda + 0x0E);
  let p := Z.shiftl (Z.lor (Z.shiftl b0 8) b1) 4 in
  mp ← (if negb (p =? 0) then mpsearch1 p 1024
        else
          b0 ← ldb (bda + 0x14); b1 ← ldb (bda + 0x13);
          mpsearch1 (u32 (Z.lor (Z.shiftl b0 8) b1 * 1024 - 1024)) 1024);
  if negb (mp =? 0) then mret mp else mpsearch1 0xF0000 0x10000.

(** The table and the structure that points to it. *)
Definition mpconfig : M mpst (option (Z * Z)) :=
  mp ← mpsearch;
  if mp =? 0 then mret None
  else
    phys ← ldl (mp + 4);
    if phys =? 0 then mret None
    else
      let conf := P2V phys in
      g ← is_at conf PCMP_sig;
      if negb g then mret None
      else
        version ← ldb (conf + 6);
        if negb (version =? 1) && negb (version =? 4) then mret None
        else
          len ← ldh (conf + 4);
          x ← sum conf len;
          if negb (x =? 0) then mret None else mret (Some (conf, mp)).

(** The loop over the entries of the table.  The [break] of the default case leaves the
    [switch] only, with [p] as it was. *)
Fixpoint mpinit_loop (fuel : nat) (p e : Z) (ismp : bool) : M mpst bool :=
  if e <=? p then mret ismp
  else
    match fuel with
    | O => spin
    | S fuel =>
        t ← ldb p;
        if t =? MPPROC then
          n ← gets ncpu;
          (if n <? NCPU then
             id ← ldb (p + 1);
             modify (fun s => s <| apicids ::= fun l => aset l n id |> <| ncpu := n + 1 |>)
           else mret tt);;
          mpinit_loop fuel (p + 20) e ismp
        else if t =? MPIOAPIC then
          no ← ldb (p + 1);
          modify (fun s => s <| ioapicid := no |>);;
          mpinit_loop fuel (p + 8) e ismp
        else if (t =? MPBUS) || (t =? MPIOINTR) || (t =? MPLINTR) then mpinit_loop fuel (p + 8) e ismp
        else mpinit_loop fuel p e false
    end.

Definition mpinit (inb : Z -> Z) : M mpst unit :=
  r ← mpconfig;
  match r with
  | None => panic "Expect to run on an SMP"
  | Some (conf, mp) =>
      la ← ldl (conf + 36);
      modify (fun s => s <| lapic := la |>);;
      len ← ldh (conf + 4);
      ismp ← mpinit_loop (Z.to_nat len) (conf + 44) (conf + len) true;
      if negb ismp then panic "Didn't find a suitable machine"
      else
        imcrp ← ldb (mp + 12);
        if negb (imcrp =? 0) then
          modify (fun s => s <| outs ::= fun l => l ++ [(0x22, 0x70); (0x23, Z.lor (inb 0x23) 1)] |>)
        else mret tt
  end.

(** ** The tables *)

(** An entry of the table with the bytes that are not looked at. *)
Inductive entry :=
  | EProc (apicid : Z) (rest : list Z)
  | EIoapic (apicno : Z) (rest : list Z)
  | EOther (type : Z) (rest : list Z).

Definition entry_ok (x : entry) : Prop :=
  match x with
  | EProc _ rest => length rest = 18%nat
  | EIoapic _ rest => length rest = 6%nat
  | EOther t rest => (t = MPBUS \/ t = MPIOINTR \/ t = MPLINTR) /\ length rest = 7%nat
  end.

Definition entry_bytes (x : entry) : list Z :=
  match x with
  | EProc id rest => MPPROC :: id :: rest
  | EIoapic no rest => MPIOAPIC :: no :: rest
  | EOther t rest => t :: rest
  end.

Definition table_bytes (l : list entry) : list Z := concat (entry_bytes <$> l).

(** What the table says. *)
Definition procs (l : list entry) : list Z := omap (fun x => match x with EProc id _ => Some id | _ => None end) l.
Definition last_ioapic (l : list entry) (d : Z) : Z := foldl (fun d x => match x with EIoapic no _ => no | _ => d end) d l.

(** A valid structure at [p], and the places where the kernel looks for one. *)
Definition bytes (m : mem) (p : Z) (n : nat) : list Z := (fun i => default 0 (m !! (p + Z.of_nat i))) <$> seq 0 n.
Definition sum_of (l : list Z) : Z := foldr Z.add 0 l.
Definition valid_mp (m : mem) (p : Z) : bool := bool_decide (bytes m p 4 = MP_sig) && (sum_of (bytes m p 16) mod 256 =? 0).

(** A structure that is not there is a null pointer. *)
Definition find_mp (m : mem) (ps : list Z) : Z := default 0 (List.find (valid_mp m) ps).

Definition ebda (m : mem) : Z := 16 * (2 ^ 8 * default 0 (m !! P2V 0x40F) + default 0 (m !! P2V 0x40E)).
Definition base_end (m : mem) : Z := 1024 * (2 ^ 8 * default 0 (m !! P2V 0x414) + default 0 (m !! P2V 0x413)).

(** The extended BIOS data area, or the end of the base memory if there is none; then the BIOS. *)
Definition mp_places (m : mem) : list Z :=
  (if ebda m =? 0 then places (u32 (base_end m - 1024)) 1024 else places (ebda m) 1024) ++ places 0xF0000 0x10000.

(** ** Lemmas *)

Definition byte_mem (m : mem) : Prop := forall a b, m !! a = Some b -> 0 <= b < 256.

Lemma ldb_ok s a b : mmem s !! a = Some b -> ldb a s = Ret b s.
Proof. intros H. unfold ldb. msimp. by rewrite H. Qed.

Lemma ldb_mapped s a n k : mapped (mmem s) a n -> 0 <= k < n -> ldb (a + k) s = Ret (default 0 (mmem s !! (a + k))) s.
Proof. intros H Hk. destruct (H (a + k) ltac:(lia)) as [b Hb]. rewrite Hb. by apply ldb_ok. Qed.

Lemma bytes_S m p n : bytes m p (S n) = default 0 (m !! p) :: bytes m (p + 1) n.
Proof.
  unfold bytes. cbn [seq fmap list_fmap]. rewrite Z.add_0_r. f_equal. rewrite <- (fmap_S_seq 0 n), <- list_fmap_compose. apply list_fmap_ext. intros i x _. unfold compose. do 2 f_equal. lia.
Qed.

Lemma bytes_length m p n : length (bytes m p n) = n.
Proof. unfold bytes. by rewrite length_fmap, length_seq. Qed.

Lemma is_at_ok s lit : forall p, mapped (mmem s) p (Z.of_nat (length lit)) -> is_at p lit s = Ret (bool_decide (bytes (mmem s) p (length lit) = lit)) s.
Proof.
  induction lit as [|c lit IH]; intros p Hm; [done|]. cbn [is_at length]. rewrite bytes_S. destruct (Hm p) as [b Hb]; [cbn [length]; lia|]. rewrite (bind_ret _ _ _ _ _ (ldb_ok s p b Hb)), Hb. cbn [from_option id].
  destruct (Z.eqb_spec b c) as [->|Hne]; cbn [negb].
  - rewrite IH by (eapply mapped_sub; [exact Hm|lia|cbn [length]; lia]). f_equal. apply bool_decide_ext. split; [by intros ->|by intros [=]].
  - f_equal. symmetry. apply bool_decide_eq_false. congruence.
Qed.

Lemma sum_of_bound (m : mem) p n : byte_mem m -> 0 <= sum_of (bytes m p n) <= 255 * Z.of_nat n.
Proof.
  intros Hb. revert p. induction n as [|n IH]; intros p; [done|]. rewrite bytes_S. cbn [sum_of foldr]. specialize (IH (p + 1)). unfold sum_of in IH.
  assert (0 <= default 0 (m !! p) < 256) by (destruct (m !! p) as [b|] eqn:E; cbn; [by eapply Hb|lia]). lia.
Qed.

Lemma sum_loop_ok s n : byte_mem (mmem s) -> forall p acc, mapped (mmem s) p (Z.of_nat n) -> 0 <= acc -> acc + 255 * Z.of_nat n < 2 ^ 31 ->
  sum_loop p n acc s = Ret (u8 (acc + sum_of (bytes (mmem s) p n))) s.
Proof.
  intros Hb. induction n as [|n IH]; intros p acc Hm Ha Hlt; [cbn; by rewrite Z.add_0_r|]. cbn [sum_loop]. rewrite bytes_S. destruct (Hm p) as [b Hp]; [lia|].
  rewrite (bind_ret _ _ _ _ _ (ldb_ok s p b Hp)), Hp. cbn [from_option id sum_of foldr]. pose proof (Hb p b Hp). rewrite s32_small by lia.
  rewrite IH by (lia || (eapply mapped_sub; [exact Hm|lia|lia])). f_equal. f_equal. unfold sum_of. lia.
Qed.

Lemma sum_ok s p n : byte_mem (mmem s) -> mapped (mmem s) p n -> 0 <= n < 2 ^ 16 -> sum p n s = Ret (sum_of (bytes (mmem s) p (Z.to_nat n)) mod 256) s.
Proof. intros Hb Hm Hn. unfold sum. rewrite sum_loop_ok by (done || lia || (eapply mapped_sub; [exact Hm|lia|lia])). done. Qed.

Lemma mpsearch_loop_ok s ps : byte_mem (mmem s) -> Forall (fun p => mapped (mmem s) p 16) ps -> mpsearch_loop ps s = Ret (find_mp (mmem s) ps) s.
Proof.
  intros Hb Hp. unfold find_mp. induction Hp as [|p ps Hm Hp IH]; [done|]. cbn [mpsearch_loop List.find].
  rewrite (bind_ret _ _ _ _ _ (is_at_ok s MP_sig p ltac:(eapply mapped_sub; [exact Hm|lia|cbn; lia]))). unfold valid_mp at 1. change (length MP_sig) with 4%nat.
  destruct (bool_decide (bytes (mmem s) p 4 = MP_sig)); cbn [negb andb]; [|done]. rewrite (bind_ret _ _ _ _ _ (sum_ok s p 16 Hb Hm ltac:(lia))). change (Z.to_nat 16) with 16%nat. by case_match.
Qed.

Lemma find_mp_app m l1 l2 : ~ 0 ∈ l1 -> find_mp m (l1 ++ l2) = if find_mp m l1 =? 0 then find_mp m l2 else find_mp m l1.
Proof.
  unfold find_mp. induction l1 as [|p l1 IH]; intros H0; [done|]. cbn [app List.find]. destruct (valid_mp m p); [|apply IH; intros ?; by apply H0, list_elem_of_further].
  cbn. destruct (Z.eqb_spec p 0) as [->|]; [|done]. exfalso. apply H0, list_elem_of_here.
Qed.

Lemma lor_bytes a b : 0 <= b < 256 -> Z.lor (Z.shiftl a 8) b = 2 ^ 8 * a + b.
Proof.
  intros Hb. rewrite Z.shiftl_mul_pow2 by lia. assert (E : Z.land (a * 2 ^ 8) b = 0); [|pose proof (Z.add_lor_land (a * 2 ^ 8) b); lia].
  apply Z.bits_inj'. intros n Hn. rewrite Z.land_spec, Z.bits_0. destruct (Z.lt_ge_cases n 8); [by rewrite Z.mul_pow2_bits_low|].
  rewrite <- (Z.mod_small b (2 ^ 8)) by lia. rewrite Z.mod_pow2_bits_high by lia. apply andb_false_r.
Qed.

(** The search for the structure. *)
Lemma mpsearch_ok s : let m := mmem s in byte_mem m -> mapped m (P2V 0x400) 256 -> Forall (fun p => mapped m p 16) (mp_places m) -> ~ 0 ∈ mp_places m ->
  mpsearch s = Ret (find_mp m (mp_places m)) s.
Proof.
  intros m Hb Hbda Hp H0. assert (Hld : forall k, 0 <= k < 256 -> ldb (P2V 0x400 + k) s = Ret (default 0 (m !! (P2V 0x400 + k))) s) by (intros k Hk; by eapply ldb_mapped).
  assert (Hr : forall a, 0 <= default 0 (m !! a) < 256) by (intros a; destruct (m !! a) as [b|] eqn:E; cbn; [by eapply Hb|lia]).
  unfold mpsearch. cbv zeta. rewrite (bind_ret _ _ _ _ _ (Hld 0x0F ltac:(lia))), (bind_ret _ _ _ _ _ (Hld 0x0E ltac:(lia))), lor_bytes by apply Hr. rewrite Z.shiftl_mul_pow2 by lia.
  change (P2V 0x400 + 0x0F) with (P2V 0x40F). change (P2V 0x400 + 0x0E) with (P2V 0x40E). replace (_ * 2 ^ 4) with (ebda m) by (unfold ebda; lia).
  unfold mp_places in *. apply Forall_app in Hp as [Hp1 Hp2]. rewrite find_mp_app by (intros ?; apply H0; apply elem_of_app; by left).
  destruct (Z.eqb_spec (ebda m) 0) as [E|E]; cbn [negb].
  - rewrite !bind_assoc. rewrite (bind_ret _ _ _ _ _ (Hld 0x14 ltac:(lia))), bind_assoc, (bind_ret _ _ _ _ _ (Hld 0x13 ltac:(lia))), lor_bytes by apply Hr.
    change (P2V 0x400 + 0x14) with (P2V 0x414). change (P2V 0x400 + 0x13) with (P2V 0x413). replace (_ * 1024 - 1024) with (base_end m - 1024) by (unfold base_end; lia).
    unfold mpsearch1. rewrite (bind_ret _ _ _ _ _ (mpsearch_loop_ok s _ Hb Hp1)). fold m. destruct (find_mp m _ =? 0); cbn [negb]; [|done]. by apply mpsearch_loop_ok.
  - unfold mpsearch1. rewrite (bind_ret _ _ _ _ _ (mpsearch_loop_ok s _ Hb Hp1)). fold m. destruct (find_mp m _ =? 0); cbn [negb]; [|done]. by apply mpsearch_loop_ok.
Qed.

(** ** Reading the table *)

(** The state after an entry. *)
Definition read_entry (s : mpst) (x : entry) : mpst :=
  match x with
  | EProc id _ => if ncpu s <? NCPU then s <| apicids ::= fun l => aset l (ncpu s) id |> <| ncpu := ncpu s + 1 |> else s
  | EIoapic no _ => s <| ioapicid := no |>
  | EOther _ _ => s
  end.

Lemma read_entry_mem s x : mmem (read_entry s x) = mmem s.
Proof. destruct x; cbn; try done. by case_match. Qed.

Lemma mpinit_loop_ok l : forall s p fuel, Forall entry_ok l -> bytes_at (mmem s) p (table_bytes l) -> (length l <= fuel)%nat ->
  mpinit_loop fuel p (p + Z.of_nat (length (table_bytes l))) true s = Ret true (foldl read_entry s l).
Proof.
  induction l as [|x l IH]; intros s p fuel Hl Hb Hf.
  { cbn [table_bytes length]. rewrite Z.add_0_r. destruct fuel; cbn [mpinit_loop]; by rewrite Z.leb_refl. }
  apply Forall_cons in Hl as [Hx Hl]. destruct fuel as [|fuel]; [cbn in Hf; lia|]. unfold table_bytes in Hb |- *. cbn [fmap list_fmap concat] in Hb |- *. fold (table_bytes l) in Hb |- *.
  apply bytes_at_app in Hb as [Hbx Hbl]. rewrite length_app, Nat2Z.inj_add, Z.add_assoc. cbn [mpinit_loop foldl]. set (e := p + Z.of_nat (length (entry_bytes x)) + Z.of_nat (length (table_bytes l))).
  assert (Hlen : 0 < Z.of_nat (length (entry_bytes x))) by (destruct x; cbn; lia). replace (e <=? p) with false by lia.
  assert (Hnext : forall s1, mmem s1 = mmem s -> mpinit_loop fuel (p + Z.of_nat (length (entry_bytes x))) e true s1 = Ret true (foldl read_entry s1 l)).
  { intros s1 E. apply IH; [done|by rewrite E|cbn in Hf; lia]. }
  destruct x as [id rest|no rest|t rest]; cbn [entry_bytes bytes_at] in Hbx; cbn [entry_ok] in Hx; cbn [entry_bytes length] in Hnext.
  - destruct Hbx as (H0 & H1 & _). rewrite (bind_ret _ _ _ _ _ (ldb_ok s _ _ H0)). change (MPPROC =? MPPROC) with true. cbv iota. erewrite bind_ret; [|reflexivity].
    rewrite Hx in Hnext. change (Z.of_nat 20) with 20 in Hnext. cbn [read_entry]. destruct (ncpu s <? NCPU).
    + rewrite bind_assoc, (bind_ret _ _ _ _ _ (ldb_ok s _ _ H1)). erewrite bind_ret; [|reflexivity]. by apply Hnext.
    + rewrite ret_bind. by apply Hnext.
  - destruct Hbx as (H0 & H1 & _). rewrite (bind_ret _ _ _ _ _ (ldb_ok s _ _ H0)). change (MPIOAPIC =? MPPROC) with false. change (MPIOAPIC =? MPIOAPIC) with true. cbv iota.
    rewrite (bind_ret _ _ _ _ _ (ldb_ok s _ _ H1)). erewrite bind_ret; [|reflexivity]. rewrite Hx in Hnext. by apply Hnext.
  - destruct Hbx as (H0 & _). rewrite (bind_ret _ _ _ _ _ (ldb_ok s _ _ H0)). destruct Hx as [Ht Hr]. rewrite Hr in Hnext. cbn [read_entry].
    destruct Ht as [->|[->| ->]]; cbn [Z.eqb MPBUS MPIOINTR MPLINTR MPPROC MPIOAPIC Pos.eqb orb]; by apply Hnext.
Qed.

Lemma procs_cons id rest l : procs (EProc id rest :: l) = id :: procs l.
Proof. done. Qed.

(** What the entries leave in the variables. *)
Lemma read_entries l : forall s, length (apicids s) = 8%nat -> 0 <= ncpu s <= 8 ->
  let s' := foldl read_entry s l in
  ncpu s' = Z.min 8 (ncpu s + Z.of_nat (length (procs l))) /\
  take (Z.to_nat (ncpu s')) (apicids s') = take 8 (take (Z.to_nat (ncpu s)) (apicids s) ++ procs l) /\
  ioapicid s' = last_ioapic l (ioapicid s) /\ mmem s' = mmem s /\ lapic s' = lapic s /\ outs s' = outs s.
Proof.
  induction l as [|x l IH]; intros s Hl Hn; cbn [foldl].
  { cbn. rewrite app_nil_r, take_take. split_and!; try done; [lia|]. f_equal. lia. }
  destruct x as [id rest|no rest|t rest]; cbn [read_entry]; [|match goal with |- context [foldl read_entry ?x l] => exact (IH x Hl Hn) end|exact (IH s Hl Hn)]. unfold NCPU. destruct (Z.ltb_spec (ncpu s) 8).
  - match goal with |- context [foldl read_entry ?x l] => set (s1 := x) end. assert (Ha : apicids s1 = aset (apicids s) (ncpu s) id) by done. assert (Hc : ncpu s1 = ncpu s + 1) by done.
    destruct (IH s1) as (I1 & I2 & I3 & I4 & I5 & I6); [by rewrite Ha, aset_length|lia|]. split_and!; try done.
    + rewrite I1, Hc, procs_cons. cbn [length]. lia.
    + rewrite I2, Ha, Hc. replace (ncpu s) with (Z.of_nat (Z.to_nat (ncpu s))) at 2 by lia. rewrite aset_nat, procs_cons. f_equal.
      replace (Z.to_nat (ncpu s + 1)) with (S (Z.to_nat (ncpu s))) by lia. rewrite (take_S_r _ _ id) by (apply list_lookup_insert_eq; lia). rewrite take_insert_ge by lia. by rewrite <- app_assoc.
  - assert (ncpu s = 8) as E by lia. destruct (IH s Hl Hn) as (I1 & I2 & I3). split_and!; [rewrite I1, procs_cons; cbn [length]; lia| |apply I3..].
    rewrite I2, E. change (Z.to_nat 8) with 8%nat. rewrite !take_app_le by (rewrite length_take; lia). done.
Qed.

(** An entry of another type: the loop does not come to an end. *)
Lemma mpinit_loop_stuck s p e t : mmem s !! p = Some t -> p < e -> t < 0 \/ 4 < t -> forall fuel ismp, mpinit_loop fuel p e ismp s = Spin.
Proof.
  intros Hp He Ht fuel. induction fuel as [|fuel IH]; intros ismp; cbn [mpinit_loop]; replace (e <=? p) with false by lia; [done|].
  rewrite (bind_ret _ _ _ _ _ (ldb_ok s _ _ Hp)). unfold MPPROC, MPIOAPIC, MPBUS, MPIOINTR, MPLINTR. replace (t =? 0) with false by lia. replace (t =? 2) with false by lia.
  replace ((t =? 1) || (t =? 3) || (t =? 4)) with false by lia. apply IH.
Qed.

(** ** The whole of mpinit *)

(** A configuration table with the bytes [tb] behind its header. *)
Definition conf_bytes (version cksum : Z) (mid : list Z) (la : Z) (xt tb : list Z) : list Z :=
  let n := 44 + Z.of_nat (length tb) in
  PCMP_sig ++ [u8 n; u8 (Z.shiftr n 8); version; cksum] ++ mid ++ le32 la ++ xt ++ tb.

(** The structure at [p] is the one that is found, and the table that it points to is in memory. *)
Record tables (m : mem) (p conf version cksum : Z) (mid : list Z) (la : Z) (xt tb : list Z) : Prop := {
  ta_bytes : byte_mem m;
  ta_bda : mapped m (P2V 0x400) 256;
  ta_places : Forall (fun q => mapped m q 16) (mp_places m);
  ta_null : ~ 0 ∈ mp_places m;
  ta_find : find_mp m (mp_places m) = p;
  ta_p : p <> 0;
  ta_phys : exists phys, is_u32 phys /\ phys <> 0 /\ bytes_at m (p + 4) (le32 phys) /\ conf = P2V phys;
  ta_conf : bytes_at m conf (conf_bytes version cksum mid la xt tb);
  ta_len : length mid = 28%nat /\ length xt = 4%nat /\ 44 + Z.of_nat (length tb) < 2 ^ 16;
  ta_version : version = 1 \/ version = 4;
  ta_la : is_u32 la;
  ta_sum : sum_of (conf_bytes version cksum mid la xt tb) mod 256 = 0
}.

Lemma bytes_at_bytes m a bs : bytes_at m a bs -> bytes m a (length bs) = bs.
Proof. revert a. induction bs as [|b bs IH]; intros a H; [done|]. destruct H as [H1 H2]. cbn [length]. by rewrite bytes_S, H1, IH. Qed.

Lemma ldl_ok s a v : is_u32 v -> bytes_at (mmem s) a (le32 v) -> ldl a s = Ret v s.
Proof.
  intros Hv (H0 & H1 & H2 & H3 & _). unfold ldl. rewrite (bind_ret _ _ _ _ _ (ldb_ok s _ _ H0)), (bind_ret _ _ _ _ _ (ldb_ok s _ _ H1)).
  rewrite <- Z.add_assoc in H2. rewrite (bind_ret _ _ _ _ _ (ldb_ok s _ _ H2)). rewrite <- Z.add_assoc in H3. rewrite <- Z.add_assoc in H3. rewrite (bind_ret _ _ _ _ _ (ldb_ok s _ _ H3)).
  unfold mret, M_ret. f_equal. by apply le32_value.
Qed.

Lemma find_mp_in m ps p : find_mp m ps = p -> p <> 0 -> p ∈ ps.
Proof.
  unfold find_mp. intros E Hp. destruct (List.find _ ps) as [q|] eqn:F; cbn in E; [|done]. subst q. apply List.find_some in F as [F _]. by apply list_elem_of_In.
Qed.

(** The bytes of the header. *)
Lemma conf_fields m p conf version cksum mid la xt tb : tables m p conf version cksum mid la xt tb ->
  let n := 44 + Z.of_nat (length tb) in
  mapped m conf n /\ bytes m conf 4 = PCMP_sig /\ bytes_at m (conf + 4) [u8 n; u8 (Z.shiftr n 8); version] /\ bytes_at m (conf + 36) (le32 la) /\ bytes_at m (conf + 44) tb /\
  sum_of (bytes m conf (Z.to_nat n)) mod 256 = 0.
Proof.
  intros [_ _ _ _ _ _ _ Hc (Hm & Hx & _) _ _ Hs] n. assert (Hl : length (conf_bytes version cksum mid la xt tb) = Z.to_nat n) by (unfold conf_bytes; cbv zeta; rewrite !length_app, Hm, Hx; cbn [length PCMP_sig le32]; lia).
  split_and!.
  - replace n with (Z.of_nat (length (conf_bytes version cksum mid la xt tb))) by lia. by apply bytes_at_mapped.
  - apply bytes_at_app in Hc as [Hc _]. exact (bytes_at_bytes m conf PCMP_sig Hc).
  - apply bytes_at_app in Hc as [_ Hc]. apply (bytes_at_app m _ [u8 n; u8 (Z.shiftr n 8); version] [cksum]). apply bytes_at_app in Hc as [Hc _]. exact Hc.
  - do 3 apply bytes_at_app in Hc as [_ Hc]. apply bytes_at_app in Hc as [Hc _]. rewrite Hm in Hc. cbn [length PCMP_sig] in Hc. by replace (conf + 36) with (conf + Z.of_nat 4 + Z.of_nat 4 + Z.of_nat 28) by lia.
  - do 5 apply bytes_at_app in Hc as [_ Hc]. rewrite Hm, Hx in Hc. cbn [length PCMP_sig le32] in Hc. by replace (conf + 44) with (conf + Z.of_nat 4 + Z.of_nat 4 + Z.of_nat 28 + Z.of_nat 4 + Z.of_nat 4) by lia.
  - by rewrite <- Hl, (bytes_at_bytes _ _ _ Hc).
Qed.

Lemma conf_length s conf n v : bytes_at (mmem s) (conf + 4) [u8 n; u8 (Z.shiftr n 8); v] -> 0 <= n < 2 ^ 16 -> ldh (conf + 4) s = Ret n s.
Proof.
  intros (H0 & H1 & _) Hn. unfold ldh. rewrite (bind_ret _ _ _ _ _ (ldb_ok s _ _ H0)), (bind_ret _ _ _ _ _ (ldb_ok s _ _ H1)). unfold mret, M_ret. f_equal.
  unfold u8. rewrite Z.shiftr_div_pow2 by lia. zlia.
Qed.

Lemma mpconfig_ok s p conf version cksum mid la xt tb : tables (mmem s) p conf version cksum mid la xt tb -> mpconfig s = Ret (Some (conf, p)) s.
Proof.
  intros Ht. pose proof (conf_fields _ _ _ _ _ _ _ _ _ Ht) as (F1 & F2 & F3 & _ & _ & F6). destruct Ht as [T1 T2 T3 T4 T5 T6 (phys & P1 & P2 & P3 & ->) T8 (T9 & T10 & T11) T12 _ _].
  unfold mpconfig. rewrite (bind_ret _ _ _ _ _ (mpsearch_ok s T1 T2 T3 T4)), T5. replace (p =? 0) with false by lia. rewrite (bind_ret _ _ _ _ _ (ldl_ok s _ _ P1 P3)). replace (phys =? 0) with false by lia. cbv zeta.
  rewrite (bind_ret _ _ _ _ _ (is_at_ok s PCMP_sig (P2V phys) ltac:(eapply mapped_sub; [exact F1|lia|cbn; lia]))). change (length PCMP_sig) with 4%nat. rewrite F2, bool_decide_true by done. cbn [negb].
  pose proof F3 as (_ & _ & F4 & _). rewrite <- !Z.add_assoc in F4. rewrite (bind_ret _ _ _ _ _ (ldb_ok s _ _ F4)). replace (negb (version =? 1) && negb (version =? 4)) with false by (destruct T12 as [->| ->]; done).
  rewrite (bind_ret _ _ _ _ _ (conf_length s _ _ _ F3 ltac:(lia))), (bind_ret _ _ _ _ _ (sum_ok s (P2V phys) _ T1 F1 ltac:(lia))), F6. done.
Qed.

(** The processors of a table are found: with a valid structure in one of the places
    where the kernel looks, and a table with the entries [l], [mpinit] returns with the
    APIC identifiers of the first eight processors, the I/O APIC of the last entry that has one, and
    the address of the local APIC; the interrupt mode register is written if the structure
    asks for that. *)
Theorem mpinit_reads_table inb s p conf version cksum mid la xt l :
  tables (mmem s) p conf version cksum mid la xt (table_bytes l) -> Forall entry_ok l -> ncpu s = 0 -> length (apicids s) = 8%nat ->
  exists s', mpinit inb s = Ret tt s' /\
    ncpu s' = Z.min 8 (Z.of_nat (length (procs l))) /\ take (Z.to_nat (ncpu s')) (apicids s') = take 8 (procs l) /\
    ioapicid s' = last_ioapic l (ioapicid s) /\ lapic s' = la /\ mmem s' = mmem s /\
    outs s' = outs s ++ (if default 0 (mmem s !! (p + 12)) =? 0 then [] else [(0x22, 0x70); (0x23, Z.lor (inb 0x23) 1)]).
Proof.
  intros Ht Hl Hn Ha. pose proof (conf_fields _ _ _ _ _ _ _ _ _ Ht) as (_ & _ & F3 & F4 & F5 & _). set (n := 44 + _) in *. destruct (ta_len _ _ _ _ _ _ _ _ _ Ht) as (_ & _ & Hlen). fold n in Hlen.
  unfold mpinit. rewrite (bind_ret _ _ _ _ _ (mpconfig_ok s _ _ _ _ _ _ _ _ Ht)), (bind_ret _ _ _ _ _ (ldl_ok s _ _ (ta_la _ _ _ _ _ _ _ _ _ Ht) F4)). erewrite bind_ret; [|reflexivity].
  match goal with |- context [(ldh _ ≫= _) ?x] => set (s1 := x) end. rewrite (bind_ret _ _ _ _ _ (conf_length s1 conf n version F3 ltac:(lia))).
  replace (conf + n) with (conf + 44 + Z.of_nat (length (table_bytes l))) by lia.
  assert (Hcnt : (length l <= length (table_bytes l))%nat).
  { clear. induction l as [|x l IH]; [done|]. unfold table_bytes in *. cbn [fmap list_fmap concat length]. rewrite length_app. destruct x; cbn [entry_bytes length]; lia. }
  rewrite (bind_ret _ _ _ _ _ (mpinit_loop_ok l s1 (conf + 44) (Z.to_nat n) Hl F5 ltac:(lia))). cbn [negb].
  destruct (read_entries l s1) as (R1 & R2 & R3 & R4 & R5 & R6); [done|change (ncpu s1) with (ncpu s); lia|]. set (s2 := foldl read_entry s1 l) in *.
  change (ncpu s1) with (ncpu s) in *. rewrite Hn in *. change (mmem s1) with (mmem s) in *. change (outs s1) with (outs s) in *.
  destruct (proj1 (Forall_forall _ _) (ta_places _ _ _ _ _ _ _ _ _ Ht) p (find_mp_in _ _ _ (ta_find _ _ _ _ _ _ _ _ _ Ht) (ta_p _ _ _ _ _ _ _ _ _ Ht)) (p + 12)) as [b Hb]; [lia|].
  rewrite (bind_ret _ _ _ _ _ (ldb_ok s2 (p + 12) b ltac:(by rewrite R4))), Hb. cbn [from_option id]. destruct (b =? 0); cbn [negb].
  - exists s2. split; [done|]. rewrite app_nil_r. split_and!; try done; lia.
  - eexists. split; [done|]. cbn -[foldl]. rewrite R6. split_and!; try done; lia.
Qed.

(** An entry of a type that is not known: the kernel does not come to its panic. *)
Lemma mpinit_unknown_entry inb s p conf version cksum mid la xt t r : tables (mmem s) p conf version cksum mid la xt (t :: r) -> 4 < t -> mpinit inb s = Spin.
Proof.
  intros Ht Hbad. pose proof (conf_fields _ _ _ _ _ _ _ _ _ Ht) as (_ & _ & F3 & F4 & F5 & _). set (n := 44 + _) in *. destruct (ta_len _ _ _ _ _ _ _ _ _ Ht) as (_ & _ & Hlen). fold n in Hlen.
  unfold mpinit. rewrite (bind_ret _ _ _ _ _ (mpconfig_ok s _ _ _ _ _ _ _ _ Ht)), (bind_ret _ _ _ _ _ (ldl_ok s _ _ (ta_la _ _ _ _ _ _ _ _ _ Ht) F4)). erewrite bind_ret; [|reflexivity].
  match goal with |- context [(ldh _ ≫= _) ?x] => set (s1 := x) end. rewrite (bind_ret _ _ _ _ _ (conf_length s1 conf n version F3 ltac:(lia))).
  unfold mbind, M_bind. rewrite (mpinit_loop_stuck s1 (conf + 44) (conf + n) t); [done|apply F5|unfold n; cbn [length]; lia|lia].
Qed.

(** ** A machine with two processors

    The structure is at 0x90000, in the extended BIOS data area, and the table behind it. *)

Definition zeros (a n : Z) : mem := list_to_map ((fun i => (a + i, 0)) <$> seqZ 0 n).
Definition demo_entries : list entry := [EProc 0 (replicate 18 0); EProc 1 (replicate 18 0); EOther MPBUS (replicate 7 0); EIoapic 2 (replicate 6 0)].
Definition demo_conf : list Z := conf_bytes 4 132 (replicate 28 0) 0xFEE00000 (replicate 4 0) (table_bytes demo_entries).
Definition demo_mp : list Z := MP_sig ++ le32 0x90100 ++ [1; 4; 150; 0; 0; 0; 0; 0].
Definition demo_mem : mem :=
  write_bytes (P2V 0x90100) demo_conf (write_bytes (P2V 0x90000) demo_mp (write_bytes (P2V 0x40E) [0; 0x90] (zeros (P2V 0) 0x100000))).
Definition demo_mpst : mpst := MpSt demo_mem (replicate 8 0) 0 0 0 [].

Lemma zeros_lookup a n x : zeros a n !! x = if decide (a <= x < a + n) then Some 0 else None.
Proof.
  unfold zeros. destruct (decide _) as [H|H].
  - apply elem_of_list_to_map_1; [|apply list_elem_of_fmap; exists (x - a); split; [f_equal; lia|apply elem_of_seqZ; lia]].
    rewrite <- list_fmap_compose. apply NoDup_fmap_2; [intros i j E; unfold compose in E; cbn in E; lia|apply NoDup_seqZ].
  - apply not_elem_of_list_to_map_1. rewrite <- list_fmap_compose. intros (i & -> & Hi)%list_elem_of_fmap. apply elem_of_seqZ in Hi. unfold compose in H. cbn in H. lia.
Qed.

Lemma places_in a n q : q ∈ places a n -> exists i, q = P2V a + 16 * i /\ 0 <= i < (n + 15) / 16.
Proof. unfold places. intros (i & -> & Hi)%list_elem_of_fmap. apply elem_of_seqZ in Hi. exists i. split; [done|lia]. Qed.

Lemma byte_mem_write a bs m : Forall (fun b => 0 <= b < 256) bs -> byte_mem m -> byte_mem (write_bytes a bs m).
Proof.
  intros Hb Hm x b. rewrite write_bytes_lookup. destruct (decide (a <= x)); [|by apply Hm]. destruct (bs !! _) as [c|] eqn:E; [|by apply Hm]. intros [= <-]. by eapply Forall_lookup_1 in Hb.
Qed.

Lemma demo_bytes : bytes_at demo_mem (P2V 0x90100) demo_conf /\ bytes_at demo_mem (P2V 0x90000) demo_mp /\ bytes_at demo_mem (P2V 0x40E) [0; 0x90].
Proof.
  split_and!; [apply write_bytes_at|apply bytes_at_write_other; [by left|apply write_bytes_at]|]. apply bytes_at_write_other; [by left|]. apply bytes_at_write_other; [by left|apply write_bytes_at].
Qed.

Lemma demo_mapped : mapped demo_mem (P2V 0) 0x100000.
Proof. do 3 apply mapped_write. intros x Hx. rewrite zeros_lookup, decide_True by done. by eexists. Qed.

Lemma demo_places : mp_places demo_mem = places 0x90000 1024 ++ places 0xF0000 0x10000.
Proof.
  destruct demo_bytes as (_ & _ & E0 & E1 & _). change (P2V 0x40E + 1) with (P2V 0x40F) in E1. unfold mp_places, ebda. by rewrite E0, E1.
Qed.

Lemma demo_places_range q : q ∈ mp_places demo_mem -> 0x80090000 <= q /\ q + 16 <= 0x80100000.
Proof.
  rewrite demo_places, elem_of_app. intros [Hq|Hq]; apply places_in in Hq as (i & -> & Hi); [change (P2V 0x90000) with 0x80090000|change (P2V 0xF0000) with 0x800F0000]; zlia.
Qed.

Lemma places_hd a n : 0 < n -> exists l, places a n = P2V a :: l.
Proof. intros Hn. unfold places. rewrite seqZ_cons by zlia. cbn [fmap list_fmap]. rewrite Z.add_0_r. by eexists. Qed.

Lemma find_mp_hd m p l : valid_mp m p = true -> find_mp m (p :: l) = p.
Proof. intros E. unfold find_mp. cbn [List.find]. by rewrite E. Qed.

Lemma demo_valid : valid_mp demo_mem (P2V 0x90000) = true.
Proof.
  destruct demo_bytes as (_ & B2 & _). unfold valid_mp. pose proof (bytes_at_bytes _ _ _ B2) as E16. change (length demo_mp) with 16%nat in E16. rewrite E16.
  apply (bytes_at_app demo_mem (P2V 0x90000) MP_sig) in B2 as [B2 _]. pose proof (bytes_at_bytes _ _ _ B2) as E4. change (length MP_sig) with 4%nat in E4. rewrite E4. clear. vm_compute. reflexivity.
Qed.

Lemma demo_find : find_mp demo_mem (mp_places demo_mem) = P2V 0x90000.
Proof. rewrite demo_places. destruct (places_hd 0x90000 1024) as [l ->]; [done|]. apply find_mp_hd, demo_valid. Qed.

Lemma demo_tables : tables demo_mem (P2V 0x90000) (P2V 0x90100) 4 132 (replicate 28 0) 0xFEE00000 (replicate 4 0) (table_bytes demo_entries).
Proof.
  split.
  - do 3 (apply byte_mem_write; [by apply (bool_decide_unpack _); vm_compute|]). intros x b. rewrite zeros_lookup. case_decide; [intros [= <-]; lia|done].
  - eapply mapped_sub; [exact demo_mapped|done|done].
  - apply Forall_forall. intros q Hq. destruct (demo_places_range q Hq). eapply mapped_sub; [exact demo_mapped|change (P2V 0) with 0x80000000; lia..].
  - intros H0. destruct (demo_places_range 0 H0). lia.
  - exact demo_find.
  - done.
  - exists 0x90100. destruct demo_bytes as (_ & B2 & _). apply (bytes_at_app demo_mem (P2V 0x90000) MP_sig) in B2 as [_ B2]. apply bytes_at_app in B2 as [B2 _]. split_and!; [done|done|exact B2|done].
  - apply demo_bytes.
  - done.
  - by right.
  - done.
  - vm_compute. reflexivity.
Qed.

Lemma mpinit_reads_table_witness : exists s', mpinit (fun _ => 0) demo_mpst = Ret tt s' /\ ncpu s' = 2 /\ take 2 (apicids s') = [0; 1] /\ ioapicid s' = 2 /\ lapic s' = 0xFEE00000.
Proof.
  destruct (mpinit_reads_table (fun _ => 0) demo_mpst _ _ _ _ _ _ _ demo_entries demo_tables) as (s' & E & H1 & H2 & H3 & H4 & _); [by repeat constructor; auto|done|done|].
  exists s'. rewrite H1 in *. split_and!; [exact E|done|exact H2|exact H3|exact H4].
Defined.
