(* ===== verification/Sysproc.v ===== *)
(** * Sysproc: the system calls on processes (sysproc.c)

    The calls fetch their arguments from the stack of the process and run the operations
    of proc.c.  The state adds to that of proc.c the lock of the clock and what a trap does
    to the outside: acknowledgements to the interrupt controller and messages.  A call that
    gives up the CPU ends a leg with what it needs to go on.  What [waitx] and [getpinfo]
    store through their pointers while they hold ptable.lock is stored after the release
    here: it goes to the memory of the process itself. *)

From S2P Require Import Prelude Spinlock Proctab Mlfq Proc.

(** The messages of trap.c and syscall.c. *)
Inductive message :=
| SpuriousAt (cpu cs eip : Z)
| UnexpectedTrap (trapno cpu eip cr2 : Z)
| KillProc (pid : Z) (name : list Z) (trapno err cpu eip addr : Z)
| UnknownCall (pid : Z) (name : list Z) (num : Z).

Record tstate (E : Type) := TState {
  kn : kern E;
  tickslock : spinlock;
  eois : Z;                    (* writes of the EOI register *)
  said : list message
}.
Arguments TState {E} kn tickslock eois said.
Arguments kn {E} t.
Arguments tickslock {E} t.
Arguments eois {E} t.
Arguments said {E} t.
#[export] Instance eta_tstate E : Eta (tstate E) := fun r => TState (kn r) (tickslock r) (eois r) (said r).

(** A load from and a store to the memory of the process that runs, through its page table. *)
Class UserMem (E : Type) := {
  uload : Z -> M (kern E) Z;
  ustore : Z -> Z -> M (kern E) unit
}.

(** What a system call ends in: a value, a call of [sleep] in [wait] or [waitx] (with the
    pointers for the times) or in [sys_sleep] (with [n] and [ticks0]), or [exit]. *)
Inductive sysres :=
| SRet (v : Z)
| SWait
| SWaitx (wtime rtime : Z)
| SSleep (n ticks0 : Z)
| SExit.

Section Sysproc.
Context {E : Type} `{!Services E} `{!UserMem E}.

Definition on_kern {A} (m : M (kern E) A) : M (tstate E) A := zoom kn (fun k s => s <| kn := k |>) m.
Definition on_pt {A} (m : M pstate A) : M (tstate E) A := on_kern (lift m).

(** [acquire(&tickslock)] and [release(&tickslock)]. *)
Definition with_ticks {A} (m : M lstate A) : M (tstate E) A :=
  zoom (fun s => (cpus (ps (kn s)), tickslock s))
       (fun l s => s <| kn ::= (fun k => k <| ps ::= (fun p => p <| cpus := l.1 |>) |>) |> <| tickslock := l.2 |>) m.
Definition acquire_ticks (c : nat) : M (tstate E) unit := with_ticks (acquire c).
Definition release_ticks (c : nat) : M (tstate E) unit := with_ticks (release c).

(** [myproc()], and the entry it points to. *)
Definition cur (c : nat) : M (tstate E) (option nat) := on_pt (my_proc c).
Definition cur_entry (c : nat) : M (tstate E) proc :=
  mp ← cur c; p ← deref mp; on_pt (get_proc p).

(** ** Arguments *)

Definition fetchint (c : nat) (addr : Z) : M (tstate E) (option Z) :=
  k ← cur_entry c;
  if (addr >=? psz k) || (u32 (addr + 4) >? psz k) then mret None
  else v ← on_kern (uload addr); mret (Some (s32 v)).

Definition argint (c : nat) (n : Z) : M (tstate E) (option Z) :=
  k ← cur_entry c;
  fetchint c (u32 (tf_esp (frame k) + 4 + 4 * n)).

Definition argptr (c : nat) (n size : Z) : M (tstate E) (option Z) :=
  k ← cur_entry c;
  mi ← argint c n;
  match mi with
  | None => mret None
  | Some i =>
      if (size <? 0) || (u32 i >=? psz k) || (u32 (u32 i + size) >? psz k) then mret None
      else mret (Some (u32 i))
  end.

(** ** The calls *)

Definition sys_fork (pol : policy) (c : nat) : M (tstate E) sysres :=
  r ← on_kern (fork pol c); mret (SRet r).

Definition sys_exit (c : nat) : M (tstate E) sysres :=
  on_kern (exit c);; mret SExit.

(** A scan of [wait]: it returns, or it sleeps on the process. *)
Definition wait_end (r : wait_result) : sysres :=
  match r with WReturn v => SRet v | WSleep => SWait end.
Definition sys_wait (c : nat) : M (tstate E) sysres :=
  r ← on_kern (wait c); mret (wait_end r).

Definition sys_kill (c : nat) : M (tstate E) sysres :=
  a ← argint c 0;
  match a with
  | None => mret (SRet (-1))
  | Some pid => r ← on_pt (kill c pid); mret (SRet r)
  end.

Definition sys_getpid (c : nat) : M (tstate E) sysres :=
  k ← cur_entry c; mret (SRet (pid k)).

Definition sys_sbrk (c : nat) : M (tstate E) sysres :=
  a ← argint c 0;
  match a with
  | None => mret (SRet (-1))
  | Some n =>
      k ← cur_entry c;
      let addr := s32 (psz k) in
      r ← on_kern (growproc c n);
      if r <? 0 then mret (SRet (-1)) else mret (SRet addr)
  end.

(** The test of the loop and its body up to [sleep(&ticks, &tickslock)], with tickslock
    held.  [ticks - ticks0] is unsigned, and so is the comparison with [n]. *)
Definition sleep_loop (c : nat) (n ticks0 : Z) : M (tstate E) sysres :=
  s ← gets (fun s => s);
  if u32 (ticks (ps (kn s)) - ticks0) <? u32 n then
    k ← cur_entry c;
    if negb (killed k =? 0) then release_ticks c;; mret (SRet (-1))
    else
      zoom (fun s => (ps (kn s), tickslock s))
           (fun st s => s <| kn ::= (fun k => k <| ps := st.1 |>) |> <| tickslock := st.2 |>)
           (sleep c (Some ChTicks) OtherLock);;
      mret (SSleep n ticks0)
  else release_ticks c;; mret (SRet 0).

Definition sys_sleep (c : nat) : M (tstate E) sysres :=
  a ← argint c 0;
  match a with
  | None => mret (SRet (-1))
  | Some n =>
      acquire_ticks c;;
      s ← gets (fun s => s);
      sleep_loop c n (ticks (ps (kn s)))
  end.

(** [sleep] has returned. *)
Definition sys_sleep_resume (c p : nat) (n ticks0 : Z) : M (tstate E) sysres :=
  zoom (fun s => (ps (kn s), tickslock s))
       (fun st s => s <| kn ::= (fun k => k <| ps := st.1 |>) |> <| tickslock := st.2 |>)
       (sleep_resume c p OtherLock);;
  sleep_loop c n ticks0.

Definition sys_uptime (c : nat) : M (tstate E) sysres :=
  acquire_ticks c;;
  s ← gets (fun s => s);
  release_ticks c;;
  mret (SRet (s32 (ticks (ps (kn s))))).

(** [waitx] stores the times of the child it has found. *)
Definition waitx_end (wtime rtime : Z) (r : wait_result * option (Z * Z)) : M (tstate E) sysres :=
  (match r.2 with
   | Some (rt, wt) => on_kern (ustore rtime rt);; on_kern (ustore wtime wt)
   | None => mret tt
   end);;
  mret (match r.1 with WReturn v => SRet v | WSleep => SWaitx wtime rtime end).

Definition sys_waitx (c : nat) : M (tstate E) sysres :=
  a ← argptr c 0 4;
  match a with
  | None => mret (SRet (-1))
  | Some wtime =>
      b ← argptr c 1 4;
      match b with
      | None => mret (SRet (-1))
      | Some rtime => r ← on_kern (waitx c); waitx_end wtime rtime r
      end
  end.

Definition sys_set_priority (c : nat) : M (tstate E) sysres :=
  a ← argint c 0;
  match a with
  | None => mret (SRet (-1))
  | Some pid =>
      b ← argint c 1;
      match b with
      | None => mret (SRet (-1))
      | Some new_priority => r ← on_pt (set_priority c pid new_priority); mret (SRet r)
      end
  end.

(** The fields of [struct proc_stat], in the order of the stores of [getpinfo]. *)
Definition store_stat (a : Z) (st : proc_stat) : M (tstate E) unit :=
  on_kern (ustore a (st_pid st));;
  on_kern (ustore (a + 8) (st_num_run st));;
  on_kern (ustore (a + 12) (st_current_queue st));;
  on_kern (ustore (a + 4) (st_runtime st));;
  for_each [0; 1; 2; 3; 4] (fun i => v ← deref (aget (st_ticks st) i); on_kern (ustore (a + 16 + 4 * i) v)).

Definition sys_getpinfo (c : nat) : M (tstate E) sysres :=
  a ← argint c 0;
  match a with
  | None => mret (SRet (-1))
  | Some pid =>
      b ← argptr c 1 36;
      match b with
      | None => mret (SRet (-1))
      | Some stat =>
          r ← on_pt (getpinfo c pid);
          (match r.2 with Some st => store_stat stat st | None => mret tt end);;
          mret (SRet r.1)
      end
  end.

End Sysproc.
