(* ===== verification/Trap.v ===== *)
(** * Trap: the entry of the kernel (trap.c and the dispatch of syscall.c)

    [trap] handles one trap on CPU [c], from its entry to the return to the interrupted
    code or to the switch to the scheduler.  [tfp] is the address of the trap frame and
    [t] the frame; [cr2] is what the register reads.  The interrupt handlers of the devices
    are a class, as the services of the kernel are for proc.c. *)

From S2P Require Import Prelude Spinlock Proctab Mlfq Proc Sysproc.

(** traps.h *)
Definition T_SYSCALL : Z := 64.
Definition T_IRQ0 : Z := 32.
Definition IRQ_TIMER : Z := 0.
Definition IRQ_KBD : Z := 1.
Definition IRQ_COM1 : Z := 4.
Definition IRQ_IDE : Z := 14.
Definition IRQ_SPURIOUS : Z := 31.

Inductive sysno :=
| SYS_fork | SYS_exit | SYS_wait | SYS_pipe | SYS_read | SYS_kill | SYS_exec | SYS_fstat
| SYS_chdir | SYS_dup | SYS_getpid | SYS_sbrk | SYS_sleep | SYS_uptime | SYS_open | SYS_write
| SYS_mknod | SYS_unlink | SYS_link | SYS_mkdir | SYS_close | SYS_waitx | SYS_set_priority
| SYS_getpinfo.

(** The table [syscalls]; index 0 has no entry. *)
Definition syscalls : list (option sysno) :=
  None :: (Some <$>
    [SYS_fork; SYS_exit; SYS_wait; SYS_pipe; SYS_read; SYS_kill; SYS_exec; SYS_fstat;
     SYS_chdir; SYS_dup; SYS_getpid; SYS_sbrk; SYS_sleep; SYS_uptime; SYS_open; SYS_write;
     SYS_mknod; SYS_unlink; SYS_link; SYS_mkdir; SYS_close; SYS_waitx; SYS_set_priority;
     SYS_getpinfo]).

(** The interrupt descriptor table: [SETGATE] of mmu.h and [tvinit].  [vectors] is the array
    of the 256 entry points in vectors.S, which a script generates. *)
Definition SEG_KCODE : Z := 1.
Definition STS_IG32 : Z := 0xE.
Definition STS_TG32 : Z := 0xF.

Record gatedesc := Gate {
  off_15_0 : Z; gate_cs : Z; gate_args : Z; gate_rsv1 : Z; gate_type : Z; gate_s : Z; gate_dpl : Z; gate_p : Z; off_31_16 : Z
}.
Definition SETGATE (istrap : bool) (sel off d : Z) : gatedesc :=
  Gate (Z.land off 0xffff) sel 0 0 (if istrap then STS_TG32 else STS_IG32) 0 d 1 (Z.shiftr off 16).

Definition tvinit (vectors : list Z) : list gatedesc * spinlock :=
  let idt := (fun v => SETGATE false (Z.shiftl SEG_KCODE 3) v 0) <$> vectors in
  let v := nth (Z.to_nat T_SYSCALL) vectors 0 in
  (<[Z.to_nat T_SYSCALL := SETGATE true (Z.shiftl SEG_KCODE 3) v DPL_USER]> idt, initlock).

(** Where a trap ends: in the interrupted code; in [exit] or [yield], at the switch to the
    scheduler; in a system call that sleeps; or in a system call on files by process [p]. *)
Inductive trap_end :=
| TReturn
| TExit
| TYield
| TSleep (p : nat) (r : sysres)
| TCall (p : nat) (n : sysno).

Class Handlers (E : Type) := {
  ideintr : nat -> M (kern E) unit;
  kbdintr : nat -> M (kern E) unit;
  uartintr : nat -> M (kern E) unit
}.

Section Trap.
Context {E : Type} `{!Services E} `{!UserMem E} `{!Handlers E}.

Definition cpu_id (c : nat) : M (tstate E) Z := on_pt (zoom cpus (fun cs s => s <| cpus := cs |>) (cpuid c)).
Definition say (m : message) : M (tstate E) unit := modify (fun s => s <| said ::= fun l => l ++ [m] |>).
Definition lapiceoi : M (tstate E) unit := modify (fun s => s <| eois ::= Z.add 1 |>).

(** ** System calls *)

(** After [syscalls[num]()] has returned [v] to process [p] ([curproc]). *)
Definition syscall_return (c p : nat) (v : Z) : M (tstate E) trap_end :=
  on_pt (upd_proc p (fun k => k <| frame ::= fun f => f <| tf_eax := u32 v |> |>));;
  k ← cur_entry c;
  if negb (killed k =? 0) then on_kern (exit c);; mret TExit else mret TReturn.

Definition syscall_end (c p : nat) (r : sysres) : M (tstate E) trap_end :=
  match r with
  | SRet v => syscall_return c p v
  | SExit => mret TExit
  | _ => mret (TSleep p r)
  end.

Definition syscall (pol : policy) (c : nat) : M (tstate E) trap_end :=
  mp ← cur c;
  p ← deref mp;
  k ← on_pt (get_proc p);
  let num := s32 (tf_eax (frame k)) in
  let run (m : M (tstate E) sysres) := (r ← m; syscall_end c p r) in
  match (if 0 <? num then syscalls !! Z.to_nat num else None) with
  | Some (Some n) =>
      match n with
      | SYS_fork => run (sys_fork pol c)
      | SYS_exit => run (sys_exit c)
      | SYS_wait => run (sys_wait c)
      | SYS_kill => run (sys_kill c)
      | SYS_getpid => run (sys_getpid c)
      | SYS_sbrk => run (sys_sbrk c)
      | SYS_sleep => run (sys_sleep c)
      | SYS_uptime => run (sys_uptime c)
      | SYS_waitx => run (sys_waitx c)
      | SYS_set_priority => run (sys_set_priority c)
      | SYS_getpinfo => run (sys_getpinfo c)
      | _ => mret (TCall p n)
      end
  | _ =>
      say (UnknownCall (pid k) (name k) num);;
      syscall_return c p (-1)
  end.

Definition trap_syscall (pol : policy) (c : nat) (tfp : Z) (t : trapframe) : M (tstate E) trap_end :=
  k ← cur_entry c;
  if negb (killed k =? 0) then on_kern (exit c);; mret TExit
  else
    mp ← cur c;
    p ← deref mp;
    on_pt (upd_proc p (fun k => k <| tf := tfp |> <| frame := t |>));;
    syscall pol c.

(** A system call that slept goes on, in process [p] on CPU [c]. *)
Definition wait_resume (c p : nat) : M (kern E) unit :=
  zoom (fun k => (ps k, initlock)) (fun st k => k <| ps := st.1 |>) (sleep_resume c p PtableLock).

Definition syscall_resume (c p : nat) (r : sysres) : M (tstate E) trap_end :=
  match r with
  | SWait => on_kern (wait_resume c p);; r ← on_kern (wait_scan c p); syscall_end c p (wait_end r)
  | SWaitx wtime rtime =>
      on_kern (wait_resume c p);; r ← on_kern (waitx_scan c p); r ← waitx_end wtime rtime r; syscall_end c p r
  | SSleep n ticks0 => r ← sys_sleep_resume c p n ticks0; syscall_end c p r
  | _ => undef
  end.

(** ** Interrupts *)

Definition timer_tick (pol : policy) (c : nat) : M (tstate E) unit :=
  acquire_ticks c;;
  on_pt (modify (fun s => s <| ticks ::= fun n => u32 (n + 1) |>));;
  on_pt (modify_times pol c);;
  on_pt (wakeup c (Some ChTicks));;
  release_ticks c.

(** The [switch] over [tf->trapno]. *)
Definition dispatch_trap (pol : policy) (c : nat) (t : trapframe) (cr2 : Z) : M (tstate E) unit :=
  let no := tf_trapno t in
  if no =? T_IRQ0 + IRQ_TIMER then
    i ← cpu_id c;
    (if i =? 0 then timer_tick pol c else mret tt);;
    lapiceoi
  else if no =? T_IRQ0 + IRQ_IDE then on_kern (ideintr c);; lapiceoi
  else if no =? T_IRQ0 + IRQ_IDE + 1 then mret tt
  else if no =? T_IRQ0 + IRQ_KBD then on_kern (kbdintr c);; lapiceoi
  else if no =? T_IRQ0 + IRQ_COM1 then on_kern (uartintr c);; lapiceoi
  else if (no =? T_IRQ0 + 7) || (no =? T_IRQ0 + IRQ_SPURIOUS) then
    i ← cpu_id c;
    say (SpuriousAt i (tf_cs t) (tf_eip t));;
    lapiceoi
  else
    mp ← cur c;
    if bool_decide (mp = None) || (Z.land (tf_cs t) 3 =? 0) then
      i ← cpu_id c;
      say (UnexpectedTrap no i (tf_eip t) cr2);;
      panic "trap"
    else
      k1 ← cur_entry c;
      k2 ← cur_entry c;
      i ← cpu_id c;
      say (KillProc (pid k1) (name k2) no (tf_err t) i (tf_eip t) cr2);;
      mp ← cur c;
      p ← deref mp;
      on_pt (upd_proc p (fun k => k <| killed := 1 |>)).

(** [myproc() && myproc()->killed && (tf->cs&3) == DPL_USER] *)
Definition must_die (c : nat) (t : trapframe) : M (tstate E) bool :=
  mp ← cur c;
  match mp with
  | None => mret false
  | Some _ =>
      k ← cur_entry c;
      mret (negb (killed k =? 0) && (Z.land (tf_cs t) 3 =? DPL_USER))
  end.

(** [myproc() && myproc()->state == RUNNING] *)
Definition cur_running (c : nat) : M (tstate E) bool :=
  mp ← cur c;
  match mp with
  | None => mret false
  | Some _ => k ← cur_entry c; mret (stateb RUNNING k)
  end.

(** Whether the policy makes the process give up the CPU. *)
Definition preempted (pol : policy) (c : nat) (t : trapframe) : M (tstate E) bool :=
  let timer := tf_trapno t =? T_IRQ0 + IRQ_TIMER in
  match pol with
  | FCFS => mret false
  | ROUND_ROBIN => b ← cur_running c; mret (b && timer)
  | MLFQ =>
      b ← cur_running c;
      if negb b then mret false
      else
        k ← cur_entry c;
        if queueNo k =? 4 then mret false
        else
          k1 ← cur_entry c;
          k2 ← cur_entry c;
          s ← gets (fun s => s);
          lim ← deref (aget (ticksQ (mq (ps (kn s)))) (queueNo k2));
          mret (lim <? cur_time k1)
  | PBS =>
      b ← cur_running c;
      if negb b then mret false
      else
        k ← cur_entry c;
        on_pt (checkPremption c (priority k) (if timer then 1 else 0))
  end.

(** The end of [trap], also after [yield] has returned. *)
Definition trap_leave (c : nat) (t : trapframe) : M (tstate E) trap_end :=
  b ← must_die c t;
  if (b : bool) then on_kern (exit c);; mret TExit else mret TReturn.

Definition trap (pol : policy) (c : nat) (tfp : Z) (t : trapframe) (cr2 : Z) : M (tstate E) trap_end :=
  if tf_trapno t =? T_SYSCALL then trap_syscall pol c tfp t
  else
    dispatch_trap pol c t cr2;;
    b ← must_die c t;
    if (b : bool) then on_kern (exit c);; mret TExit
    else
      match pol with
      | FCFS => mret TReturn
      | _ =>
          y ← preempted pol c t;
          if (y : bool) then on_pt (yield pol c);; mret TYield else trap_leave c t
      end.

(** The process that yielded in [trap] runs again. *)
Definition trap_resume (c p : nat) (t : trapframe) : M (tstate E) trap_end :=
  on_pt (yield_resume c p);; trap_leave c t.

End Trap.
