(* ===== verification/TrapSteps.v ===== *)
(** * TrapSteps: traps are steps of the machine

    Every trap that ends, whatever it was, has done to the kernel what a sequence of steps
    of Machine.v does.  The theorems on the reachable states of the machine are therefore
    theorems on a kernel that is entered by [trap]. *)

From S2P Require Import Prelude Spinlock Proctab Mlfq Proc Scheduler SchedMlfq ProcSpec ForkSpec Tables Legs.
From S2P Require Import Machine MachineInv MachineSafe Sysproc Trap.

(** ** What the other components do to the process table

    On CPU [c] they take and release locks, and wake processes up. *)
Inductive serve1 (c : nat) : pstate -> pstate -> Prop :=
| sv_lock s kc : cpus s !! c = Some kc -> serve1 c s (s <| cpus ::= <[c := rest_cpu kc]> |>)
| sv_wakeup ch s s' : wakeup c ch s = Ret tt s' -> serve1 c s s'.
Definition served (c : nat) : pstate -> pstate -> Prop := rtc (serve1 c).

Definition serves {E A} (c : nat) (m : M (kern E) A) : Prop :=
  forall k a k', m k = Ret a k' -> served c (ps k) (ps k').

Class ServicesServe (E : Type) `{!Services E} `{!UserMem E} `{!Handlers E} (c : nat) : Prop := {
  sv_kalloc : serves c (kalloc (E := E));
  sv_kfree a : serves c (kfree (E := E) a);
  sv_copyuvm d n : serves c (copyuvm (E := E) d n);
  sv_allocuvm d a b : serves c (allocuvm (E := E) d a b);
  sv_deallocuvm d a b : serves c (deallocuvm (E := E) d a b);
  sv_switchuvm p : serves c (switchuvm (E := E) p);
  sv_filedup f : serves c (filedup (E := E) f);
  sv_fileclose f : serves c (fileclose (E := E) f);
  sv_idup i : serves c (idup (E := E) i);
  sv_iput i : serves c (iput (E := E) i);
  sv_begin_op : serves c (begin_op (E := E));
  sv_end_op : serves c (end_op (E := E));
  sv_uload a : serves c (uload (E := E) a);
  sv_ustore a v : serves c (ustore (E := E) a v);
  sv_ideintr : serves c (ideintr (E := E) c);
  sv_kbdintr : serves c (kbdintr (E := E) c);
  sv_uartintr : serves c (uartintr (E := E) c)
}.

(** ** Legs

    [leg mo P m Q R]: on CPU [c] in mode [mo], from a state in which the invariant of the
    machine and [P] hold, what [m] does if it returns is a sequence of steps; then [Q]
    holds, and the mode is [R] of the result. *)
Section Legs.
Context {E : Type} {HSvc : Services E} {HSwitch : SwitchOk E} {HReap : ReapOk (E := E)}.
Variables (pol : policy) (c : nat).

Definition leg {A} (mo : mode) (P : tstate E -> Prop) (m : M (tstate E) A) (Q : A -> tstate E -> Prop) (R : A -> mode) : Prop :=
  forall s md a s', md !! c = Some mo -> minv pol (MState (kn s) md false) -> P s -> m s = Ret a s' ->
    rtc (mstep pol) (MState (kn s) md false) (MState (kn s') (<[c := R a]> md) false) /\ Q a s'.

Lemma rtc_minv m m' : minv pol m -> rtc (mstep pol) m m' -> minv pol m'.
Proof. intros Hm Hr. induction Hr as [|m1 m2 m3 H12 _ IH]; [done|]. apply IH. by eapply mstep_minv. Qed.

Lemma leg_seq {A B} mo P (m : M (tstate E) A) Q R1 (f : A -> M (tstate E) B) Q' R :
  leg mo P m Q R1 -> (forall a, leg (R1 a) (Q a) (f a) Q' R) -> leg mo P (m ≫= f) Q' R.
Proof.
  intros Hm Hf s md b s2 Hmo Hinv HP Hrun. apply bind_inv in Hrun as (a & s1 & H1 & H2).
  destruct (Hm s md a s1 Hmo Hinv HP H1) as [Hr HQ].
  destruct (Hf a s1 (<[c := R1 a]> md) b s2) as [Hr' HQ']; [apply list_lookup_insert_eq; by eapply lookup_lt_Some|by eapply rtc_minv|done..|].
  rewrite list_insert_insert_eq in Hr'. split; [by etrans|done].
Qed.

Lemma leg_bind {A B} mo P (m : M (tstate E) A) Q (f : A -> M (tstate E) B) Q' R :
  leg mo P m Q (fun _ => mo) -> (forall a, leg mo (Q a) (f a) Q' R) -> leg mo P (m ≫= f) Q' R.
Proof. apply leg_seq. Qed.

Lemma leg_mono {A} mo (P P' : tstate E -> Prop) (m : M (tstate E) A) (Q Q' : A -> tstate E -> Prop) R :
  leg mo P m Q R -> (forall s, P' s -> P s) -> (forall a s, Q a s -> Q' a s) -> leg mo P' m Q' R.
Proof. intros Hm HP HQ s md a s' Hmo Hinv Hs Hrun. destruct (Hm s md a s') as [? ?]; eauto. Qed.

Lemma leg_ret {A} mo (a : A) (P : tstate E -> Prop) R : R a = mo -> leg mo P (mret a) (fun b s => b = a /\ P s) R.
Proof. intros HR s md b s' Hmo _ HP [= <- <-]. rewrite HR, (list_insert_id md) by done. split; [apply rtc_refl|done]. Qed.

(** A result with a known value. *)
Lemma leg_deref {A} mo (x : option A) (P : tstate E -> Prop) : leg mo P (deref x) (fun a s => x = Some a /\ P s) (fun _ => mo).
Proof. intros s md b s' Hmo _ HP Hrun. destruct x as [a|]; [|done]. injection Hrun as <- <-. rewrite (list_insert_id md) by done. split; [apply rtc_refl|done]. Qed.

Lemma leg_gets {A} mo (f : tstate E -> A) (P : tstate E -> Prop) : leg mo P (gets f) (fun a s => a = f s /\ P s) (fun _ => mo).
Proof. intros s md b s' Hmo _ HP [= <- <-]. rewrite (list_insert_id md) by done. split; [apply rtc_refl|done]. Qed.

(** A change outside the kernel state. *)
Lemma leg_aside mo (f : tstate E -> tstate E) (P : tstate E -> Prop) :
  (forall s, kn (f s) = kn s) -> (forall s, P s -> P (f s)) -> leg mo P (modify f) (fun _ => P) (fun _ => mo).
Proof. intros Hf HP s md b s' Hmo _ Hs [= <- <-]. rewrite Hf, (list_insert_id md) by done. split; [apply rtc_refl|auto]. Qed.

(** ** States at an interrupt depth *)

(** What does not notice locks and wake-ups. *)
Definition woken (k k' : proc) : Prop := k' = k \/ (state k = SLEEPING /\ k' = k <| state := RUNNABLE |>).
Record calm (s s' : pstate) : Prop := {
  cm_procs : Forall2 woken (procs s) (procs s');
  cm_initproc : initproc s' = initproc s;
  cm_nextpid : nextpid s' = nextpid s;
  cm_ticks : ticks s' = ticks s
}.
Definition stable (F : pstate -> Prop) : Prop := forall s s', calm s s' -> F s -> F s'.

Definition depth (d : Z) (s : pstate) : Prop := exists kc, cpus s !! c = Some kc /\ ncli kc = d.
Definition at_depth (d : Z) (F : pstate -> Prop) (s : tstate E) : Prop := depth d (ps (kn s)) /\ F (ps (kn s)).

Lemma calm_same s s' : procs s' = procs s -> initproc s' = initproc s -> nextpid s' = nextpid s -> ticks s' = ticks s -> calm s s'.
Proof. intros H1 H2 H3 H4. split; try done. rewrite H1. clear. induction (procs s); constructor; [by left|done]. Qed.

Lemma stable_true : stable (fun _ => True).
Proof. by intros s s' _ _. Qed.

Lemma depth_small d s : depth d s -> d < 2 ^ 20 -> depth_ok s c.
Proof. intros (kc & Hk & Hd) Hlt. exists kc. split; [done|lia]. Qed.

Lemma rest_cpu_ncli k : ncli (rest_cpu k) = ncli k.
Proof. by destruct k as [a st n i p fl]. Qed.

(** [pushcli] and [popcli] around something that leaves the kernel alone. *)
Lemma rest_steps mo md kc (k : kern E) d :
  md !! c = Some mo -> holds mo = false -> minv pol (MState k md false) -> d < 2 ^ 20 ->
  cpus (ps k) !! c = Some kc -> ncli kc = d ->
  rtc (mstep pol) (MState k md false) (MState (k <| ps ::= fun s => s <| cpus ::= <[c := rest_cpu kc]> |> |>) md false).
Proof.
  intros Hmo Hh [Hc _] Hd Hk Hn. cbn in Hc. destruct (c_cpu _ _ Hc c kc Hk) as [Hok _]. pose proof (lookup_lt_Some _ _ _ Hk) as Hlt.
  destruct (push_cpu_ok kc Hok) as [P1 P2].
  eapply rtc_l; [|apply rtc_once].
  - eapply st_pushcli; [done|done|exists kc; split; [done|lia]|]. by apply pushcli_ok; [apply (c_ids _ _ Hc)|].
  - set (k1 := k <| ps ::= _ |>).
    assert (Hk1 : cpus (ps k1) !! c = Some (push_cpu kc)) by (by apply list_lookup_insert_eq).
    replace (k <| ps ::= fun s => s <| cpus ::= <[c := rest_cpu kc]> |> |>)
      with (k1 <| ps ::= fun s => s <| cpus := <[c := rest_cpu kc]> (cpus (ps k)) |> |>) by done.
    eapply st_popcli; [done|done|]. rewrite (popcli_ok _ _ (push_cpu kc)); [|by eapply ids_ok_push; [apply (c_ids _ _ Hc)|]|done|done|destruct Hok; lia].
    rewrite pop_push_cpu by done. f_equal. unfold k1. cbn. by rewrite list_insert_insert_eq.
Qed.

Lemma calm_trans s1 s2 s3 : calm s1 s2 -> calm s2 s3 -> calm s1 s3.
Proof.
  intros [A1 A2 A3 A4] [B1 B2 B3 B4]. split; try congruence. clear - A1 B1. revert B1. generalize (procs s3) as l3. induction A1 as [|k k' l l' Hk _ IH]; intros l3 B1; inversion B1; subst; constructor; [|by apply IH].
  destruct Hk as [->|[Hs ->]], H1 as [->|[Hs' ->]]; [by left|by right|by right|]. by right.
Qed.

Lemma wake_woken ch k : woken k (wake ch k).
Proof. unfold wake, stateb. destruct (bool_decide (state k = SLEEPING)) eqn:H; cbn; [|by left]. apply bool_decide_eq_true in H. destruct (bool_decide _); [by right|by left]. Qed.

Lemma unlockd_lockd_cpus s kc : cpus s !! c = Some kc -> cpu_ok kc -> cpus (unlockd c (lockd c s)) = <[c := rest_cpu kc]> (cpus s).
Proof. intros Hk Hok. unfold unlockd, lockd, setf. cbn. by rewrite list_alter_alter, (list_alter_insert _ _ _ _ Hk), pop_push_cpu. Qed.

Lemma wakeup_eq ch s : can_lock c s -> wakeup c ch s = Ret tt ((unlockd c (lockd c s)) <| procs ::= map (wake ch) |>).
Proof.
  intros Hcl. unfold wakeup. rewrite (bind_ret _ _ _ _ _ (acquire_pt_ok _ _ Hcl)). erewrite bind_ret; [|reflexivity].
  by rewrite release_pt_ok by exact (lockd_has_lock _ _ Hcl).
Qed.

Lemma serve1_steps mo md (k : kern E) s' d :
  md !! c = Some mo -> holds mo = false -> minv pol (MState k md false) -> d < 2 ^ 20 -> depth d (ps k) -> serve1 c (ps k) s' ->
  rtc (mstep pol) (MState k md false) (MState (k <| ps := s' |>) md false) /\ calm (ps k) s' /\ depth d s'.
Proof.
  intros Hmo Hh Hinv Hd Hdep Hs. destruct Hdep as (kc & Hk & Hn). pose proof (lookup_lt_Some _ _ _ Hk) as Hlt. remember (ps k) as s eqn:Es. destruct Hs as [s kc' Hk'|ch s s' Hw]; subst s.
  - simplify_eq. split_and!; [by eapply rest_steps|by apply calm_same|]. exists (rest_cpu kc). split; [by apply list_lookup_insert_eq|apply rest_cpu_ncli].
  - assert (Hacq : exists a s1, acquire_pt c (ps k) = Ret a s1) by (unfold wakeup in Hw; minv Hw; eauto). destruct Hacq as (a & s1 & Hacq).
    destruct (cinv_acquire _ _ _ _ _ _ (proj1 Hinv) Hmo Hh Hacq) as [Hcl _]. split; [|rewrite (wakeup_eq ch (ps k) Hcl) in Hw; injection Hw as <-; split].
    + apply rtc_once. eapply st_table; [done|done|exists kc; split; [done|lia]|apply (op_wakeup pol c ch)|]. by apply lift_eq.
    + split; try done. cbn. clear. induction (procs (ps k)); constructor; [apply wake_woken|done].
    + destruct (c_cpu _ _ (proj1 Hinv) c kc Hk) as [Hok _]. exists (rest_cpu kc). split; [|by rewrite rest_cpu_ncli].
      change (cpus (unlockd c (lockd c (ps k))) !! c = Some (rest_cpu kc)). rewrite (unlockd_lockd_cpus _ kc) by done. by apply list_lookup_insert_eq.
Qed.

Lemma served_steps mo md (k : kern E) s' d :
  md !! c = Some mo -> holds mo = false -> minv pol (MState k md false) -> d < 2 ^ 20 -> depth d (ps k) -> served c (ps k) s' ->
  rtc (mstep pol) (MState k md false) (MState (k <| ps := s' |>) md false) /\ calm (ps k) s' /\ depth d s'.
Proof.
  intros Hmo Hh Hinv Hd Hdep Hs. remember (ps k) as s eqn:Es. revert k Es Hinv Hdep. induction Hs as [s|s1 s2 s3 H12 _ IH]; intros k -> Hinv Hdep.
  - split_and!; [|by apply calm_same|done]. replace (k <| ps := ps k |>) with k by (by destruct k). apply rtc_refl.
  - destruct (serve1_steps mo md k s2 d Hmo Hh Hinv Hd Hdep H12) as (R1 & C1 & D1). destruct (IH (Kern s2 (env k)) eq_refl (rtc_minv _ _ Hinv R1) D1) as (R2 & C2 & D2).
    split_and!; [by etrans|by eapply calm_trans|done].
Qed.

Lemma leg_serves {A} mo d F (m : M (kern E) A) : holds mo = false -> d < 2 ^ 20 -> stable F -> serves c m ->
  leg mo (at_depth d F) (on_kern m) (fun _ => at_depth d F) (fun _ => mo).
Proof.
  intros Hh Hd HF Hm s md a s' Hmo Hinv [HD HFs] Hrun. unfold on_kern, zoom in Hrun. destruct (m (kn s)) as [a1 k'| | |] eqn:E1; try done. injection Hrun as <- <-.
  destruct (served_steps mo md (kn s) _ d Hmo Hh Hinv Hd HD (Hm _ _ _ E1)) as (R & C & D). rewrite (list_insert_id md) by done. split; [|split; [done|by eapply HF]].
  eapply rtc_r; [exact R|]. cbn [kn]. replace (kn (s <| kn := k' |>)) with ((kn s) <| ps := ps k' |> <| env := env k' |>) by (by destruct k'). apply st_env.
Qed.

(** ** The operations, leg by leg *)

Definition with_ps (p : pstate) (s : tstate E) : tstate E := s <| kn ::= (fun k => k <| ps := p |>) |>.

Lemma on_pt_eq {A} (m : M pstate A) s : on_pt m s = match m (ps (kn s)) with Ret a p => Ret a (with_ps p s) | Panic x => Panic x | Undef => Undef | Spin => Spin end.
Proof. unfold on_pt, on_kern, lift, zoom. by destruct (m (ps (kn s))). Qed.

Lemma on_pt_inv {A} (m : M pstate A) s a s' : on_pt m s = Ret a s' -> exists p, m (ps (kn s)) = Ret a p /\ s' = with_ps p s.
Proof. rewrite on_pt_eq. destruct (m (ps (kn s))) as [b p| | |]; try done. intros [= <- <-]. by exists p. Qed.

Section At.
Variables (mo : mode) (d : Z) (F : pstate -> Prop).
Hypotheses (Hh : holds mo = false) (Hd : d < 2 ^ 20) (HF : stable F).

Lemma leg_cur : leg mo (at_depth d F) (cur c) (fun mp s => mp = mode_proc mo /\ at_depth d F s) (fun _ => mo).
Proof using HSwitch HReap Hh Hd HF.
  intros s md a s' Hmo Hinv [(kc & Hk & Hn) HFs] Hrun. unfold cur in Hrun. apply on_pt_inv in Hrun as (p & Hrun & ->).
  pose proof (proj1 Hinv) as Hc; cbn [mk modes] in Hc. destruct (c_cpu _ _ Hc c kc Hk) as [Hok _]. destruct (c_mode _ _ Hc c mo kc Hmo Hk) as [Hcp _].
  rewrite (my_proc_any c (ps (kn s)) _ (c_ids _ _ Hc) Hk Hok) in Hrun. injection Hrun as <- <-. rewrite (list_insert_id md) by done. split; [|split; [done|split]].
  - by eapply rest_steps.
  - exists (rest_cpu kc). split; [|by rewrite rest_cpu_ncli]. apply list_lookup_insert_eq. by eapply lookup_lt_Some.
  - eapply HF; [|exact HFs]. by apply calm_same.
Qed.

Lemma leg_get p : leg mo (at_depth d F) (on_pt (get_proc p)) (fun k s => procs (ps (kn s)) !! p = Some k /\ at_depth d F s) (fun _ => mo).
Proof using.
  intros s md a s' Hmo Hinv HP Hrun. apply on_pt_inv in Hrun as (p' & [-> Hk]%get_proc_inv & ->). rewrite (list_insert_id md) by done.
  replace (with_ps (ps (kn s)) s) with s by (by destruct s as [[] ? ? ?]). split; [apply rtc_refl|done].
Qed.

Lemma leg_cur_entry : leg mo (at_depth d F) (cur_entry c)
  (fun k s => exists p, mode_proc mo = Some p /\ procs (ps (kn s)) !! p = Some k /\ at_depth d F s) (fun _ => mo).
Proof using HSwitch HReap Hh Hd HF.
  eapply leg_bind; [apply leg_cur|]. intros mp. eapply leg_bind; [apply leg_deref|]. intros p s md k s' Hmo Hinv (-> & Hp & HP) Hrun.
  destruct (leg_get p s md k s' Hmo Hinv HP Hrun) as (R & Hk & HP'). split; [exact R|by exists p].
Qed.

Lemma leg_acquire_ticks : leg mo (at_depth d F) (acquire_ticks c) (fun _ => at_depth (d + 1) F) (fun _ => mo).
Proof using HSwitch HReap Hh Hd HF.
  intros s md a s' Hmo Hinv [(kc & Hk & Hn) HFs] Hrun. unfold acquire_ticks, with_ticks, zoom in Hrun.
  destruct (acquire c (cpus (ps (kn s)), tickslock s)) as [b [cs lk]| | |] eqn:Ha; try done. injection Hrun as <- <-.
  pose proof (proj1 Hinv) as Hc; cbn [mk modes] in Hc. destruct (c_cpu _ _ Hc c kc Hk) as [Hok _]. pose proof (lookup_lt_Some _ _ _ Hk) as Hlt.
  pose proof (acquire_inv c (cpus (ps (kn s))) kc (tickslock s) b cs lk (c_ids _ _ Hc) Hk Hok ltac:(lia) Ha) as ->.
  rewrite (list_insert_id md) by done. split; [|split].
  - apply rtc_once. cbn. eapply st_pushcli; [done|done|exists kc; split; [done|lia]|]. by apply pushcli_ok; [apply (c_ids _ _ Hc)|].
  - exists (push_cpu kc). split; [by apply list_lookup_insert_eq|]. destruct (push_cpu_ok kc Hok) as [-> _]. lia.
  - eapply HF; [|exact HFs]. by apply calm_same.
Qed.

Lemma leg_release_ticks : 1 <= d -> leg mo (at_depth d F) (release_ticks c) (fun _ => at_depth (d - 1) F) (fun _ => mo).
Proof using HSwitch HReap Hh Hd HF.
  intros H1 s md a s' Hmo Hinv [(kc & Hk & Hn) HFs] Hrun. unfold release_ticks, with_ticks, zoom in Hrun.
  destruct (release c (cpus (ps (kn s)), tickslock s)) as [b [cs lk]| | |] eqn:Ha; try done. injection Hrun as <- <-.
  pose proof (proj1 Hinv) as Hc; cbn [mk modes] in Hc. destruct (c_cpu _ _ Hc c kc Hk) as [Hok Hb]. pose proof (lookup_lt_Some _ _ _ Hk) as Hlt.
  pose proof (release_lk_inv c (cpus (ps (kn s))) kc (tickslock s) b cs lk (c_ids _ _ Hc) Hk Hok ltac:(lia) Ha) as ->.
  destruct (pop_cpu_ok kc Hok ltac:(lia)) as (R1 & R2 & R3 & R4).
  rewrite (list_insert_id md) by done. split; [|split].
  - apply rtc_once. cbn. eapply st_popcli; [done|done|]. destruct Hok as [Hb0 Hif]. apply popcli_ok; [apply (c_ids _ _ Hc)|done|apply Hif; lia|lia].
  - exists (pop_cpu kc). split; [by apply list_lookup_insert_eq|]. cbn. rewrite s32_small by lia. lia.
  - eapply HF; [|exact HFs]. by apply calm_same.
Qed.

End At.

Definition anywhere (s : pstate) : Prop := True.

(** Under ptable.lock the CPU is one level deeper, and comes back. *)
Lemma depth_unlocked d s s' : depth d s -> (forall kc, cpus s !! c = Some kc -> cpu_ok kc) -> cpus s' = cpus (unlockd c (lockd c s)) -> depth d s'.
Proof.
  intros (kc & Hk & Hn) Hok E1. exists (rest_cpu kc). rewrite E1, (unlockd_lockd_cpus s kc) by auto. rewrite rest_cpu_ncli. split; [|done].
  apply list_lookup_insert_eq. by eapply lookup_lt_Some.
Qed.

Lemma minv_cpu_ok md (k : kern E) : minv pol (MState k md false) -> forall kc, cpus (ps k) !! c = Some kc -> cpu_ok kc.
Proof. intros [Hc _] kc Hk. by destruct (c_cpu _ _ Hc c kc Hk). Qed.

Lemma leg_op {A} mo d F (m : M pstate A) : holds mo = false -> d < 2 ^ 20 -> table_op pol c (m;; mret tt) ->
  leg mo (at_depth d F) (on_pt m) (fun _ => at_depth d anywhere) (fun _ => mo).
Proof.
  intros Hh Hd Hop s md a s' Hmo Hinv [HD _] Hrun. apply on_pt_inv in Hrun as (p & Hrun & ->). rewrite (list_insert_id md) by done.
  assert (Hrun' : (m;; mret tt) (ps (kn s)) = Ret tt p) by (by erewrite bind_ret; [|exact Hrun]).
  split; [|split; [|done]].
  - apply rtc_once. eapply st_table; [done|done|by eapply depth_small|exact Hop|]. by apply lift_eq.
  - destruct (table_op_tame _ _ _ Hop) as [H1 H2]. destruct (H1 _ _ Hrun') as (b & s1 & Hacq).
    destruct (cinv_acquire _ _ _ _ _ _ (proj1 Hinv) Hmo Hh Hacq) as [Hcl _]. destruct (H2 _ _ Hcl Hrun') as (pr & Ht & ->).
    eapply depth_unlocked; [exact HD|by eapply minv_cpu_ok|done].
Qed.

Lemma leg_wakeup mo d F ch : holds mo = false -> d < 2 ^ 20 -> stable F -> leg mo (at_depth d F) (on_pt (wakeup c ch)) (fun _ => at_depth d F) (fun _ => mo).
Proof. intros Hh Hd HF. apply leg_serves; [done..|]. intros k a k' [Hrun _]%lift_inv. destruct a. by apply rtc_once, (sv_wakeup c ch). Qed.

Lemma leg_own p d F F' f : d < 2 ^ 20 -> (forall k, own_write k (f k)) ->
  (forall s k, F s -> procs s !! p = Some k -> F' (s <| procs ::= <[p := f k]> |>)) ->
  leg (Running p) (at_depth d F) (on_pt (upd_proc p f)) (fun _ => at_depth d F') (fun _ => Running p).
Proof.
  intros Hd Hf HF s md a s' Hmo Hinv [HD HFs] Hrun. apply on_pt_inv in Hrun as (p' & Hrun & ->). apply upd_proc_inv in Hrun as (k & Hk & ->). rewrite (list_insert_id md) by done.
  rewrite (procs_alter_insert f p _ k Hk). split; [|split; [done|by apply HF]]. apply rtc_once. by eapply (st_own pol c p k (f k)).
Qed.

Lemma leg_yield p F : leg (Running p) (at_depth 0 (fun s => F s /\ (pol = MLFQ -> exists k, procs s !! p = Some k /\ queueNo k <> 4))) (on_pt (yield pol c)) (fun _ _ => True) (fun _ => Yielded p).
Proof.
  intros s md a s' Hmo Hinv (HD & _ & Hq) Hrun. apply on_pt_inv in Hrun as (p' & Hrun & ->). destruct a. split; [|done].
  destruct (c_runs _ _ (proj1 Hinv) c _ p Hmo eq_refl) as (kp & Hkp & _). apply rtc_once. eapply st_yield; [done|exact Hkp| |by eapply depth_small|by apply lift_eq].
  intros Hpol. destruct (Hq Hpol) as (k & Hk & Hne). cbn in Hkp. by simplify_eq.
Qed.

Lemma leg_tick_times mo d : holds mo = false -> d < 2 ^ 20 ->
  leg mo (at_depth d (fun s => ticks s < 2 ^ 31 - 2)) (on_pt (modify (fun s => s <| ticks ::= fun n => u32 (n + 1) |>));; on_pt (modify_times pol c)) (fun _ => at_depth d anywhere) (fun _ => mo).
Proof.
  intros Hh Hd s md a s' Hmo Hinv [HD Ht] Hrun. apply bind_inv in Hrun as ([] & s1 & H1 & H2). apply on_pt_inv in H1 as (p1 & [= <-] & ->). apply on_pt_inv in H2 as (p2 & H2 & ->). destruct a.
  rewrite (list_insert_id md) by done. pose proof (t_bounds _ _ _ _ _ _ _ (proj2 Hinv)) as [_ Hb]. cbn [mk pending] in Hb. set (k := kn s) in *.
  assert (E1 : (ps k) <| ticks ::= fun n => u32 (n + 1) |> = (ps k) <| ticks ::= Z.add 1 |>) by (unfold setf; cbn; rewrite u32_small by lia; by rewrite Z.add_comm).
  cbn [kn with_ps setf] in H2. change (modify_times pol c ((ps k) <| ticks ::= fun n => u32 (n + 1) |>) = Ret tt p2) in H2. rewrite E1 in H2.
  assert (S1 : mstep pol (MState k md false) (MState (k <| ps ::= fun s => s <| ticks ::= Z.add 1 |> |>) md true)) by (by apply st_tick).
  pose proof (mstep_minv pol _ _ Hinv S1) as [Hc1 Hp1]. cbn [mk modes pending] in *. set (k1 := k <| ps ::= _ |>) in *.
  assert (H2' : lift (modify_times pol c) k1 = Ret tt (k1 <| ps := p2 |>)) by (by apply lift_eq).
  split.
  - eapply rtc_l; [exact S1|]. apply rtc_once. by eapply st_times; [done|done|eapply depth_small; [exact HD|done]|].
  - split; [|done]. cbn. assert (Hacq : exists a s1, acquire_pt c (ps k1) = Ret a s1) by (unfold modify_times in H2; minv H2; eauto). destruct Hacq as (b & s1 & Hacq).
    destruct (cinv_acquire _ _ _ _ _ _ Hc1 Hmo Hh Hacq) as [Hcl _]. unfold modify_times in H2. change ((ps k) <| ticks ::= Z.add 1 |>) with (ps k1) in H2. rewrite (bind_ret _ _ _ _ _ (acquire_pt_ok _ _ Hcl)) in H2. rewrite (bind_ret (gets (fun s => s)) _ _ _ _ eq_refl) in H2.
    destruct (wp_elim _ _ _ (tick_loop_ok pol (lockd c (ps k1)) true Hp1 eq_refl)) as ([] & s2 & Hloop & _ & Hs2 & _). rewrite (bind_ret _ _ _ _ _ Hloop) in H2.
    rewrite release_pt_ok in H2 by (rewrite Hs2; exact (lockd_has_lock _ _ Hcl)). injection H2 as <-. eapply depth_unlocked; [exact HD|by eapply minv_cpu_ok|]. by rewrite Hs2.
Qed.

(** ** Operations of proc.c *)

Lemma leg_kbind {A B} mo P (m : M (kern E) A) Q (f : A -> M (kern E) B) Q' R :
  leg mo P (on_kern m) Q (fun _ => mo) -> (forall a, leg mo (Q a) (on_kern (f a)) Q' R) -> leg mo P (on_kern (m ≫= f)) Q' R.
Proof.
  intros Hm Hf. pose proof (leg_bind mo P (on_kern m) Q (fun a => on_kern (f a)) Q' R Hm Hf) as Hb. intros s md b s' Hmo Hinv HP Hrun. eapply Hb; [done..|].
  rewrite <- Hrun. unfold on_kern, zoom, mbind, M_bind. by destruct (m (kn s)).
Qed.

Lemma leg_kret {A} mo (a : A) (P : tstate E -> Prop) R : R a = mo -> leg mo P (on_kern (mret a)) (fun b s => b = a /\ P s) R.
Proof. intros HR. intros s md b s' Hmo Hinv HP [= <- <-]. replace (s <| kn := kn s |>) with s by (by destruct s). rewrite HR, (list_insert_id md) by done. split; [apply rtc_refl|done]. Qed.

Lemma leg_kderef {A} mo (x : option A) (P : tstate E -> Prop) : leg mo P (on_kern (deref x)) (fun a s => x = Some a /\ P s) (fun _ => mo).
Proof. destruct x as [a|]; [|done]. eapply leg_mono; [by apply (leg_kret mo a P)|done|]. by intros b s [-> ?]. Qed.

Lemma leg_kgets {A} mo (f : kern E -> A) (P : tstate E -> Prop) : leg mo P (on_kern (gets f)) (fun a s => a = f (kn s) /\ P s) (fun _ => mo).
Proof. intros s md b s' Hmo _ HP [= <- <-]. replace (s <| kn := kn s |>) with s by (by destruct s). rewrite (list_insert_id md) by done. split; [apply rtc_refl|done]. Qed.

Lemma leg_kfor {A} mo P (l : list A) (f : A -> M (kern E) unit) : (forall x, leg mo P (on_kern (f x)) (fun _ => P) (fun _ => mo)) ->
  leg mo P (on_kern (for_each l f)) (fun _ => P) (fun _ => mo).
Proof.
  intros Hf. induction l as [|x l IH]; cbn [for_each]; [eapply leg_mono; [by apply leg_kret|done|by intros ? ? [_ ?]]|]. eapply leg_kbind; [apply Hf|]. by intros [].
Qed.

Lemma leg_false {A} mo P (m : M (tstate E) A) Q R : (forall s, P s -> forall a s', m s <> Ret a s') -> leg mo P m Q R.
Proof. intros Hm s md a s' _ _ HP Hrun. by destruct (Hm s HP a s'). Qed.

(** A fact that the precondition gives. *)
Lemma leg_pure {A} (X : Prop) mo (P : tstate E -> Prop) (m : M (tstate E) A) Q R : (forall s, P s -> X) -> (X -> leg mo P m Q R) -> leg mo P m Q R.
Proof. intros HX Hm s md a s' Hmo Hinv Hs Hrun. by eapply (Hm (HX s Hs)). Qed.

End Legs.

(** The mode of a CPU whose process has called [sched]. *)
Definition leave (mo : mode) : mode := match mo with Running p => Yielded p | _ => mo end.

Section Calls.
Context {E : Type} {HSvc : Services E} {HMem : UserMem E} {HInt : Handlers E} {HSwitch : SwitchOk E} {HReap : ReapOk (E := E)}.
Variables (pol : policy) (c : nat).
Context {HServe : ServicesServe E c}.

Notation leg := (leg pol c).
Notation at_depth := (at_depth c).

Lemma stable_init p : stable (fun s => initproc s <> Some p).
Proof. intros s s' [_ Hi _ _]. by rewrite Hi. Qed.

Lemma leg_exit_files p F : stable F -> (forall s k, F s -> F (s <| procs ::= <[p := k]> |>)) ->
  leg (Running p) (at_depth 0 F) (on_kern (exit_files (E := E) p)) (fun _ => at_depth 0 F) (fun _ => Running p).
Proof using HSwitch HReap HServe.
  intros HF HFp. unfold exit_files. eapply leg_kbind.
  { apply leg_kfor. intros fd. eapply leg_kbind; [apply leg_get|]. intros k. eapply leg_kbind; [apply leg_kderef|]. intros [f|]; cbn beta.
    - eapply leg_kbind; [eapply leg_mono; [apply (leg_serves pol c (Running p) 0 F); [done|lia|done|apply sv_fileclose]|by intros s (_ & _ & ?)|by intros ? ? ?]|].
      intros []. apply (leg_own pol c p 0 F F); [lia| |auto]. intros k'. unfold own_write. by exists (psz k'), (pgdir k'), (tf k'), (frame k'), (killed k'), (<[fd := None]> (ofile k')), (cwd k'), (name k').
    - eapply leg_mono; [by apply (leg_kret pol c (Running p) tt (at_depth 0 F))|by intros s (_ & _ & ?)|by intros ? ? [_ ?]]. }
  intros []. eapply leg_kbind; [apply leg_serves; [done|lia|done|apply sv_begin_op]|]. intros []. eapply leg_kbind; [apply leg_get|]. intros k. eapply leg_kbind; [apply leg_kderef|]. intros cw.
  eapply leg_kbind; [eapply leg_mono; [apply (leg_serves pol c (Running p) 0 F); [done|lia|done|apply sv_iput]|by intros s (_ & _ & ?)|by intros ? ? ?]|]. intros [].
  eapply leg_kbind; [apply leg_serves; [done|lia|done|apply sv_end_op]|]. intros [].
  apply (leg_own pol c p 0 F F); [lia| |auto]. intros k'. unfold own_write. by exists (psz k'), (pgdir k'), (tf k'), (frame k'), (killed k'), (ofile k'), None, (name k').
Qed.

Lemma leg_exit mo F : holds mo = false -> stable F -> leg mo (at_depth 0 F) (on_kern (exit (E := E) c)) (fun _ _ => True) (fun _ => leave mo).
Proof using HSwitch HReap HServe.
  intros Hh HF. unfold exit. eapply leg_kbind; [apply leg_cur; [done|lia|exact HF]|]. intros mp. eapply leg_kbind; [apply leg_kgets|]. intros s0. cbn beta.
  destruct (bool_decide (mp = initproc s0)) eqn:Hb; [by apply leg_false|]. apply bool_decide_eq_false in Hb. eapply leg_kbind; [apply leg_kderef|]. intros p.
  apply (leg_pure pol c (mo = Running p)).
  { intros s (Hp & _ & Hm & _). destruct mo; try done; cbn in Hm; congruence. }
  intros ->. cbn [leave]. set (G := fun s => initproc s <> Some p).
  eapply leg_kbind; [eapply leg_mono; [apply (leg_exit_files p G); [apply stable_init|done]| |by intros ? ? ?]|].
  { intros s (Hp & -> & Hm & HD & _). split; [done|]. unfold G. congruence. }
  intros [] s md [] s' Hmo Hinv [HD HG] Hrun. apply on_pt_inv in Hrun as (p' & Hrun & ->). split; [|done]. apply rtc_once. eapply st_exit; [done|done|eapply depth_small; [exact HD|lia]|by apply lift_eq].
Qed.

Definition wait_post (r : wait_result) (s : tstate E) : Prop := match r with WReturn _ => at_depth 0 anywhere s | WSleep => True end.

Lemma on_kern_inv {A} (m : M (kern E) A) s a s' : on_kern m s = Ret a s' -> exists k, m (kn s) = Ret a k /\ s' = s <| kn := k |>.
Proof. unfold on_kern, zoom. destruct (m (kn s)) as [b k| | |]; try done. intros [= <- <-]. by exists k. Qed.

Lemma wait_scan_depth p (k k' : kern E) kc r : has_lock c (ps k) -> cpus (ps k) !! c = Some kc -> cproc kc = Some p -> ncli kc = 1 -> is_Some (procs (ps k) !! p) ->
  wait_scan c p k = Ret r k' -> match r with WReturn _ => depth c 0 (ps k') | WSleep => True end.
Proof using HReap.
  intros Hl Hkc Hcp Hn [kp Hkp] Hrun. pose proof (wait_scan_inv c p k k' kc kp r Hl Hkc Hcp Hkp Hrun) as Hw.
  assert (Hd : forall s, cpus s = cpus (unlockd c (ps k)) -> depth c 0 s).
  { intros s E1. exists (pop_cpu kc). rewrite E1, (unlockd_cpus _ _ _ Hkc). split; [apply list_lookup_insert_eq; by eapply lookup_lt_Some|]. cbn. by rewrite Hn. }
  destruct (findi _ _); [destruct Hw as (kz & _ & -> & ->); by apply Hd|]. destruct Hw as [(n & -> & ->)|[-> _]]; [by apply Hd|done].
Qed.

Lemma leg_wait p F : leg (Running p) (at_depth 0 F) (on_kern (wait (E := E) c)) wait_post (wait_mode p).
Proof using HSwitch HReap.
  intros s md r s' Hmo Hinv [HD _] Hrun. apply on_kern_inv in Hrun as (k' & Hrun & ->). split.
  - apply rtc_once. eapply st_wait; [done|by eapply depth_small|done].
  - destruct HD as (kc & Hkc & Hn). destruct Hinv as [Hc _]. cbn [mk modes] in Hc. destruct (c_cpu _ _ Hc c kc Hkc) as [Hok _]. destruct (c_mode _ _ Hc c _ kc Hmo Hkc) as [Hcp _].
    unfold wait in Hrun. rewrite (bind_ret _ _ _ _ _ (lift_eq _ _ _ _ (my_proc_any c _ _ (c_ids _ _ Hc) Hkc Hok))), Hcp in Hrun.
    erewrite bind_ret in Hrun; [|reflexivity]. apply bind_inv in Hrun as (a & k2 & Hacq & Hrun). apply lift_inv in Hacq as [Hacq _].
    destruct (rest_acquire md (ps (kn s)) c (Running p) kc a (ps k2) Hc Hmo eq_refl Hkc ltac:(lia) Hacq) as (Hfree & Hps2 & R1 & R2 & R3 & R4 & R5).
    assert (Hkc2 : cpus (ps k2) !! c = Some (push_cpu (rest_cpu kc))) by (rewrite R3; apply list_lookup_insert_eq; by eapply lookup_lt_Some).
    unfold wait_post. cut (match r with WReturn _ => depth c 0 (ps k') | WSleep => True end); [by destruct r|].
    eapply (wait_scan_depth p k2 k' (push_cpu (rest_cpu kc))); [|done|rewrite R4; exact Hcp| | |done].
    + split_and!; [rewrite R3; eapply ids_ok_insert; [exact (c_ids _ _ Hc)|done|done]|rewrite Hps2; unfold held_by; cbn; by apply bool_decide_eq_true_2|exists (push_cpu (rest_cpu kc)); split_and!; [done|apply R1..|lia]].
    + change (s32 (ncli (rest_cpu kc) + 1) = 1). by rewrite rest_cpu_ncli, Hn.
    + destruct (c_runs _ _ Hc c _ p Hmo eq_refl) as (kp & Hkp & _). exists kp. by rewrite Hps2.
Qed.

Lemma leg_waitx p F : leg (Running p) (at_depth 0 F) (on_kern (waitx (E := E) c)) (fun r => wait_post r.1) (fun r => wait_mode p r.1).
Proof using HSwitch HReap.
  intros s md r s' Hmo Hinv HP Hrun. apply (leg_wait p F s md r.1 s' Hmo Hinv HP). apply on_kern_inv in Hrun as (k' & Hrun & ->).
  unfold on_kern, zoom. rewrite waitx_is_wait. by erewrite bind_ret; [|exact Hrun].
Qed.

(** *** fork *)

Definition embryo (p np : nat) (s : pstate) : Prop :=
  np <> p /\ initproc s <> Some np /\ exists kn, procs s !! np = Some kn /\ state kn = EMBRYO.
(** The entry of init is not free. *)
Definition init_lives (s : pstate) : Prop := forall i k, initproc s = Some i -> procs s !! i = Some k -> state k <> UNUSED.
Definition can_fork (s : pstate) : Prop := nextpid s < 2 ^ 31 - 1 /\ init_lives s.

Lemma stable_embryo p np : stable (embryo p np).
Proof.
  intros s s' [Hp Hi _ _] (Hne & Hini & kn & Hk & Hs). split; [done|]. split; [by rewrite Hi|]. destruct (Forall2_lookup_l _ _ _ _ _ Hp Hk) as (k' & Hk' & [->|[? _]]); [by exists kn|congruence].
Qed.

Lemma stable_can_fork : stable can_fork.
Proof.
  intros s s' [Hp Hi Hn _] [Hb Hl]. split; [by rewrite Hn|]. intros i k' Hini Hk'. rewrite Hi in Hini. destruct (Forall2_lookup_r _ _ _ _ _ Hp Hk') as (k & Hk & [->|[_ ->]]); [by eapply Hl|done].
Qed.

Lemma leg_alloc p : leg (Running p) (at_depth 0 can_fork) (on_pt (E := E) (alloc_slot pol c))
  (fun mp => at_depth 0 (fun s => match mp with Some np => embryo p np s | None => True end)) (fun _ => Running p).
Proof using HSwitch HReap.
  intros s md mp s' Hmo Hinv [HD [Hb Hl]] Hrun. apply on_pt_inv in Hrun as (p' & Hrun & ->). rewrite (list_insert_id md) by done. split; [apply rtc_once; eapply st_alloc; [done|done|by eapply depth_small|by apply lift_eq]|].
  pose proof Hinv as [Hc Hp]. cbn [mk modes pending] in *. assert (Hacq : exists a s1, acquire_pt c (ps (kn s)) = Ret a s1) by (unfold alloc_slot in Hrun; minv Hrun; eauto). destruct Hacq as (a & s1 & Hacq).
  destruct (cinv_acquire _ _ _ _ _ _ Hc Hmo eq_refl Hacq) as [Hcl _].
  assert (Hmq : mlfq_ok pol (ps (kn s))). { intros _. split; [apply (t_len _ _ _ _ _ _ _ Hp)|]. destruct (tinv_queues _ _ _ _ _ _ _ Hp) as (ls & ? & ? & _). eauto. }
  pose proof (alloc_slot_ok pol c (ps (kn s)) Hcl Hmq) as Ha. unfold slot_of in Ha. destruct (findi (stateb UNUSED) (procs (ps (kn s)))) as [np|] eqn:Hfind.
  - destruct Ha as (q' & Hrun' & _). rewrite Hrun in Hrun'. injection Hrun' as -> ->. destruct (proj1 (findi_Some _ _ _) Hfind) as [(kn' & Hkn & Hst%bool_decide_eq_true) _]. split; [by eapply depth_unlocked; [exact HD|eapply minv_cpu_ok; exact Hinv|]|].
    destruct (c_runs _ _ Hc c _ p Hmo eq_refl) as (kp & Hkp & Hsp). split; [intros ->; congruence|]. split; [intros Hi; by destruct (Hl np kn' Hi Hkn)|].
    exists (init_proc (nextpid (ps (kn s))) (ticks (ps (kn s))) kn'). split; [|done]. cbn. by rewrite list_lookup_alter_eq, Hkn.
  - rewrite Hrun in Ha. injection Ha as -> ->. split; [|done]. by eapply depth_unlocked; [exact HD|eapply minv_cpu_ok; exact Hinv|].
Qed.

Lemma leg_embryo p np F' f : (forall k ini, state k = EMBRYO -> ini <> Some np -> np <> p -> embryo_write ini np k (f k)) ->
  (forall s k, embryo p np s -> procs s !! np = Some k -> state k = EMBRYO -> F' (s <| procs ::= <[np := f k]> |>)) ->
  leg (Running p) (at_depth 0 (embryo p np)) (on_pt (E := E) (upd_proc np f)) (fun _ => at_depth 0 F') (fun _ => Running p).
Proof using.
  intros Hf HF s md a s' Hmo Hinv [HD He] Hrun. apply on_pt_inv in Hrun as (p' & Hrun & ->). apply upd_proc_inv in Hrun as (k & Hk & ->). rewrite (list_insert_id md) by done.
  rewrite (procs_alter_insert f np _ k Hk). pose proof He as (Hne & Hini & k' & Hk' & Hst). simplify_eq. split; [|split; [done|by apply HF]]. apply rtc_once. by eapply (st_embryo pol c p np k (f k)); [..|apply Hf].
Qed.

(** The creator fills in the entry. *)
Lemma leg_fill p np f : (forall k ini, state k = EMBRYO -> ini <> Some np -> np <> p -> embryo_write ini np k (f k)) -> (forall k, state (f k) = state k) ->
  leg (Running p) (at_depth 0 (embryo p np)) (on_pt (E := E) (upd_proc np f)) (fun _ => at_depth 0 (embryo p np)) (fun _ => Running p).
Proof using.
  intros Hf Hs. apply leg_embryo; [done|]. intros s k (Hne & Hini & _) Hk Hst. split; [done|]. split; [done|]. exists (f k). split; [apply list_lookup_insert_eq; by eapply lookup_lt_Some|congruence].
Qed.

Ltac weak := cbn beta; intros; destruct_and?; assumption.
Tactic Notation "kstep" open_constr(L) := eapply leg_kbind; [eapply leg_mono; [eapply L|weak|intros ? ? HQ; exact HQ]|].

Lemma serves_leg {A} p F (m : M (kern E) A) : stable F -> serves c m -> leg (Running p) (at_depth 0 F) (on_kern m) (fun _ => at_depth 0 F) (fun _ => Running p).
Proof using HSwitch HReap. intros HF Hm. by apply leg_serves; [|lia|..]. Qed.

Lemma kret_leg {A} p (F : pstate -> Prop) (a : A) : leg (Running p) (at_depth 0 F) (on_kern (mret a)) (fun b s => b = a /\ at_depth 0 F s) (fun _ => Running p).
Proof using. by apply leg_kret. Qed.

(** The entry is given up. *)
Lemma leg_discard p np f : (forall k ini, state k = EMBRYO -> ini <> Some np -> np <> p -> embryo_write ini np k (f k)) ->
  leg (Running p) (at_depth 0 (embryo p np)) (on_pt (E := E) (upd_proc np f)) (fun _ => at_depth 0 anywhere) (fun _ => Running p).
Proof using. intros Hf. by apply leg_embryo. Qed.

Lemma leg_allocproc p : leg (Running p) (at_depth 0 can_fork) (on_kern (allocproc (E := E) pol c))
  (fun mp => at_depth 0 (fun s => match mp with Some np => embryo p np s | None => True end)) (fun _ => Running p).
Proof using HSwitch HReap HServe.
  unfold allocproc. kstep (leg_alloc p). intros [np|]; cbn beta iota; [|eapply leg_mono; [apply (kret_leg p (fun _ => True) None)|done|by intros ? ? [-> ?]]].
  kstep (serves_leg p (embryo p np)); [apply stable_embryo|apply sv_kalloc|]. intros ks. kstep (leg_fill p np); [by intros; split; auto|done|]. intros [].
  destruct (ks =? 0).
  - kstep (leg_discard p np); [by intros; split; auto|]. intros []. eapply leg_mono; [apply (kret_leg p (fun _ => True) None)|done|by intros ? ? [-> ?]].
  - kstep (leg_fill p np); [by intros; split; auto|done|]. intros []. eapply leg_mono; [apply (kret_leg p (embryo p np) (Some np))|done|by intros ? ? [-> ?]].
Qed.

Lemma leg_dup_files p np : leg (Running p) (at_depth 0 (embryo p np)) (on_kern (dup_files (E := E) p np)) (fun _ => at_depth 0 (embryo p np)) (fun _ => Running p).
Proof using HSwitch HReap HServe.
  unfold dup_files. apply leg_kfor. intros i. eapply leg_kbind; [apply leg_get|]. intros k. eapply leg_kbind; [apply leg_kderef|]. intros [f|]; cbn beta iota.
  - kstep (serves_leg p (embryo p np)); [apply stable_embryo|apply sv_filedup|]. intros f'. apply leg_fill; [by intros; split; auto|done].
  - eapply leg_mono; [apply (kret_leg p (embryo p np) tt)|weak|weak].
Qed.

(** The end of [fork]: the child becomes RUNNABLE. *)
Lemma leg_ready {A} p np (r : A) : leg (Running p) (at_depth 0 (embryo p np))
  (on_kern (E := E) (lift (acquire_pt c);; lift (upd_proc np (fun k => k <| state := RUNNABLE |>));; lift (release_pt c);; mret r))
  (fun _ => at_depth 0 anywhere) (fun _ => Running p).
Proof using HSwitch HReap.
  intros s md a s' Hmo Hinv [HD (Hne & Hini & kn' & Hkn & Hst)] Hrun. apply on_kern_inv in Hrun as (k' & Hrun & ->). rewrite (list_insert_id md) by done.
  minv Hrun. injection Hrun as <- <-. apply lift_inv in Hrun0 as [H1 K1]. apply lift_inv in Hrun1 as [H2 K2]. apply lift_inv in Hrun2 as [H3 K3].
  assert (Hm : make_runnable c np (ps (kn s)) = Ret tt (ps s2)) by (unfold make_runnable; erewrite bind_ret; [|exact H1]; erewrite bind_ret; [|exact H2]; by destruct a2).
  split.
  - replace (kn (s <| kn := s2 |>)) with ((kn s) <| ps := ps s2 |>) by (rewrite K3, K2, K1; done). apply rtc_once. eapply st_ready; [done|exact Hkn|done|by eapply depth_small|by apply lift_eq].
  - destruct (cinv_acquire _ _ _ _ _ _ (proj1 Hinv) Hmo eq_refl H1) as [Hcl _]. split; [|done]. cbn [mk] in Hcl. unfold make_runnable in Hm.
    rewrite (bind_ret _ _ _ _ _ (acquire_pt_ok _ _ Hcl)), (bind_ret _ _ _ _ _ (upd_proc_ok np _ (lockd c (ps (kn s))) kn' Hkn)) in Hm.
    rewrite release_pt_ok in Hm by exact (lockd_has_lock _ _ Hcl). injection Hm as Hm. change (depth c 0 (ps s2)). rewrite <- Hm. by eapply depth_unlocked; [exact HD|eapply minv_cpu_ok; exact Hinv|].
Qed.

Lemma leg_fork p : leg (Running p) (at_depth 0 can_fork) (on_kern (fork (E := E) pol c)) (fun _ => at_depth 0 anywhere) (fun _ => Running p).
Proof using HSwitch HReap HServe.
  unfold fork. eapply leg_kbind; [apply (leg_cur pol c (Running p) 0 can_fork); [done|lia|apply stable_can_fork]|]. intros mp. eapply leg_kbind; [apply leg_kderef|]. intros q.
  apply (leg_pure pol c (q = p)); [intros s (-> & [= ->] & _); done|]. intros ->. kstep (leg_allocproc p). intros [np|]; cbn beta iota; [|eapply leg_mono; [apply (kret_leg p (fun _ => True))|weak|weak]].
  eapply leg_kbind; [apply leg_get|]. intros k. kstep (serves_leg p (embryo p np)); [apply stable_embryo|apply sv_copyuvm|]. intros pd. kstep (leg_fill p np); [by intros; split; auto|done|]. intros []. destruct (pd =? 0).
  - eapply leg_kbind; [apply leg_get|]. intros kc. kstep (serves_leg p (embryo p np)); [apply stable_embryo|apply sv_kfree|]. intros []. kstep (leg_discard p np); [by intros; split; auto|]. intros [].
    eapply leg_mono; [apply (kret_leg p anywhere)|weak|weak].
  - eapply leg_kbind; [apply leg_get|]. intros k'. kstep (leg_fill p np); [|done|]. { intros kn' ini Hs Hi Hne. split; auto. right. split; [|done]. cbn. congruence. }
    intros []. kstep (leg_dup_files p np). intros []. eapply leg_kbind; [apply leg_get|]. intros k2. eapply leg_kbind; [apply leg_kderef|]. intros cw. kstep (serves_leg p (embryo p np)); [apply stable_embryo|apply sv_idup|].
    intros cw'. kstep (leg_fill p np); [by intros; split; auto|done|]. intros []. eapply leg_kbind; [apply leg_get|]. intros k3. cbv zeta. eapply leg_mono; [apply (leg_ready p np)|weak|done].
Qed.

(** *** growproc *)

Lemma leg_growproc p n : leg (Running p) (at_depth 0 anywhere) (on_kern (growproc (E := E) c n)) (fun _ => at_depth 0 anywhere) (fun _ => Running p).
Proof using HSwitch HReap HServe.
  assert (HS : stable anywhere) by apply stable_true.
  unfold growproc. eapply leg_kbind; [apply (leg_cur pol c (Running p) 0 anywhere); [done|lia|done]|]. intros mp. eapply leg_kbind; [apply leg_kderef|]. intros q.
  apply (leg_pure pol c (q = p)); [intros s (-> & [= ->] & _); done|]. intros ->. kstep (leg_get pol c (Running p) 0 anywhere p). intros k. cbv zeta.
  eapply leg_kbind with (Q := fun _ => at_depth 0 anywhere).
  - destruct (n >? 0); [|destruct (n <? 0)].
    + kstep (serves_leg p anywhere); [done|apply sv_allocuvm|]. intros r. eapply leg_mono; [apply (kret_leg p anywhere)|weak|weak].
    + kstep (serves_leg p anywhere); [done|apply sv_deallocuvm|]. intros r. eapply leg_mono; [apply (kret_leg p anywhere)|weak|weak].
    + eapply leg_mono; [apply (kret_leg p anywhere)|weak|weak].
  - intros [sz'|]; [|eapply leg_mono; [apply (kret_leg p anywhere)|weak|weak]].
    eapply leg_kbind; [apply (leg_own pol c p 0 anywhere anywhere); [lia| |done]|].
    + intros k'. unfold own_write. by exists sz', (pgdir k'), (tf k'), (frame k'), (killed k'), (ofile k'), (cwd k'), (name k').
    + intros []. kstep (serves_leg p anywhere); [done|apply sv_switchuvm|]. intros []. eapply leg_mono; [apply (kret_leg p anywhere)|weak|weak].
Qed.

(** *** The system calls *)

(** Where a system call of [p] leaves the CPU. *)
Definition sys_mode (p : nat) (r : sysres) : mode := match r with SRet _ => Running p | _ => Yielded p end.
Definition sys_post (r : sysres) (s : tstate E) : Prop := match r with SRet _ => at_depth 0 anywhere s | _ => True end.

Tactic Notation "tstep" open_constr(L) := eapply leg_bind; [eapply leg_mono; [eapply L|weak|intros ? ? HQ; exact HQ]|].

Lemma leg_sret p v : leg (Running p) (at_depth 0 anywhere) (mret (SRet v)) sys_post (sys_mode p).
Proof using. eapply leg_mono; [by apply (leg_ret pol c (Running p) (SRet v) (at_depth 0 anywhere))|done|]. by intros ? ? [-> ?]. Qed.

Lemma any_stable : stable anywhere.
Proof using. apply stable_true. Qed.

Lemma leg_entry p F : stable F -> leg (Running p) (at_depth 0 F) (cur_entry (E := E) c) (fun k s => procs (ps (kn s)) !! p = Some k /\ at_depth 0 F s) (fun _ => Running p).
Proof using HSwitch HReap. intros HF. eapply leg_mono; [apply (leg_cur_entry pol c (Running p) 0 F); [done|lia|done]|done|]. by intros k s (q & [= <-] & ? & ?). Qed.

Lemma leg_argint p F n : stable F -> leg (Running p) (at_depth 0 F) (argint (E := E) c n) (fun _ => at_depth 0 F) (fun _ => Running p).
Proof using HSwitch HReap HServe.
  intros HF. unfold argint. tstep (leg_entry p F HF). intros k. unfold fetchint. tstep (leg_entry p F HF). intros k'. case_match.
  - eapply leg_mono; [by apply (leg_ret pol c (Running p) None (at_depth 0 F))|weak|weak].
  - tstep (serves_leg p F); [done|apply sv_uload|]. intros v. eapply leg_mono; [by apply (leg_ret pol c (Running p) _ (at_depth 0 F))|weak|weak].
Qed.

Lemma leg_argptr p F n size : stable F -> leg (Running p) (at_depth 0 F) (argptr (E := E) c n size) (fun _ => at_depth 0 F) (fun _ => Running p).
Proof using HSwitch HReap HServe.
  intros HF. unfold argptr. tstep (leg_entry p F HF). intros k. tstep (leg_argint p F n HF). intros [i|].
  - case_match; (eapply leg_mono; [by apply (leg_ret pol c (Running p) _ (at_depth 0 F))|weak|weak]).
  - eapply leg_mono; [by apply (leg_ret pol c (Running p) _ (at_depth 0 F))|weak|weak].
Qed.

Lemma leg_call {A} p (m : M pstate A) (f : A -> Z) : table_op pol c (m;; mret tt) ->
  leg (Running p) (at_depth 0 anywhere) (r ← on_pt m; mret (SRet (f r))) sys_post (sys_mode p).
Proof using HSwitch HReap. intros Hop. tstep (leg_op pol c (Running p) 0 anywhere m); [done|lia|done|]. intros r. apply leg_sret. Qed.

Lemma leg_sleep_ticks p : leg (Running p) (at_depth 1 anywhere)
  (zoom (fun s : tstate E => (ps (kn s), tickslock s)) (fun st s => s <| kn ::= (fun k => k <| ps := st.1 |>) |> <| tickslock := st.2 |>) (sleep c (Some ChTicks) OtherLock))
  (fun _ _ => True) (fun _ => Yielded p).
Proof using.
  intros s md a s' Hmo Hinv [(kc & Hk & Hn) _] Hrun. unfold zoom in Hrun. destruct (sleep c (Some ChTicks) OtherLock (ps (kn s), tickslock s)) as [[] [p' lk']| | |] eqn:Hs; try done. injection Hrun as <- <-. split; [|done].
  apply rtc_once. eapply (st_sleep pol c p (Some ChTicks) (tickslock s) lk'); [done|done|exists kc; split; [done|lia]|exact Hk|lia|exact Hs].
Qed.

Lemma leg_sleep_loop p n t0 : leg (Running p) (at_depth 1 anywhere) (sleep_loop (E := E) c n t0) sys_post (sys_mode p).
Proof using HSwitch HReap.
  assert (Hrel : forall v, leg (Running p) (at_depth 1 anywhere) (release_ticks c;; mret (SRet v)) sys_post (sys_mode p)).
  { intros v. tstep (leg_release_ticks pol c (Running p) 1 anywhere); [done|lia|apply any_stable|lia|]. intros []. apply leg_sret. }
  unfold sleep_loop. eapply leg_bind; [apply leg_gets|]. intros s0. case_match; [|eapply leg_mono; [apply Hrel|weak|done]].
  tstep (leg_cur_entry pol c (Running p) 1 anywhere); [done|lia|apply any_stable|]. intros k. case_match.
  - eapply leg_mono; [apply Hrel|by intros s (q & _ & _ & ?)|done].
  - eapply leg_seq; [eapply leg_mono; [apply (leg_sleep_ticks p)|by intros s (q & _ & _ & ?)|intros ? ? HQ; exact HQ]|]. intros []. eapply leg_mono; [by apply (leg_ret pol c (Yielded p) (SSleep n t0) (fun _ => True))|done|]. by intros ? ? [-> _].
Qed.

Lemma leg_sys_sleep p : leg (Running p) (at_depth 0 anywhere) (sys_sleep (E := E) c) sys_post (sys_mode p).
Proof using HSwitch HReap HServe.
  unfold sys_sleep. tstep (leg_argint p anywhere); [apply any_stable|]. intros [n|]; [|apply leg_sret]. tstep (leg_acquire_ticks pol c (Running p) 0 anywhere); [done|lia|apply any_stable|]. intros [].
  eapply leg_bind; [apply leg_gets|]. intros s0. eapply leg_mono; [apply (leg_sleep_loop p)|weak|done].
Qed.

Lemma leg_sys_uptime p : leg (Running p) (at_depth 0 anywhere) (sys_uptime (E := E) c) sys_post (sys_mode p).
Proof using HSwitch HReap.
  unfold sys_uptime. tstep (leg_acquire_ticks pol c (Running p) 0 anywhere); [done|lia|apply any_stable|]. intros []. eapply leg_bind; [apply leg_gets|]. intros s0.
  tstep (leg_release_ticks pol c (Running p) 1 anywhere); [done|lia|apply any_stable|lia|]. intros []. apply leg_sret.
Qed.

Lemma leg_sys_wait p : leg (Running p) (at_depth 0 anywhere) (sys_wait (E := E) c) sys_post (sys_mode p).
Proof using HSwitch HReap.
  unfold sys_wait. eapply leg_seq; [apply (leg_wait p anywhere)|]. intros [v|]; cbn [wait_mode wait_post wait_end]; [apply leg_sret|].
  eapply leg_mono; [by apply (leg_ret pol c (Yielded p) SWait (fun _ => True))|done|by intros ? ? [-> _]].
Qed.

(** The times are stored when a child has been found. *)
Lemma leg_waitx_end p w t r : leg (Running p) (at_depth 0 anywhere) (waitx_end (E := E) w t (WReturn r.1, r.2)) sys_post (sys_mode p).
Proof using HSwitch HReap HServe.
  unfold waitx_end. cbn [fst snd]. eapply leg_bind with (Q := fun _ => at_depth 0 anywhere); [|intros []; apply leg_sret]. destruct (r.2) as [[rt wt]|].
  - tstep (serves_leg p anywhere); [apply any_stable|apply sv_ustore|]. intros []. apply serves_leg; [apply any_stable|apply sv_ustore].
  - eapply leg_mono; [by apply (leg_ret pol c (Running p) tt (at_depth 0 anywhere))|weak|weak].
Qed.

Lemma waitx_scan_sleeps p (k k' : kern E) x : waitx_scan c p k = Ret (WSleep, x) k' -> x = None.
Proof using. unfold waitx_scan. intros H. minv H. destruct (findi _ _); minv H; [done|by injection H]. Qed.

Lemma waitx_sleeps (k k' : kern E) x : waitx c k = Ret (WSleep, x) k' -> x = None.
Proof using. unfold waitx. intros H. minv H. by eapply waitx_scan_sleeps. Qed.

Lemma leg_sys_waitx p : leg (Running p) (at_depth 0 anywhere) (sys_waitx (E := E) c) sys_post (sys_mode p).
Proof using HSwitch HReap HServe.
  unfold sys_waitx. tstep (leg_argptr p anywhere); [apply any_stable|]. intros [w|]; [|apply leg_sret]. tstep (leg_argptr p anywhere); [apply any_stable|]. intros [t|]; [|apply leg_sret].
  eapply leg_seq with (Q := fun r s => wait_post r.1 s /\ (r.1 = WSleep -> r.2 = None)) (R1 := fun r => wait_mode p r.1).
  - intros s md r s' Hmo Hinv HP Hrun. destruct (leg_waitx p anywhere s md r s' Hmo Hinv HP Hrun) as [R1 R2]. split; [done|]. split; [done|]. apply on_kern_inv in Hrun as (k' & Hrun & _). destruct r as [[v|] x]; [done|]. intros _. by eapply waitx_sleeps.
  - intros [[v|] x]; cbn [wait_mode fst snd].
    + eapply leg_mono; [apply (leg_waitx_end p w t (v, x))|by intros s [? _]|done].
    + apply (leg_pure pol c (x = None)); [intros s [_ Hx]; by apply Hx|]. intros ->. unfold waitx_end. cbn [fst snd]. eapply leg_bind; [by apply leg_ret|]. intros []. eapply leg_mono; [by apply (leg_ret pol c (Yielded p) (SWaitx w t) (fun _ => True))|done|by intros ? ? [-> _]].
Qed.

Lemma leg_sys_exit p : leg (Running p) (at_depth 0 anywhere) (sys_exit (E := E) c) sys_post (sys_mode p).
Proof using HSwitch HReap HServe.
  unfold sys_exit. eapply leg_seq; [apply (leg_exit (Running p) anywhere); [done|apply any_stable]|]. intros []. cbn [leave].
  eapply leg_mono; [by apply (leg_ret pol c (Yielded p) SExit (fun _ => True))|done|by intros ? ? [-> _]].
Qed.

Lemma leg_sys_kill p : leg (Running p) (at_depth 0 anywhere) (sys_kill (E := E) c) sys_post (sys_mode p).
Proof using HSwitch HReap HServe.
  unfold sys_kill. tstep (leg_argint p anywhere); [apply any_stable|]. intros [n|]; [|apply leg_sret]. apply (leg_call p (kill c n) (fun r => r)), op_kill.
Qed.

Lemma leg_sys_getpid p : leg (Running p) (at_depth 0 anywhere) (sys_getpid (E := E) c) sys_post (sys_mode p).
Proof using HSwitch HReap. unfold sys_getpid. tstep (leg_entry p anywhere); [apply any_stable|]. intros k. eapply leg_mono; [apply leg_sret|weak|done]. Qed.

Lemma leg_sys_sbrk p : leg (Running p) (at_depth 0 anywhere) (sys_sbrk (E := E) c) sys_post (sys_mode p).
Proof using HSwitch HReap HServe.
  unfold sys_sbrk. tstep (leg_argint p anywhere); [apply any_stable|]. intros [n|]; [|apply leg_sret]. tstep (leg_entry p anywhere); [apply any_stable|]. intros k. cbv zeta.
  tstep (leg_growproc p n). intros r. case_match; apply leg_sret.
Qed.

Lemma leg_sys_set_priority p : leg (Running p) (at_depth 0 anywhere) (sys_set_priority (E := E) c) sys_post (sys_mode p).
Proof using HSwitch HReap HServe.
  unfold sys_set_priority. tstep (leg_argint p anywhere); [apply any_stable|]. intros [n|]; [|apply leg_sret]. tstep (leg_argint p anywhere); [apply any_stable|]. intros [prio|]; [|apply leg_sret].
  apply (leg_call p (set_priority c n prio) (fun r => r)), op_set_priority.
Qed.

Lemma leg_store_stat p a st : leg (Running p) (at_depth 0 anywhere) (store_stat (E := E) a st) (fun _ => at_depth 0 anywhere) (fun _ => Running p).
Proof using HSwitch HReap HServe.
  assert (Hst : forall a v, leg (Running p) (at_depth 0 anywhere) (on_kern (ustore a v)) (fun _ => at_depth 0 anywhere) (fun _ => Running p)) by (intros; apply serves_leg; [apply any_stable|apply sv_ustore]).
  unfold store_stat. do 4 (eapply leg_bind; [apply Hst|]; intros []). cbn [for_each].
  do 5 (eapply leg_bind; [eapply leg_bind; [apply leg_deref|]; intros v; eapply leg_mono; [apply Hst|weak|done]|]; intros []).
  eapply leg_mono; [by apply (leg_ret pol c (Running p) tt (at_depth 0 anywhere))|done|weak].
Qed.

Lemma leg_sys_getpinfo p : leg (Running p) (at_depth 0 anywhere) (sys_getpinfo (E := E) c) sys_post (sys_mode p).
Proof using HSwitch HReap HServe.
  unfold sys_getpinfo. tstep (leg_argint p anywhere); [apply any_stable|]. intros [n|]; [|apply leg_sret]. tstep (leg_argptr p anywhere); [apply any_stable|]. intros [st|]; [|apply leg_sret].
  tstep (leg_op pol c (Running p) 0 anywhere (getpinfo c n)); [done|lia|apply op_getpinfo|]. intros [v [ps|]]; cbn [fst snd]; [tstep (leg_store_stat p)|eapply leg_bind; [by apply leg_ret|]]; intros []; (eapply leg_mono; [apply leg_sret|weak|done]).
Qed.

Lemma leg_sys_fork p : leg (Running p) (at_depth 0 can_fork) (sys_fork (E := E) pol c) sys_post (sys_mode p).
Proof using HSwitch HReap HServe. unfold sys_fork. tstep (leg_fork p). intros r. apply leg_sret. Qed.

(** ** Traps *)

(** Where a trap leaves the CPU. *)
Definition end_mode (mo : mode) (e : trap_end) : mode := match e with TReturn | TCall _ _ => mo | _ => leave mo end.
Definition end_post (e : trap_end) (s : tstate E) : Prop := match e with TReturn | TCall _ _ => at_depth 0 anywhere s | _ => True end.

Lemma leg_end mo e : end_mode mo e = mo -> leg mo (at_depth 0 anywhere) (mret e) end_post (end_mode mo).
Proof using. intros He. eapply leg_mono; [by apply (leg_ret pol c mo e (at_depth 0 anywhere))|done|]. intros ? s [-> ?]. by destruct e. Qed.

Lemma leg_die mo : holds mo = false -> leg mo (at_depth 0 anywhere) (on_kern (exit c);; mret TExit) end_post (end_mode mo).
Proof using HSwitch HReap HServe.
  intros Hh. eapply leg_seq; [apply (leg_exit mo anywhere); [done|apply any_stable]|]. intros [].
  eapply leg_mono; [by apply (leg_ret pol c (leave mo) TExit (fun _ => True) (end_mode mo))|done|by intros ? ? [-> _]].
Qed.

Lemma leg_syscall_return p v : leg (Running p) (at_depth 0 anywhere) (syscall_return (E := E) c p v) end_post (end_mode (Running p)).
Proof using HSwitch HReap HServe.
  unfold syscall_return. tstep (leg_own pol c p 0 anywhere anywhere); [lia| |done|].
  { intros k. unfold own_write. by exists (psz k), (pgdir k), (tf k), ((frame k) <| tf_eax := u32 v |>), (killed k), (ofile k), (cwd k), (name k). }
  intros []. tstep (leg_entry p anywhere); [apply any_stable|]. intros k. case_match; [eapply leg_mono; [by apply leg_die|weak|done]|eapply leg_mono; [by apply leg_end|weak|done]].
Qed.

Lemma leg_syscall_end p r : leg (sys_mode p r) (sys_post r) (syscall_end (E := E) c p r) end_post (end_mode (Running p)).
Proof using HSwitch HReap HServe.
  destruct r as [v| | | |]; cbn [sys_mode syscall_end]; [apply leg_syscall_return|..].
  all: eapply leg_mono; [by eapply (leg_ret pol c (Yielded p) _ (fun _ => True))|done|by intros ? ? [-> _]].
Qed.

Lemma leg_syscall p : leg (Running p) (at_depth 0 can_fork) (syscall (E := E) pol c) end_post (end_mode (Running p)).
Proof using HSwitch HReap HServe.
  assert (Hrun : forall m F, leg (Running p) (at_depth 0 F) m sys_post (sys_mode p) -> leg (Running p) (at_depth 0 F) (r ← m; syscall_end c p r) end_post (end_mode (Running p))).
  { intros m F Hm. eapply leg_seq; [exact Hm|]. intros r. apply leg_syscall_end. }
  assert (Hrun' : forall m k, leg (Running p) (at_depth 0 anywhere) m sys_post (sys_mode p) -> leg (Running p) (fun s => procs (ps (kn s)) !! p = Some k /\ at_depth 0 can_fork s) (r ← m; syscall_end c p r) end_post (end_mode (Running p))).
  { intros m k Hm. eapply leg_mono; [by apply (Hrun m anywhere)|by intros s (_ & ? & _)|done]. }
  unfold syscall. eapply leg_bind; [apply (leg_cur pol c (Running p) 0 can_fork); [done|lia|apply stable_can_fork]|]. intros mp. eapply leg_bind; [apply leg_deref|]. intros q.
  apply (leg_pure pol c (q = p)); [intros s (-> & [= ->] & _); done|]. intros ->. tstep (leg_get pol c (Running p) 0 can_fork p). intros k. cbv zeta.
  assert (Hbad : leg (Running p) (fun s => procs (ps (kn s)) !! p = Some k /\ at_depth 0 can_fork s) (say (UnknownCall (pid k) (name k) (s32 (tf_eax (frame k))));; syscall_return c p (-1)) end_post (end_mode (Running p))).
  { tstep (leg_aside pol c (Running p) _ (at_depth 0 can_fork)); [done|done|]. intros []. eapply leg_mono; [apply leg_syscall_return|by intros s [? _]|done]. }
  destruct (if 0 <? _ then _ else None) as [[n|]|]; [|exact Hbad..].
  destruct n; try (eapply leg_mono; [by apply (leg_end (Running p) (TCall p _))|by intros s (_ & ? & _)|done]).
  - eapply leg_mono; [apply (Hrun _ can_fork), leg_sys_fork|weak|done].
  - apply Hrun', leg_sys_exit.
  - apply Hrun', leg_sys_wait.
  - apply Hrun', leg_sys_kill.
  - apply Hrun', leg_sys_getpid.
  - apply Hrun', leg_sys_sbrk.
  - apply Hrun', leg_sys_sleep.
  - apply Hrun', leg_sys_uptime.
  - apply Hrun', leg_sys_waitx.
  - apply Hrun', leg_sys_set_priority.
  - apply Hrun', leg_sys_getpinfo.
Qed.

Lemma can_fork_own p s k k' : can_fork s -> procs s !! p = Some k -> state k' = state k -> can_fork (s <| procs ::= <[p := k']> |>).
Proof using.
  intros [Hb Hl] Hk Hs. split; [done|]. intros i ki Hi [[-> ->]|[_ Hki]]%lookup_insert_cases; [rewrite Hs; by eapply Hl|by eapply Hl].
Qed.

Lemma leg_trap_syscall p tfp t : leg (Running p) (at_depth 0 can_fork) (trap_syscall (E := E) pol c tfp t) end_post (end_mode (Running p)).
Proof using HSwitch HReap HServe.
  unfold trap_syscall. tstep (leg_entry p can_fork); [apply stable_can_fork|]. intros k. case_match; [eapply leg_mono; [by apply leg_die|by intros s (_ & ? & _)|done]|].
  tstep (leg_cur pol c (Running p) 0 can_fork); [done|lia|apply stable_can_fork|]. intros mp. eapply leg_bind; [apply leg_deref|]. intros q.
  apply (leg_pure pol c (q = p)); [intros s (-> & [= ->] & _); done|]. intros ->. tstep (leg_own pol c p 0 can_fork can_fork); [lia| | |intros []; apply leg_syscall].
  - intros k'. unfold own_write. by exists (psz k'), (pgdir k'), tfp, t, (killed k'), (ofile k'), (cwd k'), (name k').
  - intros s k' Hc Hk. by eapply can_fork_own.
Qed.

(** *** Interrupts *)

Section Interrupt.
Variable mo : mode.
Hypothesis Hh : holds mo = false.

Lemma leg_cpu_id d F : leg mo (at_depth d F) (cpu_id (E := E) c) (fun i s => i = Z.of_nat c /\ at_depth d F s) (fun _ => mo).
Proof using.
  intros s md i s' Hmo Hinv [(kc & Hk & Hn) HFs] Hrun. unfold cpu_id in Hrun. apply on_pt_inv in Hrun as (p & Hrun & ->). rewrite (list_insert_id md) by done.
  unfold cpuid, zoom, mbind, M_bind in Hrun. destruct (iflag kc) eqn:Hif.
  - unfold mycpu, readeflags, mbind, M_bind in Hrun. by rewrite Hk in Hrun; cbn in Hrun; rewrite Hif in Hrun.
  - rewrite (mycpu_ok (cpus (ps (kn s))) _ _ (c_ids _ _ (proj1 Hinv)) Hk Hif) in Hrun. injection Hrun as <- <-. replace (with_ps _ s) with s by (destruct s as [[[] ?] ? ? ?]; done). split; [apply rtc_refl|]. split; [done|]. split; [by exists kc|done].
Qed.

Lemma leg_say d F m : leg mo (at_depth d F) (say (E := E) m) (fun _ => at_depth d F) (fun _ => mo).
Proof using. by apply leg_aside. Qed.
Lemma leg_eoi d F : leg mo (at_depth d F) (lapiceoi (E := E)) (fun _ => at_depth d F) (fun _ => mo).
Proof using. by apply leg_aside. Qed.

Definition time_left (s : pstate) : Prop := ticks s < 2 ^ 31 - 2.
Lemma stable_time_left : stable time_left.
Proof using. intros s s' [_ _ _ Ht]. unfold time_left. by rewrite Ht. Qed.

Lemma leg_timer_tick : leg mo (at_depth 0 time_left) (timer_tick (E := E) pol c) (fun _ => at_depth 0 anywhere) (fun _ => mo).
Proof using HSwitch HReap Hh.
  unfold timer_tick. tstep (leg_acquire_ticks pol c mo 0 time_left); [done|lia|apply stable_time_left|]. intros [].
  assert (H1 : leg mo (at_depth 1 time_left) ((on_pt (modify (fun s => s <| ticks ::= fun n => u32 (n + 1) |>));; on_pt (modify_times pol c));; on_pt (wakeup c (Some ChTicks));; release_ticks c) (fun _ => at_depth 0 anywhere) (fun _ => mo)).
  { tstep (leg_tick_times pol c mo 1); [done|lia|]. intros []. tstep (leg_wakeup pol c mo 1 anywhere); [done|lia|apply any_stable|]. intros []. apply (leg_release_ticks pol c mo 1 anywhere); [done|lia|apply any_stable|lia]. }
  intros s md a s' Hmo Hinv HP Hrun. apply (H1 s md a s' Hmo Hinv HP). by rewrite bind_assoc.
Qed.

Lemma leg_intr (m : M (kern E) unit) : serves c m -> leg mo (at_depth 0 anywhere) (on_kern m;; lapiceoi) (fun _ => at_depth 0 anywhere) (fun _ => mo).
Proof using HSwitch HReap Hh. intros Hm. tstep (leg_serves pol c mo 0 anywhere m); [done|lia|apply any_stable|done|]. intros []. apply leg_eoi. Qed.

Lemma leg_kill_proc t cr2 : leg mo (at_depth 0 anywhere)
  (k1 ← cur_entry (E := E) c; k2 ← cur_entry c; i ← cpu_id c;
   say (KillProc (pid k1) (name k2) (tf_trapno t) (tf_err t) i (tf_eip t) cr2);;
   mp ← cur c; p ← deref mp; on_pt (upd_proc p (fun k => k <| killed := 1 |>)))
  (fun _ => at_depth 0 anywhere) (fun _ => mo).
Proof using HSwitch HReap Hh.
  assert (He : leg mo (at_depth 0 anywhere) (cur_entry c) (fun _ => at_depth 0 anywhere) (fun _ => mo)).
  { eapply leg_mono; [apply (leg_cur_entry pol c mo 0 anywhere); [done|lia|apply any_stable]|done|by intros k s (q & _ & _ & ?)]. }
  tstep He. intros k1. tstep He. intros k2. tstep (leg_cpu_id 0 anywhere). intros i. tstep (leg_say 0 anywhere). intros [].
  tstep (leg_cur pol c mo 0 anywhere); [done|lia|apply any_stable|]. intros mp. eapply leg_bind; [apply leg_deref|]. intros p.
  apply (leg_pure pol c (mo = Running p)).
  { intros s (Hp & Hm & _). destruct mo; try done; cbn in Hm; congruence. }
  intros Em. rewrite Em. eapply leg_mono; [apply (leg_own pol c p 0 anywhere anywhere); [lia| |done]|weak|done].
  intros k. unfold own_write. by exists (psz k), (pgdir k), (tf k), (frame k), 1, (ofile k), (cwd k), (name k).
Qed.

Lemma leg_dispatch t cr2 : leg mo (at_depth 0 time_left) (dispatch_trap (E := E) pol c t cr2) (fun _ => at_depth 0 anywhere) (fun _ => mo).
Proof using HSwitch HReap HServe Hh.
  unfold dispatch_trap. cbv zeta. assert (HT : forall s : tstate E, at_depth 0 time_left s -> at_depth 0 anywhere s) by (by intros s [? _]).
  case_match; [|case_match; [|case_match; [|case_match; [|case_match; [|case_match]]]]].
  - tstep (leg_cpu_id 0 time_left). intros i. eapply leg_bind with (Q := fun _ => at_depth 0 anywhere); [|intros []; apply leg_eoi]. case_match.
    + eapply leg_mono; [apply leg_timer_tick|weak|done].
    + eapply leg_mono; [by apply (leg_ret pol c mo tt (at_depth 0 time_left))|weak|intros ? s [_ ?]; auto].
  - eapply leg_mono; [apply leg_intr, sv_ideintr|done|done].
  - eapply leg_mono; [by apply (leg_ret pol c mo tt (at_depth 0 anywhere))|done|weak].
  - eapply leg_mono; [apply leg_intr, sv_kbdintr|done|done].
  - eapply leg_mono; [apply leg_intr, sv_uartintr|done|done].
  - eapply leg_mono with (P := at_depth 0 anywhere); [|done|intros ? ? HQ; exact HQ]. tstep (leg_cpu_id 0 anywhere). intros i. tstep (leg_say 0 anywhere). intros []. apply leg_eoi.
  - eapply leg_mono with (P := at_depth 0 anywhere); [|done|intros ? ? HQ; exact HQ]. tstep (leg_cur pol c mo 0 anywhere); [done|lia|apply any_stable|]. intros mp. case_match.
    + tstep (leg_cpu_id 0 anywhere). intros i. tstep (leg_say 0 anywhere). intros []. by apply leg_false.
    + eapply leg_mono; [apply leg_kill_proc|weak|done].
Qed.

Lemma leg_must_die t : leg mo (at_depth 0 anywhere) (must_die (E := E) c t) (fun _ => at_depth 0 anywhere) (fun _ => mo).
Proof using HSwitch HReap Hh.
  unfold must_die. tstep (leg_cur pol c mo 0 anywhere); [done|lia|apply any_stable|]. intros [p|].
  - tstep (leg_cur_entry pol c mo 0 anywhere); [done|lia|apply any_stable|]. intros k. eapply leg_mono; [by apply (leg_ret pol c mo _ (at_depth 0 anywhere))|by intros s (q & _ & _ & ?)|weak].
  - eapply leg_mono; [by apply (leg_ret pol c mo _ (at_depth 0 anywhere))|weak|weak].
Qed.

Lemma leg_cur_running : leg mo (at_depth 0 anywhere) (cur_running (E := E) c) (fun b s => at_depth 0 anywhere s /\ (b = true -> exists p, mo = Running p)) (fun _ => mo).
Proof using HSwitch HReap Hh.
  unfold cur_running. tstep (leg_cur pol c mo 0 anywhere); [done|lia|apply any_stable|]. intros [p|].
  - tstep (leg_cur_entry pol c mo 0 anywhere); [done|lia|apply any_stable|]. intros k. eapply leg_mono; [by apply (leg_ret pol c mo _ (fun s => at_depth 0 anywhere s /\ exists p, mo = Running p))| |].
    + intros s (q & Hq & _ & ?). split; [done|]. exists q. destruct mo; try done; cbn in Hq; congruence.
    + intros b s (_ & ? & ?). by split.
  - eapply leg_mono; [by apply (leg_ret pol c mo false (at_depth 0 anywhere))|weak|]. intros b s [-> ?]. by split.
Qed.

(** The process that is made to give up the CPU. *)
Definition victim (y : bool) (s : pstate) : Prop :=
  y = true -> exists p, mo = Running p /\ (pol = MLFQ -> exists k, procs s !! p = Some k /\ queueNo k <> 4).

Lemma stable_victim y : stable (victim y).
Proof using.
  intros s s' [Hp _ _ _] Hv Hy. destruct (Hv Hy) as (p & Em & Hq). exists p. split; [done|]. intros Hm. destruct (Hq Hm) as (k & Hk & Hne).
  destruct (Forall2_lookup_l _ _ _ _ _ Hp Hk) as (k' & Hk' & [->|[_ ->]]); eauto.
Qed.

Lemma leg_preempted t : leg mo (at_depth 0 anywhere) (preempted (E := E) pol c t) (fun y => at_depth 0 (victim y)) (fun _ => mo).
Proof using HSwitch HReap Hh.
  assert (Hno : forall P : tstate E -> Prop, (forall s, P s -> at_depth 0 anywhere s) -> leg mo P (mret false) (fun y => at_depth 0 (victim y)) (fun _ => mo)).
  { intros P HP. eapply leg_mono; [by apply (leg_ret pol c mo false P)|done|]. intros y s [-> Hs%HP]. split; [apply Hs|done]. }
  enough (HQ : forall q, q = pol -> leg mo (at_depth 0 anywhere) (preempted (E := E) q c t) (fun y => at_depth 0 (victim y)) (fun _ => mo)) by (by apply HQ).
  intros q Epol. unfold preempted. cbv zeta. destruct q.
  - tstep leg_cur_running. intros b. eapply leg_mono; [by apply (leg_ret _ c mo _ (fun s => at_depth 0 anywhere s /\ (b = true -> exists p, mo = Running p)))|done|].
    intros y s (-> & [HD _] & Hb). split; [done|]. intros [Hy _]%andb_prop. destruct (Hb Hy) as [p Hm]. exists p. split; [done|]. congruence.
  - by apply Hno.
  - tstep leg_cur_running. intros [|]; cbn [negb]; [|apply Hno; weak]. tstep (leg_cur_entry _ c mo 0 anywhere); [done|lia|apply any_stable|]. intros k.
    eapply leg_mono with (P := fun s => at_depth 0 anywhere s /\ exists p, mo = Running p) (Q := fun y s => at_depth 0 anywhere s /\ exists p, mo = Running p).
    + intros s md y s' Hmo Hinv [HP Hm] Hrun. destruct (leg_op pol c mo 0 anywhere (checkPremption c (priority k) (if tf_trapno t =? T_IRQ0 + IRQ_TIMER then 1 else 0)) Hh ltac:(lia) ltac:(apply op_checkPremption) s md y s' Hmo Hinv HP Hrun) as [R1 R2]. done.
    + intros s (q & Hq & _ & ?). split; [done|]. exists q. destruct mo; try done; cbn in Hq; congruence.
    + intros y s [[HD _] [p Hm]]. split; [done|]. intros _. exists p. split; [done|]. congruence.
  - tstep leg_cur_running. intros [|]; cbn [negb]; [|apply Hno; weak]. tstep (leg_cur_entry _ c mo 0 anywhere); [done|lia|apply any_stable|]. intros k.
    case_match; [apply Hno; by intros s (q & _ & _ & ?)|]. 
    eapply leg_mono with (P := at_depth 0 (victim true)) (Q := fun y => at_depth 0 (victim true)).
    + assert (He : leg mo (at_depth 0 (victim true)) (cur_entry c) (fun _ => at_depth 0 (victim true)) (fun _ => mo)).
      { eapply leg_mono; [apply (leg_cur_entry _ c mo 0 (victim true)); [done|lia|apply stable_victim]|done|by intros ? s (q & _ & _ & ?)]. }
      tstep He. intros k1. tstep He. intros k2. eapply leg_bind; [apply leg_gets|]. intros s0. eapply leg_bind; [apply leg_deref|]. intros lim.
      eapply leg_mono; [by apply (leg_ret _ c mo _ (at_depth 0 (victim true)))|weak|weak].
    + intros s (q & Hq & Hk & [HD _]). split; [done|]. intros _. exists q. split; [destruct mo; try done; cbn in Hq; congruence|]. intros _. exists k. split; [done|lia].
    + intros y s [HD Hv]. split; [done|]. intros _. by apply Hv.
Qed.

Lemma leg_trap_leave t : leg mo (at_depth 0 anywhere) (trap_leave (E := E) c t) end_post (end_mode mo).
Proof using HSwitch HReap HServe Hh.
  unfold trap_leave. tstep (leg_must_die t). intros [|]; [by apply leg_die|by apply leg_end].
Qed.

Lemma leg_interrupt t cr2 : tf_trapno t <> T_SYSCALL -> forall tfp, leg mo (at_depth 0 time_left) (trap (E := E) pol c tfp t cr2) end_post (end_mode mo).
Proof using HSwitch HReap HServe Hh.
  intros Hno tfp. unfold trap. destruct (Z.eqb_spec (tf_trapno t) T_SYSCALL) as [|_]; [done|]. tstep (leg_dispatch t cr2). intros []. tstep (leg_must_die t). intros [|]; [by apply leg_die|].
  assert (Hy : leg mo (at_depth 0 anywhere) (y ← preempted pol c t; if (y : bool) then on_pt (yield pol c);; mret TYield else trap_leave c t) end_post (end_mode mo)).
  { tstep (leg_preempted t). intros [|]; [|eapply leg_mono; [apply leg_trap_leave|by intros s [? _]|done]].
    apply (leg_pure pol c (exists p, mo = Running p)); [intros s [_ Hv]; destruct (Hv eq_refl) as (p & ? & _); eauto|]. intros [p Em]. rewrite Em.
    eapply leg_seq; [eapply leg_mono; [apply (leg_yield pol c p anywhere)| |intros ? ? HQ; exact HQ]|].
    - intros s [HD Hv]. split; [done|]. split; [done|]. destruct (Hv eq_refl) as (q & Eq & Hq). rewrite Em in Eq. by injection Eq as <-.
    - intros []. eapply leg_mono; [by apply (leg_ret pol c (Yielded p) TYield (fun _ => True))|done|by intros ? ? [-> _]]. }
  pose proof (leg_end mo TReturn eq_refl) as Hr. by destruct pol.
Qed.

End Interrupt.

(** *** Going on after a switch *)

Lemma resume_depth (s s' : pstate) ena : depth c 1 s -> cpus s' = cpus (unlockd c (set_ena c ena s)) -> depth c 0 s'.
Proof using.
  intros (kc & Hk & Hn) Hcs. pose proof (lookup_lt_Some _ _ _ Hk) as Hlt. assert (Hk1 : cpus (set_ena c ena s) !! c = Some (kc <| intena := ena |>)) by (rewrite (set_ena_cpus _ _ _ _ Hk); by apply list_lookup_insert_eq).
  exists (pop_cpu (kc <| intena := ena |>)). rewrite Hcs, (unlockd_cpus _ _ _ Hk1). split; [apply list_lookup_insert_eq; by eapply lookup_lt_Some|]. cbn. by rewrite Hn.
Qed.

Lemma leg_yield_resume p : leg (Switching p) (at_depth 1 anywhere) (on_pt (E := E) (yield_resume c p)) (fun _ => at_depth 0 anywhere) (fun _ => Running p).
Proof using.
  intros s md a s' Hmo Hinv [HD _] Hrun. apply on_pt_inv in Hrun as (p' & Hrun & ->). destruct a. split; [apply rtc_once; by eapply st_yield_resume; [|apply lift_eq]|]. split; [|done].
  pose proof (cinv_has_lock _ _ _ _ (proj1 Hinv) Hmo eq_refl) as Hl. cbn [mk] in Hl. unfold yield_resume in Hrun. minv Hrun. destruct (sched_resume_inv _ _ _ _ _ Hl Hrun0) as [ena ->].
  rewrite release_pt_ok in Hrun by (by apply set_ena_has_lock). injection Hrun as <-. by eapply resume_depth.
Qed.

Lemma leg_trap_resume p t : leg (Switching p) (at_depth 1 anywhere) (trap_resume (E := E) c p t) end_post (end_mode (Running p)).
Proof using HSwitch HReap HServe. unfold trap_resume. eapply leg_seq; [apply leg_yield_resume|]. intros []. by apply leg_trap_leave. Qed.

Lemma leg_wait_again p :
  leg (Switching p) (at_depth 1 anywhere) (on_kern (wait_resume (E := E) c p);; on_kern (wait_scan c p)) wait_post (wait_mode p).
Proof using HReap.
  intros s md r s' Hmo Hinv [(kc & Hk & Hn) _] Hrun. apply bind_inv in Hrun as ([] & s1 & H1 & H2). apply on_kern_inv in H1 as (k1 & H1 & ->). apply on_kern_inv in H2 as (k2 & H2 & ->).
  change (kn (s <| kn := k1 |>)) with k1 in H2. unfold wait_resume, zoom in H1. destruct (sleep_resume c p PtableLock (ps (kn s), initlock)) as [[] [p1 lk1]| | |] eqn:Hs; try done. injection H1 as <-.
  pose proof Hs as Hs'. unfold sleep_resume in Hs'. apply bind_inv in Hs' as ([] & st1 & R1 & Hs'). apply on_ps_inv in R1 as (q1 & R1 & ->). pose proof (cinv_has_lock _ _ _ _ (proj1 Hinv) Hmo eq_refl) as Hl. cbn [mk] in Hl.
  destruct (sched_resume_inv _ _ _ _ _ Hl R1) as [ena ->]. apply bind_inv in Hs' as ([] & st2 & R2 & Hs'). apply on_ps_inv in R2 as (q2 & R2 & ->). apply upd_proc_inv in R2 as (kp & Hkp & ->). injection Hs' as <- <-.
  split; [apply rtc_once; eapply st_wait_resume; [done|]; eexists; split; [exact Hs|exact H2]|].
  unfold wait_post. cut (match r with WReturn _ => depth c 0 (ps k2) | WSleep => True end); [by destruct r|].
  pose proof (lookup_lt_Some _ _ _ Hk) as Hlt.
  assert (Hk1 : cpus (set_ena c ena (ps (kn s))) !! c = Some (kc <| intena := ena |>)) by (rewrite (set_ena_cpus _ _ _ _ Hk); by apply list_lookup_insert_eq).
  destruct (c_mode _ _ (proj1 Hinv) c _ kc Hmo Hk) as [Hcp _]. match type of H2 with wait_scan c p ?x = _ => refine (wait_scan_depth p x k2 _ r _ Hk1 Hcp Hn _ H2) end.
  - apply (set_ena_has_lock c ena _ Hl).
  - cbn. rewrite list_lookup_alter_eq. change (procs (set_ena c ena (ps (kn s)))) with (procs (ps (kn s))) in Hkp. rewrite Hkp. by eexists.
Qed.

Lemma leg_sleep_resume p : leg (Switching p) (at_depth 1 anywhere)
  (zoom (fun s : tstate E => (ps (kn s), tickslock s)) (fun st s => s <| kn ::= (fun k => k <| ps := st.1 |>) |> <| tickslock := st.2 |>) (sleep_resume c p OtherLock))
  (fun _ => at_depth 1 anywhere) (fun _ => Running p).
Proof using HSwitch HReap.
  intros s md a s' Hmo Hinv [HD _] Hrun. unfold zoom in Hrun. destruct (sleep_resume c p OtherLock (ps (kn s), tickslock s)) as [[] [p' lk']| | |] eqn:Hs; try done. injection Hrun as <- <-.
  assert (Hst : mstep pol (MState (kn s) md false) (MState ((kn s) <| ps := p' |>) (<[c := Running p]> md) false)).
  { eapply (st_sleep_resume pol c p (tickslock s) lk'); [done|eapply depth_small; [exact HD|lia]|exact Hs]. }
  split; [by apply rtc_once|]. split; [|done]. change (depth c 1 p'). pose proof (cinv_has_lock _ _ _ _ (proj1 Hinv) Hmo eq_refl) as Hl. cbn [mk] in Hl.
  unfold sleep_resume in Hs. apply bind_inv in Hs as ([] & st1 & R1 & Hs). apply on_ps_inv in R1 as (q1 & R1 & ->). destruct (sched_resume_inv _ _ _ _ _ Hl R1) as [ena ->].
  apply bind_inv in Hs as ([] & st2 & R2 & Hs). apply on_ps_inv in R2 as (q2 & R2 & ->). apply upd_proc_inv in R2 as (kp & Hkp & ->).
  apply bind_inv in Hs as ([] & st3 & R3 & Hs). apply on_ps_inv in R3 as (q3 & R3 & ->). rewrite release_pt_ok in R3 by exact (set_ena_has_lock _ ena _ Hl). injection R3 as R3.
  assert (HD3 : depth c 0 q3) by (rewrite <- R3; by eapply resume_depth). apply on_lk_inv in Hs as (cs & l' & Hacq & [= -> <-]).
  pose proof (mstep_minv pol _ _ Hinv Hst) as [Hc' _]. cbn [mk modes] in Hc'. destruct HD3 as (k3 & Hk3 & Hn3).
  assert (Hids : ids_ok (cpus q3)). { rewrite <- R3. destruct Hl as (Hids & _). destruct HD as (kc & Hk & _). cbn. unfold upd_cpu. rewrite list_alter_alter, (list_alter_insert _ _ _ _ Hk). by eapply ids_ok_insert. }
  apply (acquire_inv _ _ k3) in Hacq; [|done|done| |lia].
  - rewrite Hacq. exists (push_cpu k3). split; [apply list_lookup_insert_eq; by eapply lookup_lt_Some|]. cbn. by rewrite Hn3.
  - split; [lia|]. lia.
Qed.

Lemma leg_sys_sleep_resume p n t0 : leg (Switching p) (at_depth 1 anywhere) (sys_sleep_resume (E := E) c p n t0) sys_post (sys_mode p).
Proof using HSwitch HReap. unfold sys_sleep_resume. eapply leg_seq; [apply leg_sleep_resume|]. intros []. apply leg_sleep_loop. Qed.

Lemma leg_syscall_resume p r : leg (Switching p) (at_depth 1 anywhere) (syscall_resume (E := E) c p r) end_post (end_mode (Running p)).
Proof using HSwitch HReap HServe.
  destruct r as [v| |w t|n t0|]; cbn [syscall_resume]; try (by apply leg_false).
  - intros s md e s' Hmo Hinv HP Hrun. rewrite <- bind_assoc in Hrun. revert s md e s' Hmo Hinv HP Hrun. eapply leg_seq; [apply leg_wait_again|]. intros r. destruct r as [v|]; cbn [wait_mode wait_post wait_end].
    + apply (leg_syscall_end p (SRet v)).
    + eapply leg_mono; [apply (leg_syscall_end p SWait)|done|done].
  - intros s md e s' Hmo Hinv HP Hrun. rewrite <- bind_assoc in Hrun. revert s md e s' Hmo Hinv HP Hrun.
    eapply leg_seq with (Q := fun r s => wait_post r.1 s /\ (r.1 = WSleep -> r.2 = None)) (R1 := fun r => wait_mode p r.1).
    + intros s md r s' Hmo Hinv HP Hrun. apply bind_inv in Hrun as ([] & s1 & H1 & H2). apply on_kern_inv in H2 as (k2 & H2 & ->).
      destruct (leg_wait_again p s md r.1 (s1 <| kn := k2 |>) Hmo Hinv HP) as [L1 L2].
      { erewrite bind_ret; [|exact H1]. unfold on_kern, zoom. rewrite waitx_scan_is_wait. by erewrite bind_ret; [|exact H2]. }
      split; [done|]. split; [done|]. destruct r as [[v|] x]; [done|]. intros _. by eapply waitx_scan_sleeps.
    + intros [[v|] x]; cbn [wait_mode fst snd].
      * eapply leg_seq; [eapply leg_mono; [apply (leg_waitx_end p w t (v, x))|by intros s [? _]|intros ? ? HQ; exact HQ]|]. intros r. apply leg_syscall_end.
      * apply (leg_pure pol c (x = None)); [intros s [_ Hx]; by apply Hx|]. intros ->. unfold waitx_end. cbn [fst snd].
        eapply leg_seq with (R1 := sys_mode p) (Q := sys_post); [eapply leg_bind; [by apply leg_ret|]; intros []; eapply leg_mono; [by apply (leg_ret pol c (Yielded p) (SWaitx w t) (fun _ => True))|done|by intros ? ? [-> _]]|]. intros r. apply leg_syscall_end.
  - eapply leg_seq; [apply leg_sys_sleep_resume|]. intros r. apply leg_syscall_end.
Qed.

(** The ways into the kernel: a trap; and going on after [yield] in a trap, after [sleep] in
    a system call, and after a system call on files. *)
Inductive kernel_entry : mode -> Z -> M (tstate E) trap_end -> Prop :=
| ke_trap mo tfp t cr2 : holds mo = false -> (tf_trapno t = T_SYSCALL -> exists p, mo = Running p) -> kernel_entry mo 0 (trap pol c tfp t cr2)
| ke_yield p t : kernel_entry (Switching p) 1 (trap_resume c p t)
| ke_sleep p r : kernel_entry (Switching p) 1 (syscall_resume c p r)
| ke_call p v : kernel_entry (Running p) 0 (syscall_return c p v).

(** The mode in which a process runs that has been switched to. *)
Definition entered (mo : mode) : mode := match mo with Switching p => Running p | _ => mo end.

Lemma leg_entry_point mo d m : kernel_entry mo d m -> leg mo (at_depth d (fun s => time_left s /\ can_fork s)) m end_post (end_mode (entered mo)).
Proof using HSwitch HReap HServe.
  intros [mo' tfp t cr2 Hh Hsys|p t|p r|p v].
  - destruct (decide (tf_trapno t = T_SYSCALL)) as [Hno|Hno].
    + destruct (Hsys Hno) as [p ->]. unfold trap. rewrite Hno. eapply leg_mono; [apply (leg_trap_syscall p tfp t)|by intros s (? & ? & ?)|done].
    + replace (entered mo') with mo' by (by destruct mo'). eapply leg_mono; [by apply (leg_interrupt mo' Hh t cr2 Hno tfp)|by intros s (? & ? & ?)|done].
  - eapply leg_mono; [apply leg_trap_resume|by intros s (? & ?)|done].
  - eapply leg_mono; [apply leg_syscall_resume|by intros s (? & ?)|done].
  - eapply leg_mono; [apply leg_syscall_return|by intros s (? & ?)|done].
Qed.

(** Whatever enters the kernel on a CPU, the kernel state in which it ends is one that the
    steps of the machine lead to, and the CPU is in the mode that the end says. *)
Lemma kernel_entry_steps mo d m md s e s' :
  kernel_entry mo d m -> minv pol (MState (kn s) md false) -> md !! c = Some mo -> depth c d (ps (kn s)) ->
  time_left (ps (kn s)) -> can_fork (ps (kn s)) -> m s = Ret e s' ->
  rtc (mstep pol) (MState (kn s) md false) (MState (kn s') (<[c := end_mode (entered mo) e]> md) false) /\ end_post e s'.
Proof using HSwitch HReap HServe. intros He Hinv Hmo HD Ht Hf Hrun. by eapply (leg_entry_point mo d m He s md e s' Hmo Hinv). Qed.

End Calls.
