(* ===== verification/TrapSpec.v ===== *)
(** * TrapSpec: the clock interrupt

    What a clock interrupt does, under each policy: it returns; the clock advances on CPU 0
    and those who sleep on it become RUNNABLE; and the interrupted process gives up the CPU
    exactly when the policy says so. *)

From S2P Require Import Prelude Spinlock Proctab Mlfq Proc Scheduler SchedMlfq ProcSpec ForkSpec Tables Legs.
From S2P Require Import Machine MachineInv MachineSafe MachineProps Sysproc Trap TrapSteps.

(** ** One tick *)

(** What a tick does to a process that runs. *)
Definition charged (pol : policy) (k : proc) : proc :=
  let k1 := k <| run_time ::= fun t => s32 (t + 1) |> in
  match pol with
  | MLFQ => k1 <| pticks ::= fun l => aset l (queueNo k) (s32 (default 0 (aget (pticks k) (queueNo k)) + 1)) |>
               <| cur_time ::= fun t => s32 (t + 1) |>
  | _ => k1
  end.

(** Entry [p] and the time slices. *)
Definition same_entry (p : nat) (s s' : pstate) : Prop := procs s' !! p = procs s !! p /\ ticksQ (mq s') = ticksQ (mq s).
#[export] Instance same_entry_preorder p : PreOrder (same_entry p).
Proof. split; [by intros s|]. intros s1 s2 s3 [H1 H2] [H3 H4]. split; congruence. Qed.

Lemma upd_other p i f : i <> p -> keeps (same_entry p) (upd_proc i f).
Proof. intros Hne s a s' H. apply upd_proc_inv in H as (k & _ & ->). split; [|done]. cbn. by rewrite list_lookup_alter_ne. Qed.

Lemma get_keeps p i : keeps (same_entry p) (get_proc i).
Proof. intros s a s' [-> _]%get_proc_inv. done. Qed.

#[local] Hint Resolve upd_other get_keeps : keeps.

Lemma scan_queues_keeps p q cur l : keeps (same_entry p) (scan_queues q cur l).
Proof. induction l as [|i l IH]; cbn [scan_queues]; keeps_auto. Qed.

Lemma mq_keeps p f : (forall q, ticksQ (f q) = ticksQ q) -> keeps (same_entry p) (modify (fun s => s <| mq ::= f |>)).
Proof. intros Hf. apply keeps_modify. intros s. split; [done|apply Hf]. Qed.

Lemma tick_other pol p i : i <> p -> keeps (same_entry p) (tick_proc pol i).
Proof. intros Hne. unfold tick_proc. keeps_auto; apply mq_keeps; intros q; by repeat case_match. Qed.

(** The loop over the table charges entry [p] once. *)
Lemma tick_run pol p s k s' : procs s !! p = Some k -> state k = RUNNING -> tick_proc pol p s = Ret tt s' -> procs s' !! p = Some (charged pol k) /\ ticksQ (mq s') = ticksQ (mq s).
Proof.
  intros Hk Hst Hrun. unfold tick_proc in Hrun. rewrite (bind_ret _ _ _ _ _ (get_proc_ok _ _ _ Hk)) in Hrun. unfold stateb in Hrun. rewrite bool_decide_eq_true_2 in Hrun by done.
  minv Hrun. apply upd_proc_inv in Hrun0 as (_ & _ & ->). assert (Hk1 : procs (s <| procs ::= alter (fun k => k <| run_time ::= fun t => s32 (t + 1) |>) p |>) !! p = Some (k <| run_time ::= fun t => s32 (t + 1) |>)) by (cbn; by rewrite list_lookup_alter_eq, Hk).
  destruct pol; try (injection Hrun as <-; by split). minv Hrun. destruct (aget (pticks k) (queueNo k)) as [t|] eqn:Ht; [|done]. injection Hrun0 as <- <-. apply upd_proc_inv in Hrun as (k2 & Hk2 & ->). split; [|done].
  rewrite Hk2 in Hk1. injection Hk1 as ->. cbn. rewrite list_lookup_alter_eq. cbn in Hk2. rewrite Hk2. cbn. unfold charged. by rewrite Ht.
Qed.

Lemma tick_loop_entry pol p l s k s' : NoDup l -> procs s !! p = Some k -> state k = RUNNING -> for_each l (tick_proc pol) s = Ret tt s' ->
  procs s' !! p = Some (if bool_decide (p ∈ l) then charged pol k else k) /\ ticksQ (mq s') = ticksQ (mq s).
Proof.
  intros Hnd. revert s k. induction Hnd as [|i l Hi Hnd IH]; intros s k Hk Hst Hrun; cbn [for_each] in Hrun.
  - injection Hrun as <-. rewrite bool_decide_eq_false_2 by set_solver. done.
  - apply bind_inv in Hrun as ([] & s1 & H1 & H2). destruct (decide (i = p)) as [->|Hne].
    + destruct (tick_run pol p s k s1 Hk Hst H1) as [Hk1 Hq1]. destruct (IH s1 (charged pol k) Hk1) as [Hk2 Hq2]; [by destruct pol|done|]. rewrite bool_decide_eq_false_2 in Hk2 by done. rewrite bool_decide_eq_true_2 by set_solver. split; congruence.
    + destruct (tick_other pol p i Hne s tt s1 H1) as [Hk1 Hq1]. destruct (IH s1 k) as [Hk2 Hq2]; [congruence|done|done|]. rewrite Hk2. split; [|congruence]. by rewrite (bool_decide_ext (p ∈ i :: l) (p ∈ l)) by set_solver.
Qed.

(** ** In an interrupt *)

Section Irq.
Context {E : Type} {HSvc : Services E} {HMem : UserMem E} {HInt : Handlers E}.
Variables (pol : policy) (c p : nat).

(** Process [p] runs on CPU [c], interrupts are off and no lock is held. *)
Record at_irq (s : pstate) : Prop := {
  ai_ids : ids_ok (cpus s);
  ai_lock : ptlock s = initlock;
  ai_cpu : exists kc, cpus s !! c = Some kc /\ ncli kc = 0 /\ cproc kc = Some p /\ iflag kc = false
}.

(** [s] is [s0] but for what [pushcli] and [popcli] leave in the CPU. *)
Definition irq_from (s0 s : tstate E) : Prop := at_irq (ps (kn s)) /\ exists cs, s = with_ps ((ps (kn s0)) <| cpus := cs |>) s0.

Lemma irq_from_refl s : at_irq (ps (kn s)) -> irq_from s s.
Proof using. intros H. split; [done|]. exists (cpus (ps (kn s))). by destruct s as [[[] ?] ? ? ?]. Qed.

Lemma irq_from_procs s0 s : irq_from s0 s -> procs (ps (kn s)) = procs (ps (kn s0)) /\ mq (ps (kn s)) = mq (ps (kn s0)) /\ ticks (ps (kn s)) = ticks (ps (kn s0)) /\ eois s = eois s0 /\ said s = said s0 /\ tickslock s = tickslock s0.
Proof using. by intros [_ [cs ->]]. Qed.

Lemma at_irq_can_lock s : at_irq s -> can_lock c s.
Proof using. intros [H1 H2 (kc & Hk & Hn & Hp & Hi)]. split; [done|]. split; [done|]. exists kc. unfold cpu_ok. rewrite Hn, Hi. split_and!; done || lia. Qed.

Lemma at_irq_rest s s' : at_irq s -> ptlock s' = initlock -> (forall kc, cpus s !! c = Some kc -> cpus s' = <[c := rest_cpu kc]> (cpus s)) -> at_irq s'.
Proof using.
  intros [H1 H2 (kc & Hk & Hn & Hp & Hi)] Hl Hcs. pose proof (lookup_lt_Some _ _ _ Hk) as Hlt. specialize (Hcs kc Hk). split; [rewrite Hcs; eapply ids_ok_insert; [done|done|]; by destruct kc|done|].
  exists (rest_cpu kc). rewrite Hcs, rest_cpu_ncli, list_lookup_insert_eq by done. by destruct kc.
Qed.

Lemma wp_cur s0 s : irq_from s0 s -> wp (cur c) (fun mp s' => mp = Some p /\ irq_from s0 s') s.
Proof using.
  intros [Ha [cs Hs]]. pose proof Ha as [H1 H2 (kc & Hk & Hn & Hp & Hi)]. unfold cur. eapply wp_intro.
  - rewrite on_pt_eq, (my_proc_ok c _ kc (at_irq_can_lock _ Ha) Hk). reflexivity.
  - split; [done|]. split; [eapply at_irq_rest; [exact Ha|done|]; intros kc' Hk'; by simplify_eq|]. exists (<[c := rest_cpu kc]> (cpus (ps (kn s)))). by rewrite Hs.
Qed.

Lemma wp_entry s0 s k : procs (ps (kn s0)) !! p = Some k -> irq_from s0 s -> wp (cur_entry c) (fun k' s' => k' = k /\ irq_from s0 s') s.
Proof using.
  intros Hk Hs. unfold cur_entry. apply wp_bind. eapply wp_mono; [by apply (wp_cur s0)|]. intros mp s1 [-> H1]. apply wp_bind. eapply wp_deref; [done|]. destruct (irq_from_procs _ _ H1) as [Hp _].
  eapply wp_intro; [rewrite on_pt_eq, (get_proc_ok p (ps (kn s1)) k ltac:(by rewrite Hp)); reflexivity|]. split; [done|]. by destruct s1 as [[] ? ? ?].
Qed.

Lemma wp_must_die s0 s k t : procs (ps (kn s0)) !! p = Some k -> killed k = 0 -> irq_from s0 s -> wp (must_die c t) (fun b s' => b = false /\ irq_from s0 s') s.
Proof using.
  intros Hk Hz Hs. unfold must_die. apply wp_bind. eapply wp_mono; [by apply (wp_cur s0)|]. intros mp s1 [-> H1]. apply wp_bind. eapply wp_mono; [by apply (wp_entry s0 s1 k)|]. intros k' s2 [-> H2].
  apply wp_ret. by rewrite Hz.
Qed.

Lemma wp_running s0 s k : procs (ps (kn s0)) !! p = Some k -> state k = RUNNING -> irq_from s0 s -> wp (cur_running c) (fun b s' => b = true /\ irq_from s0 s') s.
Proof using.
  intros Hk Hz Hs. unfold cur_running. apply wp_bind. eapply wp_mono; [by apply (wp_cur s0)|]. intros mp s1 [-> H1]. apply wp_bind. eapply wp_mono; [by apply (wp_entry s0 s1 k)|]. intros k' s2 [-> H2].
  apply wp_ret. split; [|done]. by apply bool_decide_eq_true_2.
Qed.

(** At the clock the process itself is one of the best priority found. *)
Lemma wp_checkPremption s0 s k : procs (ps (kn s0)) !! p = Some k -> pid k <> 0 -> irq_from s0 s -> wp (on_pt (checkPremption c (priority k) 1)) (fun b s' => b = true /\ irq_from s0 s') s.
Proof using.
  intros Hk Hz [Ha [cs Hs]]. pose proof (at_irq_can_lock _ Ha) as Hcl. pose proof Ha as [H1 H2 (kc & Hkc & Hn & Hp & Hi)]. eapply wp_intro.
  - rewrite on_pt_eq. unfold checkPremption. rewrite (bind_ret _ _ _ _ _ (acquire_pt_ok _ _ Hcl)). erewrite bind_ret; [|reflexivity]. cbv zeta. rewrite (bind_ret _ _ _ _ _ (release_pt_ok _ _ (lockd_has_lock _ _ Hcl))). reflexivity.
  - assert (Hcs : cpus (unlockd c (lockd c (ps (kn s)))) = <[c := rest_cpu kc]> (cpus (ps (kn s)))) by (apply unlockd_lockd_cpus; [done|]; destruct Hcl as (_ & _ & kc' & Hk' & Hok & _); by simplify_eq). split; [|split].
    + cbn [Z.eqb]. apply existsb_exists. exists k. split; [|rewrite (proj2 (Z.eqb_neq _ _) Hz), Z.leb_refl; done]. rewrite Hs. cbn. apply list_elem_of_In. by eapply list_elem_of_lookup_2.
    + eapply at_irq_rest; [exact Ha|done|]. intros kc' Hk'. simplify_eq. exact Hcs.
    + exists (cpus (unlockd c (lockd c (ps (kn s))))). rewrite Hs. cbn. unfold with_ps, unlockd, lockd, setf. cbn. do 2 f_equal. rewrite Hs in H2. cbn in H2. by rewrite H2.
Qed.

(** When a clock interrupt makes a process give up the CPU. *)
Definition preempts (k : proc) : bool :=
  match pol with
  | ROUND_ROBIN | PBS => true
  | FCFS => false
  | MLFQ => negb (queueNo k =? 4) && (2 ^ queueNo k <? cur_time k)
  end.

(** The entry of a process that has yielded. *)
Definition switched_out (k k' : proc) : Prop := exists ie, k' = (yielded pol k) <| ctx_eip := ResumeSched ie |>.

(** The time slices that main sets. *)
Definition slices_set (s : pstate) : Prop := ticksQ (mq s) = [1; 2; 4; 8; 16].

Lemma switched_runnable k k' : switched_out k k' -> state k' <> SLEEPING.
Proof using. intros [ie ->]. unfold yielded. by destruct pol. Qed.

Lemma slice_at s q : slices_set s -> 0 <= q <= 4 -> aget (ticksQ (mq s)) q = Some (2 ^ q).
Proof using. intros -> Hq. assert (q = 0 \/ q = 1 \/ q = 2 \/ q = 3 \/ q = 4) as [->|[->|[->|[->| ->]]]] by lia; done. Qed.

Lemma wp_preempted s0 s k t : procs (ps (kn s0)) !! p = Some k -> state k = RUNNING -> pid k <> 0 -> 0 <= queueNo k <= 4 -> slices_set (ps (kn s0)) -> tf_trapno t = T_IRQ0 + IRQ_TIMER -> irq_from s0 s ->
  wp (preempted pol c t) (fun y s' => y = preempts k /\ irq_from s0 s') s.
Proof using.
  intros Hk Hst Hpid Hq Hsl Ht Hs. unfold preempted, preempts. rewrite Ht, Z.eqb_refl. cbv zeta. destruct pol.
  - apply wp_bind. eapply wp_mono; [by apply (wp_running s0 s k)|]. intros b s1 [-> H1]. by apply wp_ret.
  - by apply wp_ret.
  - apply wp_bind. eapply wp_mono; [by apply (wp_running s0 s k)|]. intros b s1 [-> H1]. cbn [negb]. apply wp_bind. eapply wp_mono; [by apply (wp_entry s0 s1 k)|]. intros k' s2 [-> H2]. by apply wp_checkPremption.
  - apply wp_bind. eapply wp_mono; [by apply (wp_running s0 s k)|]. intros b s1 [-> H1]. cbn [negb]. apply wp_bind. eapply wp_mono; [by apply (wp_entry s0 s1 k)|]. intros k1 s2 [-> H2].
    destruct (queueNo k =? 4); cbn [negb andb]; [by apply wp_ret|]. apply wp_bind. eapply wp_mono; [by apply (wp_entry s0 s2 k)|]. intros k2 s3 [-> H3]. apply wp_bind. eapply wp_mono; [by apply (wp_entry s0 s3 k)|]. intros k4 s4 [-> H4].
    apply wp_bind, wp_gets, wp_bind. destruct (irq_from_procs _ _ H4) as (_ & Hmq & _). eapply wp_deref; [rewrite Hmq; by apply slice_at|]. by apply wp_ret.
Qed.

Lemma wp_yield md (s : tstate E) : minv pol (MState (kn s) md false) -> md !! c = Some (Running p) -> at_irq (ps (kn s)) -> (pol = MLFQ -> exists k, procs (ps (kn s)) !! p = Some k /\ queueNo k <> 4) ->
  wp (on_pt (yield pol c)) (fun _ s' => ticks (ps (kn s')) = ticks (ps (kn s)) /\ eois s' = eois s /\ said s' = said s /\ tickslock s' = tickslock s /\
    (forall q, q <> p -> procs (ps (kn s')) !! q = procs (ps (kn s)) !! q) /\ exists k k', procs (ps (kn s)) !! p = Some k /\ procs (ps (kn s')) !! p = Some k' /\ switched_out k k') s.
Proof using.
  intros [Hc Hp] Hmo Ha Hq4. cbn [mk modes pending] in *. pose proof (at_irq_can_lock _ Ha) as Hcl. destruct Ha as [_ _ (kc & Hkc & Hn & Hcp & _)]. destruct (c_runs _ _ Hc c _ p Hmo eq_refl) as (kp & Hkp & Hst).
  destruct (t_proc _ _ _ _ _ _ _ Hp p kp Hkp) as [Hqn _]. destruct (c_cpu _ _ Hc c kc Hkc) as [Hok _]. destruct (lockd_cpu c (ps (kn s)) kc Hkc Hok ltac:(lia)) as (_ & L2 & _ & _ & L5 & _).
  destruct (yield_sched pol c p (ps (kn s)) kp Hcl (tinv_queues _ _ _ _ _ _ _ Hp) (t_len _ _ _ _ _ _ _ Hp)) as (kp' & q' & Hy & Hr & _ & _ & _ & Hky).
  { exists (push_cpu kc). split; [done|congruence]. } { done. } { done. } { intros Hm. destruct (Hq4 Hm) as (k & Hk & Hne). by simplify_eq. }
  set (s2 := (lockd c (ps (kn s))) <| procs := _ |> <| mq := q' |>) in *. pose proof (lookup_lt_Some _ _ _ Hkp) as Hlt. assert (Hk2 : procs s2 !! p = Some kp') by (by apply list_lookup_insert_eq).
  assert (Hsch : sched c s2 = Ret tt (s2 <| procs ::= alter (fun k => k <| ctx_eip := ResumeSched (intena (push_cpu kc)) |>) p |>)).
  { apply (sched_ok c p s2 (push_cpu kc) kp'); [exact (lockd_has_lock _ _ Hcl)|exact L2| |rewrite L5; exact Hcp|exact Hk2|congruence]. cbn. by rewrite Hn. }
  eapply wp_intro; [rewrite on_pt_eq, Hy, Hsch; reflexivity|]. split_and!; try done.
  - intros q Hne. cbn. rewrite list_lookup_alter_ne, list_lookup_insert_ne by done. done.
  - eexists kp, _. split; [done|]. split; [cbn; rewrite list_lookup_alter_eq, list_lookup_insert_eq by done; reflexivity|]. exists (intena (push_cpu kc)). rewrite Hky. reflexivity.
Qed.

(** *** The clock on CPU 0 *)

(** Nobody sleeps on the clock. *)
Definition clock_woken (s : pstate) : Prop := forall q k, procs s !! q = Some k -> state k = SLEEPING -> chan k <> Some ChTicks.

Lemma wake_clock_woken s : clock_woken (s <| procs ::= map (wake (Some ChTicks)) |>).
Proof using.
  intros q k Hk Hs Hch. cbn in Hk. rewrite list_lookup_fmap in Hk. destruct (procs s !! q) as [k0|]; [|done]. injection Hk as <-. unfold wake, stateb in *.
  destruct (bool_decide (state k0 = SLEEPING)) eqn:H1, (bool_decide (chan k0 = Some ChTicks)) eqn:H2; cbn in *; try done; [by apply bool_decide_eq_false in H2|by apply bool_decide_eq_false in H1..].
Qed.

(** One level of another lock, as [kc] has it after its [pushcli]. *)
Record nested (kc : cpu) (s : pstate) : Prop := {
  ne_ids : ids_ok (cpus s); ne_lock : ptlock s = initlock; ne_cpu : cpus s !! c = Some kc; ne_ok : cpu_ok kc; ne_n : ncli kc = 1
}.

Lemma nested_can_lock kc s : nested kc s -> can_lock c s.
Proof using. intros [H1 H2 H3 H4 H5]. split_and!; [done|done|]. exists kc. split_and!; try done; [apply H4..|lia]. Qed.

Lemma nested_unlocked kc s s' : nested kc s -> ptlock s' = initlock -> cpus s' = cpus (unlockd c (lockd c s)) -> nested kc s' /\ cpus s' = cpus s.
Proof using.
  intros [H1 H2 H3 H4 H5] Hl Hcs. rewrite (unlockd_lockd_cpus c s kc H3 H4), rest_nested_cpu, list_insert_id in Hcs by (done || lia). rewrite <- Hcs in *. done.
Qed.

Lemma modify_times_ok kc s k : nested kc s -> pinv pol true s -> procs s !! p = Some k -> state k = RUNNING ->
  exists s', modify_times pol c s = Ret tt s' /\ nested kc s' /\ cpus s' = cpus s /\ ticks s' = ticks s /\ procs s' !! p = Some (charged pol k) /\ ticksQ (mq s') = ticksQ (mq s).
Proof using.
  intros Hn Hp Hk Hst. pose proof (nested_can_lock _ _ Hn) as Hcl. pose proof (lookup_lt_Some _ _ _ Hk) as Hlt.
  destruct (wp_elim _ _ _ (tick_loop_ok pol (lockd c s) true Hp eq_refl)) as ([] & s2 & Hloop & Hinv & Hs2 & _).
  destruct (tick_loop_entry pol p _ (lockd c s) k s2 (NoDup_seq _ _) Hk Hst Hloop) as [Hk2 Hq2]. rewrite bool_decide_eq_true_2 in Hk2 by (apply elem_of_seq; cbn; lia).
  exists (unlockd c s2). split.
  - unfold modify_times. rewrite (bind_ret _ _ _ _ _ (acquire_pt_ok _ _ Hcl)). erewrite bind_ret; [|reflexivity]. rewrite (bind_ret _ _ _ _ _ Hloop). apply release_pt_ok. rewrite Hs2. exact (lockd_has_lock _ _ Hcl).
  - destruct (nested_unlocked kc s (unlockd c s2) Hn eq_refl) as [N1 N2]; [by rewrite Hs2|]. split; [done|]. split; [done|]. split; [by rewrite Hs2|]. done.
Qed.

Lemma wakeup_ok kc s k ch : nested kc s -> procs s !! p = Some k -> state k = RUNNING ->
  exists s', wakeup c ch s = Ret tt s' /\ nested kc s' /\ cpus s' = cpus s /\ ticks s' = ticks s /\ procs s' = map (wake ch) (procs s) /\ procs s' !! p = Some k /\ mq s' = mq s.
Proof using.
  intros Hn Hk Hst. pose proof (nested_can_lock _ _ Hn) as Hcl. pose proof (wakeup_eq c ch s Hcl) as Hw. match type of Hw with _ = Ret tt ?x => destruct (nested_unlocked kc s x Hn eq_refl eq_refl) as [N1 N2]; exists x end.
  split; [done|]. split; [done|]. split; [done|]. split; [done|]. split; [done|]. split; [|done].
  cbn. rewrite list_lookup_fmap, Hk. cbn. unfold wake, stateb. by rewrite bool_decide_eq_false_2 by congruence.
Qed.

Lemma with_ticks_eq {A} (m : M lstate A) (s : tstate E) a cs lk : m (cpus (ps (kn s)), tickslock s) = Ret a (cs, lk) ->
  with_ticks m s = Ret a (with_ps ((ps (kn s)) <| cpus := cs |>) s <| tickslock := lk |>).
Proof using. intros H. unfold with_ticks, zoom. rewrite H. by destruct s as [[] ? ? ?]. Qed.

Lemma timer_tick_ok md (s : tstate E) k : minv pol (MState (kn s) md false) -> at_irq (ps (kn s)) -> tickslock s = initlock -> ticks (ps (kn s)) < 2 ^ 31 - 2 ->
  procs (ps (kn s)) !! p = Some k -> state k = RUNNING ->
  exists s', timer_tick pol c s = Ret tt s' /\ at_irq (ps (kn s')) /\ tickslock s' = initlock /\ ticks (ps (kn s')) = ticks (ps (kn s)) + 1 /\ eois s' = eois s /\ said s' = said s /\
    procs (ps (kn s')) !! p = Some (charged pol k) /\ ticksQ (mq (ps (kn s'))) = ticksQ (mq (ps (kn s))) /\ clock_woken (ps (kn s')).
Proof using.
  intros [Hc Hp] Ha Htl Ht Hk Hst. cbn [mk modes pending] in *. pose proof Ha as [Hids Hlk (kc & Hkc & Hn & Hcp & Hif)]. pose proof (lookup_lt_Some _ _ _ Hkc) as Hlt.
  assert (Hok : cpu_ok kc) by (unfold cpu_ok; rewrite Hn, Hif; split; [lia|done]). destruct (push_cpu_ok kc Hok) as [Pn Pf]. pose proof (t_bounds _ _ _ _ _ _ _ Hp) as [_ Hb].
  pose proof (acquire_cases (cpus (ps (kn s))) (tickslock s) c kc Hids Hkc Hok ltac:(lia)) as Hacq. rewrite Htl in Hacq. cbn in Hacq.
  set (p1 := (ps (kn s)) <| cpus := <[c := push_cpu kc]> (cpus (ps (kn s))) |> <| ticks ::= fun n => u32 (n + 1) |>).
  assert (E1 : ticks p1 = ticks (ps (kn s)) + 1) by (cbn; apply u32_small; lia).
  assert (N1 : nested (push_cpu kc) p1). { split; [by apply ids_ok_push|done|by apply list_lookup_insert_eq|split; [lia|done]|lia]. }
  assert (P1 : pinv pol true p1). { pose proof (tick_pinv pol (ps (kn s)) Hp Ht) as H. unfold pinv in *. cbn in H. cbn [p1 procs initproc nextpid mq setf]. rewrite E1, (Z.add_comm _ 1). exact H. }
  destruct (modify_times_ok (push_cpu kc) p1 k N1 P1 Hk Hst) as (p2 & M1 & N2 & C2 & T2 & K2 & Q2).
  destruct (wakeup_ok (push_cpu kc) p2 (charged pol k) (Some ChTicks) N2 K2) as (p3 & W1 & N3 & C3 & T3 & K3 & K3' & Q3); [by destruct pol|].
  pose proof N3 as [I3 L3 Hk3 O3 Hn3]. pose proof (release_cases (cpus p3) (Spinlock 1 (Some c)) c (push_cpu kc) I3 Hk3 O3 ltac:(lia)) as Hrel.
  assert (Hh : held_by c (Spinlock 1 (Some c)) = true) by (unfold held_by; cbn; by apply bool_decide_eq_true_2). rewrite Hh, C3, C2, pop_push_cpu in Hrel by done. cbn [p1 cpus setf] in Hrel. rewrite list_insert_insert_eq in Hrel.
  set (sa := with_ps ((ps (kn s)) <| cpus := <[c := push_cpu kc]> (cpus (ps (kn s))) |>) s <| tickslock := Spinlock 1 (Some c) |>).
  exists (with_ps (p3 <| cpus := <[c := rest_cpu kc]> (cpus (ps (kn s))) |>) s <| tickslock := initlock |>). split.
  - unfold timer_tick. rewrite (bind_ret _ _ s tt sa) by (apply with_ticks_eq; rewrite Htl; exact Hacq). rewrite (bind_ret _ _ sa tt (with_ps p1 sa)) by done. rewrite (bind_ret _ _ _ tt (with_ps p2 sa)) by (rewrite on_pt_eq; change (ps (kn (with_ps p1 sa))) with p1; by rewrite M1).
    rewrite (bind_ret _ _ _ tt (with_ps p3 sa)) by (rewrite on_pt_eq; change (ps (kn (with_ps p2 sa))) with p2; by rewrite W1). unfold release_ticks. erewrite with_ticks_eq; [reflexivity|]. change (ps (kn (with_ps p3 sa))) with p3. change (tickslock (with_ps p3 sa)) with (Spinlock 1 (Some c)). rewrite C3, C2. exact Hrel.
  - split_and!; try done.
    + eapply at_irq_rest; [exact Ha|done|]. intros kc' Hk'. by simplify_eq.
    + cbn. rewrite T3, T2. exact E1.
    + cbn. rewrite Q3. exact Q2.
    + intros q kq Hq. cbn in Hq. rewrite K3 in Hq. exact (wake_clock_woken p2 q kq Hq).
Qed.

(** *** The whole interrupt *)

Context {HSwitch : SwitchOk E} {HReap : ReapOk (E := E)} {HServe : ServicesServe E c}.

Definition ticked (k : proc) : proc := if decide (c = 0%nat) then charged pol k else k.

Lemma dispatch_clock md s k t cr2 : minv pol (MState (kn s) md false) -> md !! c = Some (Running p) -> at_irq (ps (kn s)) -> (c = 0%nat -> tickslock s = initlock) -> ticks (ps (kn s)) < 2 ^ 31 - 2 ->
  procs (ps (kn s)) !! p = Some k -> state k = RUNNING -> tf_trapno t = T_IRQ0 + IRQ_TIMER ->
  exists s', dispatch_trap pol c t cr2 s = Ret tt s' /\ minv pol (MState (kn s') md false) /\ at_irq (ps (kn s')) /\ tickslock s' = tickslock s /\
    ticks (ps (kn s')) = ticks (ps (kn s)) + (if decide (c = 0%nat) then 1 else 0) /\ eois s' = eois s + 1 /\ said s' = said s /\
    procs (ps (kn s')) !! p = Some (ticked k) /\ ticksQ (mq (ps (kn s'))) = ticksQ (mq (ps (kn s))) /\ (c = 0%nat -> clock_woken (ps (kn s'))).
Proof using HSwitch HReap HServe.
  intros Hinv Hmo Ha Htl Ht Hk Hst Hno. assert (Hid : cpu_id c s = Ret (Z.of_nat c) s).
  { destruct Ha as [Hids _ (kc & Hkc & _ & _ & Hif)]. unfold cpu_id. rewrite on_pt_eq. unfold zoom, cpuid, mbind, M_bind. rewrite (mycpu_ok _ _ _ Hids Hkc Hif). by destruct s as [[[] ?] ? ? ?]. }
  cut (exists s', dispatch_trap pol c t cr2 s = Ret tt s' /\ at_irq (ps (kn s')) /\ tickslock s' = tickslock s /\
    ticks (ps (kn s')) = ticks (ps (kn s)) + (if decide (c = 0%nat) then 1 else 0) /\ eois s' = eois s + 1 /\ said s' = said s /\
    procs (ps (kn s')) !! p = Some (ticked k) /\ ticksQ (mq (ps (kn s'))) = ticksQ (mq (ps (kn s))) /\ (c = 0%nat -> clock_woken (ps (kn s')))).
  { intros (s' & Hrun & H). exists s'. split; [done|]. split; [|done]. destruct Ha as [_ _ (kc & Hkc & Hn & _)].
    destruct (leg_dispatch pol c (Running p) eq_refl t cr2 s md tt s' Hmo Hinv) as [Hr _]; [split; [by exists kc|exact Ht]|done|]. rewrite (list_insert_id md) in Hr by done. by eapply rtc_minv. }
  unfold dispatch_trap. rewrite Hno. cbv zeta. rewrite Z.eqb_refl, (bind_ret _ _ _ _ _ Hid). unfold ticked. destruct (decide (c = 0%nat)) as [Hc0|Hc0].
  - replace (Z.of_nat c =? 0) with true by lia. destruct (timer_tick_ok md s k Hinv Ha (Htl Hc0) Ht Hk Hst) as (s1 & Hrun & A1 & T1 & C1 & E1 & D1 & K1 & Q1 & W1).
    rewrite (bind_ret _ _ _ _ _ Hrun). eexists. split; [reflexivity|]. rewrite (Htl Hc0). split_and!; try done. cbn. rewrite E1. lia.
  - replace (Z.of_nat c =? 0) with false by lia. rewrite (bind_ret _ _ s tt s) by done. eexists. split; [reflexivity|]. split_and!; try done; cbn; lia.
Qed.

Lemma ticked_fields k : state (ticked k) = state k /\ killed (ticked k) = killed k /\ pid (ticked k) = pid k /\ queueNo (ticked k) = queueNo k.
Proof using. unfold ticked. destruct (decide (c = 0%nat)); [|done]. by destruct pol. Qed.

Lemma wp_after_clock md s k t : minv pol (MState (kn s) md false) -> md !! c = Some (Running p) -> at_irq (ps (kn s)) -> slices_set (ps (kn s)) -> procs (ps (kn s)) !! p = Some k -> state k = RUNNING -> pid k <> 0 -> killed k = 0 ->
  tf_trapno t = T_IRQ0 + IRQ_TIMER ->
  wp (y ← preempted pol c t; if (y : bool) then on_pt (yield pol c);; mret TYield else trap_leave c t)
    (fun e s' => e = (if preempts k then TYield else TReturn) /\ ticks (ps (kn s')) = ticks (ps (kn s)) /\ eois s' = eois s /\ said s' = said s /\ tickslock s' = tickslock s /\
      (clock_woken (ps (kn s)) -> clock_woken (ps (kn s'))) /\ exists kp, procs (ps (kn s')) !! p = Some kp /\ if preempts k then switched_out k kp else kp = k) s.
Proof using HSwitch HReap.
  intros Hinv Hmo Ha Hsl Hk Hst Hpid Hkl Ht. destruct (t_proc _ _ _ _ _ _ _ (proj2 Hinv) p k Hk) as [Hq _]. destruct (wp_elim _ _ _ (wp_preempted s s k t Hk Hst Hpid Hq Hsl Ht (irq_from_refl s Ha))) as (y & s1 & Hrun & -> & H1).
  apply wp_bind. eapply wp_intro; [exact Hrun|]. destruct (irq_from_procs _ _ H1) as (P1 & Q1 & T1 & E1 & D1 & L1). destruct (preempts k) eqn:Hpre.
  - pose proof Ha as [_ _ (kc & Hkc & Hn & _)]. destruct (leg_preempted pol c (Running p) eq_refl t s md true s1 Hmo Hinv) as (Hr & _ & Hv); [split; [by exists kc|done]|done|]. rewrite (list_insert_id md) in Hr by done.
    destruct (Hv eq_refl) as (q & [= <-] & Hq4). apply wp_bind. eapply wp_mono; [apply (wp_yield md s1); [by eapply rtc_minv|done|apply H1|done]|]. intros [] s2 (Y1 & Y2 & Y3 & Y4 & Y5 & k1 & kp & Y0 & Y6 & Y7). rewrite P1, Hk in Y0. injection Y0 as <-. apply wp_ret. split_and!; try congruence.
    + intros Hw q kq Hkq Hs. destruct (decide (q = p)) as [->|Hne]; [exfalso; apply (switched_runnable k kp Y7); congruence|]. rewrite Y5, P1 in Hkq by done. by eapply Hw.
    + eauto.
  - unfold trap_leave. apply wp_bind. eapply wp_mono; [by apply (wp_must_die s s1 k t)|]. intros b s2 [-> H2]. destruct (irq_from_procs _ _ H2) as (P2 & Q2 & T2 & E2 & D2 & L2). apply wp_ret. split_and!; try congruence.
    + unfold clock_woken. by rewrite P2.
    + exists k. split; [congruence|done].
Qed.

(** C40. A clock interrupt that finds a process in user or kernel mode, without a lock held, returns.
    On CPU 0 the clock advances by one, the process is charged for the tick (its running time, and
    with the feedback queues its ticks in the queue and its time slice) and nobody sleeps on the
    clock any more; the interrupt is acknowledged once.
    The process gives up the CPU exactly when the policy wants it: under round robin and
    by priority always, first come first served never, and with the feedback queues when it has
    used more than the time slice of its queue, the last queue excepted; it then moves on to the next
    queue with a new slice.  Else its entry is as the tick left it.  All this is a sequence
    of steps of the machine.  The clock is below [2^31 - 2]. *)
Theorem clock_interrupt md s k tfp t cr2 :
  minv pol (MState (kn s) md false) -> md !! c = Some (Running p) -> at_irq (ps (kn s)) -> (c = 0%nat -> tickslock s = initlock) ->
  ticks (ps (kn s)) < 2 ^ 31 - 2 -> slices_set (ps (kn s)) -> procs (ps (kn s)) !! p = Some k -> pid k <> 0 -> killed k = 0 ->
  tf_trapno t = T_IRQ0 + IRQ_TIMER ->
  exists s' kp, trap pol c tfp t cr2 s = Ret (if preempts (ticked k) then TYield else TReturn) s' /\
    ticks (ps (kn s')) = ticks (ps (kn s)) + (if decide (c = 0%nat) then 1 else 0) /\ eois s' = eois s + 1 /\ said s' = said s /\ tickslock s' = tickslock s /\
    (c = 0%nat -> clock_woken (ps (kn s'))) /\ procs (ps (kn s')) !! p = Some kp /\ (if preempts (ticked k) then switched_out (ticked k) kp else kp = ticked k) /\
    rtc (mstep pol) (MState (kn s) md false) (MState (kn s') (<[c := if preempts (ticked k) then Yielded p else Running p]> md) false).
Proof using HSwitch HReap HServe.
  intros Hinv Hmo Ha Htl Ht Hsl Hk Hpid Hkl Hno. destruct (c_runs _ _ (proj1 Hinv) c _ p Hmo eq_refl) as (k0 & Hk0 & Hst). cbn [mk] in Hk0. rewrite Hk in Hk0. injection Hk0 as <-. destruct (ticked_fields k) as (F1 & F2 & F3 & F4).
  destruct (dispatch_clock md s k t cr2 Hinv Hmo Ha Htl Ht Hk Hst Hno) as (s1 & R1 & I1 & A1 & L1 & T1 & E1 & D1 & K1 & Q1 & W1).
  destruct (wp_elim _ _ _ (wp_must_die s1 s1 (ticked k) t K1 ltac:(congruence) (irq_from_refl s1 A1))) as (b & s2 & R2 & -> & H2). destruct (irq_from_procs _ _ H2) as (P2 & Q2 & T2 & E2 & D2 & L2).
  assert (Hend : exists s' kp, trap pol c tfp t cr2 s = Ret (if preempts (ticked k) then TYield else TReturn) s' /\ ticks (ps (kn s')) = ticks (ps (kn s2)) /\ eois s' = eois s2 /\ said s' = said s2 /\ tickslock s' = tickslock s2 /\
      (clock_woken (ps (kn s2)) -> clock_woken (ps (kn s'))) /\ procs (ps (kn s')) !! p = Some kp /\ if preempts (ticked k) then switched_out (ticked k) kp else kp = ticked k).
  { unfold trap. rewrite Hno. change (T_IRQ0 + IRQ_TIMER =? T_SYSCALL) with false. cbn iota. rewrite (bind_ret _ _ _ _ _ R1), (bind_ret _ _ _ _ _ R2).
    destruct (decide (pol = FCFS)) as [Hpol|Hpol].
    - exists s2, (ticked k). unfold preempts. rewrite Hpol. split_and!; try done; congruence.
    - pose proof A1 as [_ _ (kc & Hkc & Hn & _)]. destruct (leg_must_die pol c (Running p) eq_refl t s1 md false s2 Hmo I1) as [Hr _]; [split; [by exists kc|done]|done|]. rewrite (list_insert_id md) in Hr by done.
      destruct (wp_elim _ _ _ (wp_after_clock md s2 (ticked k) t (rtc_minv _ _ _ I1 Hr) Hmo (proj1 H2) ltac:(unfold slices_set; rewrite Q2, Q1; exact Hsl) ltac:(by rewrite P2) ltac:(congruence) ltac:(congruence) ltac:(congruence) Hno)) as (e & s' & R3 & -> & T3 & E3 & D3 & L3 & W3 & kp & Hkp & Hs3).
      exists s', kp. split_and!; try done. destruct pol; try exact R3. done. }
  destruct Hend as (s' & kp & Hrun & T3 & E3 & D3 & L3 & W3 & Hkp & Hs3). exists s', kp. split_and!; try done; try congruence.
  - intros H0. apply W3. unfold clock_woken. rewrite P2. by apply W1.
  - pose proof Ha as [_ _ (kc & Hkc & Hn & _)]. pose proof (leg_interrupt pol c (Running p) eq_refl t cr2 ltac:(rewrite Hno; done) tfp s md _ s' Hmo Hinv (conj (ex_intro _ kc (conj Hkc Hn)) Ht) Hrun) as [Hr _]. by destruct (preempts (ticked k)).
Qed.

End Irq.

(** ** A clock interrupt in init

    With the smallest kernel around proc.c, whose devices do nothing. *)

#[export] Instance null_mem : UserMem Z := {| uload := fun _ => mret 0; ustore := fun _ _ => mret tt |}.
#[export] Instance null_handlers : Handlers Z := {| ideintr := fun _ => mret tt; kbdintr := fun _ => mret tt; uartintr := fun _ => mret tt |}.
#[export] Instance null_serves c : ServicesServe Z c.
Proof. split; repeat intro; simplify_eq; try apply rtc_refl; by match goal with H : _ = Ret _ _ |- _ => injection H as <- <-; apply rtc_refl end. Qed.

(** CPU 0 starts init and is interrupted. *)
Definition init_running : kern Z :=
  let k0 := mk (boot2 ROUND_ROBIN) in
  let k1 := after (sched_top ROUND_ROBIN 0 0 None k0) k0 in
  after (lift (release_pt 0) k1) k1.
Definition init_kern : kern Z :=
  init_running <| ps ::= (fun s => s <| cpus ::= alter (fun k => k <| iflag := false |>) 0%nat |>) |>.
Definition init_modes : list mode := [Running 0; InSched 0 None].

Lemma init_reached : rtc (mstep ROUND_ROBIN) (boot2 ROUND_ROBIN) (MState init_kern init_modes false).
Proof.
  transitivity (MState init_running init_modes false).
  { eapply rtc_l; [eapply (st_top _ 0); by_eval|]. eapply rtc_once, (st_forkret _ 0 0 _ init_running [Switching 0; InSched 0 None]); by_eval. }
  apply rtc_once. destruct (cpus (ps init_running) !! 0%nat) as [kc|] eqn:Hkc; [|by vm_compute in Hkc].
  assert (E : init_kern = init_running <| ps ::= (fun s => s <| cpus ::= <[0%nat := kc <| iflag := false |>]> |>) |>).
  { unfold init_kern, setf. cbn. by rewrite (list_alter_insert _ _ _ _ Hkc). }
  rewrite E. by apply (st_iflag _ 0 (Running 0)).
Qed.

Lemma init_at_irq : at_irq 0 0 (ps init_kern).
Proof.
  split; [|by_eval|eexists; split_and!; by_eval]. vm_compute. apply NoDup_cons. split; [|apply NoDup_singleton]. by intros ?%list_elem_of_singleton.
Qed.


Definition clock_tf : trapframe := zero_tf <| tf_trapno := 32 |> <| tf_cs := 27 |>.

Lemma clock_interrupt_witness : exists s', 
  trap ROUND_ROBIN 0 0 clock_tf 0 (TState init_kern initlock 0 []) = Ret TYield s' /\ ticks (ps (kn s')) = 1.
Proof.
  destruct (procs (ps init_kern) !! 0%nat) as [kp|] eqn:Hk; [|by vm_compute in Hk].
  assert (Hpid : pid kp = 1 /\ killed kp = 0) by (vm_compute in Hk; by injection Hk as <-). destruct Hpid as [Hpid Hkl].
  destruct (clock_interrupt ROUND_ROBIN 0 0 init_modes (TState init_kern initlock 0 []) kp 0 clock_tf 0 (reachable_minv _ _ _ (boot2_booted _) init_reached) eq_refl init_at_irq (fun _ => eq_refl) ltac:(by_eval) ltac:(by_eval) Hk ltac:(lia) Hkl eq_refl)
    as (s' & kp' & Hrun & Htk & _).
  exists s'. split; [exact Hrun|]. rewrite Htk. by_eval.
Defined.

(** ** Every way into the kernel *)



